(* ===== verification/_CoqProject ===== *)
-Q . S2P
Prelude.v
SeqNum.v
TcpTypes.v
TcpSendQueue.v
TcpRcvQueue.v
TcpStream.v
TcpConnection.v
TcpSockets.v
TcpSend.v
TcpAlgorithm.v
TcpFsm.v
TcpReceive.v
TcpMain.v
TcpSendSpec.v
TcpAlgSpec.v
TcpAckSpec.v
TcpFsmSpec.v
TcpSocketsSpec.v
TcpModuleSpec.v
TcpTimerSpec.v
TcpHandshake.v
TcpTextSpec.v
TcpProperties.v
IPAddress.v
IPAddressSpec.v
ReassemblyBuffer.v
MACAddress.v
MachineFloat.v
InterfaceTable.v
RoutingTable.v
RoutingSpec.v
RouteHeap.v
Frames.v
IPDatagram.v
ICMP.v
IPFragBuf.v
IP.v
IPSpec.v
IPForwardSpec.v
IPSafety.v
IPDemo.v
ARP.v
ARPSpec.v
ARPDemo.v
UDP.v
UDPSpec.v
LoopSpec.v
EtherSwitch.v
EtherSwitchSpec.v
Queues.v
QueuesSpec.v
Manet.v
ManetSpec.v
Dymo.v
DymoSpec.v
DymoNetwork.v
DymoTables.v
MachineFloatSpec.v
TED.v
TEDSpec.v
TEDPaths.v
TEDRoutes.v
LinkState.v
LinkStateSpec.v
LinkStateNetwork.v
TEDDemo.v
NotificationBoard.v
Ppp.v
PppSpec.v
EtherMac.v
EtherMacSpec.v
EtherMacPause.v
Mpls.v
Ldp.v
LdpSpec.v
LdpHandlers.v
LdpRouter.v
LdpStart.v
LdpNetwork.v
LdpDemo.v
