(* ===== verification/Prelude.v ===== *)
(** * INETMANET: a verification library

    INETMANET is a network simulation framework for OMNeT++.  Its core, under
    [src/src], is a set of protocol modules that exchange messages: applications
    talk to the transport layer ([transport/tcp], [transport/udp]), which sends
    packets through the network layer ([networklayer/ipv4], [networklayer/arp]) and
    the link layers ([linklayer]).  Every module runs one handler per simulation
    event, to completion.  The library models the C++ of the TCP/IPv4 stack - TCP,
    UDP, IP with its routing table, fragmentation and ICMP, ARP -, of the queues, of
    the Ethernet switch and MACs, of PPP, of the ad hoc routing protocol DYMO, of the
    link state routing with its traffic engineering database and of label switching
    with label distribution as executable definitions and proves what makes it correct.

    ** How the code is modelled

    A handler is a function in the effect monad [Eff S A] of this file: it takes
    the state [S] and returns [Ok a s'] or [Err e].  [Err] stands for everything
    that stops the simulation: a failed [ASSERT], [opp_error], a [NULL]
    dereference.  [OutOfFuel] marks a loop that did not end within its fuel.
    Machine integers are [Z] with the conversions [u32], [u64], [i32], [i16]
    written where the C++ stores into a variable of that width; [long] and
    [ulong] have 64 bits.  Pointers to connections and to routes are keys of a
    heap, pointers to interfaces are interface ids, pointers to sockets and to ARP
    entries are the keys of the map that owns them.  Structures are records with
    the source's field names; [r <| f := v |>] is assignment.  What a module sends
    is appended to a list in its state.

    OMNeT++ is not part of the sources.  What the code uses of it (ticks per
    second, scaling of [simtime_t], [getUniqueNumber], module parameters) is the
    class [SimEnv] of [TcpConnection], the documented behaviour relied on is
    [SimEnvLaws]; [TcpProperties.Demo] gives a concrete environment that
    satisfies them.  The arrival gate of a copy of a packet is the class
    [PacketCopy] of [IP]; random decisions (the bit error in a header, the metrics
    of [scrambleRoutes]) are arguments.  Timers are part of the state, so
    [scheduleAt] on a scheduled timer is the error it is in OMNeT++.

    ** Files

    TCP:
    - [Prelude]: integers, record update, effect monad, generic lemmas.
    - [SeqNum]: [seqLess], [seqLE], [seqGreater], [seqGE] of [TCPConnection.h].
    - [TcpTypes]: [IPvXAddress], [TCPSegment], commands and indications, the FSM
      codes and [TCPStateVariables].
    - [TcpSendQueue]: class [TCPSendQueue], implemented by
      [queues/TCPVirtualDataSendQueue] and [queues/TCPMsgBasedSendQueue]; the laws
      every queue keeps ([SendQueueLaws]) and their instances.
    - [TcpRcvQueue]: class [TCPReceiveQueue] with [queues/TCPVirtualDataRcvQueue]
      and [queues/TCPMsgBasedRcvQueue]; reassembly against an abstract set of
      octets.  [TcpStream]: sender's and receiver's queues composed.
    - [TcpConnection]: records [TCPConnection] and [TCP], timers, handler context.
    - [TcpSockets]: the connection tables of [TCP.cc].
    - [TcpSend]: [TCPConnectionUtil.cc].
    - [TcpAlgorithm]: interface [TCPAlgorithm] and the classes [DumbTCP],
      [TCPBaseAlg], [TCPNoCongestionControl], [TCPTahoe], [TCPReno].
    - [TcpFsm]: state machine of [TCPConnectionBase.cc].
    - [TcpReceive]: [TCPConnectionRcvSegment.cc] and the entry points for timers
      and segments of [TCPConnectionBase.cc].
    - [TcpMain]: [TCPConnectionEventProc.cc], [TCP::handleMessage].
    - [TcpSendSpec], [TcpAlgSpec], [TcpAckSpec], [TcpTimerSpec], [TcpFsmSpec],
      [TcpSocketsSpec], [TcpModuleSpec], [TcpHandshake], [TcpTextSpec]: what the
      operations of the corresponding files do.
    - [TcpProperties]: the properties of TCP as a whole, with concrete instances.

    Network layer and UDP:
    - [IPAddress]: [contract/IPAddress.cc]; [IPAddressSpec]: its properties.
    - [MACAddress]: [linklayer/contract/MACAddress.cc].
    - [MachineFloat]: the [float] and [double] arithmetic the code uses;
      [MachineFloatSpec]: whole numbers below 2^53 are exact.
    - [InterfaceTable]: [common/InterfaceTable.cc], [common/InterfaceEntry.cc] and
      [ipv4/IPv4InterfaceData.cc]; the cached list agrees with the table.
    - [RoutingTable]: [ipv4/RoutingTable.cc] and [ipv4/IPRoute.cc] on a [Node], the
      routing table with the interface table; [RoutingSpec]: its properties;
      [RouteHeap]: routes under addition and deletion, for the protocols that write
      them.
    - [ReassemblyBuffer], [IPFragBuf]: [base/ReassemblyBuffer.cc] and
      [ipv4/IPFragBuf.cc], with the theorems on fragments in any order.
    - [IPDatagram]: packets and control info of the [.msg] files,
      [contract/IPControlInfo.cc], [base/ProtocolMap.cc]; the class [Sends] is what
      ICMP needs of the state of the module that calls it.
    - [ICMP]: [ipv4/ICMP.cc].  [IP]: [ipv4/IP.cc].
    - [IPSpec] (fragmentation), [IPForwardSpec] (forwarding), [IPSafety] (what can
      be sent at all), [IPDemo] (instances on a concrete router).
    - [ARP]: [arp/ARP.cc]; [ARPSpec]: its properties; [ARPDemo]: instances.
    - [UDP]: [transport/udp/UDP.cc]; [UDPSpec]: its properties and instances.
    - [LoopSpec]: the loops of these files end within their fuel.
    - [Frames]: rules and automation for operations that leave a part of the state
      alone, used by [ARPSpec], [UDPSpec]
      and [LoopSpec].

    Link layer and queues:
    - [EtherSwitch]: [linklayer/etherswitch], the address table and forwarding of
      [MACRelayUnitBase], the processors and buffers of [MACRelayUnitNP] and
      [MACRelayUnitPP]; [EtherSwitchSpec]: their properties.
    - [Queues]: [base/PassiveQueueBase.cc] over an interface [PassiveQueue] with the
      disciplines of [networklayer/queue], and [base/AbstractQueue.cc] over its
      hooks ([ServiceHooks]) with [base/QueueBase.cc], the queue in front of IP;
      [QueuesSpec]: what a discipline promises ([QueueLaws]) and the properties.
    - [NotificationBoard]: [base/NotificationBoard.cc].
    - [Ppp]: [linklayer/ppp/PPP.cc] with its output queue and notifications;
      [PppSpec]: a link of two interfaces.
    - [EtherMac]: [linklayer/ethernet], [EtherMACBase] and on top of it [EtherMAC] and
      [EtherMAC2]; [EtherMacSpec]: the invariant of [EtherMAC] and executions;
      [EtherMacPause]: PAUSE frames of length 0.

    Ad hoc routing:
    - [Manet]: [manetrouting/base/ManetRoutingBase.cc] on top of the [Node] of
      [RoutingTable]; [ManetSpec]: the timer queue.
    - [Dymo]: [manetrouting/dymo_fau], messages, timers, table, queue and the
      handlers of [DYMO.cc]; [DymoSpec]: what one handler does to a node;
      [DymoNetwork]: a network of nodes that exchange messages in any order, with
      loss and duplication; [DymoTables]: the queue of waiting datagrams and the
      routes in the IP routing table.

    Link state routing:
    - [TED]: [networklayer/ted/TED.cc] on a [Node]; [TEDSpec] (relaxation rounds and
      walks of a graph), [TEDPaths] (shortest paths of the database), [TEDRoutes]
      (the routes).
    - [LinkState]: [networklayer/ted/LinkStateRouting.cc] on top of [TED];
      [LinkStateSpec]: what one handler does to the entries and what it sends;
      [LinkStateNetwork]: routers that flood their links, messages in any order.
    - [TEDDemo]: three routers in a row, started, flooded and routed.

    Label switching:
    - [Mpls]: [networklayer/mpls], the label information base ([LIBTable]) and the
      forwarding module ([MPLS]), which needs a [LabelSwitchRouter].
    - [Ldp]: [networklayer/ldp/LDP.cc] on top of [TED] and [LIBTable], an instance of
      [LabelSwitchRouter]; sockets as in [transport/contract/TCPSocket.cc].
    - [LdpSpec]: the invariant of a router and a calculus of the handlers that keep it;
      [LdpHandlers]: the label messages; [LdpRouter]: every message; [LdpStart]: the
      state after [initialize]; [LdpNetwork]: routers joined by cables, with packets in
      flight; [LdpDemo]: three routers in a row.

    ** What the theorems show

    - Sending ([TcpSendSpec]): positions of an unbounded stream represent the
      32-bit sequence numbers ([snd_repr]); [sendData] fills the window and never
      exceeds it, [retransmitData] ends and resends everything outstanding.
    - Algorithms ([TcpAlgSpec], [TcpTimerSpec]): [AlgorithmContract] is what the
      connection relies on, each class is proved to keep it; RTO bounds, back-off,
      congestion window, giving up on a dead peer.
    - Acknowledgments ([TcpAckSpec]): every branch of [processAckInEstabEtc].
    - Receiving ([TcpRcvQueue], [TcpStream], [TcpTextSpec]): data is passed up
      once, in order, exactly up to the first gap, for every order of arrival.
    - State machine and connection set-up ([TcpFsmSpec], [TcpHandshake]): bounded
      life of an active connection, timers stopped in CLOSED, the three-way
      handshake of two connections running this code.
    - Module ([TcpSocketsSpec], [TcpModuleSpec]): an invariant of the two tables,
      the heap and the port set holds in every reachable state ([reachable]).
    - Addresses ([IPAddressSpec]): text round trip, agreement of the three prefix
      comparisons.
    - Routing ([RoutingSpec]): in every reachable state of a table without MANET
      routes the lookup, cache included, is a longest prefix match.
    - IP ([IPSpec], [IPForwardSpec], [IPSafety]): fragmentation and reassembly are
      inverse for every order and duplication of the fragments; a datagram for
      another host takes the best route or its sender is told why not; the time to
      live goes down at every hop; errors do not breed errors.
    - ARP ([ARPSpec]): an invariant ties queue, cache and timers together in every
      reachable state; a reply releases the waiting packets in order; without a
      reply the resolution ends after [retryCount] requests.
    - UDP ([UDPSpec]): in every reachable state a packet reaches exactly the sockets
      that accept it, or its sender gets port-unreachable.
    - Ethernet switch ([EtherSwitchSpec]): the switch with an unbounded table is the
      abstract learning switch, with a bounded one it floods at most more; no frame
      goes back to its port; buffers are accounted for exactly.
    - Queues ([QueuesSpec]): no packet is lost, doubled or reordered except by the
      counted drops, requests are answered; the server serves one packet at a time
      in order of arrival.
    - PPP ([PppSpec]): what one end accepts reaches the other end in order, with the
      counted drops and bit errors as the only losses, and the link does not rest while
      there is something to send.
    - Ethernet MAC ([EtherMacSpec], [EtherMacPause]): in every reachable state the
      states of transmitter and receiver agree with the timers, the queue and the
      frame being received, so no internal check fails; where a PAUSE frame stops a
      station for good.
    - DYMO ([DymoNetwork], [DymoTables]): in every reachable network the next hops
      towards a destination form no loop; the IP routing table mirrors the entries;
      waiting datagrams leave in order when a route is found.
    - Traffic engineering ([TEDPaths], [TEDRoutes]): [calculateShortestPath] finds a
      shortest path with the bandwidth asked for, or there is none; the rebuilt
      routing table has exactly the routes that follow from the shortest paths.
    - Link state routing ([LinkStateNetwork]): flooding ends, and when it has ended
      connected routers hold the same entries.
    - Label switching ([LdpNetwork]): while labels are requested, told, withdrawn and
      asked for again, with messages in any order, every labelled packet finds its
      label at the router it reaches, goes on along the next hops of a class of its
      destination, and leaves the labels after a bounded number of hops.  The routing
      tables are fixed: hello timeouts and links that come up, which rebuild them, are
      modelled but not part of the executions; routers start with an empty label table
      and hand out fewer than 2^31 labels.
    - Errors: where an assertion of the code fails, a null pointer is dereferenced
      or a packet is lost.

    ** Fuel

    [sendFullSegments] gets [rounds bytes mss], one round per full segment and the
    final test; [retransmitLoop] two more (a short segment and a lone FIN);
    [TcpSockets.searchPort] and [UDP.searchPort] one round per port of the range;
    [extract_loop] one per region or message in the queue; [merge_rounds] one per
    fragment put aside and the last, since every other round removes one;
    [delete_interface_routes] and [dsdv_loop] one per route and the final test;
    [parse_loop] one per character; [drop_loop] and [reinject_loop] one per queued
    datagram and the final test; [doEndService] one per queued packet and the one in
    service; [chg_loop], [exist_loop] and [clean_loop] run over the positions of the
    routes; [ManetTimer.check_loop] takes its rounds as an argument; [TED.rounds] is the
    bound of the code itself; [path_to] and [next_hop] get one round per vertex, since
    parents form a tree.  The theorems about the functions that use
    them state that they return, so the fuel suffices.

    ** Not modelled

    Log output, output vectors, display strings, destructors and parallel
    simulation; the [state], queue and algorithm pointers that are [NULL] until a
    connection is opened are blocks with their constructors' values.  Table keys
    are compared structurally, that is, a table does not mix an IPv4 address with
    an IPv6 address whose first word is the same.  Of the network layer: module
    parameters and [initialize()] of IP and the routing table, the reader of
    routing files, IP options (never set by the code),
    and the search for the gates of an interface.  SCTP, RTP, IPv6 forwarding, OSPF and
    RSVP-TE are not part of the library; mobility and radio
    models, and the wireless MACs bound to them, compute with floating point geometry
    that the library has no counterpart for; the MANET daemons other than
    DYMO are ports of third-party programs.  Of [ManetRoutingBase] the variant inside a
    mesh MAC and the node positions are left out. *)
From Stdlib Require Export ZArith Lia Bool Sorted.
From stdpp Require Export base tactics list strings gmap gmultiset sorting.

#[global] Set Default Goal Selector "!".

Global Open Scope Z_scope.

Ltac Zify.zify_post_hook ::= Z.div_mod_to_equations.

(** ** Machine integers

    [uint32], [int], [short] and [ulong] values are [Z]; every place where the
    C++ code stores into such a variable goes through one of these casts. *)
Definition u32 (z : Z) : Z := z mod 4294967296.
Definition u64 (z : Z) : Z := z mod 18446744073709551616.
Definition i32 (z : Z) : Z := (z + 2147483648) mod 4294967296 - 2147483648.
Definition i16 (z : Z) : Z := (z + 32768) mod 65536 - 32768.

Definition is_u32 (z : Z) : Prop := 0 <= z < 4294967296.

(** ** Record update

    [r <| f := v |>] is [r] with field [f] replaced by [v].  A record type
    opts in by declaring its [Eta] expansion; setters are then derived. *)
Class Eta (R : Type) := eta_record : R -> R.
Class FieldUpdate {R T : Type} (proj : R -> T) := field_update : T -> R -> R.
Global Hint Mode FieldUpdate ! ! ! : typeclass_instances.

Ltac derive_field_update :=
  lazymatch goal with
  | |- @FieldUpdate ?R ?T ?proj =>
      let e := constr:(_ : Eta R) in
      let body := eval cbv [eta_record] in (@eta_record R e) in
      let body := eval red in body in
      lazymatch (eval pattern proj in body) with
      | (fun _ => ?b) _ => fail "the record has no such field"
      | ?k _ =>
          let upd := eval cbv beta in (fun (v : T) => k (fun _ : R => v)) in
          exact upd
      end
  end.
Global Hint Extern 1 (FieldUpdate _) => derive_field_update : typeclass_instances.

Declare Scope record_scope.
Delimit Scope record_scope with record.
Global Open Scope record_scope.
Notation "r <| f := v |>" := (field_update (proj := f) v r)
  (at level 1, left associativity, f constr at level 9, v at level 200,
   format "r  <|  f  :=  v  |>") : record_scope.

(** ** Errors and the effect monad

    The C++ handlers run inside one simulation event.  They mutate the module
    state and may stop the simulation: a failed [ASSERT], [opp_error] /
    [cRuntimeError], a dereferenced null pointer.  A loop of the source whose
    model is given fuel reports [OutOfFuel] when the fuel does not suffice; the
    theorems about such loops show that it does. *)
Inductive Error : Type :=
| AssertionFailed (what : string)
| RuntimeError (what : string)
| NullPointer (what : string)
| OutOfFuel.

Inductive Outcome (S A : Type) : Type :=
| Ok (a : A) (s : S)
| Err (e : Error).
Arguments Ok {S A} a s.
Arguments Err {S A} e.

Definition Eff (S A : Type) : Type := S -> Outcome S A.

Definition ret {S A} (a : A) : Eff S A := fun s => Ok a s.
Definition bind {S A B} (m : Eff S A) (k : A -> Eff S B) : Eff S B :=
  fun s => match m s with Ok a s' => k a s' | Err e => Err e end.
Definition fail {S A} (e : Error) : Eff S A := fun _ => Err e.
Definition gets {S A} (f : S -> A) : Eff S A := fun s => Ok (f s) s.
Definition modify {S} (f : S -> S) : Eff S unit := fun s => Ok tt (f s).
Definition when {S} (b : bool) (m : Eff S unit) : Eff S unit := if b then m else ret tt.
Definition assert_ {S} (what : string) (b : bool) : Eff S unit :=
  if b then ret tt else fail (AssertionFailed what).

(** Runs [f] on the elements of a list, in order. *)
Fixpoint mapE {S A B} (f : A -> Eff S B) (l : list A) : Eff S (list B) :=
  match l with
  | [] => ret []
  | a :: rest => bind (f a) (fun b => bind (mapE f rest) (fun bs => ret (b :: bs)))
  end.

Declare Scope eff_scope.
Delimit Scope eff_scope with eff.
Global Open Scope eff_scope.
Notation "'let!' x := m 'in' k" := (bind m (fun x => k))
  (at level 10, x name, m at level 100, k at level 200,
   format "'[v' 'let!'  x  :=  m  'in' '/' k ']'") : eff_scope.
Notation "m ;;; k" := (bind m (fun _ : unit => k))
  (at level 199, right associativity, format "'[v' m  ;;; '/' k ']'") : eff_scope.

(** Total correctness: [m] started in [s] returns, without error, a value and
    a state related by [Q]. *)
Definition wp {S A} (m : Eff S A) (Q : A -> S -> Prop) (s : S) : Prop :=
  match m s with Ok a s' => Q a s' | Err _ => False end.

(** Partial correctness: [Q] holds of what [m] returns, if it returns. *)
Definition wlp {S A} (m : Eff S A) (Q : A -> S -> Prop) (s : S) : Prop :=
  match m s with Ok a s' => Q a s' | Err _ => True end.

Section WP.
Context {S : Type}.

Lemma wp_ret {A} (a : A) (Q : A -> S -> Prop) s : Q a s -> wp (ret a) Q s.
Proof. done. Qed.

Lemma wp_bind {A B} (m : Eff S A) (k : A -> Eff S B) Q s :
  wp m (fun a s' => wp (k a) Q s') s -> wp (bind m k) Q s.
Proof. unfold wp, bind. by destruct (m s). Qed.

Lemma wp_mono {A} (m : Eff S A) (P Q : A -> S -> Prop) s :
  wp m P s -> (forall a s', P a s' -> Q a s') -> wp m Q s.
Proof. unfold wp. destruct (m s); naive_solver. Qed.

Lemma wp_conj {A} (m : Eff S A) (P Q : A -> S -> Prop) s :
  wp m P s -> wp m Q s -> wp m (fun a s' => P a s' /\ Q a s') s.
Proof. unfold wp. by destruct (m s). Qed.

Lemma wlp_bind {A B} (m : Eff S A) (k : A -> Eff S B) Q s :
  wlp m (fun a s' => wlp (k a) Q s') s -> wlp (bind m k) Q s.
Proof. unfold wlp, bind. by destruct (m s). Qed.

Lemma wlp_mono {A} (m : Eff S A) (P Q : A -> S -> Prop) s :
  wlp m P s -> (forall a s', P a s' -> Q a s') -> wlp m Q s.
Proof. unfold wlp. destruct (m s); naive_solver. Qed.

Lemma wp_wlp {A} (m : Eff S A) (Q : A -> S -> Prop) s : wp m Q s -> wlp m Q s.
Proof. unfold wp, wlp. by destruct (m s). Qed.

Lemma wp_run {A} (m : Eff S A) (Q : A -> S -> Prop) s :
  wp m Q s <-> exists a s', m s = Ok a s' /\ Q a s'.
Proof. unfold wp. destruct (m s); naive_solver. Qed.

Lemma wlp_run {A} (m : Eff S A) (Q : A -> S -> Prop) s :
  wlp m Q s <-> forall a s', m s = Ok a s' -> Q a s'.
Proof. unfold wlp. destruct (m s); naive_solver. Qed.

Lemma bind_ok {A B} (m : Eff S A) (k : A -> Eff S B) s a s' :
  m s = Ok a s' -> bind m k s = k a s'.
Proof. unfold bind. by intros ->. Qed.

Lemma bind_inv {A B} (m : Eff S A) (k : A -> Eff S B) s b s' :
  bind m k s = Ok b s' -> exists a s1, m s = Ok a s1 /\ k a s1 = Ok b s'.
Proof. unfold bind. destruct (m s) as [a s1|]; [|done]. intros Hk. by exists a, s1. Qed.

Lemma bind_err {A B} (m : Eff S A) (k : A -> Eff S B) s e :
  m s = Err e -> bind m k s = Err e.
Proof. unfold bind. by intros ->. Qed.

End WP.

(** ** Integer lemmas *)
Section Integers.
Implicit Types x y : Z.

Lemma u32_range x : is_u32 (u32 x).
Proof. unfold is_u32, u32. lia. Qed.

Lemma u32_small x : is_u32 x -> u32 x = x.
Proof. unfold is_u32, u32. intros. by apply Z.mod_small. Qed.

Lemma u32_idemp x : u32 (u32 x) = u32 x.
Proof. apply u32_small, u32_range. Qed.

Lemma u32_add_l x y : u32 (u32 x + y) = u32 (x + y).
Proof. unfold u32. apply Zplus_mod_idemp_l. Qed.

Lemma u32_add_r x y : u32 (x + u32 y) = u32 (x + y).
Proof. unfold u32. apply Zplus_mod_idemp_r. Qed.

Lemma u32_sub_l x y : u32 (u32 x - y) = u32 (x - y).
Proof. unfold u32. apply Zminus_mod_idemp_l. Qed.

Lemma u32_sub_r x y : u32 (x - u32 y) = u32 (x - y).
Proof. unfold u32. apply Zminus_mod_idemp_r. Qed.

Lemma i32_small x : -2147483648 <= x < 2147483648 -> i32 x = x.
Proof. unfold i32. intros. rewrite Z.mod_small; lia. Qed.

Lemma i32_range x : -2147483648 <= i32 x < 2147483648.
Proof. unfold i32. lia. Qed.

Lemma i16_small x : -32768 <= x < 32768 -> i16 x = x.
Proof. unfold i16. intros. rewrite Z.mod_small; lia. Qed.

End Integers.

(** ** List lemmas *)
Section Lists.
Context {A : Type} (P : A -> Prop) `{!forall x, Decision (P x)}.

Lemma filter_all (l : list A) : Forall P l -> filter P l = l.
Proof.
  induction 1 as [|x l Hx _ IH]; [done|]. by rewrite filter_cons_True, IH.
Qed.

Lemma filter_nothing (l : list A) : Forall (fun x => ~ P x) l -> filter P l = [].
Proof.
  induction 1 as [|x l Hx _ IH]; [done|]. by rewrite filter_cons_False, IH.
Qed.

Lemma Forall_filter_sub (Q : A -> Prop) (l : list A) : Forall Q l -> Forall Q (filter P l).
Proof.
  rewrite !Forall_forall. intros HQ x [_ Hx]%list_elem_of_filter. by apply HQ.
Qed.

End Lists.

Create HintDb machint.
Create Rewrite HintDb machint.
#[export] Hint Rewrite u32_idemp u32_add_l u32_add_r u32_sub_l u32_sub_r : machint.
#[export] Hint Resolve u32_range u32_small i32_small : machint.

(** Case analysis on the booleans the code branches on. *)
Ltac case_bool :=
  match goal with
  | |- context [if ?b then _ else _] => let E := fresh "E" in destruct b eqn:E
  | H : context [if ?b then _ else _] |- _ => let E := fresh "E" in destruct b eqn:E
  end.
