(* ===== verification/SeqNum.v ===== *)
(** * Sequence number comparison

    [seqLess], [seqLE], [seqGreater] and [seqGE] of
    [transport/tcp/TCPConnection.h], the modulo-2^32 comparisons on which every
    other part of TCP relies. *)
From S2P Require Import Prelude.

Definition seqLess (a b : Z) : bool := negb (a =? b) && (u32 (b - a) <? 2147483648).
Definition seqLE (a b : Z) : bool := u32 (b - a) <? 2147483648.
Definition seqGreater (a b : Z) : bool := negb (a =? b) && (u32 (a - b) <? 2147483648).
Definition seqGE (a b : Z) : bool := u32 (a - b) <? 2147483648.

(** Two unbounded stream positions are comparable when they are less than half
    of the sequence space apart. *)
Definition comparable (x y : Z) : Prop := - 2147483648 < x - y < 2147483648.

Lemma seqLess_u32 x y : comparable x y -> seqLess (u32 x) (u32 y) = (x <? y).
Proof. unfold comparable, seqLess, u32. intros. lia. Qed.

Lemma seqLE_u32 x y : comparable x y -> seqLE (u32 x) (u32 y) = (x <=? y).
Proof. unfold comparable, seqLE, u32. intros. lia. Qed.

Lemma seqGreater_u32 x y : comparable x y -> seqGreater (u32 x) (u32 y) = (y <? x).
Proof. unfold comparable, seqGreater, u32. intros. lia. Qed.

Lemma seqGE_u32 x y : comparable x y -> seqGE (u32 x) (u32 y) = (y <=? x).
Proof. unfold comparable, seqGE, u32. intros. lia. Qed.

Lemma seqLE_refl x : is_u32 x -> seqLE x x = true.
Proof. unfold seqLE, u32. intros _. by rewrite Z.sub_diag. Qed.
