(* ===== verification/TcpTypes.v ===== *)
(** * TCP data model

    Addresses, packets, segments, application commands and indications, the
    finite-state-machine codes and the connection's state variables (TCB), as
    declared in [networklayer/contract/IPvXAddress.h], [transport/tcp/TCPSegment]
    (.msg, .h, .cc), [transport/contract/TCPCommand.msg] and
    [transport/tcp/TCPConnection.h], [TCPConnectionBase.cc]. *)
From S2P Require Import Prelude.

(** ** Addresses

    An IPv4 address uses word [d[0]] only (the other words of an IPv4
    [IPvXAddress] are never initialised), so the two cases are constructors. *)
Inductive IPvXAddress : Type :=
| IPv4 (d0 : Z)
| IPv6 (d0 d1 d2 d3 : Z).

#[export] Instance IPvXAddress_eq_dec : EqDecision IPvXAddress.
Proof. solve_decision. Defined.

#[export] Instance IPvXAddress_countable : Countable IPvXAddress.
Proof.
  refine (inj_countable'
    (fun a => match a with
              | IPv4 d0 => inl d0
              | IPv6 d0 d1 d2 d3 => inr (d0, d1, d2, d3)
              end)
    (fun x => match x with
              | inl d0 => IPv4 d0
              | inr (d0, d1, d2, d3) => IPv6 d0 d1 d2 d3
              end) _).
  by intros [].
Defined.

Definition unspecified : IPvXAddress := IPv4 0.
Definition isIPv6 (a : IPvXAddress) : bool :=
  match a with IPv4 _ => false | IPv6 _ _ _ _ => true end.
Definition isUnspecified (a : IPvXAddress) : bool :=
  match a with IPv4 d0 => d0 =? 0 | IPv6 _ _ _ _ => false end.

(** [IPvXAddress::equals]: an IPv4 address is compared by its only word whatever
    the family of the other address is; in the opposite case the code reads words
    that were never set, which is taken to be "different". *)
Definition addr_equals (a b : IPvXAddress) : bool :=
  match a, b with
  | IPv4 x, IPv4 y => x =? y
  | IPv4 x, IPv6 y _ _ _ => x =? y
  | IPv6 x0 x1 x2 x3, IPv6 y0 y1 y2 y3 => (x0 =? y0) && (x1 =? y1) && (x2 =? y2) && (x3 =? y3)
  | IPv6 _ _ _ _, IPv4 _ => false
  end.

(** ** Packets and segments *)
Record cPacket : Type := mk_cPacket {
  pk_name : string;
  pk_byteLength : Z
}.

Record TCPSegment : Type := mk_TCPSegment {
  srcPort : Z;
  destPort : Z;
  sequenceNo : Z;
  ackNo : Z;
  urgBit : bool;
  ackBit : bool;
  pshBit : bool;
  rstBit : bool;
  synBit : bool;
  finBit : bool;
  window : Z;
  urgentPointer : Z;
  payloadLength : Z;
  payloadList : list (Z * cPacket)
}.

#[export] Instance eta_TCPSegment : Eta TCPSegment := fun s =>
  {| srcPort := srcPort s; destPort := destPort s; sequenceNo := sequenceNo s;
     ackNo := ackNo s; urgBit := urgBit s; ackBit := ackBit s; pshBit := pshBit s;
     rstBit := rstBit s; synBit := synBit s; finBit := finBit s; window := window s;
     urgentPointer := urgentPointer s; payloadLength := payloadLength s;
     payloadList := payloadList s |}.

(** [new TCPSegment(name)]: every header field is zero, the payload is empty. *)
Definition createTCPSegment : TCPSegment :=
  {| srcPort := 0; destPort := 0; sequenceNo := 0; ackNo := 0; urgBit := false;
     ackBit := false; pshBit := false; rstBit := false; synBit := false;
     finBit := false; window := 0; urgentPointer := 0; payloadLength := 0;
     payloadList := [] |}.

Definition addPayloadMessage (seg : TCPSegment) (msg : cPacket) (endSequenceNo : Z)
    : TCPSegment :=
  seg <| payloadList := payloadList seg ++ [(u32 endSequenceNo, msg)] |>.

Definition removeFirstPayloadMessage (seg : TCPSegment)
    : option (cPacket * Z * TCPSegment) :=
  match payloadList seg with
  | [] => None
  | (endSequenceNo, msg) :: rest => Some (msg, endSequenceNo, seg <| payloadList := rest |>)
  end.

(** ** Application interface *)
Inductive TcpStatusInd : Type :=
| TCP_I_DATA
| TCP_I_URGENT_DATA
| TCP_I_ESTABLISHED
| TCP_I_PEER_CLOSED
| TCP_I_CLOSED
| TCP_I_CONNECTION_REFUSED
| TCP_I_CONNECTION_RESET
| TCP_I_TIMED_OUT
| TCP_I_STATUS.

Inductive SendQueueClass : Type := TCPVirtualDataSendQueue_class | TCPMsgBasedSendQueue_class.
Inductive ReceiveQueueClass : Type := TCPVirtualDataRcvQueue_class | TCPMsgBasedRcvQueue_class.
Inductive AlgorithmClass : Type :=
| DumbTCP_class
| TCPNoCongestionControl_class
| TCPTahoe_class
| TCPReno_class.

Record TCPOpenCommand : Type := mk_TCPOpenCommand {
  open_localAddr : IPvXAddress;
  open_remoteAddr : IPvXAddress;
  open_localPort : Z;
  open_remotePort : Z;
  open_fork : bool;
  open_sendQueueClass : option SendQueueClass;
  open_receiveQueueClass : option ReceiveQueueClass;
  open_tcpAlgorithmClass : option AlgorithmClass
}.

(** The command codes [TCP_C_xxx] together with the control info they carry. *)
Inductive AppCommand : Type :=
| TCP_C_OPEN_ACTIVE (openCmd : TCPOpenCommand)
| TCP_C_OPEN_PASSIVE (openCmd : TCPOpenCommand)
| TCP_C_SEND (msg : cPacket)
| TCP_C_CLOSE
| TCP_C_ABORT
| TCP_C_STATUS.

(** ** Finite state machine codes *)
Inductive TcpState : Type :=
| TCP_S_INIT
| TCP_S_CLOSED
| TCP_S_LISTEN
| TCP_S_SYN_SENT
| TCP_S_SYN_RCVD
| TCP_S_ESTABLISHED
| TCP_S_CLOSE_WAIT
| TCP_S_LAST_ACK
| TCP_S_FIN_WAIT_1
| TCP_S_FIN_WAIT_2
| TCP_S_CLOSING
| TCP_S_TIME_WAIT.

#[export] Instance TcpState_eq_dec : EqDecision TcpState.
Proof. solve_decision. Defined.

Definition state_eqb (a b : TcpState) : bool := bool_decide (a = b).

Inductive TCPEventCode : Type :=
| TCP_E_IGNORE
| TCP_E_OPEN_ACTIVE
| TCP_E_OPEN_PASSIVE
| TCP_E_SEND
| TCP_E_CLOSE
| TCP_E_ABORT
| TCP_E_STATUS
| TCP_E_RCV_DATA
| TCP_E_RCV_ACK
| TCP_E_RCV_SYN
| TCP_E_RCV_SYN_ACK
| TCP_E_RCV_FIN
| TCP_E_RCV_FIN_ACK
| TCP_E_RCV_RST
| TCP_E_RCV_UNEXP_SYN
| TCP_E_TIMEOUT_2MSL
| TCP_E_TIMEOUT_CONN_ESTAB
| TCP_E_TIMEOUT_FIN_WAIT_2.

#[export] Instance TCPEventCode_eq_dec : EqDecision TCPEventCode.
Proof. solve_decision. Defined.

(** ** State variables (TCB) *)
Record TCPStateVariables : Type := mk_TCPStateVariables {
  active : bool;
  fork : bool;
  snd_mss : Z;
  snd_una : Z;
  snd_nxt : Z;
  snd_max : Z;
  snd_wnd : Z;
  snd_up : Z;
  snd_wl1 : Z;
  snd_wl2 : Z;
  iss : Z;
  rcv_nxt : Z;
  rcv_wnd : Z;
  rcv_up : Z;
  irs : Z;
  dupacks : Z;
  syn_rexmit_count : Z;
  syn_rexmit_timeout : Z;
  fin_ack_rcvd : bool;
  send_fin : bool;
  snd_fin_seq : Z;
  fin_rcvd : bool;
  rcv_fin_seq : Z
}.

#[export] Instance eta_TCPStateVariables : Eta TCPStateVariables := fun s =>
  {| active := active s; fork := fork s; snd_mss := snd_mss s; snd_una := snd_una s;
     snd_nxt := snd_nxt s; snd_max := snd_max s; snd_wnd := snd_wnd s; snd_up := snd_up s;
     snd_wl1 := snd_wl1 s; snd_wl2 := snd_wl2 s; iss := iss s; rcv_nxt := rcv_nxt s;
     rcv_wnd := rcv_wnd s; rcv_up := rcv_up s; irs := irs s; dupacks := dupacks s;
     syn_rexmit_count := syn_rexmit_count s; syn_rexmit_timeout := syn_rexmit_timeout s;
     fin_ack_rcvd := fin_ack_rcvd s; send_fin := send_fin s; snd_fin_seq := snd_fin_seq s;
     fin_rcvd := fin_rcvd s; rcv_fin_seq := rcv_fin_seq s |}.

(** The constructor: [snd_mss = -1] and [rcv_wnd = -1] are stored in unsigned
    variables. *)
Definition TCPStateVariables_new : TCPStateVariables :=
  {| active := false; fork := false; snd_mss := u32 (-1); snd_una := 0; snd_nxt := 0;
     snd_max := 0; snd_wnd := 0; snd_up := 0; snd_wl1 := 0; snd_wl2 := 0; iss := 0;
     rcv_nxt := 0; rcv_wnd := u32 (-1); rcv_up := 0; irs := 0; dupacks := 0;
     syn_rexmit_count := 0; syn_rexmit_timeout := 0; fin_ack_rcvd := false;
     send_fin := false; snd_fin_seq := 0; fin_rcvd := false; rcv_fin_seq := 0 |}.

(** ** Lemmas *)
Lemma state_eqb_eq a b : state_eqb a b = true <-> a = b.
Proof. apply bool_decide_eq_true. Qed.

Lemma state_eqb_refl a : state_eqb a a = true.
Proof. by apply state_eqb_eq. Qed.
