(* ===== verification/TcpSendQueue.v ===== *)
(** * TCP send queues

    The abstract class [TCPSendQueue] ([transport/tcp/TCPSendQueue.h]) is the
    type class [SendQueue]; its two subclasses, [TCPVirtualDataSendQueue] and
    [TCPMsgBasedSendQueue] ([transport/tcp/queues]), are instances.  What a
    connection relies on is stated once, as [SendQueueLaws], and both subclasses
    discharge it.  The second part of the file shows that the message based
    queue spreads its messages over the segments without losing, duplicating or
    reordering any. *)
From S2P Require Import Prelude SeqNum TcpTypes.

(** ** The abstract class *)
Class SendQueue (Q : Type) : Type := {
  sq_init : Z -> Eff Q unit;
  sq_enqueueAppData : cPacket -> Eff Q unit;
  sq_getBufferEndSeq : Q -> Z;
  sq_createSegmentWithBytes : Z -> Z -> Eff Q TCPSegment;
  sq_discardUpTo : Z -> Eff Q unit
}.

Definition getBytesAvailable `{SendQueue Q} (fromSeq : Z) (q : Q) : Z :=
  let bufEndSeq := sq_getBufferEndSeq q in
  if seqLess fromSeq bufEndSeq then u32 (bufEndSeq - fromSeq) else 0.

(** ** Byte counts only *)
Module TCPVirtualDataSendQueue.
Record t : Type := mk { begin_ : Z; end_ : Z }.

#[export] Instance eta : Eta t := fun q => {| begin_ := begin_ q; end_ := end_ q |}.

Definition new : t := {| begin_ := 0; end_ := 0 |}.

Definition init (startSeq : Z) : Eff t unit :=
  modify (fun _ => {| begin_ := startSeq; end_ := startSeq |}).

Definition enqueueAppData (msg : cPacket) : Eff t unit :=
  modify (fun q => q <| end_ := u32 (end_ q + pk_byteLength msg) |>).

Definition getBufferEndSeq (q : t) : Z := end_ q.

Definition createSegmentWithBytes (fromSeq numBytes : Z) : Eff t TCPSegment :=
  let! q := gets id in
  assert_ "seqLE(begin,fromSeq) && seqLE(fromSeq+numBytes,end)"
    (seqLE (begin_ q) fromSeq && seqLE (u32 (fromSeq + numBytes)) (end_ q)) ;;;
  ret (createTCPSegment <| sequenceNo := fromSeq |> <| payloadLength := i32 numBytes |>).

Definition discardUpTo (seqNum : Z) : Eff t unit :=
  let! q := gets id in
  assert_ "seqLE(begin,seqNum) && seqLE(seqNum,end)"
    (seqLE (begin_ q) seqNum && seqLE seqNum (end_ q)) ;;;
  modify (fun q => q <| begin_ := seqNum |>).
End TCPVirtualDataSendQueue.

#[export] Instance VirtualDataSendQueue_SendQueue : SendQueue TCPVirtualDataSendQueue.t := {
  sq_init := TCPVirtualDataSendQueue.init;
  sq_enqueueAppData := TCPVirtualDataSendQueue.enqueueAppData;
  sq_getBufferEndSeq := TCPVirtualDataSendQueue.getBufferEndSeq;
  sq_createSegmentWithBytes := TCPVirtualDataSendQueue.createSegmentWithBytes;
  sq_discardUpTo := TCPVirtualDataSendQueue.discardUpTo
}.

(** ** Message objects

    A queued message is stored with the sequence number following its last
    octet; [init] resets the range but keeps [payloadQueue], as the code does. *)
Module TCPMsgBasedSendQueue.
Record t : Type := mk {
  begin_ : Z;
  end_ : Z;
  payloadQueue : list (Z * cPacket)
}.

#[export] Instance eta : Eta t := fun q =>
  {| begin_ := begin_ q; end_ := end_ q; payloadQueue := payloadQueue q |}.

Definition new : t := {| begin_ := 0; end_ := 0; payloadQueue := [] |}.

Definition init (startSeq : Z) : Eff t unit :=
  modify (fun q => q <| begin_ := startSeq |> <| end_ := startSeq |>).

Definition enqueueAppData (msg : cPacket) : Eff t unit :=
  modify (fun q =>
    let e := u32 (end_ q + pk_byteLength msg) in
    q <| end_ := e |> <| payloadQueue := payloadQueue q ++ [(e, msg)] |>).

Definition getBufferEndSeq (q : t) : Z := end_ q.

(** [while (i!=end() && seqLE(i->endSequenceNo, seq)) ++i;] *)
Fixpoint skip_upto (seq : Z) (l : list (Z * cPacket)) : list (Z * cPacket) :=
  match l with
  | (e, m) :: rest => if seqLE e seq then skip_upto seq rest else l
  | [] => []
  end.

(** The second loop: adds the messages that end up to [toSeq] to the segment. *)
Fixpoint add_upto (toSeq : Z) (l : list (Z * cPacket)) (seg : TCPSegment) : TCPSegment :=
  match l with
  | (e, m) :: rest =>
      if seqLE e toSeq then add_upto toSeq rest (addPayloadMessage seg m e) else seg
  | [] => seg
  end.

Definition createSegmentWithBytes (fromSeq numBytes : Z) : Eff t TCPSegment :=
  let! q := gets id in
  assert_ "seqLE(begin,fromSeq) && seqLE(fromSeq+numBytes,end)"
    (seqLE (begin_ q) fromSeq && seqLE (u32 (fromSeq + numBytes)) (end_ q)) ;;;
  let tcpseg :=
    createTCPSegment <| sequenceNo := fromSeq |> <| payloadLength := i32 numBytes |> in
  let i := skip_upto fromSeq (payloadQueue q) in
  let toSeq := u32 (fromSeq + numBytes) in
  ret (add_upto toSeq i tcpseg).

Definition discardUpTo (seqNum : Z) : Eff t unit :=
  let! q := gets id in
  assert_ "seqLE(begin,seqNum) && seqLE(seqNum,end)"
    (seqLE (begin_ q) seqNum && seqLE seqNum (end_ q)) ;;;
  modify (fun q => q <| begin_ := seqNum |>
                     <| payloadQueue := skip_upto seqNum (payloadQueue q) |>).
End TCPMsgBasedSendQueue.

#[export] Instance MsgBasedSendQueue_SendQueue : SendQueue TCPMsgBasedSendQueue.t := {
  sq_init := TCPMsgBasedSendQueue.init;
  sq_enqueueAppData := TCPMsgBasedSendQueue.enqueueAppData;
  sq_getBufferEndSeq := TCPMsgBasedSendQueue.getBufferEndSeq;
  sq_createSegmentWithBytes := TCPMsgBasedSendQueue.createSegmentWithBytes;
  sq_discardUpTo := TCPMsgBasedSendQueue.discardUpTo
}.

(** ** An object of either class

    What a [TCPSendQueue *] points to; each method dispatches on the class. *)
Inductive AnySendQueue : Type :=
| VirtualDataSQ (q : TCPVirtualDataSendQueue.t)
| MsgBasedSQ (q : TCPMsgBasedSendQueue.t).

Definition createSendQueue (c : SendQueueClass) : AnySendQueue :=
  match c with
  | TCPVirtualDataSendQueue_class => VirtualDataSQ TCPVirtualDataSendQueue.new
  | TCPMsgBasedSendQueue_class => MsgBasedSQ TCPMsgBasedSendQueue.new
  end.

Definition sendQueue_className (q : AnySendQueue) : SendQueueClass :=
  match q with
  | VirtualDataSQ _ => TCPVirtualDataSendQueue_class
  | MsgBasedSQ _ => TCPMsgBasedSendQueue_class
  end.

(** Runs a method of the subclass and puts the object back. *)
Definition lift_into {Q R A} (wrap : Q -> R) (m : Eff Q A) (q : Q) : Outcome R A :=
  match m q with Ok a q' => Ok a (wrap q') | Err e => Err e end.

Definition dispatch {A} (mv : Eff TCPVirtualDataSendQueue.t A)
    (mm : Eff TCPMsgBasedSendQueue.t A) : Eff AnySendQueue A :=
  fun q => match q with
           | VirtualDataSQ q => lift_into VirtualDataSQ mv q
           | MsgBasedSQ q => lift_into MsgBasedSQ mm q
           end.

#[export] Instance AnySendQueue_SendQueue : SendQueue AnySendQueue := {
  sq_init s := dispatch (sq_init s) (sq_init s);
  sq_enqueueAppData m := dispatch (sq_enqueueAppData m) (sq_enqueueAppData m);
  sq_getBufferEndSeq q :=
    match q with VirtualDataSQ q => sq_getBufferEndSeq q | MsgBasedSQ q => sq_getBufferEndSeq q end;
  sq_createSegmentWithBytes f n :=
    dispatch (sq_createSegmentWithBytes f n) (sq_createSegmentWithBytes f n);
  sq_discardUpTo s := dispatch (sq_discardUpTo s) (sq_discardUpTo s)
}.

(** ** What a connection relies on

    Seen from the connection a send queue is a range of sequence numbers. *)
Definition bare_segment (fromSeq numBytes : Z) : TCPSegment :=
  createTCPSegment <| sequenceNo := fromSeq |> <| payloadLength := i32 numBytes |>.

(** Equality of segments up to the message objects they carry. *)
Definition same_header (a b : TCPSegment) : Prop :=
  a <| payloadList := [] |> = b <| payloadList := [] |>.

Class SendQueueLaws (Q : Type) `{SendQueue Q} : Type := {
  sq_begin : Q -> Z;
  sq_init_law : forall s q, exists q',
    sq_init s q = Ok tt q' /\ sq_begin q' = s /\ sq_getBufferEndSeq q' = s;
  sq_enqueue_law : forall m q, exists q',
    sq_enqueueAppData m q = Ok tt q' /\ sq_begin q' = sq_begin q /\
    sq_getBufferEndSeq q' = u32 (sq_getBufferEndSeq q + pk_byteLength m);
  sq_create_law : forall from n q,
    seqLE (sq_begin q) from = true ->
    seqLE (u32 (from + n)) (sq_getBufferEndSeq q) = true ->
    exists seg, sq_createSegmentWithBytes from n q = Ok seg q /\
                same_header seg (bare_segment from n);
  sq_create_assert : forall from n q,
    seqLE (sq_begin q) from && seqLE (u32 (from + n)) (sq_getBufferEndSeq q) = false ->
    exists w, sq_createSegmentWithBytes from n q = Err (AssertionFailed w);
  sq_discard_law : forall s q,
    seqLE (sq_begin q) s = true -> seqLE s (sq_getBufferEndSeq q) = true ->
    exists q', sq_discardUpTo s q = Ok tt q' /\ sq_begin q' = s /\
               sq_getBufferEndSeq q' = sq_getBufferEndSeq q;
  sq_discard_assert : forall s q,
    seqLE (sq_begin q) s && seqLE s (sq_getBufferEndSeq q) = false ->
    exists w, sq_discardUpTo s q = Err (AssertionFailed w)
}.

Ltac run_queue :=
  cbn; unfold TCPVirtualDataSendQueue.createSegmentWithBytes,
    TCPVirtualDataSendQueue.discardUpTo, TCPMsgBasedSendQueue.createSegmentWithBytes,
    TCPMsgBasedSendQueue.discardUpTo, TCPVirtualDataSendQueue.getBufferEndSeq,
    TCPMsgBasedSendQueue.getBufferEndSeq, bind, gets, assert_, modify, ret, fail, id in *.

#[export] Program Instance VirtualDataSendQueue_laws : SendQueueLaws TCPVirtualDataSendQueue.t :=
  {| sq_begin := TCPVirtualDataSendQueue.begin_ |}.
Next Obligation. intros; eexists; run_queue; eauto. Qed.
Next Obligation. intros; eexists; run_queue; eauto. Qed.
Next Obligation. run_queue; intros from n q -> ->; eexists; split; done. Qed.
Next Obligation. run_queue; intros from n q ->; eauto. Qed.
Next Obligation. run_queue; intros s q -> ->; eexists; split; done. Qed.
Next Obligation. run_queue; intros s q ->; eauto. Qed.

Lemma same_header_add_upto toSeq l seg seg' :
  same_header seg seg' -> same_header (TCPMsgBasedSendQueue.add_upto toSeq l seg) seg'.
Proof.
  revert seg. induction l as [|[e m] l IH]; intros seg Hs; cbn; [done|].
  case_bool; [|done]. by apply IH.
Qed.

#[export] Program Instance MsgBasedSendQueue_laws : SendQueueLaws TCPMsgBasedSendQueue.t :=
  {| sq_begin := TCPMsgBasedSendQueue.begin_ |}.
Next Obligation. intros; eexists; run_queue; eauto. Qed.
Next Obligation. intros; eexists; run_queue; eauto. Qed.
Next Obligation.
  run_queue; intros from n q -> ->; eexists; split; [done|]. by apply same_header_add_upto.
Qed.
Next Obligation. run_queue; intros from n q ->; eauto. Qed.
Next Obligation. run_queue; intros s q -> ->; eexists; split; done. Qed.
Next Obligation. run_queue; intros s q ->; eauto. Qed.

(** The dispatching object satisfies the laws because both subclasses do. *)
Lemma lift_into_ok {Q R A} (wrap : Q -> R) (m : Eff Q A) q a q' :
  m q = Ok a q' -> lift_into wrap m q = Ok a (wrap q').
Proof. unfold lift_into. by intros ->. Qed.

Lemma lift_into_err {Q R A} (wrap : Q -> R) (m : Eff Q A) q e :
  m q = Err e -> lift_into wrap m q = Err e.
Proof. unfold lift_into. by intros ->. Qed.

#[export] Program Instance AnySendQueue_laws : SendQueueLaws AnySendQueue :=
  {| sq_begin q := match q with VirtualDataSQ q => sq_begin q | MsgBasedSQ q => sq_begin q end |}.
Next Obligation.
  intros s [q|q]; destruct (sq_init_law s q) as (q' & Hrun & ?);
    eexists; (split; [exact (lift_into_ok _ _ _ _ _ Hrun)|done]).
Qed.
Next Obligation.
  intros m [q|q]; destruct (sq_enqueue_law m q) as (q' & Hrun & ?);
    eexists; (split; [exact (lift_into_ok _ _ _ _ _ Hrun)|done]).
Qed.
Next Obligation.
  intros from n [q|q] Hb He; pose proof (sq_create_law from n q) as L;
    destruct (L Hb He) as (seg & Hrun & ?);
    eexists; (split; [exact (lift_into_ok _ _ _ _ _ Hrun)|done]).
Qed.
Next Obligation.
  intros from n [q|q] Ha; pose proof (sq_create_assert from n q) as L;
    destruct (L Ha) as (w & Hrun); exists w; exact (lift_into_err _ _ _ _ Hrun).
Qed.
Next Obligation.
  intros s [q|q] Hb He; pose proof (sq_discard_law s q) as L;
    destruct (L Hb He) as (q' & Hrun & ?);
    eexists; (split; [exact (lift_into_ok _ _ _ _ _ Hrun)|done]).
Qed.
Next Obligation.
  intros s [q|q] Ha; pose proof (sq_discard_assert s q) as L;
    destruct (L Ha) as (w & Hrun); exists w; exact (lift_into_err _ _ _ _ Hrun).
Qed.

(** ** Messages in the stream

    [mb_repr q B E L]: the queue holds the stream positions [B, E), counted
    without wrap-around, and the messages [L], each with the position after its
    last octet; the stored sequence numbers are those positions modulo 2^32. *)
Definition at_u32 (L : list (Z * cPacket)) : list (Z * cPacket) :=
  map (fun x => (u32 x.1, x.2)) L.

Definition ordered (L : list (Z * cPacket)) : Prop :=
  StronglySorted (fun x y => x.1 <= y.1) L.

Record mb_repr (q : TCPMsgBasedSendQueue.t) (B E : Z) (L : list (Z * cPacket)) : Prop := {
  mbr_begin : TCPMsgBasedSendQueue.begin_ q = u32 B;
  mbr_end : TCPMsgBasedSendQueue.end_ q = u32 E;
  mbr_le : B <= E;
  mbr_half : E - B < 2147483648;
  mbr_queue : TCPMsgBasedSendQueue.payloadQueue q = at_u32 L;
  mbr_ordered : ordered L;
  mbr_bounds : Forall (fun x => B <= x.1 <= E) L
}.

(** The messages that end in [(from, to_]]. *)
Definition msgs_between (from to_ : Z) (L : list (Z * cPacket)) : list (Z * cPacket) :=
  filter (fun x => from < x.1 <= to_) L.

(** Consecutive segments of the given sizes, the way [sendData] and
    [retransmitData] cut the stream. *)
Fixpoint createSegments `{SendQueue Q} (fromSeq : Z) (sizes : list Z)
    : Eff Q (list TCPSegment) :=
  match sizes with
  | [] => ret []
  | n :: rest =>
      let! seg := sq_createSegmentWithBytes fromSeq n in
      let! segs := createSegments (u32 (fromSeq + n)) rest in
      ret (seg :: segs)
  end.

Definition total (sizes : list Z) : Z := foldr Z.add 0 sizes.

Section MsgBased.
Import TCPMsgBasedSendQueue.
Implicit Types (L : list (Z * cPacket)) (s t : Z).

Lemma ordered_above x L s : ordered (x :: L) -> s < x.1 -> Forall (fun y => s < y.1) (x :: L).
Proof.
  intros Ho Hs. inversion Ho as [|? ? _ HF]; subst. constructor; [done|].
  eapply Forall_impl; [exact HF|]. cbn. lia.
Qed.

Lemma skip_upto_spec L s :
  ordered L -> Forall (fun x => comparable x.1 s) L ->
  skip_upto (u32 s) (at_u32 L) = at_u32 (filter (fun x => s < x.1) L).
Proof.
  induction L as [|x L IH]; intros Ho Hc; [done|].
  inversion Hc as [|? ? Hx HL]; subst. inversion Ho as [|? ? HoL _]; subst.
  cbn [skip_upto at_u32 map fst snd]. rewrite seqLE_u32 by done.
  rewrite filter_cons. destruct (Z.leb_spec x.1 s) as [Hle|Hgt].
  - rewrite decide_False by lia. by apply IH.
  - rewrite decide_True by lia. cbn. do 2 f_equal.
    pose proof (ordered_above x L s Ho Hgt) as HF. inversion HF; subst.
    by rewrite filter_all.
Qed.

Lemma add_upto_spec L t seg :
  ordered L -> Forall (fun x => comparable x.1 t) L ->
  payloadList (add_upto (u32 t) (at_u32 L) seg) =
  payloadList seg ++ at_u32 (filter (fun x => x.1 <= t) L).
Proof.
  revert seg. induction L as [|x L IH]; intros seg Ho Hc; [by rewrite app_nil_r|].
  inversion Hc as [|? ? Hx HL]; subst. inversion Ho as [|? ? HoL HF]; subst.
  cbn [add_upto at_u32 map fst snd]. rewrite seqLE_u32 by done.
  rewrite filter_cons. destruct (Z.leb_spec x.1 t) as [Hle|Hgt].
  - rewrite decide_True by lia. change (map _ L) with (at_u32 L). rewrite IH by done.
    cbn. by rewrite u32_idemp, <- app_assoc.
  - rewrite decide_False by lia.
    rewrite filter_nothing; [by rewrite app_nil_r|].
    eapply Forall_impl; [exact HF|]. cbn. lia.
Qed.

Lemma ordered_filter (P : Z * cPacket -> Prop) `{!forall x, Decision (P x)} L :
  ordered L -> ordered (filter P L).
Proof.
  induction 1 as [|x L Ho IH HF]; [constructor|]. rewrite filter_cons.
  case_decide; [|done]. constructor; [done|].
  rewrite Forall_forall in *. intros y [_ Hy]%list_elem_of_filter. by apply HF.
Qed.

Lemma mb_repr_comparable q B E L s :
  mb_repr q B E L -> B <= s <= E -> Forall (fun x => comparable x.1 s) L.
Proof.
  intros [] Hs. eapply Forall_impl; [done|]. unfold comparable. cbn. lia.
Qed.

Lemma createSegment_payload q B E L F n :
  mb_repr q B E L -> B <= F -> 0 <= n -> F + n <= E ->
  exists seg, createSegmentWithBytes (u32 F) n q = Ok seg q /\
    same_header seg (bare_segment (u32 F) n) /\
    payloadList seg = at_u32 (msgs_between F (F + n) L).
Proof.
  intros HR HF Hn HE. pose proof HR as [].
  assert (HcF := mb_repr_comparable q B E L F HR ltac:(lia)).
  assert (Hct := mb_repr_comparable q B E L (F + n) HR ltac:(lia)).
  unfold createSegmentWithBytes, bind, gets, id. cbn.
  rewrite mbr_begin0, mbr_end0, u32_add_l, !seqLE_u32 by (unfold comparable; lia).
  rewrite (proj2 (Z.leb_le B F)), (proj2 (Z.leb_le (F + n) E)) by lia. cbn.
  eexists. split; [done|]. split; [by apply same_header_add_upto|].
  rewrite mbr_queue0, skip_upto_spec, add_upto_spec; [|..].
  - cbn. f_equal. rewrite list_filter_filter. apply list_filter_iff. intros x. lia.
  - by apply ordered_filter.
  - by apply Forall_filter_sub.
  - done.
  - done.
Qed.

Lemma msgs_between_app F M T L :
  ordered L -> F <= M <= T ->
  msgs_between F T L = msgs_between F M L ++ msgs_between M T L.
Proof.
  unfold msgs_between. intros Ho HM. induction Ho as [|x L Ho IH HF]; [done|].
  rewrite !filter_cons. destruct (decide (F < x.1 <= T)), (decide (F < x.1 <= M)),
    (decide (M < x.1 <= T)); cbn; try lia; rewrite ?IH; try done.
  rewrite (filter_nothing (fun y => F < y.1 <= M)); [done|].
  eapply Forall_impl; [exact HF|]. cbn. lia.
Qed.

Lemma mb_repr_init s q : mb_repr (q <| payloadQueue := [] |> <| begin_ := u32 s |>
  <| end_ := u32 s |>) s s [].
Proof. split; try done; try lia; constructor. Qed.

Lemma mb_repr_enqueue q B E L m :
  mb_repr q B E L -> 0 <= pk_byteLength m -> E + pk_byteLength m - B < 2147483648 ->
  exists q', enqueueAppData m q = Ok tt q' /\
    mb_repr q' B (E + pk_byteLength m) (L ++ [(E + pk_byteLength m, m)]).
Proof.
  intros [] Hl Hh. eexists. split; [done|]. split; cbn; try done; try lia.
  - by rewrite mbr_end0, u32_add_l.
  - unfold at_u32. rewrite map_app, mbr_queue0, mbr_end0, u32_add_l. done.
  - apply StronglySorted_app. repeat split; [|done|repeat constructor].
    intros x y Hx ->%list_elem_of_singleton. rewrite Forall_forall in mbr_bounds0.
    specialize (mbr_bounds0 x Hx). cbn in *. lia.
  - apply Forall_app. split; [|repeat constructor; cbn; lia].
    eapply Forall_impl; [done|]. cbn. lia.
Qed.

Lemma mb_repr_discard q B E L s :
  mb_repr q B E L -> B <= s <= E ->
  exists q', discardUpTo (u32 s) q = Ok tt q' /\
    mb_repr q' s E (filter (fun x => s < x.1) L).
Proof.
  intros HR Hs. pose proof HR as []. unfold discardUpTo, bind, gets, id. cbn.
  rewrite mbr_begin0, mbr_end0, !seqLE_u32 by (unfold comparable; lia).
  rewrite (proj2 (Z.leb_le B s)), (proj2 (Z.leb_le s E)) by lia.
  eexists. split; [done|]. split; cbn; try done; try lia.
  - rewrite mbr_queue0. apply skip_upto_spec; [done|]. by eapply mb_repr_comparable.
  - by apply ordered_filter.
  - rewrite Forall_forall in *. intros x [Hx HL]%list_elem_of_filter.
    specialize (mbr_bounds0 x HL). lia.
Qed.

Lemma createSegments_payloads q B E L F sizes :
  mb_repr q B E L -> B <= F -> Forall (fun n => 0 <= n) sizes -> F + total sizes <= E ->
  exists segs, createSegments (u32 F) sizes q = Ok segs q /\
    concat (map payloadList segs) = at_u32 (msgs_between F (F + total sizes) L) /\
    map payloadLength segs = map i32 sizes.
Proof.
  intros HR. revert F. induction sizes as [|n sizes IH]; intros F HF Hn HE.
  { exists []. split; [done|]. split; [|done]. cbn. unfold msgs_between.
    rewrite filter_nothing; [done|]. apply Forall_forall. intros x _. lia. }
  inversion Hn as [|? ? Hn0 Hns]; subst. cbn [total foldr] in HE. fold (total sizes) in HE.
  assert (0 <= total sizes) by (clear -Hns; induction Hns; cbn; [done|]; fold (total l); lia).
  destruct (createSegment_payload q B E L F n) as (seg & Hrun & Hh & Hp); try done; [lia|].
  destruct (IH (F + n)) as (segs & Hruns & Hps & Hls); try done; [lia..|].
  exists (seg :: segs). split; [|split].
  - cbn [createSegments]. cbn [sq_createSegmentWithBytes MsgBasedSendQueue_SendQueue].
    rewrite (bind_ok _ _ _ _ _ Hrun), u32_add_l. by rewrite (bind_ok _ _ _ _ _ Hruns).
  - cbn [map concat]. rewrite Hps, Hp. unfold at_u32. rewrite <- map_app. f_equal.
    cbn [total foldr]. fold (total sizes).
    rewrite (msgs_between_app F (F + n) (F + (n + total sizes))); [|apply HR|lia].
    by rewrite Z.add_assoc.
  - cbn. rewrite Hls. f_equal.
    change (payloadLength (seg <| payloadList := [] |>) = i32 n). by rewrite Hh.
Qed.

End MsgBased.
