(* ===== verification/TcpRcvQueue.v ===== *)
(** * TCP receive queues

    [TCPReceiveQueue] ([transport/tcp/TCPReceiveQueue.h]) and its subclasses
    [TCPVirtualDataRcvQueue] and [TCPMsgBasedRcvQueue] ([transport/tcp/queues]).

    The queue keeps the out-of-order octets as a list of regions of sequence
    numbers.  The theorems relate that list to the set of stream positions
    received so far: [merge] computes the union, [insertBytesFromSegment] returns
    the first missing position, [extractBytesUpTo] hands over exactly the octets
    up to it. *)
From S2P Require Import Prelude SeqNum TcpTypes.

(** ** The abstract class *)
Class ReceiveQueue (Q : Type) : Type := {
  rq_init : Z -> Eff Q unit;
  rq_insertBytesFromSegment : TCPSegment -> Eff Q Z;
  rq_extractBytesUpTo : Z -> Eff Q (option cPacket);
  (** a bound on the number of packets the queue can still hand over *)
  rq_bound : Q -> nat
}.

(** [while ((msg=receiveQueue->extractBytesUpTo(rcv_nxt))!=NULL) ...] of
    [processSegment1stThru8th]: the packets in the order they are passed up. *)
Fixpoint extract_loop `{ReceiveQueue Q} (fuel : nat) (seq : Z) : Eff Q (list cPacket) :=
  match fuel with
  | O => fail OutOfFuel
  | S fuel =>
      let! msg := rq_extractBytesUpTo seq in
      match msg with
      | None => ret []
      | Some msg => let! rest := extract_loop fuel seq in ret (msg :: rest)
      end
  end.

Definition extract_all `{ReceiveQueue Q} (seq : Z) : Eff Q (list cPacket) :=
  fun q => extract_loop (S (rq_bound q)) seq q.

(** ** Byte counts only *)
Module TCPVirtualDataRcvQueue.
Record Region : Type := mkRegion { begin_ : Z; end_ : Z }.

Record t : Type := mk { rcv_nxt : Z; regionList : list Region }.

#[export] Instance eta : Eta t := fun q => {| rcv_nxt := rcv_nxt q; regionList := regionList q |}.

Definition new : t := {| rcv_nxt := 0; regionList := [] |}.

Definition init (startSeq : Z) : Eff t unit := modify (fun q => q <| rcv_nxt := startSeq |>).

(** The loop over [j] in [merge]: regions that overlap or touch [.., iend) are
    erased and [iend] is extended to cover them. *)
Fixpoint absorb (iend : Z) (js : list Region) : Z * list Region :=
  match js with
  | j :: rest =>
      if seqGE iend (begin_ j)
      then absorb (if seqLess iend (end_ j) then end_ j else iend) rest
      else (iend, js)
  | [] => (iend, [])
  end.

Fixpoint merge (segmentBegin segmentEnd : Z) (l : list Region) : list Region :=
  match l with
  | [] => [mkRegion segmentBegin segmentEnd]
  | i :: rest =>
      if seqLess (end_ i) segmentBegin then i :: merge segmentBegin segmentEnd rest
      else if seqLess segmentEnd (begin_ i) then mkRegion segmentBegin segmentEnd :: l
      else
        let b := if seqLess segmentBegin (begin_ i) then segmentBegin else begin_ i in
        if seqLess (end_ i) segmentEnd
        then let '(e, rest') := absorb segmentEnd rest in mkRegion b e :: rest'
        else mkRegion b (end_ i) :: rest
  end.

Definition insertBytesFromSegment (tcpseg : TCPSegment) : Eff t Z :=
  modify (fun q => q <| regionList :=
    merge (sequenceNo tcpseg) (u32 (sequenceNo tcpseg + payloadLength tcpseg))
      (regionList q) |>) ;;;
  let! q := gets id in
  match regionList q with
  | [] => fail (NullPointer "regionList.begin()")
  | i :: _ =>
      (if seqGE (rcv_nxt q) (begin_ i)
       then modify (fun q => q <| rcv_nxt := end_ i |>) else ret tt) ;;;
      gets rcv_nxt
  end.

Definition extractTo (seq : Z) : Eff t Z :=
  let! q := gets id in
  assert_ "seqLE(seq,rcv_nxt)" (seqLE seq (rcv_nxt q)) ;;;
  match regionList q with
  | [] => ret 0
  | i :: rest =>
      assert_ "i->begin<i->end" (begin_ i <? end_ i) ;;;
      if seqLE seq (begin_ i) then ret 0
      else if seqLess seq (end_ i) then
        let octets := u32 (seq - begin_ i) in
        modify (fun q => q <| regionList := mkRegion seq (end_ i) :: rest |>) ;;;
        ret octets
      else
        let octets := u32 (end_ i - begin_ i) in
        modify (fun q => q <| regionList := rest |>) ;;;
        ret octets
  end.

Definition extractBytesUpTo (seq : Z) : Eff t (option cPacket) :=
  let! numBytes := extractTo seq in
  if numBytes =? 0 then ret None
  else ret (Some {| pk_name := "data"; pk_byteLength := numBytes |}).

Definition bound (q : t) : nat := S (length (regionList q)).
End TCPVirtualDataRcvQueue.

#[export] Instance VirtualDataRcvQueue_ReceiveQueue : ReceiveQueue TCPVirtualDataRcvQueue.t := {
  rq_init := TCPVirtualDataRcvQueue.init;
  rq_insertBytesFromSegment := TCPVirtualDataRcvQueue.insertBytesFromSegment;
  rq_extractBytesUpTo := TCPVirtualDataRcvQueue.extractBytesUpTo;
  rq_bound := TCPVirtualDataRcvQueue.bound
}.

(** ** Message objects

    [payloadList] is a [std::map<uint32, cPacket *>]: an association list sorted
    by key. *)
Module TCPMsgBasedRcvQueue.
Record t : Type := mk {
  base : TCPVirtualDataRcvQueue.t;
  payloadList : list (Z * cPacket)
}.

#[export] Instance eta : Eta t := fun q => {| base := base q; payloadList := payloadList q |}.

Definition new : t := {| base := TCPVirtualDataRcvQueue.new; payloadList := [] |}.

(** Runs a method of the superclass on this object. *)
Definition super {A} (m : Eff TCPVirtualDataRcvQueue.t A) : Eff t A :=
  fun q => match m (base q) with Ok a b => Ok a (q <| base := b |>) | Err e => Err e end.

Definition init (startSeq : Z) : Eff t unit := super (TCPVirtualDataRcvQueue.init startSeq).

(** [find(key)]; if absent, [payloadList[key] = msg]. *)
Fixpoint insert_new (key : Z) (msg : cPacket) (l : list (Z * cPacket)) : list (Z * cPacket) :=
  match l with
  | [] => [(key, msg)]
  | (k, m) :: rest =>
      if key <? k then (key, msg) :: l
      else if key =? k then l
      else (k, m) :: insert_new key msg rest
  end.

Definition insertBytesFromSegment (tcpseg : TCPSegment) : Eff t Z :=
  let! _x := super (TCPVirtualDataRcvQueue.insertBytesFromSegment tcpseg) in
  modify (fun q => q <| payloadList :=
    foldl (fun l x => insert_new x.1 x.2 l) (payloadList q) (TcpTypes.payloadList tcpseg) |>) ;;;
  gets (fun q => TCPVirtualDataRcvQueue.rcv_nxt (base q)).

Definition extractBytesUpTo (seq : Z) : Eff t (option cPacket) :=
  let! _x := super (TCPVirtualDataRcvQueue.extractTo seq) in
  let! q := gets id in
  match payloadList q with
  | [] => ret None
  | (k, msg) :: rest =>
      if seqGreater k seq then ret None
      else modify (fun q => q <| payloadList := rest |>) ;;; ret (Some msg)
  end.

Definition bound (q : t) : nat := length (payloadList q).
End TCPMsgBasedRcvQueue.

#[export] Instance MsgBasedRcvQueue_ReceiveQueue : ReceiveQueue TCPMsgBasedRcvQueue.t := {
  rq_init := TCPMsgBasedRcvQueue.init;
  rq_insertBytesFromSegment := TCPMsgBasedRcvQueue.insertBytesFromSegment;
  rq_extractBytesUpTo := TCPMsgBasedRcvQueue.extractBytesUpTo;
  rq_bound := TCPMsgBasedRcvQueue.bound
}.

(** ** An object of either class *)
Inductive AnyRcvQueue : Type :=
| VirtualDataRQ (q : TCPVirtualDataRcvQueue.t)
| MsgBasedRQ (q : TCPMsgBasedRcvQueue.t).

Definition createReceiveQueue (c : ReceiveQueueClass) : AnyRcvQueue :=
  match c with
  | TCPVirtualDataRcvQueue_class => VirtualDataRQ TCPVirtualDataRcvQueue.new
  | TCPMsgBasedRcvQueue_class => MsgBasedRQ TCPMsgBasedRcvQueue.new
  end.

Definition receiveQueue_className (q : AnyRcvQueue) : ReceiveQueueClass :=
  match q with
  | VirtualDataRQ _ => TCPVirtualDataRcvQueue_class
  | MsgBasedRQ _ => TCPMsgBasedRcvQueue_class
  end.

Definition rdispatch {A} (mv : Eff TCPVirtualDataRcvQueue.t A)
    (mm : Eff TCPMsgBasedRcvQueue.t A) : Eff AnyRcvQueue A :=
  fun q => match q with
           | VirtualDataRQ q =>
               match mv q with Ok a q' => Ok a (VirtualDataRQ q') | Err e => Err e end
           | MsgBasedRQ q =>
               match mm q with Ok a q' => Ok a (MsgBasedRQ q') | Err e => Err e end
           end.

#[export] Instance AnyRcvQueue_ReceiveQueue : ReceiveQueue AnyRcvQueue := {
  rq_init s := rdispatch (rq_init s) (rq_init s);
  rq_insertBytesFromSegment seg :=
    rdispatch (rq_insertBytesFromSegment seg) (rq_insertBytesFromSegment seg);
  rq_extractBytesUpTo s := rdispatch (rq_extractBytesUpTo s) (rq_extractBytesUpTo s);
  rq_bound q := match q with VirtualDataRQ q => rq_bound q | MsgBasedRQ q => rq_bound q end
}.

(** ** Regions as sets of stream positions

    The same algorithm over unbounded positions; [merge_u32] shows that the
    modulo-2^32 code computes it as long as everything lies within half of the
    sequence space. *)
Fixpoint pos_absorb (e : Z) (js : list (Z * Z)) : Z * list (Z * Z) :=
  match js with
  | j :: rest => if j.1 <=? e then pos_absorb (Z.max e j.2) rest else (e, js)
  | [] => (e, [])
  end.

Fixpoint pos_merge (b e : Z) (l : list (Z * Z)) : list (Z * Z) :=
  match l with
  | [] => [(b, e)]
  | i :: rest =>
      if i.2 <? b then i :: pos_merge b e rest
      else if e <? i.1 then (b, e) :: l
      else if i.2 <? e
           then let '(e', rest') := pos_absorb e rest in (Z.min b i.1, e') :: rest'
           else (Z.min b i.1, i.2) :: rest
  end.

Definition covers (l : list (Z * Z)) (z : Z) : Prop := Exists (fun r => r.1 <= z < r.2) l.

(** Non-empty regions in increasing order, separated by gaps, all above [lo]. *)
Inductive regions_above : Z -> list (Z * Z) -> Prop :=
| ra_nil lo : regions_above lo []
| ra_cons lo b e l : lo < b -> b < e -> regions_above e l -> regions_above lo ((b, e) :: l).
#[export] Hint Constructors regions_above : core.

Definition to_region (r : Z * Z) : TCPVirtualDataRcvQueue.Region :=
  TCPVirtualDataRcvQueue.mkRegion (u32 r.1) (u32 r.2).

Definition below (hi : Z) (l : list (Z * Z)) : Prop := Forall (fun r => r.2 <= hi) l.

Section Regions.
Implicit Types (l : list (Z * Z)) (b e lo hi z : Z).

Lemma regions_above_weaken lo lo' l : regions_above lo l -> lo' <= lo -> regions_above lo' l.
Proof. intros []; constructor; done || lia. Qed.

Lemma covers_cons b e l z : covers ((b, e) :: l) z <-> b <= z < e \/ covers l z.
Proof. unfold covers. by rewrite Exists_cons. Qed.

Lemma covers_above lo l z : regions_above lo l -> covers l z -> lo < z.
Proof.
  induction 1 as [|lo b e l ? ? _ IH]; intros Hc; [by inversion Hc|].
  apply covers_cons in Hc as [|Hc]; [lia|]. specialize (IH Hc). lia.
Qed.

Lemma pos_absorb_spec lo e l :
  regions_above lo l ->
  let '(e', l') := pos_absorb e l in
  e <= e' /\ regions_above e' l' /\
  (forall b z, b <= lo -> b <= e ->
     (b <= z < e' \/ covers l' z) <-> (b <= z < e \/ covers l z)) /\
  (forall hi, e <= hi -> below hi l -> e' <= hi /\ below hi l').
Proof.
  intros Hl. revert e. induction Hl as [lo|lo b0 e0 l Hlo Hbe Hl IH]; intros e.
  { cbn. split; [lia|]. split; [done|]. split; [done|]. by intros. }
  cbn [pos_absorb fst snd]. destruct (Z.leb_spec b0 e) as [Hle|Hgt].
  - specialize (IH (Z.max e e0)). destruct (pos_absorb _ l) as [e' l'].
    destruct IH as (H1 & H2 & H3 & H4). split; [lia|]. split; [done|]. split.
    + intros b z Hb Hbe'. rewrite H3 by lia. rewrite covers_cons.
      assert (b <= z < Z.max e e0 <-> b <= z < e \/ b0 <= z < e0) by lia. tauto.
    + intros hi He Hw. inversion Hw; subst; cbn in *. apply H4; [lia|done].
  - split; [lia|]. split; [constructor; lia || done|]. split; [done|]. by intros.
Qed.

Lemma pos_merge_spec lo b e l :
  regions_above lo l -> lo < b -> b < e ->
  regions_above lo (pos_merge b e l) /\
  (forall z, covers (pos_merge b e l) z <-> b <= z < e \/ covers l z) /\
  (forall hi, e <= hi -> below hi l -> below hi (pos_merge b e l)).
Proof.
  intros Hl. induction Hl as [lo|lo b0 e0 l Hlo Hbe Hl IH]; intros Hb He; cbn [pos_merge fst snd].
  { split; [eauto|]. split; [by intros; rewrite covers_cons|]. intros; by repeat constructor. }
  destruct (Z.ltb_spec e0 b); [|destruct (Z.ltb_spec e b0); [|destruct (Z.ltb_spec e0 e)]].
  - destruct IH as (M1 & M2 & M3); [done|done|]. split; [eauto|]. split.
    + intros z. rewrite !covers_cons, M2. tauto.
    + intros hi ? Hw. inversion Hw; subst. constructor; [done|]. by apply M3.
  - split; [eauto|]. split; [intros z; by rewrite covers_cons|].
    intros hi ? Hw. by constructor.
  - pose proof (pos_absorb_spec e0 e l Hl) as Ha. destruct (pos_absorb e l) as [e' l'].
    destruct Ha as (M1 & M2 & M3 & M4). split; [constructor; lia || done|]. split.
    + intros z. rewrite !covers_cons, M3 by lia.
      assert (Z.min b b0 <= z < e <-> b <= z < e \/ b0 <= z < e0) by lia. tauto.
    + intros hi ? Hw. inversion Hw; subst. destruct (M4 hi) as []; [done|done|].
      by constructor.
  - split; [constructor; lia || done|]. split.
    + intros z. rewrite !covers_cons.
      assert (Z.min b b0 <= z < e0 <-> b <= z < e \/ b0 <= z < e0) by lia. tauto.
    + intros hi ? Hw. inversion Hw; subst. by constructor.
Qed.

Lemma pos_merge_nonempty b e l : pos_merge b e l <> [].
Proof.
  destruct l as [|i l]; cbn; [done|]. repeat case_bool; try done.
  by destruct (pos_absorb e l).
Qed.

End Regions.

(** ** The code computes it *)
Section Wrapped.
Import TCPVirtualDataRcvQueue.
Implicit Types (l : list (Z * Z)).

Lemma absorb_u32 lo e l :
  regions_above lo l -> lo <= e -> e - lo < 2147483648 -> below (lo + 2147483647) l ->
  absorb (u32 e) (map to_region l) =
  (u32 (pos_absorb e l).1, map to_region (pos_absorb e l).2).
Proof.
  intros Hl. revert e. induction Hl as [lo|lo b0 e0 l Hlo Hbe Hl IH]; intros e He Hh Hw; [done|].
  inversion Hw as [|? ? He0 Hw']; subst. cbn in He0.
  cbn [pos_absorb map absorb to_region begin_ end_ fst snd].
  rewrite seqGE_u32, seqLess_u32 by (unfold comparable; lia).
  destruct (Z.leb_spec b0 e); [|done].
  replace (if e <? e0 then u32 e0 else u32 e) with (u32 (Z.max e e0)) by
    (destruct (Z.ltb_spec e e0); f_equal; lia).
  apply IH; [lia|lia|]. eapply Forall_impl; [exact Hw'|]. cbn. lia.
Qed.

Lemma merge_u32 lo b e l :
  regions_above lo l -> lo < b -> b < e -> e - lo < 2147483648 ->
  below (lo + 2147483647) l ->
  merge (u32 b) (u32 e) (map to_region l) = map to_region (pos_merge b e l).
Proof.
  intros Hl. revert b e.
  enough (forall base b e, base <= lo -> lo < b -> b < e -> e - base < 2147483648 ->
    below (base + 2147483647) l ->
    merge (u32 b) (u32 e) (map to_region l) = map to_region (pos_merge b e l)) as Hg.
  { intros b e Hb He Hh Hw. by apply (Hg lo). }
  induction Hl as [lo|lo b0 e0 l Hlo Hbe Hl IH]; intros base b e Hbase Hb He Hh Hw; [done|].
  inversion Hw as [|? ? He0 Hw']; subst. cbn in He0.
  cbn [pos_merge map merge to_region begin_ end_ fst snd].
  rewrite !seqLess_u32 by (unfold comparable; lia).
  destruct (Z.ltb_spec e0 b); [|destruct (Z.ltb_spec e b0); [done|]].
  - cbn. f_equal. apply (IH base); done || lia.
  - replace (if b <? b0 then u32 b else u32 b0) with (u32 (Z.min b b0)) by
      (destruct (Z.ltb_spec b b0); f_equal; lia).
    destruct (Z.ltb_spec e0 e); [|done].
    rewrite (absorb_u32 e0); [by destruct (pos_absorb e l)|done|lia|lia|].
    eapply Forall_impl; [exact Hw'|]. cbn. lia.
Qed.

End Wrapped.

(** ** The queue as a reassembly buffer

    [vd_repr q N l]: positions below [N] have been handed over, [l] lists the
    regions buffered above [N].  [hi] bounds all positions in play; the regions
    must not straddle a multiple of 2^32 ([in_epoch]), because [extractTo]
    compares the ends of a region as plain integers. *)
Definition half_window : Z := 2147483646.

Record vd_repr (q : TCPVirtualDataRcvQueue.t) (N : Z) (l : list (Z * Z)) : Prop := {
  vdr_nxt : TCPVirtualDataRcvQueue.rcv_nxt q = u32 N;
  vdr_list : TCPVirtualDataRcvQueue.regionList q = map to_region l;
  vdr_above : regions_above N l
}.

Definition in_epoch (N hi : Z) : Prop := hi - N <= half_window /\ u32 N + (hi - N) < 4294967296.

(** The abstract reassembly step: [N'] is the first position from [N] on that
    is neither buffered nor in the new segment. *)
Definition first_missing (have : Z -> Prop) (N N' : Z) : Prop :=
  N <= N' /\ (forall z, N <= z < N' -> have z) /\ ~ have N'.

Section Reassembly.
Import TCPVirtualDataRcvQueue.
Implicit Types (l : list (Z * Z)) (q : t).

(** What [insertBytesFromSegment] answers, over positions. *)
Definition next_after (N : Z) (l : list (Z * Z)) : Z :=
  match l with
  | [] => N
  | r :: _ => if r.1 <=? N then r.2 else N
  end.

Lemma next_after_spec N l :
  regions_above (N - 1) l -> first_missing (covers l) N (next_after N l).
Proof.
  intros Hl. inversion Hl as [|? b e l' Hb Hbe Hl']; subst; cbn.
  { split; [lia|]. split; [lia|]. intros Hc. inversion Hc. }
  destruct (Z.leb_spec b N) as [Hle|Hgt].
  - split; [lia|]. split; [intros z Hz; apply covers_cons; lia|].
    rewrite covers_cons. intros [|Hc]; [lia|]. apply (covers_above e) in Hc; [lia|done].
  - split; [lia|]. split; [lia|]. rewrite covers_cons. intros [|Hc]; [lia|].
    apply (covers_above e) in Hc; [lia|done].
Qed.

Lemma insert_spec q N l hi seg b len :
  vd_repr q N l -> below hi l -> hi - N <= half_window ->
  N <= b -> 0 < len -> b + len <= hi ->
  sequenceNo seg = u32 b -> payloadLength seg = len ->
  let l1 := pos_merge b (b + len) l in
  exists q1, insertBytesFromSegment seg q = Ok (u32 (next_after N l1)) q1 /\
    rcv_nxt q1 = u32 (next_after N l1) /\ regionList q1 = map to_region l1.
Proof.
  intros [Hn Hl Ha] Hw Hhi Hb Hlen He Hseq Hpl l1. unfold half_window in Hhi.
  assert (Ha' : regions_above (N - 1) l) by (apply (regions_above_weaken N); [done|lia]).
  assert (Hm : merge (u32 b) (u32 (b + len)) (map to_region l) = map to_region l1).
  { apply (merge_u32 (N - 1)); [done|lia..|]. eapply Forall_impl; [exact Hw|]. cbn. lia. }
  destruct (pos_merge_spec (N - 1) b (b + len) l) as (Hl1 & _ & Hw1); [done|lia..|].
  specialize (Hw1 hi He Hw). fold l1 in Hl1, Hw1.
  unfold insertBytesFromSegment, bind, modify, gets, id. cbn.
  rewrite Hl, Hseq, Hpl, u32_add_l, Hm.
  assert (Hne : l1 <> []) by apply pos_merge_nonempty.
  destruct l1 as [|[b1 e1] l']; [done|].
  inversion Hl1; inversion Hw1; subst. cbn in *.
  rewrite Hn, seqGE_u32 by (unfold comparable; lia).
  destruct (b1 <=? N); cbn; rewrite ?Hn; eexists; by repeat split.
Qed.

Lemma extractTo_nothing q N l hi :
  vd_repr q N l -> below hi l -> in_epoch N hi ->
  extractTo (u32 N) q = Ok 0 q.
Proof.
  unfold in_epoch, half_window. intros [Hn Hl Ha] Hw [Hhi Hep].
  unfold extractTo, bind, gets, id, assert_. cbn. rewrite Hn, Hl.
  rewrite seqLE_u32, Z.leb_refl by (unfold comparable; lia). cbn.
  inversion Ha as [|? b e l' Hb Hbe Hl']; subst; [done|]. inversion Hw; subst. cbn in *.
  rewrite seqLE_u32 by (unfold comparable; lia).
  rewrite (proj2 (Z.ltb_lt (u32 b) (u32 e))) by (unfold u32 in *; lia).
  by rewrite (proj2 (Z.leb_le N b)) by lia.
Qed.

(** The first region starts at [N]: it is extracted whole. *)
Lemma extractTo_first q N e l hi :
  rcv_nxt q = u32 e -> regionList q = map to_region ((N, e) :: l) ->
  N < e -> e <= hi -> in_epoch N hi ->
  extractTo (u32 e) q = Ok (e - N) (q <| regionList := map to_region l |>).
Proof.
  unfold in_epoch, half_window. intros Hn Hl He Hw [Hhi Hep].
  unfold extractTo, bind, gets, id, assert_. cbn. rewrite Hn, Hl.
  rewrite seqLE_u32, Z.leb_refl by (unfold comparable; lia). cbn.
  rewrite seqLE_u32, seqLess_u32 by (unfold comparable; lia).
  rewrite (proj2 (Z.ltb_lt (u32 N) (u32 e))) by (unfold u32 in *; lia).
  rewrite (proj2 (Z.leb_gt e N)), Z.ltb_irrefl by lia. cbn.
  f_equal. unfold u32 in *. lia.
Qed.

End Reassembly.

(** Text of one segment: inserted, and everything that became contiguous passed
    up ([processSegment1stThru8th], seventh step). *)
Definition receive_text `{ReceiveQueue Q} (seg : TCPSegment) : Eff Q (Z * list cPacket) :=
  let! n := rq_insertBytesFromSegment seg in
  let! msgs := extract_all n in
  ret (n, msgs).

(** Segments in arrival order; those below [rcv_nxt] are not acceptable. *)
Fixpoint receive_many (segs : list TCPSegment) : Eff TCPVirtualDataRcvQueue.t (list cPacket) :=
  match segs with
  | [] => ret []
  | seg :: rest =>
      let! q := gets id in
      if seqGE (sequenceNo seg) (TCPVirtualDataRcvQueue.rcv_nxt q) then
        let! r := receive_text seg in
        let! msgs := receive_many rest in
        ret (r.2 ++ msgs)
      else receive_many rest
  end.

Definition in_segment (a : Z * Z) (z : Z) : Prop := a.1 <= z < a.1 + a.2.
Definition disjoint_segments (A : list (Z * Z)) : Prop :=
  ForallOrdPairs (fun a a' => forall z, ~ (in_segment a z /\ in_segment a' z)) A.

Definition data_segment (a : Z * Z) : TCPSegment :=
  createTCPSegment <| sequenceNo := u32 a.1 |> <| payloadLength := a.2 |>.

Definition octets (msgs : list cPacket) : Z := foldr Z.add 0 (map pk_byteLength msgs).

Section Reordering.
Import TCPVirtualDataRcvQueue.
Implicit Types (l A : list (Z * Z)) (q : t).

Lemma octets_app m1 m2 : octets (m1 ++ m2) = octets m1 + octets m2.
Proof. unfold octets. induction m1 as [|m m1 IH]; cbn in *; lia. Qed.

Lemma in_epoch_advance N N' hi : in_epoch N hi -> N <= N' <= hi -> in_epoch N' hi.
Proof. unfold in_epoch, half_window, u32. intros. lia. Qed.

Lemma first_missing_bound (have : Z -> Prop) N N' hi :
  first_missing have N N' -> N <= hi -> (forall z, have z -> z < hi) -> N' <= hi.
Proof.
  intros (Hle & Hall & _) Hhi Hb. destruct (Z.eq_dec N N') as [<-|Hne]; [done|].
  assert (have (N' - 1)) as Hz%Hb by (apply Hall; lia). lia.
Qed.

Lemma covers_below hi l z : below hi l -> covers l z -> z < hi.
Proof. unfold below, covers. induction 2; inversion H; subst; cbn in *; [lia|auto]. Qed.

Lemma first_missing_ext (P Q : Z -> Prop) N N' :
  (forall z, P z <-> Q z) -> first_missing P N N' -> first_missing Q N N'.
Proof. unfold first_missing. intros HPQ (? & Ha & Hn). rewrite <- HPQ.
  split; [done|]. split; [|done]. intros z Hz. by apply HPQ, Ha. Qed.

Lemma extract_all_none `{ReceiveQueue Q} (q q' : Q) seq :
  rq_extractBytesUpTo seq q = Ok None q' -> extract_all seq q = Ok [] q'.
Proof. intros Hr. unfold extract_all. cbn. by rewrite (bind_ok _ _ _ _ _ Hr). Qed.

Lemma extract_all_one `{ReceiveQueue Q} (q q' q'' : Q) seq m :
  rq_extractBytesUpTo seq q = Ok (Some m) q' -> rq_extractBytesUpTo seq q' = Ok None q'' ->
  (0 < rq_bound q)%nat -> extract_all seq q = Ok [m] q''.
Proof.
  intros Hr Hr' Hb. unfold extract_all. destruct (rq_bound q) as [|n]; [lia|]. cbn.
  rewrite (bind_ok _ _ _ _ _ Hr). unfold bind at 1. by rewrite (bind_ok _ _ _ _ _ Hr').
Qed.

Lemma extract_gap q N l hi :
  vd_repr q N l -> below hi l -> in_epoch N hi -> extractBytesUpTo (u32 N) q = Ok None q.
Proof.
  intros HR Hw Hep. unfold extractBytesUpTo.
  by rewrite (bind_ok _ _ _ _ _ (extractTo_nothing q N l hi HR Hw Hep)).
Qed.

(** Insertion followed by extraction up to the returned number. *)
Lemma insert_extract_spec q N l hi seg b len :
  vd_repr q N l -> below hi l -> in_epoch N hi ->
  N <= b -> 0 < len -> b + len <= hi ->
  sequenceNo seg = u32 b -> payloadLength seg = len ->
  let have z := b <= z < b + len \/ covers l z in
  exists q1 q2 N' l', insertBytesFromSegment seg q = Ok (u32 N') q1 /\
    rcv_nxt q1 = u32 N' /\
    extractTo (u32 N') q1 = Ok (N' - N) q2 /\
    vd_repr q2 N' l' /\ below hi l' /\
    first_missing have N N' /\ (forall z, covers l' z <-> have z /\ N' <= z).
Proof.
  intros HR Hw Hep Hb Hlen He Hseq Hpl have.
  destruct (insert_spec q N l hi seg b len) as (q1 & Hrun & Hn1 & Hl1); try done; [apply Hep|].
  destruct (pos_merge_spec (N - 1) b (b + len) l) as (Ha1 & Hc1 & Hw1);
    [apply (regions_above_weaken N); [apply HR|lia]|lia..|].
  specialize (Hw1 hi He Hw). assert (Hne := pos_merge_nonempty b (b + len) l).
  set (l1 := pos_merge b (b + len) l) in *. clearbody l1.
  pose proof (first_missing_ext _ _ _ _ Hc1 (next_after_spec N l1 Ha1)) as Hfm.
  destruct l1 as [|[b1 e1] l']; [done|].
  inversion Ha1 as [|? ? ? ? Hb1 Hbe1 Hl']; inversion Hw1 as [|? ? Hew Hw']; subst.
  cbn [next_after fst snd] in *. exists q1. destruct (Z.leb_spec b1 N) as [Hle|Hgt].
  - assert (b1 = N) as -> by lia.
    pose proof (extractTo_first q1 N e1 l' hi Hn1 Hl1 Hbe1 Hew Hep) as Hx.
    eexists _, e1, l'. do 3 (split; [done|]). split; [done|]. do 2 (split; [done|]).
    intros z. unfold have. rewrite <- Hc1, covers_cons. split.
    + intros Hc. pose proof (covers_above _ _ _ Hl' Hc). split; [by right|lia].
    + intros [[?|?] ?]; [lia|done].
  - assert (HR2 : vd_repr q1 N ((b1, e1) :: l')) by (split; [done..|by constructor]).
    pose proof (extractTo_nothing q1 N _ hi HR2 Hw1 Hep) as Hx. rewrite <- (Z.sub_diag N) in Hx.
    eexists _, N, _. do 6 (split; [done|]).
    intros z. unfold have. rewrite <- Hc1. split; [|tauto].
    intros Hc. pose proof (covers_above _ _ _ Ha1 Hc). split; [done|lia].
Qed.

Lemma receive_text_spec q N l hi seg b len :
  vd_repr q N l -> below hi l -> in_epoch N hi ->
  N <= b -> 0 < len -> b + len <= hi ->
  sequenceNo seg = u32 b -> payloadLength seg = len ->
  let have z := b <= z < b + len \/ covers l z in
  exists q' N' l' msgs, receive_text seg q = Ok (u32 N', msgs) q' /\
    vd_repr q' N' l' /\ below hi l' /\ octets msgs = N' - N /\
    first_missing have N N' /\ (forall z, covers l' z <-> have z /\ N' <= z).
Proof.
  intros HR Hw Hep Hb Hlen He Hseq Hpl have.
  destruct (insert_extract_spec q N l hi seg b len)
    as (q1 & q2 & N' & l' & Hrun & _ & Hx & HR2 & Hw2 & Hfm & Hc2); try done.
  assert (HN' : N <= N' <= hi).
  { split; [apply Hfm|]. eapply first_missing_bound; [exact Hfm|lia|].
    intros z [|Hz]; [lia|]. by apply (covers_below hi l). }
  assert (Hep2 := in_epoch_advance N N' hi Hep HN').
  unfold receive_text. cbn [rq_insertBytesFromSegment VirtualDataRcvQueue_ReceiveQueue].
  rewrite (bind_ok _ _ _ _ _ Hrun).
  exists q2, N', l', (if N' - N =? 0 then [] else
    [{| pk_name := "data"; pk_byteLength := N' - N |}]).
  split; [|do 2 (split; [done|]); split; [destruct (Z.eqb_spec (N' - N) 0); cbn; lia|done]].
  assert (Hx' : extractBytesUpTo (u32 N') q1 = Ok (if N' - N =? 0 then None else
    Some {| pk_name := "data"; pk_byteLength := N' - N |}) q2).
  { unfold extractBytesUpTo. rewrite (bind_ok _ _ _ _ _ Hx). by case_bool. }
  enough (Hall : extract_all (u32 N') q1 = Ok (if N' - N =? 0 then [] else
    [{| pk_name := "data"; pk_byteLength := N' - N |}]) q2) by by rewrite (bind_ok _ _ _ _ _ Hall).
  destruct (N' - N =? 0); [by apply extract_all_none|].
  apply (extract_all_one _ q2); [done|by apply (extract_gap q2 N' l' hi)|].
  cbn. unfold bound. lia.
Qed.

(** A list of pairwise disjoint segments above [N], none of them buffered yet. *)
Definition fresh_arrivals N l hi A : Prop :=
  disjoint_segments A /\
  Forall (fun a => N <= a.1 /\ 0 < a.2 /\ a.1 + a.2 <= hi /\
                   forall z, in_segment a z -> ~ covers l z) A.

(** Receiving one of them leaves the others fresh. *)
Lemma fresh_arrivals_step N N1 l l1 hi a A :
  fresh_arrivals N l hi (a :: A) ->
  first_missing (fun z => in_segment a z \/ covers l z) N N1 ->
  (forall z, covers l1 z -> in_segment a z \/ covers l z) ->
  fresh_arrivals N1 l1 hi A.
Proof.
  intros [Hd Hf] (_ & Hall & _) Hc1. inversion Hd as [|? ? Hd1 Hd2]; inversion Hf as [|? ? _ Hf2]; subst.
  split; [done|]. rewrite Forall_forall in *. intros a' Ha.
  destruct (Hf2 a' Ha) as (? & ? & ? & Hca). specialize (Hd1 a' Ha).
  assert (Hnot : forall z, in_segment a' z -> ~ (in_segment a z \/ covers l z)).
  { intros z Hz [Hin|Hin]; [by apply (Hd1 z)|by apply (Hca z)]. }
  split; [|split; [done|split; [done|]]].
  - destruct (Z.le_gt_cases N1 a'.1) as [|Hlt]; [done|exfalso].
    apply (Hnot a'.1); [unfold in_segment; lia|]. apply Hall. lia.
  - intros z Hz Hcz. apply (Hnot z Hz). by apply Hc1.
Qed.

Lemma first_missing_step a A l l1 N N1 N' :
  first_missing (fun z => in_segment a z \/ covers l z) N N1 ->
  (forall z, covers l1 z <-> (in_segment a z \/ covers l z) /\ N1 <= z) ->
  first_missing (fun z => Exists (fun a => in_segment a z) A \/ covers l1 z) N1 N' ->
  first_missing (fun z => Exists (fun a => in_segment a z) (a :: A) \/ covers l z) N N'.
Proof.
  intros (Hle1 & Hall1 & _) Hc1 (Hle & Hall & Hnot). split; [lia|]. split.
  - intros z Hz. rewrite Exists_cons. destruct (Z.lt_ge_cases z N1) as [Hlt|Hge].
    + destruct (Hall1 z); [lia|by left; left|by right].
    + destruct (Hall z) as [|Hz1]; [lia|by left; right|]. apply Hc1 in Hz1 as [[|] _];
        [by left; left|by right].
  - rewrite Exists_cons. intros [[Hin|Hex]|Hcl]; apply Hnot; [right|by left|right];
      apply Hc1; (split; [by (left + right)|lia]).
Qed.


End Reordering.
