(* ===== verification/TcpStream.v ===== *)
(** * From the send queue to the receive queue

    The message based queues end to end: whatever way the sending side cuts the
    stream into segments ([TCPMsgBasedSendQueue.createSegmentWithBytes]) and in
    whatever order the network delivers them, the receiving queue
    ([TCPMsgBasedRcvQueue]) hands over the messages in the order they were sent. *)
From S2P Require Import Prelude SeqNum TcpTypes TcpSendQueue TcpRcvQueue.

(** ** The receiving queue over stream positions *)
Definition strictly_ordered (P : list (Z * cPacket)) : Prop :=
  StronglySorted (fun x y => x.1 < y.1) P.

(** [std::map] insertion, over positions. *)
Fixpoint pos_insert (p : Z) (m : cPacket) (P : list (Z * cPacket)) : list (Z * cPacket) :=
  match P with
  | [] => [(p, m)]
  | x :: rest =>
      if p <? x.1 then (p, m) :: P
      else if p =? x.1 then P
      else x :: pos_insert p m rest
  end.

Record mbr_repr (q : TCPMsgBasedRcvQueue.t) (N : Z) (l : list (Z * Z))
    (P : list (Z * cPacket)) : Prop := {
  mbrr_base : vd_repr (TCPMsgBasedRcvQueue.base q) N l;
  mbrr_msgs : TCPMsgBasedRcvQueue.payloadList q = at_u32 P;
  mbrr_ordered : strictly_ordered P
}.

(** All positions in [P] lie above [N], up to [hi]. *)
Definition positions_in (N hi : Z) (P : list (Z * cPacket)) : Prop :=
  Forall (fun x => N < x.1 <= hi) P.

Section MsgRcv.
Import TCPMsgBasedRcvQueue.
Implicit Types (P M : list (Z * cPacket)) (q : t).

(** Within an epoch the order of the stored keys is the order of positions. *)
Lemma epoch_lt N hi x y :
  in_epoch N hi -> N <= x <= hi -> N <= y <= hi -> (u32 x <? u32 y) = (x <? y).
Proof. unfold in_epoch, half_window, u32. intros. lia. Qed.

Lemma epoch_eq N hi x y :
  in_epoch N hi -> N <= x <= hi -> N <= y <= hi -> (u32 x =? u32 y) = (x =? y).
Proof. unfold in_epoch, half_window, u32. intros. lia. Qed.

Lemma insert_new_u32 N hi p m P :
  in_epoch N hi -> N <= p <= hi -> positions_in N hi P ->
  insert_new (u32 p) m (at_u32 P) = at_u32 (pos_insert p m P).
Proof.
  intros Hep Hp. induction 1 as [|x P Hx _ IH]; [done|]. cbn.
  rewrite (epoch_lt N hi), (epoch_eq N hi) by (done || lia).
  destruct (p <? x.1); [done|]. destruct (p =? x.1); [done|].
  cbn. f_equal. apply IH.
Qed.

Lemma pos_insert_perm p m P :
  p ∉ P.*1 -> pos_insert p m P ≡ₚ (p, m) :: P.
Proof.
  induction P as [|x P IH]; cbn; [done|]. intros [Hne Hni]%not_elem_of_cons.
  destruct (p <? x.1); [done|]. rewrite (proj2 (Z.eqb_neq p x.1)) by done.
  rewrite IH by done. apply Permutation_swap.
Qed.

Lemma pos_insert_ordered p m P :
  strictly_ordered P -> strictly_ordered (pos_insert p m P).
Proof.
  induction 1 as [|x P Ho IH HF]; cbn; [repeat constructor|].
  destruct (Z.ltb_spec p x.1); [|destruct (Z.eqb_spec p x.1)].
  - constructor; [by constructor|]. constructor; [done|].
    eapply Forall_impl; [exact HF|]. cbn. lia.
  - by constructor.
  - constructor; [done|]. clear IH Ho. induction P as [|y P IH]; cbn.
    + repeat constructor. cbn. lia.
    + inversion HF; subst. repeat case_bool; [|done|]; constructor; try done; cbn; [lia|auto].
Qed.

(** All the messages a segment carries. *)
Definition pos_insert_all M P : list (Z * cPacket) :=
  foldl (fun l x => pos_insert x.1 x.2 l) P M.

Lemma insert_all_spec N hi M P :
  in_epoch N hi -> positions_in N hi M -> positions_in N hi P ->
  NoDup (M.*1 ++ P.*1) -> strictly_ordered P ->
  foldl (fun l x => insert_new x.1 x.2 l) (at_u32 P) (at_u32 M) = at_u32 (pos_insert_all M P) /\
  pos_insert_all M P ≡ₚ M ++ P /\ strictly_ordered (pos_insert_all M P).
Proof.
  intros Hep HM. revert P. induction HM as [|x M Hx HM IH]; intros P HP Hnd Ho; [done|].
  cbn in Hnd. apply NoDup_cons in Hnd as [Hni Hnd]. apply not_elem_of_app in Hni as [HniM HniP].
  assert (Hperm := pos_insert_perm x.1 x.2 P HniP).
  cbn. rewrite (insert_new_u32 N hi) by (done || lia).
  destruct (IH (pos_insert x.1 x.2 P)) as (H1 & H2 & H3).
  - unfold positions_in. rewrite Hperm. by constructor; destruct x.
  - rewrite Hperm. cbn. by rewrite <- Permutation_middle, NoDup_cons, not_elem_of_app.
  - by apply pos_insert_ordered.
  - split; [done|]. split; [|done]. rewrite H2, Hperm. destruct x; cbn.
    by rewrite <- Permutation_middle.
Qed.

(** ** Extraction *)
Lemma extract_one_none b b' P s n :
  TCPVirtualDataRcvQueue.extractTo s b = Ok n b' ->
  Forall (fun x => seqGreater x.1 s = true) P ->
  extractBytesUpTo s (mk b P) = Ok None (mk b' P).
Proof.
  intros Hx HP. unfold extractBytesUpTo, super, bind. cbn [base]. rewrite Hx. cbn.
  destruct HP as [|[k m] P Hk HP]; cbn in *; [done|]. by rewrite Hk.
Qed.

Lemma extract_one_some b b' k m P s n :
  TCPVirtualDataRcvQueue.extractTo s b = Ok n b' -> seqGreater k s = false ->
  extractBytesUpTo s (mk b ((k, m) :: P)) = Ok (Some m) (mk b' P).
Proof.
  intros Hx Hk. unfold extractBytesUpTo, super, bind. cbn [base]. rewrite Hx. cbn. by rewrite Hk.
Qed.

Lemma extract_loop_spec fuel b b' P1 P2 s n :
  TCPVirtualDataRcvQueue.extractTo s b = Ok n b' ->
  TCPVirtualDataRcvQueue.extractTo s b' = Ok 0 b' ->
  Forall (fun x => seqGreater x.1 s = false) P1 ->
  Forall (fun x => seqGreater x.1 s = true) P2 ->
  (length P1 < fuel)%nat ->
  extract_loop fuel s (mk b (P1 ++ P2)) = Ok (P1.*2) (mk b' P2).
Proof.
  intros Hx Hx' HP1 HP2. revert b n fuel Hx.
  induction HP1 as [|[k m] P1 Hk HP1 IH]; intros b n fuel Hx Hf;
    (destruct fuel as [|fuel]; [cbn in Hf; lia|]); cbn [extract_loop app fmap list_fmap];
    cbn [rq_extractBytesUpTo MsgBasedRcvQueue_ReceiveQueue].
  - by rewrite (bind_ok _ _ _ _ _ (extract_one_none b b' P2 s n Hx HP2)).
  - rewrite (bind_ok _ _ _ _ _ (extract_one_some b b' k m (P1 ++ P2) s n Hx Hk)).
    rewrite (bind_ok _ _ _ _ _ (IH b' 0 fuel Hx' ltac:(cbn in Hf; lia))). done.
Qed.

Lemma ordered_split P n :
  strictly_ordered P -> P = filter (fun x => x.1 <= n) P ++ filter (fun x => n < x.1) P.
Proof.
  induction 1 as [|x P Ho IH HF]; [done|]. destruct (Z.le_gt_cases x.1 n) as [Hle|Hgt].
  - rewrite filter_cons_True, filter_cons_False by lia. cbn. by f_equal.
  - assert (HF' : Forall (fun y => n < y.1) P) by (eapply Forall_impl; [exact HF|]; cbn; lia).
    rewrite filter_cons_False, filter_cons_True by lia. cbn.
    rewrite (filter_nothing (fun y => y.1 <= n)), filter_all; [done|done|].
    eapply Forall_impl; [exact HF'|]. cbn. lia.
Qed.

Lemma at_u32_app P1 P2 : at_u32 (P1 ++ P2) = at_u32 P1 ++ at_u32 P2.
Proof. apply map_app. Qed.

Lemma at_u32_snd P : (at_u32 P).*2 = P.*2.
Proof. unfold at_u32. induction P; cbn; congruence. Qed.

(** The segment [seg] occupies positions [a] and carries the messages [M]. *)
Definition carries (seg : TCPSegment) (aM : (Z * Z) * list (Z * cPacket)) : Prop :=
  sequenceNo seg = u32 aM.1.1 /\ payloadLength seg = aM.1.2 /\
  TcpTypes.payloadList seg = at_u32 aM.2 /\ positions_in aM.1.1 (aM.1.1 + aM.1.2) aM.2.

Lemma extract_messages b b1 P s N N' hi :
  TCPVirtualDataRcvQueue.extractTo (u32 N') b = Ok s b1 ->
  TCPVirtualDataRcvQueue.extractTo (u32 N') b1 = Ok 0 b1 ->
  in_epoch N hi -> N <= N' <= hi -> positions_in N hi P -> strictly_ordered P ->
  extract_all (u32 N') (mk b (at_u32 P)) =
    Ok ((filter (fun x => x.1 <= N') P).*2) (mk b1 (at_u32 (filter (fun x => N' < x.1) P))).
Proof.
  intros Hx Hx' Hep HN' HP Ho. unfold extract_all. cbn [rq_bound MsgBasedRcvQueue_ReceiveQueue].
  assert (Hcmp : Forall (fun x => seqGreater (u32 x.1) (u32 N') = (N' <? x.1)) P).
  { eapply Forall_impl; [exact HP|]. unfold in_epoch, half_window in Hep. intros x Hpos. cbn in Hpos.
    apply seqGreater_u32. unfold comparable. lia. }
  rewrite (ordered_split P N' Ho) at 2. rewrite at_u32_app.
  rewrite (extract_loop_spec _ b b1 _ _ (u32 N') s Hx Hx').
  - by rewrite at_u32_snd.
  - apply Forall_map, Forall_forall. intros x [Hle Hin]%list_elem_of_filter. cbn.
    rewrite Forall_forall in Hcmp. rewrite Hcmp by done. lia.
  - apply Forall_map, Forall_forall. intros x [Hle Hin]%list_elem_of_filter. cbn.
    rewrite Forall_forall in Hcmp. rewrite Hcmp by done. lia.
  - unfold bound, at_u32. cbn. rewrite !length_map.
    pose proof (length_filter (fun x : Z * cPacket => x.1 <= N') P). lia.
Qed.

Lemma mb_receive_spec q N l P hi seg b len M :
  mbr_repr q N l P -> below hi l -> in_epoch N hi -> positions_in N hi P ->
  N <= b -> 0 < len -> b + len <= hi -> carries seg ((b, len), M) ->
  NoDup (M.*1 ++ P.*1) ->
  let have z := b <= z < b + len \/ covers l z in
  exists q' N' l' P1 P2, receive_text seg q = Ok (u32 N', P1.*2) q' /\
    mbr_repr q' N' l' P2 /\ below hi l' /\
    P1 ++ P2 ≡ₚ M ++ P /\ strictly_ordered P1 /\
    Forall (fun x => x.1 <= N') P1 /\ positions_in N' hi P2 /\
    first_missing have N N' /\ (forall z, covers l' z <-> have z /\ N' <= z).
Proof.
  intros [HB HPq Ho] Hw Hep HP Hb Hlen He (Hseq & Hpl & Hmsgs & HM) Hnd have. cbn [fst snd] in *.
  destruct (insert_extract_spec (base q) N l hi seg b len)
    as (b1 & b2 & N' & l' & Hrun & Hn1 & Hx & HR2 & Hw2 & Hfm & Hc2); try done.
  assert (HN' : N <= N' <= hi).
  { split; [apply Hfm|]. eapply first_missing_bound; [exact Hfm|lia|].
    intros z [|Hz]; [lia|]. by apply (covers_below hi l). }
  assert (Hx' := extractTo_nothing b2 N' l' hi HR2 Hw2 (in_epoch_advance N N' hi Hep HN')).
  assert (HM' : positions_in N hi M) by (eapply Forall_impl; [exact HM|]; cbn; lia).
  destruct (insert_all_spec N hi M P) as (Hins & Hperm & Hord); try done.
  set (P' := pos_insert_all M P) in *. clearbody P'.
  assert (HP' : positions_in N hi P') by (unfold positions_in; rewrite Hperm; by apply Forall_app).
  pose proof (extract_messages b1 b2 P' (N' - N) N N' hi Hx Hx' Hep HN' HP' Hord) as Hext.
  eexists (mk b2 _), N', l', (filter (fun x => x.1 <= N') P'), (filter (fun x => N' < x.1) P').
  assert (Hsplit := ordered_split P' N' Hord).
  assert (Hord' := Hord). rewrite Hsplit in Hord'. apply StronglySorted_app in Hord' as (_ & Ho1 & Ho2).
  split; [|split; [by split|split; [done|split; [by rewrite <- Hsplit|split; [done|]]]]].
  - unfold receive_text. cbn [rq_insertBytesFromSegment MsgBasedRcvQueue_ReceiveQueue].
    assert (Hq : insertBytesFromSegment seg q = Ok (u32 N') (mk b1 (at_u32 P'))).
    { destruct q as [bq Pq]. cbn [base payloadList] in HPq, Hrun. unfold insertBytesFromSegment, super, bind.
      cbn [base]. rewrite Hrun. cbn. unfold gets. rewrite Hmsgs, HPq, Hins. cbn. by rewrite Hn1. }
    rewrite (bind_ok _ _ _ _ _ Hq). by rewrite (bind_ok _ _ _ _ _ Hext).
  - split; [apply Forall_forall; by intros x [? _]%list_elem_of_filter|].
    split; [|done]. apply Forall_forall. intros x [? Hin]%list_elem_of_filter.
    unfold positions_in in HP'. rewrite Forall_forall in HP'. specialize (HP' x Hin). lia.
Qed.

End MsgRcv.

(** ** A whole stream *)

(** Segments in arrival order; the packets passed up. *)
Fixpoint receive_stream `{ReceiveQueue Q} (segs : list TCPSegment) : Eff Q (list cPacket) :=
  match segs with
  | [] => ret []
  | seg :: rest =>
      let! r := receive_text seg in
      let! msgs := receive_stream rest in
      ret (r.2 ++ msgs)
  end.

(** The positions of consecutive segments of the given sizes. *)
Fixpoint cuts (F : Z) (sizes : list Z) : list (Z * Z) :=
  match sizes with
  | [] => []
  | n :: rest => (F, n) :: cuts (F + n) rest
  end.

Section Stream.
Implicit Types (P L M D : list (Z * cPacket)) (As : list ((Z * Z) * list (Z * cPacket))).

Definition messages As : list (Z * cPacket) := concat (As.*2).

Lemma NoDup_sub_perm (Ms P1 P2 Q : list (Z * cPacket)) :
  Ms ++ P1 ++ P2 ≡ₚ Q -> NoDup (Q.*1) -> NoDup (Ms.*1 ++ P2.*1).
Proof.
  intros Hp Hnd. rewrite <- Hp, !fmap_app in Hnd. eapply sublist_NoDup; [exact Hnd|].
  apply sublist_app; [done|]. by apply sublist_inserts_l.
Qed.

Lemma receive_stream_spec segs As q N l P hi :
  Forall2 carries segs As ->
  mbr_repr q N l P -> below hi l -> N <= hi -> in_epoch N hi -> positions_in N hi P ->
  fresh_arrivals N l hi (As.*1) -> NoDup ((messages As).*1 ++ P.*1) ->
  exists q' N' l' D P', receive_stream segs q = Ok (D.*2) q' /\ mbr_repr q' N' l' P' /\
    D ++ P' ≡ₚ messages As ++ P /\ strictly_ordered D /\
    Forall (fun x => N < x.1 <= N') D /\ positions_in N' hi P' /\
    below hi l' /\
    first_missing (fun z => Exists (fun a => in_segment a z) (As.*1) \/ covers l z) N N'.
Proof.
  intros HF. revert q N l P.
  induction HF as [|seg [[b len] M] segs As Hc HF IH];
    intros q N l P HR Hw HNhi Hep HP Hfr Hnd.
  { exists q, N, l, [], P. split; [done|]. split; [done|]. split; [done|].
    split; [constructor|]. split; [done|]. split; [done|]. split; [done|].
    split; [lia|]. split; [lia|]. intros [He|Hc]; [by inversion He|].
    pose proof (covers_above _ _ _ (vdr_above _ _ _ (mbrr_base _ _ _ _ HR)) Hc). lia. }
  assert (Hfr1 := Hfr). destruct Hfr1 as [_ Hf1].
  inversion Hf1 as [|? ? (Hb & Hlen & He & _) _]; subst. cbn [fst snd] in *.
  unfold messages in Hnd. cbn [fmap list_fmap concat snd] in Hnd. fold (messages As) in Hnd.
  rewrite fmap_app, <- app_assoc in Hnd.
  destruct (mb_receive_spec q N l P hi seg b len M)
    as (q1 & N1 & l1 & P1 & P2 & Hrun1 & HR1 & Hw1 & Hp1 & Ho1 & HP1 & HP2 & Hfm1 & Hc1); try done.
  { eapply sublist_NoDup; [exact Hnd|]. apply sublist_app; [done|]. by apply sublist_inserts_l. }
  assert (Hall : messages As ++ P1 ++ P2 ≡ₚ M ++ messages As ++ P) by
    (rewrite Hp1, !app_assoc, (Permutation_app_comm M); done).
  assert (HN1 : N <= N1 <= hi).
  { split; [apply Hfm1|]. eapply first_missing_bound; [exact Hfm1|lia|].
    intros z [|Hz]; [lia|]. by apply (covers_below hi l). }
  destruct (IH q1 N1 l1 P2) as (q' & N' & l' & D & P' & Hrun & HR' & Hp & Ho & HD & HP' & Hw' & Hfm);
    [done|done|lia|by apply (in_epoch_advance N)|done| | |].
  { apply (fresh_arrivals_step N N1 l l1 hi (b, len)); [done..|].
    intros z Hz. by apply Hc1 in Hz as []. }
  { apply (NoDup_sub_perm _ P1 _ _ Hall). by rewrite !fmap_app. }
  assert (HP1N : Forall (fun x => N < x.1) P1).
  { assert (HMP : Forall (fun x => N < x.1) (P1 ++ P2)); [|by apply Forall_app in HMP as []].
    rewrite Hp1. apply Forall_app. split; (eapply Forall_impl; [apply Hc || exact HP|]); cbn; lia. }
  exists q', N', l', (P1 ++ D), P'. split; [|split; [done|split; [|split; [|split; [|split; [done|split; [done|]]]]]]].
  - cbn [receive_stream]. rewrite (bind_ok _ _ _ _ _ Hrun1). rewrite (bind_ok _ _ _ _ _ Hrun).
    unfold ret. by rewrite fmap_app.
  - unfold messages. cbn [fmap list_fmap concat snd]. fold (messages As).
    rewrite <- !app_assoc, Hp. rewrite <- Hall. by rewrite !app_assoc, (Permutation_app_comm P1).
  - apply StronglySorted_app. split; [|done]. rewrite Forall_forall in HP1, HD.
    intros x y Hx Hy. specialize (HP1 x Hx). specialize (HD y Hy). cbn in *. lia.
  - destruct Hfm as [Hle _]. apply Forall_app. rewrite !Forall_forall in *.
    split; intros x Hx; [specialize (HP1 x Hx); specialize (HP1N x Hx)|specialize (HD x Hx)]; cbn in *; lia.
  - change (((b, len, M) :: As).*1) with ((b, len) :: As.*1).
    by apply (first_missing_step (b, len) (As.*1) l l1 N N1 N').
Qed.

(** ** The sending side *)
Lemma total_nonneg sizes : Forall (fun n => 0 < n) sizes -> 0 <= total sizes.
Proof. induction 1 as [|n sizes]; cbn; [done|]. fold (total sizes). lia. Qed.

Definition cut_messages L F sizes : list ((Z * Z) * list (Z * cPacket)) :=
  map (fun a => (a, msgs_between a.1 (a.1 + a.2) L)) (cuts F sizes).

Lemma createSegments_carries q B E L F sizes :
  mb_repr q B E L -> B <= F -> Forall (fun n => 0 < n) sizes -> F + total sizes <= E ->
  exists segs, createSegments (u32 F) sizes q = Ok segs q /\
    Forall2 carries segs (cut_messages L F sizes).
Proof.
  intros HR. revert F. induction sizes as [|n sizes IH]; intros F HF Hn HE.
  { exists []. split; [done|constructor]. }
  inversion Hn as [|? ? Hn0 Hns]; subst. cbn [total foldr] in HE. fold (total sizes) in HE.
  assert (0 <= total sizes) by by apply total_nonneg.
  pose proof HR as [].
  destruct (createSegment_payload q B E L F n) as (seg & Hrun & Hh & Hp); try done; [lia..|].
  destruct (IH (F + n)) as (segs & Hruns & Hps); try done; [lia..|].
  exists (seg :: segs). split.
  - cbn [createSegments sq_createSegmentWithBytes MsgBasedSendQueue_SendQueue].
    rewrite (bind_ok _ _ _ _ _ Hrun), u32_add_l. by rewrite (bind_ok _ _ _ _ _ Hruns).
  - constructor; [|done]. unfold carries. cbn [fst snd].
    split; [change (sequenceNo (seg <| payloadList := [] |>) = u32 F); by rewrite Hh|].
    split; [|split; [done|]].
    + change (payloadLength (seg <| payloadList := [] |>) = n). rewrite Hh. cbn.
      apply i32_small. lia.
    + apply Forall_forall. by intros x [? _]%list_elem_of_filter.
Qed.

Lemma cuts_disjoint F sizes :
  Forall (fun n => 0 < n) sizes ->
  disjoint_segments (cuts F sizes) /\
  Forall (fun a => F <= a.1 /\ 0 < a.2 /\ a.1 + a.2 <= F + total sizes) (cuts F sizes) /\
  (forall z, Exists (fun a => in_segment a z) (cuts F sizes) <-> F <= z < F + total sizes).
Proof.
  intros Hn. revert F. induction Hn as [|n sizes Hn Hns IH]; intros F; cbn.
  { split; [constructor|]. split; [constructor|]. intros z. split; [by inversion 1|lia]. }
  fold (total sizes). destruct (IH (F + n)) as (Hd & Hb & He).
  assert (0 <= total sizes) by by apply total_nonneg.
  split; [|split].
  - constructor; [|done]. eapply Forall_impl; [exact Hb|]. unfold in_segment. cbn. lia.
  - constructor; [cbn; lia|]. eapply Forall_impl; [exact Hb|]. cbn. lia.
  - intros z. rewrite Exists_cons, He. unfold in_segment. cbn. lia.
Qed.

Lemma cut_messages_all L F sizes :
  ordered L -> Forall (fun n => 0 < n) sizes ->
  messages (cut_messages L F sizes) = msgs_between F (F + total sizes) L.
Proof.
  intros Ho Hn. revert F. induction Hn as [|n sizes Hn Hns IH]; intros F.
  { unfold msgs_between. rewrite filter_nothing; [done|]. apply Forall_forall.
    intros x _. cbn [total foldr]. lia. }
  assert (0 <= total sizes) by by apply total_nonneg.
  unfold messages, cut_messages. cbn [cuts map fmap list_fmap concat fst snd total foldr].
  fold (total sizes). rewrite (msgs_between_app F (F + n) (F + (n + total sizes))) by (done || lia).
  f_equal. unfold messages, cut_messages in IH. rewrite (IH (F + n)). f_equal. lia.
Qed.

(** ** Permutations *)
Lemma disjoint_segments_perm A A' :
  A ≡ₚ A' -> disjoint_segments A -> disjoint_segments A'.
Proof.
  unfold disjoint_segments. induction 1 as [|a A A' Hp IH|a b A|A A' A'' ? IH1 ? IH2];
    intros Hd; [done| | |by auto].
  - inversion Hd; subst. constructor; [by rewrite <- Hp|by apply IH].
  - inversion Hd as [|? ? Hb Hd']; inversion Hd'; inversion Hb as [|? ? Hab]; subst.
    repeat constructor; try done. intros z [? ?]. by apply (Hab z).
Qed.

Lemma Forall2_perm_l {X Y} (R : X -> Y -> Prop) (l l' : list X) (k : list Y) :
  Forall2 R l k -> l' ≡ₚ l -> exists k', k' ≡ₚ k /\ Forall2 R l' k'.
Proof.
  intros HF Hp. revert k HF. induction Hp as [|x l' l Hp IH|x y l|l1 l2 l3 ? IH1 ? IH2];
    intros k HF.
  - by exists k.
  - inversion HF as [|? b ? k0 Hxb HF']; subst. destruct (IH k0 HF') as (k' & Hk & HF2).
    exists (b :: k'). split; [by constructor|by constructor].
  - inversion HF as [|? b ? k0 Hxb HF']; subst. inversion HF' as [|? c ? k1 Hyc HF2]; subst.
    exists (c :: b :: k1). split; [constructor|by repeat constructor].
  - destruct (IH2 k HF) as (k2 & Hk2 & HF2). destruct (IH1 k2 HF2) as (k1 & Hk1 & HF1).
    exists k1. split; [by rewrite Hk1|done].
Qed.

Lemma strictly_ordered_unique L L' :
  L ≡ₚ L' -> strictly_ordered L -> strictly_ordered L' -> L = L'.
Proof.
  intros Hp H1 H2. revert L' Hp H2. induction H1 as [|x L Ho IH HF]; intros L' Hp H2.
  { by apply Permutation_nil_l in Hp. }
  destruct L' as [|y L']; [by apply Permutation_nil_r in Hp|].
  inversion H2 as [|? ? Ho' HF']; subst. rewrite Forall_forall in HF, HF'.
  assert (x = y) as ->.
  { assert (Hx : x ∈ y :: L') by (rewrite <- Hp; by left).
    assert (Hy : y ∈ x :: L) by (rewrite Hp; by left).
    apply elem_of_cons in Hx as [->|Hx]; [done|].
    apply elem_of_cons in Hy as [->|Hy]; [done|].
    specialize (HF y Hy). specialize (HF' x Hx). cbn in *. lia. }
  f_equal. apply IH; [|done]. by apply Permutation_cons_inv in Hp.
Qed.

Lemma strictly_ordered_NoDup L : strictly_ordered L -> NoDup (L.*1).
Proof.
  induction 1 as [|x L Ho IH HF]; cbn; [constructor|]. constructor; [|done].
  rewrite list_elem_of_fmap. intros (y & Hxy & Hy). rewrite Forall_forall in HF.
  specialize (HF y Hy). cbn in HF. lia.
Qed.

Lemma strictly_ordered_filter (Q : Z * cPacket -> Prop) `{!forall x, Decision (Q x)} L :
  strictly_ordered L -> strictly_ordered (filter Q L).
Proof.
  induction 1 as [|x L Ho IH HF]; [constructor|]. rewrite filter_cons.
  case_decide; [|done]. constructor; [done|]. by apply Forall_filter_sub.
Qed.

Lemma strictly_ordered_ordered L : strictly_ordered L -> ordered L.
Proof.
  induction 1 as [|x L Ho IH HF]; constructor; [done|].
  eapply Forall_impl; [exact HF|]. cbn. lia.
Qed.

Lemma cut_messages_fst L F sizes : (cut_messages L F sizes).*1 = cuts F sizes.
Proof.
  unfold cut_messages. induction (cuts F sizes) as [|a c IH]; [done|]. cbn. f_equal. exact IH.
Qed.

Lemma regions_above_below N l : regions_above N l -> below N l -> l = [].
Proof.
  intros Ha Hw. destruct Ha as [|? b e l ? ? _]; [done|]. inversion Hw; subst. cbn in *. lia.
Qed.


End Stream.
