(* ===== verification/TcpConnection.v ===== *)
(** * Connections and the context their handlers run in

    The data of [TCPConnection] ([transport/tcp/TCPConnection.h]), of the state
    blocks of the algorithm classes ([transport/tcp/flavours]) and of the [TCP]
    module ([transport/tcp/TCP.h]), the services of the simulation kernel they
    call (timers, simulation time, [send]), and the monad of the handlers.

    A pointer that the constructor leaves [NULL] until the connection is opened
    ([state], [sendQueue], [receiveQueue], [tcpAlgorithm]) is a block with its
    constructor's values here: in [TCP_S_INIT] every handler either creates these
    objects or raises an error before using them.  The output vectors (statistics)
    and log output are left out. *)
From S2P Require Import Prelude SeqNum TcpTypes TcpSendQueue TcpRcvQueue.

(** ** The simulation kernel and the module parameters

    OMNeT++ is not part of the sources: what the code uses of it is a parameter.
    Simulation time is a number of ticks ([simtime_t] is a scaled integer). *)
Class SimEnv : Type := {
  simtime_second : Z;            (** ticks per second *)
  simtime_eighth : Z -> Z;       (** [0.125 * t] on [simtime_t] *)
  iss_clock : Z -> Z;            (** [(unsigned long)fmod(SIMTIME_DBL(t)*250000.0, 2^32)] *)
  getUniqueNumber : nat -> Z;    (** the n-th number [ev.getUniqueNumber()] returns to this module *)
  par_mss : Z;
  par_advertisedWindow : Z;
  par_sendQueueClass : SendQueueClass;
  par_receiveQueueClass : ReceiveQueueClass;
  par_tcpAlgorithmClass : AlgorithmClass
}.

(** What the code relies on: a fifth and a quarter of a second are whole numbers
    of ticks, scaling by one eighth moves a value towards zero without crossing
    it, unique numbers are unique. *)
Class SimEnvLaws {E : SimEnv} : Prop := {
  second_pos : 0 < simtime_second;
  second_exact : simtime_second mod 20 = 0;
  eighth_pos : forall t, 0 <= t -> 0 <= simtime_eighth t <= t;
  eighth_neg : forall t, t <= 0 -> t <= simtime_eighth t <= 0;
  unique_inj : forall i j, getUniqueNumber i = getUniqueNumber j -> i = j
}.

(** ** Timers

    A [cMessage *] used as a self-message: not created or deleted, idle, or
    scheduled for a point in time. *)
Inductive Timer : Type :=
| TimerNull
| TimerIdle
| TimerAt (t : Z).

Inductive TimerId : Type :=
| The2MSL
| ConnEstab
| FinWait2
| SynRexmit
| Rexmit
| Persist
| DelayedAck
| KeepAlive.

#[export] Instance TimerId_eq_dec : EqDecision TimerId.
Proof. solve_decision. Defined.

Section Constants.
Context {E : SimEnv}.
Definition TCP_TIMEOUT_CONN_ESTAB : Z := 75 * simtime_second.
Definition TCP_TIMEOUT_FIN_WAIT_2 : Z := 600 * simtime_second.
Definition TCP_TIMEOUT_2MSL : Z := 240 * simtime_second.
Definition TCP_TIMEOUT_SYN_REXMIT : Z := 3 * simtime_second.
Definition TCP_TIMEOUT_SYN_REXMIT_MAX : Z := 240 * simtime_second.
Definition DELAYED_ACK_TIMEOUT : Z := simtime_second / 5.
Definition MIN_REXMIT_TIMEOUT : Z := simtime_second.
Definition MAX_REXMIT_TIMEOUT : Z := 240 * simtime_second.
Definition DUMB_REXMIT_TIMEOUT : Z := 2 * simtime_second.
End Constants.

Definition MAX_SYN_REXMIT_COUNT : Z := 12.
Definition MAX_REXMIT_COUNT : Z := 12.
Definition TCP_HEADER_OCTETS : Z := 20.

(** ** State block of the algorithm classes

    [TCPBaseAlgStateVariables] and, for Tahoe and Reno, [ssthresh]. *)
Record AlgStateVariables : Type := mk_AlgStateVariables {
  delayed_acks_enabled : bool;
  nagle_enabled : bool;
  rexmit_count : Z;
  rexmit_timeout : Z;
  snd_cwnd : Z;
  rtseq : Z;
  rtseq_sendtime : Z;
  srtt : Z;
  rttvar : Z;
  ssthresh : Z
}.

#[export] Instance eta_AlgStateVariables : Eta AlgStateVariables := fun s =>
  {| delayed_acks_enabled := delayed_acks_enabled s; nagle_enabled := nagle_enabled s;
     rexmit_count := rexmit_count s; rexmit_timeout := rexmit_timeout s;
     snd_cwnd := snd_cwnd s; rtseq := rtseq s; rtseq_sendtime := rtseq_sendtime s;
     srtt := srtt s; rttvar := rttvar s; ssthresh := ssthresh s |}.

Definition AlgStateVariables_new {E : SimEnv} : AlgStateVariables :=
  {| delayed_acks_enabled := false; nagle_enabled := true; rexmit_count := 0;
     rexmit_timeout := 3 * simtime_second; snd_cwnd := 0; rtseq := 0; rtseq_sendtime := 0;
     srtt := 0; rttvar := 3 * simtime_second / 4; ssthresh := 65535 |}.

(** ** The connection object *)
Record TCPConnection : Type := mk_TCPConnection {
  appGateIndex : Z;
  connId : Z;
  localAddr : IPvXAddress;
  remoteAddr : IPvXAddress;
  localPort : Z;
  remotePort : Z;
  fsm : TcpState;
  state : TCPStateVariables;
  alg : AlgStateVariables;
  sendQueue : AnySendQueue;
  receiveQueue : AnyRcvQueue;
  tcpAlgorithm : AlgorithmClass;
  the2MSLTimer : Timer;
  connEstabTimer : Timer;
  finWait2Timer : Timer;
  synRexmitTimer : Timer;
  rexmitTimer : Timer;
  persistTimer : Timer;
  delayedAckTimer : Timer;
  keepAliveTimer : Timer
}.

#[export] Instance eta_TCPConnection : Eta TCPConnection := fun s =>
  {| appGateIndex := appGateIndex s; connId := connId s; localAddr := localAddr s;
     remoteAddr := remoteAddr s; localPort := localPort s; remotePort := remotePort s;
     fsm := fsm s; state := state s; alg := alg s; sendQueue := sendQueue s;
     receiveQueue := receiveQueue s; tcpAlgorithm := tcpAlgorithm s;
     the2MSLTimer := the2MSLTimer s; connEstabTimer := connEstabTimer s;
     finWait2Timer := finWait2Timer s; synRexmitTimer := synRexmitTimer s;
     rexmitTimer := rexmitTimer s; persistTimer := persistTimer s;
     delayedAckTimer := delayedAckTimer s; keepAliveTimer := keepAliveTimer s |}.

(** [TCPConnection(TCP *, int appGateIndex, int connId)] *)
Definition TCPConnection_new {E : SimEnv} (gate id : Z) : TCPConnection :=
  {| appGateIndex := gate; connId := id; localAddr := unspecified;
     remoteAddr := unspecified; localPort := -1; remotePort := -1; fsm := TCP_S_INIT;
     state := TCPStateVariables_new; alg := AlgStateVariables_new;
     sendQueue := createSendQueue par_sendQueueClass;
     receiveQueue := createReceiveQueue par_receiveQueueClass;
     tcpAlgorithm := par_tcpAlgorithmClass;
     the2MSLTimer := TimerIdle; connEstabTimer := TimerIdle; finWait2Timer := TimerIdle;
     synRexmitTimer := TimerIdle; rexmitTimer := TimerNull; persistTimer := TimerNull;
     delayedAckTimer := TimerNull; keepAliveTimer := TimerNull |}.

Definition timer_of (id : TimerId) (c : TCPConnection) : Timer :=
  match id with
  | The2MSL => the2MSLTimer c | ConnEstab => connEstabTimer c
  | FinWait2 => finWait2Timer c | SynRexmit => synRexmitTimer c
  | Rexmit => rexmitTimer c | Persist => persistTimer c
  | DelayedAck => delayedAckTimer c | KeepAlive => keepAliveTimer c
  end.

Definition set_timer (id : TimerId) (v : Timer) (c : TCPConnection) : TCPConnection :=
  match id with
  | The2MSL => c <| the2MSLTimer := v |> | ConnEstab => c <| connEstabTimer := v |>
  | FinWait2 => c <| finWait2Timer := v |> | SynRexmit => c <| synRexmitTimer := v |>
  | Rexmit => c <| rexmitTimer := v |> | Persist => c <| persistTimer := v |>
  | DelayedAck => c <| delayedAckTimer := v |> | KeepAlive => c <| keepAliveTimer := v |>
  end.

(** ** The TCP module

    Connections live in [heap] under their address ([nextPtr] is the address
    [new] returns next); [tcpAppConnMap] and
    [tcpConnMap] are the two [std::map]s of pointers, [usedEphemeralPorts] the
    [std::multiset<short>].  The ports of a [SockPair] are [short]s.  The keys are
    compared structurally: the maps never mix an IPv4 address with an IPv6 address
    that has the same first word. *)
Record AppConnKey : Type := mk_AppConnKey { key_appGateIndex : Z; key_connId : Z }.

Record SockPair : Type := mk_SockPair {
  sp_localAddr : IPvXAddress;
  sp_remoteAddr : IPvXAddress;
  sp_localPort : Z;
  sp_remotePort : Z
}.

#[export] Instance AppConnKey_eq_dec : EqDecision AppConnKey.
Proof. solve_decision. Defined.
#[export] Instance AppConnKey_countable : Countable AppConnKey.
Proof.
  refine (inj_countable' (fun k => (key_appGateIndex k, key_connId k))
    (fun p => mk_AppConnKey p.1 p.2) _). by intros [].
Defined.
#[export] Instance SockPair_eq_dec : EqDecision SockPair.
Proof. solve_decision. Defined.
#[export] Instance SockPair_countable : Countable SockPair.
Proof.
  refine (inj_countable'
    (fun k => (sp_localAddr k, sp_remoteAddr k, sp_localPort k, sp_remotePort k))
    (fun p => let '(la, ra, lp, rp) := p in mk_SockPair la ra lp rp) _). by intros [].
Defined.

Record TCP : Type := mk_TCP {
  heap : gmap positive TCPConnection;
  tcpAppConnMap : gmap AppConnKey positive;
  tcpConnMap : gmap SockPair positive;
  lastEphemeralPort : Z;
  usedEphemeralPorts : gmultiset Z;
  uniqueNumbers : nat;
  nextPtr : positive
}.

#[export] Instance eta_TCP : Eta TCP := fun s =>
  {| heap := heap s; tcpAppConnMap := tcpAppConnMap s; tcpConnMap := tcpConnMap s;
     lastEphemeralPort := lastEphemeralPort s; usedEphemeralPorts := usedEphemeralPorts s;
     uniqueNumbers := uniqueNumbers s; nextPtr := nextPtr s |}.

(** ** Messages sent *)
Record TCPStatusInfo : Type := mk_TCPStatusInfo {
  status_state : TcpState;
  status_localAddr : IPvXAddress;
  status_remoteAddr : IPvXAddress;
  status_localPort : Z;
  status_remotePort : Z;
  status_vars : TCPStateVariables
}.

Inductive AppMessage : Type :=
| Indication (code : TcpStatusInd) (connId : Z)
| EstabIndication (connId : Z) (localAddr remoteAddr : IPvXAddress) (localPort remotePort : Z)
| DataIndication (connId : Z) (msg : cPacket)
| StatusIndication (info : TCPStatusInfo).

(** A segment leaves through [ipOut] or [ipv6Out] depending on the family of the
    destination; [bytes] is the length set on the packet. *)
Inductive Output : Type :=
| ToIP (src dest : IPvXAddress) (bytes : Z) (seg : TCPSegment)
| ToApp (gate : Z) (msg : AppMessage).

(** ** The context of a handler

    [this] is the address of the connection whose method runs and [self] its
    contents (its entry in the heap is written back when the handler returns);
    [out] collects what the event sends. *)
Record Ctx : Type := mk_Ctx {
  this : positive;
  self : TCPConnection;
  tcp : TCP;
  now : Z;
  out : list Output
}.

#[export] Instance eta_Ctx : Eta Ctx := fun s =>
  {| this := this s; self := self s; tcp := tcp s; now := now s; out := out s |}.

Definition conn {A} (f : TCPConnection -> A) : Eff Ctx A := gets (fun x => f (self x)).
Definition var {A} (f : TCPStateVariables -> A) : Eff Ctx A := conn (fun c => f (state c)).
Definition algvar {A} (f : AlgStateVariables -> A) : Eff Ctx A := conn (fun c => f (alg c)).

Definition set_conn (f : TCPConnection -> TCPConnection) : Eff Ctx unit :=
  modify (fun x => x <| self := f (self x) |>).
Definition set_var (f : TCPStateVariables -> TCPStateVariables) : Eff Ctx unit :=
  set_conn (fun c => c <| state := f (state c) |>).
Definition set_algvar (f : AlgStateVariables -> AlgStateVariables) : Eff Ctx unit :=
  set_conn (fun c => c <| alg := f (alg c) |>).

Definition emit (o : Output) : Eff Ctx unit := modify (fun x => x <| out := out x ++ [o] |>).

(** Runs a method of the send queue, of the receive queue. *)
Definition on_sendQueue {A} (m : Eff AnySendQueue A) : Eff Ctx A :=
  fun x => match m (sendQueue (self x)) with
           | Ok a q => Ok a (x <| self := (self x) <| sendQueue := q |> |>)
           | Err e => Err e
           end.

Definition on_receiveQueue {A} (m : Eff AnyRcvQueue A) : Eff Ctx A :=
  fun x => match m (receiveQueue (self x)) with
           | Ok a q => Ok a (x <| self := (self x) <| receiveQueue := q |> |>)
           | Err e => Err e
           end.

(** ** Timer services of the kernel *)
Definition isScheduled (id : TimerId) : Eff Ctx bool :=
  let! t := conn (timer_of id) in
  match t with
  | TimerNull => fail (NullPointer "timer")
  | TimerIdle => ret false
  | TimerAt _ => ret true
  end.

(** [scheduleAt(simTime()+timeout, msg)] *)
Definition scheduleTimeout (id : TimerId) (timeout : Z) : Eff Ctx unit :=
  let! t := conn (timer_of id) in
  match t with
  | TimerNull => fail (NullPointer "scheduleAt")
  | TimerAt _ => fail (RuntimeError "scheduleAt(): message is already scheduled")
  | TimerIdle =>
      if timeout <? 0 then fail (RuntimeError "scheduleAt(): cannot schedule message to the past")
      else let! t0 := gets now in set_conn (set_timer id (TimerAt (t0 + timeout)))
  end.

(** Cancelling an idle timer does nothing. *)
Definition cancelEvent (id : TimerId) : Eff Ctx unit :=
  let! t := conn (timer_of id) in
  match t with
  | TimerNull => fail (NullPointer "cancelEvent")
  | _ => set_conn (set_timer id TimerIdle)
  end.

(** [if (timer) cancelEvent(timer)] *)
Definition cancelIfExists (id : TimerId) : Eff Ctx unit :=
  let! t := conn (timer_of id) in
  match t with TimerNull => ret tt | _ => cancelEvent id end.

(** [delete cancelEvent(timer)] followed by [timer = NULL]. *)
Definition deleteTimer (id : TimerId) : Eff Ctx unit :=
  cancelEvent id ;;; set_conn (set_timer id TimerNull).

(** ** Running the monad

    Equations that execute one step; collected in the rewrite database [run]. *)
Section Run.
Context {A B : Type}.
Implicit Types (x : Ctx).

Lemma run_ret (a : A) (k : A -> Eff Ctx B) x : bind (ret a) k x = k a x.
Proof. done. Qed.
Lemma run_gets (f : Ctx -> A) (k : A -> Eff Ctx B) x : bind (gets f) k x = k (f x) x.
Proof. done. Qed.
Lemma run_connv (f : TCPConnection -> A) (k : A -> Eff Ctx B) x :
  bind (conn f) k x = k (f (self x)) x.
Proof. done. Qed.
Lemma run_var (f : TCPStateVariables -> A) (k : A -> Eff Ctx B) x :
  bind (var f) k x = k (f (state (self x))) x.
Proof. done. Qed.
Lemma run_algvar (f : AlgStateVariables -> A) (k : A -> Eff Ctx B) x :
  bind (algvar f) k x = k (f (alg (self x))) x.
Proof. done. Qed.
Lemma run_set_conn f (k : unit -> Eff Ctx B) x :
  bind (set_conn f) k x = k tt (x <| self := f (self x) |>).
Proof. done. Qed.
Lemma run_set_var f (k : unit -> Eff Ctx B) x :
  bind (set_var f) k x = k tt (x <| self := (self x) <| state := f (state (self x)) |> |>).
Proof. done. Qed.
Lemma run_set_algvar f (k : unit -> Eff Ctx B) x :
  bind (set_algvar f) k x = k tt (x <| self := (self x) <| alg := f (alg (self x)) |> |>).
Proof. done. Qed.
Lemma run_modify f (k : unit -> Eff Ctx B) x : bind (modify f) k x = k tt (f x).
Proof. done. Qed.
Lemma run_when_true (m : Eff Ctx unit) (k : unit -> Eff Ctx B) x :
  bind (when true m) k x = bind m k x.
Proof. done. Qed.
Lemma run_when_false (m : Eff Ctx unit) (k : unit -> Eff Ctx B) x :
  bind (when false m) k x = k tt x.
Proof. done. Qed.
Lemma run_assert_true w (k : unit -> Eff Ctx B) x : bind (assert_ w true) k x = k tt x.
Proof. done. Qed.
Lemma run_assert_false w (k : unit -> Eff Ctx B) x :
  bind (assert_ w false) k x = Err (AssertionFailed w).
Proof. done. Qed.
Lemma run_fail e (k : A -> Eff Ctx B) x : bind (fail e) k x = Err e.
Proof. done. Qed.
Lemma run_bind {C} (m : Eff Ctx A) (k : A -> Eff Ctx B) (k' : B -> Eff Ctx C) x :
  bind (bind m k) k' x = bind m (fun a => bind (k a) k') x.
Proof. unfold bind. by destruct (m x). Qed.
End Run.

Lemma set_conn_eq f x : set_conn f x = Ok tt (x <| self := f (self x) |>).
Proof. done. Qed.
Lemma set_var_eq f x :
  set_var f x = Ok tt (x <| self := (self x) <| state := f (state (self x)) |> |>).
Proof. done. Qed.
Lemma set_algvar_eq f x :
  set_algvar f x = Ok tt (x <| self := (self x) <| alg := f (alg (self x)) |> |>).
Proof. done. Qed.

Create Rewrite HintDb run.
#[export] Hint Rewrite @run_ret @run_gets @run_connv @run_var @run_algvar @run_set_conn
  @run_set_var @run_set_algvar @run_modify @run_when_true @run_when_false @run_assert_true
  @run_assert_false @run_fail : run.

(** Executes all steps whose outcome is known. *)
Ltac run_steps := autorewrite with run; cbv beta.
