(* ===== verification/TcpSockets.v ===== *)
(** * The socket tables of the TCP module

    [addSockPair], [updateSockPair], [addForkedConnection], [removeConnection],
    [findConnForSegment], [findConnForApp] and [getEphemeralPort] of
    [transport/tcp/TCP.cc].  A connection is passed as its address and contents;
    the new contents are returned. *)
From S2P Require Import Prelude SeqNum TcpTypes TcpSendQueue TcpRcvQueue TcpConnection.

Definition EPHEMERAL_PORTRANGE_START : Z := 1024.
Definition EPHEMERAL_PORTRANGE_END : Z := 5000.

Definition is_ephemeral (port : Z) : bool :=
  (EPHEMERAL_PORTRANGE_START <=? port) && (port <? EPHEMERAL_PORTRANGE_END).

Definition mkSockPair (la ra : IPvXAddress) (lp rp : Z) : SockPair :=
  mk_SockPair la ra (i16 lp) (i16 rp).

Definition sockPair_of (c : TCPConnection) : SockPair :=
  mkSockPair (localAddr c) (remoteAddr c) (localPort c) (remotePort c).
Definition appKey_of (c : TCPConnection) : AppConnKey :=
  mk_AppConnKey (appGateIndex c) (connId c).

Section Sockets.
Context {E : SimEnv}.

Definition addSockPair (p : positive) (c : TCPConnection) (la ra : IPvXAddress) (lp rp : Z)
    : Eff TCP TCPConnection :=
  let c := c <| localAddr := la |> <| remoteAddr := ra |> <| localPort := lp |>
             <| remotePort := rp |> in
  let key := mkSockPair la ra lp rp in
  let! m := gets tcpConnMap in
  match m !! key with
  | Some _ => fail (RuntimeError "Address already in use")
  | None =>
      modify (fun t => t <| tcpConnMap := <[key := p]> (tcpConnMap t) |>) ;;;
      when (is_ephemeral lp)
        (modify (fun t => t <| usedEphemeralPorts := {[+ i16 lp +]} ⊎ usedEphemeralPorts t |>)) ;;;
      ret c
  end.

Definition updateSockPair (p : positive) (c : TCPConnection) (la ra : IPvXAddress) (lp rp : Z)
    : Eff TCP TCPConnection :=
  let! m := gets tcpConnMap in
  assert_ "it!=tcpConnMap.end() && it->second==conn" (bool_decide (m !! sockPair_of c = Some p)) ;;;
  modify (fun t => t <| tcpConnMap := delete (sockPair_of c) (tcpConnMap t) |>) ;;;
  assert_ "conn->localPort == localPort" (localPort c =? lp) ;;;
  let c := c <| localAddr := la |> <| remoteAddr := ra |> <| remotePort := rp |> in
  modify (fun t => t <| tcpConnMap := <[sockPair_of c := p]> (tcpConnMap t) |>) ;;;
  ret c.

(** [conn] gets a new connection id, [newConn] keeps the old one. *)
Definition addForkedConnection (p : positive) (c : TCPConnection) (newp : positive)
    (newc : TCPConnection) (la ra : IPvXAddress) (lp rp : Z)
    : Eff TCP (TCPConnection * TCPConnection) :=
  let! c := updateSockPair p c la ra lp rp in
  let! newc := addSockPair newp newc (localAddr newc) (remoteAddr newc)
                 (localPort newc) (remotePort newc) in
  let! n := gets uniqueNumbers in
  modify (fun t => t <| uniqueNumbers := S n |>) ;;;
  let c' := c <| connId := getUniqueNumber n |> in
  modify (fun t => t <| tcpAppConnMap :=
    <[appKey_of newc := newp]> (<[appKey_of c' := p]>
      (delete (appKey_of c) (tcpAppConnMap t))) |>) ;;;
  ret (c', newc).

Definition removeConnection (p : positive) (c : TCPConnection) : Eff TCP unit :=
  modify (fun t => t <| tcpAppConnMap := delete (appKey_of c) (tcpAppConnMap t) |>
                     <| tcpConnMap := delete (sockPair_of c) (tcpConnMap t) |>
                     <| usedEphemeralPorts := usedEphemeralPorts t ∖ {[+ i16 (localPort c) +]} |>
                     <| heap := delete p (heap t) |>).

Definition findConnForApp (gate id : Z) (t : TCP) : option positive :=
  tcpAppConnMap t !! mk_AppConnKey gate id.

(** Four lookups, from the fully qualified pair to the blank remote socket. *)
Definition lookupKeys (seg : TCPSegment) (srcAddr destAddr : IPvXAddress) : list SockPair :=
  [mkSockPair destAddr srcAddr (destPort seg) (srcPort seg);
   mkSockPair unspecified srcAddr (destPort seg) (srcPort seg);
   mkSockPair destAddr unspecified (destPort seg) (-1);
   mkSockPair unspecified unspecified (destPort seg) (-1)].

Fixpoint find_first (m : gmap SockPair positive) (keys : list SockPair) : option positive :=
  match keys with
  | [] => None
  | k :: rest => match m !! k with Some p => Some p | None => find_first m rest end
  end.

Definition findConnForSegment (seg : TCPSegment) (srcAddr destAddr : IPvXAddress) (t : TCP)
    : option positive :=
  find_first (tcpConnMap t) (lookupKeys seg srcAddr destAddr).

(** ** Ephemeral ports *)
Definition next_port (port : Z) : Z :=
  let p := i16 (port + 1) in
  if p =? EPHEMERAL_PORTRANGE_END then EPHEMERAL_PORTRANGE_START else p.

Fixpoint searchPort (fuel : nat) (searchUntil : Z) : Eff TCP Z :=
  match fuel with
  | O => fail OutOfFuel
  | S fuel =>
      let! t := gets id in
      if bool_decide (lastEphemeralPort t ∈ usedEphemeralPorts t) then
        if lastEphemeralPort t =? searchUntil
        then fail (RuntimeError "Ephemeral port range exhausted")
        else
          modify (fun t => t <| lastEphemeralPort := next_port (lastEphemeralPort t) |>) ;;;
          searchPort fuel searchUntil
      else ret (lastEphemeralPort t)
  end.

(** The fuel is the size of the port range, 3976, and the final test. *)
Definition getEphemeralPort : Eff TCP Z :=
  let! searchUntil := gets lastEphemeralPort in
  modify (fun t => t <| lastEphemeralPort := next_port (lastEphemeralPort t) |>) ;;;
  searchPort 3977 searchUntil.

(** ** Calls from a connection's method *)
Definition on_tcp {A} (m : Eff TCP A) : Eff Ctx A :=
  fun x => match m (tcp x) with
           | Ok a t => Ok a (x <| tcp := t |>)
           | Err e => Err e
           end.
End Sockets.
