(* ===== verification/TcpSend.v ===== *)
(** * Sending

    The utility methods of [transport/tcp/TCPConnectionUtil.cc]: building and
    sending segments and indications, the window computation of [sendData],
    retransmission.  They call two hooks of the connection's [TCPAlgorithm],
    [ackSent] and [dataSent], which come first. *)
From S2P Require Import Prelude SeqNum TcpTypes TcpSendQueue TcpRcvQueue TcpConnection.

(** ** The hooks of the algorithm classes *)
Module BaseAlgHooks.
Definition startRexmitTimer {E : SimEnv} : Eff Ctx unit :=
  set_algvar (fun a => a <| rexmit_count := 0 |>) ;;;
  let! t := algvar rexmit_timeout in
  scheduleTimeout Rexmit t.

Definition ackSent {E : SimEnv} : Eff Ctx unit :=
  let! b := isScheduled DelayedAck in
  when b (cancelEvent DelayedAck).

Definition dataSent {E : SimEnv} (fromseq : Z) : Eff Ctx unit :=
  let! b := isScheduled Rexmit in
  when (negb b) startRexmitTimer ;;;
  let! t := algvar rtseq_sendtime in
  let! t0 := gets now in
  when (t =? 0)
    (set_algvar (fun a => a <| rtseq := fromseq |> <| rtseq_sendtime := t0 |>)).
End BaseAlgHooks.

Module DumbTCPHooks.
Definition ackSent {E : SimEnv} : Eff Ctx unit := ret tt.

Definition dataSent {E : SimEnv} (fromseq : Z) : Eff Ctx unit :=
  let! b := isScheduled Rexmit in
  when b (cancelEvent Rexmit) ;;;
  scheduleTimeout Rexmit DUMB_REXMIT_TIMEOUT.
End DumbTCPHooks.

Section Send.
Context {E : SimEnv}.

Definition ackSent : Eff Ctx unit :=
  let! a := conn tcpAlgorithm in
  match a with
  | DumbTCP_class => DumbTCPHooks.ackSent
  | _ => BaseAlgHooks.ackSent
  end.

Definition dataSent (fromseq : Z) : Eff Ctx unit :=
  let! a := conn tcpAlgorithm in
  match a with
  | DumbTCP_class => DumbTCPHooks.dataSent fromseq
  | _ => BaseAlgHooks.dataSent fromseq
  end.

(** ** Handing segments to IP

    [get4()] and [get6()] throw when the address is of the other family. *)
Definition sendable (src dest : IPvXAddress) : bool :=
  if isIPv6 dest then isIPv6 src || isUnspecified src else negb (isIPv6 src).

Definition sendToIP_raw (seg : TCPSegment) (bytes : Z) (src dest : IPvXAddress) : Eff Ctx unit :=
  if sendable src dest then emit (ToIP src dest bytes seg)
  else fail (RuntimeError "IPvXAddress: cannot return address as other family").

(** [sendToIP(tcpseg)]: ports are [short]s in the segment. *)
Definition sendToIP (seg : TCPSegment) : Eff Ctx unit :=
  let! c := conn id in
  let seg := seg <| srcPort := i16 (localPort c) |> <| destPort := i16 (remotePort c) |> in
  sendToIP_raw seg (TCP_HEADER_OCTETS + payloadLength seg) (localAddr c) (remoteAddr c).

(** [sendToIP(tcpseg, src, dest)] leaves the packet length at zero. *)
Definition sendToIP_addr (seg : TCPSegment) (src dest : IPvXAddress) : Eff Ctx unit :=
  sendToIP_raw seg 0 src dest.

(** ** Indications to the application *)
Definition sendToApp (m : AppMessage) : Eff Ctx unit :=
  let! c := conn id in emit (ToApp (appGateIndex c) m).

Definition sendIndicationToApp (code : TcpStatusInd) : Eff Ctx unit :=
  let! c := conn id in sendToApp (Indication code (connId c)).

Definition sendEstabIndicationToApp : Eff Ctx unit :=
  let! c := conn id in
  sendToApp (EstabIndication (connId c) (localAddr c) (remoteAddr c) (localPort c) (remotePort c)).

Definition signalConnectionTimeout : Eff Ctx unit := sendIndicationToApp TCP_I_TIMED_OUT.

(** ** Opening *)
Definition configureStateVariables : Eff Ctx unit :=
  set_var (fun s => s <| snd_mss := u32 par_mss |> <| rcv_wnd := u32 par_advertisedWindow |>).

Definition selectInitialSeqNum : Eff Ctx unit :=
  let! t := gets now in
  let iss0 := Z.land (iss_clock t) 4294967295 in
  set_var (fun s => s <| iss := iss0 |>) ;;;
  set_var (fun s => s <| snd_max := iss0 |> <| snd_nxt := iss0 |> <| snd_una := iss0 |>) ;;;
  on_sendQueue (sq_init (u32 (iss0 + 1))).

Definition isSegmentAcceptable (seg : TCPSegment) (s : TCPStateVariables) : bool :=
  seqGE (sequenceNo seg) (rcv_nxt s) &&
  seqLE (u32 (sequenceNo seg + payloadLength seg)) (u32 (rcv_nxt s + rcv_wnd s)).

Definition sendSyn : Eff Ctx unit :=
  let! c := conn id in
  when (isUnspecified (remoteAddr c) || (remotePort c =? -1))
    (fail (RuntimeError "OPEN_ACTIVE: foreign socket unspecified")) ;;;
  when (localPort c =? -1) (fail (RuntimeError "OPEN_ACTIVE: local port unspecified")) ;;;
  let s := state c in
  let seg := createTCPSegment <| sequenceNo := iss s |> <| synBit := true |>
                              <| window := rcv_wnd s |> in
  set_var (fun s => s <| snd_nxt := u32 (iss s + 1) |> <| snd_max := u32 (iss s + 1) |>) ;;;
  sendToIP seg.

Definition sendSynAck : Eff Ctx unit :=
  let! s := var id in
  let seg := createTCPSegment <| sequenceNo := iss s |> <| ackNo := rcv_nxt s |>
               <| synBit := true |> <| ackBit := true |> <| window := rcv_wnd s |> in
  set_var (fun s => s <| snd_nxt := u32 (iss s + 1) |> <| snd_max := u32 (iss s + 1) |>) ;;;
  sendToIP seg.

(** ** Resets *)
Definition sendRst_addr (seq : Z) (src dest : IPvXAddress) (sport dport : Z) : Eff Ctx unit :=
  sendToIP_addr (createTCPSegment <| srcPort := i16 sport |> <| destPort := i16 dport |>
                   <| rstBit := true |> <| sequenceNo := seq |>) src dest.

Definition sendRst (seqNo : Z) : Eff Ctx unit :=
  let! c := conn id in
  sendRst_addr seqNo (localAddr c) (remoteAddr c) (localPort c) (remotePort c).

Definition sendRstAck (seq ack : Z) (src dest : IPvXAddress) (sport dport : Z) : Eff Ctx unit :=
  sendToIP_addr (createTCPSegment <| srcPort := i16 sport |> <| destPort := i16 dport |>
                   <| rstBit := true |> <| ackBit := true |> <| sequenceNo := seq |>
                   <| ackNo := ack |>) src dest.

(** ** Acknowledgments and FIN *)
Definition ack_segment (s : TCPStateVariables) : TCPSegment :=
  createTCPSegment <| ackBit := true |> <| sequenceNo := snd_nxt s |>
    <| ackNo := rcv_nxt s |> <| window := rcv_wnd s |>.

Definition sendAck : Eff Ctx unit :=
  let! s := var id in
  sendToIP (ack_segment s) ;;;
  ackSent.

Definition sendFin : Eff Ctx unit :=
  let! s := var id in
  sendToIP ((ack_segment s) <| finBit := true |>) ;;;
  ackSent.

(** ** Data

    [bytes] is an [int]; [snd_nxt] advances over the FIN when the segment
    carries it. *)
Definition sendSegment (bytes : Z) : Eff Ctx unit :=
  let! s := var id in
  let! seg := on_sendQueue (sq_createSegmentWithBytes (snd_nxt s) bytes) in
  let seg := seg <| ackNo := rcv_nxt s |> <| ackBit := true |> <| window := rcv_wnd s |> in
  assert_ "bytes==tcpseg->getPayloadLength()" (bytes =? payloadLength seg) ;;;
  let nxt := u32 (snd_nxt s + bytes) in
  set_var (fun s => s <| snd_nxt := nxt |>) ;;;
  if send_fin s && (nxt =? snd_fin_seq s) then
    set_var (fun s => s <| snd_nxt := u32 (snd_fin_seq s + 1) |>) ;;;
    sendToIP (seg <| finBit := true |>)
  else sendToIP seg.

(** [while (bytesToSend>=snd_mss) {sendSegment(snd_mss); bytesToSend -= snd_mss;}] *)
Fixpoint sendFullSegments (fuel : nat) (bytesToSend : Z) : Eff Ctx unit :=
  match fuel with
  | O => fail OutOfFuel
  | S fuel =>
      let! mss := var snd_mss in
      if mss <=? bytesToSend then
        sendSegment (i32 mss) ;;; sendFullSegments fuel (u64 (bytesToSend - mss))
      else ret tt
  end.

(** The fuel allows one round per full segment and the final test. *)
Definition rounds (bytes mss : Z) : nat := S (Z.to_nat (bytes / mss)).

Definition sendData (fullSegmentsOnly : bool) (congestionWindow : Z) : Eff Ctx bool :=
  set_var (fun s => s <| snd_nxt := snd_max s |>) ;;;
  let! s := var id in
  let! q := conn sendQueue in
  let buffered := getBytesAvailable (snd_nxt s) q in
  if buffered =? 0 then ret false else
  let maxWindow :=
    if (0 <=? congestionWindow) && (congestionWindow <? snd_wnd s)
    then congestionWindow else snd_wnd s in
  let effectiveWin := maxWindow - u32 (snd_nxt s - snd_una s) in
  if effectiveWin <=? 0 then ret false else
  let bytesToSend := if buffered <? effectiveWin then buffered else effectiveWin in
  if fullSegmentsOnly && (bytesToSend <? snd_mss s) then ret false else
  let old_snd_nxt := snd_nxt s in
  assert_ "bytesToSend>0" (0 <? bytesToSend) ;;;
  (if bytesToSend <=? snd_mss s then sendSegment (i32 bytesToSend)
   else sendFullSegments (rounds bytesToSend (snd_mss s)) bytesToSend) ;;;
  set_var (fun s => s <| snd_max := snd_nxt s |>) ;;;
  ackSent ;;;
  dataSent old_snd_nxt ;;;
  ret true.

Definition sendProbe : Eff Ctx bool :=
  set_var (fun s => s <| snd_nxt := snd_max s |>) ;;;
  let! s := var id in
  let! q := conn sendQueue in
  if getBytesAvailable (snd_nxt s) q =? 0 then ret false else
  let old_snd_nxt := snd_nxt s in
  sendSegment 1 ;;;
  set_var (fun s => s <| snd_max := snd_nxt s |>) ;;;
  ackSent ;;;
  dataSent old_snd_nxt ;;;
  ret true.

Definition retransmitOneSegment : Eff Ctx unit :=
  set_var (fun s => s <| snd_nxt := snd_una s |>) ;;;
  let! s := var id in
  let bytes := Z.min (snd_mss s) (u32 (snd_max s - snd_nxt s)) in
  assert_ "bytes!=0" (negb (bytes =? 0)) ;;;
  sendSegment (i32 bytes) ;;;
  ackSent.

Fixpoint retransmitLoop (fuel : nat) (bytesToSend : Z) : Eff Ctx unit :=
  match fuel with
  | O => fail OutOfFuel
  | S fuel =>
      if bytesToSend <=? 0 then ret tt else
      let! s := var id in
      let! q := conn sendQueue in
      let bytes := Z.min (Z.min bytesToSend (snd_mss s)) (getBytesAvailable (snd_nxt s) q) in
      sendSegment (i32 bytes) ;;;
      let! s := var id in
      if send_fin s && (snd_nxt s =? u32 (snd_fin_seq s + 1)) then ret tt
      else retransmitLoop fuel (u64 (bytesToSend - bytes))
  end.

(** At most [bytesToSend / snd_mss] full segments, a shorter one, one that only
    carries the FIN, and the final test; see [retransmitData_spec]. *)
Definition retransmitData : Eff Ctx unit :=
  set_var (fun s => s <| snd_nxt := snd_una s |>) ;;;
  let! s := var id in
  let bytesToSend := u32 (snd_max s - snd_nxt s) in
  assert_ "bytesToSend!=0" (negb (bytesToSend =? 0)) ;;;
  retransmitLoop (S (S (rounds bytesToSend (snd_mss s)))) bytesToSend.

End Send.
