(* ===== verification/TcpAlgorithm.v ===== *)
(** * TCP algorithms

    The abstract class [TCPAlgorithm] ([transport/tcp/TCPAlgorithm.h]) is a
    record of operations; [TCPBaseAlg], [TCPTahoeRenoFamily] and the four concrete
    classes [DumbTCP], [TCPNoCongestionControl], [TCPTahoe] and [TCPReno]
    ([transport/tcp/flavours]) are modules that define those operations, a
    subclass calling the superclass's method where the code does.  [algorithm]
    is the virtual dispatch. *)
From S2P Require Import Prelude SeqNum TcpTypes TcpSendQueue TcpRcvQueue TcpConnection TcpSend.

(** An event code passed by reference is an argument and a result. *)
Record TCPAlgorithm : Type := {
  initialize : Eff Ctx unit;
  established : bool -> Eff Ctx unit;
  connectionClosed : Eff Ctx unit;
  processTimer : TimerId -> TCPEventCode -> Eff Ctx TCPEventCode;
  sendCommandInvoked : Eff Ctx unit;
  receivedOutOfOrderSegment : Eff Ctx unit;
  receiveSeqChanged : Eff Ctx unit;
  receivedDataAck : Z -> Eff Ctx unit;
  receivedDuplicateAck : Eff Ctx unit;
  receivedAckForDataNotYetSent : Z -> Eff Ctx unit
}.

Definition ignore {S A} (m : Eff S A) : Eff S unit := let! _x := m in ret tt.

(** ** TCPBaseAlg *)
Module TCPBaseAlg.
Section Def.
Context {E : SimEnv}.

Definition initialize : Eff Ctx unit :=
  set_conn (fun c => c <| rexmitTimer := TimerIdle |> <| persistTimer := TimerIdle |>
                       <| delayedAckTimer := TimerIdle |> <| keepAliveTimer := TimerIdle |>).

Definition sendData : Eff Ctx bool :=
  let! a := algvar id in
  let! s := var id in
  let fullSegmentsOnly := nagle_enabled a && negb (snd_una s =? snd_max s) in
  TcpSend.sendData fullSegmentsOnly (i32 (snd_cwnd a)).

Definition established (active : bool) : Eff Ctx unit :=
  let! mss := var snd_mss in
  set_algvar (fun a => a <| snd_cwnd := mss |>) ;;;
  when active
    (let! sent := sendData in
     when (negb sent) sendAck).

Definition connectionClosed : Eff Ctx unit :=
  cancelEvent Rexmit ;;; cancelEvent Persist ;;; cancelEvent DelayedAck ;;; cancelEvent KeepAlive.

(** The RTO doubles up to [MAX_REXMIT_TIMEOUT]; the running RTT measurement is
    abandoned. *)
Definition processRexmitTimer (event : TCPEventCode) : Eff Ctx TCPEventCode :=
  set_algvar (fun a => a <| rexmit_count := i32 (rexmit_count a + 1) |>) ;;;
  let! n := algvar rexmit_count in
  if MAX_REXMIT_COUNT <? n then signalConnectionTimeout ;;; ret TCP_E_ABORT
  else
    set_algvar (fun a => a <| rexmit_timeout := rexmit_timeout a + rexmit_timeout a |>) ;;;
    let! t := algvar rexmit_timeout in
    when (MAX_REXMIT_TIMEOUT <? t)
      (set_algvar (fun a => a <| rexmit_timeout := MAX_REXMIT_TIMEOUT |>)) ;;;
    let! t := algvar rexmit_timeout in
    scheduleTimeout Rexmit t ;;;
    set_algvar (fun a => a <| rtseq_sendtime := 0 |>) ;;;
    ret event.

Definition processPersistTimer (event : TCPEventCode) : Eff Ctx TCPEventCode :=
  let! _x := sendProbe in ret event.

Definition processDelayedAckTimer (event : TCPEventCode) : Eff Ctx TCPEventCode :=
  sendAck ;;; ret event.

Definition processKeepAliveTimer (event : TCPEventCode) : Eff Ctx TCPEventCode := ret event.

(** [processRexmitTimer] is virtual: subclasses pass their own. *)
Definition processTimer (rexmit : TCPEventCode -> Eff Ctx TCPEventCode)
    (timer : TimerId) (event : TCPEventCode) : Eff Ctx TCPEventCode :=
  match timer with
  | Rexmit => rexmit event
  | Persist => processPersistTimer event
  | DelayedAck => processDelayedAckTimer event
  | KeepAlive => processKeepAliveTimer event
  | _ => fail (RuntimeError "unrecognized timer")
  end.

Definition startRexmitTimer : Eff Ctx unit := BaseAlgHooks.startRexmitTimer.

Definition clamp_rto (rto : Z) : Z :=
  if MAX_REXMIT_TIMEOUT <? rto then MAX_REXMIT_TIMEOUT
  else if rto <? MIN_REXMIT_TIMEOUT then MIN_REXMIT_TIMEOUT else rto.

Definition rttMeasurementComplete (tSent tAcked : Z) : Eff Ctx unit :=
  let newRTT := tAcked - tSent in
  set_algvar (fun a =>
    let err := newRTT - srtt a in
    let srtt' := srtt a + simtime_eighth err in
    let rttvar' := rttvar a + simtime_eighth (Z.abs err - rttvar a) in
    a <| srtt := srtt' |> <| rttvar := rttvar' |>
      <| rexmit_timeout := clamp_rto (srtt' + 4 * rttvar') |>).

Definition sendCommandInvoked : Eff Ctx unit := ignore sendData.
Definition receivedOutOfOrderSegment : Eff Ctx unit := sendAck.

Definition receiveSeqChanged : Eff Ctx unit :=
  let! d := algvar delayed_acks_enabled in
  if negb d then sendAck
  else
    let! b := isScheduled DelayedAck in
    when (negb b) (scheduleTimeout DelayedAck DELAYED_ACK_TIMEOUT).

Definition receivedDataAck (firstSeqAcked : Z) : Eff Ctx unit :=
  let! a := algvar id in
  let! s := var id in
  let! t0 := gets now in
  when (negb (rtseq_sendtime a =? 0) && seqLess (rtseq a) (snd_una s))
    (rttMeasurementComplete (rtseq_sendtime a) t0 ;;;
     set_algvar (fun a => a <| rtseq_sendtime := 0 |>)) ;;;
  if snd_una s =? snd_max s then
    let! b := isScheduled Rexmit in
    when b (cancelEvent Rexmit)
  else cancelEvent Rexmit ;;; startRexmitTimer.

Definition receivedDuplicateAck : Eff Ctx unit := ret tt.
Definition receivedAckForDataNotYetSent (seq : Z) : Eff Ctx unit := sendAck.
End Def.
End TCPBaseAlg.

(** ** DumbTCP *)
Module DumbTCP.
Section Def.
Context {E : SimEnv}.

Definition initialize : Eff Ctx unit := set_conn (fun c => c <| rexmitTimer := TimerIdle |>).

Definition established (active : bool) : Eff Ctx unit :=
  when active (let! sent := TcpSend.sendData false (-1) in when (negb sent) sendAck).

Definition connectionClosed : Eff Ctx unit := cancelEvent Rexmit.

Definition processTimer (timer : TimerId) (event : TCPEventCode) : Eff Ctx TCPEventCode :=
  match timer with
  | Rexmit => retransmitData ;;; scheduleTimeout Rexmit DUMB_REXMIT_TIMEOUT ;;; ret event
  | _ => fail (RuntimeError "unrecognized timer")
  end.

Definition ops : TCPAlgorithm := {|
  TcpAlgorithm.initialize := initialize;
  TcpAlgorithm.established := established;
  TcpAlgorithm.connectionClosed := connectionClosed;
  TcpAlgorithm.processTimer := processTimer;
  TcpAlgorithm.sendCommandInvoked := ignore (TcpSend.sendData false (-1));
  TcpAlgorithm.receivedOutOfOrderSegment := sendAck;
  TcpAlgorithm.receiveSeqChanged := sendAck;
  TcpAlgorithm.receivedDataAck := fun _ => ignore (TcpSend.sendData false (-1));
  TcpAlgorithm.receivedDuplicateAck := ret tt;
  TcpAlgorithm.receivedAckForDataNotYetSent := fun _ => sendAck
|}.
End Def.
End DumbTCP.

(** ** TCPNoCongestionControl *)
Module TCPNoCongestionControl.
Section Def.
Context {E : SimEnv}.

Definition initialize : Eff Ctx unit :=
  TCPBaseAlg.initialize ;;;
  set_algvar (fun a => a <| snd_cwnd := 2147483647 |>).

Definition processRexmitTimer (event : TCPEventCode) : Eff Ctx TCPEventCode :=
  let! event := TCPBaseAlg.processRexmitTimer event in
  if bool_decide (event = TCP_E_ABORT) then ret event
  else retransmitOneSegment ;;; ret event.

Definition receivedDataAck (firstSeqAcked : Z) : Eff Ctx unit :=
  TCPBaseAlg.receivedDataAck firstSeqAcked ;;;
  ignore TCPBaseAlg.sendData.

Definition ops : TCPAlgorithm := {|
  TcpAlgorithm.initialize := initialize;
  TcpAlgorithm.established := TCPBaseAlg.established;
  TcpAlgorithm.connectionClosed := TCPBaseAlg.connectionClosed;
  TcpAlgorithm.processTimer := TCPBaseAlg.processTimer processRexmitTimer;
  TcpAlgorithm.sendCommandInvoked := TCPBaseAlg.sendCommandInvoked;
  TcpAlgorithm.receivedOutOfOrderSegment := TCPBaseAlg.receivedOutOfOrderSegment;
  TcpAlgorithm.receiveSeqChanged := TCPBaseAlg.receiveSeqChanged;
  TcpAlgorithm.receivedDataAck := receivedDataAck;
  TcpAlgorithm.receivedDuplicateAck := TCPBaseAlg.receivedDuplicateAck;
  TcpAlgorithm.receivedAckForDataNotYetSent := TCPBaseAlg.receivedAckForDataNotYetSent
|}.
End Def.
End TCPNoCongestionControl.

(** ** Slow start and congestion avoidance

    The code common to Tahoe and Reno: half the flight size but at least two
    segments; one segment, or one segment per round trip, more for each ACK. *)
Module TCPTahoeRenoFamily.
Section Def.
Context {E : SimEnv}.

Definition recalculateSlowStartThreshold : Eff Ctx unit :=
  let! s := var id in
  set_algvar (fun a =>
    let flight_size := Z.min (snd_cwnd a) (snd_wnd s) in
    a <| ssthresh := Z.max (flight_size / 2) (u32 (2 * snd_mss s)) |>).

Definition increaseCwnd : Eff Ctx unit :=
  let! a := algvar id in
  let! mss := var snd_mss in
  if snd_cwnd a <? ssthresh a then
    set_algvar (fun a => a <| snd_cwnd := u32 (snd_cwnd a + mss) |>)
  else if snd_cwnd a =? 0 then fail (RuntimeError "division by zero")
  else
    let incr := i32 (u32 (mss * mss) / snd_cwnd a) in
    let incr := if incr =? 0 then 1 else incr in
    set_algvar (fun a => a <| snd_cwnd := u32 (snd_cwnd a + incr) |>).
End Def.
End TCPTahoeRenoFamily.

(** ** TCPTahoe *)
Module TCPTahoe.
Section Def.
Context {E : SimEnv}.
Import TCPTahoeRenoFamily.

Definition processRexmitTimer (event : TCPEventCode) : Eff Ctx TCPEventCode :=
  let! event := TCPBaseAlg.processRexmitTimer event in
  if bool_decide (event = TCP_E_ABORT) then ret event
  else
    recalculateSlowStartThreshold ;;;
    let! mss := var snd_mss in
    set_algvar (fun a => a <| snd_cwnd := mss |>) ;;;
    retransmitOneSegment ;;;
    ret event.

Definition receivedDataAck (firstSeqAcked : Z) : Eff Ctx unit :=
  TCPBaseAlg.receivedDataAck firstSeqAcked ;;;
  increaseCwnd ;;;
  ignore TCPBaseAlg.sendData.

Definition receivedDuplicateAck : Eff Ctx unit :=
  TCPBaseAlg.receivedDuplicateAck ;;;
  let! d := var dupacks in
  when (d =? 3)
    (retransmitOneSegment ;;;
     recalculateSlowStartThreshold ;;;
     (let! mss := var snd_mss in
      set_algvar (fun a => a <| snd_cwnd := mss |>)) ;;;
     cancelEvent Rexmit ;;;
     TCPBaseAlg.startRexmitTimer ;;;
     set_algvar (fun a => a <| rtseq_sendtime := 0 |>)).

Definition ops : TCPAlgorithm := {|
  TcpAlgorithm.initialize := TCPBaseAlg.initialize;
  TcpAlgorithm.established := TCPBaseAlg.established;
  TcpAlgorithm.connectionClosed := TCPBaseAlg.connectionClosed;
  TcpAlgorithm.processTimer := TCPBaseAlg.processTimer processRexmitTimer;
  TcpAlgorithm.sendCommandInvoked := TCPBaseAlg.sendCommandInvoked;
  TcpAlgorithm.receivedOutOfOrderSegment := TCPBaseAlg.receivedOutOfOrderSegment;
  TcpAlgorithm.receiveSeqChanged := TCPBaseAlg.receiveSeqChanged;
  TcpAlgorithm.receivedDataAck := receivedDataAck;
  TcpAlgorithm.receivedDuplicateAck := receivedDuplicateAck;
  TcpAlgorithm.receivedAckForDataNotYetSent := TCPBaseAlg.receivedAckForDataNotYetSent
|}.
End Def.
End TCPTahoe.

(** ** TCPReno *)
Module TCPReno.
Section Def.
Context {E : SimEnv}.
Import TCPTahoeRenoFamily.

Definition processRexmitTimer (event : TCPEventCode) : Eff Ctx TCPEventCode :=
  let! event := TCPBaseAlg.processRexmitTimer event in
  if bool_decide (event = TCP_E_ABORT) then ret event
  else
    recalculateSlowStartThreshold ;;;
    let! mss := var snd_mss in
    set_algvar (fun a => a <| snd_cwnd := mss |>) ;;;
    retransmitData ;;;
    ret event.

Definition receivedDataAck (firstSeqAcked : Z) : Eff Ctx unit :=
  TCPBaseAlg.receivedDataAck firstSeqAcked ;;;
  let! d := var dupacks in
  (if 3 <=? d then set_algvar (fun a => a <| snd_cwnd := ssthresh a |>)
   else increaseCwnd) ;;;
  ignore TCPBaseAlg.sendData.

Definition receivedDuplicateAck : Eff Ctx unit :=
  TCPBaseAlg.receivedDuplicateAck ;;;
  let! d := var dupacks in
  let! mss := var snd_mss in
  if d =? 3 then
    retransmitOneSegment ;;;
    recalculateSlowStartThreshold ;;;
    set_algvar (fun a => a <| snd_cwnd := u32 (ssthresh a + 3 * mss) |>) ;;;
    cancelEvent Rexmit ;;;
    TCPBaseAlg.startRexmitTimer ;;;
    set_algvar (fun a => a <| rtseq_sendtime := 0 |>)
  else when (3 <? d)
    (set_algvar (fun a => a <| snd_cwnd := u32 (snd_cwnd a + mss) |>) ;;;
     ignore TCPBaseAlg.sendData).

Definition ops : TCPAlgorithm := {|
  TcpAlgorithm.initialize := TCPBaseAlg.initialize;
  TcpAlgorithm.established := TCPBaseAlg.established;
  TcpAlgorithm.connectionClosed := TCPBaseAlg.connectionClosed;
  TcpAlgorithm.processTimer := TCPBaseAlg.processTimer processRexmitTimer;
  TcpAlgorithm.sendCommandInvoked := TCPBaseAlg.sendCommandInvoked;
  TcpAlgorithm.receivedOutOfOrderSegment := TCPBaseAlg.receivedOutOfOrderSegment;
  TcpAlgorithm.receiveSeqChanged := TCPBaseAlg.receiveSeqChanged;
  TcpAlgorithm.receivedDataAck := receivedDataAck;
  TcpAlgorithm.receivedDuplicateAck := receivedDuplicateAck;
  TcpAlgorithm.receivedAckForDataNotYetSent := TCPBaseAlg.receivedAckForDataNotYetSent
|}.
End Def.
End TCPReno.

(** ** Virtual dispatch *)
Definition algorithm {E : SimEnv} (a : AlgorithmClass) : TCPAlgorithm :=
  match a with
  | DumbTCP_class => DumbTCP.ops
  | TCPNoCongestionControl_class => TCPNoCongestionControl.ops
  | TCPTahoe_class => TCPTahoe.ops
  | TCPReno_class => TCPReno.ops
  end.

(** [tcpAlgorithm->m(..)] *)
Definition alg_call {E : SimEnv} {A} (m : TCPAlgorithm -> Eff Ctx A) : Eff Ctx A :=
  let! a := conn tcpAlgorithm in m (algorithm a).
