(* ===== verification/TcpFsm.v ===== *)
(** * The finite state machine

    [performStateTransition] and [stateEntered] of
    [transport/tcp/TCPConnectionBase.cc]. *)
From S2P Require Import Prelude SeqNum TcpTypes TcpSendQueue TcpRcvQueue TcpConnection TcpSend TcpAlgorithm.

(** The switch over [fsm.getState()] and the event; [active] is
    [state->active]. *)
Definition fsm_next (active : bool) (s : TcpState) (event : TCPEventCode) : TcpState :=
  match s with
  | TCP_S_INIT =>
      match event with
      | TCP_E_OPEN_PASSIVE => TCP_S_LISTEN
      | TCP_E_OPEN_ACTIVE => TCP_S_SYN_SENT
      | _ => s
      end
  | TCP_S_LISTEN =>
      match event with
      | TCP_E_OPEN_ACTIVE => TCP_S_SYN_SENT
      | TCP_E_SEND => TCP_S_SYN_SENT
      | TCP_E_CLOSE => TCP_S_CLOSED
      | TCP_E_ABORT => TCP_S_CLOSED
      | TCP_E_RCV_SYN => TCP_S_SYN_RCVD
      | _ => s
      end
  | TCP_S_SYN_RCVD =>
      match event with
      | TCP_E_CLOSE => TCP_S_FIN_WAIT_1
      | TCP_E_ABORT => TCP_S_CLOSED
      | TCP_E_TIMEOUT_CONN_ESTAB => if active then TCP_S_CLOSED else TCP_S_LISTEN
      | TCP_E_RCV_RST => if active then TCP_S_CLOSED else TCP_S_LISTEN
      | TCP_E_RCV_ACK => TCP_S_ESTABLISHED
      | TCP_E_RCV_FIN => TCP_S_CLOSE_WAIT
      | TCP_E_RCV_UNEXP_SYN => TCP_S_CLOSED
      | _ => s
      end
  | TCP_S_SYN_SENT =>
      match event with
      | TCP_E_CLOSE => TCP_S_CLOSED
      | TCP_E_ABORT => TCP_S_CLOSED
      | TCP_E_TIMEOUT_CONN_ESTAB => TCP_S_CLOSED
      | TCP_E_RCV_RST => TCP_S_CLOSED
      | TCP_E_RCV_SYN_ACK => TCP_S_ESTABLISHED
      | TCP_E_RCV_SYN => TCP_S_SYN_RCVD
      | _ => s
      end
  | TCP_S_ESTABLISHED =>
      match event with
      | TCP_E_CLOSE => TCP_S_FIN_WAIT_1
      | TCP_E_ABORT => TCP_S_CLOSED
      | TCP_E_RCV_FIN => TCP_S_CLOSE_WAIT
      | TCP_E_RCV_RST => TCP_S_CLOSED
      | TCP_E_RCV_UNEXP_SYN => TCP_S_CLOSED
      | _ => s
      end
  | TCP_S_CLOSE_WAIT =>
      match event with
      | TCP_E_CLOSE => TCP_S_LAST_ACK
      | TCP_E_ABORT => TCP_S_CLOSED
      | TCP_E_RCV_RST => TCP_S_CLOSED
      | TCP_E_RCV_UNEXP_SYN => TCP_S_CLOSED
      | _ => s
      end
  | TCP_S_LAST_ACK =>
      match event with
      | TCP_E_ABORT => TCP_S_CLOSED
      | TCP_E_RCV_ACK => TCP_S_CLOSED
      | TCP_E_RCV_RST => TCP_S_CLOSED
      | TCP_E_RCV_UNEXP_SYN => TCP_S_CLOSED
      | _ => s
      end
  | TCP_S_FIN_WAIT_1 =>
      match event with
      | TCP_E_ABORT => TCP_S_CLOSED
      | TCP_E_RCV_FIN => TCP_S_CLOSING
      | TCP_E_RCV_ACK => TCP_S_FIN_WAIT_2
      | TCP_E_RCV_FIN_ACK => TCP_S_TIME_WAIT
      | TCP_E_RCV_RST => TCP_S_CLOSED
      | TCP_E_RCV_UNEXP_SYN => TCP_S_CLOSED
      | _ => s
      end
  | TCP_S_FIN_WAIT_2 =>
      match event with
      | TCP_E_ABORT => TCP_S_CLOSED
      | TCP_E_RCV_FIN => TCP_S_TIME_WAIT
      | TCP_E_TIMEOUT_FIN_WAIT_2 => TCP_S_CLOSED
      | TCP_E_RCV_RST => TCP_S_CLOSED
      | TCP_E_RCV_UNEXP_SYN => TCP_S_CLOSED
      | _ => s
      end
  | TCP_S_CLOSING =>
      match event with
      | TCP_E_ABORT => TCP_S_CLOSED
      | TCP_E_RCV_ACK => TCP_S_TIME_WAIT
      | TCP_E_RCV_RST => TCP_S_CLOSED
      | TCP_E_RCV_UNEXP_SYN => TCP_S_CLOSED
      | _ => s
      end
  | TCP_S_TIME_WAIT =>
      match event with
      | TCP_E_ABORT => TCP_S_CLOSED
      | TCP_E_TIMEOUT_2MSL => TCP_S_CLOSED
      | TCP_E_RCV_RST => TCP_S_CLOSED
      | TCP_E_RCV_UNEXP_SYN => TCP_S_CLOSED
      | _ => s
      end
  | TCP_S_CLOSED => s
  end.

Section Fsm.
Context {E : SimEnv}.

Definition stateEntered (s : TcpState) : Eff Ctx unit :=
  match s with
  | TCP_S_INIT | TCP_S_SYN_RCVD | TCP_S_SYN_SENT => ret tt
  | TCP_S_LISTEN =>
      let! c := conn id in
      assert_ "connEstabTimer && synRexmitTimer"
        (match connEstabTimer c, synRexmitTimer c with
         | TimerNull, _ | _, TimerNull => false
         | _, _ => true
         end) ;;;
      cancelEvent ConnEstab ;;;
      cancelEvent SynRexmit
  | TCP_S_ESTABLISHED => deleteTimer ConnEstab ;;; deleteTimer SynRexmit
  | TCP_S_CLOSE_WAIT | TCP_S_LAST_ACK | TCP_S_FIN_WAIT_1 | TCP_S_FIN_WAIT_2
  | TCP_S_CLOSING | TCP_S_TIME_WAIT =>
      cancelIfExists ConnEstab ;;; cancelIfExists SynRexmit
  | TCP_S_CLOSED =>
      cancelIfExists The2MSL ;;; cancelIfExists ConnEstab ;;;
      cancelIfExists FinWait2 ;;; cancelIfExists SynRexmit ;;;
      alg_call connectionClosed
  end.

(** The result says whether the connection stays alive. *)
Definition performStateTransition (event : TCPEventCode) : Eff Ctx bool :=
  let! oldState := conn fsm in
  assert_ "fsm.getState()!=TCP_S_CLOSED" (negb (state_eqb oldState TCP_S_CLOSED)) ;;;
  if bool_decide (event = TCP_E_IGNORE) then ret true else
  let! a := var active in
  let newState := fsm_next a oldState event in
  set_conn (fun c => c <| fsm := newState |>) ;;;
  when (negb (state_eqb oldState newState)) (stateEntered newState) ;;;
  ret (negb (state_eqb newState TCP_S_CLOSED)).
End Fsm.
