(* ===== verification/TcpReceive.v ===== *)
(** * Segment arrival

    [transport/tcp/TCPConnectionRcvSegment.cc], organised as in the source along
    RFC 793, "SEGMENT ARRIVES".  The steps of [processSegment1stThru8th] are
    separate definitions; a step that may [return] from the function yields
    [Some event], and [None] to continue. *)
From S2P Require Import Prelude SeqNum TcpTypes TcpSendQueue TcpRcvQueue TcpConnection TcpSockets TcpSend TcpAlgorithm TcpFsm.

(** [m ;;? k]: return what step [m] returns, or go on with [k]. *)
Definition or_return {S A} (m : Eff S (option A)) (k : Eff S A) : Eff S A :=
  let! r := m in match r with Some a => ret a | None => k end.
Notation "m ;;? k" := (or_return m k)
  (at level 199, right associativity, format "'[v' m  ;;? '/' k ']'") : eff_scope.

Section Receive.
Context {E : SimEnv}.

(** ** Closed connections *)

(** The temporary object of [TCP::segmentArrivalWhileClosed] only serves to send
    the reset. *)
Definition segmentArrivalWhileClosed (seg : TCPSegment) (srcAddr destAddr : IPvXAddress)
    : Eff Ctx unit :=
  if rstBit seg then ret tt
  else if negb (ackBit seg) then
    sendRstAck 0 (u32 (sequenceNo seg + u32 (payloadLength seg))) destAddr srcAddr
      (destPort seg) (srcPort seg)
  else sendRst_addr (ackNo seg) destAddr srcAddr (destPort seg) (srcPort seg).

(** ** Acknowledgments in the data transfer states *)

(** [snd_una] moves up to the ACK, [snd_nxt] never stays behind it; the FIN's
    sequence number is not in the send queue. *)
Definition ackInWindow (seg : TCPSegment) : Eff Ctx unit :=
  let! old_snd_una := var snd_una in
  set_var (fun s => s <| snd_una := ackNo seg |>) ;;;
  set_var (fun s => if seqLess (snd_nxt s) (snd_una s) then s <| snd_nxt := snd_una s |> else s) ;;;
  let! s := var id in
  let finAcked := send_fin s && (ackNo seg =? u32 (snd_fin_seq s + 1)) in
  when finAcked (set_var (fun s => s <| fin_ack_rcvd := true |>)) ;;;
  let discardUpToSeq := if finAcked then u32 (snd_una s - 1) else snd_una s in
  on_sendQueue (sq_discardUpTo discardUpToSeq) ;;;
  when (seqLess (snd_wl1 s) (sequenceNo seg) ||
        ((snd_wl1 s =? sequenceNo seg) && seqLE (snd_wl2 s) (ackNo seg)))
    (set_var (fun s => s <| snd_wnd := u32 (window seg) |> <| snd_wl1 := sequenceNo seg |>
                         <| snd_wl2 := ackNo seg |>)) ;;;
  alg_call (fun a => receivedDataAck a old_snd_una) ;;;
  set_var (fun s => s <| dupacks := 0 |>).

Definition processAckInEstabEtc (seg : TCPSegment) : Eff Ctx bool :=
  let! s := var id in
  if seqGE (snd_una s) (ackNo seg) then
    if (snd_una s =? ackNo seg) && (payloadLength seg =? 0) && negb (snd_una s =? snd_max s) then
      set_var (fun s => s <| dupacks := i16 (dupacks s + 1) |>) ;;;
      alg_call receivedDuplicateAck ;;;
      ret true
    else set_var (fun s => s <| dupacks := 0 |>) ;;; ret true
  else if seqLE (ackNo seg) (snd_max s) then
    ackInWindow seg ;;; ret true
  else
    assert_ "seqGreater(ackNo, snd_max)" (seqGreater (ackNo seg) (snd_max s)) ;;;
    alg_call (fun a => receivedAckForDataNotYetSent a (ackNo seg)) ;;;
    set_var (fun s => s <| dupacks := 0 |>) ;;;
    ret false.

(** ** The steps of [processSegment1stThru8th] *)
Definition checkSequenceNumber (seg : TCPSegment) : Eff Ctx (option TCPEventCode) :=
  let! s := var id in
  if isSegmentAcceptable seg s then ret None
  else when (negb (rstBit seg)) sendAck ;;; ret (Some TCP_E_IGNORE).

Definition processRstInSynReceived (seg : TCPSegment) : Eff Ctx TCPEventCode :=
  let! q := conn sendQueue in
  on_sendQueue (sq_discardUpTo (sq_getBufferEndSeq q)) ;;;
  let! a := var active in
  when a (sendIndicationToApp TCP_I_CONNECTION_REFUSED) ;;;
  ret TCP_E_RCV_RST.

Definition checkRst (seg : TCPSegment) : Eff Ctx (option TCPEventCode) :=
  if negb (rstBit seg) then ret None else
  let! st := conn fsm in
  match st with
  | TCP_S_SYN_RCVD => let! e := processRstInSynReceived seg in ret (Some e)
  | TCP_S_ESTABLISHED | TCP_S_FIN_WAIT_1 | TCP_S_FIN_WAIT_2 | TCP_S_CLOSE_WAIT =>
      sendIndicationToApp TCP_I_CONNECTION_RESET ;;; ret (Some TCP_E_RCV_RST)
  | TCP_S_CLOSING | TCP_S_LAST_ACK =>
      sendIndicationToApp TCP_I_CLOSED ;;; ret (Some TCP_E_RCV_RST)
  | TCP_S_TIME_WAIT => ret (Some TCP_E_RCV_RST)
  | _ => fail (AssertionFailed "0")
  end.

Definition checkSyn (seg : TCPSegment) : Eff Ctx (option TCPEventCode) :=
  if negb (synBit seg) then ret None else
  let! s := var id in
  assert_ "isSegmentAcceptable(tcpseg)" (isSegmentAcceptable seg s) ;;;
  sendIndicationToApp TCP_I_CONNECTION_RESET ;;;
  ret (Some TCP_E_RCV_UNEXP_SYN).

Definition checkAckBit (seg : TCPSegment) : Eff Ctx (option TCPEventCode) :=
  ret (if ackBit seg then None else Some TCP_E_IGNORE).

(** Fifth step, SYN_RCVD: the ACK of our SYN establishes the connection. *)
Definition ackInSynRcvd (seg : TCPSegment) : Eff Ctx (option TCPEventCode) :=
  let! s := var id in
  if negb (seqLE (snd_una s) (ackNo seg)) || negb (seqLE (ackNo seg) (snd_nxt s)) then
    sendRst (ackNo seg) ;;; ret (Some TCP_E_IGNORE)
  else
    alg_call (fun a => established a false) ;;;
    sendEstabIndicationToApp ;;;
    ret None.

Definition in_states (l : list TcpState) (s : TcpState) : bool := existsb (state_eqb s) l.

Definition ack_states : list TcpState :=
  [TCP_S_SYN_RCVD; TCP_S_ESTABLISHED; TCP_S_FIN_WAIT_1; TCP_S_FIN_WAIT_2;
   TCP_S_CLOSE_WAIT; TCP_S_CLOSING].

Definition text_states : list TcpState :=
  [TCP_S_SYN_RCVD; TCP_S_ESTABLISHED; TCP_S_FIN_WAIT_1; TCP_S_FIN_WAIT_2].

(** Fifth step, closing states: the event so far is [event]; [inl] returns. *)
Definition ackInClosingStates (seg : TCPSegment) (event : TCPEventCode)
    : Eff Ctx (TCPEventCode + TCPEventCode) :=
  let! st := conn fsm in
  let! s := var id in
  match st with
  | TCP_S_FIN_WAIT_1 => ret (inr (if fin_ack_rcvd s then TCP_E_RCV_ACK else event))
  | TCP_S_CLOSING =>
      if fin_ack_rcvd s then
        scheduleTimeout The2MSL TCP_TIMEOUT_2MSL ;;;
        sendIndicationToApp TCP_I_CLOSED ;;;
        ret (inr TCP_E_RCV_ACK)
      else ret (inr event)
  | TCP_S_LAST_ACK =>
      if send_fin s && (ackNo seg =? u32 (snd_fin_seq s + 1)) then
        sendIndicationToApp TCP_I_CLOSED ;;; ret (inl TCP_E_RCV_ACK)
      else ret (inr event)
  | TCP_S_TIME_WAIT =>
      sendAck ;;; cancelEvent The2MSL ;;; scheduleTimeout The2MSL TCP_TIMEOUT_2MSL ;;;
      ret (inr event)
  | _ => ret (inr event)
  end.

(** Seventh step: the text goes into the receive queue; everything that became
    contiguous is passed up, in order. *)
Fixpoint sendAllToApp (msgs : list cPacket) : Eff Ctx unit :=
  match msgs with
  | [] => ret tt
  | m :: rest =>
      let! id := conn connId in
      sendToApp (DataIndication id m) ;;; sendAllToApp rest
  end.

Definition processText (seg : TCPSegment) : Eff Ctx unit :=
  let! old_rcv_nxt := var rcv_nxt in
  let! n := on_receiveQueue (rq_insertBytesFromSegment seg) in
  set_var (fun s => s <| rcv_nxt := n |>) ;;;
  if old_rcv_nxt =? n then alg_call receivedOutOfOrderSegment
  else
    let! msgs := on_receiveQueue (extract_all n) in
    sendAllToApp msgs ;;;
    let! s := var id in
    when (fin_rcvd s && (rcv_nxt s =? rcv_fin_seq s))
      (set_var (fun s => s <| rcv_nxt := u32 (rcv_fin_seq s + 1) |>) ;;;
       sendIndicationToApp TCP_I_PEER_CLOSED).

Definition textStep (seg : TCPSegment) : Eff Ctx unit :=
  let! st := conn fsm in
  when (in_states text_states st && (0 <? payloadLength seg)) (processText seg).

(** Eighth step *)
Definition finTimers : Eff Ctx TCPEventCode :=
  let! st := conn fsm in
  match st with
  | TCP_S_FIN_WAIT_1 =>
      let! acked := var fin_ack_rcvd in
      if acked then
        cancelEvent FinWait2 ;;;
        scheduleTimeout The2MSL TCP_TIMEOUT_2MSL ;;;
        sendIndicationToApp TCP_I_CLOSED ;;;
        ret TCP_E_RCV_FIN_ACK
      else ret TCP_E_RCV_FIN
  | TCP_S_FIN_WAIT_2 =>
      cancelEvent FinWait2 ;;;
      scheduleTimeout The2MSL TCP_TIMEOUT_2MSL ;;;
      sendIndicationToApp TCP_I_CLOSED ;;;
      ret TCP_E_RCV_FIN
  | TCP_S_TIME_WAIT =>
      cancelEvent The2MSL ;;;
      scheduleTimeout The2MSL TCP_TIMEOUT_2MSL ;;;
      ret TCP_E_RCV_FIN
  | _ => ret TCP_E_RCV_FIN
  end.

Definition checkFin (seg : TCPSegment) (event : TCPEventCode) : Eff Ctx TCPEventCode :=
  if negb (finBit seg) then ret event else
  let fin_seq := u32 (sequenceNo seg + u32 (payloadLength seg)) in
  let! nxt := var rcv_nxt in
  (if nxt =? fin_seq then
     set_var (fun s => s <| rcv_nxt := u32 (rcv_nxt s + 1) |>) ;;;
     sendIndicationToApp TCP_I_PEER_CLOSED
   else set_var (fun s => s <| fin_rcvd := true |> <| rcv_fin_seq := fin_seq |>)) ;;;
  finTimers.

(** A CLOSE that was deferred until all data and the FIN were sent. *)
Definition deferredClose (old_snd_nxt : Z) (event : TCPEventCode) : Eff Ctx TCPEventCode :=
  let! st := conn fsm in
  let! s := var id in
  let finSent := send_fin s && (snd_nxt s =? u32 (snd_fin_seq s + 1)) in
  ret (match st with
       | TCP_S_ESTABLISHED | TCP_S_SYN_RCVD => if finSent then TCP_E_CLOSE else event
       | TCP_S_CLOSE_WAIT =>
           if finSent && negb (old_snd_nxt =? snd_nxt s) then TCP_E_CLOSE else event
       | _ => event
       end).

Definition sixthToEighth (seg : TCPSegment) (old_snd_nxt : Z) (event : TCPEventCode)
    : Eff Ctx TCPEventCode :=
  let! old_rcv_nxt := var rcv_nxt in
  textStep seg ;;;
  let! event := checkFin seg event in
  let! nxt := var rcv_nxt in
  when (negb (old_rcv_nxt =? nxt)) (alg_call receiveSeqChanged) ;;;
  deferredClose old_snd_nxt event.

Definition fifthToEighth (seg : TCPSegment) (event : TCPEventCode) : Eff Ctx TCPEventCode :=
  let! old_snd_nxt := var snd_nxt in
  let! st := conn fsm in
  let! ok := if in_states ack_states st then processAckInEstabEtc seg else ret true in
  if negb ok then ret TCP_E_IGNORE else
  let! r := ackInClosingStates seg event in
  match r with
  | inl e => ret e
  | inr event => sixthToEighth seg old_snd_nxt event
  end.

Definition processSegment1stThru8th (seg : TCPSegment) : Eff Ctx TCPEventCode :=
  checkSequenceNumber seg ;;?
  checkRst seg ;;?
  checkSyn seg ;;?
  checkAckBit seg ;;?
  let! st := conn fsm in
  if state_eqb st TCP_S_SYN_RCVD then ackInSynRcvd seg ;;? fifthToEighth seg TCP_E_RCV_ACK
  else fifthToEighth seg TCP_E_IGNORE.

(** ** LISTEN *)
Definition startSynRexmitTimer : Eff Ctx unit :=
  set_var (fun s => s <| syn_rexmit_count := 0 |> <| syn_rexmit_timeout := TCP_TIMEOUT_SYN_REXMIT |>) ;;;
  let! b := isScheduled SynRexmit in
  when b (cancelEvent SynRexmit) ;;;
  let! t := var syn_rexmit_timeout in
  scheduleTimeout SynRexmit t.

(** Runs a method of another connection object. *)
Definition with_conn (c : TCPConnection) (m : Eff Ctx unit) : Eff Ctx TCPConnection :=
  fun x => match m (x <| self := c |>) with
           | Ok _ x' => Ok (self x') (x' <| self := self x |>)
           | Err e => Err e
           end.

(** [configureStateVariables()] configures [this], not the clone, as in the
    code; the clone does it when it forks in turn. *)
Definition cloneListeningConnection : Eff Ctx TCPConnection :=
  let! c := conn id in
  let newc := (TCPConnection_new (appGateIndex c) (connId c))
    <| sendQueue := createSendQueue (sendQueue_className (sendQueue c)) |>
    <| receiveQueue := createReceiveQueue (receiveQueue_className (receiveQueue c)) |>
    <| tcpAlgorithm := tcpAlgorithm c |> in
  configureStateVariables ;;;
  let! newc := with_conn newc (alg_call initialize) in
  ret (newc <| state := (state newc) <| active := false |> <| fork := true |> |>
            <| localAddr := localAddr c |> <| localPort := localPort c |>
            <| fsm := TCP_S_LISTEN |>).

(** [new TCPConnection], then [addForkedConnection(this, conn, ..)]. *)
Definition forkConnection (la ra : IPvXAddress) (lp rp : Z) : Eff Ctx unit :=
  let! newc := cloneListeningConnection in
  let! x := gets id in
  let newp := nextPtr (tcp x) in
  modify (fun x => x <| tcp := (tcp x) <| nextPtr := Pos.succ newp |> |>) ;;;
  let! r := on_tcp (addForkedConnection (this x) (self x) newp newc la ra lp rp) in
  set_conn (fun _ => r.1) ;;;
  modify (fun x => x <| tcp := (tcp x) <| heap := <[newp := r.2]> (heap (tcp x)) |> |>).

Definition updateMySockPair (la ra : IPvXAddress) (lp rp : Z) : Eff Ctx unit :=
  let! x := gets id in
  let! c := on_tcp (updateSockPair (this x) (self x) la ra lp rp) in
  set_conn (fun _ => c).

Definition processSegmentInListen (seg : TCPSegment) (srcAddr destAddr : IPvXAddress)
    : Eff Ctx TCPEventCode :=
  if rstBit seg then ret TCP_E_IGNORE
  else if ackBit seg then
    sendRst_addr (ackNo seg) destAddr srcAddr (destPort seg) (srcPort seg) ;;;
    ret TCP_E_IGNORE
  else if synBit seg then
    let! f := var fork in
    (if f then forkConnection destAddr srcAddr (destPort seg) (srcPort seg)
     else updateMySockPair destAddr srcAddr (destPort seg) (srcPort seg)) ;;;
    set_var (fun s => s <| rcv_nxt := u32 (sequenceNo seg + 1) |> <| irs := sequenceNo seg |>) ;;;
    on_receiveQueue (rq_init (u32 (sequenceNo seg + 1))) ;;;
    selectInitialSeqNum ;;;
    set_var (fun s => s <| snd_wnd := u32 (window seg) |> <| snd_wl1 := sequenceNo seg |>
                        <| snd_wl2 := iss s |>) ;;;
    sendSynAck ;;;
    startSynRexmitTimer ;;;
    (let! b := isScheduled ConnEstab in
     when (negb b) (scheduleTimeout ConnEstab TCP_TIMEOUT_CONN_ESTAB)) ;;;
    when (0 <? payloadLength seg) (ignore (on_receiveQueue (rq_insertBytesFromSegment seg))) ;;;
    ret TCP_E_RCV_SYN
  else ret TCP_E_IGNORE.

(** ** SYN_SENT *)
Definition checkAckInSynSent (seg : TCPSegment) (srcAddr destAddr : IPvXAddress)
    : Eff Ctx (option TCPEventCode) :=
  let! s := var id in
  if ackBit seg && (seqLE (ackNo seg) (iss s) || seqGreater (ackNo seg) (snd_nxt s)) then
    sendRst_addr (ackNo seg) destAddr srcAddr (destPort seg) (srcPort seg) ;;;
    ret (Some TCP_E_IGNORE)
  else ret None.

Definition checkRstInSynSent (seg : TCPSegment) : Eff Ctx (option TCPEventCode) :=
  if negb (rstBit seg) then ret None
  else if ackBit seg then
    sendIndicationToApp TCP_I_CONNECTION_RESET ;;; ret (Some TCP_E_RCV_RST)
  else ret (Some TCP_E_IGNORE).

Definition synInSynSent (seg : TCPSegment) (srcAddr destAddr : IPvXAddress) : Eff Ctx TCPEventCode :=
  set_var (fun s => s <| rcv_nxt := u32 (sequenceNo seg + 1) |> <| irs := sequenceNo seg |>) ;;;
  on_receiveQueue (rq_init (u32 (sequenceNo seg + 1))) ;;;
  when (ackBit seg)
    (set_var (fun s => s <| snd_una := ackNo seg |>) ;;;
     on_sendQueue (sq_discardUpTo (ackNo seg)) ;;;
     set_var (fun s => s <| snd_wnd := u32 (window seg) |> <| snd_wl1 := sequenceNo seg |>
                         <| snd_wl2 := ackNo seg |>)) ;;;
  updateMySockPair destAddr srcAddr (destPort seg) (srcPort seg) ;;;
  let! s := var id in
  if seqGreater (snd_una s) (iss s) then
    when (0 <? payloadLength seg)
      (let! n := on_receiveQueue (rq_insertBytesFromSegment seg) in
       set_var (fun s => s <| rcv_nxt := n |>)) ;;;
    alg_call (fun a => established a true) ;;;
    sendEstabIndicationToApp ;;;
    ret TCP_E_RCV_SYN_ACK
  else
    set_var (fun s => s <| snd_nxt := iss s |> <| snd_max := iss s |>) ;;;
    sendSynAck ;;;
    startSynRexmitTimer ;;;
    when (0 <? payloadLength seg) (ignore (on_receiveQueue (rq_insertBytesFromSegment seg))) ;;;
    ret TCP_E_RCV_SYN.

Definition processSegmentInSynSent (seg : TCPSegment) (srcAddr destAddr : IPvXAddress)
    : Eff Ctx TCPEventCode :=
  checkAckInSynSent seg srcAddr destAddr ;;?
  checkRstInSynSent seg ;;?
  if synBit seg then synInSynSent seg srcAddr destAddr else ret TCP_E_IGNORE.

(** ** Any state *)
Definition process_RCV_SEGMENT (seg : TCPSegment) (srcAddr destAddr : IPvXAddress)
    : Eff Ctx TCPEventCode :=
  let! st := conn fsm in
  match st with
  | TCP_S_LISTEN => processSegmentInListen seg srcAddr destAddr
  | TCP_S_SYN_SENT => processSegmentInSynSent seg srcAddr destAddr
  | _ => processSegment1stThru8th seg
  end.

(** ** Timers of the connection *)
Definition process_TIMEOUT_CONN_ESTAB : Eff Ctx unit :=
  let! st := conn fsm in
  match st with
  | TCP_S_SYN_RCVD | TCP_S_SYN_SENT =>
      let! a := var active in
      when a (sendIndicationToApp TCP_I_TIMED_OUT)
  | _ => fail (RuntimeError "received CONN_ESTAB timeout in wrong state")
  end.

Definition process_TIMEOUT_2MSL : Eff Ctx unit :=
  let! st := conn fsm in
  match st with
  | TCP_S_TIME_WAIT => ret tt
  | _ => fail (RuntimeError "received time-wait (2MSL) timeout in wrong state")
  end.

Definition process_TIMEOUT_FIN_WAIT_2 : Eff Ctx unit :=
  let! st := conn fsm in
  match st with
  | TCP_S_FIN_WAIT_2 => sendIndicationToApp TCP_I_CLOSED
  | _ => fail (RuntimeError "received FIN_WAIT_2 timeout in wrong state")
  end.

Definition process_TIMEOUT_SYN_REXMIT (event : TCPEventCode) : Eff Ctx TCPEventCode :=
  set_var (fun s => s <| syn_rexmit_count := i32 (syn_rexmit_count s + 1) |>) ;;;
  let! n := var syn_rexmit_count in
  if MAX_SYN_REXMIT_COUNT <? n then ret TCP_E_ABORT
  else
    let! st := conn fsm in
    (match st with
     | TCP_S_SYN_SENT => sendSyn
     | TCP_S_SYN_RCVD => sendSynAck
     | _ => fail (RuntimeError "SYN-REXMIT timer expired in wrong state")
     end) ;;;
    set_var (fun s => s <| syn_rexmit_timeout :=
      Z.min (syn_rexmit_timeout s * 2) TCP_TIMEOUT_SYN_REXMIT_MAX |>) ;;;
    let! t := var syn_rexmit_timeout in
    scheduleTimeout SynRexmit t ;;;
    ret event.

(** [processTimer]: the timer that fired is no longer scheduled. *)
Definition processTimer (timer : TimerId) : Eff Ctx bool :=
  set_conn (set_timer timer TimerIdle) ;;;
  let! event :=
    match timer with
    | The2MSL => process_TIMEOUT_2MSL ;;; ret TCP_E_TIMEOUT_2MSL
    | ConnEstab => process_TIMEOUT_CONN_ESTAB ;;; ret TCP_E_TIMEOUT_CONN_ESTAB
    | FinWait2 => process_TIMEOUT_FIN_WAIT_2 ;;; ret TCP_E_TIMEOUT_FIN_WAIT_2
    | SynRexmit => process_TIMEOUT_SYN_REXMIT TCP_E_IGNORE
    | _ => alg_call (fun a => TcpAlgorithm.processTimer a timer TCP_E_IGNORE)
    end in
  performStateTransition event.

Definition processTCPSegment (seg : TCPSegment) (srcAddr destAddr : IPvXAddress) : Eff Ctx bool :=
  let! c := conn id in
  when (negb (isUnspecified (localAddr c)))
    (assert_ "localAddr==segDestAddr" (addr_equals (localAddr c) destAddr) ;;;
     assert_ "localPort==tcpseg->getDestPort()" (localPort c =? destPort seg)) ;;;
  when (negb (isUnspecified (remoteAddr c)))
    (assert_ "remoteAddr==segSrcAddr" (addr_equals (remoteAddr c) srcAddr) ;;;
     assert_ "remotePort==tcpseg->getSrcPort()" (remotePort c =? srcPort seg)) ;;;
  let! event := process_RCV_SEGMENT seg srcAddr destAddr in
  performStateTransition event.

End Receive.
