(* ===== verification/TcpMain.v ===== *)
(** * Application commands and message dispatch

    [transport/tcp/TCPConnectionEventProc.cc], [initConnection] of
    [TCPConnectionUtil.cc], [processAppCommand] of [TCPConnectionBase.cc] and
    [handleMessage] of [transport/tcp/TCP.cc]. *)
From S2P Require Import Prelude SeqNum TcpTypes TcpSendQueue TcpRcvQueue TcpConnection TcpSockets TcpSend TcpAlgorithm TcpFsm TcpReceive.

Section Main.
Context {E : SimEnv}.

(** ** Opening a connection *)
Definition initConnection (openCmd : TCPOpenCommand) : Eff Ctx unit :=
  set_conn (fun c => c
    <| sendQueue := createSendQueue (default par_sendQueueClass (open_sendQueueClass openCmd)) |>
    <| receiveQueue := createReceiveQueue
         (default par_receiveQueueClass (open_receiveQueueClass openCmd)) |>
    <| tcpAlgorithm := default par_tcpAlgorithmClass (open_tcpAlgorithmClass openCmd) |>
    <| state := TCPStateVariables_new |> <| alg := AlgStateVariables_new |>) ;;;
  configureStateVariables ;;;
  alg_call initialize.

Definition addMySockPair (la ra : IPvXAddress) (lp rp : Z) : Eff Ctx unit :=
  let! x := gets id in
  let! c := on_tcp (addSockPair (this x) (self x) la ra lp rp) in
  set_conn (fun _ => c).

Definition process_OPEN_ACTIVE (openCmd : TCPOpenCommand) : Eff Ctx unit :=
  let! st := conn fsm in
  match st with
  | TCP_S_INIT =>
      initConnection openCmd ;;;
      set_var (fun s => s <| active := true |>) ;;;
      let ra := open_remoteAddr openCmd in
      let rp := i16 (open_remotePort openCmd) in
      when (isUnspecified ra || (rp =? -1))
        (fail (RuntimeError "OPEN_ACTIVE: remote address and port must be specified")) ;;;
      let! lp := (if i16 (open_localPort openCmd) =? -1 then on_tcp getEphemeralPort
                  else ret (i16 (open_localPort openCmd))) in
      addMySockPair (open_localAddr openCmd) ra lp rp ;;;
      selectInitialSeqNum ;;;
      sendSyn ;;;
      startSynRexmitTimer ;;;
      scheduleTimeout ConnEstab TCP_TIMEOUT_CONN_ESTAB
  | _ => fail (RuntimeError "OPEN_ACTIVE: connection already exists")
  end.

Definition process_OPEN_PASSIVE (openCmd : TCPOpenCommand) : Eff Ctx unit :=
  let! st := conn fsm in
  match st with
  | TCP_S_INIT =>
      initConnection openCmd ;;;
      set_var (fun s => s <| active := false |> <| fork := open_fork openCmd |>) ;;;
      let lp := i16 (open_localPort openCmd) in
      when (lp =? -1) (fail (RuntimeError "OPEN_PASSIVE: local port must be specified")) ;;;
      addMySockPair (open_localAddr openCmd) unspecified lp (-1)
  | _ => fail (RuntimeError "OPEN_PASSIVE: connection already exists")
  end.

(** ** The other commands *)
Definition process_SEND (msg : cPacket) : Eff Ctx unit :=
  let! st := conn fsm in
  match st with
  | TCP_S_INIT => fail (RuntimeError "SEND: connection not open")
  | TCP_S_LISTEN =>
      set_var (fun s => s <| active := true |>) ;;;
      selectInitialSeqNum ;;;
      sendSyn ;;;
      startSynRexmitTimer ;;;
      scheduleTimeout ConnEstab TCP_TIMEOUT_CONN_ESTAB ;;;
      on_sendQueue (sq_enqueueAppData msg)
  | TCP_S_SYN_RCVD | TCP_S_SYN_SENT => on_sendQueue (sq_enqueueAppData msg)
  | TCP_S_ESTABLISHED | TCP_S_CLOSE_WAIT =>
      on_sendQueue (sq_enqueueAppData msg) ;;;
      alg_call sendCommandInvoked
  | TCP_S_LAST_ACK | TCP_S_FIN_WAIT_1 | TCP_S_FIN_WAIT_2 | TCP_S_CLOSING | TCP_S_TIME_WAIT =>
      fail (RuntimeError "SEND: connection closing")
  | TCP_S_CLOSED => ret tt
  end.

(** The FIN is sent at once when nothing is waiting in the send queue, and
    deferred otherwise. *)
Definition process_CLOSE (event : TCPEventCode) : Eff Ctx TCPEventCode :=
  let! st := conn fsm in
  match st with
  | TCP_S_INIT => fail (RuntimeError "CLOSE: connection not open")
  | TCP_S_LISTEN | TCP_S_SYN_SENT | TCP_S_CLOSED => ret event
  | TCP_S_SYN_RCVD | TCP_S_ESTABLISHED | TCP_S_CLOSE_WAIT =>
      let! s := var id in
      let! q := conn sendQueue in
      let! event :=
        (if snd_max s =? sq_getBufferEndSeq q then
           set_var (fun s => s <| snd_nxt := snd_max s |>) ;;;
           sendFin ;;;
           set_var (fun s => s <| snd_nxt := u32 (snd_nxt s + 1) |>
                               <| snd_max := u32 (snd_nxt s + 1) |>) ;;;
           ret event
         else ret TCP_E_IGNORE) in
      set_var (fun s => s <| send_fin := true |> <| snd_fin_seq := sq_getBufferEndSeq q |>) ;;;
      ret event
  | _ => fail (RuntimeError "Duplicate CLOSE command: connection already closing")
  end.

Definition process_ABORT : Eff Ctx unit :=
  let! st := conn fsm in
  match st with
  | TCP_S_INIT => fail (RuntimeError "ABORT: connection not open")
  | TCP_S_SYN_RCVD | TCP_S_ESTABLISHED | TCP_S_FIN_WAIT_1 | TCP_S_FIN_WAIT_2
  | TCP_S_CLOSE_WAIT => let! n := var snd_nxt in sendRst n
  | _ => ret tt
  end.

Definition process_STATUS : Eff Ctx unit :=
  let! c := conn id in
  match fsm c with
  | TCP_S_INIT => fail (RuntimeError "STATUS: connection not open")
  | _ =>
      sendToApp (StatusIndication
        {| status_state := fsm c; status_localAddr := localAddr c;
           status_remoteAddr := remoteAddr c; status_localPort := localPort c;
           status_remotePort := remotePort c; status_vars := state c |})
  end.

Definition processAppCommand (cmd : AppCommand) : Eff Ctx bool :=
  let! event :=
    match cmd with
    | TCP_C_OPEN_ACTIVE openCmd => process_OPEN_ACTIVE openCmd ;;; ret TCP_E_OPEN_ACTIVE
    | TCP_C_OPEN_PASSIVE openCmd => process_OPEN_PASSIVE openCmd ;;; ret TCP_E_OPEN_PASSIVE
    | TCP_C_SEND msg => process_SEND msg ;;; ret TCP_E_SEND
    | TCP_C_CLOSE => process_CLOSE TCP_E_CLOSE
    | TCP_C_ABORT => process_ABORT ;;; ret TCP_E_ABORT
    | TCP_C_STATUS => process_STATUS ;;; ret TCP_E_STATUS
    end in
  performStateTransition event.

(** ** Dispatch

    An arriving message: a timer of a connection, a segment (with the addresses
    of its control info), an ICMP error, an application command. *)
Inductive Message : Type :=
| TimerMsg (p : positive) (timer : TimerId)
| SegmentMsg (seg : TCPSegment) (srcAddr destAddr : IPvXAddress)
| IcmpMsg
| CommandMsg (gate : Z) (id : Z) (cmd : AppCommand).

(** Runs a method of connection [p]; the connection is removed when the method
    returns false. *)
Definition run_conn (t0 : Z) (p : positive) (c : TCPConnection) (m : Eff Ctx bool)
    : Eff TCP (list Output) :=
  fun t =>
    match m {| this := p; self := c; tcp := t; now := t0; out := [] |} with
    | Err e => Err e
    | Ok alive x =>
        if alive then Ok (out x) ((tcp x) <| heap := <[p := self x]> (heap (tcp x)) |>)
        else match removeConnection p (self x) (tcp x) with
             | Ok _ t => Ok (out x) t
             | Err e => Err e
             end
    end.

Definition lookup_conn (p : positive) : Eff TCP TCPConnection :=
  let! t := gets id in
  match heap t !! p with
  | Some c => ret c
  | None => fail (NullPointer "dangling connection pointer")
  end.

(** The context pointer of a timer; [DumbTCP] does not set that of its [REXMIT]
    timer. *)
Definition timer_context (timer : TimerId) (c : TCPConnection) : bool :=
  match timer, tcpAlgorithm c with
  | Rexmit, DumbTCP_class => false
  | _, _ => true
  end.

Definition handleMessage (t0 : Z) (msg : Message) : Eff TCP (list Output) :=
  match msg with
  | TimerMsg p timer =>
      let! c := lookup_conn p in
      if timer_context timer c then run_conn t0 p c (processTimer timer)
      else fail (NullPointer "conn->processTimer")
  | IcmpMsg => ret []
  | SegmentMsg seg srcAddr destAddr =>
      let! t := gets id in
      match findConnForSegment seg srcAddr destAddr t with
      | Some p =>
          let! c := lookup_conn p in
          run_conn t0 p c (processTCPSegment seg srcAddr destAddr)
      | None =>
          match segmentArrivalWhileClosed seg srcAddr destAddr
                  {| this := 1; self := TCPConnection_new 0 0; tcp := t; now := t0; out := [] |} with
          | Ok _ x => ret (out x)
          | Err e => fail e
          end
      end
  | CommandMsg gate id cmd =>
      let! t := gets (fun t => t) in
      match findConnForApp gate id t with
      | Some p => let! c := lookup_conn p in run_conn t0 p c (processAppCommand cmd)
      | None =>
          let p := nextPtr t in
          let c := TCPConnection_new gate id in
          modify (fun t => t <| nextPtr := Pos.succ p |> <| heap := <[p := c]> (heap t) |>
                             <| tcpAppConnMap := <[appKey_of c := p]> (tcpAppConnMap t) |>) ;;;
          run_conn t0 p c (processAppCommand cmd)
      end
  end.

(** [TCP::initialize] *)
Definition TCP_initialize : TCP :=
  {| heap := ∅; tcpAppConnMap := ∅; tcpConnMap := ∅;
     lastEphemeralPort := EPHEMERAL_PORTRANGE_START; usedEphemeralPorts := ∅;
     uniqueNumbers := 0; nextPtr := 1 |}.
End Main.
