(* ===== verification/TcpSendSpec.v ===== *)
(** * What the sending functions send

    The send sequence variables and the send queue are related to unbounded
    stream positions by [snd_repr]; under it [sendSegment], [sendData],
    [sendProbe], [retransmitOneSegment] and [retransmitData] are total and emit
    exactly the segments described by [data_stream]. *)
From S2P Require Import Prelude SeqNum TcpTypes TcpSendQueue TcpRcvQueue TcpConnection TcpSend.

(** ** Positions

    [U], [N], [M]: the positions of [snd_una], [snd_nxt], [snd_max]; [Q], [F]:
    begin and end of the send queue.  Once a CLOSE is pending the FIN goes out
    with the last octet, so [M] is below [F] or, after the FIN, [F + 1]. *)
Record snd_repr (c : TCPConnection) (Q U N M F : Z) : Prop := {
  sr_una : snd_una (state c) = u32 U;
  sr_nxt : snd_nxt (state c) = u32 N;
  sr_max : snd_max (state c) = u32 M;
  sr_begin : sq_begin (sendQueue c) = u32 Q;
  sr_end : sq_getBufferEndSeq (sendQueue c) = u32 F;
  sr_order : U <= N <= M;
  sr_queue : Q <= F;
  sr_half : F + 2 - U < 2147483648;
  sr_una_queue : U - 1 <= Q <= U + 1;
  sr_fin : if send_fin (state c) then M < F \/ M = F + 1 else M <= F;
  sr_fin_seq : send_fin (state c) = true -> snd_fin_seq (state c) = u32 F
}.

(** ** Segments

    [finish_segment] is what [sendSegment] and [sendToIP] add to the segment the
    queue built. *)
Definition finish_segment (c : TCPConnection) (fin : bool) (seg : TCPSegment) : TCPSegment :=
  seg <| ackNo := rcv_nxt (state c) |> <| ackBit := true |> <| window := rcv_wnd (state c) |>
      <| finBit := fin |> <| srcPort := i16 (localPort c) |> <| destPort := i16 (remotePort c) |>.

Definition carries_fin (c : TCPConnection) (pos : Z) : bool :=
  send_fin (state c) && (u32 pos =? snd_fin_seq (state c)).

(** Output [o] is the segment with the octets [N, N + n) of the send queue. *)
Definition data_out (c : TCPConnection) (N n : Z) (o : Output) : Prop :=
  exists seg, sq_createSegmentWithBytes (u32 N) n (sendQueue c) = Ok seg (sendQueue c) /\
    same_header seg (bare_segment (u32 N) n) /\
    o = ToIP (localAddr c) (remoteAddr c) (TCP_HEADER_OCTETS + n)
          (finish_segment c (carries_fin c (N + n)) seg).

(** Consecutive segments of the given sizes from position [N]. *)
Fixpoint data_stream (c : TCPConnection) (N : Z) (sizes : list Z) (outs : list Output) : Prop :=
  match sizes, outs with
  | [], [] => True
  | n :: sizes, o :: outs => data_out c N n o /\ data_stream c (N + n) sizes outs
  | _, _ => False
  end.

(** [snd_nxt] after sending up to position [pos]: over the FIN if it was sent. *)
Definition after (c : TCPConnection) (pos : Z) : Z := if carries_fin c pos then pos + 1 else pos.

Definition with_nxt (v : Z) (c : TCPConnection) : TCPConnection :=
  c <| state := (state c) <| snd_nxt := v |> |>.
Definition with_nxt_max (v : Z) (c : TCPConnection) : TCPConnection :=
  c <| state := (state c) <| snd_nxt := v |> <| snd_max := v |> |>.

(** ** Running the monad *)
Section Running.
Context {E : SimEnv}.
Implicit Types (x : Ctx) (c : TCPConnection).

Lemma on_sendQueue_same {A} (m : Eff AnySendQueue A) x a :
  m (sendQueue (self x)) = Ok a (sendQueue (self x)) -> on_sendQueue m x = Ok a x.
Proof. unfold on_sendQueue. intros ->. by destruct x as [? [] ? ? ?]. Qed.

Lemma on_sendQueue_ok {A} (m : Eff AnySendQueue A) x a q :
  m (sendQueue (self x)) = Ok a q ->
  on_sendQueue m x = Ok a (x <| self := (self x) <| sendQueue := q |> |>).
Proof. unfold on_sendQueue. by intros ->. Qed.

Lemma on_sendQueue_err {A} (m : Eff AnySendQueue A) x e :
  m (sendQueue (self x)) = Err e -> on_sendQueue m x = Err e.
Proof. unfold on_sendQueue. by intros ->. Qed.

Lemma i32_id n : 0 <= n < 2147483648 -> i32 n = n.
Proof. intros. apply i32_small. lia. Qed.

Lemma same_header_payloadLength a b : same_header a b -> payloadLength a = payloadLength b.
Proof. intros H. change (payloadLength (a <| payloadList := [] |>) = payloadLength (b <| payloadList := [] |>)). by rewrite H. Qed.

Lemma same_header_finBit a b : same_header a b -> finBit a = finBit b.
Proof. intros H. change (finBit (a <| payloadList := [] |>) = finBit (b <| payloadList := [] |>)). by rewrite H. Qed.

Lemma sendToIP_ok x seg :
  sendable (localAddr (self x)) (remoteAddr (self x)) = true ->
  sendToIP seg x = Ok tt (x <| out := out x ++
    [ToIP (localAddr (self x)) (remoteAddr (self x)) (TCP_HEADER_OCTETS + payloadLength seg)
       (seg <| srcPort := i16 (localPort (self x)) |>
            <| destPort := i16 (remotePort (self x)) |>)] |>).
Proof. intros Hs. unfold sendToIP, sendToIP_raw, bind, conn, gets, id. by rewrite Hs. Qed.

(** ** One segment

    What sending from [snd_nxt = N] needs. *)
Record can_send (c : TCPConnection) (Q N F : Z) : Prop := {
  cs_nxt : snd_nxt (state c) = u32 N;
  cs_begin : sq_begin (sendQueue c) = u32 Q;
  cs_end : sq_getBufferEndSeq (sendQueue c) = u32 F;
  cs_order : Q <= N <= F;
  cs_half : F - Q < 2147483648;
  cs_fin_seq : send_fin (state c) = true -> snd_fin_seq (state c) = u32 F
}.

Lemma snd_repr_can_send c Q U N M F :
  snd_repr c Q U N M F -> Q <= N <= F -> can_send c Q N F.
Proof. intros [] HN. split; done || lia. Qed.

Lemma can_send_nxt c Q N F N' :
  can_send c Q N F -> Q <= N' <= F -> can_send (with_nxt (u32 N') c) Q N' F.
Proof. intros [] HN. split; done. Qed.

Lemma carries_fin_iff c Q N F pos :
  can_send c Q N F -> Q <= pos <= F ->
  carries_fin c pos = send_fin (state c) && (pos =? F).
Proof.
  intros [] Hpos. unfold carries_fin. destruct (send_fin (state c)); [|done]. cbn.
  rewrite cs_fin_seq0 by done. unfold u32. lia.
Qed.

Lemma sendSegment_spec x Q N F n :
  can_send (self x) Q N F -> 0 <= n < 2147483648 -> N + n <= F ->
  sendable (localAddr (self x)) (remoteAddr (self x)) = true ->
  exists o, data_out (self x) N n o /\
    sendSegment n x = Ok tt (x <| self := with_nxt (u32 (after (self x) (N + n))) (self x) |>
                               <| out := out x ++ [o] |>).
Proof.
  intros [] Hn HF Hs.
  destruct (sq_create_law (u32 N) n (sendQueue (self x))) as (seg & Hseg & Hh).
  { rewrite cs_begin0, seqLE_u32 by (unfold comparable; lia). lia. }
  { rewrite cs_end0, u32_add_l, seqLE_u32 by (unfold comparable; lia). lia. }
  assert (Hpl := same_header_payloadLength _ _ Hh). cbn in Hpl. rewrite i32_id in Hpl by done.
  eexists. split; [exists seg; done|].
  unfold sendSegment. rewrite (bind_ok (var id) _ x (state (self x)) x) by done.
  unfold id. rewrite cs_nxt0.
  rewrite (bind_ok _ _ _ _ _ (on_sendQueue_same _ _ _ Hseg)).
  rewrite (bind_ok _ _ x tt x) by (unfold assert_; cbn; by rewrite Hpl, Z.eqb_refl).
  erewrite (bind_ok (set_var _)) by done.
  unfold after, carries_fin. rewrite u32_add_l.
  destruct (send_fin (state (self x)) && (u32 (N + n) =? snd_fin_seq (state (self x)))) eqn:Ef.
  - erewrite (bind_ok (set_var _)) by done. rewrite sendToIP_ok by done.
    apply andb_prop in Ef as [_ Ef%Z.eqb_eq]. cbn -[u32 i16]. rewrite Hpl, <- Ef, u32_add_l. done.
  - rewrite sendToIP_ok by done. cbn -[u32 i16]. rewrite Hpl.
    assert (Hfin := same_header_finBit _ _ Hh). cbn in Hfin.
    unfold finish_segment. destruct seg. cbn in Hfin. subst. done.
Qed.

(** ** Full segments *)
Lemma data_stream_with_nxt v c N sizes outs :
  data_stream (with_nxt v c) N sizes outs <-> data_stream c N sizes outs.
Proof.
  revert N outs. induction sizes as [|n sizes IH]; intros N [|o outs]; cbn; [done..|].
  by rewrite IH.
Qed.

Lemma sendFullSegments_done fuel x b :
  b < snd_mss (state (self x)) -> sendFullSegments (S fuel) b x = Ok tt x.
Proof.
  intros Hb. cbn [sendFullSegments]. erewrite (bind_ok (var snd_mss)) by done.
  by rewrite (proj2 (Z.leb_gt _ b)).
Qed.

(** Sends [S k] full segments from [N]; [r] octets stay behind. *)
Lemma sendFullSegments_spec k fuel x Q N F mss r :
  can_send (self x) Q N F -> snd_mss (state (self x)) = mss ->
  0 < mss < 2147483648 -> 0 <= r < mss -> N + (Z.of_nat (S k) * mss + r) <= F ->
  (S k < fuel)%nat ->
  sendable (localAddr (self x)) (remoteAddr (self x)) = true ->
  exists outs, data_stream (self x) N (replicate (S k) mss) outs /\
    sendFullSegments fuel (Z.of_nat (S k) * mss + r) x =
      Ok tt (x <| self := with_nxt (u32 (after (self x) (N + Z.of_nat (S k) * mss))) (self x) |>
               <| out := out x ++ outs |>).
Proof.
  revert fuel x N. induction k as [|k IH]; intros fuel x N Hc Hm Hmss Hr HF Hfuel Hs;
    (destruct fuel as [|fuel]; [lia|]); cbn [sendFullSegments];
    erewrite (bind_ok (var snd_mss)) by done; rewrite Hm;
    rewrite (proj2 (Z.leb_le mss _)) by nia; rewrite i32_id by lia;
    (destruct (sendSegment_spec x Q N F mss Hc) as (o & Ho & Hrun); [lia|nia|done|]);
    rewrite (bind_ok _ _ _ _ _ Hrun).
  - exists [o]. split; [done|].
    replace (u64 _) with r by (unfold u64; rewrite Z.mod_small; destruct Hc; lia).
    destruct fuel as [|fuel]; [lia|]. rewrite sendFullSegments_done by (cbn; lia).
    by rewrite Z.mul_1_l.
  - assert (Hfin : after (self x) (N + mss) = N + mss).
    { pose proof (cs_order _ _ _ _ Hc). unfold after.
      rewrite (carries_fin_iff _ Q N F); [|done|nia].
      replace (N + mss =? F) with false by nia. by rewrite andb_false_r. }
    rewrite Hfin. replace (u64 _) with (Z.of_nat (S k) * mss + r) by
      (unfold u64; rewrite Z.mod_small; destruct Hc; nia).
    set (x1 := x <| self := _ |> <| out := _ |>).
    destruct (IH fuel x1 (N + mss)) as (outs & Hst & Hrun1).
    + apply can_send_nxt with N; [done|]. pose proof (cs_order _ _ _ _ Hc). nia.
    + done.
    + done.
    + done.
    + lia.
    + lia.
    + done.
    + exists (o :: outs). split.
      * cbn [replicate data_stream]. split; [done|]. by apply data_stream_with_nxt in Hst.
      * rewrite Hrun1. unfold x1. cbn -[u32 Z.of_nat after]. rewrite <- app_assoc.
        replace (N + Z.of_nat (S (S k)) * mss) with (N + mss + Z.of_nat (S k) * mss) by lia.
        done.
Qed.

(** ** The hooks *)

(** The timers of the algorithm object exist and its RTO is within the bounds of
    [TCPBaseAlg.cc]. *)
Definition alg_ok (c : TCPConnection) : Prop :=
  rexmitTimer c <> TimerNull /\
  MIN_REXMIT_TIMEOUT <= rexmit_timeout (alg c) <= MAX_REXMIT_TIMEOUT /\
  (tcpAlgorithm c <> DumbTCP_class ->
     delayedAckTimer c <> TimerNull /\ persistTimer c <> TimerNull /\ keepAliveTimer c <> TimerNull).

Definition ack_sent (c : TCPConnection) : TCPConnection :=
  match tcpAlgorithm c with
  | DumbTCP_class => c
  | _ => c <| delayedAckTimer := TimerIdle |>
  end.

Definition rexmit_started (t0 : Z) (c : TCPConnection) : TCPConnection :=
  match rexmitTimer c with
  | TimerAt _ => c
  | _ => c <| alg := (alg c) <| rexmit_count := 0 |> |>
           <| rexmitTimer := TimerAt (t0 + rexmit_timeout (alg c)) |>
  end.

Definition rtt_started (t0 fromseq : Z) (c : TCPConnection) : TCPConnection :=
  if rtseq_sendtime (alg c) =? 0
  then c <| alg := (alg c) <| rtseq := fromseq |> <| rtseq_sendtime := t0 |> |> else c.

Definition data_sent (t0 fromseq : Z) (c : TCPConnection) : TCPConnection :=
  match tcpAlgorithm c with
  | DumbTCP_class => c <| rexmitTimer := TimerAt (t0 + DUMB_REXMIT_TIMEOUT) |>
  | _ => rtt_started t0 fromseq (rexmit_started t0 c)
  end.

Lemma ackSent_spec x :
  alg_ok (self x) -> ackSent x = Ok tt (x <| self := ack_sent (self x) |>).
Proof.
  intros (_ & _ & Hd). unfold ackSent. erewrite (bind_ok (conn tcpAlgorithm)) by done.
  destruct x as [p [] t t0 o]. cbn in *.
  destruct tcpAlgorithm; [done|..]; (destruct Hd as [Hd _]; [done|]);
    unfold BaseAlgHooks.ackSent, isScheduled, cancelEvent, bind, conn, gets; cbn;
    by destruct delayedAckTimer.
Qed.

Lemma startRexmitTimer_spec x :
  rexmitTimer (self x) = TimerIdle -> 0 <= rexmit_timeout (alg (self x)) ->
  BaseAlgHooks.startRexmitTimer x = Ok tt (x <| self := (self x)
    <| alg := (alg (self x)) <| rexmit_count := 0 |> |>
    <| rexmitTimer := TimerAt (now x + rexmit_timeout (alg (self x))) |> |>).
Proof.
  intros Hr Ht. unfold BaseAlgHooks.startRexmitTimer, scheduleTimeout.
  unfold bind, set_algvar, set_conn, modify, algvar, conn, gets. cbn. rewrite Hr.
  by rewrite (proj2 (Z.ltb_ge _ 0)).
Qed.

Context `{!SimEnvLaws}.

Lemma dataSent_spec x fromseq :
  alg_ok (self x) -> dataSent fromseq x = Ok tt (x <| self := data_sent (now x) fromseq (self x) |>).
Proof.
  intros (Hr & Ht & _). pose proof second_pos as Hsec.
  unfold dataSent. erewrite (bind_ok (conn tcpAlgorithm)) by done. unfold data_sent.
  assert (Hb : BaseAlgHooks.dataSent fromseq x =
    Ok tt (x <| self := rtt_started (now x) fromseq (rexmit_started (now x) (self x)) |>)).
  { unfold BaseAlgHooks.dataSent, isScheduled, bind, conn, gets.
    unfold rexmit_started. cbn -[BaseAlgHooks.startRexmitTimer].
    destruct (rexmitTimer (self x)) eqn:Er; cbn -[BaseAlgHooks.startRexmitTimer]; [done| |].
    - rewrite startRexmitTimer_spec by (done || (unfold MIN_REXMIT_TIMEOUT in Ht; lia)).
      cbn. unfold rtt_started. cbn.
      by destruct (rtseq_sendtime (alg (self x)) =? 0).
    - unfold rtt_started. destruct (rtseq_sendtime (alg (self x)) =? 0); [done|]. by destruct x. }
  destruct (tcpAlgorithm (self x)); [|exact Hb..].
  unfold DumbTCPHooks.dataSent, DUMB_REXMIT_TIMEOUT, isScheduled, scheduleTimeout, cancelEvent,
    bind, conn, gets. cbn. destruct (rexmitTimer (self x)) eqn:Er; cbn; rewrite ?Er; cbn; [done|..];
    by rewrite (proj2 (Z.ltb_ge _ 0)) by lia.
Qed.

Lemma alg_ok_ack_sent c : alg_ok c -> alg_ok (ack_sent c).
Proof.
  unfold alg_ok, ack_sent. intros (? & ? & Hd).
  destruct (tcpAlgorithm c) eqn:Ea; cbn; rewrite ?Ea; [done|..];
    (destruct Hd as (? & ? & ?); [done|]); by do 2 (split; [done|]).
Qed.

Lemma alg_ok_data_sent t0 fromseq c : alg_ok c -> alg_ok (data_sent t0 fromseq c).
Proof.
  unfold alg_ok, data_sent, rtt_started, rexmit_started. intros (? & ? & Hd).
  destruct (tcpAlgorithm c) eqn:Ea; cbn; rewrite ?Ea; [done|..];
    destruct (rexmitTimer c) eqn:Er; cbn; case_bool; cbn; rewrite ?Er, ?Ea; done.
Qed.

(** [ackSent(); dataSent(fromseq);] at the end of [sendData] and [sendProbe]. *)
Lemma notify_spec {A} x fromseq (k : Eff Ctx A) :
  alg_ok (self x) ->
  bind ackSent (fun _ => bind (dataSent fromseq) (fun _ => k)) x =
  k (x <| self := data_sent (now x) fromseq (ack_sent (self x)) |>).
Proof.
  intros Ha. rewrite (bind_ok _ _ _ _ _ (ackSent_spec x Ha)).
  set (y := x <| self := _ |>). assert (Hy : alg_ok (self y)) by by apply alg_ok_ack_sent.
  by rewrite (bind_ok _ _ _ _ _ (dataSent_spec y fromseq Hy)).
Qed.

(** ** The window *)
Definition max_window (congestionWindow wnd : Z) : Z :=
  if (0 <=? congestionWindow) && (congestionWindow <? wnd) then congestionWindow else wnd.

(** The octets that may be sent now: those in the queue above [M], within the
    smaller of the two windows. *)
Definition usable (c : TCPConnection) (congestionWindow U M F : Z) : Z :=
  Z.min (F - M) (max_window congestionWindow (snd_wnd (state c)) - (M - U)).

Definition may_send (full : bool) (w mss : Z) : bool := (0 <? w) && negb (full && (w <? mss)).

Definition segment_sizes (w mss : Z) : list Z :=
  if w <=? mss then [w] else replicate (Z.to_nat (w / mss)) mss.

Definition total_size (l : list Z) : Z := foldr Z.add 0 l.

Lemma total_replicate k n : total_size (replicate k n) = Z.of_nat k * n.
Proof. unfold total_size. induction k as [|k IH]; cbn -[Z.of_nat]; lia. Qed.

(** At most the usable window goes out, in segments of at most one MSS. *)
Lemma segment_sizes_spec w mss :
  0 < w -> 0 < mss ->
  0 < total_size (segment_sizes w mss) <= w /\
  Forall (fun n => 0 < n <= mss) (segment_sizes w mss).
Proof.
  intros Hw Hm. unfold segment_sizes. destruct (Z.leb_spec w mss).
  - cbn. split; [lia|]. repeat constructor; lia.
  - rewrite total_replicate, Z2Nat.id by (apply Z.div_pos; lia).
    split; [pose proof (Z.div_mod w mss); nia|]. apply Forall_replicate. lia.
Qed.

Lemma snd_repr_max c Q U N M F : snd_repr c Q U N M F -> M <= F + 1.
Proof. intros []. destruct (send_fin (state c)); lia. Qed.

Lemma getBytesAvailable_spec c Q U N M F :
  snd_repr c Q U N M F -> getBytesAvailable (u32 M) (sendQueue c) = Z.max 0 (F - M).
Proof.
  intros HR. pose proof (snd_repr_max _ _ _ _ _ _ HR). destruct HR. unfold getBytesAvailable. rewrite sr_end0, seqLess_u32 by (unfold comparable; lia).
  destruct (Z.ltb_spec M F); unfold u32; lia.
Qed.

(** The segments of [sendData], one short segment or only full ones. *)
Lemma send_segments x Q N F mss w :
  can_send (self x) Q N F -> snd_mss (state (self x)) = mss -> 0 < mss < 2147483648 ->
  0 < w -> N + w <= F -> sendable (localAddr (self x)) (remoteAddr (self x)) = true ->
  exists outs, data_stream (self x) N (segment_sizes w mss) outs /\
    (if w <=? mss then sendSegment (i32 w) else sendFullSegments (rounds w mss) w) x =
    Ok tt (x <| self := with_nxt (u32 (after (self x) (N + total_size (segment_sizes w mss)))) (self x) |>
             <| out := out x ++ outs |>).
Proof.
  intros Hc Hm Hmss Hw HF Hs. pose proof Hc as []. unfold segment_sizes.
  destruct (Z.leb_spec w mss) as [Hle|Hgt].
  - destruct (sendSegment_spec x Q N F w) as (o & Ho & Hrun); [done|lia|done|done|].
    exists [o]. split; [done|]. rewrite i32_id by lia. rewrite Hrun.
    cbn [total_size foldr]. by rewrite Z.add_0_r.
  - pose proof (Z.div_mod w mss ltac:(lia)) as Hdm.
    pose proof (Z.mod_pos_bound w mss ltac:(lia)) as Hr.
    assert (0 < w / mss) by (apply Z.div_str_pos; lia).
    assert (exists k, Z.to_nat (w / mss) = S k) as [k Hk] by (exists (pred (Z.to_nat (w / mss))); lia).
    assert (Hkz : Z.of_nat (S k) = w / mss) by lia. rewrite Hk.
    destruct (sendFullSegments_spec k (rounds w mss) x Q N F mss (w mod mss)) as (outs & Hst & Hrun);
      [done..|lia|unfold rounds; lia|done|].
    exists outs. rewrite total_replicate. split; [done|]. rewrite <- Hrun. f_equal. lia.
Qed.

Lemma sendData_no x Q U N M F full cw mss :
  snd_repr (self x) Q U N M F -> snd_mss (state (self x)) = mss -> 0 < mss ->
  may_send full (usable (self x) cw U M F) mss = false ->
  sendData full cw x = Ok false (x <| self := with_nxt (u32 M) (self x) |>).
Proof.
  intros HR Hm Hmss Hno. pose proof HR as []. pose proof (snd_repr_max _ _ _ _ _ _ HR).
  assert (Hbuf := getBytesAvailable_spec _ _ _ _ _ _ HR).
  unfold sendData. run_steps. rewrite sr_max0. set (x0 := x <| self := _ |>).
  change (snd_nxt (id (state (self x0)))) with (u32 M).
  change (sendQueue (self x0)) with (sendQueue (self x)). rewrite Hbuf.
  destruct (Z.eqb_spec (Z.max 0 (F - M)) 0); [done|].
  change (snd_wnd (id (state (self x0)))) with (snd_wnd (state (self x))).
  fold (max_window cw (snd_wnd (state (self x)))).
  change (snd_una (id (state (self x0)))) with (snd_una (state (self x))).
  change (snd_mss (id (state (self x0)))) with (snd_mss (state (self x))).
  rewrite sr_una0, u32_sub_l, u32_sub_r, (u32_small (M - U)) by (unfold is_u32; lia).
  unfold may_send, usable in Hno. rewrite Hm.
  set (e := max_window _ _ - (M - U)) in *. destruct (Z.leb_spec e 0); [done|].
  replace (if Z.max 0 (F - M) <? e then Z.max 0 (F - M) else e) with (Z.min (F - M) e) by (case_bool; lia).
  rewrite (proj2 (Z.ltb_lt 0 (Z.min (F - M) e))) in Hno by lia. cbn in Hno.
  apply negb_false_iff in Hno. by rewrite Hno.
Qed.

Lemma sendData_yes x Q U N M F full cw mss :
  snd_repr (self x) Q U N M F -> Q <= M -> alg_ok (self x) ->
  snd_mss (state (self x)) = mss -> 0 < mss < 2147483648 ->
  sendable (localAddr (self x)) (remoteAddr (self x)) = true ->
  let w := usable (self x) cw U M F in
  may_send full w mss = true ->
  let sizes := segment_sizes w mss in
  exists outs, data_stream (self x) M sizes outs /\
    sendData full cw x =
      Ok true (x <| self := data_sent (now x) (u32 M) (ack_sent
                     (with_nxt_max (u32 (after (self x) (M + total_size sizes))) (self x))) |>
                 <| out := out x ++ outs |>).
Proof.
  intros HR HQ Halg Hm Hmss Hs w Hyes sizes. pose proof HR as [].
  pose proof (snd_repr_max _ _ _ _ _ _ HR).
  assert (Hbuf := getBytesAvailable_spec _ _ _ _ _ _ HR).
  apply andb_prop in Hyes as [Hw Hfull]. apply Z.ltb_lt in Hw. unfold w, usable in Hw.
  apply negb_true_iff in Hfull.
  set (x0 := x <| self := with_nxt (u32 M) (self x) |>).
  assert (Hc : can_send (self x0) Q M F).
  { split; cbn; done || lia. }
  destruct (send_segments x0 Q M F mss w) as (outs & Hst & Hrun); try done;
    [unfold w, usable; lia..|].
  exists outs. split; [by apply data_stream_with_nxt in Hst|].
  unfold sendData. run_steps. rewrite sr_max0.
  change (x <| self := (self x) <| state := (state (self x)) <| snd_nxt := u32 M |> |> |>) with x0.
  change (snd_nxt (id (state (self x0)))) with (u32 M).
  change (sendQueue (self x0)) with (sendQueue (self x)). rewrite Hbuf.
  rewrite (proj2 (Z.eqb_neq _ 0)) by lia.
  change (snd_wnd (id (state (self x0)))) with (snd_wnd (state (self x))).
  fold (max_window cw (snd_wnd (state (self x)))).
  change (snd_una (id (state (self x0)))) with (snd_una (state (self x))).
  change (snd_mss (id (state (self x0)))) with (snd_mss (state (self x))).
  rewrite sr_una0, u32_sub_l, u32_sub_r, (u32_small (M - U)), Hm by (unfold is_u32; lia).
  rewrite (proj2 (Z.leb_gt _ 0)) by lia.
  replace (if _ <? _ then _ else _) with w by (unfold w, usable; case_bool; lia).
  fold w in Hw. rewrite Hfull. rewrite (bind_ok (assert_ _ _) _ x0 tt x0) by
    (unfold assert_; by rewrite (proj2 (Z.ltb_lt 0 w))).
  rewrite (bind_ok _ _ _ _ _ Hrun). run_steps.
  by rewrite notify_spec by exact Halg.
Qed.

(** ** Retransmission *)
Lemma retransmitLoop_done fuel x : retransmitLoop (S fuel) 0 x = Ok tt x.
Proof. done. Qed.

Lemma getBytesAvailable_can_send c Q N F :
  can_send c Q N F -> getBytesAvailable (snd_nxt (state c)) (sendQueue c) = F - N.
Proof.
  intros []. unfold getBytesAvailable. rewrite cs_nxt0, cs_end0, seqLess_u32 by (unfold comparable; lia).
  destruct (Z.ltb_spec N F); unfold u32; lia.
Qed.

Lemma retransmitLoop_spec fuel x Q N M F mss :
  can_send (self x) Q N F -> snd_mss (state (self x)) = mss -> 0 < mss < 2147483648 ->
  sendable (localAddr (self x)) (remoteAddr (self x)) = true ->
  N < M -> (if send_fin (state (self x)) then M < F \/ M = F + 1 else M <= F) ->
  F + 1 - N < 2147483648 -> (Z.to_nat ((M - N) / mss) + 2 <= fuel)%nat ->
  exists sizes outs, data_stream (self x) N sizes outs /\ sizes <> [] /\
    total_size sizes = Z.min M F - N /\ Forall (fun n => 0 <= n <= mss) sizes /\
    retransmitLoop fuel (M - N) x =
      Ok tt (x <| self := with_nxt (u32 M) (self x) |> <| out := out x ++ outs |>).
Proof.
  revert x N. induction fuel as [|fuel IH]; intros x N Hc Hm Hmss Hs HNM Hfin Hh Hf; [lia|].
  cbn [retransmitLoop]. rewrite (proj2 (Z.leb_gt _ 0)) by lia. run_steps. unfold id.
  rewrite (getBytesAvailable_can_send _ Q N F) by done. rewrite Hm. pose proof Hc as [].
  set (b := Z.min _ (F - N)). assert (Hb : 0 <= b <= mss /\ N + b <= F /\ N + b <= M) by (unfold b; lia).
  assert (HbMF : M < F \/ M = F \/ M = F + 1) by (destruct (send_fin _); lia).
  rewrite i32_id by lia.
  destruct (sendSegment_spec x Q N F b) as (o & Ho & Hrun); [done|lia|lia|done|].
  rewrite (bind_ok _ _ _ _ _ Hrun). run_steps.
  pose proof (carries_fin_iff (self x) Q N F (N + b) Hc ltac:(lia)) as Hcf.
  unfold id, after. rewrite Hcf. cbn [with_nxt].
  match goal with |- context [(if ?test then ret tt else retransmitLoop _ _) _] =>
    assert (Ht : test = send_fin (state (self x)) && (N + b =? F)) end.
  { cbn -[u32]. destruct (send_fin (state (self x))) eqn:Es; [|done]. cbn -[u32].
    rewrite cs_fin_seq0, u32_add_l by done. destruct (Z.eqb_spec (N + b) F) as [->|].
    - apply Z.eqb_refl.
    - apply Z.eqb_neq. unfold u32. lia. }
  rewrite Ht. destruct (send_fin (state (self x)) && (N + b =? F)) eqn:Etest.
  - apply andb_prop in Etest as [Esf Eb%Z.eqb_eq]. rewrite Esf in Hfin.
    exists [b], [o]. assert (M = F + 1) by (unfold b in *; lia).
    split; [done|]. split; [done|]. split; [cbn; lia|]. split; [repeat constructor; lia|].
    unfold ret. by replace (N + b + 1) with M by lia.
  - assert (Hb1 : 0 < b).
    { destruct (send_fin (state (self x))); cbn in Etest; [apply Z.eqb_neq in Etest|]; unfold b in *; lia. }
    replace (u64 (M - N - b)) with (M - (N + b)) by (unfold u64; rewrite Z.mod_small; lia).
    set (x1 := x <| self := _ |> <| out := _ |>). destruct (Z.eq_dec (N + b) M) as [Heq|Hne].
    + exists [b], [o]. split; [done|]. split; [done|]. split.
      { cbn. destruct (send_fin (state (self x))); cbn in Etest; [apply Z.eqb_neq in Etest|]; lia. }
      split; [repeat constructor; lia|]. destruct fuel as [|fuel]; [lia|].
      replace (M - (N + b)) with 0 by lia. rewrite retransmitLoop_done. unfold x1. by rewrite Heq.
    + assert (Hbm : b = mss).
      { destruct (send_fin (state (self x))); cbn in Etest; [apply Z.eqb_neq in Etest|]; unfold b in *; lia. }
      destruct (IH x1 (N + b)) as (sizes & outs & Hst & _ & Htot & Hfa & Hrun1).
      * apply (can_send_nxt _ Q N); [done|lia].
      * done.
      * done.
      * done.
      * lia.
      * done.
      * lia.
      * replace ((M - N) / mss) with ((M - (N + b)) / mss + 1) in Hf by
          (rewrite <- Z.div_add by lia; f_equal; lia).
        pose proof (Z.div_pos (M - (N + b)) mss). lia.
      * exists (b :: sizes), (o :: outs). cbn [data_stream]. split; [|split; [done|]].
        { split; [done|]. by apply data_stream_with_nxt in Hst. }
        split; [cbn in *; unfold total_size in *; lia|]. split; [constructor; [lia|done]|].
        rewrite Hrun1. unfold x1. cbn -[u32]. by rewrite <- app_assoc.
Qed.

Lemma retransmitData_spec x Q U N M F mss :
  snd_repr (self x) Q U N M F -> Q <= U -> U < M ->
  snd_mss (state (self x)) = mss -> 0 < mss < 2147483648 ->
  sendable (localAddr (self x)) (remoteAddr (self x)) = true ->
  exists sizes outs, data_stream (self x) U sizes outs /\ sizes <> [] /\
    total_size sizes = Z.min M F - U /\ Forall (fun n => 0 <= n <= mss) sizes /\
    retransmitData x =
      Ok tt (x <| self := with_nxt (u32 M) (self x) |> <| out := out x ++ outs |>).
Proof.
  intros HR HQ HU Hm Hmss Hs. pose proof (snd_repr_max _ _ _ _ _ _ HR). pose proof HR as [].
  set (x0 := x <| self := with_nxt (u32 U) (self x) |>).
  unfold retransmitData. run_steps. rewrite sr_una0.
  change (x <| self := (self x) <| state := (state (self x)) <| snd_nxt := u32 U |> |> |>) with x0.
  change (snd_max (id (state (self x0)))) with (snd_max (state (self x))).
  change (snd_nxt (id (state (self x0)))) with (u32 U).
  change (snd_mss (id (state (self x0)))) with (snd_mss (state (self x))).
  rewrite sr_max0, u32_sub_l, u32_sub_r, u32_small by (unfold is_u32; lia).
  rewrite (proj2 (Z.eqb_neq _ 0)) by lia. cbn [negb]. run_steps.
  destruct (retransmitLoop_spec (S (S (rounds (M - U) (snd_mss (state (self x))))))
              x0 Q U M F mss) as (sizes & outs & Hst & Hne & Htot & Hfa & Hrun); try done.
  - split; cbn; try done; lia.
  - lia.
  - unfold rounds. rewrite Hm. lia.
  - exists sizes, outs. split; [by apply data_stream_with_nxt in Hst|]. by do 3 (split; [done|]).
Qed.

(** One segment: its length counts the FIN, if that is outstanding, as an octet. *)
Lemma retransmitOneSegment_ok x Q U N M F mss :
  snd_repr (self x) Q U N M F -> Q <= U -> U < M -> alg_ok (self x) ->
  snd_mss (state (self x)) = mss -> 0 < mss < 2147483648 ->
  sendable (localAddr (self x)) (remoteAddr (self x)) = true ->
  let n := Z.min mss (M - U) in
  U + n <= F ->
  exists o, data_out (self x) U n o /\
    retransmitOneSegment x =
      Ok tt (x <| self := ack_sent (with_nxt (u32 (after (self x) (U + n))) (self x)) |>
               <| out := out x ++ [o] |>).
Proof.
  intros HR HQ HU Ha Hm Hmss Hs n HF. pose proof (snd_repr_max _ _ _ _ _ _ HR). pose proof HR as [].
  set (x0 := x <| self := with_nxt (u32 U) (self x) |>).
  destruct (sendSegment_spec x0 Q U F n) as (o & Ho & Hrun); [|lia|done|done|].
  { split; cbn; done || lia. }
  exists o. split; [done|]. unfold retransmitOneSegment. run_steps. rewrite sr_una0.
  change (x <| self := (self x) <| state := (state (self x)) <| snd_nxt := u32 U |> |> |>) with x0.
  change (snd_max (id (state (self x0)))) with (snd_max (state (self x))).
  change (snd_nxt (id (state (self x0)))) with (u32 U).
  change (snd_mss (id (state (self x0)))) with (snd_mss (state (self x))).
  rewrite sr_max0, u32_sub_l, u32_sub_r, u32_small, Hm by (unfold is_u32; lia). fold n.
  rewrite (proj2 (Z.eqb_neq n 0)), i32_id by lia. cbn [negb]. run_steps.
  rewrite (bind_ok _ _ _ _ _ Hrun). by rewrite ackSent_spec by exact Ha.
Qed.

(** [retransmitOneSegment] counts an outstanding FIN as an octet of data:
    when everything from [snd_una] to the FIN fits into one segment, it asks the send
    queue for an octet it does not hold and the assertion there stops the
    simulation. *)
Theorem retransmitOneSegment_fin x Q U N F mss :
  snd_repr (self x) Q U N (F + 1) F -> Q <= U <= F ->
  snd_mss (state (self x)) = mss -> 0 < mss < 2147483648 -> F + 1 - U <= mss ->
  exists w, retransmitOneSegment x = Err (AssertionFailed w).
Proof.
  intros HR HQ Hm Hmss Hn. pose proof HR as [].
  destruct (sq_create_assert (u32 U) (F + 1 - U) (sendQueue (self x))) as (w & Hw).
  { rewrite sr_begin0, sr_end0, u32_add_l, !seqLE_u32 by (unfold comparable; lia). lia. }
  exists w. unfold retransmitOneSegment. run_steps. rewrite sr_una0.
  set (x0 := x <| self := _ |>).
  change (snd_max (id (state (self x0)))) with (snd_max (state (self x))).
  change (snd_nxt (id (state (self x0)))) with (u32 U).
  change (snd_mss (id (state (self x0)))) with (snd_mss (state (self x))).
  rewrite sr_max0, u32_sub_l, u32_sub_r, u32_small, Hm by (unfold is_u32; lia).
  rewrite Z.min_r, (proj2 (Z.eqb_neq _ 0)), i32_id by lia. cbn [negb]. run_steps.
  rewrite (bind_err (sendSegment _) _ _ (AssertionFailed w)); [done|].
  unfold sendSegment. run_steps. by apply bind_err, on_sendQueue_err.
Qed.

Lemma sendProbe_spec x Q U N M F :
  snd_repr (self x) Q U N M F -> Q <= M -> M < F -> alg_ok (self x) ->
  sendable (localAddr (self x)) (remoteAddr (self x)) = true ->
  exists o, data_out (self x) M 1 o /\
    sendProbe x =
      Ok true (x <| self := data_sent (now x) (u32 M) (ack_sent
                     (with_nxt_max (u32 (after (self x) (M + 1))) (self x))) |>
                 <| out := out x ++ [o] |>).
Proof.
  intros HR HQ HM Ha Hs. pose proof HR as [].
  assert (Hbuf := getBytesAvailable_spec _ _ _ _ _ _ HR).
  set (x0 := x <| self := with_nxt (u32 M) (self x) |>).
  destruct (sendSegment_spec x0 Q M F 1) as (o & Ho & Hrun); [|lia|lia|done|].
  { split; cbn; done || lia. }
  exists o. split; [done|]. unfold sendProbe. run_steps. rewrite sr_max0.
  change (x <| self := (self x) <| state := (state (self x)) <| snd_nxt := u32 M |> |> |>) with x0.
  change (snd_nxt (id (state (self x0)))) with (u32 M).
  change (sendQueue (self x0)) with (sendQueue (self x)). rewrite Hbuf.
  rewrite (proj2 (Z.eqb_neq _ 0)) by lia. rewrite (bind_ok _ _ _ _ _ Hrun). run_steps.
  by rewrite notify_spec by exact Ha.
Qed.

(** A pure acknowledgment of everything received. *)
Definition ack_out (c : TCPConnection) : Output :=
  ToIP (localAddr c) (remoteAddr c) TCP_HEADER_OCTETS
    ((ack_segment (state c)) <| srcPort := i16 (localPort c) |> <| destPort := i16 (remotePort c) |>).

Lemma sendAck_spec x :
  alg_ok (self x) -> sendable (localAddr (self x)) (remoteAddr (self x)) = true ->
  sendAck x = Ok tt (x <| self := ack_sent (self x) |> <| out := out x ++ [ack_out (self x)] |>).
Proof.
  intros Ha Hs. unfold sendAck. run_steps.
  rewrite (bind_ok _ _ _ _ _ (sendToIP_ok x _ Hs)). by rewrite ackSent_spec by exact Ha.
Qed.

End Running.
