(* ===== verification/TcpAlgSpec.v ===== *)
(** * What the algorithm classes promise to the connection

    A connection calls its [TCPAlgorithm] from [processAckInEstabEtc], from the
    text and FIN steps and from the SEND command.  [AlgorithmContract] states what
    it relies on: the call returns, keeps the send variables consistent
    ([xmit_ok]), moves only [snd_nxt] and [snd_max] and the algorithm's own
    variables, never takes back what was sent, and sends nothing but segments.
    All four classes satisfy it. *)
From S2P Require Import Prelude SeqNum TcpTypes TcpSendQueue TcpRcvQueue TcpConnection TcpSend TcpAlgorithm TcpSendSpec.

Section Contract.
Context {E : SimEnv} `{!SimEnvLaws}.
Implicit Types (x y : Ctx) (c : TCPConnection).

(** ** The invariant of a sending connection *)

(** The congestion window and threshold are at least one segment. *)
Definition cwnd_ok (c : TCPConnection) : Prop :=
  tcpAlgorithm c <> DumbTCP_class -> snd_mss (state c) <= snd_cwnd (alg c) < 4294967296.
Definition ssthresh_ok (c : TCPConnection) : Prop :=
  snd_mss (state c) <= ssthresh (alg c) < 4294967296.

Record xmit_ok (c : TCPConnection) (Q U N M F : Z) : Prop := {
  xo_repr : snd_repr c Q U N M F;
  xo_queue : Q <= M;
  xo_alg : alg_ok c;
  xo_cwnd : cwnd_ok c;
  xo_ssthresh : ssthresh_ok c;
  xo_mss : 0 < snd_mss (state c) < 65536;
  xo_send : sendable (localAddr c) (remoteAddr c) = true
}.

(** ** What may change *)
Definition erase (c : TCPConnection) : TCPConnection :=
  c <| state := (state c) <| snd_nxt := 0 |> <| snd_max := 0 |> |> <| alg := AlgStateVariables_new |>
    <| rexmitTimer := TimerIdle |> <| delayedAckTimer := TimerIdle |>.

Definition is_segment (o : Output) : Prop :=
  match o with ToIP _ _ _ _ => True | ToApp _ _ => False end.

Record xstep (x x' : Ctx) : Prop := {
  xs_self : erase (self x') = erase (self x);
  xs_tcp : tcp x' = tcp x;
  xs_now : now x' = now x;
  xs_this : this x' = this x;
  xs_out : exists outs, out x' = out x ++ outs /\ Forall is_segment outs
}.

Definition xpost (Q U F M : Z) (x x' : Ctx) : Prop :=
  xstep x x' /\ exists N' M', M <= M' /\ xmit_ok (self x') Q U N' M' F.

Lemma xstep_refl x : xstep x x.
Proof. split; try done. exists []. by rewrite app_nil_r. Qed.

Lemma xstep_trans x y z : xstep x y -> xstep y z -> xstep x z.
Proof.
  intros [H1 H2 H3 H4 (o1 & H5 & H6)] [H1' H2' H3' H4' (o2 & H5' & H6')].
  split; try congruence. exists (o1 ++ o2). rewrite H5', H5, app_assoc. split; [done|].
  by apply Forall_app.
Qed.

Lemma xpost_trans Q U F M M1 x y z :
  xpost Q U F M x y -> M <= M1 -> xpost Q U F M1 y z -> xpost Q U F M x z.
Proof.
  intros [H1 _] HM [H2 (N' & M' & ? & ?)]. split; [by eapply xstep_trans|].
  exists N', M'. split; [lia|done].
Qed.

(** Changes of the algorithm's variables alone. *)
Lemma xmit_ok_erase c c' Q U N M F :
  xmit_ok c Q U N M F -> erase c' = erase c ->
  snd_nxt (state c') = snd_nxt (state c) -> snd_max (state c') = snd_max (state c) ->
  alg_ok c' -> cwnd_ok c' -> ssthresh_ok c' ->
  xmit_ok c' Q U N M F.
Proof.
  intros [[] HQ Ha Hcw Hss Hm Hs] He Hn Hx Ha' Hc' Hss'.
  destruct c as [? ? ? ? ? ? ? [] ? ? ? ? ? ? ? ? ? ? ? ?],
    c' as [? ? ? ? ? ? ? [] ? ? ? ? ? ? ? ? ? ? ? ?].
  cbn in *. injection He as -> -> -> -> -> -> -> -> -> -> -> -> -> -> -> -> -> -> -> -> -> -> -> -> -> -> -> -> -> -> -> -> ->.
  subst. split; [by split|done..].
Qed.

(** The hooks change nothing else. *)
Lemma hooks_frame t0 fromseq c :
  let c' := data_sent t0 fromseq (ack_sent c) in
  erase c' = erase c /\ state c' = state c /\ tcpAlgorithm c' = tcpAlgorithm c /\
  snd_cwnd (alg c') = snd_cwnd (alg c) /\ ssthresh (alg c') = ssthresh (alg c).
Proof.
  destruct c. cbn. unfold data_sent, ack_sent. cbn. destruct tcpAlgorithm; cbn; [done|..];
    unfold rtt_started, rexmit_started; cbn; destruct rexmitTimer; cbn; by case_bool.
Qed.

Lemma ack_sent_frame c :
  erase (ack_sent c) = erase c /\ state (ack_sent c) = state c /\
  alg (ack_sent c) = alg c /\ tcpAlgorithm (ack_sent c) = tcpAlgorithm c.
Proof. unfold ack_sent. by destruct c, tcpAlgorithm. Qed.

(** ** Advancing [snd_nxt] and [snd_max] *)
Lemma xmit_ok_nxt c Q U N M F N' :
  xmit_ok c Q U N M F -> U <= N' <= M -> xmit_ok (with_nxt (u32 N') c) Q U N' M F.
Proof. intros [[] ? ? ? ? ? ?] HN'. split; [by split|done..]. Qed.

Lemma xmit_ok_nxt_max c Q U N M F N' :
  xmit_ok c Q U N M F -> M <= N' ->
  (if send_fin (state c) then N' < F \/ N' = F + 1 else N' <= F) ->
  xmit_ok (with_nxt_max (u32 N') c) Q U N' N' F.
Proof. intros [[] ? ? ? ? ? ?] HN' Hf. split; [split; cbn; done || lia|cbn; done || lia..]. Qed.

Lemma xmit_ok_hooks c Q U N M F t0 fromseq :
  xmit_ok c Q U N M F -> xmit_ok (data_sent t0 fromseq (ack_sent c)) Q U N M F.
Proof.
  intros Hx. destruct (hooks_frame t0 fromseq c) as (He & Hst & Ha & Hc & Hss).
  apply (xmit_ok_erase c); unfold cwnd_ok, ssthresh_ok; rewrite ?Hst, ?Hc, ?Ha, ?Hss; try done.
  - apply alg_ok_data_sent, alg_ok_ack_sent, Hx.
  - apply Hx.
  - apply Hx.
Qed.

Lemma xmit_ok_ack c Q U N M F : xmit_ok c Q U N M F -> xmit_ok (ack_sent c) Q U N M F.
Proof.
  intros Hx. destruct (ack_sent_frame c) as (He & Hst & Ha & Hc).
  apply (xmit_ok_erase c); unfold cwnd_ok, ssthresh_ok; rewrite ?Hst, ?Ha, ?Hc; try done.
  - apply alg_ok_ack_sent, Hx.
  - apply Hx.
  - apply Hx.
Qed.

Lemma data_stream_segments c N sizes outs : data_stream c N sizes outs -> Forall is_segment outs.
Proof.
  revert N outs. induction sizes as [|n sizes IH]; intros N [|o outs]; cbn; try done.
  intros [(seg & _ & _ & ->) Hst]. constructor; [done|by eapply IH].
Qed.

(** The position after a segment that ends at [pos]. *)
Lemma after_spec c Q N F pos :
  can_send c Q N F -> Q <= pos <= F ->
  pos <= after c pos /\
  (if send_fin (state c) then after c pos < F \/ after c pos = F + 1 else after c pos <= F).
Proof.
  intros Hc Hp. unfold after. rewrite (carries_fin_iff c Q N F) by done.
  destruct (send_fin (state c)); cbn; [|lia]. destruct (Z.eqb_spec pos F); lia.
Qed.

(** ** The sending functions *)
Lemma sendData_wp x Q U N M F full cw :
  xmit_ok (self x) Q U N M F ->
  wp (TcpSend.sendData full cw) (fun _ => xpost Q U F M x) x.
Proof.
  intros Hx. pose proof Hx as [HR HQ Ha Hcw Hss Hm Hs]. apply wp_run.
  destruct (may_send full (usable (self x) cw U M F) (snd_mss (state (self x)))) eqn:Em.
  - destruct (sendData_yes x Q U N M F full cw (snd_mss (state (self x)))) as (outs & Hst & Hrun);
      try done; [lia|]. eexists _, _. split; [exact Hrun|].
    set (sizes := segment_sizes _ _) in *. set (N' := after _ _).
    destruct (hooks_frame (now x) (u32 M) (with_nxt_max (u32 N') (self x))) as (He & _).
    split; [split; try done|].
    + exists outs. split; [done|]. by eapply data_stream_segments.
    + apply andb_prop in Em as [Hw%Z.ltb_lt _]. pose proof (snd_repr_max _ _ _ _ _ _ HR) as HMF.
      destruct (segment_sizes_spec (usable (self x) cw U M F) (snd_mss (state (self x)))) as [Ht _];
        [done|lia|]. fold sizes in Ht. unfold usable in Ht at 1. unfold usable in Hw.
      assert (Hc : can_send (with_nxt (u32 M) (self x)) Q M F) by
        (destruct HR; split; cbn; done || lia).
      destruct (after_spec _ Q M F (M + total_size sizes) Hc) as [Hle Hfin]; [lia|].
      change (after (with_nxt _ _) _) with N' in *.
      exists N', N'. split; [lia|]. cbn. apply xmit_ok_hooks, (xmit_ok_nxt_max _ _ _ N M); [done|lia|done].
  - eexists _, _. split; [by apply (sendData_no x Q U N M F _ _ (snd_mss (state (self x)))); [done|done|lia|]|].
    split; [split; try done|].
    + exists []. by rewrite app_nil_r.
    + exists M, M. split; [done|]. apply (xmit_ok_nxt _ _ _ N); [done|]. destruct HR; lia.
Qed.

(** Sequencing under the invariant. *)
Lemma wp_then {A B} (m : Eff Ctx A) (k : A -> Eff Ctx B) Q U F M x :
  wp m (fun _ => xpost Q U F M x) x ->
  (forall a y N' M', xstep x y -> M <= M' -> xmit_ok (self y) Q U N' M' F ->
     wp (k a) (fun _ => xpost Q U F M' y) y) ->
  wp (bind m k) (fun _ => xpost Q U F M x) x.
Proof.
  intros Hm Hk. apply wp_bind. eapply wp_mono; [exact Hm|]. cbn.
  intros a y Hxy. pose proof Hxy as [Hs (N' & M' & HM & Hy)].
  eapply wp_mono; [by apply (Hk a y N' M')|]. cbn. intros b z Hyz. by eapply xpost_trans.
Qed.

Lemma wp_ret_x {A} (a : A) Q U N F M x :
  xmit_ok (self x) Q U N M F -> wp (ret a) (fun _ => xpost Q U F M x) x.
Proof. intros Hx. apply wp_ret. split; [apply xstep_refl|]. by exists N, M. Qed.

(** A step that changes only the algorithm's variables and timers. *)
Lemma xpost_alg Q U N M F x c' :
  xmit_ok (self x) Q U N M F -> erase c' = erase (self x) -> state c' = state (self x) ->
  alg_ok c' -> cwnd_ok c' -> ssthresh_ok c' -> xpost Q U F M x (x <| self := c' |>).
Proof.
  intros Hx He Hst Ha Hc Hss. split.
  - split; try done. exists []. by rewrite app_nil_r.
  - exists N, M. split; [done|]. apply (xmit_ok_erase (self x)); try done; cbn; by rewrite Hst.
Qed.

Lemma set_algvar_wp f Q U N M F x :
  xmit_ok (self x) Q U N M F ->
  let c' := (self x) <| alg := f (alg (self x)) |> in
  alg_ok c' -> cwnd_ok c' -> ssthresh_ok c' ->
  wp (set_algvar f) (fun _ => xpost Q U F M x) x.
Proof. intros Hx c' Ha Hc Hs. by apply (xpost_alg Q U N M F x c'). Qed.

Lemma sendAck_wp Q U N M F x :
  xmit_ok (self x) Q U N M F -> wp sendAck (fun _ => xpost Q U F M x) x.
Proof.
  intros Hx. apply wp_run. eexists _, _. split; [by apply sendAck_spec; apply Hx|].
  destruct (ack_sent_frame (self x)) as (He & _). split; [split; try done|].
  - by exists [ack_out (self x)]; split; [|repeat constructor].
  - exists N, M. split; [done|]. by apply xmit_ok_ack.
Qed.

Lemma retransmitData_wp Q U N M F x :
  xmit_ok (self x) Q U N M F -> Q <= U -> U < M ->
  wp retransmitData (fun _ => xpost Q U F M x) x.
Proof.
  intros Hx HQ HU. apply wp_run.
  destruct (retransmitData_spec x Q U N M F (snd_mss (state (self x))))
    as (sizes & outs & Hst & _ & _ & _ & Hrun); try done; [apply Hx|destruct Hx; lia|apply Hx|].
  eexists _, _. split; [exact Hrun|]. split; [split; try done|].
  - exists outs. split; [done|]. by eapply data_stream_segments.
  - exists M, M. split; [done|]. apply (xmit_ok_nxt _ _ _ N); [done|lia].
Qed.

Lemma retransmitOneSegment_wp Q U N M F x :
  xmit_ok (self x) Q U N M F -> Q <= U -> U < M ->
  U + Z.min (snd_mss (state (self x))) (M - U) <= F ->
  wp retransmitOneSegment (fun _ => xpost Q U F M x) x.
Proof.
  intros Hx HQ HU HF. apply wp_run. pose proof Hx as [HR ? ? ? ? ? ?].
  pose proof (snd_repr_max _ _ _ _ _ _ HR).
  destruct (retransmitOneSegment_ok x Q U N M F (snd_mss (state (self x))))
    as (o & Ho & Hrun); try done; [lia|].
  set (n := Z.min _ (M - U)) in *. set (N' := after _ _) in Hrun.
  eexists _, _. split; [exact Hrun|].
  destruct (ack_sent_frame (with_nxt (u32 N') (self x))) as (He & _). split; [split; try done|].
  - exists [o]. split; [done|]. destruct Ho as (seg & _ & _ & ->). by repeat constructor.
  - exists N', M. split; [done|]. cbn. apply xmit_ok_ack, (xmit_ok_nxt _ _ _ N); [done|].
    pose proof (sr_fin _ _ _ _ _ _ HR) as Hfin.
    assert (Hc : can_send (with_nxt (u32 U) (self x)) Q U F) by (destruct HR; split; cbn; done || lia).
    unfold N', after. pose proof (carries_fin_iff _ Q U F (U + n) Hc ltac:(lia)) as Ec.
    change (carries_fin (with_nxt _ _)) with (carries_fin (self x)) in Ec. rewrite Ec.
    change (send_fin (state (with_nxt _ _))) with (send_fin (state (self x))).
    destruct (send_fin (state (self x))); cbn; [|lia]. destruct (Z.eqb_spec (U + n) F); lia.
Qed.

(** ** TCPBaseAlg *)
Definition rtt_done (t0 : Z) (c : TCPConnection) : TCPConnection :=
  let a := alg c in
  if negb (rtseq_sendtime a =? 0) && seqLess (rtseq a) (snd_una (state c)) then
    let err := t0 - rtseq_sendtime a - srtt a in
    let srtt' := srtt a + simtime_eighth err in
    let rttvar' := rttvar a + simtime_eighth (Z.abs err - rttvar a) in
    c <| alg := a <| srtt := srtt' |> <| rttvar := rttvar' |>
                  <| rexmit_timeout := TCPBaseAlg.clamp_rto (srtt' + 4 * rttvar') |>
                  <| rtseq_sendtime := 0 |> |>
  else c.

Definition rexmit_restarted (t0 : Z) (c : TCPConnection) : TCPConnection :=
  c <| alg := (alg c) <| rexmit_count := 0 |> |>
    <| rexmitTimer := TimerAt (t0 + rexmit_timeout (alg c)) |>.

Definition rexmit_acked (t0 : Z) (c : TCPConnection) : TCPConnection :=
  if snd_una (state c) =? snd_max (state c) then c <| rexmitTimer := TimerIdle |>
  else rexmit_restarted t0 c.

Lemma clamp_rto_bounds t :
  MIN_REXMIT_TIMEOUT <= TCPBaseAlg.clamp_rto t <= MAX_REXMIT_TIMEOUT.
Proof.
  pose proof second_pos. unfold TCPBaseAlg.clamp_rto, MIN_REXMIT_TIMEOUT, MAX_REXMIT_TIMEOUT.
  repeat case_bool; lia.
Qed.

Lemma rtt_done_frame t0 c :
  let c' := rtt_done t0 c in
  erase c' = erase c /\ state c' = state c /\ tcpAlgorithm c' = tcpAlgorithm c /\
  snd_cwnd (alg c') = snd_cwnd (alg c) /\ ssthresh (alg c') = ssthresh (alg c) /\
  rexmitTimer c' = rexmitTimer c /\ (alg_ok c -> alg_ok c').
Proof.
  cbn. unfold rtt_done. case_bool; [|done]. do 6 (split; [done|]).
  intros (? & ? & ?). split; [done|]. split; [|done]. apply clamp_rto_bounds.
Qed.

Lemma rexmit_acked_frame t0 c :
  let c' := rexmit_acked t0 c in
  erase c' = erase c /\ state c' = state c /\ tcpAlgorithm c' = tcpAlgorithm c /\
  snd_cwnd (alg c') = snd_cwnd (alg c) /\ ssthresh (alg c') = ssthresh (alg c) /\
  (alg_ok c -> alg_ok c').
Proof.
  cbn. unfold rexmit_acked, rexmit_restarted. case_bool; (do 5 (split; [done|]));
    intros (? & ? & ?); by (do 2 (split; [done|])).
Qed.

Lemma cancelEvent_spec id x :
  timer_of id (self x) <> TimerNull ->
  cancelEvent id x = Ok tt (x <| self := set_timer id TimerIdle (self x) |>).
Proof.
  intros Ht. unfold cancelEvent. run_steps. by destruct (timer_of id (self x)).
Qed.

(** [cancelEvent(rexmitTimer); startRexmitTimer();] *)
Lemma restart_spec x :
  alg_ok (self x) ->
  (cancelEvent Rexmit ;;; TCPBaseAlg.startRexmitTimer) x =
  Ok tt (x <| self := rexmit_restarted (now x) (self x) |>).
Proof.
  intros (Hr & Ht & _). pose proof second_pos. unfold MIN_REXMIT_TIMEOUT in Ht.
  rewrite (bind_ok _ _ _ _ _ (cancelEvent_spec Rexmit x Hr)).
  unfold TCPBaseAlg.startRexmitTimer. by rewrite startRexmitTimer_spec by (done || cbn; lia).
Qed.

Lemma base_receivedDataAck_spec x seq :
  alg_ok (self x) ->
  TCPBaseAlg.receivedDataAck seq x =
  Ok tt (x <| self := rexmit_acked (now x) (rtt_done (now x) (self x)) |>).
Proof.
  intros Ha. unfold TCPBaseAlg.receivedDataAck. run_steps. unfold id.
  set (m := when _ _).
  assert (Hm : m x = Ok tt (x <| self := rtt_done (now x) (self x) |>)).
  { unfold m, rtt_done, when. case_bool; [done|]. by destruct x. }
  rewrite (bind_ok _ _ _ _ _ Hm). clear m Hm.
  destruct (rtt_done_frame (now x) (self x)) as (_ & Hst & _ & _ & _ & _ & Ha').
  set (y := x <| self := rtt_done (now x) (self x) |>).
  assert (Hy : alg_ok (self y)) by by apply Ha'.
  unfold rexmit_acked. rewrite Hst.
  case_bool; [|by rewrite restart_spec].
  destruct Hy as (Hr & _). unfold isScheduled. rewrite run_bind. run_steps.
  change (timer_of Rexmit (self y)) with (rexmitTimer (self y)).
  destruct (rexmitTimer (self y)) eqn:Er; [done| |].
  - run_steps. cbn [when]. unfold ret, y in *. do 2 f_equal. clear -Er.
    change (rexmitTimer (rtt_done (now x) (self x)) = TimerIdle) in Er.
    destruct (rtt_done (now x) (self x)). cbn in Er. by subst.
  - run_steps. cbn [when]. by rewrite cancelEvent_spec by (cbn [timer_of]; by rewrite Er).
Qed.

Lemma base_receivedDataAck_xpost x Q U N M F :
  xmit_ok (self x) Q U N M F ->
  xpost Q U F M x (x <| self := rexmit_acked (now x) (rtt_done (now x) (self x)) |>).
Proof.
  intros Hx. destruct (rtt_done_frame (now x) (self x)) as (H1 & H2 & H3 & H4 & H5 & _ & H7).
  destruct (rexmit_acked_frame (now x) (rtt_done (now x) (self x))) as (G1 & G2 & G3 & G4 & G5 & G7).
  apply (xpost_alg Q U N M F); try done; try congruence; unfold cwnd_ok, ssthresh_ok.
  - by apply G7, H7, Hx.
  - rewrite G2, G3, G4, H2, H3, H4. apply Hx.
  - rewrite G2, G5, H2, H5. apply Hx.
Qed.

(** ** Congestion control *)
Definition grown_cwnd (c : TCPConnection) : Z :=
  let cwnd := snd_cwnd (alg c) in
  let mss := snd_mss (state c) in
  if cwnd <? ssthresh (alg c) then cwnd + mss else cwnd + Z.max 1 (mss * mss / cwnd).

Definition new_ssthresh (c : TCPConnection) : Z :=
  Z.max (Z.min (snd_cwnd (alg c)) (snd_wnd (state c)) / 2) (2 * snd_mss (state c)).

(** Slow start adds one MSS per ACK, congestion avoidance at most one. *)
Lemma increaseCwnd_spec x :
  0 < snd_mss (state (self x)) < 65536 ->
  snd_mss (state (self x)) <= snd_cwnd (alg (self x)) ->
  snd_cwnd (alg (self x)) + snd_mss (state (self x)) < 4294967296 ->
  TCPTahoeRenoFamily.increaseCwnd x =
    Ok tt (x <| self := (self x) <| alg := (alg (self x)) <| snd_cwnd := grown_cwnd (self x) |> |> |>) /\
  snd_cwnd (alg (self x)) < grown_cwnd (self x) <= snd_cwnd (alg (self x)) + snd_mss (state (self x)).
Proof.
  intros Hm Hc Hroom. unfold TCPTahoeRenoFamily.increaseCwnd, grown_cwnd. run_steps. unfold id.
  set (mss := snd_mss _) in *. set (cwnd := snd_cwnd _) in *.
  destruct (Z.ltb_spec cwnd (ssthresh (alg (self x)))).
  - rewrite set_algvar_eq. cbv beta. fold cwnd.
    rewrite (u32_small (cwnd + mss)) by (unfold is_u32; lia).
    split; [done|lia].
  - rewrite (proj2 (Z.eqb_neq cwnd 0)) by lia. rewrite (u32_small (mss * mss)) by (unfold is_u32; nia).
    assert (Hd : 0 <= mss * mss / cwnd <= mss).
    { split; [apply Z.div_pos; nia|]. apply Z.div_le_upper_bound; nia. }
    rewrite i32_id by lia. set (d := mss * mss / cwnd) in *.
    replace (if d =? 0 then 1 else d) with (Z.max 1 d) by (destruct (Z.eqb_spec d 0); lia).
    rewrite set_algvar_eq. cbv beta. fold cwnd.
    rewrite (u32_small (cwnd + Z.max 1 d)) by (unfold is_u32; lia). split; [done|lia].
Qed.

Lemma recalculate_spec x :
  0 < snd_mss (state (self x)) < 65536 ->
  TCPTahoeRenoFamily.recalculateSlowStartThreshold x =
    Ok tt (x <| self := (self x) <| alg := (alg (self x)) <| ssthresh := new_ssthresh (self x) |> |> |>).
Proof.
  intros Hm. unfold TCPTahoeRenoFamily.recalculateSlowStartThreshold, new_ssthresh. run_steps. unfold id.
  rewrite set_algvar_eq. cbv beta. by rewrite (u32_small (2 * _)) by (unfold is_u32; lia).
Qed.

Lemma new_ssthresh_bounds c :
  0 < snd_mss (state c) < 65536 -> snd_cwnd (alg c) < 4294967296 ->
  2 * snd_mss (state c) <= new_ssthresh c < 2147483648.
Proof.
  intros Hm Hc. unfold new_ssthresh. split; [lia|].
  assert (Z.min (snd_cwnd (alg c)) (snd_wnd (state c)) / 2 < 2147483648);
    [apply Z.div_lt_upper_bound; lia|lia].
Qed.

Lemma increaseCwnd_wp Q U N M F x :
  xmit_ok (self x) Q U N M F -> tcpAlgorithm (self x) <> DumbTCP_class ->
  snd_cwnd (alg (self x)) + snd_mss (state (self x)) < 4294967296 ->
  wp TCPTahoeRenoFamily.increaseCwnd (fun _ => xpost Q U F M x) x.
Proof.
  intros Hx Hd Hroom. pose proof (xo_cwnd _ _ _ _ _ _ Hx Hd) as Hcw. pose proof (xo_mss _ _ _ _ _ _ Hx).
  destruct (increaseCwnd_spec x) as [Hrun Hb]; [lia..|].
  apply wp_run. eexists _, _. split; [exact Hrun|].
  apply (xpost_alg Q U N M F); try done; try apply Hx. intros _. cbn -[grown_cwnd]. lia.
Qed.

Lemma recalculate_wp Q U N M F x :
  xmit_ok (self x) Q U N M F -> tcpAlgorithm (self x) <> DumbTCP_class ->
  wp TCPTahoeRenoFamily.recalculateSlowStartThreshold (fun _ => xpost Q U F M x) x.
Proof.
  intros Hx Hd. pose proof (xo_cwnd _ _ _ _ _ _ Hx Hd) as Hcw. pose proof (xo_mss _ _ _ _ _ _ Hx) as Hm.
  apply wp_run. eexists _, _. split; [by apply recalculate_spec|].
  apply (xpost_alg Q U N M F); try done; try apply Hx. unfold ssthresh_ok. cbn -[new_ssthresh].
  destruct (new_ssthresh_bounds (self x) Hm); lia.
Qed.

Lemma baseSendData_wp Q U N M F x :
  xmit_ok (self x) Q U N M F -> wp TCPBaseAlg.sendData (fun _ => xpost Q U F M x) x.
Proof. intros Hx. exact (sendData_wp x Q U N M F _ _ Hx). Qed.

Lemma ignore_wp {A} (m : Eff Ctx A) Q U F M x :
  wp m (fun _ => xpost Q U F M x) x -> wp (ignore m) (fun _ => xpost Q U F M x) x.
Proof. intros Hm. apply wp_bind. eapply wp_mono; [exact Hm|]. done. Qed.

(** What the steps leave alone. *)
Lemma xstep_fields x y :
  xstep x y ->
  tcpAlgorithm (self y) = tcpAlgorithm (self x) /\
  snd_mss (state (self y)) = snd_mss (state (self x)) /\
  dupacks (state (self y)) = dupacks (state (self x)).
Proof.
  intros [He _ _ _ _].
  split; [exact (f_equal tcpAlgorithm He)|].
  split; [exact (f_equal (fun c => snd_mss (state c)) He)|exact (f_equal (fun c => dupacks (state c)) He)].
Qed.

(** ** The contract *)
Definition cwnd_room (c : TCPConnection) : Prop :=
  snd_cwnd (alg c) + snd_mss (state c) < 4294967296.

Class AlgorithmContract (a : AlgorithmClass) : Prop := {
  ac_sendCommand : forall x Q U N M F,
    tcpAlgorithm (self x) = a -> xmit_ok (self x) Q U N M F ->
    wp (sendCommandInvoked (algorithm a)) (fun _ => xpost Q U F M x) x;
  ac_outOfOrder : forall x Q U N M F,
    tcpAlgorithm (self x) = a -> xmit_ok (self x) Q U N M F ->
    wp (receivedOutOfOrderSegment (algorithm a)) (fun _ => xpost Q U F M x) x;
  ac_seqChanged : forall x Q U N M F,
    tcpAlgorithm (self x) = a -> xmit_ok (self x) Q U N M F ->
    wp (receiveSeqChanged (algorithm a)) (fun _ => xpost Q U F M x) x;
  ac_notYetSent : forall x Q U N M F seq,
    tcpAlgorithm (self x) = a -> xmit_ok (self x) Q U N M F ->
    wp (receivedAckForDataNotYetSent (algorithm a) seq) (fun _ => xpost Q U F M x) x;
  ac_dataAck : forall x Q U N M F seq,
    tcpAlgorithm (self x) = a -> xmit_ok (self x) Q U N M F -> cwnd_room (self x) ->
    wp (receivedDataAck (algorithm a) seq) (fun _ => xpost Q U F M x) x;
  ac_dupAck : forall x Q U N M F,
    tcpAlgorithm (self x) = a -> xmit_ok (self x) Q U N M F -> Q <= U < M -> cwnd_room (self x) ->
    (dupacks (state (self x)) = 3 -> U + Z.min (snd_mss (state (self x))) (M - U) <= F) ->
    wp (receivedDuplicateAck (algorithm a)) (fun _ => xpost Q U F M x) x
}.

Lemma base_seqChanged_wp Q U N M F x :
  xmit_ok (self x) Q U N M F -> tcpAlgorithm (self x) <> DumbTCP_class ->
  wp TCPBaseAlg.receiveSeqChanged (fun _ => xpost Q U F M x) x.
Proof.
  intros Hx Hd. pose proof Hx as [? ? (Hr & Ht & Hda) ? ? ? ?]. destruct (Hda Hd) as (Hdk & _).
  unfold wp, TCPBaseAlg.receiveSeqChanged. run_steps. destruct (negb _).
  { exact (sendAck_wp Q U N M F x Hx). }
  unfold isScheduled. rewrite run_bind. run_steps.
  change (timer_of DelayedAck (self x)) with (delayedAckTimer (self x)).
  destruct (delayedAckTimer (self x)) eqn:Ed; [done| |].
  - run_steps. cbn [negb when]. unfold scheduleTimeout. run_steps.
    change (timer_of DelayedAck (self x)) with (delayedAckTimer (self x)). rewrite Ed.
    rewrite (proj2 (Z.ltb_ge _ 0)) by
      (unfold DELAYED_ACK_TIMEOUT; apply Z.div_pos; pose proof second_pos; lia).
    run_steps. rewrite set_conn_eq. apply (xpost_alg Q U N M F); try done; try apply Hx.
    by do 2 (split; [done|]); intros _; destruct (Hda Hd) as (_ & ? & ?).
  - run_steps. cbn. split; [apply xstep_refl|by exists N, M].
Qed.

Lemma base_dataAck_then_wp Q U N M F x seq (k : Eff Ctx unit) :
  xmit_ok (self x) Q U N M F ->
  (forall y, xstep x y -> xmit_ok (self y) Q U N M F ->
     snd_cwnd (alg (self y)) = snd_cwnd (alg (self x)) ->
     wp k (fun _ => xpost Q U F M y) y) ->
  wp (TCPBaseAlg.receivedDataAck seq ;;; k) (fun _ => xpost Q U F M x) x.
Proof.
  intros Hx Hk. apply wp_bind. apply wp_run. eexists _, _.
  split; [apply base_receivedDataAck_spec, Hx|]. set (y := x <| self := _ |>).
  pose proof (base_receivedDataAck_xpost x Q U N M F Hx) as Hxy. fold y in Hxy.
  destruct (rtt_done_frame (now x) (self x)) as (_ & H2 & _ & H4 & _).
  destruct (rexmit_acked_frame (now x) (rtt_done (now x) (self x))) as (_ & G2 & _ & G4 & _).
  assert (Hy : xmit_ok (self y) Q U N M F).
  { pose proof Hxy as [Hs (N' & M' & _ & [? ? ? ? ? ? ?])].
    apply (xmit_ok_erase (self x)); try done; cbn.
    - apply Hs.
    - by rewrite G2, H2.
    - by rewrite G2, H2. }
  eapply wp_mono; [apply (Hk y); [apply Hxy|done|cbn; congruence]|].
  cbn. intros _ z Hyz. by eapply xpost_trans.
Qed.

(** Fast retransmit: the part Tahoe and Reno share. *)
Lemma restart_wp Q U N M F x :
  xmit_ok (self x) Q U N M F ->
  wp (cancelEvent Rexmit ;;; TCPBaseAlg.startRexmitTimer ;;;
      set_algvar (fun a => a <| rtseq_sendtime := 0 |>)) (fun _ => xpost Q U F M x) x.
Proof.
  intros Hx. pose proof Hx as [? ? Ha ? ? ? ?]. apply wp_run. eexists _, _. split.
  - rewrite <- (run_bind (cancelEvent Rexmit) (fun _ => TCPBaseAlg.startRexmitTimer)).
    rewrite (bind_ok _ _ _ _ _ (restart_spec x Ha)). apply set_algvar_eq.
  - apply (xpost_alg Q U N M F x (_ <| alg := _ |>)); try done.
    destruct Ha as (? & ? & Hd). by split.
Qed.

(** ** The classes satisfy the contract *)
#[export] Instance DumbTCP_contract : AlgorithmContract DumbTCP_class.
Proof.
  split; intros x Q U N M F; [intros Ha Hx..|intros seq Ha Hx|intros seq Ha Hx Hroom|intros Ha Hx HU Hroom Hfin];
    cbn [algorithm DumbTCP.ops sendCommandInvoked receivedOutOfOrderSegment
         receiveSeqChanged receivedAckForDataNotYetSent receivedDataAck receivedDuplicateAck].
  - by apply ignore_wp, (sendData_wp x Q U N).
  - by apply (sendAck_wp Q U N).
  - by apply (sendAck_wp Q U N).
  - by apply (sendAck_wp Q U N).
  - by apply ignore_wp, (sendData_wp x Q U N).
  - by apply (wp_ret_x tt Q U N).
Qed.

#[export] Instance NoCongestionControl_contract : AlgorithmContract TCPNoCongestionControl_class.
Proof.
  split; intros x Q U N M F; [intros Ha Hx..|intros seq Ha Hx|intros seq Ha Hx Hroom|intros Ha Hx HU Hroom Hfin];
    cbn [algorithm TCPNoCongestionControl.ops sendCommandInvoked receivedOutOfOrderSegment
         receiveSeqChanged receivedAckForDataNotYetSent receivedDataAck receivedDuplicateAck].
  - apply ignore_wp, (baseSendData_wp Q U N); done.
  - by apply (sendAck_wp Q U N).
  - apply (base_seqChanged_wp Q U N); [done|by rewrite Ha].
  - by apply (sendAck_wp Q U N).
  - apply (base_dataAck_then_wp Q U N); [done|]. intros y _ Hy _. by apply ignore_wp, (baseSendData_wp Q U N).
  - by apply (wp_ret_x tt Q U N).
Qed.

#[export] Instance Tahoe_contract : AlgorithmContract TCPTahoe_class.
Proof.
  split; intros x Q U N M F; [intros Ha Hx..|intros seq Ha Hx|intros seq Ha Hx Hroom|intros Ha Hx HU Hroom Hfin];
    cbn [algorithm TCPTahoe.ops sendCommandInvoked receivedOutOfOrderSegment
         receiveSeqChanged receivedAckForDataNotYetSent receivedDataAck receivedDuplicateAck].
  - apply ignore_wp, (baseSendData_wp Q U N); done.
  - by apply (sendAck_wp Q U N).
  - apply (base_seqChanged_wp Q U N); [done|by rewrite Ha].
  - by apply (sendAck_wp Q U N).
  - apply (base_dataAck_then_wp Q U N); [done|]. intros y Hxy Hy Hc.
    destruct (xstep_fields x y Hxy) as (Hay & Hmy & _).
    apply wp_then.
    + apply (increaseCwnd_wp Q U N); [done|by rewrite Hay, Ha|]. unfold cwnd_room in Hroom. by rewrite Hc, Hmy.
    + intros _ z N' M' _ _ Hz. by apply ignore_wp, (baseSendData_wp Q U N').
  - unfold TCPTahoe.receivedDuplicateAck, TCPBaseAlg.receivedDuplicateAck, wp. run_steps.
    destruct (Z.eqb_spec (dupacks (state (self x))) 3) as [E3|]; [|by apply (wp_ret_x tt Q U N)].
    cbn [when]. apply wp_then.
    { apply (retransmitOneSegment_wp Q U N); [done|lia|lia|]. by apply Hfin. }
    intros _ y N1 M1 Hxy _ Hy. destruct (xstep_fields x y Hxy) as (Hay & _).
    apply wp_then. { apply (recalculate_wp Q U N1); [done|by rewrite Hay, Ha]. }
    intros _ z N2 M2 Hyz _ Hz. destruct (xstep_fields y z Hyz) as (Haz & _). apply wp_then.
    + unfold wp. run_steps. apply (set_algvar_wp _ Q U N2); [done|apply Hz| |apply Hz].
      intros _. cbn. destruct (xo_mss _ _ _ _ _ _ Hz). lia.
    + intros _ w N3 M3 _ _ Hw. by apply (restart_wp Q U N3).
Qed.

#[export] Instance Reno_contract : AlgorithmContract TCPReno_class.
Proof.
  split; intros x Q U N M F; [intros Ha Hx..|intros seq Ha Hx|intros seq Ha Hx Hroom|intros Ha Hx HU Hroom Hfin];
    cbn [algorithm TCPReno.ops sendCommandInvoked receivedOutOfOrderSegment
         receiveSeqChanged receivedAckForDataNotYetSent receivedDataAck receivedDuplicateAck].
  - apply ignore_wp, (baseSendData_wp Q U N); done.
  - by apply (sendAck_wp Q U N).
  - apply (base_seqChanged_wp Q U N); [done|by rewrite Ha].
  - by apply (sendAck_wp Q U N).
  - apply (base_dataAck_then_wp Q U N); [done|]. intros y Hxy Hy Hc.
    destruct (xstep_fields x y Hxy) as (Hay & Hmy & _). unfold wp. run_steps.
    apply wp_then.
    + case_bool.
      * apply (set_algvar_wp _ Q U N); [done|apply Hy|intros _; apply Hy|apply Hy].
      * apply (increaseCwnd_wp Q U N); [done|by rewrite Hay, Ha|]. unfold cwnd_room in Hroom. by rewrite Hc, Hmy.
    + intros _ z N' M' _ _ Hz. by apply ignore_wp, (baseSendData_wp Q U N').
  - unfold TCPReno.receivedDuplicateAck, TCPBaseAlg.receivedDuplicateAck, wp. run_steps.
    destruct (Z.eqb_spec (dupacks (state (self x))) 3) as [E3|].
    + apply wp_then.
      { apply (retransmitOneSegment_wp Q U N); [done|lia|lia|]. by apply Hfin. }
      intros _ y N1 M1 Hxy _ Hy. destruct (xstep_fields x y Hxy) as (Hay & Hmy & _).
      apply wp_bind, wp_run. eexists _, _. split; [apply recalculate_spec, Hy|].
      set (z := y <| self := _ |>).
      assert (Hcw : cwnd_ok (self y)) by apply Hy.
      destruct (new_ssthresh_bounds (self y)) as [Hlo Hhi];
        [apply Hy|by apply Hcw; rewrite Hay, Ha|].
      assert (Hz : xpost Q U F M1 y z).
      { apply (xpost_alg Q U N1 M1 F); try done; try apply Hy. unfold ssthresh_ok. cbn -[new_ssthresh].
        destruct (xo_mss _ _ _ _ _ _ Hy). lia. }
      destruct Hz as [Hyz (N2 & M2 & HM2 & Hz)].
      apply (wp_mono _ (fun _ => xpost Q U F M2 z)); [|intros _ w Hw; eapply xpost_trans;
        [split; [exact Hyz|by exists N2, M2]|exact HM2|exact Hw]].
      apply wp_then; [|intros _ w N3 M3 _ _ Hw; by apply (restart_wp Q U N3)].
      apply (set_algvar_wp _ Q U N2); [done|apply Hz| |apply Hz].
      intros _. cbn -[new_ssthresh u32]. rewrite <- Hmy. destruct (xo_mss _ _ _ _ _ _ Hy).
      rewrite u32_small by (unfold is_u32; lia). lia.
    + destruct (Z.ltb_spec 3 (dupacks (state (self x)))); [|by apply (wp_ret_x tt Q U N)].
      cbn [when]. apply wp_then; [|intros _ w N3 M3 _ _ Hw; by apply ignore_wp, (baseSendData_wp Q U N3)].
      apply (set_algvar_wp _ Q U N); [done|apply Hx| |apply Hx]. intros _. cbn -[u32].
      unfold cwnd_room in Hroom. assert (Hcw : cwnd_ok (self x)) by apply Hx. unfold cwnd_ok in Hcw.
      rewrite Ha in Hcw. destruct (xo_mss _ _ _ _ _ _ Hx), Hcw; [done|].
      rewrite u32_small by (unfold is_u32; lia). lia.
Qed.

Lemma every_algorithm_ok a : AlgorithmContract a.
Proof. destruct a; apply _. Qed.
End Contract.
