(* ===== verification/TcpAckSpec.v ===== *)
(** * Acknowledgment processing

    [processAckInEstabEtc] against RFC 793, for every algorithm class: the three
    cases of the if-ladder over stream positions. *)
From S2P Require Import Prelude SeqNum TcpTypes TcpSendQueue TcpRcvQueue TcpConnection TcpSend TcpAlgorithm TcpSendSpec TcpAlgSpec TcpReceive.

Section Ack.
Context {E : SimEnv} `{!SimEnvLaws}.
Implicit Types (x y : Ctx) (c : TCPConnection) (seg : TCPSegment).

(** ** What an ACK in the window changes before the algorithm is called *)
Definition wnd_newer seg (s : TCPStateVariables) : bool :=
  seqLess (snd_wl1 s) (sequenceNo seg) ||
  ((snd_wl1 s =? sequenceNo seg) && seqLE (snd_wl2 s) (ackNo seg)).

Definition fin_acked seg (s : TCPStateVariables) : bool :=
  send_fin s && (ackNo seg =? u32 (snd_fin_seq s + 1)).

Definition ack_vars seg (s : TCPStateVariables) : TCPStateVariables :=
  let s1 := s <| snd_una := ackNo seg |>
              <| snd_nxt := if seqLess (snd_nxt s) (ackNo seg) then ackNo seg else snd_nxt s |>
              <| fin_ack_rcvd := fin_ack_rcvd s || fin_acked seg s |> in
  if wnd_newer seg s then
    s1 <| snd_wnd := u32 (window seg) |> <| snd_wl1 := sequenceNo seg |> <| snd_wl2 := ackNo seg |>
  else s1.

Definition acked seg (q : AnySendQueue) (c : TCPConnection) : TCPConnection :=
  c <| state := ack_vars seg (state c) |> <| sendQueue := q |>.

(** First position still in the send queue: the FIN is not in it. *)
Definition discard_pos (A F : Z) : Z := Z.min A F.

Lemma fin_acked_iff c seg Q U N M F A :
  snd_repr c Q U N M F -> U < A <= M -> ackNo seg = u32 A ->
  fin_acked seg (state c) = (A =? F + 1).
Proof.
  intros HR HA Hseg. pose proof (snd_repr_max _ _ _ _ _ _ HR). pose proof HR as [Huna Hnxt Hmax Hbeg Hend Hord Hque Hhalf Huq Hfin Hfs]. unfold fin_acked.
  rewrite Hseg. destruct (send_fin (state c)) eqn:Es; cbn -[u32]; [|lia].
  rewrite Hfs, u32_add_l by done. unfold u32. lia.
Qed.

Lemma ack_vars_fields seg s :
  let s' := ack_vars seg s in
  snd_una s' = ackNo seg /\
  snd_nxt s' = (if seqLess (snd_nxt s) (ackNo seg) then ackNo seg else snd_nxt s) /\
  snd_max s' = snd_max s /\ send_fin s' = send_fin s /\ snd_fin_seq s' = snd_fin_seq s /\
  snd_mss s' = snd_mss s /\ fin_ack_rcvd s' = fin_ack_rcvd s || fin_acked seg s.
Proof. cbn zeta. unfold ack_vars. by case_bool. Qed.

(** Before the call of [receivedDataAck]. *)
Lemma ack_bookkeeping x seg Q U N M F A :
  xmit_ok (self x) Q U N M F -> U < A <= M -> ackNo seg = u32 A ->
  exists q, xmit_ok (acked seg q (self x)) (discard_pos A F) A (Z.max N A) M F /\
    ackInWindow seg x =
      (alg_call (fun a => receivedDataAck a (snd_una (state (self x)))) ;;;
       set_var (fun s => s <| dupacks := 0 |>)) (x <| self := acked seg q (self x) |>).
Proof.
  intros Hx HA Hseg. pose proof Hx as [HR HQ ? ? ? ? ?].
  pose proof (snd_repr_max _ _ _ _ _ _ HR) as HMF.
  pose proof (fin_acked_iff _ _ _ _ _ _ _ _ HR HA Hseg) as Hfa. pose proof HR as [Huna Hnxt Hmax Hbeg Hend Hord Hque Hhalf Huq Hfin Hfs].
  assert (HnA : seqLess (u32 N) (u32 A) = (N <? A)) by (apply seqLess_u32; unfold comparable; lia).
  destruct (sq_discard_law (u32 (discard_pos A F)) (sendQueue (self x))) as (q & Hq & Hqb & Hqe).
  { rewrite Hbeg, seqLE_u32 by (unfold comparable, discard_pos; lia). unfold discard_pos; lia. }
  { rewrite Hend, seqLE_u32 by (unfold comparable, discard_pos; lia). unfold discard_pos; lia. }
  assert (Hfa' : (if fin_acked seg (state (self x)) then u32 (ackNo seg - 1) else ackNo seg)
                 = u32 (discard_pos A F)).
  { rewrite Hfa, Hseg, u32_sub_l. unfold discard_pos. destruct (Z.eqb_spec A (F + 1)); f_equal; lia. }
  exists q. split.
  - destruct (ack_vars_fields seg (state (self x))) as (G1 & G2 & G3 & G4 & G5 & G6 & _).
    destruct Hx as [_ _ Hx3 Hx4 Hx5 Hx6 Hx7].
    split; unfold acked, cwnd_ok, ssthresh_ok; cbn -[ack_vars discard_pos]; rewrite ?G6; try done.
    + change (state (acked seg q (self x))) with (ack_vars seg (state (self x))).
      split; try change (state (_ <| sendQueue := q |>)) with (ack_vars seg (state (self x)));
        rewrite ?G1, ?G2, ?G3, ?G4, ?G5;
        first [exact Hqb|exact (eq_trans Hqe Hend)|done|unfold discard_pos; lia|idtac].
      rewrite Hseg, Hnxt, HnA. destruct (Z.ltb_spec N A); f_equal; lia.
    + unfold discard_pos; lia.
  - rewrite <- Hfa' in Hq. clear -Hq. unfold ackInWindow. run_steps. unfold id.
    unfold acked, ack_vars. fold (fin_acked seg (state (self x))).
    destruct x as [p [g ci la ra lp rp st [] al sq rq a t1 t2 t3 t4 t5 t6 t7 t8] t t0 o].
    unfold fin_acked, wnd_newer in *. cbn -[u32 alg_call on_sendQueue] in *.
    destruct (seqLess snd_nxt (ackNo seg)); cbn -[u32 alg_call on_sendQueue];
      destruct (send_fin && (ackNo seg =? u32 (snd_fin_seq + 1))); run_steps;
      (erewrite bind_ok; [|apply on_sendQueue_ok; exact Hq]);
      destruct (seqLess snd_wl1 (sequenceNo seg) || _); run_steps;
      rewrite ?orb_true_r, ?orb_false_r; done.
Qed.

(** ** The three cases

    [A] is the position acknowledged by the segment. *)
Lemma alg_call_ok {A} (m : TCPAlgorithm -> Eff Ctx A) x :
  alg_call m x = m (algorithm (tcpAlgorithm (self x))) x.
Proof. done. Qed.

Definition reset_dupacks (c : TCPConnection) : TCPConnection :=
  c <| state := (state c) <| dupacks := 0 |> |>.

Lemma xmit_ok_dupacks c Q U N M F d :
  xmit_ok c Q U N M F -> xmit_ok (c <| state := (state c) <| dupacks := d |> |>) Q U N M F.
Proof. intros [[] ? ? ? ? ? ?]. split; [by split|done..]. Qed.

Lemma ack_in_window_spec x seg Q U N M F A :
  xmit_ok (self x) Q U N M F -> cwnd_room (self x) ->
  U < A <= M -> ackNo seg = u32 A ->
  exists q x1 N' M', processAckInEstabEtc seg x = Ok true (x1 <| self := reset_dupacks (self x1) |>) /\
    xstep (x <| self := acked seg q (self x) |>) x1 /\ M <= M' /\
    xmit_ok (self x1) (discard_pos A F) A N' M' F.
Proof.
  intros Hx Hroom HA Hseg. pose proof Hx as [HR _ _ _ _ _ _].
  pose proof (snd_repr_max _ _ _ _ _ _ HR) as HMF.
  pose proof HR as [Huna Hnxt Hmax Hbeg Hend Hord Hque Hhalf Huq Hfin Hfs].
  destruct (ack_bookkeeping x seg Q U N M F A) as (q & Hy & Hrun); try done.
  set (y := x <| self := acked seg q (self x) |>) in *.
  assert (Hroom' : cwnd_room (self y)).
  { unfold cwnd_room in *. destruct (ack_vars_fields seg (state (self x))) as (_ & _ & _ & _ & _ & G6 & _).
    change (alg (self y)) with (alg (self x)). change (state (self y)) with (ack_vars seg (state (self x))).
    by rewrite G6. }
  destruct (every_algorithm_ok (tcpAlgorithm (self y))) as [_ _ _ _ Hda _].
  specialize (Hda y _ _ _ _ _ (snd_una (state (self x))) eq_refl Hy Hroom').
  apply wp_run in Hda as ([] & x1 & Hda & Hst & N' & M' & HM & Hx1).
  exists q, x1, N', M'. split; [|done].
  unfold processAckInEstabEtc. run_steps. unfold id. rewrite Huna, Hmax, Hseg.
  rewrite seqGE_u32, seqLE_u32 by (unfold comparable; lia).
  rewrite (proj2 (Z.leb_gt A U)), (proj2 (Z.leb_le A M)) by lia.
  erewrite bind_ok; [|etransitivity; [exact Hrun|erewrite bind_ok; [|exact Hda]; apply set_var_eq]].
  done.
Qed.

Definition is_dupack seg (s : TCPStateVariables) : bool :=
  (snd_una s =? ackNo seg) && (payloadLength seg =? 0) && negb (snd_una s =? snd_max s).

Definition count_dupack (c : TCPConnection) : TCPConnection :=
  c <| state := (state c) <| dupacks := i16 (dupacks (state c) + 1) |> |>.

Lemma old_ack_spec x seg Q U N M F A :
  xmit_ok (self x) Q U N M F -> A <= U -> U - A < 2147483648 -> ackNo seg = u32 A ->
  is_dupack seg (state (self x)) = false ->
  processAckInEstabEtc seg x = Ok true (x <| self := reset_dupacks (self x) |>).
Proof.
  intros [HR _ _ _ _ _ _] HA HA2 Hseg Hd.
  pose proof HR as [Huna Hnxt Hmax Hbeg Hend Hord Hque Hhalf Huq Hfin Hfs].
  unfold processAckInEstabEtc. run_steps. unfold id. unfold is_dupack in Hd. rewrite Hd, Huna, Hseg.
  rewrite seqGE_u32, (proj2 (Z.leb_le A U)) by (done || unfold comparable; lia). done.
Qed.

(** a duplicate ACK (same ACK number, no payload, data outstanding) is
    counted and handed to the algorithm class, which keeps the sending side
    consistent. *)
Theorem dup_ack_spec x seg Q U N M F :
  xmit_ok (self x) Q U N M F -> Q <= U < M -> cwnd_room (self x) ->
  ackNo seg = u32 U -> payloadLength seg = 0 ->
  (i16 (dupacks (state (self x)) + 1) = 3 -> U + Z.min (snd_mss (state (self x))) (M - U) <= F) ->
  exists x1 N' M', processAckInEstabEtc seg x = Ok true x1 /\
    xstep (x <| self := count_dupack (self x) |>) x1 /\ M <= M' /\
    xmit_ok (self x1) Q U N' M' F.
Proof.
  intros Hx HQ Hroom Hseg Hpl H3. pose proof Hx as [HR _ _ _ _ _ _].
  pose proof (snd_repr_max _ _ _ _ _ _ HR) as HMF.
  pose proof HR as [Huna Hnxt Hmax Hbeg Hend Hord Hque Hhalf Huq Hfin Hfs].
  set (y := x <| self := count_dupack (self x) |>).
  assert (Hy : xmit_ok (self y) Q U N M F) by by apply xmit_ok_dupacks.
  destruct (every_algorithm_ok (tcpAlgorithm (self y))) as [_ _ _ _ _ Hda].
  specialize (Hda y _ _ _ _ _ eq_refl Hy HQ Hroom H3).
  apply wp_run in Hda as ([] & x1 & Hda & Hst & N' & M' & HM & Hx1).
  exists x1, N', M'. split; [|done].
  unfold processAckInEstabEtc. run_steps. unfold id. rewrite Huna, Hmax, Hseg, Hpl, !Z.eqb_refl.
  rewrite seqGE_u32, Z.leb_refl by (unfold comparable; lia).
  rewrite (proj2 (Z.eqb_neq (u32 U) (u32 M))) by (unfold u32; lia). cbn [andb negb]. run_steps.
  erewrite bind_ok; [|rewrite alg_call_ok; exact Hda]. done.
Qed.

Lemma ack_beyond_spec x seg Q U N M F A :
  xmit_ok (self x) Q U N M F -> M < A -> A - U < 2147483648 -> ackNo seg = u32 A ->
  exists x1 N', processAckInEstabEtc seg x = Ok false (x1 <| self := reset_dupacks (self x1) |>) /\
    xstep x x1 /\ exists M', M <= M' /\ xmit_ok (self x1) Q U N' M' F.
Proof.
  intros Hx HA HA2 Hseg. pose proof Hx as [HR _ _ _ _ _ _].
  pose proof HR as [Huna Hnxt Hmax Hbeg Hend Hord Hque Hhalf Huq Hfin Hfs].
  destruct (every_algorithm_ok (tcpAlgorithm (self x))) as [_ _ _ Hda _ _].
  specialize (Hda x _ _ _ _ _ (u32 A) eq_refl Hx).
  apply wp_run in Hda as ([] & x1 & Hda & Hst & N' & M' & HM & Hx1).
  exists x1, N'. split; [|split; [done|by exists M']].
  unfold processAckInEstabEtc. run_steps. unfold id. rewrite Huna, Hmax, Hseg.
  rewrite seqGE_u32, seqLE_u32, seqGreater_u32 by (unfold comparable; lia).
  rewrite (proj2 (Z.leb_gt A U)), (proj2 (Z.leb_gt A M)), (proj2 (Z.ltb_lt M A)) by lia. run_steps.
  erewrite bind_ok; [|rewrite alg_call_ok; exact Hda]. done.
Qed.
End Ack.
