(* ===== verification/TcpFsmSpec.v ===== *)
(** * The state machine makes progress and cleans up

    Every transition but the return of a passive connection to LISTEN moves
    forward along the life of a connection; entering CLOSED leaves no timer
    running. *)
From S2P Require Import Prelude SeqNum TcpTypes TcpSendQueue TcpRcvQueue TcpConnection TcpSend TcpAlgorithm TcpFsm TcpSendSpec TcpAlgSpec.

(** ** Progress *)
Definition life (s : TcpState) : Z :=
  match s with
  | TCP_S_INIT => 0
  | TCP_S_LISTEN => 1
  | TCP_S_SYN_SENT => 2
  | TCP_S_SYN_RCVD => 3
  | TCP_S_ESTABLISHED => 4
  | TCP_S_CLOSE_WAIT => 5
  | TCP_S_FIN_WAIT_1 => 5
  | TCP_S_LAST_ACK => 6
  | TCP_S_FIN_WAIT_2 => 6
  | TCP_S_CLOSING => 6
  | TCP_S_TIME_WAIT => 7
  | TCP_S_CLOSED => 8
  end.

Lemma fsm_next_progress a s e :
  fsm_next a s e = s \/ life s < life (fsm_next a s e) \/
  (s = TCP_S_SYN_RCVD /\ a = false /\ fsm_next a s e = TCP_S_LISTEN /\
   (e = TCP_E_RCV_RST \/ e = TCP_E_TIMEOUT_CONN_ESTAB)).
Proof. destruct s, e; cbn; try (by left); try (right; left; lia); destruct a; cbn; by (right; left; lia) || auto 10. Qed.

(** The events in turn. *)
Fixpoint fsm_run (a : bool) (s : TcpState) (es : list TCPEventCode) : TcpState :=
  match es with [] => s | e :: es => fsm_run a (fsm_next a s e) es end.

(** The states passed through, the repetitions left out. *)
Fixpoint fsm_changes (a : bool) (s : TcpState) (es : list TCPEventCode) : list TcpState :=
  match es with
  | [] => []
  | e :: es =>
      let s' := fsm_next a s e in
      if state_eqb s' s then fsm_changes a s es else s' :: fsm_changes a s' es
  end.

Lemma state_eqb_neq s s' : state_eqb s s' = false <-> s <> s'.
Proof. unfold state_eqb. by rewrite bool_decide_eq_false. Qed.

(** the life of an actively opened connection is finite: whatever events
    happen, its state changes at most [8 - life s] times, where [life] counts from
    INIT to CLOSED. *)
Theorem fsm_changes_bound s es :
  Z.of_nat (length (fsm_changes true s es)) <= life TCP_S_CLOSED - life s.
Proof.
  revert s. induction es as [|e es IH]; intros s; cbn [fsm_changes length].
  { destruct s; cbn; lia. }
  destruct (state_eqb (fsm_next true s e) s) eqn:Es; [apply IH|].
  apply state_eqb_neq in Es. destruct (fsm_next_progress true s e) as [?|[Hl|(_ & ? & _)]]; [done| |done].
  specialize (IH (fsm_next true s e)). cbn [length]. lia.
Qed.

(** ** Entering CLOSED *)
Section Closed.
Context {E : SimEnv}.
Implicit Types (x : Ctx) (c : TCPConnection).

Definition scheduled (t : Timer) : bool := match t with TimerAt _ => true | _ => false end.

(** The timers the algorithm object has created. *)
Definition alg_timers_ok (c : TCPConnection) : Prop :=
  rexmitTimer c <> TimerNull /\
  match tcpAlgorithm c with
  | DumbTCP_class =>
      persistTimer c = TimerNull /\ delayedAckTimer c = TimerNull /\ keepAliveTimer c = TimerNull
  | _ => persistTimer c <> TimerNull /\ delayedAckTimer c <> TimerNull /\ keepAliveTimer c <> TimerNull
  end.

Definition cancelled (t : Timer) : Timer := match t with TimerNull => TimerNull | _ => TimerIdle end.

Lemma cancelIfExists_spec id x :
  cancelIfExists id x = Ok tt (x <| self := set_timer id (cancelled (timer_of id (self x))) (self x) |>).
Proof.
  unfold cancelIfExists, cancelEvent. run_steps. destruct x as [p c t t0 o]. cbn [self].
  destruct (timer_of id c) eqn:Et; run_steps; cbn [self]; rewrite ?Et; try done.
  destruct id, c; cbn in *; by subst.
Qed.

(** Every timer cancelled. *)
Definition all_cancelled (c : TCPConnection) : TCPConnection :=
  c <| the2MSLTimer := cancelled (the2MSLTimer c) |> <| connEstabTimer := cancelled (connEstabTimer c) |>
    <| finWait2Timer := cancelled (finWait2Timer c) |> <| synRexmitTimer := cancelled (synRexmitTimer c) |>
    <| rexmitTimer := cancelled (rexmitTimer c) |> <| persistTimer := cancelled (persistTimer c) |>
    <| delayedAckTimer := cancelled (delayedAckTimer c) |> <| keepAliveTimer := cancelled (keepAliveTimer c) |>.

Lemma connectionClosed_spec x :
  alg_timers_ok (self x) ->
  alg_call connectionClosed x = Ok tt (x <| self := (self x)
    <| rexmitTimer := cancelled (rexmitTimer (self x)) |>
    <| persistTimer := cancelled (persistTimer (self x)) |>
    <| delayedAckTimer := cancelled (delayedAckTimer (self x)) |>
    <| keepAliveTimer := cancelled (keepAliveTimer (self x)) |> |>).
Proof.
  destruct x as [p [? ? ? ? ? ? ? ? ? ? ? a ? ? ? ? t1 t2 t3 t4] t t0 o]. unfold alg_timers_ok. cbn.
  intros (H1 & H2). unfold alg_call. run_steps. cbn [self tcpAlgorithm].
  destruct a; cbn in *; destruct H2 as (H2 & H3 & H4); try (by subst; destruct t1);
    destruct t1, t2, t3, t4; done.
Qed.

Lemma enter_CLOSED_spec x :
  alg_timers_ok (self x) -> stateEntered TCP_S_CLOSED x = Ok tt (x <| self := all_cancelled (self x) |>).
Proof.
  intros Ha. unfold stateEntered.
  do 4 (rewrite (bind_ok _ _ _ _ _ (cancelIfExists_spec _ _))).
  by rewrite connectionClosed_spec by exact Ha.
Qed.

Lemma all_cancelled_idle c id : scheduled (timer_of id (all_cancelled c)) = false.
Proof. destruct id; cbn; by destruct (_ c). Qed.

Lemma performStateTransition_CLOSED x e :
  alg_timers_ok (self x) -> fsm (self x) <> TCP_S_CLOSED ->
  fsm_next (active (state (self x))) (fsm (self x)) e = TCP_S_CLOSED ->
  performStateTransition e x =
    Ok false (x <| self := all_cancelled ((self x) <| fsm := TCP_S_CLOSED |>) |>).
Proof.
  intros Ha Hs Hn. unfold performStateTransition. run_steps.
  rewrite (proj2 (state_eqb_neq _ _)) by done. cbn [negb]. run_steps.
  rewrite bool_decide_false by (intros ->; destruct (fsm (self x)); done).
  run_steps. rewrite Hn. rewrite (proj2 (state_eqb_neq (fsm (self x)) TCP_S_CLOSED)) by done.
  cbn [negb]. run_steps.
  set (y := x <| self := _ |>). rewrite (bind_ok _ _ _ _ _ (enter_CLOSED_spec y Ha)). done.
Qed.
End Closed.
