(* ===== verification/TcpSocketsSpec.v ===== *)
(** * Consistency of the socket tables

    The invariant of the two connection maps and the port multiset of the [TCP]
    module, preserved by [addSockPair], [updateSockPair], [addForkedConnection] and
    [removeConnection]; the order of the lookups of [findConnForSegment]; the
    search of [getEphemeralPort]. *)
From S2P Require Import Prelude SeqNum TcpTypes TcpSendQueue TcpRcvQueue TcpConnection TcpSockets.

Section SocketsSpec.
Context {E : SimEnv}.
Implicit Types (t : TCP) (c : TCPConnection) (p : positive) (k : SockPair) (port : Z).

Definition is_short (z : Z) : Prop := -32768 <= z < 32768.

(** A connection is registered from its OPEN on; before, its ports are [-1]. *)
Definition opened (c : TCPConnection) : Prop := localPort c <> -1.

Definition uses_port (port : Z) (kp : SockPair * positive) : Prop := sp_localPort kp.1 = port.
#[global] Instance uses_port_dec port kp : Decision (uses_port port kp).
Proof. unfold uses_port. apply _. Defined.

(** Number of connections bound to a local port. *)
Definition bound (port : Z) (m : gmap SockPair positive) : nat := size (filter (uses_port port) m).

Record sock_inv (t : TCP) : Prop := {
  (* each connection is filed under its own key, and only there *)
  si_app : forall (k : AppConnKey) p, tcpAppConnMap t !! k = Some p <->
    exists c, heap t !! p = Some c /\ appKey_of c = k;
  si_sock : forall k p, tcpConnMap t !! k = Some p <->
    exists c, heap t !! p = Some c /\ opened c /\ sockPair_of c = k;
  (* a port is marked once for each connection bound to it *)
  si_ports : forall port, multiplicity port (usedEphemeralPorts t) =
    if is_ephemeral port then bound port (tcpConnMap t) else 0%nat;
  si_short : forall p c, heap t !! p = Some c -> is_short (localPort c);
  (* addresses returned by [new] and unique numbers are fresh *)
  si_ptr : forall p c, heap t !! p = Some c -> (p < nextPtr t)%positive;
  si_unique : forall p c n, heap t !! p = Some c -> (uniqueNumbers t <= n)%nat ->
    connId c <> getUniqueNumber n
}.

(** ** Counting *)
Lemma bound_insert port k p m :
  m !! k = None ->
  bound port (<[k := p]> m) = (bound port m + if bool_decide (sp_localPort k = port) then 1 else 0)%nat.
Proof.
  intros Hk. unfold bound. case_bool_decide as Hp.
  - rewrite map_filter_insert_True by done. rewrite map_size_insert_None; [lia|].
    apply map_lookup_filter_None. by left.
  - rewrite map_filter_insert_False by done. rewrite delete_id by done. lia.
Qed.

Lemma bound_delete port k p m :
  m !! k = Some p ->
  bound port m = (bound port (delete k m) + if bool_decide (sp_localPort k = port) then 1 else 0)%nat.
Proof.
  intros Hk. rewrite <- (insert_id m k p Hk) at 1. rewrite <- insert_delete_eq.
  apply bound_insert, lookup_delete_eq.
Qed.

Lemma bound_move port k k' p m :
  m !! k = Some p -> k' = k \/ m !! k' = None -> sp_localPort k = sp_localPort k' ->
  bound port (<[k' := p]> (delete k m)) = bound port m.
Proof.
  intros Hk Hfree Hp. rewrite bound_insert.
  - rewrite (bound_delete port k p m) by done. by rewrite Hp.
  - apply lookup_delete_None. destruct Hfree as [->|?]; auto.
Qed.

Lemma i16_short z : is_short z -> i16 z = z.
Proof. apply i16_small. Qed.

Lemma ephemeral_short port : is_ephemeral port = true -> is_short port.
Proof. unfold is_ephemeral, is_short, EPHEMERAL_PORTRANGE_START, EPHEMERAL_PORTRANGE_END. lia. Qed.

(** ** Registering a connection *)
Lemma addSockPair_spec t p c la ra lp rp c' t' :
  sock_inv t -> heap t !! p = Some c -> ~ opened c -> is_short lp -> lp <> -1 ->
  addSockPair p c la ra lp rp t = Ok c' t' ->
  c' = c <| localAddr := la |> <| remoteAddr := ra |> <| localPort := lp |> <| remotePort := rp |> /\
  sock_inv (t' <| heap := <[p := c']> (heap t') |>) /\
  heap t' = heap t /\ nextPtr t' = nextPtr t /\ uniqueNumbers t' = uniqueNumbers t.
Proof.
  intros Hi Hc Ho Hlp Hlp1. unfold addSockPair.
  set (c1 := c <| localAddr := la |> <| remoteAddr := ra |> <| localPort := lp |> <| remotePort := rp |>).
  set (k := mkSockPair la ra lp rp). unfold bind, gets. destruct (tcpConnMap t !! k) eqn:Ek; [done|].
  set (t1 := t <| tcpConnMap := <[k := p]> (tcpConnMap t) |>).
  set (t2 := t1 <| usedEphemeralPorts := if is_ephemeral lp then {[+ lp +]} ⊎ usedEphemeralPorts t
                                         else usedEphemeralPorts t |>).
  intros Hrun. assert (c' = c1 /\ t' = t2) as [-> ->].
  { unfold modify, when, ret, t2 in *. rewrite i16_short in Hrun by done.
    destruct (is_ephemeral lp); injection Hrun as <- <-; by destruct t. }
  split; [done|]. split; [|done]. destruct Hi as [Happ Hsock Hports Hshort Hptr Hun].
  assert (Hpsk : sockPair_of c1 = k) by done.
  assert (Hnot : forall k' , tcpConnMap t !! k' <> Some p).
  { intros k' Hk'. apply Hsock in Hk' as (c0 & Hc0 & Hop & _). by simplify_eq. }
  split.
  - intros k' p'. cbn. rewrite Happ.
    destruct (decide (p' = p)) as [->|Hne].
    + rewrite lookup_insert_eq. split; intros (c0 & Hc0 & Hk); [|injection Hc0 as <-].
      * rewrite Hc in Hc0. injection Hc0 as <-. by exists c1.
      * by exists c.
    + by rewrite lookup_insert_ne.
  - intros k' p'. cbn. rewrite lookup_insert_Some, Hsock. destruct (decide (p' = p)) as [->|Hne].
    + rewrite lookup_insert_eq. split.
      * intros [[<- _]|[_ (c0 & Hc0 & ? & ?)]]; [by exists c1|by simplify_eq].
      * intros (c0 & Hc0 & _ & <-). injection Hc0 as <-. by left.
    + rewrite lookup_insert_ne by done. split; [by intros [[_ ?]|[_ ?]]|].
      intros Hc0. right. split; [|done]. intros <-. apply Hsock in Hc0. congruence.
  - intros port.
    change (multiplicity port (if is_ephemeral lp then {[+ lp +]} ⊎ usedEphemeralPorts t
                               else usedEphemeralPorts t) =
            if is_ephemeral port then bound port (<[k := p]> (tcpConnMap t)) else 0%nat).
    rewrite bound_insert by done. change (sp_localPort k) with (i16 lp).
    rewrite i16_short by done. specialize (Hports port). case_bool_decide as Hb.
    + subst port. destruct (is_ephemeral lp); [|done].
      rewrite multiplicity_disj_union, multiplicity_singleton, decide_True, Hports by done. lia.
    + destruct (is_ephemeral lp).
      * rewrite multiplicity_disj_union, multiplicity_singleton_ne by done. rewrite Hports.
        destruct (is_ephemeral port); lia.
      * rewrite Hports. destruct (is_ephemeral port); lia.
  - intros p' c0. cbn. rewrite lookup_insert_Some. intros [[_ <-]|[_ ?]]; [done|by eapply Hshort].
  - intros p' c0. cbn. rewrite lookup_insert_Some. intros [[<- _]|[_ ?]]; by eapply Hptr.
  - intros p' c0 n. cbn. rewrite lookup_insert_Some. intros [[_ <-]|[_ ?]]; [by apply (Hun p c)|by eapply Hun].
Qed.

(** ** Changing the socket pair *)
Lemma updateSockPair_spec t p c la ra lp rp c' t' :
  sock_inv t -> heap t !! p = Some c ->
  let k' := mkSockPair la ra lp rp in
  k' = sockPair_of c \/ tcpConnMap t !! k' = None ->
  updateSockPair p c la ra lp rp t = Ok c' t' ->
  c' = c <| localAddr := la |> <| remoteAddr := ra |> <| remotePort := rp |> /\
  localPort c = lp /\ opened c /\
  sock_inv (t' <| heap := <[p := c']> (heap t') |>) /\
  t' = t <| tcpConnMap := <[k' := p]> (delete (sockPair_of c) (tcpConnMap t)) |>.
Proof.
  intros Hi Hc k' Hfree. unfold updateSockPair, bind, gets, modify, assert_.
  case_bool_decide as Hk; [|done].
  assert (Ho : opened c) by (apply (si_sock t Hi) in Hk as (c0 & Hc0 & ? & _); by simplify_eq). cbn [ret]. destruct (Z.eqb_spec (localPort c) lp) as [<-|]; [|done].
  unfold ret. intros Hrun. injection Hrun as <- <-.
  set (c1 := c <| localAddr := la |> <| remoteAddr := ra |> <| remotePort := rp |>).
  do 3 (split; [done|]). split; [|by destruct t].
  destruct Hi as [Happ Hsock Hports Hshort Hptr Hun].
  assert (Huniq : forall k, tcpConnMap t !! k = Some p -> k = sockPair_of c).
  { intros k Hkp. apply Hsock in Hkp as (c0 & Hc0 & _ & <-). by simplify_eq. }
  split.
  - intros k p'. cbn. rewrite Happ. destruct (decide (p' = p)) as [->|Hne].
    + rewrite lookup_insert_eq. split; intros (c0 & Hc0 & Hk0); [|injection Hc0 as <-].
      * simplify_eq. by exists c1.
      * by exists c.
    + by rewrite lookup_insert_ne.
  - intros k p'. cbn. rewrite lookup_insert_Some, lookup_delete_Some, Hsock.
    destruct (decide (p' = p)) as [->|Hne].
    + rewrite lookup_insert_eq. split.
      * intros [[<- _]|(_ & Hne & c0 & Hc0 & _ & Hk0)]; [by exists c1|simplify_eq].
      * intros (c0 & Hc0 & _ & <-). injection Hc0 as <-. by left.
    + rewrite lookup_insert_ne by done. split; [by intros [[_ ?]|(_ & _ & ?)]|].
      intros Hc0. apply Hsock in Hc0 as Hkp. right. split; [|split; [|done]].
      * intros <-. assert (Hkp' : tcpConnMap t !! k' = Some p') by exact Hkp.
        destruct Hfree as [Heq|Hno]; [rewrite <- Heq in Hk|]; congruence.
      * intros <-. congruence.
  - intros port. change (multiplicity port (usedEphemeralPorts t) =
      if is_ephemeral port then bound port (<[k' := p]> (delete (sockPair_of c) (tcpConnMap t))) else 0%nat).
    by rewrite bound_move.
  - intros p' c0. cbn. rewrite lookup_insert_Some. intros [[_ <-]|[_ ?]]; [by apply (Hshort p c)|by eapply Hshort].
  - intros p' c0. cbn. rewrite lookup_insert_Some. intros [[<- _]|[_ ?]]; by eapply Hptr.
  - intros p' c0 n. cbn. rewrite lookup_insert_Some. intros [[_ <-]|[_ ?]]; [by apply (Hun p c)|by eapply Hun].
Qed.

(** ** Removing a connection *)
Lemma removeConnection_spec t p c :
  sock_inv t -> heap t !! p = Some c ->
  exists t', removeConnection p c t = Ok tt t' /\ sock_inv t' /\
    heap t' = delete p (heap t) /\ nextPtr t' = nextPtr t /\ uniqueNumbers t' = uniqueNumbers t.
Proof.
  intros Hi Hc. eexists. split; [done|]. split; [|done].
  destruct Hi as [Happ Hsock Hports Hshort Hptr Hun].
  assert (Hkey : forall k p', tcpConnMap t !! k = Some p' -> k = sockPair_of c -> opened c -> p' = p).
  { intros k p' Hk -> Ho. assert (tcpConnMap t !! sockPair_of c = Some p) by (apply Hsock; eauto). congruence. }
  split.
  - intros k p'. cbn. rewrite lookup_delete_Some, Happ. split.
    + intros (Hne & c0 & Hc0 & Hk). exists c0. split; [|done]. rewrite lookup_delete_ne; [done|].
      intros <-. by simplify_eq.
    + intros (c0 & [Hne Hc0]%lookup_delete_Some & Hk). split; [|by exists c0]. intros <-.
      assert (tcpAppConnMap t !! appKey_of c = Some p) by (apply Happ; eauto).
      assert (tcpAppConnMap t !! appKey_of c = Some p') by (apply Happ; eauto). congruence.
  - intros k p'. cbn. rewrite lookup_delete_Some, Hsock. split.
    + intros (Hne & c0 & Hc0 & Ho & Hk). exists c0. split; [|done]. rewrite lookup_delete_ne; [done|].
      intros <-. by simplify_eq.
    + intros (c0 & [Hne Hc0]%lookup_delete_Some & Ho & Hk). split; [|by exists c0]. intros Heq.
      subst k. assert (Ho' : opened c).
      { unfold opened in *. intros Hm. injection Heq as _ _ Hlp _.
        rewrite Hm, (i16_short _ (Hshort _ _ Hc0)) in Hlp. change (i16 (-1)) with (-1) in Hlp. congruence. }
      assert (tcpConnMap t !! sockPair_of c = Some p) by (apply Hsock; eauto).
      assert (tcpConnMap t !! sockPair_of c = Some p') by (apply Hsock; rewrite Heq; eauto). congruence.
  - intros port. change (multiplicity port (usedEphemeralPorts t ∖ {[+ i16 (localPort c) +]}) =
      if is_ephemeral port then bound port (delete (sockPair_of c) (tcpConnMap t)) else 0%nat).
    rewrite multiplicity_difference, multiplicity_singleton, Hports.
    rewrite (i16_short _ (Hshort p c Hc)). destruct (is_ephemeral port) eqn:Ee; [|lia].
    destruct (decide (localPort c = -1)) as [Hm|Ho].
    + rewrite decide_False by (intros ->; by rewrite Hm in Ee).
      rewrite delete_id; [lia|]. apply eq_None_not_Some. intros (p' & (c0 & Hc0 & Ho0 & Hk)%Hsock).
      injection Hk as _ _ Hlp _. rewrite !i16_short in Hlp by by eapply Hshort. unfold opened in Ho0. congruence.
    + assert (Hk : tcpConnMap t !! sockPair_of c = Some p) by (apply Hsock; eauto).
      rewrite (bound_delete port _ p _ Hk). cbn [sockPair_of mkSockPair sp_localPort].
      rewrite (i16_short _ (Hshort p c Hc)). case_decide; case_bool_decide; congruence || lia.
  - intros p' c0. cbn. rewrite lookup_delete_Some. intros [_ ?]. by eapply Hshort.
  - intros p' c0. cbn. rewrite lookup_delete_Some. intros [_ ?]. by eapply Hptr.
  - intros p' c0 n. cbn. rewrite lookup_delete_Some. intros [_ ?]. by eapply Hun.
Qed.

(** ** New connections and new connection ids *)
Lemma sock_inv_fresh t : sock_inv t -> heap t !! nextPtr t = None.
Proof.
  intros Hi. destruct (heap t !! nextPtr t) eqn:Eh; [|done].
  pose proof (si_ptr t Hi _ _ Eh). lia.
Qed.

Lemma app_key_free t (k : AppConnKey) :
  sock_inv t -> (forall p c, heap t !! p = Some c -> appKey_of c <> k) -> tcpAppConnMap t !! k = None.
Proof.
  intros Hi Hk. apply eq_None_not_Some. intros (p & (c & Hc & Hkc)%(si_app t Hi)). by eapply Hk.
Qed.

Lemma createConnection_spec t c q next :
  sock_inv t -> heap t !! q = None -> (q < next)%positive -> (nextPtr t <= next)%positive ->
  localPort c = -1 -> tcpAppConnMap t !! appKey_of c = None ->
  (forall n, (uniqueNumbers t <= n)%nat -> connId c <> getUniqueNumber n) ->
  sock_inv (t <| nextPtr := next |> <| heap := <[q := c]> (heap t) |>
              <| tcpAppConnMap := <[appKey_of c := q]> (tcpAppConnMap t) |>).
Proof.
  intros Hi Hfresh Hq Hnext Hlp Hk Hid.
  destruct Hi as [Happ Hsock Hports Hshort Hptr Hun]. split; cbn -[appKey_of].
  - intros k p. rewrite lookup_insert_Some. setoid_rewrite lookup_insert_Some. rewrite Happ. split.
    + intros [[<- <-]|[Hne (c0 & Hc0 & Hk0)]]; [exists c; by auto|].
      exists c0. split; [|done]. right. split; [|done]. intros <-. congruence.
    + intros (c0 & [[<- <-]|[Hne Hc0]] & Hk0); [by left|right]. split; [|by exists c0].
      intros <-. assert (tcpAppConnMap t !! appKey_of c = Some p) by (apply Happ; eauto). congruence.
  - intros k p. setoid_rewrite lookup_insert_Some. rewrite Hsock. split.
    + intros (c0 & Hc0 & Ho & Hk0). exists c0. split; [|done]. right. split; [|done]. intros <-. congruence.
    + intros (c0 & [[_ <-]|[_ Hc0]] & Ho & Hk0); [by unfold opened in Ho|by exists c0].
  - done.
  - intros p c0. rewrite lookup_insert_Some. intros [[_ <-]|[_ ?]]; [rewrite Hlp; unfold is_short; lia|by eapply Hshort].
  - intros p c0. rewrite lookup_insert_Some. intros [[<- _]|[_ H0]]; [lia|]. apply Hptr in H0. lia.
  - intros p c0 n. rewrite lookup_insert_Some. intros [[_ <-]|[_ ?]]; [by apply Hid|by eapply Hun].
Qed.

Lemma renumber_spec `{!SimEnvLaws} t p c :
  sock_inv t -> heap t !! p = Some c ->
  let c' := c <| connId := getUniqueNumber (uniqueNumbers t) |> in
  sock_inv (t <| uniqueNumbers := S (uniqueNumbers t) |> <| heap := <[p := c']> (heap t) |>
              <| tcpAppConnMap := <[appKey_of c' := p]> (delete (appKey_of c) (tcpAppConnMap t)) |>).
Proof.
  intros Hi Hc c'. assert (Hnew : tcpAppConnMap t !! appKey_of c' = None).
  { apply app_key_free; [done|]. intros p0 c0 Hc0 Heq. injection Heq as _ Hid.
    by apply (si_unique t Hi p0 c0 (uniqueNumbers t)). }
  destruct Hi as [Happ Hsock Hports Hshort Hptr Hun].
  split; cbn -[appKey_of].
  - intros k p'. rewrite lookup_insert_Some, lookup_delete_Some. setoid_rewrite lookup_insert_Some.
    rewrite Happ. split.
    + intros [[<- <-]|(Hne & Hne2 & c0 & Hc0 & Hk0)]; [exists c'; by auto|].
      exists c0. split; [|done]. right. split; [|done]. intros <-. by simplify_eq.
    + intros (c0 & [[<- <-]|[Hne Hc0]] & Hk0); [by left|right].
      assert (Hkp : tcpAppConnMap t !! k = Some p') by (apply Happ; eauto).
      split; [intros <-; congruence|]. split; [|by exists c0].
      intros <-. assert (tcpAppConnMap t !! appKey_of c = Some p) by (apply Happ; eauto). congruence.
  - intros k p'. setoid_rewrite lookup_insert_Some. rewrite Hsock. split.
    + intros (c0 & Hc0 & Ho & Hk0). destruct (decide (p' = p)) as [->|Hne].
      * simplify_eq. exists c'. by auto.
      * exists c0. by auto.
    + intros (c0 & [[<- <-]|[Hne Hc0]] & Ho & Hk0); [by exists c|by exists c0].
  - done.
  - intros p' c0. rewrite lookup_insert_Some. intros [[_ <-]|[_ ?]]; [by apply (Hshort p c)|by eapply Hshort].
  - intros p' c0. rewrite lookup_insert_Some. intros [[<- _]|[_ ?]]; by eapply Hptr.
  - intros p' c0 n. rewrite lookup_insert_Some. intros [[_ <-]|[_ ?]] Hn; [|apply (Hun p' c0); done || lia].
    cbn. intros Heq%unique_inj. lia.
Qed.

(** ** Forking *)
Definition register (t : TCP) (p : positive) (k : SockPair) (lp : Z) : TCP :=
  t <| tcpConnMap := <[k := p]> (tcpConnMap t) |>
    <| usedEphemeralPorts := if is_ephemeral lp then {[+ i16 lp +]} ⊎ usedEphemeralPorts t
                             else usedEphemeralPorts t |>.

Lemma addSockPair_run t p c la ra lp rp :
  let k := mkSockPair la ra lp rp in
  addSockPair p c la ra lp rp t =
  match tcpConnMap t !! k with
  | Some _ => Err (RuntimeError "Address already in use")
  | None => Ok (c <| localAddr := la |> <| remoteAddr := ra |> <| localPort := lp |> <| remotePort := rp |>)
               (register t p k lp)
  end.
Proof.
  cbn zeta. unfold addSockPair, bind, gets. destruct (tcpConnMap t !! _); [done|].
  unfold modify, when, register. destruct (is_ephemeral lp); [done|]. by destruct t.
Qed.

Lemma TCP_eq t1 t2 :
  heap t1 = heap t2 -> tcpAppConnMap t1 = tcpAppConnMap t2 -> tcpConnMap t1 = tcpConnMap t2 ->
  lastEphemeralPort t1 = lastEphemeralPort t2 -> usedEphemeralPorts t1 = usedEphemeralPorts t2 ->
  uniqueNumbers t1 = uniqueNumbers t2 -> nextPtr t1 = nextPtr t2 -> t1 = t2.
Proof. destruct t1, t2. cbn. congruence. Qed.

Lemma sock_inv_nextPtr t n : sock_inv t -> (nextPtr t <= n)%positive -> sock_inv (t <| nextPtr := n |>).
Proof.
  intros [H1 H2 H3 H4 H5 H6] Hn. split; try done. intros p c Hc. apply H5 in Hc. cbn. lia.
Qed.

Lemma addForkedConnection_spec `{!SimEnvLaws} t p c q newc la ra lp rp r t' :
  sock_inv t -> heap t !! p = Some c -> heap t !! q = None -> (q < nextPtr t)%positive ->
  appKey_of newc = appKey_of c -> localPort newc = localPort c ->
  let k' := mkSockPair la ra lp rp in
  k' = sockPair_of c \/ tcpConnMap t !! k' = None ->
  addForkedConnection p c q newc la ra lp rp t = Ok r t' ->
  r = (c <| localAddr := la |> <| remoteAddr := ra |> <| remotePort := rp |>
         <| connId := getUniqueNumber (uniqueNumbers t) |>, newc) /\
  heap t' = heap t /\ nextPtr t' = nextPtr t /\ uniqueNumbers t' = S (uniqueNumbers t) /\
  sock_inv (t' <| heap := <[p := r.1]> (<[q := r.2]> (heap t')) |>).
Proof.
  intros Hi Hc Hq Hqn Hkey Hnlp k' Hfree. unfold addForkedConnection, bind at 1.
  destruct (updateSockPair p c la ra lp rp t) as [c1 t1|] eqn:Eu; [|done].
  destruct (updateSockPair_spec t p c la ra lp rp c1 t1) as (-> & <- & Ho & Hi1 & Ht1); try done.
  set (c1 := c <| localAddr := la |> <| remoteAddr := ra |> <| remotePort := rp |>) in *.
  unfold bind at 1. rewrite addSockPair_run. set (kn := mkSockPair _ _ (localPort newc) _).
  destruct (tcpConnMap t1 !! kn) eqn:Ekn; [done|]. intros Hrun. injection Hrun as <- <-.
  set (n := uniqueNumbers t). set (c2 := c1 <| connId := getUniqueNumber n |>).
  assert (Hnewc : newc <| localAddr := localAddr newc |> <| remoteAddr := remoteAddr newc |>
                       <| localPort := localPort newc |> <| remotePort := remotePort newc |> = newc)
    by by destruct newc.
  rewrite Hnewc. subst t1. split; [done|]. do 3 (split; [done|]).
  (* the same state, reached in an order that keeps the invariant at each step *)
  pose proof (renumber_spec _ p c1 Hi1 (lookup_insert_eq _ _ _)) as Hi2. cbn zeta in Hi2.
  fold n c2 in Hi2. set (t2 := _ <| tcpAppConnMap := _ |>) in Hi2.
  assert (Hpq : p <> q) by congruence.
  set (newc0 := newc <| localPort := -1 |>).
  assert (Hid : forall m, (n <= m)%nat -> connId c <> getUniqueNumber m) by
    (intros m Hm; by apply (si_unique t Hi p c)).
  injection Hkey as Hgate Hcid.
  assert (Hi3 : sock_inv (t2 <| nextPtr := nextPtr t |> <| heap := <[q := newc0]> (heap t2) |>
                             <| tcpAppConnMap := <[appKey_of newc0 := q]> (tcpAppConnMap t2) |>)).
  { apply createConnection_spec; try done.
    - cbn. by rewrite !lookup_insert_ne.
    - change (appKey_of newc0) with (appKey_of newc). change (tcpAppConnMap t2) with
        (<[appKey_of c2 := p]> (delete (appKey_of c1) (tcpAppConnMap t))).
      rewrite lookup_insert_ne.
      + replace (appKey_of newc) with (appKey_of c1) by (unfold appKey_of; cbn; congruence).
        apply lookup_delete_eq.
      + intros Heq. injection Heq as _ Heq. apply (Hid n); [done|]. cbn in Heq. congruence.
    - intros m Hm. change (connId newc0) with (connId newc). rewrite Hcid. apply Hid. cbn in Hm. lia. }
  set (t3 := t2 <| nextPtr := _ |> <| heap := _ |> <| tcpAppConnMap := _ |>) in Hi3.
  destruct (addSockPair_spec t3 q newc0 (localAddr newc) (remoteAddr newc) (localPort newc)
    (remotePort newc) newc (register t3 q kn (localPort newc)) Hi3) as (_ & Hi4 & _).
  - apply lookup_insert_eq.
  - by intros Hn.
  - rewrite Hnlp. by apply (si_short t Hi p).
  - by rewrite Hnlp.
  - assert (Ekn' : tcpConnMap t3 !! kn = None) by exact Ekn.
    rewrite addSockPair_run. fold kn. rewrite Ekn'. f_equal. by destruct newc.
  - revert Hi4. match goal with |- sock_inv ?a -> sock_inv ?b => assert (a = b) as -> end; [|done].
    apply TCP_eq; try done. unfold register, t3, t2. cbn.
    rewrite !insert_insert_eq. rewrite (insert_insert_ne _ q p) by done. done.
Qed.

(** ** Lookups *)
Lemma find_first_spec (m : gmap SockPair positive) keys p :
  find_first m keys = Some p <->
  exists (k1 : list SockPair) k (k2 : list SockPair), keys = k1 ++ k :: k2 /\ m !! k = Some p /\ Forall (fun k' => m !! k' = None) k1.
Proof.
  induction keys as [|k keys IH]; cbn.
  { split; [done|]. by intros ([|] & ? & ? & ? & _). }
  destruct (m !! k) eqn:Ek.
  - split.
    + intros [= <-]. by exists [], k, keys.
    + intros ([|k0 k1] & k' & k2 & [= -> ->] & Hk & Hn); [congruence|]. inversion Hn; congruence.
  - rewrite IH. split.
    + intros (k1 & k' & k2 & -> & Hk & Hn). exists (k :: k1), k', k2. split; [done|]. by split; [|constructor].
    + intros ([|k0 k1] & k' & k2 & [= -> ->] & Hk & Hn); [congruence|]. inversion Hn; subst. by exists k1, k', k2.
Qed.

(** ** Ephemeral ports

    The [i]-th port tried. *)
Definition range_size : Z := EPHEMERAL_PORTRANGE_END - EPHEMERAL_PORTRANGE_START.
Definition port_at (last i : Z) : Z :=
  EPHEMERAL_PORTRANGE_START + (last - EPHEMERAL_PORTRANGE_START + i) mod range_size.

Lemma port_at_ephemeral last i : is_ephemeral (port_at last i) = true.
Proof.
  unfold is_ephemeral, port_at, range_size, EPHEMERAL_PORTRANGE_START, EPHEMERAL_PORTRANGE_END. lia.
Qed.

Lemma next_port_at last i : next_port (port_at last i) = port_at last (i + 1).
Proof.
  unfold next_port. rewrite i16_small by
    (pose proof (ephemeral_short _ (port_at_ephemeral last i)) as H; unfold is_short in H;
     unfold port_at, range_size, EPHEMERAL_PORTRANGE_START, EPHEMERAL_PORTRANGE_END in *; lia).
  unfold port_at, range_size, EPHEMERAL_PORTRANGE_START, EPHEMERAL_PORTRANGE_END.
  destruct (Z.eqb_spec (1024 + (last - 1024 + i) mod (5000 - 1024) + 1) 5000); lia.
Qed.

Lemma port_at_last last i :
  is_ephemeral last = true -> 0 < i <= range_size -> port_at last i = last <-> i = range_size.
Proof.
  unfold is_ephemeral, port_at, range_size, EPHEMERAL_PORTRANGE_START, EPHEMERAL_PORTRANGE_END. lia.
Qed.

(** Every port of the range is tried. *)
Lemma port_at_surj last port :
  is_ephemeral last = true -> is_ephemeral port = true ->
  exists i, 0 < i <= range_size /\ port_at last i = port.
Proof.
  unfold is_ephemeral, port_at, range_size, EPHEMERAL_PORTRANGE_START, EPHEMERAL_PORTRANGE_END.
  intros. exists ((port - last - 1) mod 3976 + 1). lia.
Qed.

Lemma searchPort_spec fuel t last i :
  is_ephemeral last = true -> 0 < i <= range_size -> range_size - i < Z.of_nat fuel ->
  lastEphemeralPort t = port_at last i ->
  match searchPort fuel last t with
  | Ok port t' => is_ephemeral port = true /\ (port ∉ usedEphemeralPorts t) /\
                  t' = t <| lastEphemeralPort := port |>
  | Err e => e = RuntimeError "Ephemeral port range exhausted" /\
             forall j, i <= j <= range_size -> port_at last j ∈ usedEphemeralPorts t
  end.
Proof.
  intros Hlast. revert t i. induction fuel as [|fuel IH]; intros t i Hi Hf Ht; [lia|].
  cbn [searchPort]. unfold bind at 1, gets, id. case_bool_decide as Hu.
  - destruct (Z.eqb_spec (lastEphemeralPort t) last) as [He|Hne].
    + cbn. split; [done|]. intros j Hj. rewrite Ht in *. apply port_at_last in He; [|done|done].
      by replace j with i by lia.
    + assert (Hi' : i <> range_size).
      { intros He. apply Hne. rewrite Ht. by apply port_at_last. }
      unfold bind at 1, modify.
      specialize (IH (t <| lastEphemeralPort := next_port (lastEphemeralPort t) |>) (i + 1)).
      destruct (searchPort fuel last _) as [port t'|e].
      * destruct IH as (? & ? & ->); [lia|lia|cbn; by rewrite Ht, next_port_at|]. by destruct t.
      * destruct IH as (-> & Hall); [lia|lia|cbn; by rewrite Ht, next_port_at|]. split; [done|].
        intros j Hj. destruct (Z.eq_dec j i) as [->|]; [by rewrite <- Ht|]. apply Hall. lia.
  - cbn. rewrite Ht in *. split; [apply port_at_ephemeral|]. split; [done|]. rewrite <- Ht. by destruct t.
Qed.

Lemma getEphemeralPort_spec t :
  is_ephemeral (lastEphemeralPort t) = true ->
  match getEphemeralPort t with
  | Ok port t' => is_ephemeral port = true /\ (port ∉ usedEphemeralPorts t) /\
                  t' = t <| lastEphemeralPort := port |>
  | Err e => e = RuntimeError "Ephemeral port range exhausted" /\
             forall port, is_ephemeral port = true -> port ∈ usedEphemeralPorts t
  end.
Proof.
  intros Hlast. set (last := lastEphemeralPort t) in *.
  unfold getEphemeralPort. unfold bind at 1 2, gets, modify. fold last.
  assert (H0 : port_at last 0 = last).
  { revert Hlast. unfold is_ephemeral, port_at, range_size, EPHEMERAL_PORTRANGE_START,
      EPHEMERAL_PORTRANGE_END. lia. }
  pose proof (searchPort_spec 3977 (t <| lastEphemeralPort := next_port last |>) last 1 Hlast) as Hs.
  destruct (searchPort 3977 last _) as [port t'|e].
  - destruct Hs as (? & ? & ->); [unfold range_size, EPHEMERAL_PORTRANGE_START, EPHEMERAL_PORTRANGE_END; lia..
      |cbn; by rewrite <- H0 at 1; rewrite next_port_at|]. by destruct t.
  - destruct Hs as (-> & Hall); [unfold range_size, EPHEMERAL_PORTRANGE_START, EPHEMERAL_PORTRANGE_END; lia..
      |cbn; by rewrite <- H0 at 1; rewrite next_port_at|].
    split; [done|]. intros port Hp. destruct (port_at_surj last port Hlast Hp) as (i & Hi & <-).
    apply Hall. lia.
Qed.
End SocketsSpec.
