(* ===== verification/TcpModuleSpec.v ===== *)
(** * The TCP module as a whole

    Every message keeps the socket tables consistent: [handleMessage] preserves
    [sock_inv].  Most of the code never touches the tables; the class [Keeps]
    collects that by instance search, and only the functions that call [TCP]'s
    table operations are treated by hand. *)
From S2P Require Import Prelude SeqNum TcpTypes TcpSendQueue TcpRcvQueue TcpConnection TcpSockets TcpSend TcpAlgorithm TcpFsm TcpReceive TcpMain TcpSocketsSpec.

(** ** Functions that leave the tables and the connection's identity alone *)
Definition ident (c : TCPConnection) :=
  (appGateIndex c, connId c, localAddr c, remoteAddr c, localPort c, remotePort c).

Record same_ident (x x' : Ctx) : Prop := {
  id_tcp : tcp x' = tcp x;
  id_this : this x' = this x;
  id_self : ident (self x') = ident (self x);
  id_init : fsm (self x') = TCP_S_INIT -> fsm (self x) = TCP_S_INIT
}.

Class Keeps {A} (m : Eff Ctx A) : Prop := keeps : forall x a x', m x = Ok a x' -> same_ident x x'.

Section KeepsBasics.
Context {A B : Type}.

Lemma same_ident_refl x : same_ident x x.
Proof. done. Qed.

Lemma same_ident_trans x y z : same_ident x y -> same_ident y z -> same_ident x z.
Proof. intros [] []. split; try congruence. auto. Qed.

#[export] Instance keeps_ret (a : A) : Keeps (ret a).
Proof. by intros x b x' [= _ <-]. Qed.
#[export] Instance keeps_fail e : Keeps (fail e : Eff Ctx A).
Proof. by intros x b x' ?. Qed.
#[export] Instance keeps_gets (f : Ctx -> A) : Keeps (gets f).
Proof. by intros x b x' [= _ <-]. Qed.
#[export] Instance keeps_conn (f : TCPConnection -> A) : Keeps (conn f).
Proof. by intros x b x' [= _ <-]. Qed.
#[export] Instance keeps_var (f : TCPStateVariables -> A) : Keeps (var f).
Proof. by intros x b x' [= _ <-]. Qed.
#[export] Instance keeps_algvar (f : AlgStateVariables -> A) : Keeps (algvar f).
Proof. by intros x b x' [= _ <-]. Qed.
#[export] Instance keeps_set_var f : Keeps (set_var f).
Proof. by intros x b x' [= _ <-]. Qed.
#[export] Instance keeps_set_algvar f : Keeps (set_algvar f).
Proof. by intros x b x' [= _ <-]. Qed.
#[export] Instance keeps_emit o : Keeps (emit o).
Proof. by intros x b x' [= _ <-]. Qed.
#[export] Instance keeps_assert w b : Keeps (assert_ w b).
Proof. destruct b; intros x a x'; [by intros [= _ <-]|done]. Qed.
#[export] Instance keeps_when b m : Keeps m -> Keeps (when b m).
Proof. intros Hm. destruct b; [done|]. by intros x a x' [= _ <-]. Qed.
#[export] Instance keeps_bind (m : Eff Ctx A) (k : A -> Eff Ctx B) :
  Keeps m -> (forall a, Keeps (k a)) -> Keeps (bind m k).
Proof.
  intros Hm Hk x b x'. unfold bind. destruct (m x) as [a y|] eqn:Em; [|done]. intros Hr.
  eapply same_ident_trans; [by eapply Hm|by eapply Hk].
Qed.
#[export] Instance keeps_on_sendQueue (m : Eff AnySendQueue A) : Keeps (on_sendQueue m).
Proof. intros x a x'. unfold on_sendQueue. destruct (m _); [|done]. by intros [= _ <-]. Qed.
#[export] Instance keeps_on_receiveQueue (m : Eff AnyRcvQueue A) : Keeps (on_receiveQueue m).
Proof. intros x a x'. unfold on_receiveQueue. destruct (m _); [|done]. by intros [= _ <-]. Qed.

Lemma keeps_set_conn f :
  (forall c, ident (f c) = ident c) -> (forall c, fsm (f c) = TCP_S_INIT -> fsm c = TCP_S_INIT) ->
  Keeps (set_conn f).
Proof. intros Hf Hi x a x' [= _ <-]. split; try done; [apply Hf|apply Hi]. Qed.

End KeepsBasics.

#[export] Instance keeps_set_timer id v : Keeps (set_conn (set_timer id v)).
Proof. apply keeps_set_conn; intros c; by destruct id. Qed.

(** Case analyses of the code. *)
#[export] Hint Extern 2 (Keeps (set_conn _)) =>
  apply keeps_set_conn; [intros; reflexivity|intros ? Hinit; exact Hinit] : typeclass_instances.
#[export] Hint Extern 3 (Keeps (match ?x with _ => _ end)) => destruct x : typeclass_instances.
#[export] Hint Extern 3 (Keeps (let _ := _ in _)) => cbv zeta : typeclass_instances.

Tactic Notation "keeps_by_def" reference(f) := intros; unfold f; apply _.

Section KeepsTcp.
Context {E : SimEnv}.

#[export] Instance keeps_isScheduled i : Keeps (isScheduled i).
Proof. keeps_by_def isScheduled. Qed.
#[export] Instance keeps_scheduleTimeout i t : Keeps (scheduleTimeout i t).
Proof. keeps_by_def scheduleTimeout. Qed.
#[export] Instance keeps_cancelEvent i : Keeps (cancelEvent i).
Proof. keeps_by_def cancelEvent. Qed.
#[export] Instance keeps_cancelIfExists i : Keeps (cancelIfExists i).
Proof. keeps_by_def cancelIfExists. Qed.
#[export] Instance keeps_deleteTimer i : Keeps (deleteTimer i).
Proof. keeps_by_def deleteTimer. Qed.

(** The algorithm classes and the sending functions *)
#[export] Instance keeps_startRexmitTimer : Keeps BaseAlgHooks.startRexmitTimer.
Proof. keeps_by_def BaseAlgHooks.startRexmitTimer. Qed.
#[export] Instance keeps_ackSent : Keeps ackSent.
Proof. unfold ackSent, BaseAlgHooks.ackSent, DumbTCPHooks.ackSent. apply _. Qed.
#[export] Instance keeps_dataSent s : Keeps (dataSent s).
Proof. unfold dataSent, BaseAlgHooks.dataSent, DumbTCPHooks.dataSent. apply _. Qed.
#[export] Instance keeps_sendToIP_raw seg n a b : Keeps (sendToIP_raw seg n a b).
Proof. keeps_by_def sendToIP_raw. Qed.
#[export] Instance keeps_sendToIP seg : Keeps (sendToIP seg).
Proof. keeps_by_def sendToIP. Qed.
#[export] Instance keeps_sendToApp m : Keeps (sendToApp m).
Proof. keeps_by_def sendToApp. Qed.
#[export] Instance keeps_sendIndicationToApp i : Keeps (sendIndicationToApp i).
Proof. keeps_by_def sendIndicationToApp. Qed.
#[export] Instance keeps_sendEstabIndicationToApp : Keeps sendEstabIndicationToApp.
Proof. keeps_by_def sendEstabIndicationToApp. Qed.
#[export] Instance keeps_configureStateVariables : Keeps configureStateVariables.
Proof. keeps_by_def configureStateVariables. Qed.
#[export] Instance keeps_selectInitialSeqNum : Keeps selectInitialSeqNum.
Proof. keeps_by_def selectInitialSeqNum. Qed.
#[export] Instance keeps_sendSyn : Keeps sendSyn.
Proof. keeps_by_def sendSyn. Qed.
#[export] Instance keeps_sendSynAck : Keeps sendSynAck.
Proof. keeps_by_def sendSynAck. Qed.
#[export] Instance keeps_sendRst_addr q a b i j : Keeps (sendRst_addr q a b i j).
Proof. unfold sendRst_addr, sendToIP_addr. apply _. Qed.
#[export] Instance keeps_sendRst q : Keeps (sendRst q).
Proof. keeps_by_def sendRst. Qed.
#[export] Instance keeps_sendAck : Keeps sendAck.
Proof. keeps_by_def sendAck. Qed.
#[export] Instance keeps_sendFin : Keeps sendFin.
Proof. keeps_by_def sendFin. Qed.
#[export] Instance keeps_sendSegment n : Keeps (sendSegment n).
Proof. keeps_by_def sendSegment. Qed.
#[export] Instance keeps_sendFullSegments fuel n : Keeps (sendFullSegments fuel n).
Proof. revert n. induction fuel; intros n; cbn [sendFullSegments]; apply _. Qed.
#[export] Instance keeps_sendData f w : Keeps (sendData f w).
Proof. keeps_by_def sendData. Qed.
#[export] Instance keeps_sendProbe : Keeps sendProbe.
Proof. keeps_by_def sendProbe. Qed.
#[export] Instance keeps_retransmitOneSegment : Keeps retransmitOneSegment.
Proof. keeps_by_def retransmitOneSegment. Qed.
#[export] Instance keeps_retransmitLoop fuel n : Keeps (retransmitLoop fuel n).
Proof. revert n. induction fuel; intros n; cbn [retransmitLoop]; apply _. Qed.
#[export] Instance keeps_retransmitData : Keeps retransmitData.
Proof. keeps_by_def retransmitData. Qed.
#[export] Instance keeps_ignore {A} (m : Eff Ctx A) : Keeps m -> Keeps (ignore m).
Proof. intros. unfold ignore. apply _. Qed.

Ltac keeps_alg :=
  cbn [algorithm DumbTCP.ops TCPNoCongestionControl.ops TCPTahoe.ops TCPReno.ops
       initialize established connectionClosed TcpAlgorithm.processTimer sendCommandInvoked
       receivedOutOfOrderSegment receiveSeqChanged receivedDataAck receivedDuplicateAck
       receivedAckForDataNotYetSent];
  unfold DumbTCP.initialize, DumbTCP.established, DumbTCP.connectionClosed, DumbTCP.processTimer,
    TCPNoCongestionControl.initialize, TCPNoCongestionControl.processRexmitTimer,
    TCPNoCongestionControl.receivedDataAck, TCPTahoe.processRexmitTimer, TCPTahoe.receivedDataAck,
    TCPTahoe.receivedDuplicateAck, TCPReno.processRexmitTimer, TCPReno.receivedDataAck,
    TCPReno.receivedDuplicateAck, TCPTahoeRenoFamily.increaseCwnd,
    TCPTahoeRenoFamily.recalculateSlowStartThreshold, TCPBaseAlg.processTimer,
    TCPBaseAlg.processRexmitTimer, TCPBaseAlg.processPersistTimer, TCPBaseAlg.processDelayedAckTimer,
    TCPBaseAlg.processKeepAliveTimer, TCPBaseAlg.initialize, TCPBaseAlg.established,
    TCPBaseAlg.connectionClosed, TCPBaseAlg.sendData, TCPBaseAlg.sendCommandInvoked,
    TCPBaseAlg.receivedOutOfOrderSegment, TCPBaseAlg.receiveSeqChanged, TCPBaseAlg.receivedDataAck,
    TCPBaseAlg.receivedDuplicateAck, TCPBaseAlg.receivedAckForDataNotYetSent,
    TCPBaseAlg.startRexmitTimer, TCPBaseAlg.rttMeasurementComplete, signalConnectionTimeout;
  apply _.

#[export] Instance keeps_initialize a : Keeps (initialize (algorithm a)).
Proof. destruct a; keeps_alg. Qed.
#[export] Instance keeps_established a b : Keeps (established (algorithm a) b).
Proof. destruct a; keeps_alg. Qed.
#[export] Instance keeps_connectionClosed a : Keeps (connectionClosed (algorithm a)).
Proof. destruct a; keeps_alg. Qed.
#[export] Instance keeps_alg_processTimer a i e : Keeps (TcpAlgorithm.processTimer (algorithm a) i e).
Proof. destruct a; keeps_alg. Qed.
#[export] Instance keeps_sendCommandInvoked a : Keeps (sendCommandInvoked (algorithm a)).
Proof. destruct a; keeps_alg. Qed.
#[export] Instance keeps_receivedOutOfOrderSegment a : Keeps (receivedOutOfOrderSegment (algorithm a)).
Proof. destruct a; keeps_alg. Qed.
#[export] Instance keeps_receiveSeqChanged a : Keeps (receiveSeqChanged (algorithm a)).
Proof. destruct a; keeps_alg. Qed.
#[export] Instance keeps_receivedDataAck a s : Keeps (receivedDataAck (algorithm a) s).
Proof. destruct a; keeps_alg. Qed.
#[export] Instance keeps_receivedDuplicateAck a : Keeps (receivedDuplicateAck (algorithm a)).
Proof. destruct a; keeps_alg. Qed.
#[export] Instance keeps_receivedAckForDataNotYetSent a s :
  Keeps (receivedAckForDataNotYetSent (algorithm a) s).
Proof. destruct a; keeps_alg. Qed.
#[export] Instance keeps_alg_call {A} (m : TCPAlgorithm -> Eff Ctx A) :
  (forall a, Keeps (m (algorithm a))) -> Keeps (alg_call m).
Proof. intros. unfold alg_call. apply _. Qed.

(** The state machine and the receiving functions *)
#[export] Instance keeps_stateEntered s : Keeps (stateEntered s).
Proof. destruct s; unfold stateEntered; apply _. Qed.
Lemma fsm_next_not_init a s e : fsm_next a s e = TCP_S_INIT -> s = TCP_S_INIT.
Proof. destruct s, e; cbn; try done; by destruct a. Qed.

#[export] Instance keeps_performStateTransition e : Keeps (performStateTransition e).
Proof.
  intros x b x'. unfold performStateTransition. run_steps. destruct (negb _); run_steps; [|done].
  case_bool_decide; [by intros [= _ <-]|]. run_steps. set (y := x <| self := _ |>).
  assert (Hxy : same_ident x y) by (split; [done..|apply fsm_next_not_init]).
  intros Hr. eapply same_ident_trans; [exact Hxy|].
  assert (Hk : Keeps (when (negb (state_eqb (fsm (self x))
    (fsm_next (active (state (self x))) (fsm (self x)) e)))
    (stateEntered (fsm_next (active (state (self x))) (fsm (self x)) e)) ;;;
    ret (negb (state_eqb (fsm_next (active (state (self x))) (fsm (self x)) e) TCP_S_CLOSED)))) by apply _.
  by eapply Hk.
Qed.
#[export] Instance keeps_or_return {A} (m : Eff Ctx (option A)) k : Keeps m -> Keeps k -> Keeps (or_return m k).
Proof. intros. unfold or_return. apply _. Qed.
#[export] Instance keeps_ackInWindow seg : Keeps (ackInWindow seg).
Proof. keeps_by_def ackInWindow. Qed.
#[export] Instance keeps_processAckInEstabEtc seg : Keeps (processAckInEstabEtc seg).
Proof. keeps_by_def processAckInEstabEtc. Qed.
#[export] Instance keeps_sendAllToApp l : Keeps (sendAllToApp l).
Proof. induction l; cbn [sendAllToApp]; apply _. Qed.
#[export] Instance keeps_processText seg : Keeps (processText seg).
Proof. keeps_by_def processText. Qed.
#[export] Instance keeps_sixthToEighth seg o e : Keeps (sixthToEighth seg o e).
Proof. unfold sixthToEighth, textStep, checkFin, finTimers, deferredClose. apply _. Qed.
#[export] Instance keeps_fifthToEighth seg e : Keeps (fifthToEighth seg e).
Proof. unfold fifthToEighth, ackInClosingStates. apply _. Qed.
#[export] Instance keeps_processSegment1stThru8th seg : Keeps (processSegment1stThru8th seg).
Proof.
  unfold processSegment1stThru8th, checkSequenceNumber, checkRst, processRstInSynReceived, checkSyn,
    checkAckBit, ackInSynRcvd. apply _.
Qed.
#[export] Instance keeps_startSynRexmitTimer : Keeps startSynRexmitTimer.
Proof. keeps_by_def startSynRexmitTimer. Qed.
#[export] Instance keeps_processTimer i : Keeps (processTimer i).
Proof.
  unfold processTimer, process_TIMEOUT_2MSL, process_TIMEOUT_CONN_ESTAB, process_TIMEOUT_FIN_WAIT_2,
    process_TIMEOUT_SYN_REXMIT. apply _.
Qed.

(** The commands other than OPEN *)
#[export] Instance keeps_initConnection o : Keeps (initConnection o).
Proof. keeps_by_def initConnection. Qed.
#[export] Instance keeps_process_SEND m : Keeps (process_SEND m).
Proof. keeps_by_def process_SEND. Qed.
#[export] Instance keeps_process_CLOSE e : Keeps (process_CLOSE e).
Proof. keeps_by_def process_CLOSE. Qed.
#[export] Instance keeps_process_ABORT : Keeps process_ABORT.
Proof. keeps_by_def process_ABORT. Qed.
#[export] Instance keeps_process_STATUS : Keeps process_STATUS.
Proof. keeps_by_def process_STATUS. Qed.
End KeepsTcp.

(** ** The context invariant

    The tables are consistent once the running connection is written back. *)
Definition commit (x : Ctx) : TCP := (tcp x) <| heap := <[this x := self x]> (heap (tcp x)) |>.

Section Module.
Context {E : SimEnv} `{!SimEnvLaws}.
Implicit Types (x y : Ctx) (c : TCPConnection) (t : TCP) (clock : Z).

Lemma ident_keys c c' : ident c' = ident c ->
  appKey_of c' = appKey_of c /\ sockPair_of c' = sockPair_of c /\ localPort c' = localPort c /\
  connId c' = connId c.
Proof. unfold ident, appKey_of, sockPair_of, mkSockPair. intros [= -> -> -> -> -> ->]. done. Qed.

(** Only the identity of a connection matters to the tables. *)
Lemma sock_inv_ident t p c c' :
  ident c' = ident c -> sock_inv (t <| heap := <[p := c]> (heap t) |>) ->
  sock_inv (t <| heap := <[p := c']> (heap t) |>).
Proof.
  intros Hid [H1 H2 H3 H4 H5 H6]. destruct (ident_keys c c' Hid) as (Ha & Hs & Hl & Hc). cbn in *.
  split; cbn; try done.
  - intros k q. rewrite H1. setoid_rewrite lookup_insert_Some.
    split; intros (c0 & [[<- <-]|[? ?]] & <-); eauto 10.
  - intros k q. rewrite H2. setoid_rewrite lookup_insert_Some. unfold opened.
    split; intros (c0 & [[<- <-]|[? ?]] & Ho & <-).
    + exists c'. rewrite Hl, Hs. eauto.
    + eauto 10.
    + exists c. rewrite <- Hl, <- Hs. eauto.
    + eauto 10.
  - intros q c0 [[<- <-]|[Hne Hc0]]%lookup_insert_Some.
    + rewrite Hl. apply (H4 p), lookup_insert_eq.
    + apply (H4 q). by rewrite lookup_insert_ne.
  - intros q c0 [[<- <-]|[Hne Hc0]]%lookup_insert_Some.
    + apply (H5 p c), lookup_insert_eq.
    + apply (H5 q c0). by rewrite lookup_insert_ne.
  - intros q c0 n [[<- <-]|[Hne Hc0]]%lookup_insert_Some.
    + rewrite Hc. apply (H6 p c), lookup_insert_eq.
    + apply (H6 q c0). by rewrite lookup_insert_ne.
Qed.

(** What holds between two steps of a handler: the tables are consistent, a
    connection that was never opened has no port, and the next ephemeral port is
    searched from a port of the range. *)
Record ctx_inv (x : Ctx) : Prop := {
  cx_sock : sock_inv (commit x);
  cx_others : forall p c, p <> this x -> heap (tcp x) !! p = Some c -> fsm c = TCP_S_INIT -> ~ opened c;
  cx_last : is_ephemeral (lastEphemeralPort (tcp x)) = true
}.

Definition self_inv (x : Ctx) : Prop := fsm (self x) = TCP_S_INIT -> ~ opened (self x).

Record module_inv (t : TCP) : Prop := {
  mi_sock : sock_inv t;
  mi_init : forall p c, heap t !! p = Some c -> fsm c = TCP_S_INIT -> ~ opened c;
  mi_last : is_ephemeral (lastEphemeralPort t) = true
}.

Lemma ctx_inv_commit x : ctx_inv x -> self_inv x -> module_inv (commit x).
Proof.
  intros [Hs Ho Hl] Hi. split; [done| |done]. intros p c. cbn.
  intros [[<- <-]|[Hne Hc]]%lookup_insert_Some; [done|]. by eapply Ho.
Qed.

Lemma opened_ident c c' : ident c' = ident c -> opened c' <-> opened c.
Proof. intros Hid. unfold opened. by destruct (ident_keys c c' Hid) as (_ & _ & -> & _). Qed.

Lemma keeps_ctx_inv x x' : same_ident x x' -> ctx_inv x -> ctx_inv x'.
Proof.
  intros [Ht Hp Hid _] [Hs Ho Hl]. split; rewrite ?Ht, ?Hp; try done.
  unfold commit in *. rewrite Ht, Hp. revert Hs. by apply sock_inv_ident.
Qed.

Lemma keeps_self_inv x x' : same_ident x x' -> self_inv x -> self_inv x'.
Proof. intros [_ _ Hid Hi] Hs Hf. rewrite (opened_ident _ _ Hid). auto. Qed.

(** ** The table operations do not look at the heap *)
Lemma updateSockPair_heap p c la ra lp rp t h c' t' :
  updateSockPair p c la ra lp rp t = Ok c' t' ->
  updateSockPair p c la ra lp rp (t <| heap := h |>) = Ok c' (t' <| heap := h |>).
Proof.
  unfold updateSockPair, bind, gets, modify, assert_. change (tcpConnMap (t <| heap := h |>)) with (tcpConnMap t).
  case_bool_decide; [|done]. cbn [ret]. destruct (localPort c =? lp); [|done].
  unfold ret. intros Hr. by injection Hr as <- <-.
Qed.

Lemma addSockPair_heap p c la ra lp rp t h c' t' :
  addSockPair p c la ra lp rp t = Ok c' t' ->
  addSockPair p c la ra lp rp (t <| heap := h |>) = Ok c' (t' <| heap := h |>).
Proof.
  rewrite !addSockPair_run. change (tcpConnMap (t <| heap := h |>)) with (tcpConnMap t).
  destruct (tcpConnMap t !! _); [done|]. intros Hr. by injection Hr as <- <-.
Qed.

Lemma addForkedConnection_heap p c q nc la ra lp rp t h r t' :
  addForkedConnection p c q nc la ra lp rp t = Ok r t' ->
  addForkedConnection p c q nc la ra lp rp (t <| heap := h |>) = Ok r (t' <| heap := h |>).
Proof.
  unfold addForkedConnection. intros (c1 & t1 & Eu & (nc1 & t2 & Ea & Hr)%bind_inv)%bind_inv.
  rewrite (bind_ok _ _ _ _ _ (updateSockPair_heap _ _ _ _ _ _ _ h _ _ Eu)).
  rewrite (bind_ok _ _ _ _ _ (addSockPair_heap _ _ _ _ _ _ _ h _ _ Ea)). by injection Hr as <- <-.
Qed.

Lemma heap_twice t p c c' :
  (t <| heap := <[p := c]> (heap t) |>) <| heap := <[p := c']> (heap (t <| heap := <[p := c]> (heap t) |>)) |>
  = t <| heap := <[p := c']> (heap t) |>.
Proof. apply TCP_eq; try done. cbn. by rewrite insert_insert_eq. Qed.

(** The key of an arriving segment is free or the connection's own. *)
Definition key_free (la ra : IPvXAddress) (lp rp : Z) (x : Ctx) : Prop :=
  mkSockPair la ra lp rp = sockPair_of (self x) \/ tcpConnMap (tcp x) !! mkSockPair la ra lp rp = None.

Lemma keeps_key_free la ra lp rp x x' :
  same_ident x x' -> key_free la ra lp rp x -> key_free la ra lp rp x'.
Proof.
  intros [Ht _ Hid _]. unfold key_free. rewrite Ht. by destruct (ident_keys _ _ Hid) as (_ & -> & _).
Qed.

(** ** The functions that change the tables *)
Lemma updateMySockPair_inv la ra lp rp x u x' :
  ctx_inv x -> self_inv x -> key_free la ra lp rp x -> updateMySockPair la ra lp rp x = Ok u x' ->
  ctx_inv x' /\ self_inv x' /\ this x' = this x.
Proof.
  intros [Hi Hoth Hl] Hself Hfree. unfold updateMySockPair. run_steps. unfold id, bind, on_tcp.
  destruct (updateSockPair (this x) (self x) la ra lp rp (tcp x)) as [c' t'|] eqn:Eu; [|done].
  intros Hr. injection Hr as <- <-.
  pose proof (updateSockPair_heap _ _ _ _ _ _ _ (<[this x := self x]> (heap (tcp x))) _ _ Eu) as Eu'.
  destruct (updateSockPair_spec _ _ _ _ _ _ _ _ _ Hi (lookup_insert_eq _ _ _) Hfree Eu')
    as (-> & _ & Hop & Hi' & Ht').
  assert (Hh : heap t' = heap (tcp x) /\ lastEphemeralPort t' = lastEphemeralPort (tcp x)).
  { revert Eu. unfold updateSockPair, bind, gets, modify, assert_. case_bool_decide; [|done].
    cbn [ret]. destruct (localPort (self x) =? lp); [|done]. unfold ret. intros Hr. by injection Hr as <-. }
  destruct Hh as [Hh Hlt]. split; [|by split; [exact Hself|]]. split; cbn.
  - unfold commit. cbn. rewrite Hh. cbn in Hi'. by rewrite insert_insert_eq in Hi'.
  - rewrite Hh. exact Hoth.
  - by rewrite Hlt.
Qed.

Lemma cloneListeningConnection_run x newc x' :
  cloneListeningConnection x = Ok newc x' ->
  same_ident x x' /\ appKey_of newc = appKey_of (self x) /\ localPort newc = localPort (self x) /\
  fsm newc = TCP_S_LISTEN.
Proof.
  unfold cloneListeningConnection. run_steps. unfold id.
  set (c0 := (TCPConnection_new _ _) <| sendQueue := _ |> <| receiveQueue := _ |> <| tcpAlgorithm := _ |>).
  intros ([] & x1 & E1 & (c1 & x2 & E2 & Hr)%bind_inv)%bind_inv. injection Hr as <- <-.
  pose proof (keeps_configureStateVariables _ _ _ E1) as H1. unfold with_conn in E2.
  destruct (alg_call initialize (x1 <| self := c0 |>)) as [u y|] eqn:Ea; [|done].
  injection E2 as <- <-. pose proof (keeps (m := alg_call initialize) _ _ _ Ea) as [Ht Hth Hid _].
  split.
  - destruct H1 as [H1 H2 H3 H4]. split; cbn; [by rewrite Ht|by rewrite Hth|done|done].
  - destruct (ident_keys _ _ Hid) as (Hk & _). unfold appKey_of in *. cbn in *. done.
Qed.

Lemma forkConnection_inv la ra lp rp x u x' :
  ctx_inv x -> self_inv x -> key_free la ra lp rp x -> forkConnection la ra lp rp x = Ok u x' ->
  ctx_inv x' /\ self_inv x' /\ this x' = this x.
Proof.
  intros Hi Hself Hfree. unfold forkConnection. intros (newc & y & Ec & Hr)%bind_inv.
  destruct (cloneListeningConnection_run _ _ _ Ec) as (Hsame & Hkey & Hlp & Hnf).
  apply (keeps_ctx_inv _ _ Hsame) in Hi as [Hi Hoth Hl]. apply (keeps_self_inv _ _ Hsame) in Hself.
  apply (keeps_key_free _ _ _ _ _ _ Hsame) in Hfree.
  destruct (ident_keys _ _ (id_self _ _ Hsame)) as (Hkx & _ & Hlx & _). rewrite <- Hkx in Hkey.
  rewrite <- Hlx in Hlp. pose proof (id_this _ _ Hsame) as Hth. clear Ec Hsame Hkx Hlx.
  revert Hr. run_steps. unfold id. set (q := nextPtr (tcp y)).
  intros (r & x1 & Ea & Hr)%bind_inv. revert Hr. run_steps. intros Hr. injection Hr as <- <-.
  unfold on_tcp in Ea. cbn in Ea. set (t0 := (tcp y) <| nextPtr := Pos.succ q |>) in Ea.
  destruct (addForkedConnection (this y) (self y) q newc la ra lp rp t0) as [r' t'|] eqn:Ef; [|done].
  injection Ea as -> <-. cbn.
  pose proof (addForkedConnection_heap _ _ _ _ _ _ _ _ _ (<[this y := self y]> (heap (tcp y))) _ _ Ef) as Ef'.
  assert (Hi0 : sock_inv (t0 <| heap := <[this y := self y]> (heap (tcp y)) |>)).
  { apply (sock_inv_nextPtr _ (Pos.succ q)) in Hi; [exact Hi|cbn; lia]. }
  assert (Hq : heap (commit y) !! q = None) by (by apply (sock_inv_fresh (commit y))).
  assert (Hne : this y <> q) by (intros Hq'; cbn in Hq; rewrite Hq', lookup_insert_eq in Hq; done).
  destruct (addForkedConnection_spec _ _ _ _ _ _ _ _ _ _ _ Hi0 (lookup_insert_eq _ _ _) Hq
    ltac:(cbn; lia) Hkey Hlp Hfree Ef') as (-> & _ & _ & _ & Hi').
  assert (Hh : heap t' = heap (tcp y) /\ lastEphemeralPort t' = lastEphemeralPort (tcp y)).
  { apply (f_equal (fun o => match o with Ok _ t => Some (heap t, lastEphemeralPort t) | _ => None end)) in Ef.
    revert Ef. unfold addForkedConnection, updateSockPair, bind, gets, modify, assert_.
    case_bool_decide; [|done]. cbn [ret]. destruct (localPort (self y) =? lp); [|done].
    unfold ret at 1 2. rewrite addSockPair_run. destruct (tcpConnMap _ !! mkSockPair _ _ _ (remotePort newc)); [done|].
    intros [= <- <-]. done. }
  destruct Hh as [Hh Hlt]. split; [|by split; [exact Hself|]]. cbn in Hne. split; cbn.
  - unfold commit. cbn. rewrite Hh. cbn in Hi'. rewrite (insert_insert_ne _ (this y) q), insert_insert_eq,
      (insert_insert_ne _ q (this y)) in Hi' by done. exact Hi'.
  - rewrite Hh. intros p c Hp [[<- <-]|[_ Hc]]%lookup_insert_Some; [by rewrite Hnf|by eapply Hoth].
  - by rewrite Hlt.
Qed.
(** ** Handlers preserve the invariant

    [Safe P m]: started where the invariant and [P] hold, [m] keeps the
    invariant. *)
Definition Safe {A} (P : Ctx -> Prop) (m : Eff Ctx A) : Prop :=
  forall x a x', ctx_inv x -> self_inv x -> P x -> m x = Ok a x' ->
  ctx_inv x' /\ self_inv x' /\ this x' = this x.

Definition always (x : Ctx) : Prop := True.

Lemma keeps_safe {A} P (m : Eff Ctx A) : Keeps m -> Safe P m.
Proof.
  intros Hm x a x' Hi Hs _ Hr. pose proof (Hm _ _ _ Hr) as Hk.
  split; [by eapply keeps_ctx_inv|]. split; [by eapply keeps_self_inv|apply Hk].
Qed.

Lemma safe_bind {A B} P (m : Eff Ctx A) (k : A -> Eff Ctx B) :
  Safe P m -> (forall a, Safe always (k a)) -> Safe P (bind m k).
Proof.
  intros Hm Hk x b x' Hi Hs HP (a & x1 & E1 & E2)%bind_inv.
  destruct (Hm _ _ _ Hi Hs HP E1) as (Hi1 & Hs1 & <-). by eapply Hk.
Qed.

Lemma safe_keep {A B} la ra lp rp (m : Eff Ctx A) (k : A -> Eff Ctx B) :
  Keeps m -> (forall a, Safe (key_free la ra lp rp) (k a)) -> Safe (key_free la ra lp rp) (bind m k).
Proof.
  intros Hm Hk x b x' Hi Hs HP (a & x1 & E1 & E2)%bind_inv. pose proof (Hm _ _ _ E1) as Hx.
  rewrite <- (id_this _ _ Hx). eapply Hk; [by eapply keeps_ctx_inv|by eapply keeps_self_inv|by eapply keeps_key_free|done].
Qed.

Lemma updateMySockPair_safe la ra lp rp : Safe (key_free la ra lp rp) (updateMySockPair la ra lp rp).
Proof. intros x a x' Hi Hs Hf. by apply updateMySockPair_inv. Qed.
Lemma forkConnection_safe la ra lp rp : Safe (key_free la ra lp rp) (forkConnection la ra lp rp).
Proof. intros x a x' Hi Hs Hf. by apply forkConnection_inv. Qed.

Section Segment.
Variables (seg : TCPSegment) (srcAddr destAddr : IPvXAddress).
Abbreviation free := (key_free destAddr srcAddr (destPort seg) (srcPort seg)).

Lemma processSegmentInListen_safe : Safe free (processSegmentInListen seg srcAddr destAddr).
Proof.
  unfold processSegmentInListen.
  destruct (rstBit seg); [apply keeps_safe, _|]. destruct (ackBit seg); [apply keeps_safe, _|].
  destruct (synBit seg); [|apply keeps_safe, _].
  apply safe_keep; [apply _|]. intros f. apply safe_bind.
  - destruct f; [apply forkConnection_safe|apply updateMySockPair_safe].
  - intros _. apply keeps_safe, _.
Qed.

Lemma synInSynSent_safe : Safe free (synInSynSent seg srcAddr destAddr).
Proof.
  unfold synInSynSent. do 3 (apply safe_keep; [apply _|]; intros _).
  apply safe_bind; [apply updateMySockPair_safe|]. intros _. apply keeps_safe, _.
Qed.

Lemma processSegmentInSynSent_safe : Safe free (processSegmentInSynSent seg srcAddr destAddr).
Proof.
  unfold processSegmentInSynSent, or_return.
  apply safe_keep; [unfold checkAckInSynSent; apply _|]. intros [e|]; [apply keeps_safe, _|].
  apply safe_keep; [unfold checkRstInSynSent; apply _|]. intros [e|]; [apply keeps_safe, _|].
  destruct (synBit seg); [apply synInSynSent_safe|apply keeps_safe, _].
Qed.

Lemma processTCPSegment_safe : Safe free (processTCPSegment seg srcAddr destAddr).
Proof.
  unfold processTCPSegment. do 3 (apply safe_keep; [apply _|]; intros ?).
  apply safe_bind; [|intros; apply keeps_safe, _].
  unfold process_RCV_SEGMENT. apply safe_keep; [apply _|].
  intros []; try (apply keeps_safe, _); [apply processSegmentInListen_safe|apply processSegmentInSynSent_safe].
Qed.
End Segment.

(** ** OPEN

    Between [addSockPair] and the state transition the connection has a port
    although it is still in [TCP_S_INIT]. *)
Lemma addMySockPair_inv la ra lp rp x u x' :
  ctx_inv x -> ~ opened (self x) -> is_short lp -> lp <> -1 ->
  addMySockPair la ra lp rp x = Ok u x' -> ctx_inv x' /\ this x' = this x.
Proof.
  intros [Hi Hoth Hl] Ho Hlp Hlp1. unfold addMySockPair. run_steps. unfold id, bind, on_tcp.
  destruct (addSockPair (this x) (self x) la ra lp rp (tcp x)) as [c' t'|] eqn:Ea; [|done].
  intros Hr. injection Hr as <- <-.
  pose proof (addSockPair_heap _ _ _ _ _ _ _ (<[this x := self x]> (heap (tcp x))) _ _ Ea) as Ea'.
  destruct (addSockPair_spec _ _ _ _ _ _ _ _ _ Hi (lookup_insert_eq _ _ _) Ho Hlp Hlp1 Ea')
    as (-> & Hi' & _).
  assert (Hh : heap t' = heap (tcp x) /\ lastEphemeralPort t' = lastEphemeralPort (tcp x)).
  { revert Ea. rewrite addSockPair_run. destruct (tcpConnMap (tcp x) !! _); [done|].
    intros Hr. by injection Hr as <-. }
  destruct Hh as [Hh Hlt]. split; [|done]. split; cbn.
  - unfold commit. cbn. rewrite Hh. cbn in Hi'. by rewrite insert_insert_eq in Hi'.
  - rewrite Hh. exact Hoth.
  - by rewrite Hlt.
Qed.

Lemma ephemeral_inv x port x' :
  ctx_inv x -> on_tcp getEphemeralPort x = Ok port x' ->
  ctx_inv x' /\ self x' = self x /\ this x' = this x /\ is_ephemeral port = true.
Proof.
  intros [Hi Hoth Hl]. unfold on_tcp. pose proof (getEphemeralPort_spec (tcp x) Hl) as Hs.
  destruct (getEphemeralPort (tcp x)) as [port' t'|]; [|done]. destruct Hs as (He & _ & ->).
  intros Hr. injection Hr as <- <-. split; [|done]. split; cbn; [|done|done].
  destruct Hi as [H1 H2 H3 H4 H5 H6]. by split.
Qed.

Lemma opened_same x x' : same_ident x x' -> ~ opened (self x) -> ~ opened (self x').
Proof. intros Hs. by rewrite (opened_ident _ _ (id_self _ _ Hs)). Qed.

Lemma i16_is_short z : is_short (i16 z).
Proof. unfold is_short, i16. lia. Qed.

Lemma process_OPEN_ACTIVE_inv o x u x' :
  ctx_inv x -> self_inv x -> process_OPEN_ACTIVE o x = Ok u x' -> ctx_inv x' /\ this x' = this x.
Proof.
  intros Hi Hs. unfold process_OPEN_ACTIVE. run_steps. destruct (fsm (self x)) eqn:Ef; try done.
  intros ([] & x1 & E1 & Hr)%bind_inv. pose proof (keeps_initConnection _ _ _ _ E1) as Hk1.
  apply (keeps_ctx_inv _ _ Hk1) in Hi. pose proof (opened_same _ _ Hk1 (Hs Ef)) as Ho. revert Hr.
  run_steps. set (x2 := x1 <| self := _ |>).
  assert (Hk2 : same_ident x1 x2) by by split. apply (keeps_ctx_inv _ _ Hk2) in Hi.
  apply (opened_same _ _ Hk2) in Ho. destruct (_ || _); run_steps; [done|].
  intros (lp & x3 & E3 & Hr)%bind_inv.
  assert (H3 : ctx_inv x3 /\ self x3 = self x2 /\ this x3 = this x2 /\ is_short lp /\ lp <> -1).
  { destruct (Z.eqb_spec (i16 (open_localPort o)) (-1)) as [He|Hne].
    - destruct (ephemeral_inv _ _ _ Hi E3) as (? & ? & ? & He3). do 3 (split; [done|]).
      split; [by apply ephemeral_short|]. by intros ->.
    - injection E3 as <- <-. auto using i16_is_short. }
  destruct H3 as (Hi3 & Hs3 & Hth3 & Hshort & Hlp). rewrite <- Hs3 in Ho.
  apply bind_inv in Hr as ([] & x4 & E4 & Hr).
  pose proof (addMySockPair_inv _ _ _ _ _ _ _ Hi3 Ho Hshort Hlp E4) as [Hi4 Hth4].
  apply keeps in Hr. split; [by eapply keeps_ctx_inv|]. rewrite (id_this _ _ Hr), Hth4, Hth3. apply Hk1.
Qed.

Lemma process_OPEN_PASSIVE_inv o x u x' :
  ctx_inv x -> self_inv x -> process_OPEN_PASSIVE o x = Ok u x' -> ctx_inv x' /\ this x' = this x.
Proof.
  intros Hi Hs. unfold process_OPEN_PASSIVE. run_steps. destruct (fsm (self x)) eqn:Ef; try done.
  intros ([] & x1 & E1 & Hr)%bind_inv. pose proof (keeps_initConnection _ _ _ _ E1) as Hk1.
  apply (keeps_ctx_inv _ _ Hk1) in Hi. pose proof (opened_same _ _ Hk1 (Hs Ef)) as Ho. revert Hr.
  run_steps. set (x2 := x1 <| self := _ |>).
  assert (Hk2 : same_ident x1 x2) by by split. apply (keeps_ctx_inv _ _ Hk2) in Hi.
  apply (opened_same _ _ Hk2) in Ho.
  destruct (Z.eqb_spec (i16 (open_localPort o)) (-1)) as [He|Hne]; run_steps; [done|].
  intros Hr. destruct (addMySockPair_inv _ _ _ _ _ _ _ Hi Ho (i16_is_short _) Hne Hr) as [Hi' Hth].
  split; [done|]. rewrite Hth. apply Hk1.
Qed.

Lemma performStateTransition_opened e x b x' :
  e = TCP_E_OPEN_ACTIVE \/ e = TCP_E_OPEN_PASSIVE ->
  performStateTransition e x = Ok b x' -> self_inv x'.
Proof.
  intros He Hr Hf. pose proof (keeps_performStateTransition _ _ _ _ Hr) as Hk.
  pose proof (id_init _ _ Hk Hf) as Hx. exfalso. revert Hr Hf.
  unfold performStateTransition. run_steps. rewrite Hx.
  destruct He as [-> | ->]; cbn [fsm_next]; run_steps; (case_bool_decide; [done|]); run_steps;
    (set (y := x <| self := _ |>)); intros Hr Hf;
    (match type of Hr with ?m y = _ => assert (Hm : Keeps m) by apply _ end);
    pose proof (id_init _ _ (Hm _ _ _ Hr) Hf) as Hy; by cbn in Hy.
Qed.

Lemma processAppCommand_safe cmd : Safe always (processAppCommand cmd).
Proof.
  assert (Hopen : forall (m : Eff Ctx unit) e, e = TCP_E_OPEN_ACTIVE \/ e = TCP_E_OPEN_PASSIVE ->
    (forall x u x', ctx_inv x -> self_inv x -> m x = Ok u x' -> ctx_inv x' /\ this x' = this x) ->
    Safe always (let! event := (m ;;; ret e) in performStateTransition event)).
  { intros m e He Hm x b x' Hi Hs _ (e' & x2 & ([] & x1 & E1 & E1')%bind_inv & E2)%bind_inv.
    injection E1' as <- <-. destruct (Hm _ _ _ Hi Hs E1) as [Hi1 Hth1].
    pose proof (keeps_performStateTransition _ _ _ _ E2) as Hk.
    split; [by eapply keeps_ctx_inv|]. split; [by eapply performStateTransition_opened|].
    by rewrite (id_this _ _ Hk). }
  unfold processAppCommand. destruct cmd.
  1: apply (Hopen _ TCP_E_OPEN_ACTIVE (or_introl eq_refl)), process_OPEN_ACTIVE_inv.
  1: apply (Hopen _ TCP_E_OPEN_PASSIVE (or_intror eq_refl)), process_OPEN_PASSIVE_inv.
  all: apply keeps_safe, _.
Qed.

(** ** One event *)
Lemma run_conn_inv P clock p c m t o t' :
  Safe P m -> module_inv t -> heap t !! p = Some c ->
  P {| this := p; self := c; tcp := t; now := clock; out := [] |} ->
  run_conn clock p c m t = Ok o t' -> module_inv t'.
Proof.
  intros Hm [Hsock Hinit Hlast] Hc HP. unfold run_conn. set (x := mk_Ctx _ _ _ _ _) in *.
  destruct (m x) as [alive x'|] eqn:Em; [|done].
  assert (Hx : ctx_inv x).
  { split; [|intros q d _; apply Hinit|exact Hlast]. unfold commit, x. cbn. rewrite insert_id by done.
    by destruct t. }
  destruct (Hm _ _ _ Hx (Hinit p c Hc) HP Em) as (Hi & Hs & Hth). cbn in Hth.
  pose proof (ctx_inv_commit _ Hi Hs) as Hmod. destruct alive.
  - intros Hr. injection Hr as _ <-. unfold commit in Hmod. by rewrite Hth in Hmod.
  - intros Hr. injection Hr as _ <-. destruct Hmod as [H1 H2 H3].
    destruct (removeConnection_spec _ p (self x') H1) as (t1 & E1 & Hi1 & _);
      [cbn; rewrite Hth; apply lookup_insert_eq|].
    injection E1 as <-. unfold commit in Hi1. rewrite Hth in Hi1.
    cbn -[appKey_of sockPair_of] in Hi1. rewrite delete_insert_eq in Hi1.
    split; [exact Hi1| |exact H3]. cbn. intros q d [Hne Hd]%lookup_delete_Some Hf.
    apply (H2 q d); [|done]. unfold commit. cbn. rewrite Hth. by rewrite lookup_insert_ne.
Qed.

(** An application chooses connection ids that the module will not draw later. *)
Definition fresh_command (t : TCP) (msg : Message) : Prop :=
  match msg with
  | CommandMsg gate id _ =>
      findConnForApp gate id t = None ->
      forall n, (uniqueNumbers t <= n)%nat -> id <> getUniqueNumber n
  | _ => True
  end.

Lemma lookup_conn_run p t : 
  lookup_conn p t = match heap t !! p with
                    | Some c => Ok c t
                    | None => Err (NullPointer "dangling connection pointer")
                    end.
Proof. unfold lookup_conn, bind, gets, id. by destruct (heap t !! p). Qed.

Lemma segment_key_free t seg srcAddr destAddr p c clock :
  sock_inv t -> findConnForSegment seg srcAddr destAddr t = Some p -> heap t !! p = Some c ->
  key_free destAddr srcAddr (destPort seg) (srcPort seg)
    {| this := p; self := c; tcp := t; now := clock; out := [] |}.
Proof.
  intros Hi Hf Hc. unfold findConnForSegment, lookupKeys in Hf. cbn [find_first] in Hf.
  unfold key_free. cbn [self tcp]. destruct (tcpConnMap t !! _) as [q|] eqn:Ek; [|by right]. left.
  injection Hf as ->. apply (si_sock t Hi) in Ek as (c0 & Hc0 & _ & <-). congruence.
Qed.

Lemma handleMessage_inv clock msg t o t' :
  module_inv t -> fresh_command t msg -> handleMessage clock msg t = Ok o t' -> module_inv t'.
Proof.
  intros Hi Hfresh. unfold handleMessage. destruct msg as [p timer|seg src dst| |gate id cmd].
  - unfold bind. rewrite lookup_conn_run. destruct (heap t !! p) as [c|] eqn:Hc; [|done].
    destruct (timer_context timer c); [|done].
    by apply (run_conn_inv always); [apply keeps_safe, _|..].
  - unfold bind at 1, gets, id. destruct (findConnForSegment seg src dst t) as [p|] eqn:Ef.
    + unfold bind. rewrite lookup_conn_run. destruct (heap t !! p) as [c|] eqn:Hc; [|done].
      apply (run_conn_inv (key_free dst src (destPort seg) (srcPort seg)));
        [apply processTCPSegment_safe|done|done|].
      apply segment_key_free; [apply Hi|done|done].
    + destruct (segmentArrivalWhileClosed _ _ _ _); [|done]. intros Hr. by injection Hr as _ <-.
  - intros Hr. by injection Hr as _ <-.
  - unfold bind at 1, gets. destruct (findConnForApp gate id t) as [p|] eqn:Ef.
    + unfold bind. rewrite lookup_conn_run. destruct (heap t !! p) as [c|] eqn:Hc; [|done].
      by apply (run_conn_inv always); [apply processAppCommand_safe|..].
    + unfold bind, modify.
      apply (run_conn_inv always); [apply processAppCommand_safe| |apply lookup_insert_eq|done].
      destruct Hi as [Hs Hinit Hlast]. split.
      * change (appKey_of (TCPConnection_new gate id)) with (mk_AppConnKey gate id).
        apply (createConnection_spec t (TCPConnection_new gate id) (nextPtr t)); try done; try lia.
        -- by apply sock_inv_fresh.
        -- by apply Hfresh.
      * cbn. intros p c [[_ <-]|[_ Hc]]%lookup_insert_Some; [by intros _ Ho; apply Ho|by eapply Hinit].
      * done.
Qed.

(** ** Reachable states *)
Inductive reachable : TCP -> Prop :=
| reach_init : reachable TCP_initialize
| reach_step t clock msg o t' :
    reachable t -> fresh_command t msg -> handleMessage clock msg t = Ok o t' -> reachable t'.

Lemma module_inv_init : module_inv TCP_initialize.
Proof.
  split; [|by intros ??|done]. split; try by intros.
  - intros k p. split; [by intros ?|]. by intros (? & ? & _).
  - intros k p. split; [by intros ?|]. by intros (? & ? & _).
  - intros port. unfold bound. cbn. rewrite multiplicity_empty, map_filter_empty, map_size_empty.
    by destruct (is_ephemeral port).
Qed.

Lemma reachable_inv t : reachable t -> module_inv t.
Proof.
  induction 1 as [|t clock msg o t' _ IH Hf Hr]; [apply module_inv_init|by eapply handleMessage_inv].
Qed.

(** Pointers found in the tables are never dangling. *)
Lemma tables_valid t :
  module_inv t ->
  (forall gate id p, findConnForApp gate id t = Some p ->
     exists c, heap t !! p = Some c /\ appGateIndex c = gate /\ connId c = id) /\
  (forall seg src dst p, findConnForSegment seg src dst t = Some p ->
     exists c, heap t !! p = Some c /\ opened c /\ sockPair_of c ∈ lookupKeys seg src dst).
Proof.
  intros [Hs _ _]. split.
  - intros gate id p (c & Hc & Hk)%(si_app t Hs). injection Hk as <- <-. by exists c.
  - intros seg src dst p (k1 & k & k2 & Hk & Hp & _)%find_first_spec.
    apply (si_sock t Hs) in Hp as (c & Hc & Ho & <-). exists c. split; [done|]. split; [done|].
    rewrite Hk. set_solver.
Qed.
End Module.
