(* ===== verification/TcpTimerSpec.v ===== *)
(** * Timers: round-trip times, retransmission backoff, giving up

    [rttMeasurementComplete] and [processRexmitTimer] of
    [transport/tcp/flavours/TCPBaseAlg.cc], the timeout reaction of Reno and the
    SYN retransmission of [TCPConnectionUtil.cc] / [TCPConnectionBase.cc].  Both
    retransmission timers back off exponentially up to a bound and give up after
    twelve retransmissions. *)
From S2P Require Import Prelude SeqNum TcpTypes TcpSendQueue TcpRcvQueue TcpConnection TcpSend TcpAlgorithm TcpFsm TcpReceive TcpSendSpec TcpAlgSpec TcpFsmSpec.

Definition between (a b v : Z) : Prop := Z.min a b <= v <= Z.max a b.

Section Timers.
Context {E : SimEnv} `{!SimEnvLaws}.
Implicit Types (x y : Ctx) (c : TCPConnection) (r : Z).

(** ** Round-trip time measurement *)
Lemma eighth_between a b : between a b (a + simtime_eighth (b - a)).
Proof.
  unfold between. destruct (Z.le_ge_cases a b).
  - pose proof (eighth_pos (b - a)). lia.
  - pose proof (eighth_neg (b - a)). lia.
Qed.


(** ** Exponential backoff *)
Definition doubled (r : Z) : Z := Z.min (2 * r) MAX_REXMIT_TIMEOUT.

Fixpoint backoff (k : nat) (r : Z) : Z :=
  match k with O => r | S k => backoff k (doubled r) end.

(** Time from the first expiry to the one after [k] retransmissions. *)
Fixpoint waited (k : nat) (r : Z) : Z :=
  match k with O => 0 | S k => doubled r + waited k (doubled r) end.

Lemma doubled_range r :
  0 <= r <= MAX_REXMIT_TIMEOUT -> r <= doubled r <= MAX_REXMIT_TIMEOUT.
Proof. unfold doubled. lia. Qed.

Lemma backoff_closed k r :
  0 <= r <= MAX_REXMIT_TIMEOUT -> backoff k r = Z.min (2 ^ Z.of_nat k * r) MAX_REXMIT_TIMEOUT.
Proof.
  revert r. induction k as [|k IH]; intros r Hr; cbn [backoff]; [change (2 ^ Z.of_nat 0) with 1; lia|].
  rewrite IH by (pose proof (doubled_range r Hr); lia).
  rewrite Nat2Z.inj_succ, Z.pow_succ_r by lia. unfold doubled.
  assert (1 <= 2 ^ Z.of_nat k) by (apply (Z.pow_le_mono_r 2 0); lia). nia.
Qed.

Lemma waited_bound k r :
  0 <= r <= MAX_REXMIT_TIMEOUT -> 0 <= waited k r <= Z.of_nat k * MAX_REXMIT_TIMEOUT.
Proof.
  revert r. induction k as [|k IH]; intros r Hr; cbn [waited]; [lia|].
  pose proof (doubled_range r Hr). specialize (IH (doubled r)). lia.
Qed.

(** ** The retransmission timer *)
Definition backed_off (t0 : Z) (c : TCPConnection) : TCPConnection :=
  let r := doubled (rexmit_timeout (alg c)) in
  c <| alg := (alg c) <| rexmit_count := rexmit_count (alg c) + 1 |> <| rexmit_timeout := r |>
                      <| rtseq_sendtime := 0 |> |>
    <| rexmitTimer := TimerAt (t0 + r) |>.

Lemma rexmit_again x e :
  rexmitTimer (self x) = TimerIdle -> 0 <= rexmit_timeout (alg (self x)) ->
  0 <= rexmit_count (alg (self x)) < MAX_REXMIT_COUNT ->
  TCPBaseAlg.processRexmitTimer e x = Ok e (x <| self := backed_off (now x) (self x) |>).
Proof.
  intros Hi Hr Hn. pose proof second_pos as Hsec. unfold MAX_REXMIT_COUNT in Hn.
  unfold TCPBaseAlg.processRexmitTimer, scheduleTimeout, bind, set_algvar, set_conn, modify, algvar,
    conn, gets, when. cbn -[i32 Z.ltb]. rewrite i32_small by lia.
  rewrite (proj2 (Z.ltb_ge MAX_REXMIT_COUNT _)) by (unfold MAX_REXMIT_COUNT; lia).
  unfold backed_off, doubled. cbn -[Z.ltb].
  destruct (Z.ltb_spec MAX_REXMIT_TIMEOUT (rexmit_timeout (alg (self x)) + rexmit_timeout (alg (self x))));
    cbn -[Z.ltb]; rewrite Hi; cbn -[Z.ltb]; rewrite (proj2 (Z.ltb_ge _ 0)) by
      (unfold MAX_REXMIT_TIMEOUT in *; lia); cbn.
  - rewrite Z.min_r by lia. done.
  - rewrite Z.min_l by lia.
    by replace (2 * rexmit_timeout (alg (self x))) with
      (rexmit_timeout (alg (self x)) + rexmit_timeout (alg (self x))) by lia.
Qed.

Lemma rexmit_give_up x e :
  rexmit_count (alg (self x)) = MAX_REXMIT_COUNT ->
  TCPBaseAlg.processRexmitTimer e x =
    Ok TCP_E_ABORT (x <| self := (self x) <| alg := (alg (self x)) <| rexmit_count := 13 |> |> |>
      <| out := out x ++ [ToApp (appGateIndex (self x)) (Indication TCP_I_TIMED_OUT (connId (self x)))] |>).
Proof.
  intros Hn. unfold TCPBaseAlg.processRexmitTimer, signalConnectionTimeout, sendIndicationToApp,
    sendToApp, emit, bind, set_algvar, set_conn, modify, algvar, conn, gets. cbn -[i32 Z.ltb].
  by rewrite Hn.
Qed.

(** The timer fires at the time it is set for; [k] times in a row, as long as
    the connection is not aborted. *)
Definition expire : Eff Ctx TCPEventCode := fun x =>
  match rexmitTimer (self x) with
  | TimerAt t => TCPBaseAlg.processRexmitTimer TCP_E_IGNORE
                   (x <| now := t |> <| self := set_timer Rexmit TimerIdle (self x) |>)
  | _ => Err (NullPointer "timer")
  end.

Fixpoint expiries (k : nat) : Eff Ctx TCPEventCode :=
  match k with
  | O => ret TCP_E_IGNORE
  | S k => let! e := expire in if bool_decide (e = TCP_E_ABORT) then ret e else expiries k
  end.

Lemma expire_again x t :
  rexmitTimer (self x) = TimerAt t -> 0 <= rexmit_timeout (alg (self x)) ->
  0 <= rexmit_count (alg (self x)) < MAX_REXMIT_COUNT ->
  expire x = Ok TCP_E_IGNORE (x <| now := t |> <| self := backed_off t (self x) |>).
Proof.
  intros Ht Hr Hn. unfold expire. rewrite Ht. by rewrite rexmit_again.
Qed.

Lemma expiries_to_abort k x t :
  rexmitTimer (self x) = TimerAt t -> 0 <= rexmit_timeout (alg (self x)) ->
  0 <= rexmit_count (alg (self x)) -> rexmit_count (alg (self x)) + Z.of_nat k = MAX_REXMIT_COUNT ->
  exists x', expiries (S k) x = Ok TCP_E_ABORT x' /\
    now x' = t + waited k (rexmit_timeout (alg (self x))) /\
    rexmit_timeout (alg (self x')) = backoff k (rexmit_timeout (alg (self x))) /\
    rexmitTimer (self x') = TimerIdle /\
    out x' = out x ++ [ToApp (appGateIndex (self x)) (Indication TCP_I_TIMED_OUT (connId (self x)))].
Proof.
  revert x t. induction k as [|k IH]; intros x t Ht Hr Hn Hk.
  - cbn [expiries]. unfold bind at 1, expire. rewrite Ht. rewrite rexmit_give_up by (cbn in *; lia).
    rewrite bool_decide_eq_true_2 by done. eexists. split; [done|].
    split; [cbn; lia|]. by split.
  - change (expiries (S (S k))) with
      (let! e := expire in if bool_decide (e = TCP_E_ABORT) then ret e else expiries (S k)).
    unfold bind. rewrite (expire_again x t) by (done || lia).
    rewrite bool_decide_eq_false_2 by done.
    pose proof second_pos. set (r := rexmit_timeout (alg (self x))) in *.
    assert (0 <= doubled r) by (unfold doubled, MAX_REXMIT_TIMEOUT; lia).
    destruct (IH (x <| now := t |> <| self := backed_off t (self x) |>) (t + doubled r))
      as (x' & Hrun & Hnow & Hrto & Hrest); [done|done|cbn; lia|cbn -[Z.of_nat] in *; lia|].
    exists x'. split; [exact Hrun|]. split; [|done]. rewrite Hnow. cbn -[doubled waited]. fold r.
    cbn [waited]. lia.
Qed.

(** a retransmission timeout under Reno.  The threshold becomes half of
    the flight (at least two segments), slow start begins again with one segment, the
    RTO is doubled, and everything outstanding is sent again. *)
Theorem reno_timeout_spec x Q U N M F :
  xmit_ok (self x) Q U N M F -> Q <= U -> U < M ->
  tcpAlgorithm (self x) = TCPReno_class -> rexmitTimer (self x) = TimerIdle ->
  0 <= snd_wnd (state (self x)) < 4294967296 ->
  0 <= rexmit_count (alg (self x)) < MAX_REXMIT_COUNT ->
  let mss := snd_mss (state (self x)) in
  let c := backed_off (now x) (self x) in
  let c' := c <| alg := (alg c) <| ssthresh := new_ssthresh (self x) |> <| snd_cwnd := mss |> |> in
  exists sizes outs, data_stream (self x) U sizes outs /\ total_size sizes = Z.min M F - U /\
    Forall (fun n => 0 <= n <= mss) sizes /\
    TcpAlgorithm.processTimer (algorithm TCPReno_class) Rexmit TCP_E_IGNORE x =
      Ok TCP_E_IGNORE (x <| self := with_nxt (u32 M) c' |> <| out := out x ++ outs |>).
Proof.
  intros Hx HQ HU Ha Hi Hw Hn mss c c'. pose proof second_pos as Hsec. pose proof Hx as [HR ? Halg ? ? Hmss Hs].
  assert (Hr : 0 <= rexmit_timeout (alg (self x))) by
    (destruct Halg as (_ & Hb & _); unfold MIN_REXMIT_TIMEOUT in Hb; lia).
  set (x1 := x <| self := c |>). set (x2 := x <| self := c' |>).
  assert (HR2 : snd_repr (self x2) Q U N M F) by (destruct HR; by split).
  destruct (retransmitData_spec x2 Q U N M F mss) as (sizes & outs & Hst & _ & Htot & Hfa & Hrun); try done.
  { unfold mss. lia. }
  exists sizes, outs. split; [|split; [done|split; [done|]]].
  { revert Hst. clear. revert U outs. induction sizes as [|n sizes IH]; intros U [|o outs]; try done.
    cbn. intros [Ho Hst]. split; [exact Ho|by apply IH]. }
  cbn [algorithm TCPReno.ops TcpAlgorithm.processTimer TCPBaseAlg.processTimer]. unfold TCPReno.processRexmitTimer.
  rewrite (bind_ok _ _ _ _ _ (rexmit_again x TCP_E_IGNORE Hi Hr Hn)).
  rewrite bool_decide_eq_false_2 by done. fold c x1.
  rewrite (bind_ok _ _ _ _ _ (recalculate_spec x1 ltac:(exact Hmss))). run_steps.
  by rewrite (bind_ok _ _ _ _ _ Hrun).
Qed.

(** ** SYN retransmission *)
Definition syn_doubled (r : Z) : Z := Z.min (r * 2) TCP_TIMEOUT_SYN_REXMIT_MAX.

Definition syn_backed_off (t0 : Z) (c : TCPConnection) : TCPConnection :=
  let s := state c in
  let r := syn_doubled (syn_rexmit_timeout s) in
  c <| state := s <| snd_nxt := u32 (iss s + 1) |> <| snd_max := u32 (iss s + 1) |>
                  <| syn_rexmit_count := syn_rexmit_count s + 1 |> <| syn_rexmit_timeout := r |> |>
    <| synRexmitTimer := TimerAt (t0 + r) |>.

(** The first segment of the handshake: a SYN, or a SYN+ACK. *)
Definition syn_segment (ack : bool) (c : TCPConnection) : TCPSegment :=
  let s := state c in
  createTCPSegment <| sequenceNo := iss s |> <| synBit := true |> <| window := rcv_wnd s |>
    <| ackNo := if ack then rcv_nxt s else 0 |> <| ackBit := ack |>
    <| srcPort := i16 (localPort c) |> <| destPort := i16 (remotePort c) |>.

Definition syn_out (ack : bool) (c : TCPConnection) : Output :=
  ToIP (localAddr c) (remoteAddr c) TCP_HEADER_OCTETS (syn_segment ack c).

Definition opening (c : TCPConnection) : Prop :=
  fsm c = TCP_S_SYN_RCVD \/
  fsm c = TCP_S_SYN_SENT /\ isUnspecified (remoteAddr c) = false /\ remotePort c <> -1 /\ localPort c <> -1.

Lemma sendSyn_spec x :
  isUnspecified (remoteAddr (self x)) = false ->
  remotePort (self x) <> -1 -> localPort (self x) <> -1 ->
  sendable (localAddr (self x)) (remoteAddr (self x)) = true ->
  sendSyn x = Ok tt (x <| self := with_nxt_max (u32 (iss (state (self x)) + 1)) (self x) |>
                       <| out := out x ++ [syn_out false (self x)] |>).
Proof.
  intros Hu Hrp Hlp Hs. unfold sendSyn, syn_out, syn_segment. run_steps. unfold id. rewrite Hu.
  rewrite (proj2 (Z.eqb_neq (remotePort _) (-1))), (proj2 (Z.eqb_neq (localPort _) (-1))) by done.
  cbn [orb]. run_steps. by rewrite sendToIP_ok.
Qed.

Lemma sendSynAck_spec x :
  sendable (localAddr (self x)) (remoteAddr (self x)) = true ->
  sendSynAck x = Ok tt (x <| self := with_nxt_max (u32 (iss (state (self x)) + 1)) (self x) |>
                          <| out := out x ++ [syn_out true (self x)] |>).
Proof.
  intros Hs. unfold sendSynAck, syn_out, syn_segment. run_steps. unfold id.
  by rewrite sendToIP_ok.
Qed.

Definition in_syn_rcvd (c : TCPConnection) : bool := state_eqb (fsm c) TCP_S_SYN_RCVD.

Definition syn_counted (c : TCPConnection) : TCPConnection :=
  (set_timer SynRexmit TimerIdle c) <| state :=
    (state c) <| syn_rexmit_count := i32 (syn_rexmit_count (state c) + 1) |> |>.

(** The whole handler, below the limit: the segment is repeated with the same
    sequence number and the timer is set to twice the time, up to 240 s. *)
Lemma syn_rexmit_again x :
  opening (self x) -> sendable (localAddr (self x)) (remoteAddr (self x)) = true ->
  0 <= syn_rexmit_count (state (self x)) < MAX_SYN_REXMIT_COUNT ->
  0 <= syn_rexmit_timeout (state (self x)) ->
  processTimer SynRexmit x =
    Ok true (x <| self := syn_backed_off (now x) (self x) |> <| out := out x ++ [syn_out (in_syn_rcvd (self x)) (self x)] |>).
Proof.
  intros Ho Hs Hn Hr. pose proof second_pos as Hsec. unfold MAX_SYN_REXMIT_COUNT in Hn.
  unfold processTimer, process_TIMEOUT_SYN_REXMIT. run_steps.
  set (x1 := x <| self := syn_counted (self x) |>).
  assert (Hcount : syn_rexmit_count (state (self x1)) = syn_rexmit_count (state (self x)) + 1)
    by (cbn -[i32]; by rewrite i32_small by lia).
  rewrite (bind_ok _ _ _ TCP_E_IGNORE (x <| self := syn_backed_off (now x) (self x) |>
    <| out := out x ++ [syn_out (in_syn_rcvd (self x)) (self x)] |>)); [|rewrite run_set_var, run_var; change (x <| self := _ |> <| self := _ |>) with x1; rewrite Hcount;
    rewrite (proj2 (Z.ltb_ge MAX_SYN_REXMIT_COUNT _)) by (unfold MAX_SYN_REXMIT_COUNT; lia); rewrite run_connv].
  2: { change (fsm (self x1)) with (fsm (self x)).
    assert (Hsend : forall m, (m x1 = Ok tt (x1 <| self := with_nxt_max (u32 (iss (state (self x1)) + 1)) (self x1) |>
                                  <| out := out x1 ++ [syn_out (in_syn_rcvd (self x)) (self x1)] |>)) ->
      (m ;;; (set_var (fun s => s <| syn_rexmit_timeout :=
                 Z.min (syn_rexmit_timeout s * 2) TCP_TIMEOUT_SYN_REXMIT_MAX |>) ;;;
              let! t := var syn_rexmit_timeout in
              scheduleTimeout SynRexmit t ;;; ret TCP_E_IGNORE)) x1 =
      Ok TCP_E_IGNORE (x <| self := syn_backed_off (now x) (self x) |>
                         <| out := out x ++ [syn_out (in_syn_rcvd (self x)) (self x)] |>)).
    { intros m Hm. rewrite (bind_ok _ _ _ _ _ Hm). run_steps. unfold scheduleTimeout.
      cbn -[Z.ltb u32 syn_out i32]. rewrite (proj2 (Z.ltb_ge _ 0)) by (unfold TCP_TIMEOUT_SYN_REXMIT_MAX; lia).
      unfold x1, syn_backed_off, syn_doubled. cbn -[u32 i32]. by rewrite i32_small by lia. }
    unfold in_syn_rcvd in *.
    destruct Ho as [Hf|(Hf & Hu & Hrp & Hlp)]; rewrite Hf in Hsend |- *; apply Hsend.
    - by apply sendSynAck_spec.
    - by apply sendSyn_spec. }
  unfold performStateTransition. run_steps. cbn [self].
  change (fsm (self (x <| self := syn_backed_off (now x) (self x) |> <| out := _ |>))) with (fsm (self x)).
  rewrite (proj2 (state_eqb_neq _ _)) by (destruct Ho as [Hf|[Hf _]]; by rewrite Hf). done.
Qed.

Lemma syn_give_up x :
  opening (self x) -> alg_timers_ok (self x) ->
  syn_rexmit_count (state (self x)) = MAX_SYN_REXMIT_COUNT ->
  exists c, processTimer SynRexmit x = Ok false (x <| self := c |>) /\
    fsm c = TCP_S_CLOSED /\ forall id, scheduled (timer_of id c) = false.
Proof.
  intros Ho Ha Hn. unfold processTimer, process_TIMEOUT_SYN_REXMIT. run_steps.
  set (x1 := x <| self := syn_counted (self x) |>).
  erewrite bind_ok; [|rewrite run_set_var, run_var; change (x <| self := _ |> <| self := _ |>) with x1].
  2: { replace (syn_rexmit_count (state (self x1))) with 13 by (cbn -[i32]; by rewrite Hn). done. }
  eexists. split; [|split].
  - rewrite performStateTransition_CLOSED; [done|done|..];
      change (fsm (self x1)) with (fsm (self x)); destruct Ho as [Hf|[Hf _]]; by rewrite Hf.
  - done.
  - apply all_cancelled_idle.
Qed.
End Timers.
