(* ===== verification/TcpHandshake.v ===== *)
(** * The three-way handshake

    An active and a passive opener, each running the code of [TCPConnection],
    reach ESTABLISHED with matching sequence numbers: SYN, SYN+ACK, ACK.  Also the
    refusal of a connection by a host without a listener, which the active opener
    does not recognise. *)
From S2P Require Import Prelude SeqNum TcpTypes TcpSendQueue TcpRcvQueue TcpConnection TcpSockets TcpSend TcpAlgorithm TcpFsm TcpReceive TcpMain TcpSendSpec TcpAlgSpec TcpAckSpec TcpFsmSpec TcpSocketsSpec TcpTimerSpec.

Section Handshake.
Context {E : SimEnv} `{!SimEnvLaws}.
Implicit Types (x y : Ctx) (c : TCPConnection) (seg : TCPSegment).

(** The sequence number chosen at time [t]. *)
Definition iss_at (t : Z) : Z := Z.land (iss_clock t) 4294967295.

Lemma iss_at_u32 t : is_u32 (iss_at t).
Proof.
  unfold is_u32, iss_at. change 4294967295 with (Z.ones 32). rewrite Z.land_ones by lia.
  change (2 ^ 32) with 4294967296. lia.
Qed.

(** ** A connection ready to choose its sequence number *)
Record fresh_conn (c : TCPConnection) : Prop := {
  fc_mss : snd_mss (state c) = u32 par_mss;
  fc_wnd : rcv_wnd (state c) = u32 par_advertisedWindow;
  fc_fin : send_fin (state c) = false;
  fc_alg : alg_ok c;
  fc_rexmit : rexmitTimer c = TimerIdle;
  fc_ssthresh : ssthresh (alg c) = 65535;
  fc_cwnd : snd_cwnd (alg c) <= 2147483647;
  fc_timers : connEstabTimer c = TimerIdle /\ synRexmitTimer c = TimerIdle
}.

(** What stays the same. *)
Definition same_socket (c c' : TCPConnection) : Prop :=
  appGateIndex c' = appGateIndex c /\ connId c' = connId c /\ localAddr c' = localAddr c /\
  remoteAddr c' = remoteAddr c /\ localPort c' = localPort c /\ remotePort c' = remotePort c /\
  fsm c' = fsm c.

(** [tcpAlgorithm->initialize()] *)
Definition initialized (c : TCPConnection) : TCPConnection :=
  match tcpAlgorithm c with
  | DumbTCP_class => c <| rexmitTimer := TimerIdle |>
  | a =>
      let c' := c <| rexmitTimer := TimerIdle |> <| persistTimer := TimerIdle |>
                  <| delayedAckTimer := TimerIdle |> <| keepAliveTimer := TimerIdle |> in
      match a with
      | TCPNoCongestionControl_class => c' <| alg := (alg c) <| snd_cwnd := 2147483647 |> |>
      | _ => c'
      end
  end.

Lemma initialize_run x : alg_call initialize x = Ok tt (x <| self := initialized (self x) |>).
Proof.
  rewrite alg_call_ok. unfold initialized. by destruct (tcpAlgorithm (self x)).
Qed.

Lemma initialized_fields c :
  let c' := initialized c in
  same_socket c c' /\ state c' = state c /\ ssthresh (alg c') = ssthresh (alg c) /\
  rexmit_timeout (alg c') = rexmit_timeout (alg c) /\ rexmitTimer c' = TimerIdle /\
  tcpAlgorithm c' = tcpAlgorithm c /\ connEstabTimer c' = connEstabTimer c /\
  synRexmitTimer c' = synRexmitTimer c /\
  (tcpAlgorithm c <> DumbTCP_class ->
     delayedAckTimer c' <> TimerNull /\ persistTimer c' <> TimerNull /\ keepAliveTimer c' <> TimerNull) /\
  (snd_cwnd (alg c) <= 2147483647 -> snd_cwnd (alg c') <= 2147483647).
Proof. destruct c as [? ? ? ? ? ? ? ? ? ? ? [] ? ? ? ? ? ? ? ?]; cbn; unfold same_socket; cbn; by repeat split. Qed.

Definition configured (s : TCPStateVariables) : TCPStateVariables :=
  s <| snd_mss := u32 par_mss |> <| rcv_wnd := u32 par_advertisedWindow |>.

Definition init_conn (o : TCPOpenCommand) (c : TCPConnection) : TCPConnection :=
  c <| sendQueue := createSendQueue (default par_sendQueueClass (open_sendQueueClass o)) |>
    <| receiveQueue := createReceiveQueue (default par_receiveQueueClass (open_receiveQueueClass o)) |>
    <| tcpAlgorithm := default par_tcpAlgorithmClass (open_tcpAlgorithmClass o) |>
    <| state := configured TCPStateVariables_new |> <| alg := AlgStateVariables_new |>.

Lemma initConnection_spec o x :
  connEstabTimer (self x) = TimerIdle -> synRexmitTimer (self x) = TimerIdle ->
  exists c, initConnection o x = Ok tt (x <| self := c |>) /\ same_socket (self x) c /\ fresh_conn c.
Proof.
  intros H1 H2. pose proof second_pos as Hsec. exists (initialized (init_conn o (self x))). split.
  - unfold initConnection, configureStateVariables. by rewrite run_set_conn, run_set_var, initialize_run.
  - destruct (initialized_fields (init_conn o (self x))) as (Hss & Hst & Hth & Hto & Hrx & Hal & Hce & Hsr & Htm & Hcw).
    split; [exact Hss|]. split; rewrite ?Hst, ?Hth, ?Hrx, ?Hce, ?Hsr; try done; [|apply Hcw; by vm_compute].
    split; [by rewrite Hrx|]. rewrite Hto, Hal. split; [|done].
    cbn. unfold MIN_REXMIT_TIMEOUT, MAX_REXMIT_TIMEOUT. lia.
Qed.

(** ** A connection that has sent its SYN

    [I] is the initial sequence number, [U] the oldest unacknowledged position: [I]
    until the SYN is acknowledged, [I + 1] from then on. *)
Record shaking (c : TCPConnection) (I U : Z) : Prop := {
  sk_iss : iss (state c) = I;
  sk_repr : snd_repr c (I + 1) U (I + 1) (I + 1) (I + 1);
  sk_fin : send_fin (state c) = false;
  sk_mss : snd_mss (state c) = u32 par_mss;
  sk_wnd : rcv_wnd (state c) = u32 par_advertisedWindow;
  sk_alg : alg_ok c;
  sk_ssthresh : ssthresh (alg c) = 65535;
  sk_cwnd : snd_cwnd (alg c) <= 2147483647;
  sk_timers : connEstabTimer c <> TimerNull /\ synRexmitTimer c <> TimerNull
}.

Definition with_iss (I : Z) (q : AnySendQueue) (c : TCPConnection) : TCPConnection :=
  c <| state := (state c) <| iss := I |> <| snd_max := I |> <| snd_nxt := I |> <| snd_una := I |> |>
    <| sendQueue := q |>.

Lemma selectInitialSeqNum_spec x :
  let I := iss_at (now x) in
  exists q, selectInitialSeqNum x = Ok tt (x <| self := with_iss I q (self x) |>) /\
    sq_begin q = u32 (I + 1) /\ sq_getBufferEndSeq q = u32 (I + 1).
Proof.
  intros I. destruct (sq_init_law (u32 (I + 1)) (sendQueue (self x))) as (q & Hq & Hb & He).
  exists q. split; [|done]. unfold selectInitialSeqNum. run_steps. fold (iss_at (now x)). fold I.
  erewrite on_sendQueue_ok by exact Hq. done.
Qed.

Definition syn_timer_started (t0 : Z) (c : TCPConnection) : TCPConnection :=
  c <| state := (state c) <| syn_rexmit_count := 0 |> <| syn_rexmit_timeout := TCP_TIMEOUT_SYN_REXMIT |> |>
    <| synRexmitTimer := TimerAt (t0 + TCP_TIMEOUT_SYN_REXMIT) |>.

Lemma schedule_idle id t x :
  timer_of id (self x) = TimerIdle -> 0 <= t ->
  scheduleTimeout id t x = Ok tt (x <| self := set_timer id (TimerAt (now x + t)) (self x) |>).
Proof.
  intros Hi Ht. unfold scheduleTimeout. run_steps. rewrite Hi, (proj2 (Z.ltb_ge t 0)) by done. done.
Qed.

Lemma isScheduled_run id x :
  timer_of id (self x) <> TimerNull -> isScheduled id x = Ok (scheduled (timer_of id (self x))) x.
Proof. intros Hn. unfold isScheduled. run_steps. by destruct (timer_of id (self x)). Qed.

Lemma startSynRexmitTimer_spec x :
  synRexmitTimer (self x) <> TimerNull ->
  startSynRexmitTimer x = Ok tt (x <| self := syn_timer_started (now x) (self x) |>).
Proof.
  intros Hn. pose proof second_pos. unfold startSynRexmitTimer. run_steps. set (y := x <| self := _ |>).
  assert (Ht : 0 <= TCP_TIMEOUT_SYN_REXMIT) by (unfold TCP_TIMEOUT_SYN_REXMIT; lia).
  assert (Hny : timer_of SynRexmit (self y) <> TimerNull) by done.
  rewrite (bind_ok _ _ _ _ _ (isScheduled_run SynRexmit y Hny)). cbn [timer_of].
  change (synRexmitTimer (self y)) with (synRexmitTimer (self x)).
  destruct (synRexmitTimer (self x)) eqn:Et; [done| |]; cbn [scheduled]; run_steps.
  - by rewrite schedule_idle.
  - rewrite (bind_ok _ _ _ _ _ (cancelEvent_spec SynRexmit y Hny)). run_steps. by rewrite schedule_idle.
Qed.

(** Choosing the sequence number and sending the SYN makes a [fresh_conn] a
    [shaking] one. *)
Definition syn_started (t0 I : Z) (q : AnySendQueue) (c : TCPConnection) : TCPConnection :=
  syn_timer_started t0 (with_nxt_max (u32 (I + 1)) (with_iss I q c)).

Lemma shaking_start c t0 I q :
  fresh_conn c -> is_u32 I -> sq_begin q = u32 (I + 1) -> sq_getBufferEndSeq q = u32 (I + 1) ->
  shaking (syn_started t0 I q c) I I.
Proof.
  intros [] HI Hb He. split; try done.
  - split; cbn; try done || lia.
    + by rewrite u32_small.
    + rewrite fc_fin0. lia.
    + by rewrite fc_fin0.
  - split; [|done]. cbn. by destruct fc_timers0 as [-> _].
Qed.

Lemma started_fields t0 I q c ack :
  let c1 := with_iss I q c in
  syn_timer_started t0 (with_nxt_max (u32 (iss (state c1) + 1)) c1) = syn_started t0 I q c /\
  syn_out ack c1 = syn_out ack (syn_started t0 I q c).
Proof.
  destruct c as [? ? ? ? ? ? ? [] ? ? ? ? ? ? ? ? ? ? ? ?]. cbv zeta. split; cbn -[u32]; reflexivity.
Qed.

Lemma ctx_sent x a b c o :
  x <| self := a |> <| self := b |> <| out := o |> <| self := c |> = x <| self := c |> <| out := o |>.
Proof. by destruct x. Qed.

Lemma ctx_sent_timer x a b c o (f : Z -> TCPConnection -> TCPConnection) :
  let y := x <| self := a |> <| self := b |> in
  let z := y <| self := c |> <| out := out y ++ o |> in
  z <| self := f (now z) (self z) |> = x <| self := f (now x) c |> <| out := out x ++ o |>.
Proof. by destruct x. Qed.

Lemma start_handshake x :
  fresh_conn (self x) -> isUnspecified (remoteAddr (self x)) = false ->
  remotePort (self x) <> -1 -> localPort (self x) <> -1 ->
  sendable (localAddr (self x)) (remoteAddr (self x)) = true ->
  let I := iss_at (now x) in
  exists c, (forall B (k : Eff Ctx B),
      (selectInitialSeqNum ;;; sendSyn ;;; startSynRexmitTimer ;;; k) x =
      k (x <| self := c |> <| out := out x ++ [syn_out false c] |>)) /\
    same_socket (self x) c /\ shaking c I I /\ connEstabTimer c = TimerIdle /\
    active (state c) = active (state (self x)).
Proof.
  intros Hfresh Hu Hrp Hlp Hs I.
  destruct (selectInitialSeqNum_spec x) as (q & Hq & Hqb & Hqe). fold I in Hq, Hqb, Hqe.
  exists (syn_started (now x) I q (self x)). split; [|split; [by split|split; [by apply shaking_start; try apply iss_at_u32|]]].
  - intros B k. rewrite (bind_ok _ _ _ _ _ Hq). set (x2 := x <| self := _ |>).
    rewrite (bind_ok _ _ _ _ _ (sendSyn_spec x2 Hu Hrp Hlp Hs)).
    assert (Ht : synRexmitTimer (self x) <> TimerNull) by (destruct (fc_timers _ Hfresh) as [_ Ht]; by rewrite Ht).
    erewrite bind_ok; [|apply startSynRexmitTimer_spec; exact Ht].
    destruct (started_fields (now x) I q (self x) false) as [<- <-].
    unfold x2. by rewrite ctx_sent.
  - split; [|done]. by destruct (fc_timers _ Hfresh).
Qed.

(** Only these fields matter. *)
Definition xmit_fields (c : TCPConnection) :=
  (state c, alg c, sendQueue c, tcpAlgorithm c,
   (rexmitTimer c, delayedAckTimer c, persistTimer c, keepAliveTimer c)).

Lemma shaking_frame c c' I U :
  shaking c I U -> xmit_fields c' = xmit_fields c ->
  connEstabTimer c' <> TimerNull -> synRexmitTimer c' <> TimerNull -> shaking c' I U.
Proof.
  intros [? [] ? ? ? ? ? ? ?] Hf ? ?. destruct c, c'. cbn in *. injection Hf as -> -> -> -> -> -> -> ->.
  split; [done|split; done|done..].
Qed.

Lemma shaking_estab c I U v s :
  shaking c I U -> v <> TimerNull -> shaking ((set_timer ConnEstab v c) <| fsm := s |>) I U.
Proof. intros Hs Hv. by apply (shaking_frame c); [|destruct c|..|apply Hs]. Qed.

(** The connection is filed under its own key. *)
Definition registered (x : Ctx) : Prop := tcpConnMap (tcp x) !! sockPair_of (self x) = Some (this x).

Lemma transition_run e x s s' :
  fsm (self x) = s -> s <> TCP_S_CLOSED -> e <> TCP_E_IGNORE ->
  fsm_next (active (state (self x))) s e = s' -> s <> s' -> s' <> TCP_S_CLOSED ->
  performStateTransition e x = (stateEntered s' ;;; ret true) (x <| self := (self x) <| fsm := s' |> |>).
Proof.
  intros Hs Hc He Hn Hne Hc'. unfold performStateTransition. rewrite run_connv, Hs.
  rewrite (proj2 (state_eqb_neq s _) Hc). cbn [negb]. rewrite run_assert_true, bool_decide_false by done.
  rewrite run_var, Hn, run_set_conn, (proj2 (state_eqb_neq s s') Hne), (proj2 (state_eqb_neq s' _) Hc'). done.
Qed.

Lemma no_transition x :
  fsm (self x) <> TCP_S_CLOSED -> performStateTransition TCP_E_IGNORE x = Ok true x.
Proof.
  intros Hc. unfold performStateTransition. rewrite run_connv, (proj2 (state_eqb_neq _ _) Hc).
  cbn [negb]. rewrite run_assert_true. by rewrite bool_decide_true.
Qed.

(** ** Step 1: OPEN_ACTIVE sends the SYN *)
Section OpenActive.
Variables (o : TCPOpenCommand) (la ra : IPvXAddress) (lp rp : Z).
Hypotheses (Hla : open_localAddr o = la) (Hra : open_remoteAddr o = ra)
  (Hlp : i16 (open_localPort o) = lp) (Hrp : i16 (open_remotePort o) = rp)
  (Hlp1 : lp <> -1) (Hrp1 : rp <> -1) (Hspec : isUnspecified ra = false) (Hsend : sendable la ra = true).

Lemma addMySockPair_run x :
  tcpConnMap (tcp x) !! mkSockPair la ra lp rp = None ->
  addMySockPair la ra lp rp x =
    Ok tt (x <| self := (self x) <| localAddr := la |> <| remoteAddr := ra |> <| localPort := lp |>
                                 <| remotePort := rp |> |>
             <| tcp := register (tcp x) (this x) (mkSockPair la ra lp rp) lp |>).
Proof.
  intros Hfree. unfold addMySockPair. run_steps. unfold id, bind, on_tcp. by rewrite addSockPair_run, Hfree.
Qed.

Lemma open_active_spec x :
  fsm (self x) = TCP_S_INIT ->
  connEstabTimer (self x) = TimerIdle -> synRexmitTimer (self x) = TimerIdle ->
  tcpConnMap (tcp x) !! mkSockPair la ra lp rp = None ->
  let I := iss_at (now x) in
  exists x1, processAppCommand (TCP_C_OPEN_ACTIVE o) x = Ok true x1 /\
    out x1 = out x ++ [syn_out false (self x1)] /\ this x1 = this x /\ registered x1 /\
    fsm (self x1) = TCP_S_SYN_SENT /\
    localAddr (self x1) = la /\ remoteAddr (self x1) = ra /\ localPort (self x1) = lp /\
    remotePort (self x1) = rp /\ shaking (self x1) I I.
Proof.
  intros Hf Ht1 Ht2 Hfree I. pose proof second_pos as Hsec.
  destruct (initConnection_spec o x Ht1 Ht2) as (c & Hc & (_ & _ & _ & _ & _ & _ & Hcf) & Hfresh).
  set (x0 := x <| self := c <| state := (state c) <| active := true |> |> |>).
  pose proof (addMySockPair_run x0 Hfree) as Ha. set (x1 := _ <| tcp := _ |>) in Ha.
  assert (Hfresh1 : fresh_conn (self x1)) by (destruct Hfresh; by split).
  destruct (start_handshake x1 Hfresh1 Hspec Hrp1 Hlp1 Hsend)
    as (c2 & Hrun & (_ & _ & Hla2 & Hra2 & Hlp2 & Hrp2 & Hf2) & Hsk & Ht & Hact).
  set (x2 := x1 <| self := c2 |> <| out := out x1 ++ [syn_out false c2] |>) in Hrun.
  assert (Hce : 0 <= TCP_TIMEOUT_CONN_ESTAB) by (unfold TCP_TIMEOUT_CONN_ESTAB; lia).
  pose proof (schedule_idle ConnEstab TCP_TIMEOUT_CONN_ESTAB x2 Ht Hce) as Hes.
  assert (Hopen : process_OPEN_ACTIVE o x =
    Ok tt (x2 <| self := set_timer ConnEstab (TimerAt (now x + TCP_TIMEOUT_CONN_ESTAB)) c2 |>)).
  { unfold process_OPEN_ACTIVE. rewrite run_connv, Hf, (bind_ok _ _ _ _ _ Hc), run_set_var.
    change (x <| self := c |> <| self := _ |>) with x0.
    rewrite Hra, Hrp, Hlp, Hla, Hspec, (proj2 (Z.eqb_neq _ _) Hrp1), (proj2 (Z.eqb_neq _ _) Hlp1). cbn [orb].
    rewrite run_when_false, run_ret, (bind_ok _ _ _ _ _ Ha), Hrun. exact Hes. }
  set (c3 := (set_timer ConnEstab (TimerAt (now x + TCP_TIMEOUT_CONN_ESTAB)) c2) <| fsm := TCP_S_SYN_SENT |>).
  exists (x2 <| self := c3 |>). split.
  { unfold processAppCommand. rewrite run_bind, (bind_ok _ _ _ _ _ Hopen), run_ret.
    rewrite (transition_run TCP_E_OPEN_ACTIVE _ TCP_S_INIT TCP_S_SYN_SENT);
      [reflexivity| |discriminate|discriminate|reflexivity|discriminate|discriminate].
    exact (eq_trans Hf2 (eq_trans Hcf Hf)). }
  assert (Hsk3 : shaking c3 I I) by
    exact (shaking_estab c2 I I (TimerAt (now x + TCP_TIMEOUT_CONN_ESTAB)) TCP_S_SYN_SENT Hsk ltac:(discriminate)).
  split; [reflexivity|]. split; [reflexivity|]. split.
  { unfold registered.
    change (<[mkSockPair la ra lp rp := this x]> (tcpConnMap (tcp x)) !!
      mkSockPair (localAddr c2) (remoteAddr c2) (localPort c2) (remotePort c2) = Some (this x)).
    rewrite Hla2, Hra2, Hlp2, Hrp2. apply lookup_insert_eq. }
  split; [reflexivity|]. do 4 (split; [done|]). exact Hsk3.
Qed.
End OpenActive.

(** ** Step 2: the listener answers with SYN+ACK *)
Definition bound_to (la ra : IPvXAddress) (rp : Z) (c : TCPConnection) : TCPConnection :=
  c <| localAddr := la |> <| remoteAddr := ra |> <| remotePort := rp |>.

Definition rekeyed (x : Ctx) (la ra : IPvXAddress) (lp rp : Z) : TCP :=
  (tcp x) <| tcpConnMap := <[mkSockPair la ra lp rp := this x]>
                             (delete (sockPair_of (self x)) (tcpConnMap (tcp x))) |>.

Lemma updateSockPair_run p c la ra lp rp t :
  tcpConnMap t !! sockPair_of c = Some p -> localPort c = lp ->
  updateSockPair p c la ra lp rp t =
    Ok (bound_to la ra rp c)
       (t <| tcpConnMap := <[mkSockPair la ra lp rp := p]> (delete (sockPair_of c) (tcpConnMap t)) |>).
Proof.
  intros Hr <-. unfold updateSockPair, bind, gets, modify, assert_.
  rewrite bool_decide_true by done. rewrite Z.eqb_refl. by destruct t.
Qed.

Lemma updateMySockPair_run x la ra lp rp :
  registered x -> localPort (self x) = lp ->
  updateMySockPair la ra lp rp x =
    Ok tt (x <| self := bound_to la ra rp (self x) |> <| tcp := rekeyed x la ra lp rp |>).
Proof.
  intros Hr Hlp. unfold updateMySockPair. run_steps. unfold id, bind, on_tcp.
  by rewrite updateSockPair_run.
Qed.

(** A connection waiting for a SYN. *)
Record listening (x : Ctx) (lp : Z) : Prop := {
  li_fsm : fsm (self x) = TCP_S_LISTEN;
  li_fresh : fresh_conn (self x);
  li_remote : remoteAddr (self x) = unspecified /\ remotePort (self x) = -1;
  li_port : localPort (self x) = lp;
  li_reg : registered x
}.

(** The listener takes the socket of the peer; with [fork], a clone takes its
    place. *)
Definition takes_socket (x y : Ctx) (la ra : IPvXAddress) (lp rp : Z) : Prop :=
  this y = this x /\ now y = now x /\ out y = out x /\ registered y /\ fresh_conn (self y) /\
  fsm (self y) = fsm (self x) /\ active (state (self y)) = active (state (self x)) /\
  localAddr (self y) = la /\ remoteAddr (self y) = ra /\ localPort (self y) = lp /\
  remotePort (self y) = rp /\ appGateIndex (self y) = appGateIndex (self x).

Lemma bind_nonfork x la ra lp rp :
  listening x lp ->
  exists y, updateMySockPair la ra lp rp x = Ok tt y /\ takes_socket x y la ra lp rp.
Proof.
  intros [Hf Hfr _ Hlp Hreg]. eexists. split; [by apply updateMySockPair_run|].
  do 3 (split; [done|]). split; [|split; [destruct Hfr; by split|]].
  - unfold registered. rewrite <- Hlp.
    exact (lookup_insert_eq (delete (sockPair_of (self x)) (tcpConnMap (tcp x)))
             (mkSockPair la ra (localPort (self x)) rp) (this x)).
  - by do 6 (split; [done|]).
Qed.

Definition clone_of (c : TCPConnection) : TCPConnection :=
  let c0 := initialized ((TCPConnection_new (appGateIndex c) (connId c))
    <| sendQueue := createSendQueue (sendQueue_className (sendQueue c)) |>
    <| receiveQueue := createReceiveQueue (receiveQueue_className (receiveQueue c)) |>
    <| tcpAlgorithm := tcpAlgorithm c |>) in
  c0 <| state := (state c0) <| active := false |> <| fork := true |> |>
     <| localAddr := localAddr c |> <| localPort := localPort c |> <| fsm := TCP_S_LISTEN |>.

Lemma clone_fields c :
  localAddr (clone_of c) = localAddr c /\ remoteAddr (clone_of c) = unspecified /\
  localPort (clone_of c) = localPort c /\ remotePort (clone_of c) = -1 /\
  appKey_of (clone_of c) = appKey_of c /\ fsm (clone_of c) = TCP_S_LISTEN.
Proof.
  unfold clone_of, appKey_of. set (c1 := (TCPConnection_new _ _) <| sendQueue := _ |> <| receiveQueue := _ |> <| tcpAlgorithm := _ |>).
  destruct (initialized_fields c1) as ((G1 & G2 & _ & G4 & _ & G6 & _) & _). cbn zeta in *.
  split; [done|]. split; [exact G4|]. split; [done|]. split; [exact G6|]. split; [|done].
  cbn. by rewrite G1, G2.
Qed.

Lemma cloneListeningConnection_ok x :
  cloneListeningConnection x =
    Ok (clone_of (self x)) (x <| self := (self x) <| state := configured (state (self x)) |> |>).
Proof.
  unfold cloneListeningConnection, configureStateVariables. rewrite run_connv, run_set_var.
  unfold bind, with_conn. rewrite initialize_run. reflexivity.
Qed.

Lemma bind_fork x la ra lp rp :
  listening x lp -> i16 rp <> -1 ->
  exists y, forkConnection la ra lp rp x = Ok tt y /\ takes_socket x y la ra lp rp.
Proof.
  intros [Hf Hfr [Hra0 Hrp0] Hlp Hreg] Hrp. unfold forkConnection.
  pose proof (cloneListeningConnection_ok x) as Hclone.
  destruct (clone_fields (self x)) as (Hcla & Hcra & Hclp & Hcrp & _). set (newc := clone_of (self x)) in *.
  set (x1 := x <| self := _ |>) in Hclone.
  rewrite (bind_ok _ _ _ _ _ Hclone). run_steps. unfold id.
  set (q := nextPtr (tcp x1)). set (x2 := x1 <| tcp := _ |>).
  assert (Hnewkey : mkSockPair (localAddr newc) (remoteAddr newc) (localPort newc) (remotePort newc)
                    = sockPair_of (self x1)).
  { unfold sockPair_of. rewrite Hcla, Hcra, Hclp, Hcrp.
    change (remoteAddr (self x1)) with (remoteAddr (self x)).
    change (remotePort (self x1)) with (remotePort (self x)). by rewrite Hra0, Hrp0. }
  assert (Hne : mkSockPair la ra lp rp <> sockPair_of (self x1)).
  { intros Heq. apply (f_equal sp_remotePort) in Heq. cbn in Heq.
    change (remotePort (self x1)) with (remotePort (self x)) in Heq. by rewrite Hrp0 in Heq. }
  eexists. split.
  - erewrite bind_ok; [reflexivity|]. unfold on_tcp, addForkedConnection, bind at 1.
    rewrite updateSockPair_run by done. unfold bind at 1. rewrite addSockPair_run, Hnewkey.
    change (tcpConnMap (_ <| tcpConnMap := ?m |>)) with m.
    rewrite lookup_insert_ne by done. rewrite lookup_delete_eq. reflexivity.
  - do 3 (split; [done|]). split; [|split; [destruct Hfr; by split|]].
    + unfold registered.
      change (<[sockPair_of (self x1) := q]> (<[mkSockPair la ra lp rp := this x]>
        (delete (sockPair_of (self x1)) (tcpConnMap (tcp x)))) !!
        mkSockPair la ra (localPort (self x)) rp = Some (this x)).
      rewrite Hlp, lookup_insert_ne by done. apply lookup_insert_eq.
    + by do 6 (split; [done|]).
Qed.

Lemma syn_out_estab ack v c : syn_out ack (set_timer ConnEstab v c) = syn_out ack c.
Proof. by destruct c. Qed.

Lemma shaking_timer c I U v : shaking c I U -> v <> TimerNull -> shaking (set_timer ConnEstab v c) I U.
Proof. intros Hs Hv. by apply (shaking_frame c); [|destruct c|..|apply Hs]. Qed.

Lemma same_socket_estab c c' v : same_socket c c' -> same_socket c (set_timer ConnEstab v c').
Proof. by destruct c'. Qed.

(** Sequence numbers of the peer: [J] is its initial one. *)
Definition hears (c : TCPConnection) (J : Z) : Prop := rcv_nxt (state c) = u32 (J + 1) /\ irs (state c) = J.

Lemma rq_init_ok s (q : AnyRcvQueue) : exists q', rq_init s q = Ok tt q'.
Proof. destruct q; by eexists. Qed.

Lemma on_receiveQueue_ok {A} (m : Eff AnyRcvQueue A) x a q :
  m (receiveQueue (self x)) = Ok a q ->
  on_receiveQueue m x = Ok a (x <| self := (self x) <| receiveQueue := q |> |>).
Proof. unfold on_receiveQueue. by intros ->. Qed.

Definition heard (J : Z) (q : AnyRcvQueue) (c : TCPConnection) : TCPConnection :=
  c <| state := (state c) <| rcv_nxt := u32 (J + 1) |> <| irs := J |> |> <| receiveQueue := q |>.

Definition wnd_set (seg : TCPSegment) (c : TCPConnection) : TCPConnection :=
  c <| state := (state c) <| snd_wnd := u32 (window seg) |> <| snd_wl1 := sequenceNo seg |>
                          <| snd_wl2 := iss (state c) |> |>.

Lemma fresh_heard J q c : fresh_conn c -> fresh_conn (heard J q c).
Proof. intros []. by split. Qed.

Lemma shaking_heard J q c I U : shaking c I U -> shaking (heard J q c) I U.
Proof. intros [? [] ? ? ? ? ? ? ?]. split; [done|split; done|done..]. Qed.

Lemma shaking_wnd seg c I U : shaking c I U -> shaking (wnd_set seg c) I U.
Proof. intros [? [] ? ? ? ? ? ? ?]. split; [done|split; done|done..]. Qed.

(** The passive counterpart of [start_handshake]; the listener that becomes
    SYN_RCVD. *)
Definition synack_started (t0 I : Z) (q : AnySendQueue) seg (c : TCPConnection) : TCPConnection :=
  syn_timer_started t0 (with_nxt_max (u32 (I + 1)) (wnd_set seg (with_iss I q c))).

Lemma synack_started_spec t0 I q seg c :
  fresh_conn c -> is_u32 I -> sq_begin q = u32 (I + 1) -> sq_getBufferEndSeq q = u32 (I + 1) ->
  shaking (synack_started t0 I q seg c) I I.
Proof.
  intros Hf HI Hb He. pose proof (shaking_start c t0 I q Hf HI Hb He) as Hs.
  destruct Hs as [? [] ? ? ? ? ? ? ?]. split; [done|split; done|done..].
Qed.

Lemma synack_started_fields t0 I q seg c :
  let c1 := wnd_set seg (with_iss I q c) in
  syn_timer_started t0 (with_nxt_max (u32 (iss (state c1) + 1)) c1) = synack_started t0 I q seg c /\
  syn_out true c1 = syn_out true (synack_started t0 I q seg c) /\
  same_socket c (synack_started t0 I q seg c) /\
  connEstabTimer (synack_started t0 I q seg c) = connEstabTimer c /\
  rcv_nxt (state (synack_started t0 I q seg c)) = rcv_nxt (state c) /\
  irs (state (synack_started t0 I q seg c)) = irs (state c) /\
  active (state (synack_started t0 I q seg c)) = active (state c).
Proof.
  destruct c as [? ? ? ? ? ? ? [] ? ? ? ? ? ? ? ? ? ? ? ?]. cbv zeta. unfold same_socket.
  by split_and!; cbn -[u32].
Qed.

Lemma synack_start t0 I q seg c :
  fresh_conn c -> is_u32 I -> sq_begin q = u32 (I + 1) -> sq_getBufferEndSeq q = u32 (I + 1) ->
  exists c2 w, w = wnd_set seg (with_iss I q c) /\
    syn_timer_started t0 (with_nxt_max (u32 (iss (state w) + 1)) w) = c2 /\
    syn_out true w = syn_out true c2 /\ same_socket c c2 /\ connEstabTimer c2 = TimerIdle /\
    rcv_nxt (state c2) = rcv_nxt (state c) /\ irs (state c2) = irs (state c) /\
    active (state c2) = active (state c) /\ shaking c2 I I.
Proof.
  intros Hf HI Hb He. destruct (synack_started_fields t0 I q seg c) as (Hc & Ho & Hss & Hce & Hnx & Hir & Hac).
  exists (synack_started t0 I q seg c), (wnd_set seg (with_iss I q c)). split; [done|].
  split; [exact Hc|]. split; [exact Ho|]. split; [done|]. split; [rewrite Hce; apply Hf|].
  split; [done|]. split; [done|]. split; [done|]. by apply synack_started_spec.
Qed.

Section Passive.
Variables (syn : TCPSegment) (la ra : IPvXAddress) (J : Z).
Hypotheses (Hsyn : synBit syn = true) (Hack : ackBit syn = false) (Hrst : rstBit syn = false)
  (Hseq : sequenceNo syn = J) (Hlen : payloadLength syn = 0) (Hsend : sendable la ra = true).

(** From the point where the listener has taken the peer's socket. *)
Lemma listen_tail y :
  fresh_conn (self y) -> localAddr (self y) = la -> remoteAddr (self y) = ra ->
  let I := iss_at (now y) in
  exists c,
    (set_var (fun s => s <| rcv_nxt := u32 (sequenceNo syn + 1) |> <| irs := sequenceNo syn |>) ;;;
     on_receiveQueue (rq_init (u32 (sequenceNo syn + 1))) ;;;
     selectInitialSeqNum ;;;
     set_var (fun s => s <| snd_wnd := u32 (window syn) |> <| snd_wl1 := sequenceNo syn |>
                         <| snd_wl2 := iss s |>) ;;;
     sendSynAck ;;;
     startSynRexmitTimer ;;;
     (let! b := isScheduled ConnEstab in
      when (negb b) (scheduleTimeout ConnEstab TCP_TIMEOUT_CONN_ESTAB)) ;;;
     when (0 <? payloadLength syn) (ignore (on_receiveQueue (rq_insertBytesFromSegment syn))) ;;;
     ret TCP_E_RCV_SYN) y =
      Ok TCP_E_RCV_SYN (y <| self := c |> <| out := out y ++ [syn_out true c] |>) /\
    same_socket (self y) c /\ shaking c I I /\ hears c J /\ active (state c) = active (state (self y)).
Proof.
  intros Hfr Hla Hra I. pose proof second_pos as Hsec.
  destruct (rq_init_ok (u32 (J + 1)) (receiveQueue (self y))) as (rq & Hrq).
  set (y1 := y <| self := heard J rq (self y) |>).
  destruct (selectInitialSeqNum_spec y1) as (q & Hq & Hqb & Hqe).
  change (iss_at (now y1)) with I in Hq, Hqb, Hqe.
  destruct (synack_start (now y) I q syn (self y1) (fresh_heard J rq _ Hfr) (iss_at_u32 _) Hqb Hqe)
    as (c2 & w & Hw & Hc & Ho & Hss & Hce' & Hnx & Hir & Hac & Hsk).
  assert (Hws : sendable (localAddr w) (remoteAddr w) = true) by (rewrite Hw; cbn; by rewrite Hla, Hra).
  assert (Hwt : synRexmitTimer w <> TimerNull).
  { rewrite Hw. cbn. destruct (fc_timers _ Hfr) as [_ Ht]. by rewrite Ht. }
  set (v := TimerAt (now y + TCP_TIMEOUT_CONN_ESTAB)).
  exists (set_timer ConnEstab v c2). split.
  - rewrite run_set_var, Hseq. erewrite bind_ok; [|apply on_receiveQueue_ok; exact Hrq].
    change (y <| self := _ |> <| self := _ |>) with y1. rewrite (bind_ok _ _ _ _ _ Hq), run_set_var.
    rewrite <- Hseq at 1. change (y1 <| self := _ |> <| self := _ |>)
      with (y1 <| self := wnd_set syn (with_iss I q (self y1)) |>). rewrite <- Hw.
    erewrite bind_ok; [|apply sendSynAck_spec; exact Hws].
    erewrite bind_ok; [|apply startSynRexmitTimer_spec; exact Hwt].
    pose proof (ctx_sent_timer y (self y1) w (with_nxt_max (u32 (iss (state w) + 1)) w) [syn_out true w]
      syn_timer_started) as Hy2. cbv zeta in Hy2. rewrite Hc in Hy2.
    match goal with |- bind _ _ ?z = _ => set (y3 := z) end.
    assert (Hy3 : y3 = y <| self := c2 |> <| out := out y ++ [syn_out true w] |>) by exact Hy2.
    rewrite Ho in Hy3. rewrite Hy3. clearbody y3. clear Hy2 Hy3 y3. clear Hc Ho. set (y2 := y <| self := c2 |> <| out := _ |>).
    erewrite bind_ok.
    2: { erewrite bind_ok; [|apply isScheduled_run; change (timer_of ConnEstab (self y2)) with (connEstabTimer c2); by rewrite Hce'].
         change (timer_of ConnEstab (self y2)) with (connEstabTimer c2). rewrite Hce'. cbn [scheduled negb when].
         apply schedule_idle; [exact Hce'|unfold TCP_TIMEOUT_CONN_ESTAB; lia]. }
    rewrite Hlen, syn_out_estab. reflexivity.
  - split; [|split; [|split]].
    + exact (same_socket_estab _ _ v Hss).
    + exact (shaking_timer c2 I I v Hsk ltac:(discriminate)).
    + split; [exact Hnx|exact Hir].
    + exact Hac.
Qed.

Lemma listen_syn_spec x lp rp :
  listening x lp -> destPort syn = lp -> srcPort syn = rp -> i16 rp <> -1 ->
  (isUnspecified (localAddr (self x)) = true \/ addr_equals (localAddr (self x)) la = true) ->
  let I := iss_at (now x) in
  exists x1, processTCPSegment syn ra la x = Ok true x1 /\
    out x1 = out x ++ [syn_out true (self x1)] /\ this x1 = this x /\ registered x1 /\
    fsm (self x1) = TCP_S_SYN_RCVD /\
    localAddr (self x1) = la /\ remoteAddr (self x1) = ra /\ localPort (self x1) = lp /\
    remotePort (self x1) = rp /\ shaking (self x1) I I /\ hears (self x1) J.
Proof.
  intros Hli Hdp Hsp Hrp Hloc I. pose proof Hli as [Hf Hfr [Hra0 Hrp0] Hlp Hreg].
  assert (Hbind : exists y, (let! f := var fork in
      if f then forkConnection la ra lp rp else updateMySockPair la ra lp rp) x = Ok tt y /\
      takes_socket x y la ra lp rp).
  { rewrite run_var. destruct (fork (state (self x))); [by apply bind_fork|by apply bind_nonfork]. }
  destruct Hbind as (y & Hy & Hth & Hnow & Hout & Hyreg & Hyf & Hyfsm & Hyact & Hyla & Hyra & Hylp & Hyrp & _).
  destruct (listen_tail y Hyf Hyla Hyra) as (c & Htail & (G1 & G2 & G3 & G4 & G5 & G6 & G7) & Hsk & Hh & Hact).
  rewrite Hnow in Hsk. fold I in Hsk. set (c' := c <| fsm := TCP_S_SYN_RCVD |>).
  exists (y <| self := c' |> <| out := out y ++ [syn_out true c'] |>).
  assert (Hguard : forall B (k : Eff Ctx B),
    (when (negb (isUnspecified (localAddr (self x))))
      (assert_ "localAddr==segDestAddr" (addr_equals (localAddr (self x)) la) ;;;
       assert_ "localPort==tcpseg->getDestPort()" (localPort (self x) =? destPort syn)) ;;; k) x = k x).
  { intros B k. rewrite Hdp, Hlp, Z.eqb_refl. destruct Hloc as [-> | ->]; [done|].
    by destruct (isUnspecified (localAddr (self x))). }
  split.
  - unfold processTCPSegment. rewrite run_connv. unfold id. rewrite Hguard, Hra0. cbn [unspecified isUnspecified].
    rewrite run_when_false. erewrite bind_ok.
    2: { unfold process_RCV_SEGMENT, processSegmentInListen. rewrite run_connv, Hf, Hrst, Hack, Hsyn, Hdp, Hsp.
         rewrite run_var in Hy. rewrite run_var, (bind_ok _ _ _ _ _ Hy). exact Htail. }
    rewrite (transition_run TCP_E_RCV_SYN _ TCP_S_LISTEN TCP_S_SYN_RCVD);
      [|rewrite <- Hf, <- Hyfsm; exact G7|discriminate|discriminate|reflexivity|discriminate|discriminate].
    unfold c'. by destruct c, y.
  - split; [cbn; by rewrite Hout|]. split; [exact Hth|]. split.
    { unfold registered, sockPair_of in *.
      change (tcpConnMap (tcp y) !! mkSockPair (localAddr c) (remoteAddr c) (localPort c) (remotePort c) = Some (this y)).
      by rewrite G3, G4, G5, G6. }
    split; [done|]. split; [cbn; congruence|]. split; [cbn; congruence|]. split; [cbn; congruence|].
    split; [cbn; congruence|]. split; [|exact Hh].
    by apply (shaking_frame c _ _ _ Hsk); [destruct c|apply Hsk|apply Hsk].
Qed.
End Passive.

(** ** The algorithm object learns that the connection is established *)
Definition cwnd_started (c : TCPConnection) : TCPConnection :=
  match tcpAlgorithm c with
  | DumbTCP_class => c
  | _ => c <| alg := (alg c) <| snd_cwnd := snd_mss (state c) |> |>
  end.

Lemma cwnd_started_fields c :
  let c' := cwnd_started c in
  same_socket c c' /\ state c' = state c /\ erase c' = erase c /\
  (alg_ok c -> alg_ok c') /\ ssthresh (alg c') = ssthresh (alg c) /\
  connEstabTimer c' = connEstabTimer c /\ synRexmitTimer c' = synRexmitTimer c /\
  tcpAlgorithm c' = tcpAlgorithm c /\
  (tcpAlgorithm c <> DumbTCP_class -> snd_cwnd (alg c') = snd_mss (state c)).
Proof. destruct c as [? ? ? ? ? ? ? ? ? ? ? [] ? ? ? ? ? ? ? ?]; unfold cwnd_started, same_socket; cbn; by split_and!. Qed.

(** Only sequence variables, queue and algorithm matter to [shaking]. *)
Lemma shaking_erase c c' I U :
  shaking c I U -> erase c' = erase c -> snd_nxt (state c') = snd_nxt (state c) ->
  snd_max (state c') = snd_max (state c) -> alg_ok c' -> ssthresh (alg c') = 65535 ->
  snd_cwnd (alg c') <= 2147483647 -> shaking c' I U.
Proof.
  intros [? [] ? ? ? ? ? ? ?] He Hn Hx Ha Hs Hcw.
  destruct c as [? ? ? ? ? ? ? [] ? ? ? ? ? ? ? ? ? ? ? ?],
    c' as [? ? ? ? ? ? ? [] ? ? ? ? ? ? ? ? ? ? ? ?].
  cbn in *. injection He as -> -> -> -> -> -> -> -> -> -> -> -> -> -> -> -> -> -> -> -> -> -> -> -> -> -> -> -> -> -> -> -> ->.
  subst. split; [done|split; done|done..].
Qed.

Lemma established_passive_run x :
  alg_call (fun a => established a false) x = Ok tt (x <| self := cwnd_started (self x) |>).
Proof.
  rewrite alg_call_ok. unfold cwnd_started. destruct x as [p c t t0 o]. cbn [self].
  by destruct (tcpAlgorithm c).
Qed.

Section Parameters.
Hypothesis Hmss : 0 < u32 par_mss < 65536.

Lemma shaking_cwnd c I U : shaking c I U -> shaking (cwnd_started c) I U.
Proof.
  intros Hs. destruct (cwnd_started_fields c) as (_ & Hst & He & Ha & Ht & _).
  apply (shaking_erase c); rewrite ?Hst; [done..| | |]; [apply Ha, Hs|rewrite Ht; apply Hs|].
  unfold cwnd_started. destruct (tcpAlgorithm c); [apply Hs|cbn; rewrite (sk_mss _ _ _ Hs); lia..].
Qed.

Lemma sendData_nothing x I full cw :
  shaking (self x) I (I + 1) ->
  sendData full cw x = Ok false (x <| self := with_nxt (u32 (I + 1)) (self x) |>).
Proof.
  intros [_ HR _ Hm _ _ _ _ _]. eapply sendData_no; [exact HR|done|lia|].
  unfold may_send, usable. rewrite (proj2 (Z.ltb_ge 0 _)) by lia. done.
Qed.

Lemma ack_sent_fields c v :
  let c' := ack_sent (with_nxt v c) in
  ack_out (with_nxt v c) = ack_out c' /\ same_socket c c' /\ erase c' = erase c /\
  rcv_nxt (state c') = rcv_nxt (state c) /\ irs (state c') = irs (state c) /\
  snd_nxt (state c') = v /\ snd_max (state c') = snd_max (state c) /\
  alg c' = alg c /\ active (state c') = active (state c).
Proof. destruct c as [? ? ? ? ? ? ? ? ? ? ? [] ? ? ? ? ? ? ? ?]; unfold same_socket; cbn; by split_and!. Qed.

Lemma established_active x I :
  shaking (self x) I (I + 1) -> sendable (localAddr (self x)) (remoteAddr (self x)) = true ->
  exists c, alg_call (fun a => established a true) x =
      Ok tt (x <| self := c |> <| out := out x ++ [ack_out c] |>) /\
    same_socket (self x) c /\ shaking c I (I + 1) /\
    rcv_nxt (state c) = rcv_nxt (state (self x)) /\ irs (state c) = irs (state (self x)) /\
    active (state c) = active (state (self x)).
Proof.
  intros Hsk Hs. pose proof (shaking_cwnd _ _ _ Hsk) as Hsk1.
  destruct (cwnd_started_fields (self x)) as ((F1 & F2 & F3 & F4 & F5 & F6 & F7) & Fst & _).
  set (x1 := x <| self := cwnd_started (self x) |>).
  set (c1 := with_nxt (u32 (I + 1)) (cwnd_started (self x))). set (c2 := ack_sent c1).
  assert (Hack : sendAck (x1 <| self := c1 |>) = Ok tt (x <| self := c2 |> <| out := out x ++ [ack_out c2] |>)).
  { rewrite sendAck_spec.
    - destruct (ack_sent_fields (cwnd_started (self x)) (u32 (I + 1))) as (Ho & _).
      cbn zeta in Ho. fold c1 in Ho. fold c2 in Ho. change (self (x1 <| self := c1 |>)) with c1.
      rewrite Ho. by destruct x.
    - apply Hsk1.
    - change (sendable (localAddr (cwnd_started (self x))) (remoteAddr (cwnd_started (self x))) = true).
      by rewrite F3, F4. }
  assert (Hno : forall full cw, (let! sent := sendData full cw in when (negb sent) sendAck) x1 =
    Ok tt (x <| self := c2 |> <| out := out x ++ [ack_out c2] |>)).
  { intros full cw. rewrite (bind_ok _ _ _ _ _ (sendData_nothing x1 I full cw Hsk1)). exact Hack. }
  exists c2. split.
  - rewrite alg_call_ok. unfold x1, cwnd_started in Hno.
    destruct (tcpAlgorithm (self x)) eqn:Ea; cbn [algorithm]; [|apply Hno..].
    change (established DumbTCP.ops true) with (DumbTCP.established true). unfold DumbTCP.established.
    rewrite <- (Hno false (-1)). cbn [when]. by destruct x.
  - destruct (ack_sent_fields (cwnd_started (self x)) (u32 (I + 1))) as (_ & (A1 & A2 & A3 & A4 & A5 & A6 & A7) & He & Hr & Hi & Hn & Hm & Hal & Hac).
    fold c1 c2 in A1, A2, A3, A4, A5, A6, A7, He, Hr, Hi, Hn, Hm, Hal, Hac. rewrite Fst in Hr, Hi, Hac, Hm.
    split; [split_and!; congruence|]. split; [|done].
    apply (shaking_erase (cwnd_started (self x)) _ _ _ Hsk1 He).
    + rewrite Hn. symmetry. apply Hsk1.
    + rewrite Hm, Fst. done.
    + unfold c2. apply alg_ok_ack_sent. exact (sk_alg _ _ _ Hsk1).
    + rewrite Hal. apply Hsk1.
    + rewrite Hal. apply Hsk1.
Qed.

Lemma addr_equals_refl a : addr_equals a a = true.
Proof. destruct a; cbn; by rewrite ?Z.eqb_refl. Qed.

(** The assertions of [processTCPSegment] hold for a segment of the connection. *)
Lemma processTCPSegment_own x seg la ra :
  localAddr (self x) = la -> remoteAddr (self x) = ra ->
  destPort seg = localPort (self x) -> srcPort seg = remotePort (self x) ->
  processTCPSegment seg ra la x =
    (let! event := process_RCV_SEGMENT seg ra la in performStateTransition event) x.
Proof.
  intros Hla Hra Hdp Hsp. unfold processTCPSegment. rewrite run_connv. unfold id.
  rewrite Hla, Hra, Hdp, Hsp, !addr_equals_refl, !Z.eqb_refl.
  by destruct (isUnspecified la), (isUnspecified ra).
Qed.

Lemma deleteTimer_run id x :
  timer_of id (self x) <> TimerNull ->
  deleteTimer id x = Ok tt (x <| self := set_timer id TimerNull (self x) |>).
Proof.
  intros Ht. unfold deleteTimer. rewrite (bind_ok _ _ _ _ _ (cancelEvent_spec id x Ht)).
  rewrite set_conn_eq. destruct x as [p [] t t0 o], id; reflexivity.
Qed.

Definition in_established (c : TCPConnection) : TCPConnection :=
  c <| fsm := TCP_S_ESTABLISHED |> <| connEstabTimer := TimerNull |> <| synRexmitTimer := TimerNull |>.

Lemma enter_ESTABLISHED x e s :
  fsm (self x) = s -> s = TCP_S_SYN_SENT \/ s = TCP_S_SYN_RCVD ->
  fsm_next (active (state (self x))) s e = TCP_S_ESTABLISHED -> e <> TCP_E_IGNORE ->
  connEstabTimer (self x) <> TimerNull -> synRexmitTimer (self x) <> TimerNull ->
  performStateTransition e x = Ok true (x <| self := in_established (self x) |>).
Proof.
  intros Hf Hs Hn He Ht1 Ht2.
  rewrite (transition_run e x s TCP_S_ESTABLISHED);
    [|done|by destruct Hs as [-> | ->]|done|done|by destruct Hs as [-> | ->]|discriminate].
  unfold stateEntered. rewrite run_bind.
  erewrite bind_ok; [|apply deleteTimer_run; exact Ht1]. erewrite bind_ok; [|apply deleteTimer_run; exact Ht2].
  unfold in_established. by destruct x as [p [] t t0 o].
Qed.

(** ** Step 3: the active opener answers the SYN+ACK *)
Definition estab_out (c : TCPConnection) : Output :=
  ToApp (appGateIndex c) (EstabIndication (connId c) (localAddr c) (remoteAddr c) (localPort c) (remotePort c)).

(** [I] and [J] are the initial sequence numbers of the two sides: everything up
    to the SYNs has been acknowledged, nothing more was sent. *)
Record synchronized (c : TCPConnection) (I J : Z) : Prop := {
  sy_fsm : fsm c = TCP_S_ESTABLISHED;
  sy_repr : snd_repr c (I + 1) (I + 1) (I + 1) (I + 1) (I + 1);
  sy_rcv : hears c J
}.

Definition syn_acked J rq ack q seg (c : TCPConnection) : TCPConnection :=
  let c := heard J rq c in
  c <| state := (state c) <| snd_una := ack |> <| snd_wnd := u32 (window seg) |>
                          <| snd_wl1 := J |> <| snd_wl2 := ack |> |> <| sendQueue := q |>.

Lemma syn_acked_shaking c I J rq q seg :
  shaking c I I -> sq_begin q = u32 (I + 1) -> sq_getBufferEndSeq q = u32 (I + 1) ->
  shaking (syn_acked J rq (u32 (I + 1)) q seg c) I (I + 1).
Proof.
  intros [? [] Hfin ? ? ? ? ? ?] Hb He. split; try done. split; cbn; try done; try lia.
Qed.

Lemma shaking_iss c I U : shaking c I U -> is_u32 I -> iss (state c) = u32 I.
Proof. intros Hs HI. rewrite u32_small by done. apply Hs. Qed.

Lemma synsent_synack_spec x synack la ra I J :
  fsm (self x) = TCP_S_SYN_SENT -> registered x -> shaking (self x) I I -> is_u32 I ->
  localAddr (self x) = la -> remoteAddr (self x) = ra -> sendable la ra = true ->
  destPort synack = localPort (self x) -> srcPort synack = remotePort (self x) ->
  synBit synack = true -> ackBit synack = true -> rstBit synack = false ->
  sequenceNo synack = J -> ackNo synack = u32 (I + 1) -> payloadLength synack = 0 ->
  exists x1, processTCPSegment synack ra la x = Ok true x1 /\
    out x1 = out x ++ [ack_out (self x1); estab_out (self x1)] /\
    synchronized (self x1) I J /\ same_socket ((self x) <| fsm := TCP_S_ESTABLISHED |>) (self x1) /\
    rcv_wnd (state (self x1)) = u32 par_advertisedWindow.
Proof.
  intros Hf Hreg Hsk HI Hla Hra Hs Hdp Hsp Hsyn Hack Hrst Hseq Hackno Hlen.
  pose proof (sk_repr _ _ _ Hsk) as HR.
  destruct (rq_init_ok (u32 (J + 1)) (receiveQueue (self x))) as (rq & Hrq).
  destruct (sq_discard_law (u32 (I + 1)) (sendQueue (self x))) as (q & Hq & Hqb & Hqe).
  { rewrite (sr_begin _ _ _ _ _ _ HR), seqLE_u32 by (unfold comparable; lia). lia. }
  { rewrite (sr_end _ _ _ _ _ _ HR), seqLE_u32 by (unfold comparable; lia). lia. }
  rewrite (sr_end _ _ _ _ _ _ HR) in Hqe.
  pose proof (syn_acked_shaking (self x) I J rq q synack Hsk Hqb Hqe) as Hsk1.
  set (c1 := syn_acked J rq (u32 (I + 1)) q synack (self x)) in *.
  set (x1 := x <| self := bound_to la ra (srcPort synack) c1 |>
               <| tcp := rekeyed x la ra (destPort synack) (srcPort synack) |>).
  assert (Hsk2 : shaking (self x1) I (I + 1)) by (apply (shaking_frame c1 _ _ _ Hsk1); [done|apply Hsk1|apply Hsk1]).
  destruct (established_active x1 I Hsk2 Hs) as (c2 & Hest & (G1 & G2 & G3 & G4 & G5 & G6 & G7) & Hsk3 & Hnx & Hir & Hac).
  set (x2 := x1 <| self := c2 |> <| out := _ |>) in Hest.
  assert (Hev : process_RCV_SEGMENT synack ra la x =
    Ok TCP_E_RCV_SYN_ACK (x2 <| out := out x2 ++ [estab_out c2] |>)).
  { unfold process_RCV_SEGMENT, processSegmentInSynSent, checkAckInSynSent, checkRstInSynSent, or_return.
    rewrite run_connv, Hf, run_bind, run_var. unfold id. rewrite Hack, Hackno, (shaking_iss _ _ _ Hsk HI), (sr_nxt _ _ _ _ _ _ HR).
    rewrite seqLE_u32, seqGreater_u32, (proj2 (Z.leb_gt (I + 1) I)), Z.ltb_irrefl by (unfold comparable; lia).
    cbn [orb andb]. rewrite run_ret, Hrst. cbn [negb]. rewrite run_ret, Hsyn.
    unfold synInSynSent. rewrite run_set_var, Hseq.
    erewrite bind_ok; [|apply on_receiveQueue_ok; exact Hrq]. rewrite Hack, run_when_true, run_bind, run_set_var, Hackno.
    rewrite run_bind. erewrite bind_ok; [|apply on_sendQueue_ok; exact Hq]. rewrite run_set_var.
    set (y := x <| self := c1 |>).
    match goal with |- bind _ _ ?z = _ => replace z with y by (unfold y, c1; by destruct x as [p [? ? ? ? ? ? ? [] ? ? ? ? ? ? ? ? ? ? ? ?] t t0 o]) end.
    erewrite bind_ok; [|apply updateMySockPair_run; [exact Hreg|exact (eq_sym Hdp)]].
    change (y <| self := _ |> <| tcp := _ |>) with x1. rewrite run_var. unfold id.
    rewrite (sr_una _ _ _ _ _ _ (sk_repr _ _ _ Hsk2)), (shaking_iss _ _ _ Hsk2 HI).
    rewrite seqGreater_u32, (proj2 (Z.ltb_lt I (I + 1))) by (unfold comparable; lia).
    rewrite Hlen, run_when_false, (bind_ok _ _ _ _ _ Hest). reflexivity. }
  eexists. split.
  - rewrite (processTCPSegment_own x synack la ra Hla Hra Hdp Hsp), (bind_ok _ _ _ _ _ Hev).
    apply (enter_ESTABLISHED _ _ TCP_S_SYN_SENT); [exact (eq_trans G7 Hf)|by left|done|done|apply Hsk3|apply Hsk3].
  - change (self (x2 <| out := _ |>)) with c2.
    assert (Hout : ack_out (in_established c2) = ack_out c2 /\ estab_out (in_established c2) = estab_out c2) by by destruct c2.
    destruct Hout as [Ho1 Ho2]. change (self (_ <| self := in_established c2 |>)) with (in_established c2).
    rewrite Ho1, Ho2. split; [|split; [|split]].
    + change (out (_ <| self := in_established c2 |>)) with ((out x ++ [ack_out c2]) ++ [estab_out c2]).
      by rewrite <- app_assoc.
    + split; [done| |].
      * destruct (sk_repr _ _ _ Hsk3). by split.
      * split; [exact Hnx|exact Hir].
    + unfold same_socket. split_and!; [exact G1|exact G2|cbn; by rewrite Hla|cbn; by rewrite Hra|exact G5| |done].
      exact (eq_trans G6 Hsp).
    + exact (sk_wnd _ _ _ Hsk3).
Qed.

(** ** Step 4: the ACK of the SYN+ACK establishes the passive side *)
Lemma established_xmit_ok c I :
  shaking c I I -> sendable (localAddr c) (remoteAddr c) = true ->
  xmit_ok (cwnd_started c) (I + 1) I (I + 1) (I + 1) (I + 1).
Proof.
  intros Hsk Hs. pose proof (shaking_cwnd _ _ _ Hsk) as Hsk1.
  destruct (cwnd_started_fields c) as ((_ & _ & F3 & F4 & _) & Fst & _ & _ & _ & _ & _ & Fa & Fcw).
  split; [apply Hsk1|lia|apply Hsk1| | | |by rewrite F3, F4].
  - intros Hd. rewrite Fa in Hd. rewrite (Fcw Hd), Fst, (sk_mss _ _ _ Hsk). lia.
  - unfold ssthresh_ok. rewrite (sk_ssthresh _ _ _ Hsk1), (sk_mss _ _ _ Hsk1). lia.
  - rewrite (sk_mss _ _ _ Hsk1). lia.
Qed.

Lemma acked_frame seg q c :
  fsm (acked seg q c) = fsm c /\ send_fin (state (acked seg q c)) = send_fin (state c) /\
  rcv_nxt (state (acked seg q c)) = rcv_nxt (state c) /\ irs (state (acked seg q c)) = irs (state c) /\
  active (state (acked seg q c)) = active (state c) /\
  connEstabTimer (acked seg q c) = connEstabTimer c /\ synRexmitTimer (acked seg q c) = synRexmitTimer c /\
  same_socket c (acked seg q c).
Proof.
  unfold acked, ack_vars, same_socket. case_bool; by destruct c.
Qed.

(** What a step of the sending side leaves alone. *)
Lemma xstep_frame x y :
  xstep x y ->
  fsm (self y) = fsm (self x) /\ send_fin (state (self y)) = send_fin (state (self x)) /\
  rcv_nxt (state (self y)) = rcv_nxt (state (self x)) /\ irs (state (self y)) = irs (state (self x)) /\
  active (state (self y)) = active (state (self x)) /\
  connEstabTimer (self y) = connEstabTimer (self x) /\ synRexmitTimer (self y) = synRexmitTimer (self x) /\
  same_socket (self x) (self y).
Proof.
  intros [He _ _ _ _]. pose proof (fun A (f : TCPConnection -> A) => f_equal f He) as G.
  split; [exact (G _ fsm)|]. split; [exact (G _ (fun c => send_fin (state c)))|].
  split; [exact (G _ (fun c => rcv_nxt (state c)))|]. split; [exact (G _ (fun c => irs (state c)))|].
  split; [exact (G _ (fun c => active (state c)))|].
  split; [exact (G _ connEstabTimer)|]. split; [exact (G _ synRexmitTimer)|].
  split_and!; [exact (G _ appGateIndex)|exact (G _ connId)|exact (G _ localAddr)|exact (G _ remoteAddr)|
    exact (G _ localPort)|exact (G _ remotePort)|exact (G _ fsm)].
Qed.

(** Steps one to four pass for the pure ACK of the SYN. *)
Lemma synrcvd_ack_checks x seg I J :
  fsm (self x) = TCP_S_SYN_RCVD -> shaking (self x) I I -> is_u32 I -> hears (self x) J ->
  u32 par_advertisedWindow < 2147483648 ->
  ackBit seg = true -> synBit seg = false -> rstBit seg = false ->
  sequenceNo seg = u32 (J + 1) -> ackNo seg = u32 (I + 1) -> payloadLength seg = 0 ->
  let c := cwnd_started (self x) in
  process_RCV_SEGMENT seg (remoteAddr (self x)) (localAddr (self x)) x =
    fifthToEighth seg TCP_E_RCV_ACK (x <| self := c |> <| out := out x ++ [estab_out c] |>).
Proof.
  intros Hf Hsk HI [Hnx Hir] HW Hack Hsyn Hrst Hseq Hackno Hlen c. pose proof (sk_repr _ _ _ Hsk) as HR.
  assert (Hw0 : 0 <= u32 par_advertisedWindow) by apply u32_range.
  unfold process_RCV_SEGMENT. rewrite run_connv, Hf.
  unfold processSegment1stThru8th, or_return, checkSequenceNumber, checkRst, checkSyn, checkAckBit.
  rewrite run_bind, run_var. unfold id.
  assert (Hacc : isSegmentAcceptable seg (state (self x)) = true).
  { unfold isSegmentAcceptable. rewrite Hseq, Hnx, Hlen, (sk_wnd _ _ _ Hsk), !u32_add_l.
    rewrite seqGE_u32, seqLE_u32 by (unfold comparable; lia). lia. }
  rewrite Hacc, run_ret, Hrst. cbn [negb]. rewrite run_ret, Hsyn. cbn [negb]. rewrite run_ret, Hack, run_ret, run_connv, Hf.
  change (state_eqb TCP_S_SYN_RCVD TCP_S_SYN_RCVD) with true. cbv iota.
  unfold ackInSynRcvd. rewrite run_bind, run_var. unfold id.
  rewrite (sr_una _ _ _ _ _ _ HR), (sr_nxt _ _ _ _ _ _ HR), Hackno, !seqLE_u32 by (unfold comparable; lia).
  rewrite (proj2 (Z.leb_le I (I + 1))), Z.leb_refl by lia. cbn [negb orb].
  rewrite run_bind, (bind_ok _ _ _ _ _ (established_passive_run x)). reflexivity.
Qed.

Lemma fifthToEighth_pure_ack x seg I :
  xmit_ok (self x) (I + 1) I (I + 1) (I + 1) (I + 1) -> cwnd_room (self x) ->
  fsm (self x) = TCP_S_SYN_RCVD -> send_fin (state (self x)) = false ->
  finBit seg = false -> ackNo seg = u32 (I + 1) -> payloadLength seg = 0 ->
  exists y outs, fifthToEighth seg TCP_E_RCV_ACK x = Ok TCP_E_RCV_ACK y /\
    snd_repr (self y) (I + 1) (I + 1) (I + 1) (I + 1) (I + 1) /\
    fsm (self y) = fsm (self x) /\ rcv_nxt (state (self y)) = rcv_nxt (state (self x)) /\
    irs (state (self y)) = irs (state (self x)) /\ active (state (self y)) = active (state (self x)) /\
    connEstabTimer (self y) = connEstabTimer (self x) /\ synRexmitTimer (self y) = synRexmitTimer (self x) /\
    same_socket (self x) (self y) /\ out y = out x ++ outs /\ Forall is_segment outs.
Proof.
  intros Hx Hroom Hf Hfin Hfb Hackno Hlen.
  destruct (ack_in_window_spec x seg (I + 1) I (I + 1) (I + 1) (I + 1) (I + 1)) as (q & y1 & N' & M' & Hrun & Hst & HM & Hx1);
    [done|done|lia|done|].
  destruct (acked_frame seg q (self x)) as (A1 & A2 & A3 & A4 & A5 & A6 & A7 & A8).
  destruct (xstep_frame _ _ Hst) as (B1 & B2 & B3 & B4 & B5 & B6 & B7 & B8).
  change (self (x <| self := acked seg q (self x) |>)) with (acked seg q (self x)) in *.
  destruct (xs_out _ _ Hst) as (outs & Ho & Hseg).
  set (y := y1 <| self := reset_dupacks (self y1) |>) in *. exists y, outs.
  assert (Hyf : fsm (self y) = TCP_S_SYN_RCVD) by (change (fsm (self y)) with (fsm (self y1)); congruence).
  assert (Hys : send_fin (state (self y)) = false) by (change (send_fin (state (self y))) with (send_fin (state (self y1))); congruence).
  split.
  - unfold fifthToEighth. rewrite run_var, run_connv, Hf. cbn [in_states ack_states existsb].
    change (state_eqb TCP_S_SYN_RCVD TCP_S_SYN_RCVD) with true. cbn [orb]. rewrite (bind_ok _ _ _ _ _ Hrun). cbn [negb].
    unfold ackInClosingStates. rewrite run_bind, run_connv, Hyf, run_bind, run_var, run_ret.
    unfold sixthToEighth, textStep, checkFin. rewrite run_var, run_bind, run_connv, Hlen, Z.ltb_irrefl, andb_false_r.
    rewrite run_when_false, Hfb. cbn [negb]. rewrite run_ret, run_var, Z.eqb_refl. cbn [negb].
    rewrite run_when_false. unfold deferredClose. rewrite run_connv, run_var, Hyf. unfold id. by rewrite Hys.
  - pose proof (xo_repr _ _ _ _ _ _ Hx1) as HR1. unfold discard_pos in HR1. rewrite Z.min_id in HR1.
    pose proof (sr_order _ _ _ _ _ _ HR1) as Hord. pose proof (sr_fin _ _ _ _ _ _ HR1) as Hfn.
    rewrite B2, A2, Hfin in Hfn. replace M' with (I + 1) in * by lia. replace N' with (I + 1) in * by lia.
    split; [destruct HR1; by split|]. unfold same_socket in *. destruct A8 as (? & ? & ? & ? & ? & ? & ?), B8 as (? & ? & ? & ? & ? & ? & ?).
    split_and!; try exact Ho; try exact Hseg; cbn; congruence.
Qed.

Lemma synrcvd_ack_spec x ack la ra I J :
  fsm (self x) = TCP_S_SYN_RCVD -> shaking (self x) I I -> is_u32 I -> hears (self x) J ->
  u32 par_advertisedWindow < 2147483648 ->
  localAddr (self x) = la -> remoteAddr (self x) = ra -> sendable la ra = true ->
  destPort ack = localPort (self x) -> srcPort ack = remotePort (self x) ->
  ackBit ack = true -> synBit ack = false -> rstBit ack = false -> finBit ack = false ->
  sequenceNo ack = u32 (J + 1) -> ackNo ack = u32 (I + 1) -> payloadLength ack = 0 ->
  exists x1 outs, processTCPSegment ack ra la x = Ok true x1 /\
    out x1 = out x ++ estab_out (self x1) :: outs /\ Forall is_segment outs /\
    synchronized (self x1) I J.
Proof.
  intros Hf Hsk HI Hh HW Hla Hra Hs Hdp Hsp Hack Hsyn Hrst Hfb Hseq Hackno Hlen.
  pose proof (synrcvd_ack_checks x ack I J Hf Hsk HI Hh HW Hack Hsyn Hrst Hseq Hackno Hlen) as Hev.
  cbn zeta in Hev. rewrite Hla, Hra in Hev. set (c := cwnd_started (self x)) in *.
  set (x0 := x <| self := c |> <| out := _ |>) in Hev.
  assert (Hxo : xmit_ok c (I + 1) I (I + 1) (I + 1) (I + 1)) by
    (apply established_xmit_ok; [done|by rewrite Hla, Hra]).
  destruct (cwnd_started_fields (self x)) as ((F1 & F2 & F3 & F4 & F5 & F6 & F7) & Fst & _ & _ & _ & Fce & Fsr & Fa & Fcw).
  fold c in F1, F2, F3, F4, F5, F6, F7, Fst, Fce, Fsr, Fa, Fcw.
  assert (Hroom : cwnd_room c).
  { unfold cwnd_room. pose proof (shaking_cwnd _ _ _ Hsk) as Hsk1. fold c in Hsk1.
    pose proof (sk_cwnd _ _ _ Hsk1). rewrite (sk_mss _ _ _ Hsk1). lia. }
  destruct (fifthToEighth_pure_ack x0 ack I) as (y & outs & Hy & HR & Hyf & Hynx & Hyir & Hyact & Hyce & Hysr & Hyss & Ho & Hseg');
    try done; [exact (eq_trans F7 Hf)|change (state (self x0)) with (state c); rewrite Fst; apply Hsk|].
  change (self x0) with c in *. exists (y <| self := in_established (self y) |>), outs. split.
  - rewrite (processTCPSegment_own x ack la ra Hla Hra Hdp Hsp), (bind_ok _ _ _ _ _ (eq_trans Hev Hy)).
    apply (enter_ESTABLISHED _ _ TCP_S_SYN_RCVD); [congruence|by right|done|done| |];
      [rewrite Hyce, Fce|rewrite Hysr, Fsr]; apply Hsk.
  - assert (He : estab_out (in_established (self y)) = estab_out c).
    { destruct Hyss as (S1 & S2 & S3 & S4 & S5 & S6 & _). unfold estab_out. cbn.
      by rewrite S1, S2, S3, S4, S5, S6. }
    change (self (y <| self := in_established (self y) |>)) with (in_established (self y)). rewrite He.
    split; [|split; [done|]].
    + change (out (y <| self := _ |>)) with (out y). rewrite Ho.
      change (out x0) with (out x ++ [estab_out c]). by rewrite <- app_assoc.
    + split; [done|destruct HR; by split|]. destruct Hh as [Hh1 Hh2]. split; cbn; rewrite ?Hynx, ?Hyir, Fst; done.
Qed.
End Parameters.

(** ** Refused connections *)
Definition rst_segment (seq sport dport : Z) : TCPSegment :=
  createTCPSegment <| srcPort := i16 sport |> <| destPort := i16 dport |> <| rstBit := true |>
    <| sequenceNo := seq |>.

Definition rstack_segment (ack sport dport : Z) : TCPSegment :=
  createTCPSegment <| srcPort := i16 sport |> <| destPort := i16 dport |> <| rstBit := true |>
    <| ackBit := true |> <| sequenceNo := 0 |> <| ackNo := ack |>.

(** The answer of a host without a matching connection. *)
Definition closed_answer (seg : TCPSegment) : option TCPSegment :=
  if rstBit seg then None
  else Some (if ackBit seg then rst_segment (ackNo seg) (destPort seg) (srcPort seg)
             else rstack_segment (u32 (sequenceNo seg + u32 (payloadLength seg))) (destPort seg) (srcPort seg)).

Lemma segmentArrivalWhileClosed_spec seg src dst x :
  sendable dst src = true ->
  segmentArrivalWhileClosed seg src dst x =
    Ok tt (x <| out := out x ++ match closed_answer seg with
                                | Some rst => [ToIP dst src 0 rst]
                                | None => []
                                end |>).
Proof.
  intros Hs. unfold segmentArrivalWhileClosed, closed_answer.
  destruct (rstBit seg); [cbn; rewrite app_nil_r; by destruct x|].
  unfold sendRstAck, sendRst_addr, sendToIP_addr, sendToIP_raw. rewrite Hs. by destruct (ackBit seg).
Qed.

Lemma synsent_bad_ack x seg la ra :
  fsm (self x) = TCP_S_SYN_SENT -> ackBit seg = true ->
  seqLE (ackNo seg) (iss (state (self x))) = true -> sendable la ra = true ->
  process_RCV_SEGMENT seg ra la x =
    Ok TCP_E_IGNORE (x <| out := out x ++
      [ToIP la ra 0 (rst_segment (ackNo seg) (destPort seg) (srcPort seg))] |>).
Proof.
  intros Hf Hack Hle Hs. unfold process_RCV_SEGMENT, processSegmentInSynSent, checkAckInSynSent, or_return.
  rewrite run_connv, Hf, run_bind, run_var. unfold id. rewrite Hack, Hle. cbn [andb orb]. rewrite run_bind.
  unfold sendRst_addr, sendToIP_addr, sendToIP_raw. rewrite Hs. reflexivity.
Qed.
End Handshake.
