(* ===== verification/TcpTextSpec.v ===== *)
(** * Receiving text

    The seventh step of segment processing ([processText]) on a connection with
    the byte-count receive queue: text that continues the stream is passed up at
    once together with everything it makes contiguous; text beyond a gap is kept
    and acknowledged. *)
From S2P Require Import Prelude SeqNum TcpTypes TcpSendQueue TcpRcvQueue TcpConnection TcpSend TcpAlgorithm TcpFsm TcpReceive TcpSendSpec TcpHandshake.

Section Text.
Context {E : SimEnv}.
Implicit Types (x : Ctx) (c : TCPConnection) (seg : TCPSegment).

Definition data_indications (c : TCPConnection) (msgs : list cPacket) : list Output :=
  map (fun m => ToApp (appGateIndex c) (DataIndication (connId c) m)) msgs.

Lemma sendAllToApp_run msgs x :
  sendAllToApp msgs x = Ok tt (x <| out := out x ++ data_indications (self x) msgs |>).
Proof.
  revert x. induction msgs as [|m msgs IH]; intros x; cbn [sendAllToApp].
  { unfold data_indications. cbn [map]. rewrite app_nil_r. by destruct x. }
  rewrite run_connv. unfold sendToApp. rewrite run_bind, run_connv. unfold emit. rewrite run_modify, IH.
  cbn [data_indications map]. cbn. by rewrite <- app_assoc.
Qed.

Definition text_received (n : Z) (q : AnyRcvQueue) (c : TCPConnection) : TCPConnection :=
  c <| receiveQueue := q |> <| state := (state c) <| rcv_nxt := n |> |>.

(** A method of the byte-count queue. *)
Lemma rdispatch_virtual {A} (mv : Eff TCPVirtualDataRcvQueue.t A) mm q a q' :
  mv q = Ok a q' -> rdispatch mv mm (VirtualDataRQ q) = Ok a (VirtualDataRQ q').
Proof. unfold rdispatch. by intros ->. Qed.

Section Segment.
Variables (x : Ctx) (q : TCPVirtualDataRcvQueue.t) (N : Z) (l : list (Z * Z)) (hi : Z)
  (seg : TCPSegment) (b len : Z).
Hypotheses (Hq : receiveQueue (self x) = VirtualDataRQ q) (Hnxt : rcv_nxt (state (self x)) = u32 N)
  (HR : vd_repr q N l) (Hw : below hi l) (Hep : in_epoch N hi)
  (Hlen : 0 < len) (He : b + len <= hi)
  (Hseq : sequenceNo seg = u32 b) (Hpl : payloadLength seg = len).

Lemma insert_any n q1 :
  TCPVirtualDataRcvQueue.insertBytesFromSegment seg q = Ok n q1 ->
  rq_insertBytesFromSegment seg (receiveQueue (self x)) = Ok n (VirtualDataRQ q1).
Proof. intros Hi. rewrite Hq. exact (rdispatch_virtual _ _ _ _ _ Hi). Qed.

Lemma text_in_order :
  b = N -> fin_rcvd (state (self x)) = false ->
  let have z := N <= z < N + len \/ covers l z in
  exists q' N' l' msgs,
    processText seg x =
      Ok tt (x <| self := text_received (u32 N') (VirtualDataRQ q') (self x) |>
               <| out := out x ++ data_indications (self x) msgs |>) /\
    octets msgs = N' - N /\ N + len <= N' /\ first_missing have N N' /\
    vd_repr q' N' l' /\ below hi l' /\ (forall z, covers l' z <-> have z /\ N' <= z).
Proof.
  intros Hb Hfin have. subst b.
  destruct (insert_extract_spec q N l hi seg N len) as (q1 & q2 & N' & l' & Hrun & _ & Hx & HR2 & Hw2 & Hfm & Hc);
    try done; try lia.
  assert (HN' : N + len <= N' <= hi).
  { destruct Hfm as (Hle & Hall & Hnot). split.
    - destruct (Z.le_gt_cases (N + len) N'); [done|]. destruct Hnot. left. lia.
    - eapply first_missing_bound; [split; [exact Hle|split; [exact Hall|exact Hnot]]|lia|].
      intros z [|Hz]; [lia|]. by apply (covers_below hi l). }
  set (m := {| pk_name := "data"; pk_byteLength := N' - N |}).
  exists q2, N', l', [m]. split; [|cbn; by split_and!; try lia].
  unfold processText. rewrite run_var.
  erewrite bind_ok; [|apply on_receiveQueue_ok, insert_any; exact Hrun]. rewrite run_set_var, Hnxt.
  rewrite (proj2 (Z.eqb_neq (u32 N) (u32 N'))) by (destruct Hep as [Hep1 Hep2]; unfold half_window, u32 in *; lia).
  erewrite bind_ok.
  2: { apply on_receiveQueue_ok. apply (extract_all_one (VirtualDataRQ q1) (VirtualDataRQ q2) (VirtualDataRQ q2) (u32 N') m).
       - apply rdispatch_virtual. cbn [rq_extractBytesUpTo VirtualDataRcvQueue_ReceiveQueue].
         unfold TCPVirtualDataRcvQueue.extractBytesUpTo. rewrite (bind_ok _ _ _ _ _ Hx).
         by rewrite (proj2 (Z.eqb_neq _ 0)) by lia.
       - apply rdispatch_virtual. eapply extract_gap; [done|done|]. eapply in_epoch_advance; [done|lia].
       - cbn. unfold TCPVirtualDataRcvQueue.bound. lia. }
  erewrite bind_ok; [|apply sendAllToApp_run]. rewrite run_var. unfold id.
  match goal with |- context [fin_rcvd (state (self ?y))] => change (fin_rcvd (state (self y))) with (fin_rcvd (state (self x))) end.
  rewrite Hfin. cbn [andb]. by destruct x as [p [] t t0 o].
Qed.

Lemma text_out_of_order :
  N < b ->
  let have z := b <= z < b + len \/ covers l z in
  exists q' l',
    processText seg x =
      alg_call receivedOutOfOrderSegment (x <| self := text_received (u32 N) (VirtualDataRQ q') (self x) |>) /\
    vd_repr q' N l' /\ below hi l' /\ (forall z, covers l' z <-> have z).
Proof.
  intros Hb have.
  destruct (insert_spec q N l hi seg b len) as (q1 & Hrun & Hn1 & Hl1); try done; [apply Hep|lia|].
  destruct (pos_merge_spec N b (b + len) l) as (Ha1 & Hc1 & Hw1); [apply HR|lia..|].
  set (l1 := pos_merge b (b + len) l) in *.
  assert (Hna : next_after N l1 = N).
  { clear -Ha1. inversion Ha1 as [|? b1 e1 l' Hb1 ? ?]; subst; [done|]. cbn.
    by rewrite (proj2 (Z.leb_gt b1 N)) by lia. }
  rewrite Hna in *. exists q1, l1. split; [|split; [by split|split; [by apply Hw1|done]]].
  unfold processText. rewrite run_var.
  erewrite bind_ok; [|apply on_receiveQueue_ok, insert_any; exact Hrun]. rewrite run_set_var, Hnxt, Z.eqb_refl.
  by destruct x as [p [] t t0 o].
Qed.
End Segment.
End Text.
