(* ===== verification/TcpProperties.v ===== *)
(** * TCP: the main properties

    The theorems of the TCP part as a reader wants them, put together from the
    component files, each with an instance at a concrete connection ([Demo]). *)
From S2P Require Import Prelude SeqNum TcpTypes TcpSendQueue TcpRcvQueue TcpStream TcpConnection TcpSockets TcpSend TcpAlgorithm TcpFsm TcpReceive TcpMain TcpSendSpec TcpAlgSpec TcpAckSpec TcpFsmSpec TcpSocketsSpec TcpModuleSpec TcpTimerSpec TcpHandshake TcpTextSpec.

(** ** A concrete simulation

    Picosecond resolution, an MSS of 1024, the message based queues, Reno. *)
Module Demo.

#[export] Instance env : SimEnv := {
  simtime_second := 1000000000000;
  simtime_eighth t := Z.quot t 8;
  iss_clock t := (t * 250000 / 1000000000000) mod 4294967296;
  getUniqueNumber n := 1000 + Z.of_nat n;
  par_mss := 1024;
  par_advertisedWindow := 14336;
  par_sendQueueClass := TCPMsgBasedSendQueue_class;
  par_receiveQueueClass := TCPMsgBasedRcvQueue_class;
  par_tcpAlgorithmClass := TCPReno_class
}.

#[export] Instance laws : SimEnvLaws.
Proof.
  split; cbn; try done; intros; try lia.
  - rewrite Z.quot_div_nonneg by lia. lia.
  - pose proof (Z.quot_opp_l t 8 ltac:(lia)). rewrite Z.quot_div_nonneg in * by lia. lia.
Qed.

Definition here : IPvXAddress := IPv4 1.
Definition there : IPvXAddress := IPv4 2.

Definition msg (n : Z) : cPacket := {| pk_name := "m"; pk_byteLength := n |}.

(** A queue with the octets [Q, F) in one message. *)
Definition queue (Q F : Z) : TCPMsgBasedSendQueue.t :=
  {| TCPMsgBasedSendQueue.begin_ := Q; TCPMsgBasedSendQueue.end_ := F;
     TCPMsgBasedSendQueue.payloadQueue := [(F, msg (F - Q))] |}.

(** An established connection: [U], [N], [M] are [snd_una], [snd_nxt], [snd_max]. *)
Definition conn_at (Q U N M F : Z) : TCPConnection :=
  let c := TCPConnection_new 0 7 in
  c <| localAddr := here |> <| remoteAddr := there |> <| localPort := 1025 |> <| remotePort := 80 |>
    <| fsm := TCP_S_ESTABLISHED |>
    <| state := TCPStateVariables_new <| snd_mss := 1024 |> <| snd_una := U |> <| snd_nxt := N |>
                  <| snd_max := M |> <| snd_wnd := 8192 |> <| rcv_nxt := 501 |> <| rcv_wnd := 14336 |> |>
    <| alg := AlgStateVariables_new <| snd_cwnd := 4096 |> |>
    <| sendQueue := MsgBasedSQ (queue Q F) |>
    <| rexmitTimer := TimerIdle |> <| persistTimer := TimerIdle |>
    <| delayedAckTimer := TimerIdle |> <| keepAliveTimer := TimerIdle |>.

Definition ctx (c : TCPConnection) : Ctx :=
  {| this := 1%positive; self := c; tcp := TCP_initialize; now := 5; out := [] |}.

Lemma repr_at Q U N M F :
  is_u32 Q -> is_u32 U -> is_u32 N -> is_u32 M -> is_u32 F ->
  U <= N <= M -> M <= F -> Q <= F -> F + 2 - U < 2147483648 -> U - 1 <= Q <= U + 1 ->
  snd_repr (conn_at Q U N M F) Q U N M F.
Proof. intros. split; cbn; rewrite ?u32_small by done; done || lia. Qed.

Lemma xmit_ok_at Q U N M F :
  is_u32 Q -> is_u32 U -> is_u32 N -> is_u32 M -> is_u32 F ->
  U <= N <= M -> M <= F -> Q <= M -> F + 2 - U < 2147483648 -> U - 1 <= Q <= U + 1 ->
  xmit_ok (conn_at Q U N M F) Q U N M F.
Proof.
  intros. split; [apply repr_at; done || lia|done| | |by vm_compute|done|done].
  - split; [done|]. split; [by vm_compute|done].
  - intros _. by vm_compute.
Qed.
End Demo.

Section Properties.
Context {E : SimEnv} `{!SimEnvLaws}.
Implicit Types (x : Ctx) (c : TCPConnection) (seg : TCPSegment).


(** C16: [retransmitData] returns and sends again exactly the octets from
    [snd_una] to [snd_max], in consecutive segments of at most one MSS (the last one
    with the FIN if that is outstanding), and leaves [snd_nxt] at [snd_max]. *)
Theorem retransmitData_resends_all x Q U N M F mss :
  snd_repr (self x) Q U N M F -> Q <= U -> U < M ->
  snd_mss (state (self x)) = mss -> 0 < mss < 2147483648 ->
  sendable (localAddr (self x)) (remoteAddr (self x)) = true ->
  exists sizes outs, data_stream (self x) U sizes outs /\ sizes <> [] /\
    total_size sizes = Z.min M F - U /\ Forall (fun n => 0 <= n <= mss) sizes /\
    retransmitData x =
      Ok tt (x <| self := with_nxt (u32 M) (self x) |> <| out := out x ++ outs |>).
Proof. apply retransmitData_spec. Qed.

(** C17: an ACK of new data, at position [A] in [(snd_una, snd_max]].  The
    acknowledged octets leave the send queue, [snd_una] becomes [A], [snd_nxt] never
    stays behind it, the window is taken from the segment when it is newer, the
    duplicate counter is reset, and whatever the algorithm class sends in reaction
    keeps the sending side consistent and takes nothing back. *)
Theorem ack_of_new_data x seg Q U N M F A :
  xmit_ok (self x) Q U N M F -> cwnd_room (self x) ->
  U < A <= M -> ackNo seg = u32 A ->
  exists q x1 N' M', processAckInEstabEtc seg x = Ok true (x1 <| self := reset_dupacks (self x1) |>) /\
    xstep (x <| self := acked seg q (self x) |>) x1 /\
    M <= M' /\ xmit_ok (self x1) (discard_pos A F) A N' M' F.
Proof. apply ack_in_window_spec. Qed.

(** ACKs outside the window.  An old ACK changes nothing but the duplicate
    counter; an ACK of data not yet sent is answered with an ACK and stops the
    processing of the segment. *)
Theorem acks_outside_window x seg Q U N M F A :
  xmit_ok (self x) Q U N M F -> ackNo seg = u32 A ->
  (A <= U -> U - A < 2147483648 -> is_dupack seg (state (self x)) = false ->
   processAckInEstabEtc seg x = Ok true (x <| self := reset_dupacks (self x) |>)) /\
  (M < A -> A - U < 2147483648 ->
   exists x1 N' M', processAckInEstabEtc seg x = Ok false (x1 <| self := reset_dupacks (self x1) |>) /\
     xstep x x1 /\ M <= M' /\ xmit_ok (self x1) Q U N' M' F).
Proof.
  intros Hx Hseg. split.
  - intros HA HA2 Hd. by apply (old_ack_spec x seg Q U N M F A).
  - intros HA HA2. destruct (ack_beyond_spec x seg Q U N M F A) as (x1 & N' & Hr & Hs & M' & Hm & Hx1); try done.
    by exists x1, N', M'.
Qed.

(** The next event of a connection: a later time, no output yet. *)
Definition resume (t : Z) (x : Ctx) : Ctx := x <| now := t |> <| out := [] |>.

(** C1: the three-way handshake.  A connection opened actively and a listening
    one (forking or not), each running its own code, exchange SYN, SYN+ACK and ACK;
    both report the connection as established and end in ESTABLISHED with matching
    sequence numbers: what one side sends next is what the other expects next. *)
Theorem three_way_handshake xc xs o la ra lp rp t1 t2 :
  0 < u32 par_mss < 65536 -> u32 par_advertisedWindow < 2147483648 ->
  open_localAddr o = la -> open_remoteAddr o = ra ->
  i16 (open_localPort o) = lp -> i16 (open_remotePort o) = rp -> lp <> -1 -> rp <> -1 ->
  isUnspecified ra = false -> sendable la ra = true -> sendable ra la = true ->
  fsm (self xc) = TCP_S_INIT ->
  connEstabTimer (self xc) = TimerIdle -> synRexmitTimer (self xc) = TimerIdle ->
  tcpConnMap (tcp xc) !! mkSockPair la ra lp rp = None ->
  listening xs rp ->
  (isUnspecified (localAddr (self xs)) = true \/ addr_equals (localAddr (self xs)) ra = true) ->
  let I := iss_at (now xc) in let J := iss_at (now xs) in
  exists x1 syn x2 synack x3 ack x4 outs,
    processAppCommand (TCP_C_OPEN_ACTIVE o) xc = Ok true x1 /\
    out x1 = out xc ++ [ToIP la ra TCP_HEADER_OCTETS syn] /\
    processTCPSegment syn la ra xs = Ok true x2 /\
    out x2 = out xs ++ [ToIP ra la TCP_HEADER_OCTETS synack] /\
    processTCPSegment synack ra la (resume t1 x1) = Ok true x3 /\
    out x3 = [ToIP la ra TCP_HEADER_OCTETS ack; estab_out (self x3)] /\
    processTCPSegment ack la ra (resume t2 x2) = Ok true x4 /\
    out x4 = estab_out (self x4) :: outs /\ Forall is_segment outs /\
    synchronized (self x3) I J /\ synchronized (self x4) J I.
Proof.
  intros Hmss HW Hla Hra Hlp Hrp Hlp1 Hrp1 Hspec Hs1 Hs2 Hf Ht1 Ht2 Hfree Hli Hloc I J.
  assert (HL : i16 lp = lp) by (rewrite <- Hlp; apply i16_short, i16_is_short).
  assert (HR : i16 rp = rp) by (rewrite <- Hrp; apply i16_short, i16_is_short).
  destruct (open_active_spec o la ra lp rp Hla Hra Hlp Hrp Hlp1 Hrp1 Hspec Hs1 xc Hf Ht1 Ht2 Hfree)
    as (x1 & Hrun1 & Ho1 & _ & Hreg1 & Hf1 & A1 & A2 & A3 & A4 & Hsk1). fold I in Hsk1.
  set (syn := syn_segment false (self x1)).
  assert (Hsp : srcPort syn = lp) by (cbn; by rewrite A3). assert (Hdp : destPort syn = rp) by (cbn; by rewrite A4).
  destruct (listen_syn_spec syn ra la I eq_refl eq_refl eq_refl (sk_iss _ _ _ Hsk1) eq_refl Hs2 xs rp lp Hli Hdp Hsp
    ltac:(by rewrite HL) Hloc) as (x2 & Hrun2 & Ho2 & _ & _ & Hf2 & B1 & B2 & B3 & B4 & Hsk2 & Hh2). fold J in Hsk2.
  set (synack := syn_segment true (self x2)).
  destruct (synsent_synack_spec Hmss (resume t1 x1) synack la ra I J) as (x3 & Hrun3 & Ho3 & Hsy3 & Hss3 & _); try done.
  { apply iss_at_u32. } { cbn. by rewrite A3, B4. } { cbn. by rewrite A4, B3. }
  { exact (sk_iss _ _ _ Hsk2). } { exact (proj1 Hh2). }
  destruct Hss3 as (_ & _ & S3 & S4 & S5 & S6 & _). cbn in S3, S4, S5, S6.
  set (ack := (ack_segment (state (self x3))) <| srcPort := i16 (localPort (self x3)) |>
                <| destPort := i16 (remotePort (self x3)) |>).
  destruct (synrcvd_ack_spec Hmss (resume t2 x2) ack ra la J I) as (x4 & outs & Hrun4 & Ho4 & Hseg & Hsy4); try done.
  { apply iss_at_u32. } { cbn. by rewrite S6, A4, HR, B3. } { cbn. by rewrite S5, A3, HL, B4. }
  { cbn. rewrite (sr_nxt _ _ _ _ _ _ (sy_repr _ _ _ Hsy3)). done. } { exact (proj1 (sy_rcv _ _ _ Hsy3)). }
  exists x1, syn, x2, synack, x3, ack, x4, outs. unfold syn_out in Ho1, Ho2. unfold ack_out in Ho3.
  rewrite A1, A2 in Ho1. rewrite B1, B2 in Ho2. rewrite S3, S4, A1, A2 in Ho3. by split_and!.
Qed.


(** C12: in every state the module reaches from [initialize] by handling timers,
    segments, ICMP errors and commands, each connection is filed under its own keys
    and only there, each ephemeral port is marked once per connection bound to it,
    and new addresses and connection ids are fresh. *)
Theorem reachable_tables_consistent t : reachable t -> module_inv t.
Proof. apply reachable_inv. Qed.


(** text of an acceptable segment with octets [b, b + len), [N] being
    [rcv_nxt].  At [b = N] the application gets the octets up to the first one still
    missing, and that becomes [rcv_nxt]; beyond a gap the text is kept, nothing is
    passed up and the algorithm class is told (it sends an ACK). *)
Theorem text_delivered x q N l hi seg b len :
  receiveQueue (self x) = VirtualDataRQ q -> rcv_nxt (state (self x)) = u32 N ->
  vd_repr q N l -> below hi l -> in_epoch N hi -> 0 < len -> b + len <= hi ->
  sequenceNo seg = u32 b -> payloadLength seg = len -> fin_rcvd (state (self x)) = false ->
  let have z := b <= z < b + len \/ covers l z in
  (b = N ->
   exists q' N' l' msgs,
     processText seg x =
       Ok tt (x <| self := text_received (u32 N') (VirtualDataRQ q') (self x) |>
                <| out := out x ++ data_indications (self x) msgs |>) /\
     octets msgs = N' - N /\ N + len <= N' /\ first_missing have N N' /\
     vd_repr q' N' l' /\ below hi l' /\ (forall z, covers l' z <-> have z /\ N' <= z)) /\
  (N < b ->
   exists q' l',
     processText seg x =
       alg_call receivedOutOfOrderSegment (x <| self := text_received (u32 N) (VirtualDataRQ q') (self x) |>) /\
     vd_repr q' N l' /\ below hi l' /\ (forall z, covers l' z <-> have z)).
Proof.
  intros Hq Hn HR Hw Hep Hlen He Hseq Hpl Hfin have. split.
  - intros ->. by apply (text_in_order x q N l hi seg N len).
  - intros Hb. by apply (text_out_of_order x q N l hi seg b len).
Qed.


(** SYN retransmission.  While a connection is opening, each expiry of the
    timer repeats its SYN (or SYN+ACK) and doubles the time to the next, up to 240 s;
    after twelve repetitions the connection goes to CLOSED, all timers stopped, and is
    removed. *)
Theorem syn_retransmission x :
  opening (self x) -> sendable (localAddr (self x)) (remoteAddr (self x)) = true ->
  alg_timers_ok (self x) -> 0 <= syn_rexmit_timeout (state (self x)) ->
  (0 <= syn_rexmit_count (state (self x)) < MAX_SYN_REXMIT_COUNT ->
   processTimer SynRexmit x =
     Ok true (x <| self := syn_backed_off (now x) (self x) |>
                <| out := out x ++ [syn_out (in_syn_rcvd (self x)) (self x)] |>)) /\
  (syn_rexmit_count (state (self x)) = MAX_SYN_REXMIT_COUNT ->
   exists c, processTimer SynRexmit x = Ok false (x <| self := c |>) /\
     fsm c = TCP_S_CLOSED /\ forall id, scheduled (timer_of id c) = false).
Proof.
  intros Ho Hs Ha Hr. split; [intros Hn; by apply syn_rexmit_again|intros Hn; by apply syn_give_up].
Qed.


(** a transition to CLOSED stops every timer of the connection and tells
    the module to remove it. *)
Theorem closed_stops_timers x e :
  alg_timers_ok (self x) -> fsm (self x) <> TCP_S_CLOSED ->
  fsm_next (active (state (self x))) (fsm (self x)) e = TCP_S_CLOSED ->
  exists c, performStateTransition e x = Ok false (x <| self := c |>) /\
    fsm c = TCP_S_CLOSED /\ forall id, scheduled (timer_of id c) = false.
Proof.
  intros Ha Hs Hn. eexists. split; [by apply performStateTransition_CLOSED|].
  split; [done|]. apply all_cancelled_idle.
Qed.

(** C26: [getEphemeralPort] terminates; it returns an unused port of the range
    and remembers it, or reports exhaustion when every port of the range is used. *)
Theorem ephemeral_port_search t :
  is_ephemeral (lastEphemeralPort t) = true ->
  match getEphemeralPort t with
  | Ok port t' => is_ephemeral port = true /\ (port ∉ usedEphemeralPorts t) /\
                  t' = t <| lastEphemeralPort := port |>
  | Err e => e = RuntimeError "Ephemeral port range exhausted" /\
             forall port, is_ephemeral port = true -> port ∈ usedEphemeralPorts t
  end.
Proof. apply getEphemeralPort_spec. Qed.

(** a refused connection is not noticed.  The answer of a host without a
    listener to a SYN acknowledges [ISS] (the SYN is not counted), which the active
    opener in SYN_SENT takes for a bad ACK: it sends a reset itself and stays in
    SYN_SENT. *)
Theorem refusal_not_recognised x la ra y0 :
  fsm (self x) = TCP_S_SYN_SENT -> is_u32 (iss (state (self x))) ->
  localAddr (self x) = la -> remoteAddr (self x) = ra ->
  is_short (localPort (self x)) -> is_short (remotePort (self x)) ->
  sendable la ra = true -> sendable ra la = true ->
  exists rst rst', segmentArrivalWhileClosed (syn_segment false (self x)) la ra y0 =
      Ok tt (y0 <| out := out y0 ++ [ToIP ra la 0 rst] |>) /\
    rstBit rst = true /\ ackBit rst = true /\ ackNo rst = iss (state (self x)) /\
    processTCPSegment rst ra la x = Ok true (x <| out := out x ++ [ToIP la ra 0 rst'] |>).
Proof.
  intros Hf HI Hla Hra Hlp Hrp Hs1 Hs2. set (I := iss (state (self x))) in *.
  set (rst := rstack_segment I (remotePort (self x)) (localPort (self x))).
  exists rst, (rst_segment I (destPort rst) (srcPort rst)). split.
  { rewrite segmentArrivalWhileClosed_spec by done. unfold closed_answer. cbn -[u32 rstack_segment].
    change (u32 0) with 0. rewrite Z.add_0_r. fold I. rewrite (u32_small I HI), (i16_short _ Hlp), (i16_short _ Hrp). done. }
  do 3 (split; [done|]).
  rewrite (processTCPSegment_own x rst la ra Hla Hra (i16_short _ Hlp) (i16_short _ Hrp)).
  rewrite (bind_ok _ _ _ _ _ (synsent_bad_ack x rst la ra Hf eq_refl (seqLE_refl I HI) Hs1)).
  rewrite no_transition; [done|]. cbn. by rewrite Hf.
Qed.

(** a segment that matches no connection.  A reset is dropped; anything
    else is answered with a reset: [<SEQ=SEG.ACK><CTL=RST>] when the segment carries
    an ACK, [<SEQ=0><ACK=SEG.SEQ+length><CTL=RST,ACK>] otherwise. The module's state
    does not change. *)
Theorem unmatched_segment_answered clock t seg src dst :
  findConnForSegment seg src dst t = None -> sendable dst src = true ->
  handleMessage clock (SegmentMsg seg src dst) t =
    Ok (match closed_answer seg with Some rst => [ToIP dst src 0 rst] | None => [] end) t.
Proof.
  intros Hf Hs. unfold handleMessage, bind, gets, id. rewrite Hf.
  by rewrite segmentArrivalWhileClosed_spec.
Qed.

(** the sequence number comparisons agree with the order of the stream
    positions as long as these are less than 2^31 apart; at exactly 2^31 none of them
    holds in either direction. *)
Theorem sequence_comparison a b :
  (comparable a b ->
   seqLess (u32 a) (u32 b) = (a <? b) /\ seqLE (u32 a) (u32 b) = (a <=? b) /\
   seqGreater (u32 a) (u32 b) = (b <? a) /\ seqGE (u32 a) (u32 b) = (b <=? a)) /\
  (Z.abs (a - b) = 2147483648 ->
   seqLE (u32 a) (u32 b) = false /\ seqGE (u32 a) (u32 b) = false /\
   seqLess (u32 a) (u32 b) = false /\ seqGreater (u32 a) (u32 b) = false).
Proof.
  split.
  - intros Hc. rewrite seqLess_u32, seqLE_u32, seqGreater_u32, seqGE_u32 by done. done.
  - intros Hd. unfold seqLE, seqGE, seqLess, seqGreater, u32. split_and!; lia.
Qed.

(** an ACK exactly 2^31 above [snd_max], with nothing outstanding, passes
    neither test of [processAckInEstabEtc] and fails the assertion that guards the
    last branch: a segment from the network stops the simulation. *)
Theorem ack_half_space_asserts x seg M :
  snd_una (state (self x)) = u32 M -> snd_max (state (self x)) = u32 M ->
  ackNo seg = u32 (M + 2147483648) ->
  processAckInEstabEtc seg x = Err (AssertionFailed "seqGreater(ackNo, snd_max)").
Proof.
  intros Hu Hm Ha. unfold processAckInEstabEtc. rewrite run_var. unfold id. rewrite Hu, Hm, Ha.
  replace (seqGE (u32 M) (u32 (M + 2147483648))) with false by (unfold seqGE, u32; lia).
  replace (seqLE (u32 (M + 2147483648)) (u32 M)) with false by (unfold seqLE, u32; lia).
  replace (seqGreater (u32 (M + 2147483648)) (u32 M)) with false by (unfold seqGreater, u32; lia).
  done.
Qed.
End Properties.



(** ** Instances *)
Section Witnesses.
Import Demo.


Lemma retransmitData_resends_all_witness :
  let x := ctx (conn_at 101 101 2601 2601 3101) in
  exists sizes outs x', data_stream (self x) 101 sizes outs /\ total_size sizes = 2500 /\
    retransmitData x = Ok tt x' /\ out x' = outs.
Proof.
  cbv zeta. set (x := ctx (conn_at 101 101 2601 2601 3101)).
  destruct (retransmitData_resends_all x 101 101 2601 2601 3101 1024) as (sizes & outs & Hst & _ & Ht & _ & Hr);
    [apply repr_at; unfold is_u32; lia|lia|lia|done|lia|done|].
  exists sizes, outs. eexists. split; [exact Hst|]. split; [rewrite Ht; lia|]. split; [exact Hr|done].
Defined.

Definition ack_seg (a : Z) : TCPSegment := createTCPSegment <| ackBit := true |> <| ackNo := a |>
  <| sequenceNo := 501 |> <| window := 8192 |>.

Lemma ack_of_new_data_witness :
  let x := ctx (conn_at 101 101 2601 2601 3101) in
  exists x', processAckInEstabEtc (ack_seg 1125) x = Ok true x'.
Proof.
  cbv zeta. set (x := ctx (conn_at 101 101 2601 2601 3101)).
  destruct (ack_of_new_data x (ack_seg 1125) 101 101 2601 2601 3101 1125) as (q & x1 & N' & M' & Hr & _);
    [apply xmit_ok_at; unfold is_u32; lia|by vm_compute|lia|done|].
  eexists. exact Hr.
Defined.

Lemma duplicate_ack_counted_witness :
  let x := ctx (conn_at 101 101 2601 2601 3101) in
  exists x', processAckInEstabEtc (ack_seg 101) x = Ok true x'.
Proof.
  cbv zeta. set (x := ctx (conn_at 101 101 2601 2601 3101)).
  destruct (dup_ack_spec x (ack_seg 101) 101 101 2601 2601 3101) as (x1 & N' & M' & Hr & _);
    [apply xmit_ok_at; unfold is_u32; lia|lia|by vm_compute|done|done|done|].
  eexists. exact Hr.
Defined.

Lemma acks_outside_window_witness :
  let x := ctx (conn_at 101 101 2601 2601 3101) in
  processAckInEstabEtc (ack_seg 50) x = Ok true (x <| self := reset_dupacks (self x) |>) /\
  exists x', processAckInEstabEtc (ack_seg 5000) x = Ok false x'.
Proof.
  cbv zeta. set (x := ctx (conn_at 101 101 2601 2601 3101)).
  assert (Hx : xmit_ok (self x) 101 101 2601 2601 3101) by (apply xmit_ok_at; unfold is_u32; lia).
  split.
  - apply (acks_outside_window x (ack_seg 50) 101 101 2601 2601 3101 50 Hx eq_refl); done || lia.
  - destruct (proj2 (acks_outside_window x (ack_seg 5000) 101 101 2601 2601 3101 5000 Hx eq_refl))
      as (x1 & N' & M' & Hr & _); [lia|lia|]. eexists. exact Hr.
Defined.

(** ** The handshake *)
Definition open_cmd (la ra : IPvXAddress) (lp rp : Z) (fk : bool) : TCPOpenCommand :=
  {| open_localAddr := la; open_remoteAddr := ra; open_localPort := lp; open_remotePort := rp;
     open_fork := fk; open_sendQueueClass := None; open_receiveQueueClass := None;
     open_tcpAlgorithmClass := None |}.

(** The module after a passive OPEN on port 80, and its listening connection. *)
Definition listener : TCP :=
  match handleMessage 7 (CommandMsg 0 5 (TCP_C_OPEN_PASSIVE (open_cmd unspecified unspecified 80 (-1) true)))
          TCP_initialize with
  | Ok _ t => t
  | Err _ => TCP_initialize
  end.

Definition listening_conn : TCPConnection := default (TCPConnection_new 0 0) (heap listener !! 1%positive).

Lemma listener_listening :
  listening {| this := 1; self := listening_conn; tcp := listener; now := 8; out := [] |} 80.
Proof.
  split; cbn [self tcp this].
  - vm_compute. reflexivity.
  - split; try (vm_compute; reflexivity).
    + split; [vm_compute; discriminate|]. split; [vm_compute; by split|]. intros _.
      split; [vm_compute; discriminate|]. split; vm_compute; discriminate.
    + vm_compute. discriminate.
    + split; vm_compute; reflexivity.
  - split; vm_compute; reflexivity.
  - vm_compute. reflexivity.
  - unfold registered. cbn [self tcp this]. vm_compute. reflexivity.
Qed.

Lemma three_way_handshake_witness :
  let xc := ctx (TCPConnection_new 0 9) in
  let xs := {| this := 1; self := listening_conn; tcp := listener; now := 8; out := [] |} in
  exists x3 x4, synchronized (self x3) (iss_at 5) (iss_at 8) /\ synchronized (self x4) (iss_at 8) (iss_at 5).
Proof.
  cbv zeta.
  destruct (three_way_handshake (ctx (TCPConnection_new 0 9))
    {| this := 1; self := listening_conn; tcp := listener; now := 8; out := [] |}
    (open_cmd here there 1025 80 false) here there 1025 80 20 30)
    as (x1 & syn & x2 & synack & x3 & ack & x4 & outs & _ & _ & _ & _ & _ & _ & _ & _ & _ & Hc & Hs).
  1-16: cbn [self tcp ctx]. 
  - by vm_compute.
  - by vm_compute.
  - reflexivity.
  - reflexivity.
  - reflexivity.
  - reflexivity.
  - lia.
  - lia.
  - reflexivity.
  - reflexivity.
  - reflexivity.
  - reflexivity.
  - reflexivity.
  - reflexivity.
  - reflexivity.
  - exact listener_listening.
  - left. vm_compute. reflexivity.
  - by exists x3, x4.
Defined.


Lemma listener_reachable : reachable listener.
Proof.
  eapply (reach_step TCP_initialize 7 (CommandMsg 0 5 (TCP_C_OPEN_PASSIVE (open_cmd unspecified unspecified 80 (-1) true))));
    [apply reach_init|intros _ n _; change (5 <> 1000 + Z.of_nat n); lia|]. vm_compute. reflexivity.
Qed.

Lemma reachable_tables_consistent_witness : module_inv listener /\ heap listener <> ∅.
Proof. split; [exact (reachable_tables_consistent listener listener_reachable)|by vm_compute]. Defined.

Definition syn_to_80 : TCPSegment :=
  createTCPSegment <| synBit := true |> <| srcPort := 1025 |> <| destPort := 80 |>.


(** ** Streams *)
Definition small_queue : TCPMsgBasedSendQueue.t :=
  {| TCPMsgBasedSendQueue.begin_ := 10; TCPMsgBasedSendQueue.end_ := 40;
     TCPMsgBasedSendQueue.payloadQueue := [(20, msg 10); (25, msg 5); (40, msg 15)] |}.

Definition rcv_at (n : Z) : TCPVirtualDataRcvQueue.t :=
  {| TCPVirtualDataRcvQueue.rcv_nxt := n; TCPVirtualDataRcvQueue.regionList := [] |}.

Lemma rcv_at_repr n : is_u32 n -> vd_repr (rcv_at n) n [].
Proof. intros Hn. split; cbn; [by rewrite u32_small|done|constructor]. Qed.

Lemma epoch_low n hi : 0 <= n <= hi -> hi < 1000000000 -> in_epoch n hi.
Proof. intros. unfold in_epoch, half_window. rewrite u32_small by (unfold is_u32; lia). lia. Qed.


Lemma text_delivered_witness :
  let x := ctx ((conn_at 101 101 101 101 101) <| receiveQueue := VirtualDataRQ (rcv_at 501) |>) in
  let seg := createTCPSegment <| sequenceNo := 501 |> <| payloadLength := 100 |> in
  exists x', processText seg x = Ok tt x' /\ rcv_nxt (state (self x')) = 601.
Proof.
  cbv zeta. set (x := ctx _). set (seg := createTCPSegment <| sequenceNo := 501 |> <| payloadLength := 100 |>).
  destruct (text_delivered x (rcv_at 501) 501 [] 10000 seg 501 100) as [Hin _];
    [done|done|by apply rcv_at_repr|constructor|by apply epoch_low|lia|lia|done|done|done|].
  destruct (Hin eq_refl) as (q' & N' & l' & msgs & Hr & _ & _ & Hfm & _).
  eexists. split; [exact Hr|]. cbn -[u32]. destruct Hfm as (Hle & Hall & Hnot).
  destruct (Z.le_gt_cases N' 601) as [H1|H1].
  - destruct (Z.eq_dec N' 601) as [->|Hne]; [done|]. destruct Hnot. left. lia.
  - destruct (Hall 601) as [|Hc]; [lia|lia|inversion Hc].
Defined.




Definition syn_sent_conn : TCPConnection :=
  (conn_at 101 100 101 101 101) <| fsm := TCP_S_SYN_SENT |>.

Lemma syn_retransmission_witness :
  exists x', processTimer SynRexmit (ctx syn_sent_conn) = Ok true x'.
Proof.
  destruct (syn_retransmission (ctx syn_sent_conn)) as [Hagain _];
    [right; by split_and!|done|split; [done|by split_and!]|by vm_compute|].
  eexists. apply Hagain. by vm_compute.
Defined.

Lemma reno_timeout_spec_witness :
  let x := ctx (conn_at 101 101 2601 2601 3101) in
  exists x', TcpAlgorithm.processTimer (algorithm TCPReno_class) Rexmit TCP_E_IGNORE x = Ok TCP_E_IGNORE x'.
Proof.
  cbv zeta. set (x := ctx (conn_at 101 101 2601 2601 3101)).
  destruct (reno_timeout_spec x 101 101 2601 2601 3101) as (sizes & outs & _ & _ & _ & Hr);
    [apply xmit_ok_at; unfold is_u32; lia|lia|lia|done|done|by vm_compute|by vm_compute|].
  eexists. exact Hr.
Defined.


(** ** State machine and ports *)
Lemma closed_stops_timers_witness :
  let x := ctx ((conn_at 101 101 2601 2601 3101) <| rexmitTimer := TimerAt 9 |>) in
  exists c, performStateTransition TCP_E_ABORT x = Ok false (x <| self := c |>) /\ rexmitTimer c = TimerIdle.
Proof.
  cbv zeta. set (x := ctx _).
  destruct (closed_stops_timers x TCP_E_ABORT) as (c & Hr & _ & Ht); [split; [done|by split_and!]|done|done|].
  exists c. split; [exact Hr|]. specialize (Ht Rexmit). cbn in Ht.
  assert (He : Ok false (x <| self := c |>) = performStateTransition TCP_E_ABORT x) by (symmetry; exact Hr).
  vm_compute in He. injection He as ->. reflexivity.
Defined.

Lemma ephemeral_port_search_witness : exists t', getEphemeralPort TCP_initialize = Ok 1025 t'.
Proof.
  pose proof (ephemeral_port_search TCP_initialize eq_refl) as Hp.
  assert (He : exists t', getEphemeralPort TCP_initialize = Ok 1025 t') by (eexists; vm_compute; reflexivity).
  destruct He as (t' & He). rewrite He in Hp. destruct Hp as (_ & _ & _). by exists t'.
Defined.

(** ** Error cases *)
Definition closing_conn : TCPConnection :=
  let c := conn_at 101 101 602 602 601 in
  c <| state := (state c) <| send_fin := true |> <| snd_fin_seq := 601 |> |>.

Lemma retransmitOneSegment_fin_witness :
  exists w, retransmitOneSegment (ctx closing_conn) = Err (AssertionFailed w).
Proof.
  apply (retransmitOneSegment_fin (ctx closing_conn) 101 101 602 601 1024);
    [split; cbn; done || lia|lia|done|lia|lia].
Defined.

Lemma refusal_not_recognised_witness :
  let x := ctx syn_sent_conn in
  exists rst rst', processTCPSegment rst there here x = Ok true (x <| out := [ToIP here there 0 rst'] |>) /\
    rstBit rst = true.
Proof.
  cbv zeta. set (x := ctx syn_sent_conn).
  destruct (refusal_not_recognised x here there x) as (rst & rst' & _ & Hb & _ & _ & Hr);
    [done|by vm_compute|done|done|by vm_compute|by vm_compute|done|done|].
  exists rst, rst'. split; [exact Hr|exact Hb].
Defined.

Lemma unmatched_segment_answered_witness :
  handleMessage 3 (SegmentMsg syn_to_80 here there) TCP_initialize =
    Ok [ToIP there here 0 (rstack_segment 0 80 1025)] TCP_initialize.
Proof. apply (unmatched_segment_answered 3 TCP_initialize syn_to_80 here there); done. Defined.

Lemma sequence_comparison_witness :
  seqLess (u32 4294967295) (u32 4294967297) = true /\ seqLE (u32 0) (u32 2147483648) = false.
Proof.
  split.
  - rewrite (proj1 (proj1 (sequence_comparison 4294967295 4294967297) ltac:(unfold comparable; lia))). done.
  - apply (proj2 (sequence_comparison 0 2147483648)). lia.
Defined.

Lemma ack_half_space_asserts_witness :
  processAckInEstabEtc (ack_seg 2147483749) (ctx (conn_at 101 101 101 101 3101)) =
    Err (AssertionFailed "seqGreater(ackNo, snd_max)").
Proof. apply (ack_half_space_asserts (ctx (conn_at 101 101 101 101 3101)) (ack_seg 2147483749) 101); reflexivity. Defined.
End Witnesses.
