(* ===== verification/IPAddress.v ===== *)
(** * IPv4 addresses

    Class [IPAddress] ([networklayer/contract/IPAddress.h], [IPAddress.cc]).  An
    address is its [uint32].  [int] arithmetic in the number parser wraps. *)
From Stdlib Require Import Ascii String.
From S2P Require Import Prelude.

Module IPAddress.

Definition t : Type := Z.

(** [set(int i0, int i1, int i2, int i3)] *)
Definition set4 (i0 i1 i2 i3 : Z) : t :=
  u32 (Z.lor (Z.lor (Z.lor (Z.shiftl i0 24) (Z.shiftl i1 16)) (Z.shiftl i2 8)) i3).

Definition UNSPECIFIED_ADDRESS : t := 0.
Definition LOOPBACK_ADDRESS : t := set4 127 0 0 1.
Definition LOOPBACK_NETMASK : t := set4 255 0 0 0.
Definition ALLONES_ADDRESS : t := set4 255 255 255 255.

Definition isUnspecified (a : t) : bool := a =? 0.
Definition equals (a b : t) : bool := a =? b.
Definition doAnd (a b : t) : t := Z.land a b.
Definition getDByte (a : t) (i : Z) : Z := Z.land (Z.shiftr a ((3 - i) * 8)) 255.
Definition isMulticast (a : t) : bool := Z.land a 4026531840 =? 3758096384.
Definition isLinkLocalMulticast (a : t) : bool := Z.land a 4294967040 =? 3758096384.

(** ** Text form *)
Definition is_digit (c : ascii) : bool :=
  let n := Z.of_nat (nat_of_ascii c) in (48 <=? n) && (n <=? 57).
Definition digit_value (c : ascii) : Z := Z.of_nat (nat_of_ascii c) - 48.

(** Reads digits: [num = 10*num + (c - '0')] for each. *)
Fixpoint scan_number (num : Z) (s : string) : Z * string :=
  match s with
  | EmptyString => (num, s)
  | String c rest =>
      if is_digit c then scan_number (i32 (10 * num + digit_value c)) rest else (num, s)
  end.

(** The loop over the numbers; [more] is how many more may follow. *)
Fixpoint parse_bytes (more : nat) (s : string) : option (list Z) :=
  match s with
  | EmptyString => None
  | String c _ =>
      if negb (is_digit c) then None else
      let '(num, s) := scan_number 0 s in
      if 255 <? num then None else
      let byte := num mod 256 in
      match s with
      | EmptyString => Some [byte]
      | String c rest =>
          if negb (bool_decide (c = "."%char)) then None else
          match more with
          | O => None
          | S more => bytes ← parse_bytes more rest; Some (byte :: bytes)
          end
      end
  end.

(** [None] is a malformed address, or [NULL]. *)
Definition parseIPAddress (text : option string) : option (Z * Z * Z * Z) :=
  match text with
  | None => None
  | Some text =>
      if bool_decide (text = "<unspec>"%string) then Some (0, 0, 0, 0) else
      match parse_bytes 3 text with
      | Some [b0; b1; b2; b3] => Some (b0, b1, b2, b3)
      | _ => None
      end
  end.

Definition isWellFormed (text : option string) : bool :=
  match parseIPAddress text with Some _ => true | None => false end.

(** [set(const char *text)]; the result is the address or the error raised. *)
Definition set_text (text : option string) : t + Error :=
  match text with
  | None => inr (RuntimeError "IP address string is NULL")
  | Some _ =>
      match parseIPAddress text with
      | Some (b0, b1, b2, b3) => inl (set4 b0 b1 b2 b3)
      | None => inr (RuntimeError "Invalid IP address string")
      end
  end.

(** [%u] of a value up to 255. *)
Definition digit_char (n : Z) : ascii := ascii_of_nat (48 + Z.to_nat n).
Definition print_byte (n : Z) : string :=
  if n <? 10 then String (digit_char n) EmptyString
  else if n <? 100 then String (digit_char (n / 10)) (String (digit_char (n mod 10)) EmptyString)
  else String (digit_char (n / 100)) (String (digit_char (n / 10 mod 10))
         (String (digit_char (n mod 10)) EmptyString)).

Definition str (a : t) : string :=
  if isUnspecified a then "<unspec>"%string
  else (print_byte (Z.land (Z.shiftr a 24) 255) +:+ "." +:+
        print_byte (Z.land (Z.shiftr a 16) 255) +:+ "." +:+
        print_byte (Z.land (Z.shiftr a 8) 255) +:+ "." +:+
        print_byte (Z.land a 255))%string.

(** ** Classes and prefixes *)
Inductive IPClass : Type := ClassA | ClassB | ClassC | ClassD | ClassE | ClassUnknown.

Definition getIPClass (a : t) : IPClass :=
  let buf := getDByte a 0 in
  if Z.land buf 128 =? 0 then ClassA
  else if Z.land buf 192 =? 128 then ClassB
  else if Z.land buf 224 =? 192 then ClassC
  else if Z.land buf 240 =? 224 then ClassD
  else if Z.land buf 248 =? 240 then ClassE
  else ClassUnknown.

Definition getNetwork (a : t) : t :=
  match getIPClass a with
  | ClassA => set4 (getDByte a 0) 0 0 0
  | ClassB => set4 (getDByte a 0) (getDByte a 1) 0 0
  | ClassC => set4 (getDByte a 0) (getDByte a 1) (getDByte a 2) 0
  | _ => UNSPECIFIED_ADDRESS
  end.

Definition getNetworkMask (a : t) : t :=
  match getIPClass a with
  | ClassA => set4 255 0 0 0
  | ClassB => set4 255 255 0 0
  | ClassC => set4 255 255 255 0
  | _ => UNSPECIFIED_ADDRESS
  end.

(** [!(bool)((addr1.addr ^ addr2.addr) & netmask.addr)] *)
Definition maskedAddrAreEqual (addr1 addr2 netmask : t) : bool :=
  Z.land (Z.lxor addr1 addr2) netmask =? 0.

Definition isNetwork (a toCmp : t) : bool :=
  let netmask := getNetworkMask a in
  if isUnspecified netmask then false else maskedAddrAreEqual a toCmp netmask.

Definition prefixMatches (a to_cmp : t) (numbits : Z) : bool :=
  if numbits <? 1 then true
  else if 31 <? numbits then a =? to_cmp
  else
    let mask := u32 (Z.lnot (Z.shiftr 4294967295 numbits)) in
    Z.land a mask =? Z.land to_cmp mask.

(** The loop [for (int i = 31; i >= 0; i--)]; [n] is [i + 1]. *)
Fixpoint matching_bits (res : Z) (n : nat) : Z :=
  match n with
  | O => 32
  | S i => if negb (Z.land res (Z.shiftl 1 (Z.of_nat i)) =? 0) then 31 - Z.of_nat i
           else matching_bits res i
  end.
Definition getNumMatchingPrefixBits (a to_cmp : t) : Z := matching_bits (Z.lxor a to_cmp) 32.

(** The loop [for (i=0; i<31; i++)]; [n] is the number of rounds more. *)
Fixpoint netmask_length (a : t) (n : nat) : Z :=
  match n with
  | O => 0
  | S n' =>
      let i := 31 - Z.of_nat n in
      if negb (Z.land a (Z.shiftl 1 i) =? 0) then 32 - i else netmask_length a n'
  end.
Definition getNetmaskLength (a : t) : Z := netmask_length a 31.

Definition keepFirstBits (a : t) (n : Z) : t := Z.land a (u32 (Z.shiftl 4294967295 n)).

Definition getBroadcastAddress (a netmask : t) : t := Z.lor a (u32 (Z.lnot netmask)).

End IPAddress.
