(* ===== verification/IPAddressSpec.v ===== *)
(** * Properties of IPv4 addresses

    The text form can be read back; the three ways the code compares prefixes
    (mask, number of bits, number of matching bits) agree. *)
From Stdlib Require Import Ascii String.
From S2P Require Import Prelude IPAddress.
Import IPAddress.

(** ** Bits *)
Section Bits.
Implicit Types a b x : Z.

Lemma bits_above x n i : 0 <= x < 2 ^ n -> 0 <= n <= i -> Z.testbit x i = false.
Proof.
  intros Hx Hn. rewrite <- (Z.mod_small x (2 ^ n)) by lia.
  apply Z.mod_pow2_bits_high. lia.
Qed.

Lemma land_bit x i : 0 <= i -> (Z.land x (Z.shiftl 1 i) =? 0) = negb (Z.testbit x i).
Proof.
  intros Hi. rewrite Z.shiftl_1_l.
  destruct (Z.testbit x i) eqn:Hb; simpl.
  - apply Z.eqb_neq. intros H0. assert (Z.testbit (Z.land x (2 ^ i)) i = false) as Hf.
    { by rewrite H0, Z.bits_0. }
    by rewrite Z.land_spec, Hb, Z.pow2_bits_true in Hf by lia.
  - apply Z.eqb_eq. apply Z.bits_inj'. intros n Hn.
    rewrite Z.land_spec, Z.bits_0, Z.pow2_bits_eqb by lia.
    destruct (Z.eqb_spec i n) as [->|]; [by rewrite Hb|by rewrite andb_false_r].
Qed.

(** The netmask of a prefix of [n] bits. *)
Definition prefix_mask (n : Z) : Z := Z.shiftl (Z.ones n) (32 - n).

Lemma prefix_mask_bits n i :
  0 <= n <= 32 -> 0 <= i -> Z.testbit (prefix_mask n) i = (32 - n <=? i) && (i <? 32).
Proof.
  intros Hn Hi. unfold prefix_mask. rewrite Z.shiftl_spec by lia.
  destruct (Z.leb_spec (32 - n) i).
  - rewrite Z.testbit_ones_nonneg by lia. destruct (Z.ltb_spec i 32); [apply Z.ltb_lt|apply Z.ltb_ge]; lia.
  - by rewrite Z.testbit_neg_r by lia.
Qed.

Lemma land_prefix_mask x n :
  is_u32 x -> 0 <= n <= 32 ->
  Z.land x (prefix_mask n) = Z.shiftl (Z.shiftr x (32 - n)) (32 - n).
Proof.
  intros Hx Hn. apply Z.bits_inj'. intros i Hi.
  rewrite Z.land_spec, prefix_mask_bits, Z.shiftl_spec by lia.
  destruct (Z.leb_spec (32 - n) i).
  - rewrite Z.shiftr_spec by lia. replace (i - (32 - n) + (32 - n)) with i by lia.
    destruct (Z.ltb_spec i 32); simpl; [by rewrite andb_true_r|].
    rewrite (bits_above x 32) by (unfold is_u32 in Hx; lia). done.
  - rewrite (Z.testbit_neg_r _ (i - _)) by lia. by rewrite andb_false_r.
Qed.

(** Two addresses agree in their first [n] bits. *)
Definition same_prefix (n a b : Z) : Prop := Z.shiftr a (32 - n) = Z.shiftr b (32 - n).

#[export] Instance same_prefix_dec n a b : Decision (same_prefix n a b).
Proof. unfold same_prefix. apply _. Defined.

Lemma lxor_u32 a b : is_u32 a -> is_u32 b -> is_u32 (Z.lxor a b).
Proof.
  unfold is_u32. intros Ha Hb. split; [apply Z.lxor_nonneg; lia|].
  assert (Z.lxor a b = Z.lxor a b mod 2 ^ 32) as ->; [|apply Z.mod_pos_bound; lia].
  apply Z.bits_inj'. intros i Hi. destruct (Z.ltb_spec i 32).
  - by rewrite Z.mod_pow2_bits_low by lia.
  - rewrite Z.mod_pow2_bits_high by lia.
    by rewrite Z.lxor_spec, (bits_above a 32), (bits_above b 32) by lia.
Qed.

Lemma same_prefix_lxor n a b : same_prefix n a b <-> Z.shiftr (Z.lxor a b) (32 - n) = 0.
Proof. unfold same_prefix. rewrite Z.shiftr_lxor. symmetry. apply Z.lxor_eq_0_iff. Qed.

Lemma masked_prefix n a b :
  is_u32 a -> is_u32 b -> 0 <= n <= 32 ->
  maskedAddrAreEqual a b (prefix_mask n) = true <-> same_prefix n a b.
Proof.
  intros Ha Hb Hn. unfold maskedAddrAreEqual.
  rewrite Z.eqb_eq, land_prefix_mask by (auto using lxor_u32; lia).
  rewrite Z.shiftl_eq_0_iff by lia. symmetry. apply same_prefix_lxor.
Qed.

Lemma prefix_mask_code n :
  1 <= n <= 31 -> u32 (Z.lnot (Z.shiftr 4294967295 n)) = prefix_mask n.
Proof.
  intros Hn. assert (Forall (fun k => u32 (Z.lnot (Z.shiftr 4294967295 k)) = prefix_mask k)
    (Z.of_nat <$> seq 1 31)) as Hall by (apply (bool_decide_unpack _); reflexivity).
  rewrite Forall_forall in Hall. apply Hall, list_elem_of_fmap.
  exists (Z.to_nat n). split; [lia|]. apply elem_of_seq. lia.
Qed.

Lemma prefixMatches_prefix n a b :
  is_u32 a -> is_u32 b -> 0 <= n <= 32 -> prefixMatches a b n = true <-> same_prefix n a b.
Proof.
  intros Ha Hb Hn. unfold prefixMatches.
  destruct (Z.ltb_spec n 1) as [|H1].
  { assert (n = 0) as -> by lia. unfold same_prefix. unfold is_u32 in *.
    rewrite !Z.shiftr_div_pow2 by lia. simpl Z.pow_pos. rewrite !Z.div_small; [done|lia..]. }
  destruct (Z.ltb_spec 31 n).
  { assert (n = 32) as -> by lia. unfold same_prefix. simpl. apply Z.eqb_eq. }
  rewrite prefix_mask_code, !land_prefix_mask, Z.eqb_eq by (auto; lia).
  unfold same_prefix. rewrite !Z.shiftl_mul_pow2 by lia.
  assert (0 < 2 ^ (32 - n)) by (apply Z.pow_pos_nonneg; lia). split; [nia|by intros ->].
Qed.

Lemma matching_bits_spec x k n :
  0 <= x -> (k <= 32)%nat -> Z.shiftr x (Z.of_nat k) = 0 -> 0 <= n <= 32 ->
  n <= matching_bits x k <-> Z.shiftr x (32 - n) = 0.
Proof.
  intros Hx. revert n. induction k as [|k IH]; intros n Hk H0 Hn.
  { change (Z.of_nat 0) with 0 in H0. rewrite Z.shiftr_0_r in H0. subst x.
    rewrite Z.shiftr_0_l. simpl. lia. }
  cbn [matching_bits]. rewrite land_bit, negb_involutive by lia.
  assert (forall i, Z.of_nat (S k) <= i -> Z.testbit x i = false) as Hhi.
  { intros i Hi. rewrite <- (Z.sub_add (Z.of_nat (S k)) i), <- Z.shiftr_spec by lia.
    by rewrite H0, Z.bits_0. }
  destruct (Z.testbit x (Z.of_nat k)) eqn:Hb.
  - split.
    + intros Hle. apply Z.bits_inj'. intros i Hi. rewrite Z.shiftr_spec, Z.bits_0 by lia.
      apply Hhi. lia.
    + intros Hz. destruct (Z.le_gt_cases n (31 - Z.of_nat k)); [done|exfalso].
      assert (Z.testbit (Z.shiftr x (32 - n)) (Z.of_nat k - (32 - n)) = true) as Ht.
      { rewrite Z.shiftr_spec by lia. by replace (Z.of_nat k - (32 - n) + (32 - n)) with (Z.of_nat k) by lia. }
      by rewrite Hz, Z.bits_0 in Ht.
  - apply IH; [lia| |done]. apply Z.bits_inj'. intros i Hi.
    rewrite Z.shiftr_spec, Z.bits_0 by lia.
    destruct (decide (i = 0)) as [->|]; [done|]. apply Hhi. lia.
Qed.

End Bits.

(** ** Text *)
Section Text.

Definition all_bytes : list Z := Z.of_nat <$> seq 0 256.

Lemma all_bytes_spec (P : Z -> Prop) b : Forall P all_bytes -> 0 <= b <= 255 -> P b.
Proof.
  rewrite Forall_forall. intros Hall Hb. apply Hall, list_elem_of_fmap.
  exists (Z.to_nat b). split; [lia|]. apply elem_of_seq. lia.
Qed.

(** A text that a number does not extend into. *)
Definition stops (s : string) : Prop :=
  match s with EmptyString => True | String c _ => is_digit c = false end.

Fixpoint digits (s : string) : bool :=
  match s with EmptyString => true | String c r => is_digit c && digits r end.

Lemma scan_number_app s r n :
  digits s = true -> stops r -> scan_number n (s +:+ r)%string = ((scan_number n s).1, r).
Proof.
  revert n. induction s as [|c s IH]; intros n Hs Hr; simpl.
  - destruct r as [|c r]; simpl in *; [done|]. by rewrite Hr.
  - simpl in Hs. apply andb_true_iff in Hs as [Hc Hs]. rewrite Hc. by apply IH.
Qed.

Definition byte_prints (b : Z) : bool :=
  match print_byte b with
  | String c _ => is_digit c && digits (print_byte b) && ((scan_number 0 (print_byte b)).1 =? b)
  | EmptyString => false
  end.

Lemma print_byte_ok b : 0 <= b <= 255 -> byte_prints b = true.
Proof.
  intros Hb. apply (all_bytes_spec (fun b => byte_prints b = true)); [|done].
  apply (bool_decide_unpack _). vm_compute. exact I.
Qed.

Lemma parse_bytes_print more b r :
  0 <= b <= 255 -> stops r ->
  parse_bytes more (print_byte b +:+ r)%string =
    match r with
    | EmptyString => Some [b]
    | String c rest =>
        if negb (bool_decide (c = "."%char)) then None else
        match more with
        | O => None
        | S more => bytes ← parse_bytes more rest; Some (b :: bytes)
        end
    end.
Proof.
  intros Hb Hr. pose proof (print_byte_ok b Hb) as Hp. unfold byte_prints in Hp.
  destruct (print_byte b) as [|c s] eqn:Hs; [done|].
  apply andb_true_iff in Hp as [[Hc Hd]%andb_true_iff Hn%Z.eqb_eq].
  pose proof (scan_number_app (String c s) r 0 Hd Hr) as Happ. rewrite Hn in Happ.
  change (String c s +:+ r)%string with (String c (s +:+ r))%string in *.
  destruct more; cbn [parse_bytes]; rewrite Hc; cbn [negb]; rewrite Happ;
    (destruct (Z.ltb_spec 255 b); [lia|]); rewrite Z.mod_small by lia; done.
Qed.

Lemma dotted_parse b0 b1 b2 b3 :
  0 <= b0 <= 255 -> 0 <= b1 <= 255 -> 0 <= b2 <= 255 -> 0 <= b3 <= 255 ->
  parse_bytes 3 (print_byte b0 +:+ "." +:+ print_byte b1 +:+ "." +:+
                 print_byte b2 +:+ "." +:+ print_byte b3)%string = Some [b0; b1; b2; b3].
Proof.
  intros. assert (forall s, "." +:+ s = String "." s)%string as Hdot by done.
  assert (print_byte b3 = (print_byte b3 +:+ "")%string) as Hlast.
  { generalize (print_byte b3). intros s. induction s as [|c s IH]; [done|].
    change (String c s = String c (s +:+ ""))%string. by rewrite <- IH. }
  rewrite Hlast, !Hdot. rewrite parse_bytes_print by done. cbn [bool_decide].
  rewrite bool_decide_true by done. cbn [negb].
  rewrite parse_bytes_print by done. rewrite bool_decide_true by done. cbn [negb].
  rewrite parse_bytes_print by done. rewrite bool_decide_true by done. cbn [negb].
  by rewrite parse_bytes_print by done.
Qed.

Lemma dotted_not_unspec b s : 0 <= b <= 255 -> (print_byte b +:+ s)%string <> "<unspec>"%string.
Proof.
  intros Hb. pose proof (print_byte_ok b Hb) as Hp. unfold byte_prints in Hp.
  destruct (print_byte b) as [|c r]; [done|]. simpl. intros [= -> _]. done.
Qed.

Lemma byte_range x : 0 <= Z.land x 255 <= 255.
Proof.
  assert (Z.land x 255 = x mod 256) as -> by apply (Z.land_ones x 8 ltac:(lia)). lia.
Qed.

Lemma set4_bytes a :
  is_u32 a ->
  set4 (Z.land (Z.shiftr a 24) 255) (Z.land (Z.shiftr a 16) 255)
       (Z.land (Z.shiftr a 8) 255) (Z.land a 255) = a.
Proof.
  intros Ha. unfold set4. change 255 with (Z.ones 8). rewrite !Z.land_ones, !Z.shiftr_div_pow2 by lia.
  set (x := a). transitivity (u32 x); [f_equal|by apply u32_small].
  apply Z.bits_inj'. intros i Hi. rewrite !Z.lor_spec, !Z.shiftl_spec by lia.
  assert (forall k, 0 <= k -> Z.testbit (x / 2 ^ k mod 2 ^ 8) (i - k) =
    (k <=? i) && (i <? k + 8) && Z.testbit x i) as Hbyte.
  { intros k Hk. destruct (Z.leb_spec k i); [|by rewrite Z.testbit_neg_r by lia].
    destruct (Z.ltb_spec i (k + 8)); simpl.
    - rewrite Z.mod_pow2_bits_low, <- Z.shiftr_div_pow2, Z.shiftr_spec by lia. f_equal. lia.
    - by rewrite Z.mod_pow2_bits_high by lia. }
  pose proof (Hbyte 0 ltac:(lia)) as H0. rewrite Z.sub_0_r, Z.div_1_r in H0.
  rewrite (Hbyte 24), (Hbyte 16), (Hbyte 8), H0 by lia.
  destruct (Z.ltb_spec i 32); [|rewrite (bits_above x 32) by (unfold is_u32 in Ha; lia);
    by rewrite !andb_false_r].
  change (24 + 8) with 32. change (16 + 8) with 24. change (8 + 8) with 16. change (0 + 8) with 8.
  assert (i < 8 \/ 8 <= i < 16 \/ 16 <= i < 24 \/ 24 <= i) as Hc by lia.
  rewrite (proj2 (Z.ltb_lt i 32)), (proj2 (Z.leb_le 0 i)) by lia.
  destruct Hc as [?|[?|[?|?]]];
    [rewrite (proj2 (Z.leb_gt 24 i)), (proj2 (Z.leb_gt 16 i)), (proj2 (Z.leb_gt 8 i)), (proj2 (Z.ltb_lt i 8)) by lia
    |rewrite (proj2 (Z.leb_gt 24 i)), (proj2 (Z.leb_gt 16 i)), (proj2 (Z.leb_le 8 i)), (proj2 (Z.ltb_lt i 16)), (proj2 (Z.ltb_ge i 8)) by lia
    |rewrite (proj2 (Z.leb_gt 24 i)), (proj2 (Z.leb_le 16 i)), (proj2 (Z.ltb_lt i 24)), (proj2 (Z.ltb_ge i 16)), (proj2 (Z.ltb_ge i 8)) by lia
    |rewrite (proj2 (Z.leb_le 24 i)), (proj2 (Z.ltb_ge i 24)), (proj2 (Z.ltb_ge i 16)), (proj2 (Z.ltb_ge i 8)) by lia];
    simpl; rewrite ?andb_false_r, ?orb_false_r; done.
Qed.

End Text.

(** ** Properties *)

(** C27: the text form of an address can be read back: [set(str())] gives every
    address again. *)
Theorem address_text_roundtrip a : is_u32 a -> set_text (Some (str a)) = inl a.
Proof.
  intros Ha. unfold set_text, parseIPAddress, str, isUnspecified.
  destruct (Z.eqb_spec a 0) as [->|Hne]; [done|].
  rewrite bool_decide_false by (apply dotted_not_unspec, byte_range).
  rewrite dotted_parse by apply byte_range. by rewrite set4_bytes.
Qed.

Lemma address_text_roundtrip_witness :
  is_u32 3232235777 /\ set_text (Some (str 3232235777)) = inl 3232235777.
Proof.
  split; [unfold is_u32; lia|]. apply (address_text_roundtrip 3232235777). unfold is_u32. lia.
Defined.

(** C28: the three ways the code compares prefixes agree. For addresses [a] and
    [b] and a length from 0 to 32, [prefixMatches], [maskedAddrAreEqual] under the
    netmask of that length, and [getNumMatchingPrefixBits] all say whether the
    first [n] bits are the same. *)
Theorem prefix_comparisons_agree n a b :
  is_u32 a -> is_u32 b -> 0 <= n <= 32 ->
  (prefixMatches a b n = true <-> same_prefix n a b) /\
  (maskedAddrAreEqual a b (prefix_mask n) = true <-> same_prefix n a b) /\
  (n <= getNumMatchingPrefixBits a b <-> same_prefix n a b).
Proof.
  intros Ha Hb Hn. split_and!; [by apply prefixMatches_prefix|by apply masked_prefix|].
  unfold getNumMatchingPrefixBits. pose proof (lxor_u32 a b Ha Hb) as Hx. unfold is_u32 in Hx.
  rewrite same_prefix_lxor. apply matching_bits_spec; [lia..| |done].
  rewrite Z.shiftr_div_pow2 by lia. apply Z.div_small. simpl. lia.
Qed.

Lemma prefix_comparisons_agree_witness :
  prefixMatches (set4 10 0 0 1) (set4 10 0 0 2) 30 = true /\
  30 <= getNumMatchingPrefixBits (set4 10 0 0 1) (set4 10 0 0 2).
Proof.
  destruct (prefix_comparisons_agree 30 (set4 10 0 0 1) (set4 10 0 0 2)) as (H1 & _ & H3);
    [vm_compute; split; congruence..|lia|].
  split; [apply H1|apply H3]; reflexivity.
Defined.
