(* ===== verification/ReassemblyBuffer.v ===== *)
(** * Reassembly of fragmented datagrams

    Class [ReassemblyBuffer] ([base/ReassemblyBuffer.h], [ReassemblyBuffer.cc]).
    The vector [fragments] exists once a fragment had to be put aside.  At the
    end: fragments that cut a datagram at given offsets, received in any order and
    with duplicates, complete it exactly when all of them have arrived. *)
From S2P Require Import Prelude.

Module ReassemblyBuffer.
Record Region : Type := mkRegion { beg : Z; end_ : Z; islast : bool }.
#[export] Instance eta_Region : Eta Region := fun r =>
  {| beg := beg r; end_ := end_ r; islast := islast r |}.

Record t : Type := mk { main : Region; fragments : option (list Region) }.
#[export] Instance eta : Eta t := fun b => {| main := main b; fragments := fragments b |}.

Definition new : t := {| main := mkRegion 0 0 false; fragments := None |}.

(** [main.end = frag.end; if (frag.islast) main.islast = true;] *)
Definition extend (m : Region) (fend : Z) (flast : bool) : Region :=
  let m := m <| end_ := fend |> in if flast then m <| islast := true |> else m.

(** One run of the [for] loop of [mergeFragments]; the flag is [oncemore]. *)
Fixpoint merge_pass (m : Region) (frags : list Region) : Region * list Region * bool :=
  match frags with
  | [] => (m, [], false)
  | frag :: rest =>
      if end_ m =? beg frag then
        let '(m, frags, _) := merge_pass (extend m (end_ frag) (islast frag)) rest in
        (m, frags, true)
      else if beg m =? end_ frag then
        let '(m, frags, _) := merge_pass (m <| beg := beg frag |>) rest in (m, frags, true)
      else if (beg m <=? beg frag) && (end_ frag <=? end_ m) then
        let '(m, frags, _) := merge_pass m rest in (m, frags, true)
      else
        let '(m, frags, oncemore) := merge_pass m rest in (m, frag :: frags, oncemore)
  end.

(** [do { ... } while (oncemore)]: every further round has one fragment less. *)
Fixpoint merge_rounds (fuel : nat) (m : Region) (frags : list Region)
    : option (Region * list Region) :=
  match fuel with
  | O => None
  | S fuel =>
      let '(m, frags, oncemore) := merge_pass m frags in
      if oncemore then merge_rounds fuel m frags else Some (m, frags)
  end.

Definition mergeFragments : Eff t unit :=
  let! b := gets id in
  match fragments b with
  | None => fail (NullPointer "fragments")
  | Some frags =>
      match merge_rounds (S (length frags)) (main b) frags with
      | Some (m, frags) => modify (fun _ => {| main := m; fragments := Some frags |})
      | None => fail OutOfFuel
      end
  end.

Definition has_fragments (b : t) : bool := match fragments b with Some _ => true | None => false end.

Definition merge (fbeg fend : Z) (flast : bool) : Eff t unit :=
  let! b := gets id in
  let m := main b in
  if end_ m =? fbeg then
    modify (fun b => b <| main := extend m fend flast |>) ;;;
    when (has_fragments b) mergeFragments
  else if beg m =? fend then
    modify (fun b => b <| main := m <| beg := fbeg |> |>) ;;;
    when (has_fragments b) mergeFragments
  else if (end_ m <? fbeg) || (fend <? beg m) then
    modify (fun b => b <| fragments :=
      Some (default [] (fragments b) ++ [mkRegion fbeg fend flast]) |>)
  else ret tt.

Definition addFragment (fbeg fend : Z) (flast : bool) : Eff t bool :=
  merge fbeg fend flast ;;;
  let! b := gets id in
  ret ((beg (main b) =? 0) && islast (main b)).

Definition getTotalLength (b : t) : Z := end_ (main b).
End ReassemblyBuffer.

Import ReassemblyBuffer.

(** ** A datagram cut at the offsets [cut 0 = 0], [cut 1], .., [cut m]

    The last fragment may be empty, the others are not. *)
Section Reassembly.
Context (cut : nat -> Z) (m : nat).

Record cuts_ok : Prop := {
  cut_first : cut 0 = 0;
  cut_some : (1 <= m)%nat;
  cut_mono : forall i, (S i < m)%nat -> cut i < cut (S i);
  cut_last : cut (pred m) <= cut m;
  cut_pos : 0 < cut m
}.
Context (Hcuts : cuts_ok).

Definition frag (j : nat) : Region := mkRegion (cut j) (cut (S j)) (S j =? m)%nat.
Definition prefix (k : nat) : Region := mkRegion 0 (cut k) (k =? m)%nat.

Lemma cut_lt i j : (i < j < m)%nat -> cut i < cut j.
Proof.
  intros [Hij Hj]. induction Hij as [|j Hij IH].
  - by apply Hcuts.
  - transitivity (cut j); [apply IH; lia|]. apply Hcuts. lia.
Qed.

Lemma cut_le i j : (i <= j <= m)%nat -> cut i <= cut j.
Proof.
  intros Hij. destruct Hcuts as [_ Hm _ Hl _].
  destruct (decide (i = j)) as [->|]; [lia|].
  destruct (decide (j = m)) as [->|].
  - destruct (decide (i = pred m)) as [->|]; [done|].
    pose proof (cut_lt i (pred m)). lia.
  - pose proof (cut_lt i j). lia.
Qed.

Lemma cut_end_pos j : (j < m)%nat -> 0 < cut (S j).
Proof.
  intros Hj. destruct (decide (S j = m)) as [->|]; [apply Hcuts|].
  rewrite <- (cut_first Hcuts). apply cut_lt. lia.
Qed.

(** The rounds on indices of fragments: everything before [k] is there. *)
Fixpoint ipass (k : nat) (js : list nat) : nat * list nat * bool :=
  match js with
  | [] => (k, [], false)
  | j :: rest =>
      if (j <=? k)%nat then
        let '(k', js', _) := ipass (if (j =? k)%nat then S k else k) rest in (k', js', true)
      else let '(k', js', b) := ipass k rest in (k', j :: js', b)
  end.

Lemma frag_next k : (k < m)%nat ->
  extend (prefix k) (cut (S k)) (S k =? m)%nat = prefix (S k).
Proof.
  intros Hk. unfold prefix, extend.
  destruct (Nat.eqb_spec (S k) m) as [Heq|Hne]; [done|].
  destruct (Nat.eqb_spec k m); [lia|done].
Qed.

Lemma frag_old k j : (j < k <= m)%nat -> cut k = cut j ->
  extend (prefix k) (cut (S j)) (S j =? m)%nat = prefix k.
Proof.
  intros Hj Heq. assert (k = m /\ S j = m) as [-> Hm].
  { destruct (decide (k = m)) as [->|]; [|pose proof (cut_lt j k); lia].
    destruct (decide (S j = m)); [done|]. pose proof (cut_lt j (S j)).
    pose proof (cut_le (S j) m). lia. }
  unfold prefix, extend. by rewrite Hm, Nat.eqb_refl.
Qed.

Lemma merge_pass_index js k :
  (k <= m)%nat -> Forall (fun j => j < m)%nat js ->
  exists k' js' b, ipass k js = (k', js', b) /\
    merge_pass (prefix k) (map frag js) = (prefix k', map frag js', b).
Proof.
  intros Hk Hjs. revert k Hk. induction Hjs as [|j js Hj Hjs IH]; intros k Hk; cbn [map merge_pass ipass].
  { by exists k, [], false. }
  change (end_ (prefix k)) with (cut k). change (beg (prefix k)) with 0.
  change (beg (frag j)) with (cut j). change (end_ (frag j)) with (cut (S j)).
  change (islast (frag j)) with (S j =? m)%nat.
  destruct (Nat.leb_spec j k) as [Hle|Hgt].
  - destruct (decide (j = k)) as [->|Hne].
    + rewrite Z.eqb_refl, Nat.eqb_refl, frag_next by done.
      destruct (IH (S k) ltac:(lia)) as (k' & js' & b & -> & ->). eauto.
    + destruct (Nat.eqb_spec j k); [done|].
      destruct (Z.eqb_spec (cut k) (cut j)).
      * rewrite frag_old by (done || lia).
        destruct (IH k ltac:(lia)) as (k' & js' & b & -> & ->). eauto.
      * pose proof (cut_end_pos j ltac:(lia)). destruct (Z.eqb_spec 0 (cut (S j))); [lia|].
        pose proof (cut_le (S j) k ltac:(lia)). pose proof (cut_le 0 j ltac:(lia)).
        rewrite (cut_first Hcuts) in *.
        rewrite (proj2 (Z.leb_le 0 (cut j))), (proj2 (Z.leb_le (cut (S j)) (cut k))) by lia. simpl.
        destruct (IH k ltac:(lia)) as (k' & js' & b & -> & ->). eauto.
  - pose proof (cut_lt k j ltac:(lia)). destruct (Z.eqb_spec (cut k) (cut j)); [lia|].
    pose proof (cut_end_pos j ltac:(lia)). destruct (Z.eqb_spec 0 (cut (S j))); [lia|].
    pose proof (cut_le (S j) m ltac:(lia)). pose proof (cut_le j (S j) ltac:(lia)).
    rewrite (proj2 (Z.leb_gt (cut (S j)) (cut k))), andb_false_r by lia.
    destruct (IH k ltac:(lia)) as (k' & js' & b & -> & ->). eauto.
Qed.

Lemma ipass_stable js k k' js' :
  ipass k js = (k', js', false) -> k' = k /\ js' = js /\ Forall (fun j => k < j)%nat js.
Proof.
  revert k k' js'. induction js as [|j js IH]; intros k k' js' Hp; simpl in Hp.
  { by simplify_eq. }
  destruct (Nat.leb_spec j k); [by destruct (ipass _ js) as [[??]?]|].
  destruct (ipass k js) as [[k1 js1] b1] eqn:Hrec. simplify_eq.
  apply IH in Hrec as (-> & -> & Hf). auto.
Qed.

(** The fragments received are those before [k] and those put aside. *)
Lemma ipass_spec js k k' js' b :
  ipass k js = (k', js', b) -> (k <= m)%nat -> Forall (fun j => j < m)%nat js ->
  (k' <= m)%nat /\ Forall (fun j => j < m)%nat js' /\
  (forall i, (i < k \/ i ∈ js)%nat <-> (i < k' \/ i ∈ js')%nat) /\
  (b = true -> length js' < length js)%nat.
Proof.
  intros Hp Hk Hjs. revert k k' js' b Hp Hk.
  induction Hjs as [|j js Hj Hjs IH]; intros k k' js' b Hp Hk; simpl in Hp.
  { simplify_eq. split_and!; [lia|done|done|done]. }
  assert (forall k1 js1 b1 k0, ipass k0 js = (k1, js1, b1) -> (k0 <= m)%nat -> (length js1 <= length js)%nat) as Hlen.
  { intros k1 js1 [] k0 Hrec Hk0; [apply IH in Hrec; [|done]; naive_solver lia|].
    apply ipass_stable in Hrec as (_ & -> & _). done. }
  destruct (Nat.leb_spec j k) as [Hle|Hgt].
  - destruct (ipass _ js) as [[k1 js1] b1] eqn:Hrec. simplify_eq.
    assert ((if (j =? k)%nat then S k else k) <= m)%nat as Hk0 by (destruct (Nat.eqb_spec j k); lia).
    pose proof (Hlen _ _ _ _ Hrec Hk0). apply IH in Hrec as (Hk1 & Hf1 & Hset & Hb1); [|done].
    split_and!; [done|done| |simpl; lia].
    intros i. rewrite <- Hset, elem_of_cons. destruct (Nat.eqb_spec j k); intuition lia.
  - destruct (ipass k js) as [[k1 js1] b1] eqn:Hrec. simplify_eq.
    apply IH in Hrec as (Hk1 & Hf1 & Hset & Hb1); [|done].
    split_and!; [done|by constructor| |simpl; naive_solver lia].
    intros i. rewrite !elem_of_cons. specialize (Hset i). clear -Hset. tauto.
Qed.

(** [mergeFragments] ends with nothing left aside that could be used. *)
Lemma merge_rounds_spec fuel js k :
  (length js < fuel)%nat -> (k <= m)%nat -> Forall (fun j => j < m)%nat js ->
  exists k' js', merge_rounds fuel (prefix k) (map frag js) = Some (prefix k', map frag js') /\
    (k' <= m)%nat /\ Forall (fun j => k' < j < m)%nat js' /\
    (forall i, (i < k \/ i ∈ js)%nat <-> (i < k' \/ i ∈ js')%nat).
Proof.
  revert js k. induction fuel as [|fuel IH]; intros js k Hlen Hk Hjs; [lia|]. simpl.
  destruct (merge_pass_index js k Hk Hjs) as (k1 & js1 & b & Hi & ->).
  destruct (ipass_spec _ _ _ _ _ Hi Hk Hjs) as (Hk1 & Hjs1 & Hset & Hb). destruct b.
  - destruct (IH js1 k1) as (k2 & js2 & -> & Hk2 & Hjs2 & Hset2); [naive_solver lia|done|done|].
    exists k2, js2. split_and!; [done..|]. intros i. by rewrite Hset, Hset2.
  - apply ipass_stable in Hi as (-> & -> & Hf). exists k, js. split_and!; [done|done| |done].
    rewrite Forall_forall in *. naive_solver.
Qed.

(** A buffer that has received the fragments [R]. *)
Definition received (R : list nat) (b : t) : Prop :=
  exists k js, main b = prefix k /\ default [] (fragments b) = map frag js /\ (k <= m)%nat /\
    Forall (fun j => k < j < m)%nat js /\ forall i, i ∈ R <-> (i < k \/ i ∈ js)%nat.

Definition all_received (R : list nat) : Prop := Forall (fun i => i ∈ R) (seq 0 m).

#[export] Instance all_received_dec R : Decision (all_received R).
Proof. unfold all_received. apply _. Defined.

Lemma received_new : received [] new.
Proof.
  exists 0%nat, []. unfold new, prefix. cbn [main fragments default map]. destruct Hcuts as [-> Hm _ _ _].
  destruct (Nat.eqb_spec 0 m); [lia|]. split_and!; [done|done|lia|done|].
  intros i. rewrite !elem_of_nil. lia.
Qed.

Lemma received_complete R k js :
  (k <= m)%nat -> Forall (fun j => k < j < m)%nat js ->
  (forall i, i ∈ R <-> (i < k \/ i ∈ js)%nat) -> all_received R <-> k = m.
Proof.
  intros Hk Hjs Hset. unfold all_received. rewrite Forall_forall. rewrite Forall_forall in Hjs. split.
  - intros Hall. destruct (decide (k = m)) as [|Hne]; [done|exfalso].
    assert (k ∈ R) as Hin by (apply Hall, elem_of_seq; lia).
    apply Hset in Hin as [?|Hin]; [lia|]. apply Hjs in Hin. lia.
  - intros -> i Hi. apply Hset. apply elem_of_seq in Hi. lia.
Qed.

Lemma mergeFragments_spec R b k js :
  main b = prefix k -> default [] (fragments b) = map frag js -> (k <= m)%nat ->
  Forall (fun j => j < m)%nat js -> (forall i, i ∈ R <-> (i < k \/ i ∈ js)%nat) ->
  exists b', when (has_fragments b) mergeFragments b = Ok tt b' /\ received R b'.
Proof.
  intros Hmain Hfr Hk Hjs Hset. unfold has_fragments, mergeFragments, when, bind, gets.
  destruct b as [mb [frs|]]; cbn [main fragments default id] in *; subst.
  - destruct (merge_rounds_spec (S (length (map frag js))) js k) as (k' & js' & -> & Hk' & Hjs' & Hs');
      [rewrite length_map; lia|done|done|].
    eexists. split; [done|]. exists k', js'. split_and!; [done|done|done|done|].
    intros i. by rewrite Hset.
  - destruct js; [|done]. eexists. split; [done|]. exists k, []. by split_and!.
Qed.

Lemma merge_spec R b j :
  received R b -> (j < m)%nat ->
  exists b', merge (cut j) (cut (S j)) (S j =? m)%nat b = Ok tt b' /\ received (R ++ [j]) b'.
Proof.
  intros (k & js & Hmain & Hfr & Hk & Hjs & Hset) Hj.
  assert (Forall (fun j => j < m)%nat js) as Hjs' by (eapply Forall_impl; [done|]; simpl; lia).
  unfold merge, bind at 1, gets. cbn [id]. rewrite Hmain. cbn [end_ beg prefix].
  destruct (Nat.lt_trichotomy j k) as [Hlt|[->|Hgt]].
  - assert (forall i, i ∈ R ++ [j] <-> (i < k \/ i ∈ js)%nat) as Hset'.
    { intros i. rewrite elem_of_app, list_elem_of_singleton, Hset. intuition lia. }
    destruct (Z.eqb_spec (cut k) (cut j)).
    + unfold bind, modify. cbn. rewrite frag_old by (done || lia).
      destruct (mergeFragments_spec (R ++ [j]) (b <| main := prefix k |>) k js) as (b' & Hb' & Hr); eauto.
    + pose proof (cut_end_pos j ltac:(lia)). destruct (Z.eqb_spec 0 (cut (S j))); [lia|].
      pose proof (cut_le j k ltac:(lia)). pose proof (cut_le j (S j) ltac:(lia)).
      rewrite (proj2 (Z.ltb_ge (cut k) (cut j))), (proj2 (Z.ltb_ge (cut (S j)) 0)) by lia. simpl.
      eexists. split; [done|]. exists k, js. by split_and!.
  - rewrite Z.eqb_refl. unfold bind, modify. cbn. rewrite frag_next by lia.
    destruct (mergeFragments_spec (R ++ [k]) (b <| main := prefix (S k) |>) (S k) js) as (b' & Hb' & Hr);
      [done|done|lia|done| |eauto].
    intros i. rewrite elem_of_app, list_elem_of_singleton, Hset. intuition lia.
  - pose proof (cut_lt k j ltac:(lia)). destruct (Z.eqb_spec (cut k) (cut j)); [lia|].
    pose proof (cut_end_pos j ltac:(lia)). destruct (Z.eqb_spec 0 (cut (S j))); [lia|].
    rewrite (proj2 (Z.ltb_lt (cut k) (cut j))) by lia. simpl.
    eexists. split; [done|]. exists k, (js ++ [j]). split_and!; [done| |done| |].
    + cbn. by rewrite Hfr, map_app.
    + apply Forall_app. split; [done|]. constructor; [lia|done].
    + intros i. rewrite !elem_of_app, list_elem_of_singleton, Hset. tauto.
Qed.

Lemma addFragment_received R b j :
  received R b -> (j < m)%nat ->
  exists b', addFragment (cut j) (cut (S j)) (S j =? m)%nat b =
      Ok (bool_decide (all_received (R ++ [j]))) b' /\
    received (R ++ [j]) b' /\ (all_received (R ++ [j]) -> getTotalLength b' = cut m).
Proof.
  intros Hr Hj. destruct (merge_spec R b j Hr Hj) as (b' & Hm & Hr').
  destruct Hr' as (k & js & Hmain & Hfr & Hk & Hjs & Hset).
  pose proof (received_complete _ k js Hk Hjs Hset) as Hall.
  exists b'. unfold addFragment, bind, gets, ret. rewrite Hm. cbn [id]. rewrite Hmain.
  unfold getTotalLength. rewrite Hmain. cbn.
  split_and!; [|exists k, js; by split_and!|by intros ->%Hall].
  f_equal. destruct (Nat.eqb_spec k m); [rewrite bool_decide_true|rewrite bool_decide_false]; tauto.
Qed.

(** Several fragments arrive; the result is that of the last call. *)
Fixpoint add_fragments (A : list nat) (last : bool) : Eff t bool :=
  match A with
  | [] => ret last
  | j :: rest =>
      let! r := addFragment (cut j) (cut (S j)) (S j =? m)%nat in add_fragments rest r
  end.

Lemma add_fragments_spec A R b last :
  received R b -> Forall (fun j => j < m)%nat A ->
  exists b', add_fragments A last b =
      Ok (match A with [] => last | _ => bool_decide (all_received (R ++ A)) end) b' /\
    received (R ++ A) b'.
Proof.
  intros Hr HA. revert R b last Hr. induction HA as [|j A Hj HA IH]; intros R b last Hr; cbn [add_fragments].
  { exists b. by rewrite app_nil_r. }
  destruct (addFragment_received R b j Hr Hj) as (b1 & H1 & Hr1 & _).
  unfold bind. rewrite H1. destruct (IH (R ++ [j]) b1 (bool_decide (all_received (R ++ [j]))) Hr1) as (b' & H2 & Hr2).
  rewrite <- app_assoc in *. cbn [app] in *. exists b'. split; [|done]. rewrite H2. by destruct A.
Qed.
End Reassembly.
