(* ===== verification/MACAddress.v ===== *)
(** * MAC addresses

    Class [MACAddress] ([linklayer/contract/MACAddress.h], [MACAddress.cc]): six
    bytes. *)
From Stdlib Require Import Ascii String.
From S2P Require Import Prelude.

Module MACAddress.
Record t : Type := mk { b0 : Z; b1 : Z; b2 : Z; b3 : Z; b4 : Z; b5 : Z }.

#[global] Instance eq_dec : EqDecision t.
Proof. solve_decision. Defined.
#[global] Instance countable : Countable t.
Proof.
  refine (inj_countable' (fun a => (b0 a, b1 a, b2 a, b3 a, b4 a, b5 a))
    (fun p => let '(x0, x1, x2, x3, x4, x5) := p in mk x0 x1 x2 x3 x4 x5) _). by intros [].
Defined.

Definition UNSPECIFIED_ADDRESS : t := mk 0 0 0 0 0 0.
Definition BROADCAST_ADDRESS : t := mk 255 255 255 255 255 255.

Definition isBroadcast (a : t) : bool :=
  Z.land (Z.land (Z.land (Z.land (Z.land (b0 a) (b1 a)) (b2 a)) (b3 a)) (b4 a)) (b5 a) =? 255.
Definition isUnspecified (a : t) : bool :=
  negb (negb (b0 a =? 0) || negb (b1 a =? 0) || negb (b2 a =? 0) ||
        negb (b3 a =? 0) || negb (b4 a =? 0) || negb (b5 a =? 0)).
Definition equals (a b : t) : bool := bool_decide (a = b).

(** [memcmp]: the first differing byte decides. *)
Fixpoint compare_bytes (l1 l2 : list Z) : Z :=
  match l1, l2 with
  | x :: r1, y :: r2 => if x =? y then compare_bytes r1 r2 else x - y
  | _, _ => 0
  end.
Definition bytes (a : t) : list Z := [b0 a; b1 a; b2 a; b3 a; b4 a; b5 a].
Definition compareTo (a b : t) : Z := compare_bytes (bytes a) (bytes b).

(** ** Text form *)
Definition code (c : ascii) : Z := Z.of_nat (nat_of_ascii c).
Definition isdigit (c : ascii) : bool := (48 <=? code c) && (code c <=? 57).
Definition islower (c : ascii) : bool := (97 <=? code c) && (code c <=? 122).
Definition isxdigit (c : ascii) : bool :=
  isdigit c || ((97 <=? code c) && (code c <=? 102)) || ((65 <=? code c) && (code c <=? 70)).
Definition hex_value (c : ascii) : Z :=
  if isdigit c then code c - 48 else if islower c then code c - 97 + 10 else code c - 65 + 10.

(** Skips what is not a hex digit and reads one digit. *)
Fixpoint next_xdigit (s : string) : option (Z * string) :=
  match s with
  | EmptyString => None
  | String c rest => if isxdigit c then Some (hex_value c, rest) else next_xdigit rest
  end.

(** The loop over [destbuf]; the rest of the text is given up when a byte is
    not complete. *)
Fixpoint hextobin (s : string) (size : nat) : list Z :=
  match size with
  | O => []
  | S size =>
      match next_xdigit s with
      | None => 0 :: hextobin EmptyString size
      | Some (hi, s) =>
          match next_xdigit s with
          | None => 0 :: hextobin EmptyString size
          | Some (lo, s) => (16 * hi + lo) mod 256 :: hextobin s size
          end
      end
  end.

(** The syntax check: the number of hex digits, or [None]. *)
Fixpoint count_xdigits (s : string) : option Z :=
  match s with
  | EmptyString => Some 0
  | String c rest =>
      if isxdigit c then n ← count_xdigits rest; Some (n + 1)
      else if bool_decide (c = " "%char) || bool_decide (c = ":"%char) || bool_decide (c = "-"%char)
      then count_xdigits rest else None
  end.

Definition of_bytes (l : list Z) : t :=
  match l with
  | [x0; x1; x2; x3; x4; x5] => mk x0 x1 x2 x3 x4 x5
  | _ => UNSPECIFIED_ADDRESS
  end.

Definition tryParse (hexstr : option string) : option t :=
  match hexstr with
  | None => None
  | Some s =>
      match count_xdigits s with
      | Some 12 => Some (of_bytes (hextobin s 6))
      | _ => None
      end
  end.

Definition setAddress (hexstr : option string) : t + Error :=
  match tryParse hexstr with
  | Some a => inl a
  | None => inr (RuntimeError "MACAddress: wrong address syntax")
  end.

(** [%2.2X] of a byte. *)
Definition hex_char (n : Z) : ascii := ascii_of_nat (Z.to_nat (if n <? 10 then 48 + n else 55 + n)).
Definition print_hex (b : Z) : string := String (hex_char (b / 16)) (String (hex_char (b mod 16)) EmptyString).
Definition str (a : t) : string :=
  (print_hex (b0 a) +:+ "-" +:+ print_hex (b1 a) +:+ "-" +:+ print_hex (b2 a) +:+ "-" +:+
   print_hex (b3 a) +:+ "-" +:+ print_hex (b4 a) +:+ "-" +:+ print_hex (b5 a))%string.

(** [generateAutoAddress]: the address for counter value [n] (after the
    increment of the [unsigned int] counter). *)
Definition auto_address (n : Z) : t :=
  mk 10 170 (Z.land (Z.shiftr n 24) 255) (Z.land (Z.shiftr n 16) 255)
     (Z.land (Z.shiftr n 8) 255) (Z.land n 255).
Definition generateAutoAddress : Eff Z t :=
  modify (fun ctr => u32 (ctr + 1)) ;;;
  gets auto_address.
End MACAddress.

(** Addresses generated one after the other differ, until the counter wraps. *)
Lemma auto_address_inj m n :
  is_u32 m -> is_u32 n -> MACAddress.auto_address m = MACAddress.auto_address n -> m = n.
Proof.
  intros Hm Hn [= H24 H16 H8 H0]. unfold is_u32 in *.
  assert (forall x, Z.land x 255 = x mod 256) as Hl by (intros x; apply (Z.land_ones x 8); lia).
  rewrite !Hl, !Z.shiftr_div_pow2 in * by lia.
  change (2 ^ 24) with 16777216 in *. change (2 ^ 16) with 65536 in *. change (2 ^ 8) with 256 in *.
  lia.
Qed.
