(* ===== verification/MachineFloat.v ===== *)
(** * Floating point arithmetic of the code

    The few places where the code computes with [float] and [double]: IEEE 754
    binary32 and binary64 with rounding to nearest even, on the specification
    floats of the Standard Library, which are evaluated exactly. *)
From Stdlib Require Import SpecFloat.
From S2P Require Import Prelude.

Definition float_of_int (z : Z) : spec_float := binary_normalize 24 128 z 0 false.
Definition float_div : spec_float -> spec_float -> spec_float := SFdiv 24 128.
Definition float_sub : spec_float -> spec_float -> spec_float := SFsub 24 128.

Definition double_of_int (z : Z) : spec_float := binary_normalize 53 1024 z 0 false.
Definition double_div : spec_float -> spec_float -> spec_float := SFdiv 53 1024.
Definition double_add : spec_float -> spec_float -> spec_float := SFadd 53 1024.
Definition double_sub : spec_float -> spec_float -> spec_float := SFsub 53 1024.
Definition double_mul : spec_float -> spec_float -> spec_float := SFmul 53 1024.

(** [ceil] of a finite number; [None] for infinities and NaN. *)
Definition ceil (f : spec_float) : option Z :=
  match f with
  | S754_zero _ => Some 0
  | S754_finite s m e =>
      let v := if s then Z.neg m else Z.pos m in
      Some (if 0 <=? e then v * 2 ^ e else - ((- v) / 2 ^ (- e)))
  | _ => None
  end.

(** The conversion [int(x)] of a value that fits; other conversions are not
    defined. *)
Definition to_int (z : option Z) : option Z :=
  z ← z; if (-2147483648 <=? z) && (z <=? 2147483647) then Some z else None.
