(* ===== verification/InterfaceTable.v ===== *)
(** * Interfaces of a node

    [InterfaceEntry] ([networklayer/common/InterfaceEntry.h], [.cc]),
    [IPv4InterfaceData] ([networklayer/ipv4]) and [InterfaceTable]
    ([networklayer/common/InterfaceTable.cc]).  A pointer to an entry is its
    interface id, which is never used again after the entry was deleted. *)
From Stdlib Require Import String SpecFloat.
From S2P Require Import Prelude IPAddress MACAddress.

Record IPv4InterfaceData : Type := mk_IPv4InterfaceData {
  inetAddr : IPAddress.t;
  ifNetmask : IPAddress.t;
  ifMetric : Z;
  multicastGroups : list IPAddress.t
}.
#[export] Instance eta_IPv4InterfaceData : Eta IPv4InterfaceData := fun d =>
  {| inetAddr := inetAddr d; ifNetmask := ifNetmask d; ifMetric := ifMetric d;
     multicastGroups := multicastGroups d |}.

Definition IPv4InterfaceData_new : IPv4InterfaceData :=
  {| inetAddr := 0; ifNetmask := IPAddress.ALLONES_ADDRESS; ifMetric := 0; multicastGroups := [] |}.

Record InterfaceEntry : Type := mk_InterfaceEntry {
  ie_name : string;
  interfaceId : Z;
  nwLayerGateIndex : Z;
  nodeOutputGateId : Z;
  nodeInputGateId : Z;
  mtu : Z;
  down : bool;
  broadcast : bool;
  multicast : bool;
  pointToPoint : bool;
  loopback : bool;
  datarate : spec_float;
  macAddr : MACAddress.t;
  ipv4data : option IPv4InterfaceData
}.
#[export] Instance eta_InterfaceEntry : Eta InterfaceEntry := fun e =>
  {| ie_name := ie_name e; interfaceId := interfaceId e; nwLayerGateIndex := nwLayerGateIndex e;
     nodeOutputGateId := nodeOutputGateId e; nodeInputGateId := nodeInputGateId e;
     mtu := mtu e; down := down e; broadcast := broadcast e; multicast := multicast e;
     pointToPoint := pointToPoint e; loopback := loopback e; datarate := datarate e;
     macAddr := macAddr e; ipv4data := ipv4data e |}.

Definition InterfaceEntry_new : InterfaceEntry :=
  {| ie_name := ""; interfaceId := -1; nwLayerGateIndex := -1; nodeOutputGateId := -1;
     nodeInputGateId := -1; mtu := 0; down := false; broadcast := false; multicast := false;
     pointToPoint := false; loopback := false; datarate := S754_zero false;
     macAddr := MACAddress.UNSPECIFIED_ADDRESS; ipv4data := None |}.

Module InterfaceTable.

Definition INTERFACEIDS_START : Z := 100.

(** [tmpNumInterfaces] is -1 and [tmpInterfaceList] is [None] until they are
    computed; the list holds positions in [idToInterface]. *)
Record t : Type := mk {
  idToInterface : list (option InterfaceEntry);
  tmpNumInterfaces : Z;
  tmpInterfaceList : option (list nat)
}.
#[export] Instance eta : Eta t := fun x =>
  {| idToInterface := idToInterface x; tmpNumInterfaces := tmpNumInterfaces x;
     tmpInterfaceList := tmpInterfaceList x |}.

Definition new : t := {| idToInterface := []; tmpNumInterfaces := -1; tmpInterfaceList := None |}.

Definition present (e : option InterfaceEntry) : bool :=
  match e with Some _ => true | None => false end.

(** The non-[NULL] entries, in order: what the loops over [getInterface(i)] see. *)
Definition interfaces (x : t) : list InterfaceEntry := omap id (idToInterface x).

Definition getNumInterfaces : Eff t Z :=
  let! n := gets tmpNumInterfaces in
  (if n =? -1 then
     modify (fun x => x <| tmpNumInterfaces :=
       Z.of_nat (length (filter (fun e => present e = true) (idToInterface x))) |>)
   else ret tt) ;;;
  gets tmpNumInterfaces.

(** The loop that collects the non-[NULL] elements, from position [i] on. *)
Fixpoint collect (i : nat) (l : list (option InterfaceEntry)) : list nat :=
  match l with
  | [] => []
  | Some _ :: rest => i :: collect (S i) rest
  | None :: rest => collect (S i) rest
  end.

Definition fillTmpInterfaceList (x : t) : t :=
  match tmpInterfaceList x with
  | None => x <| tmpInterfaceList := Some (collect 0 (idToInterface x)) |>
  | Some _ => x
  end.

Definition getInterface (pos : Z) : Eff t InterfaceEntry :=
  let! n := getNumInterfaces in
  if (pos <? 0) || (n <=? pos) then fail (RuntimeError "getInterface(): interface index out of range")
  else
    modify fillTmpInterfaceList ;;;
    let! x := gets id in
    match default [] (tmpInterfaceList x) !! Z.to_nat pos with
    | Some i => match idToInterface x !! i with
                | Some (Some e) => ret e
                | _ => fail (NullPointer "tmpInterfaceList[pos]")
                end
    | None => fail (NullPointer "tmpInterfaceList[pos]")
    end.

Definition getInterfaceById (id : Z) (x : t) : option InterfaceEntry :=
  let id := id - INTERFACEIDS_START in
  if (id <? 0) || (Z.of_nat (length (idToInterface x)) <=? id) then None
  else default None (idToInterface x !! Z.to_nat id).

(** The linear searches return the first entry with the property. *)
Definition find_interface (P : InterfaceEntry -> bool) (x : t) : option InterfaceEntry :=
  List.find P (interfaces x).
Definition getInterfaceByName (name : string) : t -> option InterfaceEntry :=
  find_interface (fun e => bool_decide (ie_name e = name)).
Definition getInterfaceByNodeOutputGateId (g : Z) : t -> option InterfaceEntry :=
  find_interface (fun e => nodeOutputGateId e =? g).
Definition getInterfaceByNodeInputGateId (g : Z) : t -> option InterfaceEntry :=
  find_interface (fun e => nodeInputGateId e =? g).
Definition getInterfaceByNetworkLayerGateIndex (index : Z) : t -> option InterfaceEntry :=
  find_interface (fun e => nwLayerGateIndex e =? index).
Definition getFirstLoopbackInterface : t -> option InterfaceEntry := find_interface loopback.

Definition invalidateTmpInterfaceList : Eff t unit :=
  modify (fun x => x <| tmpNumInterfaces := -1 |> <| tmpInterfaceList := None |>).

(** The gates found by [discoverConnectingGates] are given: ids of the node's
    gates and the index of the network layer's gate ([None] when [ifmod] is
    [NULL]). *)
Definition addInterface (e : InterfaceEntry) (gates : option (Z * Z * Z)) : Eff t Z :=
  let! x := gets id in
  match getInterfaceByName (ie_name e) x with
  | Some _ => fail (RuntimeError "addInterface(): interface already registered")
  | None =>
      let ifId := INTERFACEIDS_START + Z.of_nat (length (idToInterface x)) in
      let e := e <| interfaceId := ifId |> in
      let e := match gates with
               | Some (nodeOut, nodeIn, nwIndex) =>
                   e <| nodeOutputGateId := nodeOut |> <| nodeInputGateId := nodeIn |>
                     <| nwLayerGateIndex := nwIndex |>
               | None => e
               end in
      modify (fun x => x <| idToInterface := idToInterface x ++ [Some e] |>) ;;;
      invalidateTmpInterfaceList ;;;
      ret ifId
  end.

Definition deleteInterface (ifId : Z) : Eff t unit :=
  let! x := gets id in
  match getInterfaceById ifId x with
  | None => fail (RuntimeError "deleteInterface(): interface not found in interface table")
  | Some _ =>
      modify (fun x => x <| idToInterface :=
        <[Z.to_nat (ifId - INTERFACEIDS_START) := None]> (idToInterface x) |>) ;;;
      invalidateTmpInterfaceList
  end.

(** A setter of the entry behind pointer [ifId]. *)
Definition update_entry (ifId : Z) (f : InterfaceEntry -> InterfaceEntry) (x : t) : t :=
  x <| idToInterface :=
    alter (option_map f) (Z.to_nat (ifId - INTERFACEIDS_START)) (idToInterface x) |>.

(** [initialize], stage 0: the loopback interface. *)
Definition initialize : t :=
  match addInterface (InterfaceEntry_new <| ie_name := "lo0" |> <| mtu := 3924 |>
                        <| loopback := true |>) None new with
  | Ok _ x => x
  | Err _ => new
  end.

(** ** The cached list *)
Definition cache_ok (x : t) : Prop :=
  (tmpNumInterfaces x = -1 \/ tmpNumInterfaces x = Z.of_nat (length (interfaces x))) /\
  (forall l, tmpInterfaceList x = Some l -> l = collect 0 (idToInterface x)).

Lemma collect_length i l : length (collect i l) = length (omap id l).
Proof. revert i. induction l as [|[e|] l IH]; intros i; simpl; [done| |]; by rewrite IH. Qed.

Lemma collect_lookup i l k :
  match collect i l !! k with
  | Some j => (i <= j)%nat /\ exists e, l !! (j - i)%nat = Some (Some e) /\ omap id l !! k = Some e
  | None => omap id l !! k = None
  end.
Proof.
  revert i k. induction l as [|[e|] l IH]; intros i k; simpl; [done| |].
  - destruct k as [|k]; simpl.
    { split; [done|]. exists e. by rewrite Nat.sub_diag. }
    specialize (IH (S i) k). destruct (collect (S i) l !! k) as [j|]; [|done].
    destruct IH as (Hj & e' & Hl & Ho). split; [lia|]. exists e'. split; [|done].
    by replace (j - i)%nat with (S (j - S i)) by lia.
  - specialize (IH (S i) k). destruct (collect (S i) l !! k) as [j|]; [|done].
    destruct IH as (Hj & e' & Hl & Ho). split; [lia|]. exists e'. split; [|done].
    by replace (j - i)%nat with (S (j - S i)) by lia.
Qed.

Lemma present_count l : length (filter (fun e => present e = true) l) = length (omap id l).
Proof. induction l as [|[e|] l IH]; simpl; rewrite ?filter_cons; simpl; [done| |done]. by rewrite IH. Qed.

(** [getInterface(pos)] is the [pos]-th interface, whatever is cached. *)
Lemma getInterface_spec x pos :
  cache_ok x ->
  match interfaces x !! Z.to_nat pos with
  | Some e => 0 <= pos -> exists x', getInterface pos x = Ok e x' /\ cache_ok x' /\
                idToInterface x' = idToInterface x
  | None => 0 <= pos -> exists w, getInterface pos x = Err (RuntimeError w)
  end.
Proof.
  intros [Hn Hl].
  assert (exists x1, getNumInterfaces x = Ok (Z.of_nat (length (interfaces x))) x1 /\
    idToInterface x1 = idToInterface x /\ tmpInterfaceList x1 = tmpInterfaceList x /\
    tmpNumInterfaces x1 = Z.of_nat (length (interfaces x))) as (x1 & Hget & Hid & Htl & Htn).
  { unfold getNumInterfaces, bind, gets, modify, ret.
    destruct (Z.eqb_spec (tmpNumInterfaces x) (-1)) as [He|Hne].
    - cbn. rewrite present_count. eexists. by split_and!.
    - destruct Hn as [|Hn]; [done|]. rewrite Hn. by exists x. }
  destruct (interfaces x !! Z.to_nat pos) as [e|] eqn:He; intros Hpos.
  - pose proof (lookup_lt_Some _ _ _ He) as Hlt.
    unfold getInterface. rewrite (bind_ok _ _ _ _ _ Hget).
    rewrite (proj2 (Z.ltb_ge pos 0)), (proj2 (Z.leb_gt (Z.of_nat (length (interfaces x))) pos)) by lia. cbn [orb].
    unfold bind, modify, gets. set (x2 := fillTmpInterfaceList x1).
    assert (idToInterface x2 = idToInterface x /\ tmpInterfaceList x2 = Some (collect 0 (idToInterface x)) /\
      tmpNumInterfaces x2 = tmpNumInterfaces x1) as (Hid2 & Htl2 & Htn2).
    { unfold x2, fillTmpInterfaceList. rewrite Htl.
      destruct (tmpInterfaceList x) as [l|] eqn:Hc; [|cbn; by rewrite Hid].
      rewrite Hid, Htl, <- (Hl l eq_refl). done. }
    unfold id. rewrite Htl2, Hid2. cbn beta iota delta [default].
    pose proof (collect_lookup 0 (idToInterface x) (Z.to_nat pos)) as Hc. unfold interfaces in He.
    destruct (collect 0 (idToInterface x) !! Z.to_nat pos) as [j|]; [|congruence].
    destruct Hc as (_ & e' & Hj & Ho). rewrite Nat.sub_0_r in Hj. rewrite Hj. simplify_eq.
    exists x2. split_and!; [done| |done]. unfold cache_ok, interfaces. rewrite Hid2, Htl2, Htn2, Htn.
    split; [by right|congruence].
  - apply lookup_ge_None in He. unfold getInterface. rewrite (bind_ok _ _ _ _ _ Hget).
    rewrite (proj2 (Z.leb_le (Z.of_nat (length (interfaces x))) pos)) by lia. rewrite orb_true_r.
    by eexists.
Qed.
End InterfaceTable.
