(* ===== verification/RoutingTable.v ===== *)
(** * The IPv4 routing table

    [IPRoute] ([networklayer/ipv4/IPRoute.h]) and [RoutingTable]
    ([networklayer/ipv4/RoutingTable.cc]).  Routes are objects reached through
    pointers: the vectors, and the cache, hold pointers into [heap].  The table and
    the interface table of one node form a [Node]; [fired] collects the
    notifications sent to other modules.  Reading a routing file is not modelled, nor
    is the field [sequencenumber], which only the DSDV module uses. *)
From Stdlib Require Import String SpecFloat.
From S2P Require Import Prelude IPAddress MACAddress MachineFloat InterfaceTable.

Inductive RouteType : Type := DIRECT | REMOTE.
Inductive RouteSource : Type := MANUAL | IFACENETMASK | RIP | OSPF | BGP | ZEBRA | MANET.
#[export] Instance RouteSource_eq_dec : EqDecision RouteSource.
Proof. solve_decision. Defined.

Record IPRoute : Type := mk_IPRoute {
  host : IPAddress.t;
  netmask : IPAddress.t;
  gateway : IPAddress.t;
  interfacePtr : option Z;
  type_ : RouteType;
  source : RouteSource;
  metric : Z;
  installtime : Z
}.
#[export] Instance eta_IPRoute : Eta IPRoute := fun r =>
  {| host := host r; netmask := netmask r; gateway := gateway r; interfacePtr := interfacePtr r;
     type_ := type_ r; source := source r; metric := metric r; installtime := installtime r |}.

Definition IPRoute_new : IPRoute :=
  {| host := 0; netmask := 0; gateway := 0; interfacePtr := None; type_ := DIRECT;
     source := MANUAL; metric := 0; installtime := 0 |}.

Inductive Notification : Type :=
| NF_IPv4_ROUTE_ADDED (r : IPRoute)
| NF_IPv4_ROUTE_DELETED (r : IPRoute).

(** What the table is told by the notification board. *)
Inductive Category : Type :=
| NF_INTERFACE_CREATED
| NF_INTERFACE_DELETED (ifId : Z)
| NF_INTERFACE_STATE_CHANGED
| NF_INTERFACE_CONFIG_CHANGED
| NF_INTERFACE_IPv4CONFIG_CHANGED.

(** [timetolive_routing_entry] is [None] for [getMaxTime()]. *)
Record RoutingTable : Type := mk_RoutingTable {
  heap : gmap positive IPRoute;
  nextRoute : positive;
  routerId : IPAddress.t;
  IPForward : bool;
  timetolive_routing_entry : option Z;
  routes : list positive;
  multicastRoutes : list positive;
  routingCache : gmap Z (option positive);
  localAddresses : gset Z;
  localBroadcastAddresses : gset Z
}.
#[export] Instance eta_RoutingTable : Eta RoutingTable := fun r =>
  {| heap := heap r; nextRoute := nextRoute r; routerId := routerId r; IPForward := IPForward r;
     timetolive_routing_entry := timetolive_routing_entry r; routes := routes r;
     multicastRoutes := multicastRoutes r; routingCache := routingCache r;
     localAddresses := localAddresses r; localBroadcastAddresses := localBroadcastAddresses r |}.

Definition RoutingTable_new (forward : bool) : RoutingTable :=
  {| heap := ∅; nextRoute := 1; routerId := 0; IPForward := forward;
     timetolive_routing_entry := None; routes := []; multicastRoutes := [];
     routingCache := ∅; localAddresses := ∅; localBroadcastAddresses := ∅ |}.

Record Node : Type := mk_Node {
  ift : InterfaceTable.t;
  rt : RoutingTable;
  clock : Z;
  fired : list Notification
}.
#[export] Instance eta_Node : Eta Node := fun n =>
  {| ift := ift n; rt := rt n; clock := clock n; fired := fired n |}.

Definition set_rt (f : RoutingTable -> RoutingTable) : Eff Node unit :=
  modify (fun n => n <| rt := f (rt n) |>).
Definition get_rt {A} (f : RoutingTable -> A) : Eff Node A := gets (fun n => f (rt n)).
Definition fireChangeNotification (x : Notification) : Eff Node unit :=
  modify (fun n => n <| fired := fired n ++ [x] |>).

(** [ift->getInterface(i)] for all [i]; see [InterfaceTable.getInterface_spec]. *)
Definition all_interfaces : Eff Node (list InterfaceEntry) :=
  gets (fun n => InterfaceTable.interfaces (ift n)).

Definition ipv4Data {S} (e : InterfaceEntry) : Eff S IPv4InterfaceData :=
  match ipv4data e with
  | Some d => ret d
  | None => fail (NullPointer "ipv4Data()")
  end.

Definition deref (p : positive) : Eff Node IPRoute :=
  let! h := get_rt heap in
  match h !! p with
  | Some r => ret r
  | None => fail (NullPointer "dangling route pointer")
  end.

Definition invalidateCache : Eff Node unit :=
  set_rt (fun r => r <| routingCache := ∅ |> <| localAddresses := ∅ |>).

(** ** Local addresses *)
Definition isLocalAddress (dest : IPAddress.t) : Eff Node bool :=
  let! known := get_rt localAddresses in
  (if bool_decide (known = ∅) then
     let! l := all_interfaces in
     let! ds := mapE ipv4Data l in
     set_rt (fun r => r <| localAddresses := list_to_set (inetAddr <$> ds) |>)
   else ret tt) ;;;
  let! known := get_rt localAddresses in
  ret (bool_decide (dest ∈ known)).

(** The broadcast addresses of the interfaces' networks. *)
Definition broadcast_addresses (ds : list IPv4InterfaceData) : list IPAddress.t :=
  filter (fun a => IPAddress.isUnspecified a = false)
    ((fun d => IPAddress.getBroadcastAddress (inetAddr d) (ifNetmask d)) <$> ds).

Definition isLocalBroadcastAddress (dest : IPAddress.t) : Eff Node bool :=
  let! known := get_rt localBroadcastAddresses in
  (if bool_decide (known = ∅) then
     let! l := all_interfaces in
     let! ds := mapE ipv4Data l in
     set_rt (fun r => r <| localBroadcastAddresses := list_to_set (broadcast_addresses ds) |>)
   else ret tt) ;;;
  let! known := get_rt localBroadcastAddresses in
  ret (bool_decide (dest ∈ known)).

Definition isLocalMulticastAddress (dest : IPAddress.t) : Eff Node bool :=
  let! l := all_interfaces in
  let! ds := mapE ipv4Data l in
  ret (existsb (fun d => existsb (IPAddress.equals dest) (multicastGroups d)) ds).

Definition getInterfaceByAddress (addr : IPAddress.t) : Eff Node (option InterfaceEntry) :=
  if IPAddress.isUnspecified addr then ret None else
  let! l := all_interfaces in
  let! ds := mapE ipv4Data l in
  ret (fst <$> List.find (fun p => IPAddress.equals (inetAddr (snd p)) addr) (zip l ds)).

Definition gatherAddresses : Eff Node (list IPAddress.t) :=
  let! l := all_interfaces in
  let! ds := mapE ipv4Data l in
  ret (inetAddr <$> ds).

(** ** Looking up a route *)
Definition testValidity (entry : IPRoute) : Eff Node bool :=
  let! ttl := get_rt timetolive_routing_entry in
  match ttl with
  | None => ret true
  | Some ttl =>
      let! isLocal := isLocalAddress (host entry) in
      if isLocal then ret true else
      let! now := gets clock in
      let s := IPAddress.str (host entry) in
      ret (negb (negb (bool_decide (s = "*"%string)) && negb (bool_decide (s = "<unspec>"%string)) &&
                 negb (bool_decide (s = "127.0.0.1"%string)) && (ttl <? now - installtime entry)))
  end.

(** The condition under which [e] replaces [best] in the search. *)
Definition better (dest : IPAddress.t) (e : IPRoute) (best : option IPRoute) (longestNetmask : Z) : bool :=
  IPAddress.maskedAddrAreEqual dest (host e) (netmask e) &&
  match best with
  | None => true
  | Some b => (longestNetmask <? netmask e) ||
              ((netmask e =? longestNetmask) && (metric e <? metric b))
  end.

Fixpoint best_loop (dest : IPAddress.t) (l : list positive) (bestRoute : option positive)
    (longestNetmask : Z) : Eff Node (option positive) :=
  match l with
  | [] => ret bestRoute
  | p :: rest =>
      let! e := deref p in
      let! valid := testValidity e in
      let! best := (match bestRoute with
                    | None => ret None
                    | Some b => let! r := deref b in ret (Some r)
                    end) in
      if valid && better dest e best longestNetmask
      then best_loop dest rest (Some p) (netmask e)
      else best_loop dest rest bestRoute longestNetmask
  end.

(** The second search, for a route to [dest] itself with the lowest metric. *)
Fixpoint uni_loop (dest : IPAddress.t) (l : list positive) (bestUniRoute : option positive)
    : Eff Node (option positive) :=
  match l with
  | [] => ret bestUniRoute
  | p :: rest =>
      let! e := deref p in
      let! valid := testValidity e in
      let! worse := (match bestUniRoute with
                     | None => ret true
                     | Some b => let! r := deref b in ret (metric e <? metric r)
                     end) in
      if valid && IPAddress.maskedAddrAreEqual dest (host e) IPAddress.ALLONES_ADDRESS && worse
      then uni_loop dest rest (Some p)
      else uni_loop dest rest bestUniRoute
  end.

(** A cached route that can be used. *)
Definition cached_route (dest : IPAddress.t) : Eff Node (option positive) :=
  let! cache := get_rt routingCache in
  match cache !! dest with
  | None => ret None
  | Some None => invalidateCache ;;; ret None
  | Some (Some p) =>
      let! e := deref p in
      let! valid := testValidity e in
      ret (if valid && (negb (bool_decide (source e = MANET)) ||
                        IPAddress.maskedAddrAreEqual dest (host e) IPAddress.ALLONES_ADDRESS)
           then Some p else None)
  end.

(** In the special case for MANET routes the code sets [bestRoute] to [NULL] and
    then reads [bestRoute->getHost()] once a MANET route to [dest] was found. *)
Definition search_route (dest : IPAddress.t) : Eff Node (option positive) :=
  let! rs := get_rt routes in
  let! bestRoute := best_loop dest rs None 0 in
  match bestRoute with
  | None => ret None
  | Some p =>
      let! e := deref p in
      if bool_decide (source e = MANET) && negb (IPAddress.equals (host e) dest) then
        let! bestUniRoute := uni_loop dest rs None in
        match bestUniRoute with
        | None => ret None
        | Some u =>
            let! ue := deref u in
            if bool_decide (source ue = MANET) then fail (NullPointer "bestRoute->getHost()")
            else ret None
        end
      else ret (Some p)
  end.

Definition findBestMatchingRoute (dest : IPAddress.t) : Eff Node (option positive) :=
  let! hit := cached_route dest in
  match hit with
  | Some p => ret (Some p)
  | None =>
      let! bestRoute := search_route dest in
      set_rt (fun r => r <| routingCache := <[dest := bestRoute]> (routingCache r) |>) ;;;
      ret bestRoute
  end.

Definition getInterfaceForDestAddr (dest : IPAddress.t) : Eff Node (option Z) :=
  let! p := findBestMatchingRoute dest in
  match p with
  | Some p => let! e := deref p in ret (interfacePtr e)
  | None => ret None
  end.

Definition getGatewayForDestAddr (dest : IPAddress.t) : Eff Node IPAddress.t :=
  let! p := findBestMatchingRoute dest in
  match p with
  | Some p => let! e := deref p in ret (gateway e)
  | None => ret 0
  end.

Definition getMulticastRoutesFor (dest : IPAddress.t) : Eff Node (list (option Z * IPAddress.t)) :=
  let! ps := get_rt multicastRoutes in
  let! es := mapE deref ps in
  ret ((fun e => (interfacePtr e, gateway e)) <$>
       filter (fun e => IPAddress.maskedAddrAreEqual dest (host e) (netmask e) = true) es).

(** ** Changing the table *)
Definition getDefaultRoute : Eff Node (option positive) :=
  let! ps := get_rt routes in
  let! es := mapE deref ps in
  ret (fst <$> List.find (fun p => IPAddress.isUnspecified (netmask (snd p))) (zip ps es)).

Definition remove_first (p : positive) : list positive -> list positive :=
  fix go l := match l with
              | [] => []
              | q :: rest => if decide (q = p) then rest else q :: go rest
              end.

Definition deleteRoute (p : positive) : Eff Node bool :=
  let! r := get_rt id in
  if bool_decide (p ∈ routes r) then
    let! e := deref p in
    fireChangeNotification (NF_IPv4_ROUTE_DELETED e) ;;;
    set_rt (fun r => r <| routes := remove_first p (routes r) |> <| heap := delete p (heap r) |>) ;;;
    invalidateCache ;;;
    ret true
  else if bool_decide (p ∈ multicastRoutes r) then
    let! e := deref p in
    fireChangeNotification (NF_IPv4_ROUTE_DELETED e) ;;;
    set_rt (fun r => r <| multicastRoutes := remove_first p (multicastRoutes r) |>
                       <| heap := delete p (heap r) |>) ;;;
    invalidateCache ;;;
    ret true
  else ret false.

(** [addRoute] of a route object [entry] created by the caller; its address is
    returned.  The check for bits outside the netmask applies [doAnd] to the
    [bool] [isUnspecified()], as in the code. *)
Definition addRoute (entry : IPRoute) : Eff Node positive :=
  if negb (Bool.eqb (IPAddress.isUnspecified (host entry)) (IPAddress.isUnspecified (netmask entry)))
  then fail (RuntimeError "addRoute(): to add a default route, set both host and netmask to zero") else
  if negb (IPAddress.doAnd (host entry) (if IPAddress.isUnspecified (netmask entry) then 1 else 0) =? 0)
  then fail (RuntimeError "addRoute(): suspicious route") else
  match interfacePtr entry with
  | None => fail (RuntimeError "addRoute(): interface cannot be NULL")
  | Some _ =>
      let! p := get_rt nextRoute in
      set_rt (fun r => r <| nextRoute := Pos.succ p |> <| heap := <[p := entry]> (heap r) |>) ;;;
      (if IPAddress.isUnspecified (netmask entry) then
         let! old := getDefaultRoute in
         match old with
         | Some q => let! _ := deleteRoute q in ret tt
         | None => ret tt
         end
       else ret tt) ;;;
      (if negb (IPAddress.isMulticast (host entry))
       then set_rt (fun r => r <| routes := routes r ++ [p] |>)
       else set_rt (fun r => r <| multicastRoutes := multicastRoutes r ++ [p] |>)) ;;;
      invalidateCache ;;;
      fireChangeNotification (NF_IPv4_ROUTE_ADDED entry) ;;;
      ret p
  end.

(** Deletes the first route over the interface and starts over. *)
Fixpoint delete_interface_routes (fuel : nat) (ifId : Z) : Eff Node unit :=
  match fuel with
  | O => fail OutOfFuel
  | S fuel =>
      let! ps := get_rt routes in
      let! es := mapE deref ps in
      match List.find (fun p => bool_decide (interfacePtr (snd p) = Some ifId)) (zip ps es) with
      | Some (p, _) => let! _ := deleteRoute p in delete_interface_routes fuel ifId
      | None => ret tt
      end
  end.
Definition deleteInterfaceRoutes (ifId : Z) : Eff Node unit :=
  let! ps := get_rt routes in delete_interface_routes (S (length ps)) ifId.

(** The routes that follow from an interface's address and netmask. *)
Definition netmask_route (e : InterfaceEntry) (d : IPv4InterfaceData) : IPRoute :=
  IPRoute_new <| type_ := DIRECT |> <| source := IFACENETMASK |> <| host := inetAddr d |>
    <| netmask := ifNetmask d |> <| gateway := 0 |> <| metric := ifMetric d |>
    <| interfacePtr := Some (interfaceId e) |>.

Definition push_netmask_route (e : InterfaceEntry) : Eff Node unit :=
  let! d := ipv4Data e in
  when (negb (IPAddress.equals (ifNetmask d) IPAddress.ALLONES_ADDRESS))
    (set_rt (fun r => r <| heap := <[nextRoute r := netmask_route e d]> (heap r) |>
                        <| routes := routes r ++ [nextRoute r] |>
                        <| nextRoute := Pos.succ (nextRoute r) |>)).

(** The route objects erased from the vector are not deleted. *)
Definition updateNetmaskRoutes : Eff Node unit :=
  let! ps := get_rt routes in
  let! es := mapE deref ps in
  set_rt (fun r => r <| routes :=
    fst <$> filter (fun p => source (snd p) <> IFACENETMASK) (zip ps es) |>) ;;;
  let! l := all_interfaces in
  let! _ := mapE push_netmask_route l in
  invalidateCache.

Definition receiveChangeNotification (category : Category) : Eff Node unit :=
  match category with
  | NF_INTERFACE_CREATED => updateNetmaskRoutes
  | NF_INTERFACE_DELETED ifId => deleteInterfaceRoutes ifId
  | NF_INTERFACE_STATE_CHANGED => invalidateCache
  | NF_INTERFACE_CONFIG_CHANGED => invalidateCache
  | NF_INTERFACE_IPv4CONFIG_CHANGED => updateNetmaskRoutes
  end.

(** Changes the IPv4 data of an interface. *)
Definition set_ipv4 (ifId : Z) (f : IPv4InterfaceData -> IPv4InterfaceData) : Eff Node unit :=
  let! e := gets (fun n => InterfaceTable.getInterfaceById ifId (ift n)) in
  match e with
  | None => fail (NullPointer "interface")
  | Some e =>
      let! d := ipv4Data e in
      modify (fun n => n <| ift :=
        InterfaceTable.update_entry ifId (fun e => e <| ipv4data := Some (f d) |>) (ift n) |>)
  end.

(** At run time the change fires a notification the table listens to; during
    initialization the table ignores it. *)
Definition change_ipv4 (ifId : Z) (f : IPv4InterfaceData -> IPv4InterfaceData) : Eff Node unit :=
  set_ipv4 ifId f ;;;
  receiveChangeNotification NF_INTERFACE_IPv4CONFIG_CHANGED.
Definition setIPAddress (ifId : Z) (a : IPAddress.t) : Eff Node unit :=
  change_ipv4 ifId (fun d => d <| inetAddr := a |>).
Definition setNetmask (ifId : Z) (m : IPAddress.t) : Eff Node unit :=
  change_ipv4 ifId (fun d => d <| ifNetmask := m |>).

Definition getNumRoutes : Eff Node nat :=
  get_rt (fun r => (length (routes r) + length (multicastRoutes r))%nat).
Definition getRoute (k : nat) : Eff Node (option positive) :=
  get_rt (fun r => (routes r ++ multicastRoutes r) !! k).

(** [IPRoute::getInterfaceName]; an interface that was deleted is dangling. *)
Definition getInterfaceName (entry : IPRoute) : Eff Node string :=
  match interfacePtr entry with
  | None => ret ""%string
  | Some i =>
      let! ie := gets (fun n => InterfaceTable.getInterfaceById i (ift n)) in
      match ie with
      | Some e => ret (ie_name e)
      | None => fail (NullPointer "dangling interface pointer")
      end
  end.

(** An unspecified address, the metric 0 and a [NULL] device name match anything. *)
Definition routeMatches (entry : IPRoute) (target nmask gw : IPAddress.t) (met : Z) (dev : option string)
    : Eff Node bool :=
  if negb (IPAddress.isUnspecified target) && negb (IPAddress.equals target (host entry)) then ret false
  else if negb (IPAddress.isUnspecified nmask) && negb (IPAddress.equals nmask (netmask entry)) then ret false
  else if negb (IPAddress.isUnspecified gw) && negb (IPAddress.equals gw (gateway entry)) then ret false
  else if negb (met =? 0) && negb (met =? metric entry) then ret false
  else match dev with
       | None => ret true
       | Some dev => let! name := getInterfaceName entry in ret (dev =? name)%string
       end.

Section Find_route.
Variables (target nmask gw : IPAddress.t) (met : Z) (dev : option string).

Fixpoint find_loop (ps : list positive) : Eff Node (option positive) :=
  match ps with
  | [] => ret None
  | p :: rest =>
      let! e := deref p in
      let! ok := routeMatches e target nmask gw met dev in
      if ok then ret (Some p) else find_loop rest
  end.

Definition findRoute : Eff Node (option positive) :=
  let! ps := get_rt (fun r => routes r ++ multicastRoutes r) in find_loop ps.

(** The pairs of route and index, in the order of the indices; the multimap of the
    code keeps them by the addresses of the objects. *)
Fixpoint find_list_loop (i : nat) (ps : list positive) : Eff Node (list (positive * nat)) :=
  match ps with
  | [] => ret []
  | p :: rest =>
      let! e := deref p in
      let! ok := routeMatches e target nmask gw met dev in
      let! found := find_list_loop (S i) rest in
      ret (if ok then (p, i) :: found else found)
  end.

Definition findRouteList : Eff Node (list (positive * nat)) :=
  let! ps := get_rt (fun r => routes r ++ multicastRoutes r) in find_list_loop 0 ps.
End Find_route.

Definition write_metric (p : positive) (met : Z) : Eff Node unit :=
  let! _ := deref p in
  set_rt (fun r => r <| heap := alter (fun e => e <| metric := met |>) p (heap r) |>).

(** The metric is changed in place; the cache is not invalidated. *)
Definition setMetric (k : nat) (met : Z) : Eff Node bool :=
  let! p := getRoute k in
  match p with
  | Some p => write_metric p met ;;; ret true
  | None => ret false
  end.

(** [draws] are the results of [intuniform(1,maxMetric)], one per route changed. *)
Fixpoint scramble_loop (destIP : IPAddress.t) (draws : nat -> Z) (k : nat) (ps : list positive) : Eff Node nat :=
  match ps with
  | [] => ret k
  | p :: rest =>
      let! e := deref p in
      if IPAddress.equals (host e) destIP || IPAddress.isUnspecified destIP
      then write_metric p (draws k) ;;; scramble_loop destIP draws (S k) rest
      else scramble_loop destIP draws k rest
  end.

Definition scrambleRoutes (destIP : IPAddress.t) (draws : nat -> Z) : Eff Node bool :=
  let! ps := get_rt routes in
  let! k := scramble_loop destIP draws 0 ps in
  ret (negb (k =? 0)%nat).

(** Neither the route objects nor the cache are cleared. *)
Definition flushTable : Eff Node unit :=
  set_rt (fun r => r <| routes := [] |> <| multicastRoutes := [] |>).

(** Deletes the routes that are too old, from position [i] on. *)
Fixpoint dsdv_loop (fuel : nat) (i : nat) : Eff Node unit :=
  match fuel with
  | O => fail OutOfFuel
  | S fuel =>
      let! ps := get_rt routes in
      match ps !! i with
      | None => ret tt
      | Some p =>
          let! e := deref p in
          let! valid := testValidity e in
          if valid then dsdv_loop fuel (S i)
          else let! _ := deleteRoute p in dsdv_loop fuel i
      end
  end.
Definition dsdvTestAndDelete : Eff Node unit :=
  let! ttl := get_rt timetolive_routing_entry in
  match ttl with
  | None => ret tt
  | Some _ => let! ps := get_rt routes in dsdv_loop (S (length ps)) 0
  end.

(** ** Configuration *)
(** [(int)ceil(2e9/ie->getDatarate())] *)
Definition default_metric (e : InterfaceEntry) : option Z :=
  to_int (ceil (double_div (double_of_int 2000000000) (datarate e))).

(** These two run during initialization, when the table ignores the notifications
    that changes of the IPv4 data fire. *)
Definition configureInterfaceForIPv4 (e : InterfaceEntry) : Eff Node unit :=
  match default_metric e with
  | Some m =>
      modify (fun n => n <| ift := InterfaceTable.update_entry (interfaceId e)
        (fun e => e <| ipv4data := Some (IPv4InterfaceData_new <| ifMetric := m |>) |>) (ift n) |>)
  | None => fail (RuntimeError "conversion to int is undefined")
  end.

Definition configureLoopbackForIPv4 : Eff Node unit :=
  let! lo := gets (fun n => InterfaceTable.getFirstLoopbackInterface (ift n)) in
  match lo with
  | None => fail (NullPointer "getFirstLoopbackInterface()")
  | Some e =>
      modify (fun n => n <| ift := InterfaceTable.update_entry (interfaceId e)
        (fun e => e <| ipv4data := Some {| inetAddr := IPAddress.LOOPBACK_ADDRESS;
                                           ifNetmask := IPAddress.LOOPBACK_NETMASK; ifMetric := 1;
                                           multicastGroups := [] |} |>) (ift n) |>)
  end.

(** The highest address of the interfaces that are not loopback. *)
Fixpoint highest_address (l : list (InterfaceEntry * IPv4InterfaceData)) (best : IPAddress.t) : IPAddress.t :=
  match l with
  | [] => best
  | (e, d) :: rest =>
      highest_address rest (if negb (loopback e) && (best <? inetAddr d) then inetAddr d else best)
  end.

(** [auto] says that the parameter [routerId] is "auto". *)
Definition configureRouterId (auto : bool) : Eff Node unit :=
  let! rid := get_rt routerId in
  if IPAddress.isUnspecified rid then
    when auto
      (let! l := all_interfaces in
       let! ds := mapE ipv4Data (filter (fun e => loopback e = false) l) in
       set_rt (fun r => r <| routerId :=
         highest_address (zip (filter (fun e => loopback e = false) l) ds) (routerId r) |>))
  else
    let! ie := getInterfaceByAddress rid in
    match ie with
    | Some _ => ret tt
    | None =>
        let! lo0 := gets (fun n => InterfaceTable.getFirstLoopbackInterface (ift n)) in
        match lo0 with
        | None => fail (NullPointer "lo0")
        | Some e =>
            set_ipv4 (interfaceId e) (fun d =>
              d <| inetAddr := rid |> <| ifNetmask := IPAddress.ALLONES_ADDRESS |>)
        end
    end.
