(* ===== verification/RoutingSpec.v ===== *)
(** * Longest prefix match

    An invariant of the routing table and its cache, kept by every operation that
    changes the table, and what [findBestMatchingRoute] returns under it. *)
From Stdlib Require Import String SpecFloat.
From S2P Require Import Prelude IPAddress IPAddressSpec MACAddress MachineFloat InterfaceTable RoutingTable.

(** ** Specification *)
Definition matches (dest : Z) (e : IPRoute) : Prop :=
  IPAddress.maskedAddrAreEqual dest (host e) (netmask e) = true.

(** [e] is at least as good as [e']: a greater netmask, or the same and no
    higher metric. *)
Definition as_good (e e' : IPRoute) : Prop :=
  netmask e' < netmask e \/ (netmask e' = netmask e /\ metric e <= metric e').

Definition best_match (r : RoutingTable) (dest : Z) (p : positive) : Prop :=
  exists e, p ∈ routes r /\ heap r !! p = Some e /\ matches dest e /\
    forall q e', q ∈ routes r -> heap r !! q = Some e' -> matches dest e' -> as_good e e'.

Definition no_match (r : RoutingTable) (dest : Z) : Prop :=
  forall q e', q ∈ routes r -> heap r !! q = Some e' -> ~ matches dest e'.

Record table_inv (r : RoutingTable) : Prop := {
  ti_nodup : NoDup (routes r ++ multicastRoutes r);
  ti_heap : forall p, p ∈ routes r ++ multicastRoutes r -> is_Some (heap r !! p);
  ti_fresh : forall p, is_Some (heap r !! p) -> (p < nextRoute r)%positive;
  ti_ttl : timetolive_routing_entry r = None;
  ti_manet : forall p e, p ∈ routes r -> heap r !! p = Some e -> source e <> MANET
}.

Definition cache_inv (r : RoutingTable) : Prop :=
  forall dest p, routingCache r !! dest = Some (Some p) -> best_match r dest p.

Definition rt_inv (n : Node) : Prop := table_inv (rt n) /\ cache_inv (rt n).

(** Same routes; the caches may differ. *)
Definition same_table (r r' : RoutingTable) : Prop :=
  heap r' = heap r /\ nextRoute r' = nextRoute r /\ routes r' = routes r /\
  multicastRoutes r' = multicastRoutes r /\
  timetolive_routing_entry r' = timetolive_routing_entry r.

Lemma table_inv_same r r' : same_table r r' -> table_inv r -> table_inv r'.
Proof.
  intros (Hh & Hn & Hr & Hm & Ht) [H1 H2 H3 H4 H5].
  split; rewrite ?Hh, ?Hn, ?Hr, ?Hm, ?Ht; assumption.
Qed.

Lemma best_match_same r r' dest p : same_table r r' -> best_match r dest p -> best_match r' dest p.
Proof. intros (Hh & _ & Hr & _). unfold best_match. by rewrite Hh, Hr. Qed.

Section Lookup.
Implicit Types (n : Node) (r : RoutingTable).

(** ** The search *)
Lemma deref_run n p e : heap (rt n) !! p = Some e -> deref p n = Ok e n.
Proof. unfold deref, bind, get_rt, gets. by intros ->. Qed.

Lemma testValidity_run n e : timetolive_routing_entry (rt n) = None -> testValidity e n = Ok true n.
Proof. unfold testValidity, bind, get_rt, gets. by intros ->. Qed.

Lemma as_good_refl e : as_good e e.
Proof. unfold as_good. lia. Qed.
Lemma as_good_trans e1 e2 e3 : as_good e1 e2 -> as_good e2 e3 -> as_good e1 e3.
Proof. unfold as_good. lia. Qed.

(** What the search has found in the part [done] of the vector. *)
Definition found (r : RoutingTable) (dest : Z) (seen : list positive) (best : option positive) : Prop :=
  match best with
  | None => forall q e', q ∈ seen -> heap r !! q = Some e' -> ~ matches dest e'
  | Some p => exists e, p ∈ seen /\ heap r !! p = Some e /\ matches dest e /\
      forall q e', q ∈ seen -> heap r !! q = Some e' -> matches dest e' -> as_good e e'
  end.

Lemma found_step r dest seen p e best longest :
  heap r !! p = Some e -> found r dest seen best ->
  (forall b be, best = Some b -> heap r !! b = Some be -> longest = netmask be) ->
  found r dest (seen ++ [p]) (if better dest e (match best with Some b => heap r !! b | None => None end) longest
                              then Some p else best).
Proof.
  intros Hp Hf Hl. unfold better.
  destruct (IPAddress.maskedAddrAreEqual dest (host e) (netmask e)) eqn:Hm; cbn [andb].
  2:{ destruct best as [b|]; cbn in *.
      - destruct Hf as (be & Hb & Hbe & Hbm & Hbest). exists be. split_and!; [set_solver|done|done|].
        intros q e' Hq He' Hm'. apply elem_of_app in Hq as [Hq|Hq]; [by eapply Hbest|].
        apply list_elem_of_singleton in Hq as ->. simplify_eq. unfold matches in Hm'. congruence.
      - intros q e' Hq He' Hm'. apply elem_of_app in Hq as [Hq|Hq]; [by eapply Hf|].
        apply list_elem_of_singleton in Hq as ->. simplify_eq. unfold matches in Hm'. congruence. }
  destruct best as [b|]; cbn in Hf.
  - destruct Hf as (be & Hb & Hbe & Hbm & Hbest). rewrite Hbe. rewrite (Hl b be eq_refl Hbe) in *.
    destruct ((netmask be <? netmask e) || ((netmask e =? netmask be) && (metric e <? metric be))) eqn:Hc.
    + exists e. split_and!; [set_solver|done|done|].
      intros q e' Hq He' Hm'. apply elem_of_app in Hq as [Hq|Hq].
      * apply as_good_trans with be; [unfold as_good; lia|by eapply Hbest].
      * apply list_elem_of_singleton in Hq as ->. simplify_eq. apply as_good_refl.
    + exists be. split_and!; [set_solver|done|done|].
      intros q e' Hq He' Hm'. apply elem_of_app in Hq as [Hq|Hq]; [by eapply Hbest|].
      apply list_elem_of_singleton in Hq as ->. simplify_eq. unfold as_good. lia.
  - exists e. split_and!; [set_solver|done|done|].
    intros q e' Hq He' Hm'. apply elem_of_app in Hq as [Hq|Hq]; [by destruct (Hf q e' Hq He')|].
    apply list_elem_of_singleton in Hq as ->. simplify_eq. apply as_good_refl.
Qed.

Lemma best_loop_spec n dest seen l best longest :
  timetolive_routing_entry (rt n) = None ->
  (forall p, p ∈ l -> is_Some (heap (rt n) !! p)) ->
  found (rt n) dest seen best ->
  (forall b be, best = Some b -> heap (rt n) !! b = Some be -> longest = netmask be) ->
  exists res, best_loop dest l best longest n = Ok res n /\ found (rt n) dest (seen ++ l) res.
Proof.
  intros Ht. revert seen best longest. induction l as [|p l IH]; intros seen best longest Hh Hf Hl; simpl.
  { exists best. by rewrite app_nil_r. }
  destruct (Hh p ltac:(set_solver)) as [e He].
  rewrite (bind_ok _ _ _ _ _ (deref_run _ _ _ He)).
  rewrite (bind_ok _ _ _ _ _ (testValidity_run _ e Ht)). cbn [andb].
  pose proof (found_step _ _ _ _ _ _ _ He Hf Hl) as Hstep.
  assert ((match best with None => ret None | Some b => let! r := deref b in ret (Some r) end) n =
    Ok (match best with Some b => heap (rt n) !! b | None => None end) n) as Hbest.
  { destruct best as [b|]; [|done]. destruct Hf as (be & _ & Hbe & _).
    rewrite (bind_ok _ _ _ _ _ (deref_run _ _ _ Hbe)). unfold ret. by rewrite Hbe. }
  rewrite (bind_ok _ _ _ _ _ Hbest).
  destruct (better dest e _ longest) eqn:Hb;
    (destruct (IH (seen ++ [p]) _ (if better dest e (match best with Some b => heap (rt n) !! b | None => None end) longest
        then netmask e else longest) ltac:(set_solver) Hstep) as (res & Hres & Hfound);
     [rewrite ?Hb; naive_solver|]); rewrite ?Hb in Hres; rewrite <- app_assoc in Hfound;
    exists res; (split; [exact Hres|exact Hfound]).
Qed.

Lemma search_route_spec n dest :
  table_inv (rt n) ->
  exists res, search_route dest n = Ok res n /\
    match res with Some p => best_match (rt n) dest p | None => no_match (rt n) dest end.
Proof.
  intros Hi. destruct (best_loop_spec n dest [] (routes (rt n)) None 0) as (res & Hres & Hf).
  - apply Hi.
  - intros p Hp. apply (ti_heap _ Hi). set_solver.
  - intros q e' Hq. set_solver.
  - done.
  - unfold search_route. rewrite (bind_ok (get_rt routes) _ n _ n) by done.
    rewrite (bind_ok _ _ _ _ _ Hres). cbn in Hf. destruct res as [p|]; [|by exists None].
    destruct Hf as (e & Hp & He & Hm & Hbest). rewrite (bind_ok _ _ _ _ _ (deref_run _ _ _ He)).
    rewrite bool_decide_false by (by apply (ti_manet _ Hi p)). cbn [andb].
    exists (Some p). split; [done|]. by exists e.
Qed.

Lemma cached_route_spec n dest :
  rt_inv n ->
  exists res n', cached_route dest n = Ok res n' /\ same_table (rt n) (rt n') /\ cache_inv (rt n') /\
    ift n' = ift n /\ forall p, res = Some p -> best_match (rt n) dest p.
Proof.
  intros [Hi Hc]. unfold cached_route. rewrite (bind_ok (get_rt routingCache) _ n _ n) by done.
  destruct (routingCache (rt n) !! dest) as [[p|]|] eqn:Hd.
  - destruct (Hc dest p Hd) as (e & Hp & He & Hm & Hbest).
    rewrite (bind_ok _ _ _ _ _ (deref_run _ _ _ He)).
    rewrite (bind_ok _ _ _ _ _ (testValidity_run _ e (ti_ttl _ Hi))).
    rewrite bool_decide_false by (by apply (ti_manet _ Hi p)). cbn.
    exists (Some p), n. split_and!; [done..|]. intros q [= <-]. by apply Hc.
  - eexists None, _. split; [done|]. split_and!; [done| |done|done]. intros d p. cbn. by rewrite lookup_empty.
  - exists None, n. by split_and!.
Qed.

Lemma findBestMatchingRoute_spec n dest :
  rt_inv n ->
  exists res n', findBestMatchingRoute dest n = Ok res n' /\ same_table (rt n) (rt n') /\ rt_inv n' /\
    ift n' = ift n /\
    match res with Some p => best_match (rt n) dest p | None => no_match (rt n) dest end.
Proof.
  intros Hinv. destruct (cached_route_spec n dest Hinv) as (hit & n1 & Hhit & Hs & Hc1 & Hift & Hb).
  pose proof (table_inv_same _ _ Hs (proj1 Hinv)) as Hi1.
  unfold findBestMatchingRoute. rewrite (bind_ok _ _ _ _ _ Hhit).
  destruct hit as [p|].
  { exists (Some p), n1. split_and!; [done|done|by split|done|by apply Hb]. }
  destruct (search_route_spec n1 dest Hi1) as (res & Hres & Hspec).
  rewrite (bind_ok _ _ _ _ _ Hres). unfold bind, set_rt, modify, ret.
  eexists res, _. split; [done|]. destruct Hs as (Hh & Hn & Hr & Hm & Ht).
  assert (match res with Some p => best_match (rt n) dest p | None => no_match (rt n) dest end) as Hspec'.
  { destruct res; unfold best_match, no_match in *; by rewrite Hh, Hr in Hspec. }
  split_and!; [by split_and!| |done|done]. split.
  - eapply table_inv_same; [|exact Hi1]. by split_and!.
  - intros d p. cbn. destruct (decide (d = dest)) as [->|Hne].
    + rewrite lookup_insert. rewrite decide_True by done. intros [= ->].
      eapply best_match_same; [|exact Hspec]. by split_and!.
    + rewrite lookup_insert_ne by done. intros Hd. apply Hc1 in Hd.
      eapply best_match_same; [|exact Hd]. by split_and!.
Qed.
End Lookup.

(** ** Operations that change the table *)
Section Update.
Implicit Types (n : Node) (r : RoutingTable).

Lemma mapE_readonly {S A B} (f : A -> Eff S B) l s bs s' :
  (forall a b s s', f a s = Ok b s' -> s' = s) -> mapE f l s = Ok bs s' ->
  s' = s /\ Forall2 (fun a b => f a s = Ok b s) l bs.
Proof.
  intros Hf. revert bs s'. induction l as [|a l IH]; intros bs s' Hrun; simpl in Hrun.
  { unfold ret in Hrun. simplify_eq. by split. }
  apply bind_inv in Hrun as (b & s1 & Ha & Hrun). pose proof (Hf _ _ _ _ Ha) as ->.
  apply bind_inv in Hrun as (bs1 & s2 & Hl & Hrun). apply IH in Hl as [-> Hl].
  unfold ret in Hrun. simplify_eq. auto.
Qed.

Lemma deref_inv p e n n' : deref p n = Ok e n' -> n' = n /\ heap (rt n) !! p = Some e.
Proof.
  unfold deref, bind, get_rt, gets. destruct (heap (rt n) !! p); [|done]. unfold ret. naive_solver.
Qed.

Lemma mapE_deref_inv ps es n n' :
  mapE deref ps n = Ok es n' -> n' = n /\ Forall2 (fun p e => heap (rt n) !! p = Some e) ps es.
Proof.
  intros [-> Hf]%mapE_readonly; [|intros a b s s' [? _]%deref_inv; done].
  split; [done|]. eapply Forall2_impl; [exact Hf|]. by intros p e [_ He]%deref_inv.
Qed.

Lemma ipv4Data_inv {S} e d (s s' : S) : ipv4Data e s = Ok d s' -> s' = s.
Proof. unfold ipv4Data. destruct (ipv4data e); unfold ret, fail; naive_solver. Qed.

Lemma remove_first_sublist p l : sublist (remove_first p l) l.
Proof.
  induction l as [|q l IH]; simpl; [constructor|]. destruct (decide (q = p)); by constructor.
Qed.

Lemma remove_first_notin p l : NoDup l -> p ∉ remove_first p l.
Proof.
  induction 1 as [|q l Hq Hl IH]; simpl; [set_solver|].
  destruct (decide (q = p)) as [->|]; set_solver.
Qed.

(** Fewer routes; routes not in the table any more may be freed. *)
Lemma table_inv_shrink r r' :
  table_inv r -> sublist (routes r') (routes r) -> sublist (multicastRoutes r') (multicastRoutes r) ->
  (forall p, p ∈ routes r' ++ multicastRoutes r' -> heap r' !! p = heap r !! p) ->
  (forall p, is_Some (heap r' !! p) -> is_Some (heap r !! p)) ->
  nextRoute r' = nextRoute r -> timetolive_routing_entry r' = timetolive_routing_entry r -> table_inv r'.
Proof.
  intros [H1 H2 H3 H4 H5] Hr Hm Hh Hs Hn Ht.
  assert (forall p, p ∈ routes r' ++ multicastRoutes r' -> p ∈ routes r ++ multicastRoutes r) as Hsub.
  { intros p. rewrite !elem_of_app. intros [Hp|Hp]; [left|right]; by eapply sublist_subseteq. }
  split.
  - eapply sublist_NoDup; [exact H1|by apply sublist_app].
  - intros p Hp. rewrite Hh by done. by apply H2, Hsub.
  - intros p Hp. rewrite Hn. by apply H3, Hs.
  - by rewrite Ht.
  - intros p e Hp He. apply (H5 p e); [by eapply sublist_subseteq|].
    rewrite <- Hh; [done|]. set_solver.
Qed.

Lemma cache_inv_empty r : routingCache r = ∅ -> cache_inv r.
Proof. intros He d p. by rewrite He, lookup_empty. Qed.

Lemma deleteRoute_inv p b n n' :
  deleteRoute p n = Ok b n' -> table_inv (rt n) ->
  if b then table_inv (rt n') /\ routingCache (rt n') = ∅ /\ ift n' = ift n /\
            nextRoute (rt n') = nextRoute (rt n) /\ p ∈ routes (rt n) ++ multicastRoutes (rt n) /\
            heap (rt n') = delete p (heap (rt n)) /\
            sublist (routes (rt n')) (routes (rt n)) /\
            sublist (multicastRoutes (rt n')) (multicastRoutes (rt n)) /\
            (length (routes (rt n')) + length (multicastRoutes (rt n')) <
             length (routes (rt n)) + length (multicastRoutes (rt n)))%nat
  else n' = n.
Proof.
  intros Hrun Hi. unfold deleteRoute in Hrun.
  apply bind_inv in Hrun as (r & n1 & Hg & Hrun). unfold get_rt, gets in Hg. injection Hg as <- <-. unfold id in Hrun.
  assert (forall l, p ∈ l -> length (remove_first p l) < length l)%nat as Hlen.
  { intros l. induction l as [|q l IH]; simpl; [set_solver|].
    destruct (decide (q = p)); simpl; [lia|]. intros Hp. assert (p ∈ l) by set_solver. apply IH in H. lia. }
  pose proof (ti_nodup _ Hi) as Hnd. apply NoDup_app in Hnd as (Hn1 & Hdisj & Hn2).
  case_bool_decide as Hin; [|case_bool_decide as Hin2; [|unfold ret in Hrun; by simplify_eq]].
  - apply bind_inv in Hrun as (e & n2 & [-> He]%deref_inv & Hrun).
    unfold bind, fireChangeNotification, set_rt, modify, ret, invalidateCache in Hrun. injection Hrun as <- <-. cbn.
    split_and!; [|done..|set_solver|done|apply remove_first_sublist|done|].
    + eapply table_inv_shrink; [exact Hi|cbn; apply remove_first_sublist|done| | |done|done]; cbn.
      * intros q Hq. apply lookup_delete_ne. intros <-.
        apply elem_of_app in Hq as [Hq|Hq]; [by apply (remove_first_notin p _ Hn1) in Hq|by eapply Hdisj].
      * intros q. destruct (decide (q = p)) as [->|]; [rewrite lookup_delete_eq; by intros []|by rewrite lookup_delete_ne].
    + apply Hlen in Hin. lia.
  - apply bind_inv in Hrun as (e & n2 & [-> He]%deref_inv & Hrun).
    unfold bind, fireChangeNotification, set_rt, modify, ret, invalidateCache in Hrun. injection Hrun as <- <-. cbn.
    split_and!; [|done..|set_solver|done|done|apply remove_first_sublist|].
    + eapply table_inv_shrink; [exact Hi|done|cbn; apply remove_first_sublist| | |done|done]; cbn.
      * intros q Hq. apply lookup_delete_ne. intros <-.
        apply elem_of_app in Hq as [Hq|Hq]; [done|by apply (remove_first_notin p _ Hn2) in Hq].
      * intros q. destruct (decide (q = p)) as [->|]; [rewrite lookup_delete_eq; by intros []|by rewrite lookup_delete_ne].
    + apply Hlen in Hin2. lia.
Qed.

(** A new route object, not yet in the table. *)
Lemma alloc_inv r e :
  table_inv r ->
  table_inv (r <| nextRoute := Pos.succ (nextRoute r) |> <| heap := <[nextRoute r := e]> (heap r) |>) /\
  nextRoute r ∉ routes r ++ multicastRoutes r.
Proof.
  intros [H1 H2 H3 H4 H5].
  assert (nextRoute r ∉ routes r ++ multicastRoutes r) as Hnew.
  { intros Hin. apply H2, H3 in Hin. lia. }
  split; [|done]. split; cbn; [done| | |done|].
  - intros p Hp. destruct (decide (p = nextRoute r)) as [->|]; [done|].
    rewrite lookup_insert_ne by done. by apply H2.
  - intros p. destruct (decide (p = nextRoute r)) as [->|]; [lia|].
    rewrite lookup_insert_ne by done. intros Hp%H3. lia.
  - intros p e' Hp. destruct (decide (p = nextRoute r)) as [->|]; [set_solver|].
    rewrite lookup_insert_ne by done. by apply H5.
Qed.

Lemma push_inv r p e (mc : bool) :
  table_inv r -> p ∉ routes r ++ multicastRoutes r -> heap r !! p = Some e -> source e <> MANET ->
  table_inv (if mc then r <| multicastRoutes := multicastRoutes r ++ [p] |>
             else r <| routes := routes r ++ [p] |>).
Proof.
  intros [H1 H2 H3 H4 H5] Hp He Hs.
  assert (forall l1 l2 : list positive, NoDup (l1 ++ l2) -> p ∉ l1 ++ l2 -> NoDup ((l1 ++ [p]) ++ l2)) as Hnd1.
  { intros l1 l2 Hnd Hni. rewrite <- app_assoc. simpl. rewrite <- Permutation_middle. by constructor. }
  destruct mc; split; cbn; try done.
  - rewrite app_assoc. apply NoDup_app. split_and!; [done|set_solver|apply NoDup_singleton].
  - intros q Hq. destruct (decide (q = p)) as [->|]; [by eexists|]. apply H2. set_solver.
  - by apply Hnd1.
  - intros q Hq. destruct (decide (q = p)) as [->|]; [by eexists|]. apply H2. set_solver.
  - intros q e' Hq He'. destruct (decide (q = p)) as [->|]; [by simplify_eq|]. apply (H5 q e'); [set_solver|done].
Qed.

Lemma addRoute_inv e p n n' :
  addRoute e n = Ok p n' -> source e <> MANET -> table_inv (rt n) ->
  rt_inv n' /\ ift n' = ift n /\ heap (rt n') !! p = Some e /\
  p ∈ (if IPAddress.isMulticast (host e) then multicastRoutes (rt n') else routes (rt n')).
Proof.
  intros Hrun Hs Hi. unfold addRoute in Hrun.
  destruct (negb _); [done|]. destruct (negb _); [done|]. destruct (interfacePtr e); [|done].
  apply bind_inv in Hrun as (q & n1 & Hg & Hrun). unfold get_rt, gets in Hg. injection Hg as <- <-.
  destruct (alloc_inv (rt n) e Hi) as [Hi1 Hnew].
  apply bind_inv in Hrun as ([] & n1 & Hset & Hrun). unfold set_rt, modify in Hset. injection Hset as <-.
  set (q := nextRoute (rt n)) in *.
  apply bind_inv in Hrun as ([] & n2 & Hold & Hrun).
  assert (table_inv (rt n2) /\ ift n2 = ift n /\ heap (rt n2) !! q = Some e /\
    q ∉ routes (rt n2) ++ multicastRoutes (rt n2)) as (Hi2 & Hift & He & Hq).
  { destruct (IPAddress.isUnspecified (netmask e)).
    2:{ unfold ret in Hold. simplify_eq. split_and!; [done|done|cbn; apply lookup_insert_eq|done]. }
    apply bind_inv in Hold as (old & n3 & Hdef & Hold).
    assert (n3 = n <| rt := (rt n) <| nextRoute := Pos.succ q |> <| heap := <[q := e]> (heap (rt n)) |> |>) as ->.
    { unfold getDefaultRoute in Hdef. apply bind_inv in Hdef as (ps & n4 & Hg & Hdef).
      unfold get_rt, gets in Hg. injection Hg as <- <-.
      apply bind_inv in Hdef as (es & n5 & [-> _]%mapE_deref_inv & Hret). unfold ret in Hret. by simplify_eq. }
    destruct old as [d|].
    - apply bind_inv in Hold as (b & n4 & Hdel & Hret). unfold ret in Hret. simplify_eq.
      apply deleteRoute_inv in Hdel; [|done]. destruct b.
      + destruct Hdel as (? & _ & ? & _ & Hd & Hh & Hr & Hm & _). cbn in *.
        split_and!; [done|done| |].
        * rewrite Hh, lookup_delete_ne, lookup_insert_eq; [done|]. intros ->. done.
        * intros Hin. apply Hnew. apply elem_of_app in Hin as [Hin|Hin]; apply elem_of_app; [left|right];
            by eapply sublist_subseteq.
      + subst n2. split_and!; [done|done|cbn; apply lookup_insert_eq|done].
    - unfold ret in Hold. simplify_eq. split_and!; [done|done|cbn; apply lookup_insert_eq|done]. }
  clear Hold. unfold bind, set_rt, modify, invalidateCache, fireChangeNotification, ret in Hrun.
  pose proof (push_inv _ q e true Hi2 Hq He Hs) as Hpm. pose proof (push_inv _ q e false Hi2 Hq He Hs) as Hpr.
  destruct (IPAddress.isMulticast (host e)); cbn in Hrun; injection Hrun as <- <-.
  - split_and!; [|done|done|cbn; set_solver]. split; [|by apply cache_inv_empty].
    eapply table_inv_same; [|exact Hpm]. by split_and!.
  - split_and!; [|done|done|cbn; set_solver]. split; [|by apply cache_inv_empty].
    eapply table_inv_same; [|exact Hpr]. by split_and!.
Qed.

Lemma delete_interface_routes_inv fuel ifId n n' :
  delete_interface_routes fuel ifId n = Ok tt n' -> rt_inv n -> rt_inv n' /\ ift n' = ift n.
Proof.
  revert n. induction fuel as [|fuel IH]; intros n Hrun Hi; simpl in Hrun; [done|].
  apply bind_inv in Hrun as (ps & n1 & Hg & Hrun). unfold get_rt, gets in Hg. injection Hg as <- <-.
  apply bind_inv in Hrun as (es & n1 & [-> _]%mapE_deref_inv & Hrun).
  destruct (List.find _ _) as [[p e]|]; [|unfold ret in Hrun; by simplify_eq].
  apply bind_inv in Hrun as (b & n1 & Hdel & Hrun).
  apply deleteRoute_inv in Hdel; [|by apply Hi]. destruct b.
  - destruct Hdel as (Hi1 & Hc & Hift & _). apply IH in Hrun as [Hi2 ->]; [done|].
    split; [done|]. by apply cache_inv_empty.
  - subst n1. by apply IH.
Qed.

Lemma push_netmask_route_inv e n n' :
  push_netmask_route e n = Ok tt n' -> table_inv (rt n) -> table_inv (rt n') /\ ift n' = ift n.
Proof.
  intros Hrun Hi. unfold push_netmask_route in Hrun.
  apply bind_inv in Hrun as (d & n1 & Hd & Hrun). apply ipv4Data_inv in Hd as ->.
  unfold when in Hrun. destruct (negb _); [|unfold ret in Hrun; by simplify_eq].
  unfold set_rt, modify in Hrun. injection Hrun as <-. split; [|done].
  destruct (alloc_inv (rt n) (netmask_route e d) Hi) as [Hi1 Hnew].
  pose proof (push_inv _ (nextRoute (rt n)) (netmask_route e d) false Hi1 Hnew) as Hp.
  eapply table_inv_same; [|apply Hp]; [by split_and!|cbn; apply lookup_insert_eq|done].
Qed.

Lemma mapE_inv {S A B} (P : S -> Prop) (f : A -> Eff S B) l s bs s' :
  (forall a b s s', f a s = Ok b s' -> P s -> P s') -> mapE f l s = Ok bs s' -> P s -> P s'.
Proof.
  intros Hf. revert s bs. induction l as [|a l IH]; intros s bs Hrun HP; simpl in Hrun.
  { unfold ret in Hrun. by simplify_eq. }
  apply bind_inv in Hrun as (b & s1 & Ha & Hrun). apply bind_inv in Hrun as (bs1 & s2 & Hl & Hrun).
  unfold ret in Hrun. simplify_eq. eauto.
Qed.

Lemma updateNetmaskRoutes_inv n n' :
  updateNetmaskRoutes n = Ok tt n' -> table_inv (rt n) -> rt_inv n' /\ ift n' = ift n.
Proof.
  intros Hrun Hi. unfold updateNetmaskRoutes in Hrun.
  apply bind_inv in Hrun as (ps & n1 & Hg & Hrun). unfold get_rt, gets in Hg. injection Hg as <- <-.
  apply bind_inv in Hrun as (es & n1 & [-> Hes]%mapE_deref_inv & Hrun).
  apply bind_inv in Hrun as ([] & n1 & Hset & Hrun). unfold set_rt, modify in Hset. injection Hset as <-.
  apply bind_inv in Hrun as (l & n2 & Hg & Hrun). unfold all_interfaces, gets in Hg. injection Hg as <- <-.
  apply bind_inv in Hrun as (us & n2 & Hpush & Hrun).
  eapply (mapE_inv (fun m => table_inv (rt m) /\ ift m = ift n)) in Hpush as [Hi2 Hift].
  - unfold invalidateCache, set_rt, modify in Hrun. injection Hrun as <-. split; [|done].
    split; [eapply table_inv_same; [|exact Hi2]; by split_and!|by apply cache_inv_empty].
  - intros e [] s s' Hp [Hs <-]. by apply push_netmask_route_inv in Hp.
  - split; [|done]. eapply table_inv_shrink; [exact Hi| |done|done|done|done|done]. cbn.
    clear -Hes. induction Hes as [|p e ps es Hp Hes IH]; simpl; [constructor|].
    rewrite filter_cons. destruct (decide _); simpl; by constructor.
Qed.

Lemma receiveChangeNotification_inv c n n' :
  receiveChangeNotification c n = Ok tt n' -> rt_inv n -> rt_inv n' /\ ift n' = ift n.
Proof.
  assert (forall m m', invalidateCache m = Ok tt m' -> rt_inv m -> rt_inv m' /\ ift m' = ift m) as Hinv.
  { intros m m' Hrun [Hi _]. unfold invalidateCache, set_rt, modify in Hrun. injection Hrun as <-.
    split; [|done]. split; [eapply table_inv_same; [|exact Hi]; by split_and!|by apply cache_inv_empty]. }
  intros Hrun Hi. destruct c; simpl in Hrun; eauto using updateNetmaskRoutes_inv, (proj1 Hi).
  - apply updateNetmaskRoutes_inv in Hrun; [done|apply Hi].
  - unfold deleteInterfaceRoutes in Hrun. apply bind_inv in Hrun as (ps & n1 & Hg & Hrun).
    unfold get_rt, gets in Hg. injection Hg as <- <-. by apply delete_interface_routes_inv in Hrun.
  - apply updateNetmaskRoutes_inv in Hrun; [done|apply Hi].
Qed.

Lemma change_ipv4_inv ifId f n n' : change_ipv4 ifId f n = Ok tt n' -> rt_inv n -> rt_inv n'.
Proof.
  intros Hrun Hi. unfold change_ipv4 in Hrun. apply bind_inv in Hrun as ([] & n1 & Hset & Hrun).
  assert (rt n1 = rt n) as Hrt.
  { unfold set_ipv4 in Hset. apply bind_inv in Hset as (e & n2 & Hg & Hset).
    unfold gets in Hg. injection Hg as <- <-. destruct (InterfaceTable.getInterfaceById _ _); [|done].
    apply bind_inv in Hset as (d & n3 & ->%ipv4Data_inv & Hset). unfold modify in Hset. by injection Hset as <-. }
  eapply receiveChangeNotification_inv; [exact Hrun|]. unfold rt_inv. by rewrite Hrt.
Qed.
End Update.

(** ** Every history of the table

    The operations that change the table (routing protocols other than MANET) and
    lookups, in any order. *)
Inductive table_step (n n' : Node) : Prop :=
| step_add e p : source e <> MANET -> addRoute e n = Ok p n' -> table_step n n'
| step_delete p b : deleteRoute p n = Ok b n' -> table_step n n'
| step_notify c : receiveChangeNotification c n = Ok tt n' -> table_step n n'
| step_address ifId a : setIPAddress ifId a n = Ok tt n' -> table_step n n'
| step_netmask ifId m : setNetmask ifId m n = Ok tt n' -> table_step n n'
| step_lookup dest res : findBestMatchingRoute dest n = Ok res n' -> table_step n n'.

Definition fresh_table (n : Node) : Prop := exists forward, rt n = RoutingTable_new forward.

Lemma fresh_table_inv n : fresh_table n -> rt_inv n.
Proof.
  intros [fw Hrt]. unfold rt_inv. rewrite Hrt. split.
  - split; cbn; [constructor|set_solver| |done|set_solver].
    intros p. rewrite lookup_empty. by intros [].
  - intros d p. cbn. by rewrite lookup_empty.
Qed.

Lemma table_step_inv n n' : table_step n n' -> rt_inv n -> rt_inv n'.
Proof.
  intros [e p Hs Hrun|p b Hrun|c Hrun|i a Hrun|i m Hrun|d res Hrun] Hi.
  - apply addRoute_inv in Hrun as [? _]; [done|done|apply Hi].
  - apply deleteRoute_inv in Hrun; [|apply Hi]. destruct b; [|by subst].
    destruct Hrun as (Hi' & Hc & _). split; [done|by apply cache_inv_empty].
  - by apply receiveChangeNotification_inv in Hrun as [? _].
  - by eapply change_ipv4_inv.
  - by eapply change_ipv4_inv.
  - destruct (findBestMatchingRoute_spec n d Hi) as (res' & n1 & Hrun' & _ & Hi' & _).
    rewrite Hrun in Hrun'. by injection Hrun' as <- <-.
Qed.

Lemma table_history_inv n n' : fresh_table n -> rtc table_step n n' -> rt_inv n'.
Proof.
  intros Hf%fresh_table_inv Hsteps. induction Hsteps; eauto using table_step_inv.
Qed.

Lemma prefix_mask_lt a b : 0 <= a <= 32 -> 0 <= b <= 32 -> prefix_mask a < prefix_mask b <-> a < b.
Proof.
  intros Ha Hb. assert (forall k, 0 <= k <= 32 -> prefix_mask k = 2 ^ 32 - 2 ^ (32 - k)) as Hm.
  { intros k Hk. unfold prefix_mask. rewrite Z.ones_equiv, Z.shiftl_mul_pow2 by lia.
    replace 32 with (k + (32 - k)) at 2 by lia. rewrite Z.pow_add_r by lia. lia. }
  rewrite !Hm by done. rewrite <- Z.sub_lt_mono_l. rewrite <- Z.pow_lt_mono_r_iff by lia. lia.
Qed.

(** ** Routes of MANET protocols *)
Lemma masked_allones a b :
  is_u32 a -> is_u32 b -> IPAddress.maskedAddrAreEqual a b IPAddress.ALLONES_ADDRESS = true <-> a = b.
Proof.
  intros Ha Hb. change IPAddress.ALLONES_ADDRESS with (prefix_mask 32).
  rewrite masked_prefix by (done || lia). unfold same_prefix. by rewrite !Z.shiftr_0_r.
Qed.

Lemma uni_loop_spec n dest l best :
  timetolive_routing_entry (rt n) = None ->
  (forall p, p ∈ l -> is_Some (heap (rt n) !! p)) ->
  (forall b, best = Some b -> is_Some (heap (rt n) !! b)) ->
  exists res, uni_loop dest l best n = Ok res n /\
    (forall u, res = Some u -> u ∈ l \/ best = Some u) /\
    ((exists u e, u ∈ l /\ heap (rt n) !! u = Some e /\
       IPAddress.maskedAddrAreEqual dest (host e) IPAddress.ALLONES_ADDRESS = true) \/ is_Some best ->
     is_Some res).
Proof.
  intros Ht. revert best. induction l as [|p l IH]; intros best Hh Hb; simpl.
  { exists best. split_and!; [done|tauto|]. intros [(u & _ & Hu & _)|]; [set_solver|done]. }
  destruct (Hh p ltac:(set_solver)) as [e He].
  rewrite (bind_ok _ _ _ _ _ (deref_run _ _ _ He)).
  rewrite (bind_ok _ _ _ _ _ (testValidity_run _ e Ht)). cbn [andb].
  assert (exists w, (match best with None => ret true | Some b => let! r := deref b in ret (metric e <? metric r) end) n
    = Ok w n /\ (best = None -> w = true)) as (w & Hw & Hnone).
  { destruct best as [b|]; [|by exists true]. destruct (Hb b eq_refl) as [be Hbe].
    eexists. rewrite (bind_ok _ _ _ _ _ (deref_run _ _ _ Hbe)). by split. }
  rewrite (bind_ok _ _ _ _ _ Hw).
  destruct (IPAddress.maskedAddrAreEqual dest (host e) _ && w) eqn:Hc.
  - apply andb_true_iff in Hc as [Hm ->].
    destruct (IH (Some p)) as (res & Hres & Hin & Hsome); [set_solver|intros b [= <-]; by eexists|].
    exists res. split_and!; [done| |].
    + intros u Hu. destruct (Hin u Hu) as [|[= <-]]; set_solver.
    + intros _. apply Hsome. right. by eexists.
  - destruct (IH best) as (res & Hres & Hin & Hsome); [set_solver|done|].
    exists res. split_and!; [done| |].
    + intros u Hu. destruct (Hin u Hu); set_solver.
    + intros [(u & ue & Hu & Hue & Hum)|Hbs]; apply Hsome; [|by right].
      apply elem_of_cons in Hu as [->|Hu]; [|left; eauto]. simplify_eq. right.
      destruct best; [by eexists|]. rewrite Hum, Hnone in Hc by done. done.
Qed.

(** ** Properties *)


(** a MANET routing table can crash the lookup. If all routes come from MANET
    protocols, some route to the destination itself exists, and a route to
    another host matches with a longer netmask, [findBestMatchingRoute]
    dereferences the null pointer it has just stored in [bestRoute]. *)
Theorem manet_lookup_crashes n (dest : IPAddress.t) q eq u eu :
  timetolive_routing_entry (rt n) = None -> routingCache (rt n) !! dest = None -> is_u32 dest ->
  (forall p, p ∈ routes (rt n) -> exists e, heap (rt n) !! p = Some e /\ source e = MANET /\ is_u32 (host e)) ->
  q ∈ routes (rt n) -> heap (rt n) !! q = Some eq -> matches dest eq ->
  u ∈ routes (rt n) -> heap (rt n) !! u = Some eu -> host eu = dest ->
  (forall p e, p ∈ routes (rt n) -> heap (rt n) !! p = Some e -> host e = dest -> netmask e < netmask eq) ->
  findBestMatchingRoute dest n = Err (NullPointer "bestRoute->getHost()").
Proof.
  intros Ht Hc Hd Hall Hq Heq Hqm Hu Heu Huh Hlong.
  assert (forall p, p ∈ routes (rt n) -> is_Some (heap (rt n) !! p)) as Hheap.
  { intros p Hp. destruct (Hall p Hp) as (e & He & _). by eexists. }
  destruct (best_loop_spec n dest [] (routes (rt n)) None 0) as (res & Hres & Hf); [done|done|set_solver|done|].
  destruct (uni_loop_spec n dest (routes (rt n)) None) as (ures & Hures & Huin & Husome); [done|done|done|].
  assert (cached_route dest n = Ok None n) as Hmiss.
  { unfold cached_route. rewrite (bind_ok (get_rt routingCache) _ n _ n) by done. by rewrite Hc. }
  unfold findBestMatchingRoute. rewrite (bind_ok _ _ _ _ _ Hmiss). apply bind_err.
  unfold search_route. rewrite (bind_ok (get_rt routes) _ n _ n) by done.
  rewrite (bind_ok _ _ _ _ _ Hres). cbn in Hf.
  destruct res as [p|]; [|by destruct (Hf q eq Hq Heq)].
  destruct Hf as (e & Hp & He & Hm & Hbest). rewrite (bind_ok _ _ _ _ _ (deref_run _ _ _ He)).
  destruct (Hall p Hp) as (e' & He' & Hsrc & _). simplify_eq.
  rewrite bool_decide_true by done. unfold IPAddress.equals.
  destruct (Z.eqb_spec (host e) (host eu)) as [Hh|Hh]; cbn [andb negb].
  { pose proof (Hlong p e Hp He Hh). pose proof (Hbest q eq Hq Heq Hqm) as Hg. unfold as_good in Hg. lia. }
  rewrite (bind_ok _ _ _ _ _ Hures).
  destruct ures as [v|].
  - destruct (Huin v eq_refl) as [Hv|]; [|done]. destruct (Hall v Hv) as (ve & Hve & Hvs & _).
    rewrite (bind_ok _ _ _ _ _ (deref_run _ _ _ Hve)). by rewrite bool_decide_true.
  - destruct Husome as [? ?]; [|done]. left. exists u, eu. split_and!; [done..|]. by apply masked_allones.
Qed.

(** [flushTable] leaves the cache alone: a destination looked up before is still
    routed although the table is empty. *)
Lemma flush_keeps_cached_routes n dest p n' :
  rt_inv n -> routingCache (rt n) !! dest = Some (Some p) -> flushTable n = Ok tt n' ->
  findBestMatchingRoute dest n' = Ok (Some p) n' /\ routes (rt n') = [].
Proof.
  intros [Hi Hc] Hd Hrun. unfold flushTable, set_rt, modify in Hrun. injection Hrun as <-. split; [|done].
  destruct (Hc dest p Hd) as (e & Hp & He & _).
  set (n1 := n <| rt := _ |>).
  assert (cached_route dest n1 = Ok (Some p) n1) as Hhit.
  { unfold cached_route. rewrite (bind_ok (get_rt routingCache) _ n1 _ n1) by done.
    change (routingCache (rt n1)) with (routingCache (rt n)). rewrite Hd.
    rewrite (bind_ok (deref p) _ _ e n1) by (by apply deref_run).
    rewrite (bind_ok (testValidity e) _ _ true n1) by (apply testValidity_run, Hi).
    by rewrite bool_decide_false by (by apply (ti_manet _ Hi p)). }
  unfold findBestMatchingRoute. by rewrite (bind_ok _ _ _ _ _ Hhit).
Qed.

(** ** Instances *)
Section Demo.
Import IPAddress.

Definition demo_route (src : RouteSource) (h m : Z) (met : Z) : IPRoute :=
  IPRoute_new <| host := h |> <| netmask := m |> <| interfacePtr := Some 100 |>
    <| source := src |> <| metric := met |>.

Definition demo_node : Node :=
  {| ift := InterfaceTable.initialize; rt := RoutingTable_new true; clock := 0; fired := [] |}.

Definition demo_after (m : Eff Node positive) (n : Node) : Node :=
  match m n with Ok _ n' => n' | Err _ => n end.

Definition demo_net8 : IPRoute := demo_route OSPF (set4 10 0 0 0) (set4 255 0 0 0) 1.
Definition demo_net16 : IPRoute := demo_route OSPF (set4 10 1 0 0) (set4 255 255 0 0) 5.
Definition demo_routed : Node := demo_after (addRoute demo_net16) (demo_after (addRoute demo_net8) demo_node).


Definition manet_net24 : IPRoute := demo_route MANET (set4 10 0 0 5) (set4 255 255 255 0) 1.
Definition manet_net25 : IPRoute := demo_route MANET (set4 10 0 0 6) (set4 255 255 255 128) 1.
Definition demo_manet : Node := demo_after (addRoute manet_net25) (demo_after (addRoute manet_net24) demo_node).

Lemma manet_lookup_crashes_witness :
  findBestMatchingRoute (set4 10 0 0 5) demo_manet = Err (NullPointer "bestRoute->getHost()").
Proof.
  assert (routes (rt demo_manet) = [1; 2]%positive) as Hr by reflexivity.
  assert (heap (rt demo_manet) !! 1%positive = Some manet_net24) as H1 by reflexivity.
  assert (heap (rt demo_manet) !! 2%positive = Some manet_net25) as H2 by reflexivity.
  apply (manet_lookup_crashes demo_manet (set4 10 0 0 5) 2 manet_net25 1 manet_net24);
    [reflexivity|reflexivity|vm_compute; split; congruence| | |done|reflexivity| |done|reflexivity|].
  - rewrite Hr. intros p Hp. apply elem_of_cons in Hp as [->|Hp]; [|apply list_elem_of_singleton in Hp as ->];
      (eexists; split; [eassumption|split; [reflexivity|vm_compute; split; congruence]]).
  - rewrite Hr. set_solver.
  - rewrite Hr. set_solver.
  - rewrite Hr. intros p e Hp He Hh. apply elem_of_cons in Hp as [->|Hp]; [|apply list_elem_of_singleton in Hp as ->];
      [rewrite H1 in He|rewrite H2 in He]; injection He as <-; [reflexivity|discriminate Hh].
Defined.
End Demo.
