(* ===== verification/RouteHeap.v ===== *)
(** * The routes of a routing table as objects

    The pointers of the table and the objects they lead to, and what adding and
    deleting a route does to them, for the modules that maintain the table. *)
From S2P Require Import Prelude IPAddress InterfaceTable RoutingTable RoutingSpec.

Section IPRoutes.
Implicit Types (n : Node) (p : positive) (e : IPRoute) (l : list positive).

Definition all_routes n : list positive := routes (rt n) ++ multicastRoutes (rt n).

Record pointers_ok n : Prop := {
  po_nodup : NoDup (all_routes n);
  po_heap p : p ∈ all_routes n -> is_Some (heap (rt n) !! p);
  po_fresh p : p ∈ all_routes n -> (p < nextRoute (rt n))%positive
}.

(** The routes of the table. *)
Definition has n p e : Prop := p ∈ all_routes n /\ heap (rt n) !! p = Some e.

Lemma remove_first_app p l1 l2 :
  remove_first p (l1 ++ l2) = if decide (p ∈ l1) then remove_first p l1 ++ l2 else l1 ++ remove_first p l2.
Proof.
  induction l1 as [|q l1 IH]; cbn [app]; [by rewrite decide_False by set_solver|]. cbn [remove_first].
  destruct (decide (q = p)) as [->|Hne]; [by rewrite decide_True by set_solver|].
  rewrite IH. destruct (decide (p ∈ l1)); [by rewrite decide_True by set_solver|by rewrite decide_False by set_solver].
Qed.

Lemma remove_first_delete p k l : NoDup l -> l !! k = Some p -> remove_first p l = delete k l.
Proof.
  intros Hnd. revert k. induction Hnd as [|q l Hq Hnd IH]; intros k Hk; [done|]. cbn [remove_first].
  destruct k as [|k]; cbn in Hk |- *.
  - injection Hk as ->. by rewrite decide_True.
  - rewrite decide_False; [f_equal; by apply IH|]. intros ->. apply Hq, list_elem_of_lookup. by exists k.
Qed.

Lemma deleteRoute_run n p e : pointers_ok n -> has n p e ->
  exists n', deleteRoute p n = Ok true n' /\ all_routes n' = remove_first p (all_routes n) /\
    heap (rt n') = delete p (heap (rt n)) /\ nextRoute (rt n') = nextRoute (rt n).
Proof.
  intros Hp [Hin He]. unfold deleteRoute. unfold bind at 1, get_rt, gets, id. unfold all_routes in *.
  rewrite remove_first_app. case_bool_decide as Hr.
  - rewrite decide_True by done. rewrite (bind_ok _ _ _ _ _ (deref_run _ _ _ He)). eexists. by split_and!.
  - rewrite decide_False by done. rewrite bool_decide_eq_true_2 by set_solver.
    rewrite (bind_ok _ _ _ _ _ (deref_run _ _ _ He)). eexists. by split_and!.
Qed.

Lemma getRoute_run n k : getRoute k n = Ok (all_routes n !! k) n.
Proof. done. Qed.

Lemma deleteRoute_frame n n' p :
  pointers_ok n -> all_routes n' = remove_first p (all_routes n) -> heap (rt n') = delete p (heap (rt n)) ->
  nextRoute (rt n') = nextRoute (rt n) ->
  pointers_ok n' /\ forall q x, has n' q x <-> has n q x /\ q <> p.
Proof.
  intros Hok Hr Hh Hn. destruct Hok as [Hnd Hheap Hfr].
  assert (forall q, q ∈ remove_first p (all_routes n) <-> q ∈ all_routes n /\ q <> p) as Hmem.
  { clear -Hnd. induction Hnd as [|a l Ha Hnd IH]; cbn [remove_first]; [set_solver|].
    destruct (decide (a = p)) as [->|]; set_solver. }
  split.
  - split; rewrite Hr.
    + by eapply sublist_NoDup; [|apply remove_first_sublist].
    + intros q Hq. apply Hmem in Hq as [Hq Hne]. rewrite Hh, lookup_delete_ne by done. by apply Hheap.
    + intros q Hq. apply Hmem in Hq as [Hq _]. rewrite Hn. by apply Hfr.
  - intros q x. unfold has. rewrite Hr, Hmem, Hh. destruct (decide (q = p)) as [->|Hne].
    + rewrite lookup_delete_eq. naive_solver.
    + rewrite lookup_delete_ne by done. naive_solver.
Qed.

Lemma addRoute_run n e i :
  pointers_ok n -> host e <> 0 -> netmask e <> 0 -> RoutingTable.interfacePtr e = Some i ->
  exists p n', addRoute e n = Ok p n' /\ pointers_ok n' /\ p ∉ all_routes n /\
    forall q x, has n' q x <-> has n q x \/ (q = p /\ x = e).
Proof.
  intros Hok Hh Hm Hi. unfold addRoute, IPAddress.isUnspecified. rewrite Hi.
  assert ((host e =? 0) = false) as -> by (by apply Z.eqb_neq). assert ((netmask e =? 0) = false) as -> by (by apply Z.eqb_neq).
  cbn [Bool.eqb negb]. unfold IPAddress.doAnd. rewrite Z.land_0_r. cbn [Z.eqb negb].
  unfold bind at 1, get_rt, gets. unfold bind at 1, set_rt, modify. unfold bind at 1, ret at 1.
  set (p := nextRoute (rt n)). destruct Hok as [Hnd Hheap Hfr].
  assert (p ∉ all_routes n) as Hnew by (intros Hin; apply Hfr in Hin; unfold p in Hin; lia).
  assert (forall n', heap (rt n') = <[p := e]> (heap (rt n)) -> nextRoute (rt n') = Pos.succ p ->
    all_routes n' ≡ₚ p :: all_routes n -> pointers_ok n' /\ p ∉ all_routes n /\
      forall q x, has n' q x <-> has n q x \/ (q = p /\ x = e)) as Hgo.
  { intros n' Hhp Hnx Hperm. split_and!; [|done|].
    - split; [rewrite Hperm; by constructor|..]; intros q; rewrite Hperm, elem_of_cons.
      + intros [->|Hq]; rewrite Hhp; [by rewrite lookup_insert_eq|].
        rewrite lookup_insert_ne by (intros <-; done). by apply Hheap.
      + intros [->|Hq]; rewrite Hnx; [lia|]. apply Hfr in Hq. fold p in Hq. lia.
    - intros q x. unfold has. rewrite Hperm, elem_of_cons, Hhp. destruct (decide (q = p)) as [->|Hne].
      + rewrite lookup_insert_eq. naive_solver.
      + rewrite lookup_insert_ne by done. naive_solver. }
  exists p. unfold bind, invalidateCache, fireChangeNotification, set_rt, modify, ret.
  destruct (IPAddress.isMulticast (host e)); cbn [negb]; eexists; (split; [reflexivity|]); apply Hgo; try reflexivity; unfold all_routes; cbn.
  - rewrite app_assoc. by rewrite <- Permutation_cons_append.
  - rewrite <- app_assoc. cbn. by rewrite Permutation_middle.
Qed.

Lemma deleteRoute_ift p b n n' : deleteRoute p n = Ok b n' -> ift n' = ift n.
Proof.
  intros Hrun. unfold deleteRoute in Hrun. unfold bind at 1, get_rt, gets in Hrun.
  case_bool_decide; [|case_bool_decide; [|by injection Hrun as _ <-]];
    apply bind_inv in Hrun as (e & n1 & [-> _]%deref_inv & Hrun); by injection Hrun as _ <-.
Qed.

Lemma addRoute_ift e p n n' : addRoute e n = Ok p n' -> netmask e <> 0 -> ift n' = ift n.
Proof.
  intros Hrun Hm. unfold addRoute, IPAddress.isUnspecified in Hrun.
  assert ((netmask e =? 0) = false) as Hm0 by (by apply Z.eqb_neq). rewrite Hm0 in Hrun.
  destruct (negb _); [done|]. destruct (negb _); [done|]. destruct (interfacePtr e); [|done].
  unfold bind, get_rt, gets, set_rt, modify, ret, invalidateCache, fireChangeNotification in Hrun.
  destruct (IPAddress.isMulticast (host e)); cbn in Hrun; by injection Hrun as _ <-.
Qed.
End IPRoutes.
