(* ===== verification/Frames.v ===== *)
(** * Operations that leave a part of the state alone

    [frames f m]: whatever [m] returns, [f] of the state is as before.  The rules
    follow the structure of an operation; [frames_walk] applies them, and looks up
    the operations called in the hint database [frames]. *)
From S2P Require Import Prelude.

Section Frames.
Context {S X : Type} (f : S -> X).

Definition frames {A} (m : Eff S A) : Prop := forall s a s', m s = Ok a s' -> f s' = f s.

Lemma frames_ret {A} (a : A) : frames (ret a).
Proof. by intros s b s' [= <- <-]. Qed.
Lemma frames_fail {A} e : frames (fail (A := A) e).
Proof. done. Qed.
Lemma frames_gets {A} (g : S -> A) : frames (gets g).
Proof. by intros s b s' [= <- <-]. Qed.
Lemma frames_modify g : (forall s, f (g s) = f s) -> frames (modify g).
Proof. by intros Hg s b s' [= <- <-]. Qed.
Lemma frames_bind {A B} (m : Eff S A) (k : A -> Eff S B) :
  frames m -> (forall a, frames (k a)) -> frames (bind m k).
Proof. intros Hm Hk s b s' (a & s1 & H1 & H2)%bind_inv. apply Hm in H1. apply Hk in H2. congruence. Qed.
Lemma frames_mapE {A B} (g : A -> Eff S B) l : (forall a, frames (g a)) -> frames (mapE g l).
Proof.
  intros Hg. induction l as [|a l IH]; cbn [mapE]; [apply frames_ret|].
  apply frames_bind; [done|]. intros b. apply frames_bind; [done|]. intros bs. apply frames_ret.
Qed.
End Frames.

Create HintDb frames discriminated.
#[export] Hint Constants Opaque : frames.
#[export] Hint Resolve frames_ret frames_fail frames_gets : frames.
Ltac frames_walk :=
  repeat first
  [ solve [eauto with frames]
  | apply frames_bind; [|intros ?]
  | apply frames_modify; intros ?; reflexivity
  | match goal with
    | |- frames _ (if ?b then _ else _) => destruct b
    | |- frames _ (match ?x with _ => _ end) => destruct x
    | |- frames _ (assert_ _ _) => unfold assert_
    | |- frames _ (when ?b _) => unfold when
    | |- frames _ (let _ := _ in _) => cbv zeta
    end ].
