(* ===== verification/IPDatagram.v ===== *)
(** * Packets of the network layer

    The message classes of [networklayer/ipv4] and [networklayer/arp]
    ([IPDatagram.msg], [ICMPMessage.msg], [ControlManetRouting.msg],
    [ARPPacket.msg]), the control information attached to them
    ([networklayer/contract/IPControlInfo.msg], [IPControlInfo.cc]), what the code
    uses of the simulator's packets (lengths, encapsulation, control info), and
    the protocol map ([base/ProtocolMap.cc]).  A transport packet is the kind the
    code asks for, an identifier of its contents and its length. *)
From Stdlib Require Import Ascii String.
From S2P Require Import Prelude IPAddress MACAddress.

(** ** Constants *)
Definition IP_HEADER_BYTES : Z := 20.
Definition IP_PROT_ICMP : Z := 1.
Definition IP_PROT_IP : Z := 4.
Definition IP_PROT_TCP : Z := 6.
Definition IP_PROT_UDP : Z := 17.
Definition IP_PROT_NONE : Z := 59.
Definition IP_PROT_DSR : Z := 135.
Definition IP_PROT_MANET : Z := 254.

Definition ICMP_REDIRECT : Z := 5.
Definition ICMP_TIME_EXCEEDED : Z := 11.
Definition ICMP_PARAMETER_PROBLEM : Z := 12.
Definition ICMP_DESTINATION_UNREACHABLE : Z := 13.
Definition ICMP_ECHO_REQUEST : Z := 128.
Definition ICMP_ECHO_REPLY : Z := 129.
Definition ICMP_TIMESTAMP_REQUEST : Z := 130.
Definition ICMP_TIMESTAMP_REPLY : Z := 131.
Definition ICMP_FRAGMENTATION_ERROR_CODE : Z := 4.

Definition MANET_ROUTE_UPDATE : Z := 1.
Definition MANET_ROUTE_NOROUTE : Z := 2.

Definition ARP_HEADER_BYTES : Z := 28.
Definition ARP_REQUEST : Z := 1.
Definition ARP_REPLY : Z := 2.

Definition u16 (z : Z) : Z := z mod 65536.
Definition u8 (z : Z) : Z := z mod 256.

(** ** Packets

    The records take the type of packets as an argument, because packets contain
    packets; [origDatagram] is the datagram kept for error messages.  Of the control
    info the fields only the MANET modules read or write ([moreFragments], [macSrc],
    [macDest]) are left out. *)
Record IPControlInfo_ (P : Type) : Type := mk_IPControlInfo {
  ci_destAddr : IPAddress.t;
  ci_srcAddr : IPAddress.t;
  ci_interfaceId : Z;
  ci_protocol : Z;
  ci_diffServCodePoint : Z;
  ci_timeToLive : Z;
  ci_dontFragment : bool;
  ci_nextHopAddr : IPAddress.t;
  origDatagram : option P
}.
Arguments ci_destAddr {P}. Arguments ci_srcAddr {P}. Arguments ci_interfaceId {P}.
Arguments ci_protocol {P}. Arguments ci_diffServCodePoint {P}. Arguments ci_timeToLive {P}.
Arguments ci_dontFragment {P}. Arguments ci_nextHopAddr {P}. Arguments origDatagram {P}.

Inductive Control_ (P : Type) : Type :=
| Ieee802Ctrl (dest : MACAddress.t)
| IPControl (c : IPControlInfo_ P)
| IPRoutingDecision (ifId : Z) (nextHop : IPAddress.t).
Arguments Ieee802Ctrl {P}. Arguments IPControl {P}. Arguments IPRoutingDecision {P}.

Record IPDatagram_ (P : Type) : Type := mk_IPDatagram {
  headerLength : Z;
  srcAddress : IPAddress.t;
  destAddress : IPAddress.t;
  transportProtocol : Z;
  timeToLive : Z;
  identification : Z;
  moreFragments : bool;
  dontFragment : bool;
  fragmentOffset : Z;
  diffServCodePoint : Z;
  byteLength : Z;
  encapsulated : option P;
  controlInfo : option (Control_ P);
  arrivalGate : option Z;
  bitError : bool
}.
Arguments headerLength {P}. Arguments srcAddress {P}. Arguments destAddress {P}.
Arguments transportProtocol {P}. Arguments timeToLive {P}. Arguments identification {P}.
Arguments moreFragments {P}. Arguments dontFragment {P}. Arguments fragmentOffset {P}.
Arguments diffServCodePoint {P}. Arguments byteLength {P}. Arguments encapsulated {P}.
Arguments controlInfo {P}. Arguments arrivalGate {P}. Arguments bitError {P}.

Record ICMPMessage_ (P : Type) : Type := mk_ICMPMessage {
  icmp_type : Z;
  icmp_code : Z;
  icmp_length : Z;
  icmp_encapsulated : option P;
  icmp_control : option (Control_ P)
}.
Arguments icmp_type {P}. Arguments icmp_code {P}. Arguments icmp_length {P}.
Arguments icmp_encapsulated {P}. Arguments icmp_control {P}.

Record ARPPacket : Type := mk_ARPPacket {
  opcode : Z;
  srcMACAddress : MACAddress.t;
  destMACAddress : MACAddress.t;
  srcIPAddress : IPAddress.t;
  destIPAddress : IPAddress.t
}.
#[export] Instance eta_ARPPacket : Eta ARPPacket := fun a =>
  {| opcode := opcode a; srcMACAddress := srcMACAddress a; destMACAddress := destMACAddress a;
     srcIPAddress := srcIPAddress a; destIPAddress := destIPAddress a |}.

Inductive Packet : Type :=
| TransportPacket (isUDP : bool) (contents len : Z) (ctrl : option (Control_ Packet))
| ICMPPacket (m : ICMPMessage_ Packet)
| DatagramPacket (d : IPDatagram_ Packet)
| ManetControl (optionCode : Z) (src dest : IPAddress.t) (encap : option Packet)
    (ctrl : option (Control_ Packet))
| ARPPkt (a : ARPPacket) (gate : option Z) (ctrl : option (Control_ Packet)).

Definition IPControlInfo : Type := IPControlInfo_ Packet.
Definition Control : Type := Control_ Packet.
Definition IPDatagram : Type := IPDatagram_ Packet.
Definition ICMPMessage : Type := ICMPMessage_ Packet.

#[export] Instance eta_IPControlInfo : Eta (IPControlInfo_ Packet) := fun c =>
  {| ci_destAddr := ci_destAddr c; ci_srcAddr := ci_srcAddr c; ci_interfaceId := ci_interfaceId c;
     ci_protocol := ci_protocol c; ci_diffServCodePoint := ci_diffServCodePoint c;
     ci_timeToLive := ci_timeToLive c; ci_dontFragment := ci_dontFragment c;
     ci_nextHopAddr := ci_nextHopAddr c; origDatagram := origDatagram c |}.
#[export] Instance eta_IPDatagram : Eta (IPDatagram_ Packet) := fun d =>
  {| headerLength := headerLength d; srcAddress := srcAddress d; destAddress := destAddress d;
     transportProtocol := transportProtocol d; timeToLive := timeToLive d;
     identification := identification d; moreFragments := moreFragments d;
     dontFragment := dontFragment d; fragmentOffset := fragmentOffset d;
     diffServCodePoint := diffServCodePoint d; byteLength := byteLength d;
     encapsulated := encapsulated d; controlInfo := controlInfo d;
     arrivalGate := arrivalGate d; bitError := bitError d |}.
#[export] Instance eta_ICMPMessage : Eta (ICMPMessage_ Packet) := fun m =>
  {| icmp_type := icmp_type m; icmp_code := icmp_code m; icmp_length := icmp_length m;
     icmp_encapsulated := icmp_encapsulated m; icmp_control := icmp_control m |}.

Definition IPControlInfo_new : IPControlInfo :=
  {| ci_destAddr := 0; ci_srcAddr := 0; ci_interfaceId := -1; ci_protocol := 0;
     ci_diffServCodePoint := 0; ci_timeToLive := 0; ci_dontFragment := false;
     ci_nextHopAddr := 0; origDatagram := None |}.

Definition IPDatagram_new : IPDatagram :=
  {| headerLength := IP_HEADER_BYTES; srcAddress := 0; destAddress := 0;
     transportProtocol := IP_PROT_NONE; timeToLive := 0; identification := 0;
     moreFragments := false; dontFragment := false; fragmentOffset := 0;
     diffServCodePoint := 0; byteLength := 0; encapsulated := None; controlInfo := None;
     arrivalGate := None; bitError := false |}.

Definition ICMPMessage_new : ICMPMessage :=
  {| icmp_type := 0; icmp_code := 0; icmp_length := 0; icmp_encapsulated := None;
     icmp_control := None |}.

(** ** Packet operations *)
Definition getByteLength (p : Packet) : Z :=
  match p with
  | TransportPacket _ _ len _ => len
  | ICMPPacket m => icmp_length m
  | DatagramPacket d => byteLength d
  | ManetControl _ _ _ encap _ => match encap with
                                  | Some (DatagramPacket d) => byteLength d
                                  | _ => 0
                                  end
  | ARPPkt _ _ _ => ARP_HEADER_BYTES
  end.

Definition getControlInfo (p : Packet) : option Control :=
  match p with
  | TransportPacket _ _ _ c => c
  | ICMPPacket m => icmp_control m
  | DatagramPacket d => controlInfo d
  | ManetControl _ _ _ _ c => c
  | ARPPkt _ _ c => c
  end.

Definition with_control (c : option Control) (p : Packet) : Packet :=
  match p with
  | TransportPacket u k len _ => TransportPacket u k len c
  | ICMPPacket m => ICMPPacket (m <| icmp_control := c |>)
  | DatagramPacket d => DatagramPacket (d <| controlInfo := c |>)
  | ManetControl o s t e _ => ManetControl o s t e c
  | ARPPkt a g _ => ARPPkt a g c
  end.

(** [setControlInfo] refuses a second control info. *)
Definition setControlInfo {S} (c : Control) (p : Packet) : Eff S Packet :=
  match getControlInfo p with
  | Some _ => fail (RuntimeError "setControlInfo(): message already has control info attached")
  | None => ret (with_control (Some c) p)
  end.

(** [check_and_cast<IPControlInfo *>] and the others raise an error for another
    class and for [NULL]. *)
Definition cast_IPControlInfo {S} (c : option Control) : Eff S IPControlInfo :=
  match c with
  | Some (IPControl c) => ret c
  | _ => fail (RuntimeError "check_and_cast")
  end.
Definition cast_RoutingDecision {S} (c : option Control) : Eff S (Z * IPAddress.t) :=
  match c with
  | Some (IPRoutingDecision i a) => ret (i, a)
  | _ => fail (RuntimeError "check_and_cast")
  end.
Definition cast_ICMPMessage {S} (p : option Packet) : Eff S ICMPMessage :=
  match p with
  | Some (ICMPPacket m) => ret m
  | _ => fail (RuntimeError "check_and_cast")
  end.
Definition cast_IPDatagram {S} (p : option Packet) : Eff S IPDatagram :=
  match p with
  | Some (DatagramPacket d) => ret d
  | _ => fail (RuntimeError "check_and_cast")
  end.

Definition encapsulate_in {S} (d : IPDatagram) (p : Packet) : Eff S IPDatagram :=
  match encapsulated d with
  | Some _ => fail (RuntimeError "encapsulate(): another message already encapsulated")
  | None => ret (d <| encapsulated := Some p |> <| byteLength := byteLength d + getByteLength p |>)
  end.

(** [decapsulate()]: the packet, [None] for [NULL], and what remains. *)
Definition decapsulate {S} (d : IPDatagram) : Eff S (option Packet * IPDatagram) :=
  match encapsulated d with
  | None => ret (None, d)
  | Some p =>
      let len := if 0 <? byteLength d then byteLength d - getByteLength p else byteLength d in
      if len <? 0 then fail (RuntimeError "decapsulate(): packet length is smaller than encapsulated packet")
      else ret (Some p, d <| encapsulated := None |> <| byteLength := len |>)
  end.

(** The original datagram of a control info; it must be there. *)
Definition removeOrigDatagram {S} (c : IPControlInfo) : Eff S (IPDatagram * IPControlInfo) :=
  match origDatagram c with
  | Some (DatagramPacket d) => ret (d, c <| origDatagram := None |>)
  | _ => fail (RuntimeError "IPControlInfo::removeOrigDatagram(): no datagram attached")
  end.
Definition setOrigDatagram {S} (d : IPDatagram) (c : IPControlInfo) : Eff S IPControlInfo :=
  match origDatagram c with
  | Some _ => fail (RuntimeError "IPControlInfo::setOrigDatagram(): a datagram is already attached")
  | None => ret (c <| origDatagram := Some (DatagramPacket d) |>)
  end.

(** ** The messages modules send *)
Inductive Output : Type :=
| TransportOut (gateindex : Z) (p : Packet)   (** IP, to a transport protocol *)
| PreRoutingOut (p : Packet)                  (** IP, a tunnelled packet *)
| QueueOut (p : Packet)                       (** IP, to ARP *)
| IfOut (gateindex : Z) (p : Packet)          (** directly to an interface *)
| IcmpSendOut (m : ICMPMessage)               (** ICMP, to IP *)
| IcmpErrorOut (m : ICMPMessage)              (** ICMP, to its error gate *)
| PingOut (p : Packet).                       (** ICMP, to the ping application *)

(** A module state that collects what is sent. *)
Class Sends (S : Type) := emit : Output -> S -> S.
Definition send {S} `{!Sends S} (o : Output) : Eff S unit := modify (emit o).

(** ** Where packets of a protocol go *)
Module ProtocolMapping.
Record Entry : Type := mkEntry { protocolNumber : Z; outGateIndex : Z }.

Fixpoint find_gate (protocol : Z) (entries : list Entry) : option Z :=
  match entries with
  | [] => None
  | i :: rest => if protocolNumber i =? protocol then Some (outGateIndex i) else find_gate protocol rest
  end.

Definition getOutputGateForProtocol {S} (protocol : Z) (entries : list Entry) : Eff S Z :=
  match find_gate protocol entries with
  | Some g => ret g
  | None => fail (RuntimeError "No output gate defined in protocolMapping")
  end.

(** [isspace] and [isdigit] in the C locale. *)
Definition isspace (c : ascii) : bool :=
  let n := Z.of_nat (nat_of_ascii c) in (n =? 32) || ((9 <=? n) && (n <=? 13)).
Fixpoint skip_spaces (s : string) : string :=
  match s with
  | String c rest => if isspace c then skip_spaces rest else s
  | EmptyString => s
  end.

(** [atoi] of a text that starts with a digit, and the text after the digits. *)
Fixpoint read_number (n : Z) (s : string) : Z * string :=
  match s with
  | String c rest => if IPAddress.is_digit c then read_number (10 * n + IPAddress.digit_value c) rest else (n, s)
  | EmptyString => (n, s)
  end.
Definition starts_with_digit (s : string) : bool :=
  match s with String c _ => IPAddress.is_digit c | EmptyString => false end.

(** One round of the loop: an entry and the text after it, spaces skipped. *)
Definition parse_entry (s : string) : (Entry * string) + Error :=
  if negb (starts_with_digit s) then inr (RuntimeError "syntax error: protocol number expected") else
  let '(protocol, s) := read_number 0 s in
  match s with
  | String c s =>
      if negb (bool_decide (c = ":"%char)) then inr (RuntimeError "syntax error: colon expected") else
      let s := skip_spaces s in
      if negb (starts_with_digit s)
      then inr (RuntimeError "syntax error in script: output gate index expected") else
      let '(g, s) := read_number 0 s in
      inl (mkEntry protocol g, skip_spaces s)
  | EmptyString => inr (RuntimeError "syntax error: colon expected")
  end.

(** The loop over the text: every round consumes characters. *)
Fixpoint parse_loop (fuel : nat) (s : string) (entries : list Entry) : list Entry + Error :=
  match fuel with
  | O => inr OutOfFuel
  | S fuel =>
      match s with
      | EmptyString => inl entries
      | _ =>
          match parse_entry s with
          | inr e => inr e
          | inl (entry, s) =>
              let entries := entries ++ [entry] in
              match s with
              | EmptyString => inl entries
              | String c s =>
                  if negb (bool_decide (c = ","%char)) then inr (RuntimeError "syntax error: comma expected")
                  else parse_loop fuel (skip_spaces s) entries
              end
          end
      end
  end.

Definition parseProtocolMapping (s : string) : list Entry + Error :=
  parse_loop (S (String.length s)) (skip_spaces s) [].
End ProtocolMapping.
