(* ===== verification/ICMP.v ===== *)
(** * ICMP

    [networklayer/ipv4/ICMP.cc].  The module has no state; what it sends is added
    to the messages of the state it is called in.  Message names are left out. *)
From S2P Require Import Prelude IPAddress MACAddress IPDatagram.

Module ICMP.
Section Operations.
Context {S : Type} `{!Sends S}.

Definition errorOut (m : ICMPMessage) : Eff S unit := send (IcmpErrorOut m).

(** The message already has its control info. *)
Definition sendToIP (m : ICMPMessage) : Eff S unit := send (IcmpSendOut m).

Definition set_icmp_control (c : Control) (m : ICMPMessage) : Eff S ICMPMessage :=
  match icmp_control m with
  | Some _ => fail (RuntimeError "setControlInfo(): message already has control info attached")
  | None => ret (m <| icmp_control := Some c |>)
  end.

Definition sendToIP_dest (m : ICMPMessage) (dest : IPAddress.t) : Eff S unit :=
  let! m := set_icmp_control (IPControl (IPControlInfo_new <| ci_destAddr := dest |>
                                           <| ci_protocol := IP_PROT_ICMP |>)) m in
  send (IcmpSendOut m).

Definition processEchoRequest (request : ICMPMessage) : Eff S unit :=
  let reply := request <| icmp_type := ICMP_ECHO_REPLY |> in
  let! ctrl := cast_IPControlInfo (icmp_control reply) in
  sendToIP (reply <| icmp_control := Some (IPControl
    (ctrl <| ci_srcAddr := ci_destAddr ctrl |> <| ci_destAddr := ci_srcAddr ctrl |>)) |>).

Definition processEchoReply (reply : ICMPMessage) : Eff S unit :=
  let! ctrl := cast_IPControlInfo (icmp_control reply) in
  match icmp_encapsulated reply with
  | None => fail (NullPointer "payload->setControlInfo()")
  | Some payload =>
      if (0 <? icmp_length reply) && (icmp_length reply <? getByteLength payload)
      then fail (RuntimeError "decapsulate(): packet length is smaller than encapsulated packet")
      else let! payload := setControlInfo (IPControl ctrl) payload in send (PingOut payload)
  end.

Definition processICMPMessage (m : ICMPMessage) : Eff S unit :=
  let ty := icmp_type m in
  if (ty =? ICMP_DESTINATION_UNREACHABLE) || (ty =? ICMP_REDIRECT) ||
     (ty =? ICMP_TIME_EXCEEDED) || (ty =? ICMP_PARAMETER_PROBLEM) then errorOut m
  else if ty =? ICMP_ECHO_REQUEST then processEchoRequest m
  else if ty =? ICMP_ECHO_REPLY then processEchoReply m
  else if ty =? ICMP_TIMESTAMP_REQUEST then processEchoRequest m
  else if ty =? ICMP_TIMESTAMP_REPLY then processEchoReply m
  else fail (RuntimeError "Unknown ICMP type").

(** The message that reports [type], [code] about a datagram. *)
Definition error_message (origDatagram : IPDatagram) (type code : Z) : ICMPMessage :=
  ICMPMessage_new <| icmp_type := type |> <| icmp_code := code |>
    <| icmp_encapsulated := Some (DatagramPacket origDatagram) |>
    <| icmp_length := 8 + headerLength origDatagram + 8 |>.

Definition report_error (origDatagram : IPDatagram) (type code : Z) : Eff S unit :=
  let errorMessage := error_message origDatagram type code in
  if IPAddress.isUnspecified (srcAddress origDatagram) then
    let! m := set_icmp_control (IPControl (IPControlInfo_new
                <| ci_srcAddr := IPAddress.LOOPBACK_ADDRESS |>
                <| ci_protocol := IP_PROT_ICMP |>)) errorMessage in
    processICMPMessage m
  else sendToIP_dest errorMessage (srcAddress origDatagram).

Definition sendErrorMessage (origDatagram : IPDatagram) (type code : Z) : Eff S unit :=
  if IPAddress.isMulticast (destAddress origDatagram) then ret tt
  else if transportProtocol origDatagram =? IP_PROT_ICMP then
    let! recICMPMsg := cast_ICMPMessage (encapsulated origDatagram) in
    if icmp_type recICMPMsg <? 128 then ret tt else report_error origDatagram type code
  else report_error origDatagram type code.

(** About a transport packet, which is put back into its datagram. *)
Definition sendErrorMessage_transport (transportPacket : Packet) (ctrl : IPControlInfo) (type code : Z)
    : Eff S unit :=
  let! p := removeOrigDatagram ctrl in
  let! datagram := encapsulate_in (fst p) transportPacket in
  sendErrorMessage datagram type code.

Definition sendEchoRequest (msg : Packet) : Eff S unit :=
  let! ctrl := cast_IPControlInfo (getControlInfo msg) in
  let msg := with_control None msg in
  sendToIP (ICMPMessage_new <| icmp_type := ICMP_ECHO_REQUEST |> <| icmp_encapsulated := Some msg |>
    <| icmp_length := getByteLength msg |>
    <| icmp_control := Some (IPControl (ctrl <| ci_protocol := IP_PROT_ICMP |>)) |>).

(** The gates a message can arrive on. *)
Inductive Gate : Type := localIn | pingIn.
Definition handleMessage (arrivalGate : Gate) (msg : Packet) : Eff S unit :=
  match arrivalGate with
  | localIn => let! m := cast_ICMPMessage (Some msg) in processICMPMessage m
  | pingIn => sendEchoRequest msg
  end.
End Operations.
End ICMP.
