(* ===== verification/IPFragBuf.v ===== *)
(** * Reassembly buffers of IP

    [networklayer/ipv4/IPFragBuf.h], [IPFragBuf.cc]: one [ReassemblyBuffer] for each
    datagram that is being put together.  [purgeStaleFragments] is in [IP.v],
    because it sends ICMP messages.  At the end: the fragments of a datagram, in
    any order and with duplicates, give the datagram back when the last one
    arrives, and no other datagram is disturbed. *)
From S2P Require Import Prelude IPAddress MACAddress ReassemblyBuffer IPDatagram.

Module IPFragBuf.
Record Key : Type := mkKey { id : Z; src : IPAddress.t; dest : IPAddress.t }.
#[global] Instance Key_eq_dec : EqDecision Key.
Proof. solve_decision. Defined.
#[global] Instance Key_countable : Countable Key.
Proof.
  refine (inj_countable' (fun k => (id k, src k, dest k) : Z * Z * Z)
    (fun p => let '(i, s, d) := p in mkKey i s d) _). by intros [].
Defined.

(** [Key::operator<] *)
Definition key_lt (a b : Key) : bool :=
  if negb (id a =? id b) then id a <? id b
  else if negb (src a =? src b) then src a <? src b
  else dest a <? dest b.

Record DatagramBuffer : Type := mkBuffer {
  buf : ReassemblyBuffer.t;
  datagram : option IPDatagram;
  lastupdate : Z
}.
#[global] Instance eta_DatagramBuffer : Eta DatagramBuffer := fun b =>
  {| buf := buf b; datagram := datagram b; lastupdate := lastupdate b |}.

Notation Buffers := (gmap Key DatagramBuffer).

Definition key_of (d : IPDatagram) : Key :=
  mkKey (u16 (identification d)) (srcAddress d) (destAddress d).

Definition new_buffer : DatagramBuffer :=
  {| buf := ReassemblyBuffer.new; datagram := None; lastupdate := 0 |}.

(** The content is that of the fragment stored last. *)
Definition keep_content (d : IPDatagram) (old : option IPDatagram) : option IPDatagram :=
  match encapsulated d with Some _ => Some d | None => old end.

(** When the very first fragment completes the datagram, the code erases the
    iterator [find] returned, which is [end()]. *)
Definition addFragment (d : IPDatagram) (now : Z) : Eff Buffers (option IPDatagram) := fun bufs =>
  let key := key_of d in
  let i := bufs !! key in
  let b := default new_buffer i in
  let bytes := i32 (byteLength d - headerLength d) in
  match ReassemblyBuffer.addFragment (u16 (fragmentOffset d)) (u16 (fragmentOffset d + bytes))
          (negb (moreFragments d)) (buf b) with
  | Err e => Err e
  | Ok isComplete rb =>
      let stored := keep_content d (datagram b) in
      if isComplete then
        match stored, i with
        | None, _ => Err (NullPointer "ret->setByteLength()")
        | Some _, None => Err (RuntimeError "bufs.erase(bufs.end())")
        | Some ret, Some _ =>
            Ok (Some (ret <| byteLength := headerLength ret + ReassemblyBuffer.getTotalLength rb |>))
               (delete key bufs)
        end
      else Ok None (<[key := {| buf := rb; datagram := stored; lastupdate := now |}]> bufs)
  end.

(** The buffers in the order of the map. *)
Definition key_le (a b : Key * DatagramBuffer) : Prop := key_lt (fst b) (fst a) = false.
#[global] Instance key_le_dec a b : Decision (key_le a b).
Proof. unfold key_le. apply _. Defined.
Definition in_order (bufs : Buffers) : list (Key * DatagramBuffer) := merge_sort key_le (map_to_list bufs).
End IPFragBuf.

Import IPFragBuf.

(** ** Fragments of a datagram

    [d] is cut into [m] fragments at the offsets [cut 0], .., [cut m]. *)
Section Fragments.
Context (d : IPDatagram) (cut : nat -> Z) (m : nat) (content : Packet).
Context (Hcuts : cuts_ok cut m) (Hm : (2 <= m)%nat).
Context (Hlen : byteLength d = headerLength d + cut m) (Hmax : cut m < 65536).

(** [g] is fragment [j] of [d] as it may arrive: the time to live, the control
    info and the gate depend on the way it took. *)
Record carries (j : nat) (g : IPDatagram) : Prop := {
  ca_key : key_of g = key_of d;
  ca_header : headerLength g = headerLength d;
  ca_protocol : transportProtocol g = transportProtocol d;
  ca_offset : fragmentOffset g = cut j;
  ca_more : moreFragments g = negb (S j =? m)%nat;
  ca_length : byteLength g = headerLength d + (cut (S j) - cut j);
  ca_content : encapsulated g = Some content
}.

(** The fragments [R] have arrived. *)
Definition collecting (R : list nat) (bufs : Buffers) : Prop :=
  match bufs !! key_of d with
  | None => R = []
  | Some b => received cut m R (buf b)
  end.

(** The datagram that comes out. *)
Record reassembled (r : IPDatagram) : Prop := {
  re_length : byteLength r = byteLength d;
  re_content : encapsulated r = Some content;
  re_protocol : transportProtocol r = transportProtocol d;
  re_key : key_of r = key_of d
}.

Lemma u16_small z : 0 <= z < 65536 -> u16 z = z.
Proof. unfold u16. intros. by apply Z.mod_small. Qed.

Lemma collecting_received R bufs :
  collecting R bufs -> received cut m R (buf (default new_buffer (bufs !! key_of d))).
Proof.
  unfold collecting. destruct (bufs !! key_of d) as [b|]; [done|]. intros ->. by apply received_new.
Qed.

Lemma not_alone j : ~ all_received m [j].
Proof.
  unfold all_received. rewrite Forall_forall. intros Hall.
  assert (0%nat ∈ [j]) as H0 by (apply Hall, elem_of_seq; lia).
  assert (1%nat ∈ [j]) as H1 by (apply Hall, elem_of_seq; lia).
  rewrite list_elem_of_singleton in H0, H1. lia.
Qed.

Lemma addFragment_carries R bufs j g now :
  collecting R bufs -> carries j g -> (j < m)%nat ->
  exists res bufs', IPFragBuf.addFragment g now bufs = Ok res bufs' /\
    (forall k, k <> key_of d -> bufs' !! k = bufs !! k) /\
    if decide (all_received m (R ++ [j]))
    then (exists r, res = Some r /\ reassembled r) /\ bufs' !! key_of d = None
    else res = None /\ collecting (R ++ [j]) bufs'.
Proof.
  intros Hcol [Hk Hh Hp Ho Hmo Hl Hc] Hj. unfold IPFragBuf.addFragment. rewrite Hk, Ho, Hmo, Hh, Hl.
  pose proof (cut_le cut m Hcuts j (S j) ltac:(lia)). pose proof (cut_le cut m Hcuts 0 j ltac:(lia)).
  pose proof (cut_le cut m Hcuts (S j) m ltac:(lia)). rewrite (cut_first _ _ Hcuts) in *.
  rewrite i32_small by lia.
  replace (cut j + (headerLength d + (cut (S j) - cut j) - headerLength d)) with (cut (S j)) by lia.
  rewrite !u16_small, negb_involutive by lia.
  destruct (addFragment_received cut m Hcuts R _ j (collecting_received _ _ Hcol) Hj)
    as (rb & -> & Hrec & Htot).
  unfold keep_content. rewrite Hc. destruct (decide (all_received m (R ++ [j]))) as [Hall|Hall].
  - rewrite bool_decide_true by done.
    destruct (bufs !! key_of d) as [b|] eqn:Hb.
    + eexists _, _. split_and!; [done|intros k Hne; by rewrite lookup_delete_ne| |by rewrite lookup_delete_eq].
      eexists. split; [done|]. split; cbn; [by rewrite Hh, Htot, Hlen|done|done|done].
    + unfold collecting in Hcol. rewrite Hb in Hcol. subst R. by destruct (not_alone j).
  - rewrite bool_decide_false by done. eexists _, _. split_and!; [done| |done|].
    + intros k Hne. by rewrite lookup_insert_ne.
    + unfold collecting. rewrite lookup_insert_eq. done.
Qed.

(** The fragments arrive one after the other; [js] are their numbers. *)
Lemma add_arrivals js gs R bufs :
  collecting R bufs -> Forall2 (fun j g => carries j (fst g) /\ (j < m)%nat) js gs ->
  ~ all_received m (R ++ js) ->
  exists bufs', mapE (fun g => IPFragBuf.addFragment (fst g) (snd g)) gs bufs =
      Ok (replicate (length js) None) bufs' /\ collecting (R ++ js) bufs' /\
    (forall k, k <> key_of d -> bufs' !! k = bufs !! k).
Proof.
  intros Hcol Hgs. revert R bufs Hcol.
  induction Hgs as [|j [g now] js gs [Hca Hj] Hgs IH]; intros R bufs Hcol Hall; cbn [mapE fst snd] in *.
  { exists bufs. by rewrite app_nil_r. }
  destruct (addFragment_carries R bufs j g now Hcol Hca Hj) as (res & b1 & H1 & Hk1 & Hres).
  destruct (decide (all_received m (R ++ [j]))) as [Hsome|Hnot].
  { destruct Hall. unfold all_received in *. rewrite Forall_forall in *. intros i Hi.
    specialize (Hsome i Hi). set_solver. }
  destruct Hres as [-> Hcol1]. rewrite (bind_ok _ _ _ _ _ H1).
  destruct (IH (R ++ [j]) b1 Hcol1) as (b2 & H2 & Hcol2 & Hk2).
  { by rewrite <- app_assoc. }
  rewrite (bind_ok _ _ _ _ _ H2). exists b2. rewrite <- app_assoc in Hcol2. split_and!; [done|done|].
  intros k Hk. by rewrite Hk2, Hk1.
Qed.
End Fragments.
