(* ===== verification/IP.v ===== *)
(** * The IP module

    [networklayer/ipv4/IP.cc] with [IPFragBuf::purgeStaleFragments].  An interface
    pointer is an interface id; a null pointer is [None].  A loss of a datagram (the
    code deletes it) leaves no trace but the counters. *)
From Stdlib Require Import String SpecFloat.
From S2P Require Import Prelude IPAddress MACAddress MachineFloat InterfaceTable RoutingTable ReassemblyBuffer IPDatagram ICMP IPFragBuf.

(** [cPacket::dup()] copies a packet without its control info; which arrival
    gate the copy has is up to the simulator. *)
Class PacketCopy := dup_gate : option Z -> option Z.
Definition dup `{!PacketCopy} (d : IPDatagram) : IPDatagram :=
  d <| controlInfo := None |> <| arrivalGate := dup_gate (arrivalGate d) |>.

(** [transportOutOK i]: whether gate [transportOut[i]] is connected.  Times are in
    ticks, [ticksPerSecond] to the second. *)
Record IP : Type := mk_IP {
  node : Node;
  transportOutOK : Z -> bool;
  ticksPerSecond : Z;
  manetRouting : bool;
  defaultTimeToLive : Z;
  defaultMCTimeToLive : Z;
  fragmentTimeoutTime : Z;
  mapping : list ProtocolMapping.Entry;
  curFragmentId : Z;
  fragbuf : IPFragBuf.Buffers;
  lastCheckTime : Z;
  numMulticast : Z;
  numLocalDeliver : Z;
  numDropped : Z;
  numUnroutable : Z;
  numForwarded : Z;
  outbox : list Output
}.
#[export] Instance eta_IP : Eta IP := fun s =>
  {| node := node s; transportOutOK := transportOutOK s; ticksPerSecond := ticksPerSecond s;
     manetRouting := manetRouting s; defaultTimeToLive := defaultTimeToLive s;
     defaultMCTimeToLive := defaultMCTimeToLive s; fragmentTimeoutTime := fragmentTimeoutTime s;
     mapping := mapping s; curFragmentId := curFragmentId s; fragbuf := fragbuf s;
     lastCheckTime := lastCheckTime s; numMulticast := numMulticast s;
     numLocalDeliver := numLocalDeliver s; numDropped := numDropped s;
     numUnroutable := numUnroutable s; numForwarded := numForwarded s; outbox := outbox s |}.

#[export] Instance IP_sends : Sends IP := fun o s => s <| outbox := outbox s ++ [o] |>.

(** A call of the routing table or of the reassembly buffers. *)
Definition on_node {A} (m : Eff Node A) : Eff IP A := fun s =>
  match m (node s) with Ok a n => Ok a (s <| node := n |>) | Err e => Err e end.
Definition on_fragbuf {A} (m : Eff IPFragBuf.Buffers A) : Eff IP A := fun s =>
  match m (fragbuf s) with Ok a b => Ok a (s <| fragbuf := b |>) | Err e => Err e end.

(** The entry behind an interface pointer. *)
Definition interface_at (ie : option Z) : Eff IP InterfaceEntry :=
  let! x := gets (fun s => ift (node s)) in
  match ie with
  | None => fail (NullPointer "interface")
  | Some i => match InterfaceTable.getInterfaceById i x with
              | Some e => ret e
              | None => fail (NullPointer "interface")
              end
  end.

Section Module_IP.
Context `{!PacketCopy}.

Definition getSourceInterfaceFrom (gate : option Z) : Eff IP (option InterfaceEntry) :=
  match gate with
  | None => ret None
  | Some g => gets (fun s => InterfaceTable.getInterfaceByNetworkLayerGateIndex g (ift (node s)))
  end.

(** ** Output *)
Definition sendDatagramToOutput (datagram : IPDatagram) (ie : option Z) (nextHopAddr : IPAddress.t)
    : Eff IP unit :=
  if timeToLive datagram <=? 0 then ICMP.sendErrorMessage datagram ICMP_TIME_EXCEEDED 0
  else
    let! e := interface_at ie in
    if negb (broadcast e) then send (IfOut (nwLayerGateIndex e) (DatagramPacket datagram))
    else
      let! p := setControlInfo (IPRoutingDecision (interfaceId e) nextHopAddr) (DatagramPacket datagram) in
      send (QueueOut p).

(** [int(ceil((float(payload)/mtu) / (1-float(headerLength)/mtu)))], in single
    precision. *)
Definition noOfFragments (payload mtu headerLength : Z) : option Z :=
  to_int (ceil (float_div (float_div (float_of_int payload) (float_of_int mtu))
                 (float_sub (float_of_int 1) (float_div (float_of_int headerLength) (float_of_int mtu))))).

(** Fragment [i] of [n]. *)
Definition fragment (datagram : IPDatagram) (mtu n i : Z) : IPDatagram :=
  let f := dup datagram in
  let f := if negb (i =? n - 1) then f <| moreFragments := true |> <| byteLength := mtu |>
           else f <| byteLength := i32 (byteLength datagram - (n - 1) * (mtu - headerLength datagram)) |> in
  f <| fragmentOffset := i * (mtu - headerLength datagram) |>.

Definition fragmentAndSend (datagram : IPDatagram) (ie : option Z) (nextHopAddr : IPAddress.t) : Eff IP unit :=
  let! e := interface_at ie in
  let mtu := mtu e in
  if byteLength datagram <=? mtu then sendDatagramToOutput datagram ie nextHopAddr
  else
    let payload := i32 (byteLength datagram - headerLength datagram) in
    match noOfFragments payload mtu (headerLength datagram) with
    | None => fail (RuntimeError "conversion to int is undefined")
    | Some n =>
        if dontFragment datagram && (1 <? n) then
          ICMP.sendErrorMessage datagram ICMP_DESTINATION_UNREACHABLE ICMP_FRAGMENTATION_ERROR_CODE
        else
          let! _ := mapE (fun i => sendDatagramToOutput (fragment datagram mtu n i) ie nextHopAddr)
                      (Z.of_nat <$> seq 0 (Z.to_nat n)) in
          ret tt
    end.

(** ** Input *)
Definition controlMessageToManetRouting (code : Z) (datagram : IPDatagram) : Eff IP unit :=
  let! manet := gets manetRouting in
  let! m := gets mapping in
  if negb manet then ret tt
  else if transportProtocol datagram =? IP_PROT_DSR then
    if code =? MANET_ROUTE_NOROUTE then
      let! g := ProtocolMapping.getOutputGateForProtocol IP_PROT_MANET m in
      send (TransportOut g (DatagramPacket datagram))
    else ret tt
  else if code =? MANET_ROUTE_UPDATE then
    let! g := ProtocolMapping.getOutputGateForProtocol IP_PROT_MANET m in
    send (TransportOut g (ManetControl code (srcAddress datagram) (destAddress datagram) None None))
  else if code =? MANET_ROUTE_NOROUTE then
    let! g := ProtocolMapping.getOutputGateForProtocol IP_PROT_MANET m in
    send (TransportOut g (ManetControl code (srcAddress datagram) (destAddress datagram)
                            (Some (DatagramPacket datagram)) None))
  else ret tt.

Definition handleReceivedICMP (msg : ICMPMessage) : Eff IP unit :=
  let ty := icmp_type msg in
  let! m := gets mapping in
  if (ty =? ICMP_REDIRECT) || (ty =? ICMP_DESTINATION_UNREACHABLE) ||
     (ty =? ICMP_TIME_EXCEEDED) || (ty =? ICMP_PARAMETER_PROBLEM) then
    let! bogusPacket := cast_IPDatagram (icmp_encapsulated msg) in
    let! g := ProtocolMapping.getOutputGateForProtocol (transportProtocol bogusPacket) m in
    send (TransportOut g (ICMPPacket msg))
  else
    let! g := ProtocolMapping.getOutputGateForProtocol IP_PROT_ICMP m in
    send (TransportOut g (ICMPPacket msg)).

Definition decapsulateIP (datagram : IPDatagram) : Eff IP Packet :=
  let! fromIE := getSourceInterfaceFrom (arrivalGate datagram) in
  let! parts := decapsulate datagram in
  let datagram := snd parts in
  let ctrl := IPControlInfo_new
    <| ci_protocol := i16 (transportProtocol datagram) |>
    <| ci_srcAddr := srcAddress datagram |>
    <| ci_destAddr := destAddress datagram |>
    <| ci_diffServCodePoint := diffServCodePoint datagram |>
    <| ci_interfaceId := match fromIE with Some e => interfaceId e | None => -1 end |>
    <| ci_timeToLive := timeToLive datagram |> in
  let! ctrl := setOrigDatagram datagram ctrl in
  match fst parts with
  | None => fail (NullPointer "packet->setControlInfo()")
  | Some packet => setControlInfo (IPControl ctrl) packet
  end.

(** Deletes the buffers not updated since [lastupdate], with an error message for
    each. *)
Fixpoint purge_loop (l : list (IPFragBuf.Key * IPFragBuf.DatagramBuffer)) (lastupdate : Z) : Eff IP unit :=
  match l with
  | [] => ret tt
  | (k, b) :: rest =>
      (if IPFragBuf.lastupdate b <? lastupdate then
         match IPFragBuf.datagram b with
         | None => fail (NullPointer "take(origDatagram)")
         | Some d =>
             ICMP.sendErrorMessage d ICMP_TIME_EXCEEDED 0 ;;;
             modify (fun s => s <| fragbuf := delete k (fragbuf s) |>)
         end
       else ret tt) ;;;
      purge_loop rest lastupdate
  end.
Definition purgeStaleFragments (lastupdate : Z) : Eff IP unit :=
  let! bufs := gets fragbuf in purge_loop (IPFragBuf.in_order bufs) lastupdate.

(** The end of [reassembleAndDeliver]: a whole datagram. *)
Definition deliver (datagram : IPDatagram) : Eff IP unit :=
  let protocol := transportProtocol datagram in
  let! packet := decapsulateIP datagram in
  if protocol =? IP_PROT_ICMP then
    let! m := cast_ICMPMessage (Some packet) in handleReceivedICMP m
  else if protocol =? IP_PROT_IP then send (PreRoutingOut packet)
  else
    let! m := gets mapping in
    let! g := ProtocolMapping.getOutputGateForProtocol protocol m in
    let! ok := gets (fun s => transportOutOK s g) in
    when ok (send (TransportOut g packet)).

Definition reassembleAndDeliver (datagram : IPDatagram) : Eff IP unit :=
  if transportProtocol datagram =? IP_PROT_DSR
  then controlMessageToManetRouting MANET_ROUTE_NOROUTE datagram
  else if negb (fragmentOffset datagram =? 0) || moreFragments datagram then
    let! now := gets (fun s => clock (node s)) in
    let! s := gets id in
    when (lastCheckTime s + 10 * ticksPerSecond s <=? now)
      (modify (fun s => s <| lastCheckTime := now |>) ;;;
       purgeStaleFragments (now - fragmentTimeoutTime s)) ;;;
    let! whole := on_fragbuf (IPFragBuf.addFragment datagram now) in
    match whole with
    | None => ret tt
    | Some datagram => deliver datagram
    end
  else deliver datagram.

Definition count_local : Eff IP unit := modify (fun s => s <| numLocalDeliver := i32 (numLocalDeliver s + 1) |>).
Definition count_dropped : Eff IP unit := modify (fun s => s <| numDropped := i32 (numDropped s + 1) |>).
Definition count_unroutable : Eff IP unit := modify (fun s => s <| numUnroutable := i32 (numUnroutable s + 1) |>).
Definition count_forwarded : Eff IP unit := modify (fun s => s <| numForwarded := i32 (numForwarded s + 1) |>).
Definition count_multicast : Eff IP unit := modify (fun s => s <| numMulticast := i32 (numMulticast s + 1) |>).

(** ** Routing *)
Definition fill_src (a : IPAddress.t) (datagram : IPDatagram) : IPDatagram :=
  if IPAddress.isUnspecified (srcAddress datagram) then datagram <| srcAddress := a |> else datagram.

(** The address of the interface, if the source address is not set yet. *)
Definition fill_src_from (ie : option Z) (datagram : IPDatagram) : Eff IP IPDatagram :=
  if IPAddress.isUnspecified (srcAddress datagram) then
    let! e := interface_at ie in
    let! dat := ipv4Data e in
    ret (datagram <| srcAddress := inetAddr dat |>)
  else ret datagram.

(** The usable route for an address: a MANET route must be for the address. *)
Definition lookup_route (destAddr : IPAddress.t) : Eff IP (option IPRoute) :=
  let! p := on_node (findBestMatchingRoute destAddr) in
  match p with
  | None => ret None
  | Some p =>
      let! re := on_node (deref p) in
      ret (if bool_decide (source re = MANET) && negb (IPAddress.equals (host re) destAddr)
           then None else Some re)
  end.

(** The last part of [routePacket]. *)
Definition forward (datagram : IPDatagram) (destIE : option Z) (nextHopAddr : IPAddress.t) : Eff IP unit :=
  let! datagram := fill_src_from destIE datagram in
  count_forwarded ;;;
  let datagram := if transportProtocol datagram =? IP_PROT_MANET
                  then datagram <| controlInfo := None |> else datagram in
  fragmentAndSend datagram destIE nextHopAddr.

Definition routePacket (datagram : IPDatagram) (destIE : option Z) (fromHL : bool)
    (nextHopAddrPtr : option IPAddress.t) : Eff IP unit :=
  let destAddr := destAddress datagram in
  controlMessageToManetRouting MANET_ROUTE_UPDATE datagram ;;;
  let! isLocal := on_node (isLocalAddress destAddr) in
  if isLocal then
    count_local ;;; reassembleAndDeliver (fill_src destAddr datagram)
  else
  let limited := IPAddress.equals destAddr IPAddress.ALLONES_ADDRESS in
  let! isBroadcast := (if limited then ret true else on_node (isLocalBroadcastAddress destAddr)) in
  if isBroadcast then
    (* the else belongs to the inner if *)
    if limited then
      if negb fromHL then count_local ;;; reassembleAndDeliver (fill_src destAddr datagram)
      else match destIE with
           | Some _ => fragmentAndSend datagram destIE IPAddress.ALLONES_ADDRESS
           | None => count_dropped
           end
    else ret tt
  else
  let! forwarding := on_node (get_rt IPForward) in
  if negb fromHL && negb forwarding then count_dropped
  else
  match destIE with
  | Some _ =>
      let! manet := gets manetRouting in
      forward datagram destIE (match nextHopAddrPtr with
                               | Some a => if manet && fromHL then a else 0
                               | None => 0
                               end)
  | None =>
      let! re := lookup_route destAddr in
      match re with
      | Some re => forward datagram (interfacePtr re) (gateway re)
      | None =>
          let! manet := gets manetRouting in
          if negb manet then
            count_unroutable ;;; ICMP.sendErrorMessage datagram ICMP_DESTINATION_UNREACHABLE 0
          else controlMessageToManetRouting MANET_ROUTE_NOROUTE datagram
      end
  end.

(** A copy for each route of the group, but not back where it came from. *)
Fixpoint multicast_copies (datagram : IPDatagram) (fromIE : option Z) (l : list (option Z * IPAddress.t))
    : Eff IP unit :=
  match l with
  | [] => ret tt
  | (destIE, gw) :: rest =>
      (if negb (bool_decide (destIE = None)) && negb (bool_decide (destIE = fromIE)) then
         let! copy := fill_src_from destIE (dup datagram) in
         fragmentAndSend copy destIE gw
       else ret tt) ;;;
      multicast_copies datagram fromIE rest
  end.

(** Whether routing goes on after the checks for datagrams from the network. *)
Definition multicast_from_network (datagram : IPDatagram) : Eff IP bool :=
  let destAddr := destAddress datagram in
  let! member := on_node (isLocalMulticastAddress destAddr) in
  (if member then
     let! rid := on_node (get_rt routerId) in
     reassembleAndDeliver ((dup datagram) <| destAddress := rid |>)
   else ret tt) ;;;
  let! forwarding := on_node (get_rt IPForward) in
  ret (forwarding && negb (IPAddress.isLinkLocalMulticast destAddr)).

Definition routeMulticastPacket (datagram : IPDatagram) (destIE fromIE : option Z) : Eff IP unit :=
  let destAddr := destAddress datagram in
  count_multicast ;;;
  let! shortestPathIE := on_node (getInterfaceForDestAddr (srcAddress datagram)) in
  if negb (bool_decide (fromIE = None)) && negb (bool_decide (shortestPathIE = None)) &&
     negb (bool_decide (fromIE = shortestPathIE)) then ret tt
  else
  let! go_on := (if bool_decide (fromIE = None) then ret true else multicast_from_network datagram) in
  if negb go_on then ret tt
  else match destIE with
  | Some _ =>
      assert_ "datagram->getDestAddress().isMulticast()" (IPAddress.isMulticast destAddr) ;;;
      let! datagram := fill_src_from destIE datagram in
      fragmentAndSend datagram destIE destAddr
  | None =>
      let! l := on_node (getMulticastRoutesFor destAddr) in
      multicast_copies datagram fromIE l
  end.

(** ** From the network *)
Definition is_UDP (p : option Packet) : bool :=
  match p with Some (TransportPacket true _ _ _) => true | _ => false end.

(** The datagram as it goes into routing: control info removed, except from the
    last fragment of a DSR or MANET packet, and one hop counted. *)
Definition prerouted (datagram : IPDatagram) : IPDatagram :=
  let p := transportProtocol datagram in
  let datagram := if (negb (p =? IP_PROT_DSR) && negb (p =? IP_PROT_MANET)) || moreFragments datagram
                  then datagram <| controlInfo := None |> else datagram in
  datagram <| timeToLive := i16 (timeToLive datagram - 1) |>.

(** [headerHit]: the outcome of the random choice that a bit error is in the
    header. *)
Definition handlePacketFromNetwork (headerHit : bool) (datagram : IPDatagram) : Eff IP unit :=
  if bitError datagram && headerHit then ICMP.sendErrorMessage datagram ICMP_PARAMETER_PROBLEM 0
  else
  let! toBroadcast := (match controlInfo datagram with
                       | None => ret false
                       | Some (Ieee802Ctrl dest) => ret (MACAddress.isBroadcast dest)
                       | Some _ => fail (RuntimeError "check_and_cast")
                       end) in
  if toBroadcast && is_UDP (encapsulated datagram) then
    count_local ;;; reassembleAndDeliver datagram
  else
  let datagram := prerouted datagram in
  if negb (IPAddress.isMulticast (destAddress datagram)) then routePacket datagram None false None
  else
    let! fromIE := getSourceInterfaceFrom (arrivalGate datagram) in
    routeMulticastPacket datagram None (interfaceId <$> fromIE).

Definition handleARP (msg : ARPPacket) (gate : option Z) : Eff IP unit :=
  let! fromIE := getSourceInterfaceFrom gate in
  match fromIE with
  | None => fail (AssertionFailed "fromIE")
  | Some e => send (QueueOut (ARPPkt msg gate (Some (IPRoutingDecision (interfaceId e) 0))))
  end.

(** ** From the higher layers *)
Definition dsrFillDestIE (datagram : IPDatagram) : Eff IP (IPDatagram * option Z * IPAddress.t) :=
  if negb (transportProtocol datagram =? IP_PROT_DSR) then ret (datagram, None, 0)
  else
    let! ctrl := cast_IPControlInfo (controlInfo datagram) in
    let! e := gets (fun s => InterfaceTable.getInterfaceById (ci_interfaceId ctrl) (ift (node s))) in
    ret (datagram <| controlInfo := None |>, interfaceId <$> e, ci_nextHopAddr ctrl).

(** The time to live of a datagram with control info [ctrl]. *)
Definition initial_ttl (ctrl : IPControlInfo) (s : IP) : Z :=
  i16 (if 0 <? ci_timeToLive ctrl then ci_timeToLive ctrl
       else if IPAddress.isLinkLocalMulticast (ci_destAddr ctrl) then 1
       else if IPAddress.isMulticast (ci_destAddr ctrl) then defaultMCTimeToLive s
       else defaultTimeToLive s).

Definition encapsulate (transportPacket : Packet) (ctrl : IPControlInfo) : Eff IP (IPDatagram * option Z) :=
  let! datagram := encapsulate_in (IPDatagram_new <| byteLength := IP_HEADER_BYTES |>) transportPacket in
  let! destIE := gets (fun s => InterfaceTable.getInterfaceById (ci_interfaceId ctrl) (ift (node s))) in
  (if IPAddress.isUnspecified (ci_srcAddr ctrl) then ret tt
   else
     let! ie := on_node (getInterfaceByAddress (ci_srcAddr ctrl)) in
     match ie with
     | None => fail (RuntimeError "Wrong source address: no interface with such address")
     | Some _ => ret tt
     end) ;;;
  let! s := gets id in
  modify (fun s => s <| curFragmentId := curFragmentId s + 1 |>) ;;;
  ret (datagram <| destAddress := ci_destAddr ctrl |>
                <| srcAddress := ci_srcAddr ctrl |>
                <| diffServCodePoint := ci_diffServCodePoint ctrl |>
                <| identification := i32 (curFragmentId s) |>
                <| moreFragments := false |>
                <| dontFragment := ci_dontFragment ctrl |>
                <| fragmentOffset := 0 |>
                <| timeToLive := initial_ttl ctrl s |>
                <| transportProtocol := ci_protocol ctrl |>, interfaceId <$> destIE).

(** A next hop that is given. *)
Definition given (a : IPAddress.t) : option IPAddress.t :=
  if IPAddress.isUnspecified a then None else Some a.

Definition route_from_HL (datagram : IPDatagram) (destIE : option Z) (nextHop : IPAddress.t) : Eff IP unit :=
  if negb (IPAddress.isMulticast (destAddress datagram))
  then routePacket datagram destIE true (given nextHop)
  else routeMulticastPacket datagram destIE None.

Definition handleMessageFromHL (msg : Packet) : Eff IP unit :=
  let! n := gets (fun s => length (InterfaceTable.interfaces (ift (node s)))) in
  if (n =? 0)%nat then ret tt
  else match msg with
  | DatagramPacket datagram =>
      let! r := dsrFillDestIE datagram in
      let '(datagram, destIE, nextHop) := r in
      route_from_HL datagram destIE nextHop
  | _ =>
      let! ctrl := cast_IPControlInfo (getControlInfo msg) in
      let! r := encapsulate (with_control None msg) ctrl in
      route_from_HL (fst r) (snd r) (ci_nextHopAddr ctrl)
  end.

(** The kinds of gates a packet arrives on. *)
Inductive ArrivalGate : Type := transportIn | queueIn.
Definition endService (from : ArrivalGate) (headerHit : bool) (msg : Packet) : Eff IP unit :=
  match from with
  | transportIn => handleMessageFromHL msg
  | queueIn =>
      match msg with
      | ARPPkt a gate _ => handleARP a gate
      | _ => let! d := cast_IPDatagram (Some msg) in handlePacketFromNetwork headerHit d
      end
  end.
End Module_IP.
