(* ===== verification/IPSpec.v ===== *)
(** * What IP does with datagrams

    Fragmentation and reassembly: what goes out, that it can be put together again,
    and that fragments of fragments cannot. *)
From Stdlib Require Import String SpecFloat.
From S2P Require Import Prelude IPAddress MACAddress MachineFloat InterfaceTable RoutingTable RoutingSpec ReassemblyBuffer IPDatagram ICMP IPFragBuf IP.

(** ** Sending on a link *)
Definition link_output (e : InterfaceEntry) (nextHop : IPAddress.t) (d : IPDatagram) : Output :=
  if broadcast e
  then QueueOut (DatagramPacket (d <| controlInfo := Some (IPRoutingDecision (interfaceId e) nextHop) |>))
  else IfOut (nwLayerGateIndex e) (DatagramPacket d).

(** [ie] points to interface [e]. *)
Definition points_to (s : IP) (ie : option Z) (e : InterfaceEntry) : Prop :=
  match ie with
  | Some i => InterfaceTable.getInterfaceById i (ift (node s)) = Some e
  | None => False
  end.

Definition add_outputs (os : list Output) (s : IP) : IP := s <| outbox := outbox s ++ os |>.

Lemma add_outputs_nil s : add_outputs [] s = s.
Proof. unfold add_outputs. rewrite app_nil_r. by destruct s. Qed.
Lemma add_outputs_app os os' s : add_outputs os' (add_outputs os s) = add_outputs (os ++ os') s.
Proof. unfold add_outputs. cbn. by rewrite <- app_assoc. Qed.

Section Links.
Context `{!PacketCopy}.
Implicit Types (s : IP) (d : IPDatagram).

Lemma interface_at_run s ie e : points_to s ie e -> interface_at ie s = Ok e s.
Proof. unfold points_to, interface_at, bind, gets. destruct ie as [i|]; [|done]. by intros ->. Qed.

Lemma sendDatagramToOutput_link s d ie e nh :
  points_to s ie e -> 0 < timeToLive d -> controlInfo d = None ->
  sendDatagramToOutput d ie nh s = Ok tt (add_outputs [link_output e nh d] s).
Proof.
  intros Hie Httl Hc. unfold sendDatagramToOutput. rewrite (proj2 (Z.leb_gt (timeToLive d) 0)) by done.
  rewrite (bind_ok _ _ _ _ _ (interface_at_run _ _ _ Hie)). unfold link_output.
  destruct (broadcast e); cbn [negb]; [|done].
  unfold setControlInfo. cbn [getControlInfo]. by rewrite Hc.
Qed.

(** The copies made in a loop are sent in the order of the loop. *)
Lemma mapE_outputs {A} (f : A -> Eff IP unit) (o : A -> Output) l s :
  (forall a os, f a (add_outputs os s) = Ok tt (add_outputs (os ++ [o a]) s)) ->
  mapE f l s = Ok (replicate (length l) tt) (add_outputs (o <$> l) s).
Proof.
  intros Hf. rewrite <- (add_outputs_nil s) at 1. change (o <$> l) with ([] ++ (o <$> l)).
  generalize (@nil Output). induction l as [|a l IH]; intros os; cbn [mapE fmap list_fmap length replicate].
  { by rewrite app_nil_r. }
  rewrite (bind_ok _ _ _ _ _ (Hf a os)). rewrite (bind_ok _ _ _ _ _ (IH _)). unfold ret.
  by rewrite <- app_assoc.
Qed.
End Links.

(** ** Fragmentation and reassembly *)
Section Fragmentation.
Context `{!PacketCopy}.
Implicit Types (s : IP) (d : IPDatagram).

(** [g'] is [g] after it was sent over links: what routers and the receiving
    interface change does not matter. *)
Definition in_transit (g g' : IPDatagram) : Prop :=
  g' = g <| timeToLive := timeToLive g' |> <| controlInfo := controlInfo g' |>
         <| arrivalGate := arrivalGate g' |> <| bitError := bitError g' |>.

(** A number of fragments that suffices and leaves at most one fragment empty. *)
Definition right_count (payload room n : Z) : Prop :=
  2 <= n /\ 0 < room /\ 0 < payload /\ (n - 1) * room <= payload <= n * room.

Definition cut_at (payload room : Z) (n : nat) (j : nat) : Z :=
  if (j =? n)%nat then payload else Z.of_nat j * room.

Lemma cut_at_ok payload room n :
  right_count payload room (Z.of_nat n) -> cuts_ok (cut_at payload room n) n.
Proof.
  intros (Hn & Hr & Hp & Hlo & Hhi). unfold cut_at. split.
  - by destruct (Nat.eqb_spec 0 n); [lia|].
  - lia.
  - intros i Hi. destruct (Nat.eqb_spec i n); [lia|]. destruct (Nat.eqb_spec (S i) n); [lia|]. nia.
  - rewrite Nat.eqb_refl. destruct (Nat.eqb_spec (pred n) n); [lia|].
    by replace (Z.of_nat (pred n)) with (Z.of_nat n - 1) by lia.
  - by rewrite Nat.eqb_refl.
Qed.

Lemma fragment_carries d mtu n j content g :
  right_count (byteLength d - headerLength d) (mtu - headerLength d) (Z.of_nat n) ->
  encapsulated d = Some content -> moreFragments d = false ->
  0 <= headerLength d < 65536 -> byteLength d - headerLength d < 65536 ->
  (j < n)%nat -> in_transit (fragment d mtu (Z.of_nat n) (Z.of_nat j)) g ->
  carries d (cut_at (byteLength d - headerLength d) (mtu - headerLength d) n) n content j g.
Proof.
  intros (Hn & Hr & Hp & Hlo & Hhi) Hc Hm Hh Hmax Hj Hg. unfold in_transit in Hg. rewrite Hg.
  assert ((j =? n)%nat = false) as Hjn by (apply Nat.eqb_neq; lia). unfold fragment, dup.
  destruct (Z.eqb_spec (Z.of_nat j) (Z.of_nat n - 1)) as [He|Hne]; cbn [negb].
  - assert ((S j =? n)%nat = true) as Hl by (apply Nat.eqb_eq; lia).
    split; unfold IPFragBuf.key_of, cut_at; rewrite ?Hjn, ?Hl; try done; cbn -[Z.of_nat].
    rewrite i32_small by nia. rewrite He. lia.
  - assert ((S j =? n)%nat = false) as Hl by (apply Nat.eqb_neq; lia).
    split; unfold IPFragBuf.key_of, cut_at; rewrite ?Hjn, ?Hl; try done; cbn -[Z.of_nat]. lia.
Qed.

Lemma fragment_fits d mtu n i :
  right_count (byteLength d - headerLength d) (mtu - headerLength d) n ->
  0 <= headerLength d < 65536 -> byteLength d - headerLength d < 65536 ->
  byteLength (fragment d mtu n i) <= mtu.
Proof.
  intros (Hn & Hr & Hp & Hlo & Hhi) Hh Hmax. unfold fragment.
  destruct (negb (i =? n - 1)); cbn; [lia|]. rewrite i32_small by nia. nia.
Qed.

Lemma fragmentAndSend_spec s d ie e nh n :
  points_to s ie e -> mtu e < byteLength d -> dontFragment d = false -> 0 < timeToLive d ->
  0 <= headerLength d < 65536 -> 0 <= byteLength d - headerLength d < 65536 ->
  noOfFragments (byteLength d - headerLength d) (mtu e) (headerLength d) = Some n ->
  fragmentAndSend d ie nh s =
    Ok tt (add_outputs ((fun i => link_output e nh (fragment d (mtu e) n i)) <$>
                          (Z.of_nat <$> seq 0 (Z.to_nat n))) s).
Proof.
  intros Hie Hmtu Hdf Httl Hh Hp Hn. unfold fragmentAndSend.
  rewrite (bind_ok _ _ _ _ _ (interface_at_run _ _ _ Hie)).
  rewrite (proj2 (Z.leb_gt (byteLength d) (mtu e))) by done. rewrite i32_small by lia. rewrite Hn, Hdf.
  cbn [andb]. erewrite bind_ok; [done|]. apply (mapE_outputs _ (fun i => link_output e nh (fragment d (mtu e) n i))).
  intros i os. rewrite (sendDatagramToOutput_link _ _ _ e).
  - by rewrite add_outputs_app.
  - done.
  - unfold fragment, dup. by destruct (negb _).
  - unfold fragment, dup. by destruct (negb _).
Qed.

End Fragmentation.

(** ** Fragments of fragments *)
Section Refragmentation.
Context `{!PacketCopy}.

Lemma in_transit_fields g g' :
  in_transit g g' -> headerLength g' = headerLength g /\ byteLength g' = byteLength g /\
    fragmentOffset g' = fragmentOffset g /\ dontFragment g' = dontFragment g.
Proof. unfold in_transit. intros ->. done. Qed.

(** The bytes of the datagram a fragment claims to hold end here. *)
Definition range_end (g : IPDatagram) : Z := fragmentOffset g + (byteLength g - headerLength g).

(** a fragment that has to be cut again is lost. The pieces of a fragment
    other than the first get offsets from the start of the fragment instead of the
    start of the datagram: all of them claim bytes before those the fragment
    holds, so that none of its bytes can ever be put in place. *)
Theorem refragmentation_misplaces s d mtu1 n1 j f ie e nh n2 :
  right_count (byteLength d - headerLength d) (mtu1 - headerLength d) n1 -> 1 <= j < n1 ->
  0 <= headerLength d < 65536 -> byteLength d - headerLength d < 65536 ->
  in_transit (fragment d mtu1 n1 j) f -> dontFragment d = false -> 0 < timeToLive f ->
  points_to s ie e -> mtu e < byteLength f ->
  noOfFragments (byteLength f - headerLength f) (mtu e) (headerLength f) = Some n2 ->
  right_count (byteLength f - headerLength f) (mtu e - headerLength f) n2 ->
  exists pieces, fragmentAndSend f ie nh s = Ok tt (add_outputs (link_output e nh <$> pieces) s) /\
    pieces <> [] /\ Forall (fun g => range_end g <= fragmentOffset f) pieces.
Proof.
  intros Hc1 Hj Hh Hmax Hf Hdf Httl Hie Hmtu Hn2 Hc2.
  pose proof (fragment_fits d mtu1 n1 j Hc1 Hh Hmax) as Hfit.
  destruct (in_transit_fields _ _ Hf) as (Hfh & Hfl & Hfo & Hfd).
  assert (headerLength (fragment d mtu1 n1 j) = headerLength d /\
    fragmentOffset (fragment d mtu1 n1 j) = j * (mtu1 - headerLength d) /\
    dontFragment (fragment d mtu1 n1 j) = dontFragment d) as (Hgh & Hgo & Hgd)
    by (unfold fragment; by destruct (negb _)).
  destruct Hc1 as (Hn1 & Hr1 & Hp1 & Hlo1 & Hhi1). destruct Hc2 as (H2 & Hr2 & Hp2 & Hlo & Hhi).
  rewrite Hgh in Hfh. rewrite Hgo in Hfo. rewrite Hfh in *.
  assert (byteLength f - headerLength d <= mtu1 - headerLength d < 65536) as [Hb1 Hb2] by nia.
  exists ((fun i => fragment f (mtu e) n2 i) <$> (Z.of_nat <$> seq 0 (Z.to_nat n2))). split_and!.
  - assert (dontFragment f = false) by congruence.
    rewrite (fragmentAndSend_spec s f ie e nh n2); rewrite ?Hfh; [|done..|lia|done].
    by rewrite <- (list_fmap_compose (fun i => fragment f (mtu e) n2 i) (link_output e nh)).
  - assert (Z.to_nat n2 = S (Z.to_nat (n2 - 1))) as -> by lia. done.
  - apply Forall_fmap, Forall_fmap, Forall_forall. intros i Hi. apply elem_of_seq in Hi. cbn -[Z.of_nat].
    unfold range_end, fragment. rewrite Hfh, Hfo.
    destruct (Z.eqb_spec (Z.of_nat i) (n2 - 1)) as [Hil|Hil]; cbn -[Z.of_nat]; rewrite Hfh.
    + rewrite i32_small by nia. rewrite Hil. nia.
    + nia.
Qed.
End Refragmentation.
