(* ===== verification/IPForwardSpec.v ===== *)
(** * Forwarding

    Datagrams for other hosts take the best route, or their sender is told why not;
    directed broadcasts are lost. *)
From Stdlib Require Import String SpecFloat.
From S2P Require Import Prelude IPAddress IPAddressSpec MACAddress MachineFloat InterfaceTable RoutingTable RoutingSpec ReassemblyBuffer IPDatagram ICMP IPFragBuf IP IPSpec.

(** ** Local addresses *)
Section Local.
Implicit Types (n : Node).

(** The addresses of the interfaces of a node. *)
Definition node_data (n : Node) : option (list IPv4InterfaceData) :=
  mapM ipv4data (InterfaceTable.interfaces (ift n)).

Lemma mapE_ipv4Data {S} l ds (s : S) : mapM ipv4data l = Some ds -> mapE ipv4Data l s = Ok ds s.
Proof.
  revert ds. induction l as [|e l IH]; intros ds; [by intros [= <-]|].
  cbn. destruct (ipv4data e) as [d|] eqn:He; cbn; [|done].
  destruct (mapM ipv4data l) as [ds'|]; cbn; [|done]. intros [= <-].
  rewrite (bind_ok (ipv4Data e) _ s d s) by (unfold ipv4Data; by rewrite He).
  by rewrite (bind_ok _ _ _ _ _ (IH ds' eq_refl)).
Qed.

(** What a look-up of local addresses changes: its own cache. *)
Definition same_routes (n n' : Node) : Prop :=
  same_table (rt n) (rt n') /\ routingCache (rt n') = routingCache (rt n) /\
  IPForward (rt n') = IPForward (rt n) /\ ift n' = ift n.

Lemma same_routes_refl n : same_routes n n.
Proof. by repeat split. Qed.
Lemma same_routes_trans n1 n2 n3 : same_routes n1 n2 -> same_routes n2 n3 -> same_routes n1 n3.
Proof. intros ((?&?&?&?&?)&?&?&?) ((?&?&?&?&?)&?&?&?). repeat split; congruence. Qed.

Lemma same_routes_inv n n' : same_routes n n' -> rt_inv n -> rt_inv n'.
Proof.
  intros (Hs & Hc & _) [Hi Hca]. split; [by eapply table_inv_same|].
  intros dest p. rewrite Hc. intros Hp. eapply best_match_same; [done|]. by apply Hca.
Qed.

(** The local cache is either empty or correct. *)
Definition local_ok (n : Node) (ds : list IPv4InterfaceData) : Prop :=
  localAddresses (rt n) = ∅ \/ localAddresses (rt n) = list_to_set (inetAddr <$> ds).
Definition local_broadcast_ok (n : Node) (ds : list IPv4InterfaceData) : Prop :=
  localBroadcastAddresses (rt n) = ∅ \/
  localBroadcastAddresses (rt n) = list_to_set (broadcast_addresses ds).

Lemma isLocalAddress_spec n ds a :
  node_data n = Some ds -> local_ok n ds ->
  exists n', isLocalAddress a n = Ok (bool_decide (a ∈ inetAddr <$> ds)) n' /\ same_routes n n' /\
    localBroadcastAddresses (rt n') = localBroadcastAddresses (rt n).
Proof.
  intros Hds Hok. unfold isLocalAddress. rewrite (bind_ok (get_rt localAddresses) _ n _ n) by done.
  assert (forall n', localAddresses (rt n') = list_to_set (inetAddr <$> ds) ->
    (let! known := get_rt localAddresses in ret (bool_decide (a ∈ known))) n' =
    Ok (bool_decide (a ∈ inetAddr <$> ds)) n') as Hend.
  { intros n' Hn'. rewrite (bind_ok (get_rt localAddresses) _ n' _ n') by done. rewrite Hn'.
    unfold ret. f_equal. apply bool_decide_ext. by rewrite elem_of_list_to_set. }
  destruct (bool_decide (localAddresses (rt n) = ∅)) eqn:He.
  - erewrite bind_ok by (unfold all_interfaces, bind, gets; rewrite (mapE_ipv4Data _ ds) by done; done).
    eexists. split; [by apply Hend|]. by repeat split.
  - apply bool_decide_eq_false in He. destruct Hok as [|Hok]; [done|].
    rewrite (bind_ok (ret tt) _ n tt n) by done. eexists. split; [by apply Hend|]. by repeat split.
Qed.

Lemma isLocalBroadcastAddress_spec n ds a :
  node_data n = Some ds -> local_broadcast_ok n ds ->
  exists n', isLocalBroadcastAddress a n = Ok (bool_decide (a ∈ broadcast_addresses ds)) n' /\ same_routes n n'.
Proof.
  intros Hds Hok. unfold isLocalBroadcastAddress.
  rewrite (bind_ok (get_rt localBroadcastAddresses) _ n _ n) by done.
  assert (forall n', localBroadcastAddresses (rt n') = list_to_set (broadcast_addresses ds) ->
    (let! known := get_rt localBroadcastAddresses in ret (bool_decide (a ∈ known))) n' =
    Ok (bool_decide (a ∈ broadcast_addresses ds)) n') as Hend.
  { intros n' Hn'. rewrite (bind_ok (get_rt localBroadcastAddresses) _ n' _ n') by done. rewrite Hn'.
    unfold ret. f_equal. apply bool_decide_ext. by rewrite elem_of_list_to_set. }
  destruct (bool_decide (localBroadcastAddresses (rt n) = ∅)) eqn:He.
  - erewrite bind_ok by (unfold all_interfaces, bind, gets; rewrite (mapE_ipv4Data _ ds) by done; done).
    eexists. split; [by apply Hend|]. by repeat split.
  - apply bool_decide_eq_false in He. destruct Hok as [|Hok]; [done|].
    rewrite (bind_ok (ret tt) _ n tt n) by done. eexists. split; [by apply Hend|]. by repeat split.
Qed.
End Local.

(** ** One datagram through [routePacket] *)
Section Forwarding.
Context `{!PacketCopy}.
Implicit Types (s : IP) (d : IPDatagram).

Lemma on_node_run {A} (m : Eff Node A) s a n :
  m (node s) = Ok a n -> on_node m s = Ok a (s <| node := n |>).
Proof. unfold on_node. by intros ->. Qed.

(** The error message about [d] that is sent to its source. *)
Definition error_to_source (d : IPDatagram) (type code : Z) : ICMPMessage :=
  (ICMP.error_message d type code) <| icmp_control :=
    Some (IPControl (IPControlInfo_new <| ci_destAddr := srcAddress d |> <| ci_protocol := IP_PROT_ICMP |>)) |>.

Lemma sendErrorMessage_run s d type code :
  IPAddress.isMulticast (destAddress d) = false -> transportProtocol d <> IP_PROT_ICMP -> srcAddress d <> 0 ->
  ICMP.sendErrorMessage d type code s = Ok tt (add_outputs [IcmpSendOut (error_to_source d type code)] s).
Proof.
  intros Hm Hp Hs. unfold ICMP.sendErrorMessage, ICMP.report_error, IPAddress.isUnspecified.
  by rewrite Hm, (proj2 (Z.eqb_neq _ _) Hp), (proj2 (Z.eqb_neq _ _) Hs).
Qed.

Lemma manet_off code d s : manetRouting s = false -> controlMessageToManetRouting code d s = Ok tt s.
Proof. intros Hm. unfold controlMessageToManetRouting, bind, gets. by rewrite Hm. Qed.

(** The checks for local delivery and broadcasts, for an address that is neither. *)
Lemma routePacket_remote s d ds destIE fromHL nh :
  node_data (node s) = Some ds -> local_ok (node s) ds -> local_broadcast_ok (node s) ds ->
  manetRouting s = false -> destAddress d ∉ inetAddr <$> ds -> destAddress d <> IPAddress.ALLONES_ADDRESS ->
  exists n', same_routes (node s) n' /\
    routePacket d destIE fromHL nh s =
    (if bool_decide (destAddress d ∈ broadcast_addresses ds) then ret tt else
     let! forwarding := on_node (get_rt IPForward) in
     if negb fromHL && negb forwarding then count_dropped
     else match destIE with
     | Some _ =>
         let! manet := gets manetRouting in
         forward d destIE (match nh with Some a => if manet && fromHL then a else 0 | None => 0 end)
     | None =>
         let! re := lookup_route (destAddress d) in
         match re with
         | Some re => forward d (interfacePtr re) (gateway re)
         | None =>
             let! manet := gets manetRouting in
             if negb manet then
               count_unroutable ;;; ICMP.sendErrorMessage d ICMP_DESTINATION_UNREACHABLE 0
             else controlMessageToManetRouting MANET_ROUTE_NOROUTE d
         end
     end) (s <| node := n' |>).
Proof.
  intros Hds Hl Hb Hm Hnl Hna. unfold routePacket.
  rewrite (bind_ok _ _ _ _ _ (manet_off MANET_ROUTE_UPDATE d s Hm)).
  destruct (isLocalAddress_spec (node s) ds (destAddress d) Hds Hl) as (n1 & H1 & Hs1 & Hb1).
  rewrite bool_decide_false in H1 by done. rewrite (bind_ok _ _ _ _ _ (on_node_run _ _ _ _ H1)).
  unfold IPAddress.equals. rewrite (proj2 (Z.eqb_neq _ _) Hna).
  assert (node_data n1 = Some ds) as Hds1 by (unfold node_data; by destruct Hs1 as (_ & _ & _ & ->)).
  assert (local_broadcast_ok n1 ds) as Hb1' by (unfold local_broadcast_ok; by rewrite Hb1).
  destruct (isLocalBroadcastAddress_spec n1 ds (destAddress d) Hds1 Hb1') as (n2 & H2 & Hs2).
  exists n2. split; [by eapply same_routes_trans|].
  erewrite (bind_ok (on_node (isLocalBroadcastAddress _))) by (by apply on_node_run). by case_bool_decide.
Qed.

(** a datagram for a directed broadcast address is lost. If the destination is
    the broadcast address of one of the node's networks, not 255.255.255.255, the
    dangling else of [routePacket] makes the code return without delivering,
    sending or counting the datagram, wherever it comes from. *)
Theorem directed_broadcast_lost s d ds destIE fromHL nh :
  node_data (node s) = Some ds -> local_ok (node s) ds -> local_broadcast_ok (node s) ds ->
  manetRouting s = false -> destAddress d ∉ inetAddr <$> ds ->
  destAddress d ∈ broadcast_addresses ds -> destAddress d <> IPAddress.ALLONES_ADDRESS ->
  exists n', routePacket d destIE fromHL nh s = Ok tt (s <| node := n' |>) /\ same_routes (node s) n'.
Proof.
  intros Hds Hl Hb Hm Hnl Hin Hna.
  destruct (routePacket_remote s d ds destIE fromHL nh) as (n' & Hs & ->); [done..|].
  rewrite bool_decide_true by done. by exists n'.
Qed.

Lemma lookup_route_spec s dest :
  rt_inv (node s) ->
  exists n', same_table (rt (node s)) (rt n') /\ ift n' = ift (node s) /\
    ((no_match (rt (node s)) dest /\ lookup_route dest s = Ok None (s <| node := n' |>)) \/
     exists p e, best_match (rt (node s)) dest p /\ heap (rt (node s)) !! p = Some e /\
       lookup_route dest s = Ok (Some e) (s <| node := n' |>)).
Proof.
  intros Hinv. destruct (findBestMatchingRoute_spec (node s) dest Hinv) as (res & n' & Hf & Hs & Hi & Hift & Hres).
  exists n'. split_and!; [done|done|]. unfold lookup_route. rewrite (bind_ok _ _ _ _ _ (on_node_run _ _ _ _ Hf)).
  destruct res as [p|]; [right|by left].
  pose proof Hres as (e & Hp & He & _). exists p, e. split_and!; [done|done|].
  assert (deref p n' = Ok e n') as Hd by (apply deref_run; by rewrite (proj1 Hs)).
  erewrite bind_ok by (apply on_node_run; exact Hd).
  rewrite bool_decide_false by (by apply (ti_manet _ (proj1 Hinv) p)). done.
Qed.

(** Forwarding a datagram that fits and has a source address. *)
Lemma forward_spec s d ie e gw :
  points_to s ie e -> byteLength d <= mtu e -> srcAddress d <> 0 -> controlInfo d = None ->
  IPAddress.isMulticast (destAddress d) = false -> transportProtocol d <> IP_PROT_ICMP ->
  exists s', forward d ie gw s = Ok tt s' /\
    outbox s' = outbox s ++ [if 0 <? timeToLive d then link_output e gw d
                             else IcmpSendOut (error_to_source d ICMP_TIME_EXCEEDED 0)].
Proof.
  intros Hie Hmtu Hsrc Hc Hmc Hp. unfold forward, fill_src_from, IPAddress.isUnspecified.
  rewrite (proj2 (Z.eqb_neq _ _) Hsrc). rewrite (bind_ok (ret d) _ s d s) by done.
  unfold count_forwarded. erewrite (bind_ok (modify _)) by done. set (s1 := s <| numForwarded := _ |>).
  assert ((if transportProtocol d =? IP_PROT_MANET then d <| controlInfo := None |> else d) = d) as ->.
  { destruct (transportProtocol d =? IP_PROT_MANET); [|done]. destruct d; cbn in *. by subst. }
  assert (points_to s1 ie e) as Hie1 by done. unfold fragmentAndSend.
  rewrite (bind_ok _ _ _ _ _ (interface_at_run _ _ _ Hie1)). rewrite (proj2 (Z.leb_le _ _) Hmtu).
  destruct (Z.ltb_spec 0 (timeToLive d)) as [Ht|Ht].
  - rewrite (sendDatagramToOutput_link _ _ _ e) by done. by eexists.
  - unfold sendDatagramToOutput. rewrite (proj2 (Z.leb_le _ _) Ht), sendErrorMessage_run by done. by eexists.
Qed.

End Forwarding.
