(* ===== verification/IPSafety.v ===== *)
(** * What IP can send at all

    A small logic for the messages an operation adds to the outbox, and two
    properties of every run: the time to live of a datagram goes down at every hop
    and a datagram without any left goes no further; error messages are never
    about error messages. *)
From Stdlib Require Import String SpecFloat.
From S2P Require Import Prelude IPAddress MACAddress MachineFloat InterfaceTable RoutingTable ReassemblyBuffer IPDatagram ICMP IPFragBuf IP.

(** Everything [m] adds to the outbox satisfies [P]. *)
Definition emits {A} (P : Output -> Prop) (m : Eff IP A) : Prop :=
  forall s a s', m s = Ok a s' -> exists os, outbox s' = outbox s ++ os /\ Forall P os.

Section Rules.
Context (P : Output -> Prop).

Lemma emits_ret {A} (a : A) : emits P (ret a).
Proof. intros s b s' [= <- <-]. exists []. by rewrite app_nil_r. Qed.
Lemma emits_fail {A} e : emits P (fail (A := A) e).
Proof. done. Qed.
Lemma emits_gets {A} (f : IP -> A) : emits P (gets f).
Proof. intros s b s' [= <- <-]. exists []. by rewrite app_nil_r. Qed.
Lemma emits_modify f : (forall s, outbox (f s) = outbox s) -> emits P (modify f).
Proof. intros Hf s b s' [= <- <-]. exists []. by rewrite app_nil_r. Qed.
Lemma emits_send o : P o -> emits P (send o).
Proof. intros Ho s b s' [= <- <-]. exists [o]. by split; [|constructor]. Qed.
Lemma emits_bind {A B} (m : Eff IP A) (k : A -> Eff IP B) :
  emits P m -> (forall a, emits P (k a)) -> emits P (bind m k).
Proof.
  intros Hm Hk s b s' (a & s1 & H1 & H2)%bind_inv.
  destruct (Hm _ _ _ H1) as (os1 & Ho1 & Hf1). destruct (Hk _ _ _ _ H2) as (os2 & Ho2 & Hf2).
  exists (os1 ++ os2). rewrite Ho2, Ho1, app_assoc. by split; [|apply Forall_app].
Qed.
Lemma emits_on_node {A} (m : Eff Node A) : emits P (on_node m).
Proof.
  intros s a s'. unfold on_node. destruct (m (node s)); [|done]. intros [= <- <-]. exists []. by rewrite app_nil_r.
Qed.
Lemma emits_on_fragbuf {A} (m : Eff IPFragBuf.Buffers A) : emits P (on_fragbuf m).
Proof.
  intros s a s'. unfold on_fragbuf. destruct (m (fragbuf s)); [|done]. intros [= <- <-]. exists []. by rewrite app_nil_r.
Qed.
Lemma emits_mapE {A B} (f : A -> Eff IP B) l : (forall a, emits P (f a)) -> emits P (mapE f l).
Proof.
  intros Hf. induction l as [|a l IH]; cbn [mapE]; [apply emits_ret|].
  apply emits_bind; [done|]. intros b. apply emits_bind; [done|]. intros bs. apply emits_ret.
Qed.
End Rules.

Create HintDb emits discriminated.
#[export] Hint Resolve emits_ret emits_fail emits_gets emits_on_node emits_on_fragbuf : emits.
#[export] Hint Constants Opaque : emits.

(** Walks through an operation; what it calls is looked up in the hints. *)
Ltac emits_walk :=
  repeat first
  [ solve [eauto with emits]
  | apply emits_bind; [|intros ?]
  | apply emits_modify; intros ?; reflexivity
  | match goal with
    | |- emits _ (if ?b then _ else _) => destruct b
    | |- emits _ (match ?x with _ => _ end) => destruct x
    | |- emits _ (when ?b _) => unfold when
    | |- emits _ (let _ := _ in _) => cbv zeta
    end ].

(** ** Operations that only send upwards *)
Definition upward (o : Output) : Prop :=
  match o with IfOut _ _ | QueueOut _ => False | _ => True end.

Section Upward.
Context `{!PacketCopy} (P : Output -> Prop) (HP : forall o, upward o -> P o).

Lemma emits_up o : upward o -> emits P (send o).
Proof. intros. by apply emits_send, HP. Qed.
Hint Extern 1 (emits P (send _)) => (apply emits_up; exact I) : emits.

Lemma emits_interface_at ie : emits P (interface_at ie).
Proof. unfold interface_at. emits_walk. Qed.
Lemma emits_source_interface g : emits P (getSourceInterfaceFrom g).
Proof. unfold getSourceInterfaceFrom. emits_walk. Qed.
Lemma emits_gate p l : emits P (ProtocolMapping.getOutputGateForProtocol p l).
Proof. unfold ProtocolMapping.getOutputGateForProtocol. emits_walk. Qed.
Lemma emits_setControl c p : emits P (setControlInfo c p).
Proof. unfold setControlInfo. emits_walk. Qed.
Lemma emits_cast_ctrl c : emits P (cast_IPControlInfo c).
Proof. unfold cast_IPControlInfo. emits_walk. Qed.
Lemma emits_cast_icmp p : emits P (cast_ICMPMessage p).
Proof. unfold cast_ICMPMessage. emits_walk. Qed.
Lemma emits_cast_datagram p : emits P (cast_IPDatagram p).
Proof. unfold cast_IPDatagram. emits_walk. Qed.
Lemma emits_decapsulate d : emits P (decapsulate d).
Proof. unfold decapsulate. emits_walk. Qed.
Lemma emits_setOrig d c : emits P (setOrigDatagram d c).
Proof. unfold setOrigDatagram. emits_walk. Qed.
Lemma emits_icmp_control c m : emits P (ICMP.set_icmp_control c m).
Proof. unfold ICMP.set_icmp_control. emits_walk. Qed.
Lemma emits_ipv4Data e : emits P (ipv4Data e).
Proof. unfold ipv4Data. emits_walk. Qed.
Hint Resolve emits_interface_at emits_source_interface emits_gate emits_setControl emits_cast_ctrl
  emits_cast_icmp emits_cast_datagram emits_decapsulate emits_setOrig emits_icmp_control emits_ipv4Data : emits.

Lemma emits_processICMP m : emits P (ICMP.processICMPMessage m).
Proof.
  unfold ICMP.processICMPMessage, ICMP.errorOut, ICMP.processEchoRequest, ICMP.processEchoReply, ICMP.sendToIP.
  emits_walk.
Qed.
Hint Resolve emits_processICMP : emits.
Lemma emits_sendError d t c : emits P (ICMP.sendErrorMessage d t c).
Proof. unfold ICMP.sendErrorMessage, ICMP.report_error, ICMP.sendToIP_dest. emits_walk. Qed.
Lemma emits_manet c d : emits P (controlMessageToManetRouting c d).
Proof. unfold controlMessageToManetRouting. emits_walk. Qed.
Lemma emits_handleICMP m : emits P (handleReceivedICMP m).
Proof. unfold handleReceivedICMP. emits_walk. Qed.
Lemma emits_decapsulateIP d : emits P (decapsulateIP d).
Proof. unfold decapsulateIP. emits_walk. Qed.
Hint Resolve emits_sendError emits_manet emits_handleICMP emits_decapsulateIP : emits.
Lemma emits_deliver d : emits P (deliver d).
Proof. unfold deliver. emits_walk. Qed.
Hint Resolve emits_deliver : emits.
Lemma emits_purge l t : emits P (purge_loop l t).
Proof. induction l as [|[k b] l IH]; cbn [purge_loop]; emits_walk. Qed.
Hint Resolve emits_purge : emits.
Lemma emits_reassemble d : emits P (reassembleAndDeliver d).
Proof. unfold reassembleAndDeliver, purgeStaleFragments. emits_walk. Qed.
End Upward.

#[export] Hint Resolve emits_interface_at emits_source_interface emits_gate emits_setControl emits_cast_ctrl
  emits_cast_icmp emits_cast_datagram emits_ipv4Data emits_sendError emits_manet emits_reassemble : emits.

(** ** The time to live *)
Section TimeToLive.
Context `{!PacketCopy}.
Implicit Types (d : IPDatagram).

(** What may go out on a link: a datagram with time to live [t], which is not used
    up. *)
Definition hop_ok (t : Z) (o : Output) : Prop :=
  match o with
  | IfOut _ (DatagramPacket g) | QueueOut (DatagramPacket g) => timeToLive g = t /\ 0 < t
  | IfOut _ _ | QueueOut _ => False
  | _ => True
  end.

Lemma hop_ok_up t o : upward o -> hop_ok t o.
Proof. by destruct o. Qed.
Hint Resolve hop_ok_up : emits.

Lemma emits_output d ie nh t : timeToLive d = t -> emits (hop_ok t) (sendDatagramToOutput d ie nh).
Proof.
  intros Ht. unfold sendDatagramToOutput. destruct (Z.leb_spec (timeToLive d) 0); [eauto with emits|].
  apply emits_bind; [eauto with emits|]. intros e. destruct (negb (broadcast e)).
  - apply emits_send. split; [done|lia].
  - unfold setControlInfo. cbn [getControlInfo with_control]. destruct (controlInfo d); [apply emits_fail|].
    change (emits (hop_ok t) (send (QueueOut (DatagramPacket (d <| controlInfo :=
      Some (IPRoutingDecision (interfaceId e) nh) |>))))).
    apply emits_send. split; [done|lia].
Qed.
Hint Resolve emits_output : emits.

Lemma fragment_ttl d mtu n i : timeToLive (fragment d mtu n i) = timeToLive d.
Proof. unfold fragment, dup. by destruct (negb _). Qed.

Lemma emits_fragmentAndSend d ie nh t : timeToLive d = t -> emits (hop_ok t) (fragmentAndSend d ie nh).
Proof.
  intros Ht. unfold fragmentAndSend. emits_walk.
  apply emits_mapE. intros i. apply emits_output. by rewrite fragment_ttl.
Qed.
Hint Resolve emits_fragmentAndSend : emits.

Lemma emits_fill_src {B} d ie t (k : IPDatagram -> Eff IP B) :
  timeToLive d = t -> (forall d', timeToLive d' = t -> emits (hop_ok t) (k d')) ->
  emits (hop_ok t) (bind (fill_src_from ie d) k).
Proof.
  intros Ht Hk. unfold fill_src_from. destruct (IPAddress.isUnspecified (srcAddress d)); [|by apply Hk].
  intros s b s' (d' & s1 & H1 & H2)%bind_inv.
  apply bind_inv in H1 as (e & s2 & He & H1). apply bind_inv in H1 as (dat & s3 & Hd & H1).
  injection H1 as <- <-.
  destruct (emits_interface_at (hop_ok t) _ _ _ _ He) as (os & Ho & Hf).
  destruct (emits_ipv4Data (hop_ok t) _ _ _ _ Hd) as (os' & Ho' & Hf').
  edestruct Hk as (os2 & Ho2 & Hf2); [|exact H2|]; [done|].
  exists (os ++ os' ++ os2). rewrite Ho2, Ho', Ho, !app_assoc. split; [done|]. by rewrite !Forall_app.
Qed.

Hint Extern 0 (emits _ (bind (fill_src_from _ _) _)) =>
  (apply emits_fill_src; [done|intros; solve [eauto with emits]]) : emits.

Lemma emits_forward d ie nh t : timeToLive d = t -> emits (hop_ok t) (forward d ie nh).
Proof.
  intros Ht. unfold forward, count_forwarded. apply emits_fill_src; [done|]. intros d' Hd'.
  apply emits_bind; [emits_walk|]. intros _. apply emits_fragmentAndSend. by destruct (_ =? _).
Qed.
Hint Resolve emits_forward : emits.

Lemma emits_lookup_route P a : emits P (lookup_route a).
Proof. unfold lookup_route. emits_walk. Qed.
Hint Resolve emits_lookup_route : emits.

Lemma emits_routePacket d ie hl nh t : timeToLive d = t -> emits (hop_ok t) (routePacket d ie hl nh).
Proof. intros Ht. unfold routePacket, count_local, count_dropped, count_unroutable. emits_walk. Qed.
Hint Resolve emits_routePacket : emits.

Lemma emits_copies d from l t : timeToLive d = t -> emits (hop_ok t) (multicast_copies d from l).
Proof.
  intros Ht. induction l as [|[ie gw] l IH]; cbn [multicast_copies]; [apply emits_ret|].
  apply emits_bind; [|done]. destruct (_ && _); [|apply emits_ret]. apply emits_fill_src; [done|].
  intros d' Hd'. by apply emits_fragmentAndSend.
Qed.
Hint Resolve emits_copies : emits.

Lemma emits_routeMulticast d ie from t : timeToLive d = t -> emits (hop_ok t) (routeMulticastPacket d ie from).
Proof.
  intros Ht. unfold routeMulticastPacket, multicast_from_network, count_multicast, assert_. emits_walk.
Qed.
Hint Resolve emits_routeMulticast : emits.

Lemma prerouted_ttl d t : i16 (timeToLive d - 1) = t -> timeToLive (prerouted d) = t.
Proof. unfold prerouted. intros <-. by destruct (_ || _). Qed.
Hint Resolve prerouted_ttl : emits.

Lemma emits_fromNetwork hit d t :
  i16 (timeToLive d - 1) = t -> emits (hop_ok t) (handlePacketFromNetwork hit d).
Proof.
  intros Ht. unfold handlePacketFromNetwork, count_local. emits_walk.
Qed.

(** C13: the time to live bounds the way of a datagram. Whatever a node does with
    a datagram from the network - forward it, cut it into fragments, copy it to
    the routes of a group -, every datagram it puts on a link has a time to live
    one less than that of the datagram received, and more than zero; a datagram
    that arrives with a time to live of at most one is not sent on. *)
Theorem ttl_decreases hit d s s' :
  -32768 < timeToLive d <= 32767 -> handlePacketFromNetwork hit d s = Ok tt s' ->
  exists os, outbox s' = outbox s ++ os /\
    (forall k p, IfOut k p ∈ os \/ QueueOut p ∈ os ->
       exists g, p = DatagramPacket g /\ timeToLive g = timeToLive d - 1 /\ 0 < timeToLive g) /\
    (timeToLive d <= 1 -> Forall upward os).
Proof.
  intros Hr Hrun. destruct (emits_fromNetwork hit d _ eq_refl _ _ _ Hrun) as (os & Ho & Hf).
  rewrite i16_small in Hf by lia. exists os. split_and!; [done| |].
  - rewrite Forall_forall in Hf. intros k p [Hin|Hin]; apply Hf in Hin; destruct p; try done;
      destruct Hin as [Ht Hpos]; (eexists; split_and!; [done|done|lia]).
  - intros Hle. eapply Forall_impl; [done|]. intros [] Ho'; try done; cbn in *; destruct p; try done; lia.
Qed.
End TimeToLive.

(** ** Errors about errors *)
Section Errors.
Context `{!PacketCopy}.
Implicit Types (d : IPDatagram).

Definition error_types : list Z :=
  [ICMP_DESTINATION_UNREACHABLE; ICMP_REDIRECT; ICMP_TIME_EXCEEDED; ICMP_PARAMETER_PROBLEM].

Definition carries_error (d : IPDatagram) : Prop :=
  transportProtocol d = IP_PROT_ICMP /\
  exists m, encapsulated d = Some (ICMPPacket m) /\ icmp_type m < 128.

Lemma sendError_about_error {S} `{!Sends S} d type code (s : S) :
  carries_error d -> ICMP.sendErrorMessage d type code s = Ok tt s.
Proof.
  intros (Hp & m & Hm & Ht). unfold ICMP.sendErrorMessage. destruct (IPAddress.isMulticast _); [done|].
  rewrite Hp, Z.eqb_refl, Hm. cbn. unfold bind, ret. by rewrite (proj2 (Z.ltb_lt _ _) Ht).
Qed.

Lemma error_type_cases ty : ty ∈ error_types ->
  ty = ICMP_DESTINATION_UNREACHABLE \/ ty = ICMP_REDIRECT \/ ty = ICMP_TIME_EXCEEDED \/ ty = ICMP_PARAMETER_PROBLEM.
Proof. unfold error_types. rewrite !elem_of_cons, elem_of_nil. tauto. Qed.

Lemma encapsulate_result p ctrl s d ie s' :
  encapsulate p ctrl s = Ok (d, ie) s' -> transportProtocol d = ci_protocol ctrl /\ encapsulated d = Some p.
Proof.
  unfold encapsulate. intros (d1 & s1 & H1 & Hr)%bind_inv. unfold encapsulate_in in H1. cbn in H1.
  injection H1 as <- <-. apply bind_inv in Hr as (e & s2 & _ & Hr). apply bind_inv in Hr as ([] & s3 & _ & Hr).
  apply bind_inv in Hr as (x & s4 & _ & Hr). apply bind_inv in Hr as ([] & s5 & _ & Hr). by injection Hr as <- <- <-.
Qed.

Lemma report_error_outputs d type code (s s' : IP) :
  type ∈ error_types -> ICMP.report_error d type code s = Ok tt s' ->
  exists m o, outbox s' = outbox s ++ [o] /\ (o = IcmpSendOut m \/ o = IcmpErrorOut m) /\
    icmp_type m = type /\ icmp_encapsulated m = Some (DatagramPacket d) /\
    (o = IcmpSendOut m -> exists ctrl, icmp_control m = Some (IPControl ctrl) /\
       ci_destAddr ctrl = srcAddress d /\ ci_protocol ctrl = IP_PROT_ICMP).
Proof.
  intros Hty. unfold ICMP.report_error. destruct (IPAddress.isUnspecified (srcAddress d)).
  - unfold ICMP.set_icmp_control, bind. cbn [ret icmp_control ICMP.error_message].
    unfold ICMP.processICMPMessage, ICMP.errorOut. cbn.
    apply error_type_cases in Hty as [->|[->|[->| ->]]];
      cbn; intros [= <-]; (eexists _, _; split_and!; [reflexivity|by right|done|done|done]).
  - intros [= <-]. eexists _, _. split_and!; [reflexivity|by left|done|done|]. intros _.
    eexists. by split_and!.
Qed.

(** C30: error messages do not breed error messages. Asked for an error message
    about a datagram, ICMP sends nothing or one message of that type with the
    datagram in it, and the latter only if the datagram was not sent to a group and
    does not itself carry an error; and whatever happens to the datagram in which
    IP sends the message on its way, no error message will be sent about it. *)
Theorem errors_do_not_breed d type code (s s' : IP) :
  type ∈ error_types -> ICMP.sendErrorMessage d type code s = Ok tt s' ->
  outbox s' = outbox s \/
  exists m o, outbox s' = outbox s ++ [o] /\ (o = IcmpSendOut m \/ o = IcmpErrorOut m) /\
    icmp_type m = type /\ icmp_encapsulated m = Some (DatagramPacket d) /\
    IPAddress.isMulticast (destAddress d) = false /\ ~ carries_error d /\
    forall ctrl s1 d2 ie s2 d3 type' code' s3, o = IcmpSendOut m ->
      icmp_control m = Some (IPControl ctrl) ->
      encapsulate (with_control None (ICMPPacket m)) ctrl s1 = Ok (d2, ie) s2 ->
      transportProtocol d3 = transportProtocol d2 -> encapsulated d3 = encapsulated d2 ->
      ICMP.sendErrorMessage d3 type' code' (s3 : IP) = Ok tt s3.
Proof.
  intros Hty Hrun. assert (type < 128) as Hlt.
  { apply error_type_cases in Hty as [-> |[-> |[-> | -> ]]]; done. }
  match goal with |- ?G => assert (~ carries_error d -> IPAddress.isMulticast (destAddress d) = false ->
    ICMP.report_error d type code s = Ok tt s' -> G) as Hreport end;
    [|revert Hrun; unfold ICMP.sendErrorMessage; destruct (IPAddress.isMulticast _) eqn:Hmc].
  - intros Hne Hmc Hr. right. destruct (report_error_outputs _ _ _ _ _ Hty Hr)
      as (m & o & Ho & Hkind & Ht & Henc & Hctrl).
    exists m, o. split_and!; [done..|].
    intros ctrl s2 d2 ie s3 d3 ty' c' s4 Hsend Hc Hd2 Hp3 He3. destruct (Hctrl Hsend) as (c & Hc' & _ & Hp).
    rewrite Hc in Hc'. injection Hc' as <-. apply encapsulate_result in Hd2 as [Hp2 He2].
    apply sendError_about_error. split; [congruence|]. eexists. split; [by rewrite He3, He2|]. by rewrite <- Ht in Hlt.
  - intros [= <-]. by left.
  - destruct (Z.eqb_spec (transportProtocol d) IP_PROT_ICMP) as [Hp|Hp].
    + intros (m & s1 & Hm & Hif)%bind_inv. unfold cast_ICMPMessage in Hm.
      destruct (encapsulated d) as [[]|] eqn:Henc; try done. injection Hm as <- <-.
      destruct (Z.ltb_spec (icmp_type m0) 128) as [Hlt'|Hge]; [injection Hif as <-; by left|].
      apply Hreport; [|done|done]. intros (_ & m' & Hm' & Hlt'). rewrite Henc in Hm'. simplify_eq. lia.
    + intros Hr. apply Hreport; [|done|done]. by intros [? _].
Qed.
End Errors.
