(* ===== verification/IPDemo.v ===== *)
(** * The theorems on IP at work

    A router with a loopback, an Ethernet and a PPP interface and two routes; each
    theorem of [IPSpec], [IPForwardSpec] and [IPSafety] is applied to datagrams that
    pass through it. *)
From Stdlib Require Import String SpecFloat.
From S2P Require Import Prelude IPAddress IPAddressSpec MACAddress MachineFloat InterfaceTable RoutingTable RoutingSpec ReassemblyBuffer IPDatagram ICMP IPFragBuf IP IPSpec IPForwardSpec IPSafety.

Section Demo.
Import IPAddress.

Local Instance keep_gate : PacketCopy := fun g => g.

Definition demo_data (a m : Z) : option IPv4InterfaceData :=
  Some {| inetAddr := a; ifNetmask := m; ifMetric := 1; multicastGroups := [] |}.
Definition lo0 : InterfaceEntry :=
  InterfaceEntry_new <| ie_name := "lo0" |> <| interfaceId := 100 |> <| mtu := 3924 |> <| loopback := true |>
    <| ipv4data := demo_data LOOPBACK_ADDRESS LOOPBACK_NETMASK |>.
Definition eth0 : InterfaceEntry :=
  InterfaceEntry_new <| ie_name := "eth0" |> <| interfaceId := 101 |> <| nwLayerGateIndex := 0 |>
    <| mtu := 1500 |> <| broadcast := true |> <| ipv4data := demo_data (set4 192 168 1 1) (set4 255 255 255 0) |>.
Definition ppp0 : InterfaceEntry :=
  InterfaceEntry_new <| ie_name := "ppp0" |> <| interfaceId := 102 |> <| nwLayerGateIndex := 1 |>
    <| mtu := 1000 |> <| ipv4data := demo_data (set4 10 0 0 1) (set4 255 255 255 255) |>.
Definition demo_ift : InterfaceTable.t :=
  {| InterfaceTable.idToInterface := [Some lo0; Some eth0; Some ppp0];
     InterfaceTable.tmpNumInterfaces := -1; InterfaceTable.tmpInterfaceList := None |}.

Definition lan_route : IPRoute :=
  IPRoute_new <| host := set4 192 168 1 0 |> <| netmask := set4 255 255 255 0 |> <| interfacePtr := Some 101 |>.
Definition wan_route : IPRoute :=
  IPRoute_new <| host := set4 10 0 0 0 |> <| netmask := set4 255 0 0 0 |> <| interfacePtr := Some 102 |>
    <| gateway := set4 10 0 0 2 |>.

Definition demo_start : Node :=
  {| ift := demo_ift; rt := RoutingTable_new true; clock := 0; fired := [] |}.
Definition demo_router : Node := demo_after (addRoute wan_route) (demo_after (addRoute lan_route) demo_start).

Definition demo_ip : IP :=
  {| node := demo_router; transportOutOK := fun _ => true; ticksPerSecond := 1000000000; manetRouting := false;
     defaultTimeToLive := 32; defaultMCTimeToLive := 32; fragmentTimeoutTime := 60000000000;
     mapping := [ProtocolMapping.mkEntry 6 0; ProtocolMapping.mkEntry 17 1]; curFragmentId := 0; fragbuf := ∅;
     lastCheckTime := 0; numMulticast := 0; numLocalDeliver := 0; numDropped := 0; numUnroutable := 0;
     numForwarded := 0; outbox := [] |}.

Lemma demo_inv : rt_inv (node demo_ip).
Proof.
  apply (table_history_inv demo_start); [by exists true|].
  apply rtc_l with (demo_after (addRoute lan_route) demo_start);
    [apply (step_add _ _ lan_route 1); [done|reflexivity]|].
  apply rtc_once. apply (step_add _ _ wan_route 2); [done|reflexivity].
Defined.

(** A UDP datagram with [len] bytes of payload. *)
Definition demo_datagram (dst len ttl : Z) : IPDatagram :=
  IPDatagram_new <| srcAddress := set4 192 168 1 7 |> <| destAddress := dst |> <| transportProtocol := IP_PROT_UDP |>
    <| timeToLive := ttl |> <| identification := 5 |> <| byteLength := 20 + len |>
    <| encapsulated := Some (TransportPacket true 1 len None) |>.

Definition big : IPDatagram := demo_datagram (set4 192 168 1 9) 3000 30.
Definition big_frag (j : nat) : IPDatagram := fragment big 1500 3 (Z.of_nat j).


(** The second fragment is cut again on the way over the PPP link. *)
Lemma refragmentation_misplaces_witness :
  exists pieces, fragmentAndSend (big_frag 1) (Some 102) 0 demo_ip =
      Ok tt (add_outputs (link_output ppp0 0 <$> pieces) demo_ip) /\
    pieces <> [] /\ Forall (fun g => range_end g <= 1480) pieces.
Proof.
  apply (refragmentation_misplaces demo_ip big 1500 3 1 (big_frag 1) (Some 102) ppp0 0 2);
    [unfold right_count; vm_compute; repeat split; congruence|lia|vm_compute; split; congruence
    |vm_compute; reflexivity|reflexivity|reflexivity|vm_compute; reflexivity|reflexivity
    |vm_compute; reflexivity|vm_compute; reflexivity|unfold right_count; vm_compute; repeat split; congruence].
Defined.

Definition demo_ds : list IPv4InterfaceData := omap ipv4data [lo0; eth0; ppp0].

(** A ping of 192.168.1.255 from the network disappears. *)
Lemma directed_broadcast_lost_witness :
  exists n', routePacket (demo_datagram (set4 192 168 1 255) 100 30) None false None demo_ip =
    Ok tt (demo_ip <| node := n' |>) /\ same_routes demo_router n'.
Proof.
  apply (directed_broadcast_lost demo_ip (demo_datagram (set4 192 168 1 255) 100 30) demo_ds None false None);
    [reflexivity|by left|by left|reflexivity
    |apply (bool_decide_unpack _); vm_compute; exact I|apply (bool_decide_unpack _); vm_compute; exact I
    |vm_compute; congruence].
Defined.


(** A datagram whose time to live is one. *)
Lemma ttl_decreases_witness :
  exists s', handlePacketFromNetwork false (demo_datagram (set4 10 9 9 9) 100 1) demo_ip = Ok tt s' /\
    Forall upward (outbox s').
Proof.
  assert (exists s', handlePacketFromNetwork false (demo_datagram (set4 10 9 9 9) 100 1) demo_ip = Ok tt s')
    as [s' Hrun] by (eexists; vm_compute; reflexivity).
  exists s'. split; [exact Hrun|].
  destruct (ttl_decreases false (demo_datagram (set4 10 9 9 9) 100 1) demo_ip s') as (os & Ho & _ & Hup);
    [vm_compute; split; congruence|exact Hrun|].
  rewrite Ho. apply Hup. vm_compute. congruence.
Defined.

Definition late : IPDatagram := demo_datagram (set4 10 9 9 9) 100 1.

Lemma errors_do_not_breed_witness :
  exists s', ICMP.sendErrorMessage late ICMP_TIME_EXCEEDED 0 demo_ip = Ok tt s' /\
    (outbox s' = outbox demo_ip \/ exists o, outbox s' = outbox demo_ip ++ [o]).
Proof.
  assert (ICMP.sendErrorMessage late ICMP_TIME_EXCEEDED 0 demo_ip =
    Ok tt (add_outputs [IcmpSendOut (error_to_source late ICMP_TIME_EXCEEDED 0)] demo_ip)) as Hrun
    by (apply sendErrorMessage_run; vm_compute; congruence).
  eexists. split; [exact Hrun|].
  destruct (errors_do_not_breed late ICMP_TIME_EXCEEDED 0 demo_ip _
              ltac:(apply (bool_decide_unpack _); vm_compute; exact I) Hrun) as [Hno|(m & o & Ho & _)].
  - left. exact Hno.
  - right. exists o. exact Ho.
Defined.

(** On a PPP link with its default MTU, a datagram with 13350 bytes of payload is
    cut into four fragments although three suffice: the last one is empty. *)
Lemma ppp_empty_fragment :
  noOfFragments 13350 4470 20 = Some 4 /\ 13350 = 3 * (4470 - 20) /\
  byteLength (fragment (demo_datagram (set4 10 9 9 9) 13350 30) 4470 4 3) = 20.
Proof. vm_compute. repeat split. Qed.
End Demo.
