(* ===== verification/ARP.v ===== *)
(** * ARP

    [networklayer/arp/ARP.h], [ARP.cc].  A cache entry is owned by the map, and the
    timer of an entry points back to it, so both are reached by the address they
    belong to.  A waiting packet is known by the number it got on arrival, its
    pointer in the code: [pendingQueue] and the vectors of the entries hold the same
    packets. *)
From Stdlib Require Import String SpecFloat.
From S2P Require Import Prelude IPAddress MACAddress MachineFloat InterfaceTable RoutingTable IPDatagram.

Module ARP.
Record Msg : Type := mkMsg { msg_id : Z; pkt : Packet }.

Record ARPCacheEntry : Type := mkEntry {
  ie : option Z;
  pending : bool;
  macAddress : MACAddress.t;
  lastUpdate : Z;
  numRetries : Z;
  pendingPackets : list Msg
}.
#[global] Instance eta_ARPCacheEntry : Eta ARPCacheEntry := fun e =>
  {| ie := ie e; pending := pending e; macAddress := macAddress e; lastUpdate := lastUpdate e;
     numRetries := numRetries e; pendingPackets := pendingPackets e |}.

Definition new_entry (i : option Z) : ARPCacheEntry :=
  {| ie := i; pending := false; macAddress := MACAddress.UNSPECIFIED_ADDRESS; lastUpdate := 0;
     numRetries := 0; pendingPackets := [] |}.

(** [timers]: the scheduled timeouts, by the address of the entry. *)
Record t : Type := mk {
  host : Node;
  retryTimeout : Z;
  retryCount : Z;
  cacheTimeout : Z;
  doProxyARP : bool;
  globalARP : bool;
  numResolutions : Z;
  numFailedResolutions : Z;
  numRequestsSent : Z;
  numRepliesSent : Z;
  arpCache : gmap Z ARPCacheEntry;
  globalArpCache : gmap Z MACAddress.t;
  pendingQueue : list Msg;
  timers : gmap Z Z;
  nextMsg : Z;
  sent : list Output
}.
#[global] Instance eta : Eta t := fun s =>
  {| host := host s; retryTimeout := retryTimeout s; retryCount := retryCount s; cacheTimeout := cacheTimeout s;
     doProxyARP := doProxyARP s; globalARP := globalARP s; numResolutions := numResolutions s;
     numFailedResolutions := numFailedResolutions s; numRequestsSent := numRequestsSent s;
     numRepliesSent := numRepliesSent s; arpCache := arpCache s; globalArpCache := globalArpCache s;
     pendingQueue := pendingQueue s; timers := timers s; nextMsg := nextMsg s; sent := sent s |}.
#[global] Instance sends : Sends t := fun o s => s <| sent := sent s ++ [o] |>.

Definition simTime : Eff t Z := gets (fun s => clock (host s)).
Definition on_host {A} (m : Eff Node A) : Eff t A := fun s =>
  match m (host s) with Ok a n => Ok a (s <| host := n |>) | Err e => Err e end.

Definition interface_ptr (i : option Z) : Eff t InterfaceEntry :=
  let! x := gets (fun s => ift (host s)) in
  match i with
  | Some i => match InterfaceTable.getInterfaceById i x with
              | Some e => ret e
              | None => fail (NullPointer "ie")
              end
  | None => fail (NullPointer "ie")
  end.

Definition entry_at (a : IPAddress.t) : Eff t ARPCacheEntry :=
  let! c := gets arpCache in
  match c !! a with
  | Some e => ret e
  | None => fail (NullPointer "entry")
  end.
Definition put_entry (a : IPAddress.t) (e : ARPCacheEntry) : Eff t unit :=
  modify (fun s => s <| arpCache := <[a := e]> (arpCache s) |>).

(** ** Sending *)
Definition sendPacketToNIC (msg : Packet) (i : option Z) (mac : MACAddress.t) : Eff t unit :=
  let! msg := setControlInfo (Ieee802Ctrl mac) msg in
  let! e := interface_ptr i in
  send (IfOut (nwLayerGateIndex e) msg).

Definition sendARPRequest (i : option Z) (ipAddress : IPAddress.t) : Eff t unit :=
  let! e := interface_ptr i in
  let! d := ipv4Data e in
  assert_ "!myMACAddress.isUnspecified()" (negb (MACAddress.isUnspecified (macAddr e))) ;;;
  assert_ "!myIPAddress.isUnspecified()" (negb (IPAddress.isUnspecified (inetAddr d))) ;;;
  sendPacketToNIC (ARPPkt {| opcode := ARP_REQUEST; srcMACAddress := macAddr e;
                             destMACAddress := MACAddress.UNSPECIFIED_ADDRESS;
                             srcIPAddress := inetAddr d; destIPAddress := ipAddress |} None None)
    i MACAddress.BROADCAST_ADDRESS ;;;
  modify (fun s => s <| numRequestsSent := numRequestsSent s + 1 |>).

Definition schedule (a : IPAddress.t) : Eff t unit :=
  let! now := simTime in
  modify (fun s => s <| timers := <[a := now + retryTimeout s]> (timers s) |>).

Definition initiateARPResolution (a : IPAddress.t) : Eff t unit :=
  let! entry := entry_at a in
  put_entry a (entry <| pending := true |> <| numRetries := 0 |> <| lastUpdate := 0 |>) ;;;
  sendARPRequest (ie entry) a ;;;
  schedule a ;;;
  modify (fun s => s <| numResolutions := numResolutions s + 1 |>).

(** ** Packets from IP *)
Definition queue_up (a : IPAddress.t) (msg : Msg) : Eff t unit :=
  let! entry := entry_at a in
  put_entry a (entry <| pendingPackets := pendingPackets entry ++ [msg] |>) ;;;
  modify (fun s => s <| pendingQueue := pendingQueue s ++ [msg] |>).

(** Which address to look up: the next hop, or the destination. *)
Definition resolve_target (msg : Packet) (nextHopAddr : IPAddress.t) : Eff t IPAddress.t :=
  if negb (IPAddress.isUnspecified nextHopAddr) then ret nextHopAddr
  else let! d := cast_IPDatagram (Some msg) in ret (destAddress d).

Definition goes_to_all (e : InterfaceEntry) (a : IPAddress.t) : Eff t bool :=
  if IPAddress.isMulticast a || IPAddress.equals a IPAddress.ALLONES_ADDRESS then ret true
  else
    let! d := ipv4Data e in
    ret (IPAddress.equals a (IPAddress.getBroadcastAddress (inetAddr d) (ifNetmask d))).

(** The part that uses the cache. *)
Definition resolve (msg : Packet) (i : Z) (a : IPAddress.t) : Eff t unit :=
  let! now := simTime in
  let! s := gets id in
  let m := mkMsg (nextMsg s) msg in
  modify (fun s => s <| nextMsg := nextMsg s + 1 |>) ;;;
  match arpCache s !! a with
  | None =>
      put_entry a (new_entry (Some i)) ;;;
      initiateARPResolution a ;;;
      queue_up a m
  | Some entry =>
      if pending entry then queue_up a m
      else if lastUpdate entry + cacheTimeout s <? now then
        put_entry a (entry <| ie := Some i |>) ;;;
        initiateARPResolution a ;;;
        queue_up a m
      else sendPacketToNIC msg (Some i) (macAddress entry)
  end.

Definition processOutboundPacket (msg : Packet) : Eff t unit :=
  let! ctrl := cast_RoutingDecision (getControlInfo msg) in
  let msg := with_control None msg in
  let! x := gets (fun s => ift (host s)) in
  match InterfaceTable.getInterfaceById (fst ctrl) x with
  | None => fail (NullPointer "ie->isBroadcast()")
  | Some e =>
      if negb (broadcast e) then send (IfOut (nwLayerGateIndex e) msg)
      else
        let! a := resolve_target msg (snd ctrl) in
        let! all := goes_to_all e a in
        if all then sendPacketToNIC msg (Some (interfaceId e)) MACAddress.BROADCAST_ADDRESS
        else
          let! s := gets id in
          if globalARP s then
            match globalArpCache s !! a with
            | None => fail (RuntimeError "Addres not found in global")
            | Some mac => sendPacketToNIC msg (Some (interfaceId e)) mac
            end
          else resolve msg (interfaceId e) a
  end.

(** ** Timeouts *)
Definition remove_msg (m : Msg) : list Msg -> list Msg :=
  fix go l := match l with
              | [] => []
              | x :: rest => if msg_id x =? msg_id m then rest else x :: go rest
              end.
Definition take_from_queue (m : Msg) : Eff t unit :=
  modify (fun s => s <| pendingQueue := remove_msg m (pendingQueue s) |>).

Definition requestTimedOut (a : IPAddress.t) : Eff t unit :=
  modify (fun s => s <| timers := delete a (timers s) |>) ;;;
  let! entry := entry_at a in
  let retries := i32 (numRetries entry + 1) in
  put_entry a (entry <| numRetries := retries |>) ;;;
  let! s := gets id in
  if retries <? retryCount s then
    sendARPRequest (ie entry) a ;;; schedule a
  else
    let! _ := mapE take_from_queue (pendingPackets entry) in
    modify (fun s => s <| arpCache := delete a (arpCache s) |>) ;;;
    modify (fun s => s <| numFailedResolutions := numFailedResolutions s + 1 |>).

(** ** ARP packets *)
Definition addressRecognized (destAddr : IPAddress.t) (i : option Z) : Eff t bool :=
  let! isLocal := on_host (isLocalAddress destAddr) in
  if isLocal then ret true
  else
    let! proxy := gets doProxyARP in
    if negb proxy then ret false
    else
      let! rtie := on_host (getInterfaceForDestAddr destAddr) in
      ret (match rtie with Some _ => negb (bool_decide (rtie = i)) | None => false end).

Definition send_waiting (i : option Z) (mac : MACAddress.t) (m : Msg) : Eff t unit :=
  take_from_queue m ;;; sendPacketToNIC (pkt m) i mac.

(** Sends the packets that wait for the address. *)
Definition updateARPCache (a : IPAddress.t) (mac : MACAddress.t) : Eff t unit :=
  let! entry := entry_at a in
  let! now := simTime in
  when (pending entry) (modify (fun s => s <| timers := delete a (timers s) |>)) ;;;
  put_entry a (entry <| pending := false |>
                     <| numRetries := if pending entry then 0 else numRetries entry |>
                     <| macAddress := mac |> <| lastUpdate := now |> <| pendingPackets := [] |>) ;;;
  let! _ := mapE (send_waiting (ie entry) mac) (pendingPackets entry) in
  ret tt.

Definition answer (arp : ARPPacket) (i : option Z) : Eff t unit :=
  if opcode arp =? ARP_REQUEST then
    let! e := interface_ptr i in
    let! d := ipv4Data e in
    sendPacketToNIC (ARPPkt (arp <| destIPAddress := srcIPAddress arp |> <| destMACAddress := srcMACAddress arp |>
                               <| srcIPAddress := destIPAddress arp |> <| srcMACAddress := macAddr e |>
                               <| opcode := ARP_REPLY |>) None None) i (srcMACAddress arp) ;;;
    modify (fun s => s <| numRepliesSent := numRepliesSent s + 1 |>)
  else if opcode arp =? ARP_REPLY then ret tt
  else fail (RuntimeError "Unsupported opcode in received ARP packet").

Definition processARPPacket (arp : ARPPacket) (ctrl : option Control) : Eff t unit :=
  let! c := cast_RoutingDecision ctrl in
  let! x := gets (fun s => ift (host s)) in
  let i := interfaceId <$> InterfaceTable.getInterfaceById (fst c) x in
  if MACAddress.isUnspecified (srcMACAddress arp)
  then fail (RuntimeError "wrong ARP packet: source MAC address is empty") else
  if IPAddress.isUnspecified (srcIPAddress arp)
  then fail (RuntimeError "wrong ARP packet: source IP address is empty") else
  let! cache := gets arpCache in
  let mergeFlag := match cache !! srcIPAddress arp with Some _ => true | None => false end in
  when mergeFlag (updateARPCache (srcIPAddress arp) (srcMACAddress arp)) ;;;
  let! recognized := addressRecognized (destIPAddress arp) i in
  if recognized then
    when (negb mergeFlag)
      (put_entry (srcIPAddress arp) (new_entry i) ;;;
       updateARPCache (srcIPAddress arp) (srcMACAddress arp)) ;;;
    answer arp i
  else ret tt.

(** ** The module *)
(** What arrives: the timeout of an address, or a message. *)
Inductive Event : Type :=
| Timeout (a : IPAddress.t)
| Arrives (p : Packet).

Definition handleMessage (ev : Event) : Eff t unit :=
  match ev with
  | Timeout a => requestTimedOut a
  | Arrives (ARPPkt arp _ ctrl) => processARPPacket arp ctrl
  | Arrives p => processOutboundPacket p
  end.

(** [initialize], stage 4: the addresses of the node are made known to all. *)
Definition add_global (e : InterfaceEntry) (g : gmap Z MACAddress.t) : Eff t (gmap Z MACAddress.t) :=
  if loopback e then ret g
  else let! d := ipv4Data e in
       ret (match g !! inetAddr d with Some _ => g | None => <[inetAddr d := macAddr e]> g end).
Fixpoint add_globals (l : list InterfaceEntry) (g : gmap Z MACAddress.t) : Eff t (gmap Z MACAddress.t) :=
  match l with
  | [] => ret g
  | e :: rest => let! g := add_global e g in add_globals rest g
  end.
Definition initialize : Eff t unit :=
  let! s := gets id in
  let! g := add_globals (InterfaceTable.interfaces (ift (host s))) (globalArpCache s) in
  modify (fun s => s <| globalArpCache := g |> <| numRequestsSent := 0 |> <| numRepliesSent := 0 |>
                     <| numResolutions := 0 |> <| numFailedResolutions := 0 |>).
End ARP.
