(* ===== verification/ARPSpec.v ===== *)
(** * Address resolution

    An invariant of the cache, the timers and the waiting packets that every event
    keeps; what a reply does; when a resolution is given up. *)
From Stdlib Require Import String SpecFloat.
From S2P Require Import Prelude IPAddress MACAddress MachineFloat InterfaceTable RoutingTable RoutingSpec IPDatagram IPForwardSpec ARP Frames.
Import ARP.

(** ** Operations that do not touch the cache *)
Definition core (s : ARP.t) := (arpCache s, timers s, pendingQueue s, nextMsg s, retryCount s).

Local Notation keeps := (frames core).

Lemma keeps_on_host {A} (m : Eff Node A) : keeps (on_host m).
Proof. intros s a s'. unfold on_host. destruct (m (host s)); [|done]. by intros [= <- <-]. Qed.
Lemma keeps_send o : keeps (send o).
Proof. by intros s a s' [= <- <-]. Qed.
#[export] Hint Resolve keeps_on_host keeps_send : frames.

Lemma keeps_interface_ptr i : keeps (interface_ptr i).
Proof. unfold interface_ptr. frames_walk. Qed.
Lemma keeps_entry_at a : keeps (entry_at a).
Proof. unfold entry_at. frames_walk. Qed.
Lemma keeps_setControl c p : keeps (setControlInfo c p).
Proof. unfold setControlInfo. frames_walk. Qed.
Lemma keeps_ipv4Data e : keeps (ipv4Data e).
Proof. unfold ipv4Data. frames_walk. Qed.
Lemma keeps_cast c : keeps (cast_RoutingDecision c).
Proof. unfold cast_RoutingDecision. frames_walk. Qed.
Lemma keeps_cast_datagram p : keeps (cast_IPDatagram p).
Proof. unfold cast_IPDatagram. frames_walk. Qed.
#[export] Hint Resolve keeps_interface_ptr keeps_entry_at keeps_setControl keeps_ipv4Data keeps_cast
  keeps_cast_datagram : frames.
Lemma keeps_toNIC p i m : keeps (sendPacketToNIC p i m).
Proof. unfold sendPacketToNIC. frames_walk. Qed.
#[export] Hint Resolve keeps_toNIC : frames.
Lemma keeps_request i a : keeps (sendARPRequest i a).
Proof. unfold sendARPRequest. frames_walk. Qed.
Lemma keeps_recognized a i : keeps (addressRecognized a i).
Proof. unfold addressRecognized. frames_walk. Qed.
Lemma keeps_answer a i : keeps (answer a i).
Proof. unfold answer. frames_walk. Qed.
Lemma keeps_target p a : keeps (resolve_target p a).
Proof. unfold resolve_target. frames_walk. Qed.
Lemma keeps_all e a : keeps (goes_to_all e a).
Proof. unfold goes_to_all. frames_walk. Qed.
#[export] Hint Resolve keeps_request keeps_recognized keeps_answer keeps_target keeps_all : frames.

(** ** The invariant *)
(** All waiting packets. *)
Definition waiting (c : gmap Z ARPCacheEntry) : list Msg := map_to_list c ≫= (fun p => pendingPackets (snd p)).

Record entry_ok (s : ARP.t) (a : Z) (e : ARPCacheEntry) : Prop := {
  eo_timer : pending e = true <-> is_Some (timers s !! a);
  eo_idle : pending e = false -> pendingPackets e = [];
  eo_retries : pending e = true -> 0 <= numRetries e /\ (numRetries e = 0 \/ numRetries e < retryCount s)
}.

Record arp_inv (s : ARP.t) : Prop := {
  ai_entry : forall a e, arpCache s !! a = Some e -> entry_ok s a e;
  ai_timer : forall a, is_Some (timers s !! a) -> is_Some (arpCache s !! a);
  ai_queue : pendingQueue s ≡ₚ waiting (arpCache s);
  ai_nodup : NoDup (msg_id <$> pendingQueue s);
  ai_fresh : Forall (fun m => msg_id m < nextMsg s) (pendingQueue s);
  ai_control : Forall (fun m => getControlInfo (pkt m) = None) (pendingQueue s);
  ai_count : retryCount s < 2147483648
}.

Lemma core_inv s s' : core s' = core s -> arp_inv s -> arp_inv s'.
Proof.
  intros [= Hc Ht Hq Hn Hr] [H1 H2 H3 H4 H5 H6 H7].
  split; rewrite ?Hc, ?Ht, ?Hq, ?Hn, ?Hr; try done.
  intros a e He. destruct (H1 a e He) as [? ? ?]. split; by rewrite ?Ht, ?Hr.
Qed.

Lemma waiting_delete c a e : c !! a = Some e -> waiting c ≡ₚ pendingPackets e ++ waiting (delete a c).
Proof.
  intros He. unfold waiting. rewrite <- (map_to_list_delete c a e He). done.
Qed.

Lemma waiting_insert c a e : waiting (<[a := e]> c) ≡ₚ pendingPackets e ++ waiting (delete a c).
Proof.
  rewrite (waiting_delete (<[a := e]> c) a e) by apply lookup_insert_eq. by rewrite delete_insert_eq.
Qed.

Lemma remove_msg_perm m l l' :
  NoDup (msg_id <$> l) -> l ≡ₚ m :: l' -> remove_msg m l ≡ₚ l'.
Proof.
  intros Hnd Hp. assert (m ∈ l) as Hin by (rewrite Hp; set_solver).
  assert (l ≡ₚ m :: remove_msg m l) as Hr.
  { clear Hp l'. induction l as [|x l IH]; [set_solver|]. cbn [remove_msg]. cbn in Hnd.
    apply NoDup_cons in Hnd as [Hx Hnd]. fold (remove_msg m l).
    destruct (Z.eqb_spec (msg_id x) (msg_id m)) as [Heq|Hne].
    - apply elem_of_cons in Hin as [->|Hin]; [done|]. destruct Hx. rewrite Heq. apply list_elem_of_fmap. by exists m.
    - apply elem_of_cons in Hin as [->|Hin]; [done|]. rewrite (IH Hnd Hin) at 1. by rewrite Permutation_swap. }
  apply (Permutation_cons_inv (a := m)). by rewrite <- Hr.
Qed.

Record queue_ok (next : Z) (q : list Msg) : Prop := {
  qo_nodup : NoDup (msg_id <$> q);
  qo_fresh : Forall (fun m => msg_id m < next) q;
  qo_control : Forall (fun m => getControlInfo (pkt m) = None) q
}.

Lemma inv_queue s : arp_inv s -> queue_ok (nextMsg s) (pendingQueue s).
Proof. by intros [_ _ _ ? ? ? _]. Qed.

Lemma queue_ok_rest next q l rest : q ≡ₚ l ++ rest -> queue_ok next q -> queue_ok next rest.
Proof.
  intros Hp [Hn Hf Hc]. rewrite Hp in Hn, Hf, Hc. rewrite fmap_app in Hn.
  apply NoDup_app in Hn as (_ & _ & Hn). apply Forall_app in Hf as [_ Hf]. by apply Forall_app in Hc as [_ Hc].
Qed.

Lemma queue_ok_push next q m :
  queue_ok next q -> Forall (fun x => msg_id x < msg_id m) q -> msg_id m < next ->
  getControlInfo (pkt m) = None -> queue_ok next (q ++ [m]).
Proof.
  intros [Hn Hf Hc] Hm Hnext Hctl. split.
  - rewrite fmap_app. apply NoDup_app. split_and!; [done| |apply NoDup_singleton].
    intros x (y & -> & Hy)%list_elem_of_fmap Hx. cbn in Hx. apply list_elem_of_singleton in Hx.
    rewrite Forall_forall in Hm. specialize (Hm _ Hy). lia.
  - apply Forall_app. split; [done|]. by constructor.
  - apply Forall_app. split; [done|]. by constructor.
Qed.

(** The invariant after a change of the entry of one address. *)
Lemma inv_update s s' a :
  arp_inv s ->
  (forall b, b <> a -> arpCache s' !! b = arpCache s !! b /\ timers s' !! b = timers s !! b) ->
  retryCount s' = retryCount s ->
  match arpCache s' !! a with Some e => entry_ok s' a e | None => timers s' !! a = None end ->
  pendingQueue s' ≡ₚ waiting (arpCache s') -> queue_ok (nextMsg s') (pendingQueue s') -> arp_inv s'.
Proof.
  intros [H1 H2 _ _ _ _ H7] Hother Hr Ha Hq [Hn Hf Hc]. split; [| |done..|by rewrite Hr].
  - intros b e He. destruct (decide (b = a)) as [->|Hne]; [by rewrite He in Ha|].
    destruct (Hother b Hne) as [Hcb Htb]. rewrite Hcb in He. destruct (H1 b e He) as [? ? ?].
    split; by rewrite ?Htb, ?Hr.
  - intros b Hb. destruct (decide (b = a)) as [->|Hne].
    + destruct (arpCache s' !! a); [done|]. rewrite Ha in Hb. by destruct Hb.
    + destruct (Hother b Hne) as [Hcb Htb]. rewrite Htb in Hb. rewrite Hcb. by apply H2.
Qed.

Lemma entry_at_run s a e : arpCache s !! a = Some e -> entry_at a s = Ok e s.
Proof. unfold entry_at, bind, gets. by intros ->. Qed.

(** ** Queueing a packet *)
Lemma queue_up_run s a e m :
  arpCache s !! a = Some e ->
  queue_up a m s = Ok tt (s <| arpCache := <[a := e <| pendingPackets := pendingPackets e ++ [m] |>]> (arpCache s) |>
                            <| pendingQueue := pendingQueue s ++ [m] |>).
Proof. intros He. unfold queue_up. by rewrite (bind_ok _ _ _ _ _ (entry_at_run _ _ _ He)). Qed.

Lemma queue_up_inv s a e m s' u :
  arp_inv s -> Forall (fun x => msg_id x < msg_id m) (pendingQueue s) -> msg_id m < nextMsg s ->
  getControlInfo (pkt m) = None ->
  arpCache s !! a = Some e -> pending e = true -> queue_up a m s = Ok u s' -> arp_inv s'.
Proof.
  intros Hinv Hm Hnext Hc He Hp. rewrite (queue_up_run s a e m He). intros [= <- <-].
  destruct (ai_entry _ Hinv a e He) as [Ht _ Hr].
  eapply (inv_update _ _ a Hinv).
  - intros b Hne. cbn. by rewrite lookup_insert_ne.
  - done.
  - cbn. rewrite lookup_insert_eq. split; cbn; [done|congruence|done].
  - cbn. rewrite waiting_insert. cbn. rewrite (ai_queue _ Hinv).
    rewrite (waiting_delete (arpCache s) a e He). rewrite <- !app_assoc. apply Permutation_app_head, Permutation_app_comm.
  - cbn. by apply queue_ok_push; [apply inv_queue|..].
Qed.

(** ** Starting a resolution *)
Lemma core_eq s s' : core s' = core s ->
  arpCache s' = arpCache s /\ timers s' = timers s /\ pendingQueue s' = pendingQueue s /\
  nextMsg s' = nextMsg s /\ retryCount s' = retryCount s.
Proof. by intros [= -> -> -> -> ->]. Qed.

Lemma initiate_inv s a e u s' :
  arp_inv s -> arpCache s !! a = Some e -> pending e = false -> initiateARPResolution a s = Ok u s' ->
  arp_inv s' /\ nextMsg s' = nextMsg s /\ pendingQueue s' = pendingQueue s /\
  exists e', arpCache s' !! a = Some e' /\ pending e' = true.
Proof.
  intros Hinv He Hp. unfold initiateARPResolution. rewrite (bind_ok _ _ _ _ _ (entry_at_run _ _ _ He)).
  unfold put_entry. rewrite (bind_ok (modify _) _ s tt _ eq_refl). set (s1 := s <| arpCache := _ |>).
  intros ([] & s2 & H2 & ([] & s3 & H3 & H4)%bind_inv)%bind_inv. apply keeps_request, core_eq in H2 as (Hc & Ht & Hq & Hn & Hr).
  unfold schedule, simTime, bind, gets, modify in H3. injection H3 as <-. injection H4 as <- <-.
  pose proof (ai_entry _ Hinv a e He) as [_ Hidle _].
  split; [|split; [done|split; [done|]]].
  - eapply (inv_update _ _ a Hinv).
    + intros b Hne. cbn. rewrite Hc, Ht. cbn. by rewrite !lookup_insert_ne.
    + done.
    + cbn. rewrite Hc. cbn. rewrite lookup_insert_eq. split; cbn; [|done|lia].
      rewrite lookup_insert_eq. split; [by eexists|done].
    + cbn. rewrite Hc, Hq. cbn. rewrite waiting_insert. cbn. rewrite (ai_queue _ Hinv). by apply waiting_delete.
    + cbn. rewrite Hn, Hq. exact (inv_queue _ Hinv).
  - cbn. rewrite Hc. cbn. rewrite lookup_insert_eq. by eexists.
Qed.

(** ** Emptying an entry *)
(** Each step of the loop takes its packet from the queue and changes nothing else
    of the core. *)
Lemma take_all (f : Msg -> Eff ARP.t unit) l rest s us s' :
  (forall m s u s', f m s = Ok u s' -> core s' = core (s <| pendingQueue := remove_msg m (pendingQueue s) |>)) ->
  pendingQueue s ≡ₚ l ++ rest -> NoDup (msg_id <$> pendingQueue s) -> mapE f l s = Ok us s' ->
  pendingQueue s' ≡ₚ rest /\ arpCache s' = arpCache s /\ timers s' = timers s /\
  nextMsg s' = nextMsg s /\ retryCount s' = retryCount s.
Proof.
  intros Hf. revert s us. induction l as [|m l IH]; intros s us Hq Hnd; cbn [mapE].
  { intros [= <- <-]. done. }
  intros (u & s1 & H1 & (us' & s2 & H2 & H3)%bind_inv)%bind_inv. injection H3 as <- <-.
  apply Hf, core_eq in H1 as (Hc & Ht & Hq1 & Hn & Hr). cbn in Hc, Ht, Hq1, Hn, Hr.
  pose proof (remove_msg_perm m _ (l ++ rest) Hnd Hq) as Hp.
  destruct (IH s1 us') as (Hq2 & Hc2 & Ht2 & Hn2 & Hr2); [by rewrite Hq1| |done|].
  - rewrite Hq1, Hp. rewrite Hq in Hnd. cbn in Hnd. by apply NoDup_cons in Hnd as [_ Hnd].
  - split_and!; congruence.
Qed.

Lemma take_core m s u s' :
  take_from_queue m s = Ok u s' -> core s' = core (s <| pendingQueue := remove_msg m (pendingQueue s) |>).
Proof. by intros [= <- <-]. Qed.

Lemma send_waiting_core i mac m s u s' :
  send_waiting i mac m s = Ok u s' -> core s' = core (s <| pendingQueue := remove_msg m (pendingQueue s) |>).
Proof.
  unfold send_waiting. intros ([] & s1 & H1 & H2)%bind_inv. apply take_core in H1. apply keeps_toNIC in H2. congruence.
Qed.

(** ** Every event keeps the invariant *)
Lemma timeout_inv s a u s' :
  arp_inv s -> is_Some (timers s !! a) -> requestTimedOut a s = Ok u s' -> arp_inv s'.
Proof.
  intros Hinv Htm. pose proof (ai_count _ Hinv) as Hrc. destruct (ai_timer _ Hinv a Htm) as [e He].
  pose proof (ai_entry _ Hinv a e He) as [Ht _ Hret]. apply Ht in Htm as Hp. destruct (Hret Hp) as [Hr0 Hr1].
  unfold requestTimedOut. rewrite (bind_ok (modify _) _ s tt _ eq_refl). set (s1 := s <| timers := _ |>).
  rewrite (bind_ok _ _ _ _ _ (entry_at_run s1 a e He)). unfold put_entry.
  rewrite (bind_ok (modify _) _ s1 tt _ eq_refl). set (s2 := s1 <| arpCache := _ |>).
  rewrite (bind_ok (gets id) _ s2 s2 s2) by done. unfold id. change (retryCount s2) with (retryCount s).
  destruct (Z.ltb_spec (i32 (numRetries e + 1)) (retryCount s)) as [Hlt|Hge].
  - intros ([] & s3 & H3 & H4)%bind_inv. apply keeps_request, core_eq in H3 as (Hc & Htt & Hq & Hn & Hr).
    unfold schedule, simTime, bind, gets, modify in H4. injection H4 as <- <-.
    eapply (inv_update _ _ a Hinv).
    + intros b Hne. cbn. rewrite Hc, Htt. cbn. by rewrite !lookup_insert_ne, lookup_delete_ne.
    + done.
    + cbn. rewrite Hc. cbn. rewrite lookup_insert_eq. split; cbn; [|congruence|].
      * rewrite lookup_insert_eq. by rewrite Hp.
      * intros _. rewrite Hr. cbn. rewrite i32_small in * by lia. lia.
    + cbn. rewrite Hc, Hq. cbn. rewrite waiting_insert. cbn. rewrite (ai_queue _ Hinv). by apply waiting_delete.
    + cbn. rewrite Hn, Hq. exact (inv_queue _ Hinv).
  - intros (us & s3 & H3 & H4)%bind_inv. injection H4 as <- <-.
    pose proof (ai_queue _ Hinv) as Hq. rewrite (waiting_delete _ a e He) in Hq.
    destruct (take_all take_from_queue _ _ s2 us s3 take_core Hq (ai_nodup _ Hinv) H3) as (Hq3 & Hc & Htt & Hn & Hr).
    eapply (inv_update _ _ a Hinv).
    + intros b Hne. cbn. rewrite Hc, Htt. cbn. by rewrite !lookup_delete_ne, lookup_insert_ne.
    + done.
    + cbn. rewrite lookup_delete_eq, Htt. cbn. by rewrite lookup_delete_eq.
    + cbn. rewrite Hc. cbn. by rewrite delete_insert_eq.
    + cbn. rewrite Hn. eapply queue_ok_rest; [|exact (inv_queue _ Hinv)]. cbn. rewrite Hq3. exact Hq.
Qed.

(** An update of an entry sends what waits for it. *)
Lemma update_inv s a e mac u s' :
  arp_inv s -> arpCache s !! a = Some e -> updateARPCache a mac s = Ok u s' ->
  arp_inv s' /\ exists e', arpCache s' !! a = Some e'.
Proof.
  intros Hinv He. unfold updateARPCache. rewrite (bind_ok _ _ _ _ _ (entry_at_run _ _ _ He)).
  rewrite (bind_ok simTime _ s _ s eq_refl). pose proof (ai_entry _ Hinv a e He) as [Ht Hidle _].
  intros ([] & s1 & H1 & ([] & s2 & H2 & (us & s3 & H3 & H4)%bind_inv)%bind_inv)%bind_inv. injection H4 as <- <-.
  assert (arpCache s1 = arpCache s /\ timers s1 = delete a (timers s) /\ pendingQueue s1 = pendingQueue s /\
    nextMsg s1 = nextMsg s /\ retryCount s1 = retryCount s) as (Hc1 & Ht1 & Hq1 & Hn1 & Hr1).
  { unfold when in H1. destruct (pending e) eqn:Hp; injection H1 as <-; [done|]. split_and!; [done| |done..].
    rewrite delete_id; [done|]. apply eq_None_not_Some. intros Hs. by apply Ht in Hs. }
  unfold put_entry in H2. injection H2 as <-.
  pose proof (ai_queue _ Hinv) as Hq. rewrite (waiting_delete _ a e He) in Hq.
  apply (take_all _ _ (waiting (delete a (arpCache s))) _ _ _ (send_waiting_core (ie e) mac)) in H3
    as (Hq3 & Hc & Htt & Hn & Hr); [|cbn; by rewrite Hq1|cbn; rewrite Hq1; apply Hinv].
  cbn in Hc, Htt, Hn, Hr. rewrite Hc1, Ht1, Hn1, Hr1 in *. split.
  - eapply (inv_update _ _ a Hinv).
    + intros b Hne. rewrite Hc, Htt. by rewrite lookup_delete_ne, lookup_insert_ne.
    + done.
    + rewrite Hc. cbn. rewrite lookup_insert_eq. split; cbn; [|done|done].
      rewrite Htt, lookup_delete_eq. split; [done|]. by intros [? ?].
    + rewrite Hc. by rewrite waiting_insert.
    + rewrite Hn. eapply queue_ok_rest; [|exact (inv_queue _ Hinv)]. by rewrite Hq3.
  - rewrite Hc, lookup_insert_eq. by eexists.
Qed.

(** A new entry, not yet in use. *)
Lemma new_entry_inv s a i : arp_inv s -> arpCache s !! a = None -> arp_inv (s <| arpCache := <[a := new_entry i]> (arpCache s) |>).
Proof.
  intros Hinv Ha. assert (timers s !! a = None) as Ht.
  { apply eq_None_not_Some. intros Hs. apply (ai_timer _ Hinv) in Hs. rewrite Ha in Hs. by destruct Hs. }
  eapply (inv_update _ _ a Hinv).
  - intros b Hne. cbn. by rewrite lookup_insert_ne.
  - done.
  - cbn. rewrite lookup_insert_eq. split; cbn; [|done|done]. rewrite Ht. split; [done|]. by intros [? ?].
  - cbn. rewrite waiting_insert, delete_id by done. apply Hinv.
  - exact (inv_queue _ Hinv).
Qed.

(** A packet that starts a resolution and waits for it. *)
Lemma start_inv s a e m u s' :
  arp_inv s -> Forall (fun x => msg_id x < msg_id m) (pendingQueue s) -> msg_id m < nextMsg s ->
  getControlInfo (pkt m) = None -> arpCache s !! a = Some e -> pending e = false ->
  (initiateARPResolution a ;;; queue_up a m) s = Ok u s' -> arp_inv s'.
Proof.
  intros Hinv Hm Hn Hc He Hp ([] & s1 & H1 & H2)%bind_inv.
  destruct (initiate_inv s a e tt s1 Hinv He Hp H1) as (Hinv1 & Hn1 & Hq1 & e' & He' & Hp').
  eapply (queue_up_inv s1 a e' m); [done|by rewrite Hq1|by rewrite Hn1|done..].
Qed.

Lemma next_inv s : arp_inv s -> arp_inv (s <| nextMsg := nextMsg s + 1 |>) /\
  Forall (fun x => msg_id x < nextMsg s) (pendingQueue s).
Proof.
  intros [H1 H2 H3 H4 H5 H6 H7]. split; [|done]. split; [|done..| |done|done].
  - intros a e He. by destruct (H1 a e He) as [? ? ?].
  - cbn. rewrite Forall_forall in *. intros x Hx. specialize (H5 x Hx). lia.
Qed.

(** A change of interface of an idle entry. *)
Lemma set_ie_inv s a e i :
  arp_inv s -> arpCache s !! a = Some e -> pending e = false ->
  arp_inv (s <| arpCache := <[a := e <| ie := i |>]> (arpCache s) |>).
Proof.
  intros Hinv He Hp. destruct (ai_entry _ Hinv a e He) as [Ht Hi Hr].
  eapply (inv_update _ _ a Hinv).
  - intros b Hne. cbn. by rewrite lookup_insert_ne.
  - done.
  - cbn. by rewrite lookup_insert_eq.
  - cbn. rewrite waiting_insert. cbn. rewrite (ai_queue _ Hinv). by apply waiting_delete.
  - exact (inv_queue _ Hinv).
Qed.

Lemma resolve_inv p i a s u s' :
  arp_inv s -> getControlInfo p = None -> resolve p i a s = Ok u s' -> arp_inv s'.
Proof.
  intros Hinv Hc. destruct (next_inv s Hinv) as [Hinv1 Hf]. unfold resolve.
  rewrite (bind_ok simTime _ s _ s eq_refl), (bind_ok (gets id) _ s s s eq_refl), (bind_ok (modify _) _ s tt _ eq_refl).
  unfold id. set (s1 := s <| nextMsg := _ |>) in *. change (arpCache s) with (arpCache s1).
  assert (nextMsg s < nextMsg s1) as Hlt by (unfold s1; cbn; lia).
  destruct (arpCache s1 !! a) as [e|] eqn:He.
  - destruct (pending e) eqn:Hp; [by eapply queue_up_inv|].
    destruct (lastUpdate e + cacheTimeout s <? clock (host s)).
    + unfold put_entry. rewrite (bind_ok (modify _) _ s1 tt _ eq_refl).
      eapply start_inv; [by eapply set_ie_inv|done|done|done|cbn; by rewrite lookup_insert_eq|done].
    + intros Hrun%keeps_toNIC. by eapply core_inv.
  - unfold put_entry. rewrite (bind_ok (modify _) _ s1 tt _ eq_refl).
    eapply start_inv; [by apply new_entry_inv|done|done|done|cbn; by rewrite lookup_insert_eq|done].
Qed.

Lemma control_removed p : getControlInfo (with_control None p) = None.
Proof. by destruct p. Qed.

(** If only the last part of an operation matters. *)
Lemma keeps_then {A B} (m : Eff ARP.t A) (k : A -> Eff ARP.t B) s b s' :
  keeps m -> arp_inv s -> (forall a s1, arp_inv s1 -> k a s1 = Ok b s' -> arp_inv s') ->
  bind m k s = Ok b s' -> arp_inv s'.
Proof. intros Hm Hinv Hk (a & s1 & H1 & H2)%bind_inv. eapply Hk; [|done]. eapply core_inv; [by eapply Hm|done]. Qed.

Lemma keeps_inv {A} (m : Eff ARP.t A) s a s' : keeps m -> arp_inv s -> m s = Ok a s' -> arp_inv s'.
Proof. intros Hm Hinv Hrun. eapply core_inv; [by eapply Hm|done]. Qed.

Lemma outbound_inv p s u s' : arp_inv s -> processOutboundPacket p s = Ok u s' -> arp_inv s'.
Proof.
  intros Hinv. unfold processOutboundPacket. apply keeps_then; [eauto with frames|done|]. intros c s1 H1.
  apply keeps_then; [eauto with frames|done|]. intros x s2 H2.
  destruct (InterfaceTable.getInterfaceById _ x) as [e|]; [|done].
  destruct (negb (broadcast e)); [by apply keeps_inv; eauto with frames|].
  apply keeps_then; [eauto with frames|done|]. intros a s3 H3.
  apply keeps_then; [eauto with frames|done|]. intros all s4 H4.
  destruct all; [by apply keeps_inv; eauto with frames|].
  apply keeps_then; [eauto with frames|done|]. intros s0 s5 H5.
  destruct (globalARP s0); [destruct (globalArpCache s0 !! a); [by apply keeps_inv; eauto with frames|done]|].
  apply resolve_inv; [done|]. apply control_removed.
Qed.

Lemma when_update_inv (b : bool) a mac s u s' :
  arp_inv s -> (b = true -> is_Some (arpCache s !! a)) ->
  when b (updateARPCache a mac) s = Ok u s' -> arp_inv s' /\ (b = false -> arpCache s' = arpCache s).
Proof.
  intros Hinv Hb. destruct b; cbn; [|intros [= <- <-]; done].
  destruct (Hb eq_refl) as [e He]. intros Hrun. by destruct (update_inv _ _ _ _ _ _ Hinv He Hrun).
Qed.

Lemma arp_packet_inv arp ctrl s u s' : arp_inv s -> processARPPacket arp ctrl s = Ok u s' -> arp_inv s'.
Proof.
  intros Hinv. unfold processARPPacket. apply keeps_then; [eauto with frames|done|]. intros c s1 H1.
  apply keeps_then; [eauto with frames|done|]. intros x s2 H2.
  destruct (MACAddress.isUnspecified _); [done|]. destruct (IPAddress.isUnspecified _); [done|].
  rewrite (bind_ok (gets arpCache) _ s2 _ s2 eq_refl).
  intros ([] & s3 & H3 & (rec & s4 & H4 & H5)%bind_inv)%bind_inv.
  apply when_update_inv in H3 as [Hinv3 Hsame]; [|done|by destruct (arpCache s2 !! _); [intros _; eexists|]].
  pose proof (keeps_recognized _ _ _ _ _ H4) as Hk. pose proof (core_inv _ _ Hk Hinv3) as Hinv4.
  apply core_eq in Hk as (Hc4 & _).
  destruct rec; [|by injection H5 as <- <-]. apply bind_inv in H5 as ([] & s5 & H5 & H6).
  eapply keeps_inv; [|clear H6|exact H6]; [eauto with frames|].
  destruct (arpCache s2 !! srcIPAddress arp) as [e|] eqn:He; cbn [negb when] in H5; [by injection H5 as <-|].
  unfold put_entry in H5. rewrite (bind_ok (modify _) _ s4 tt _ eq_refl) in H5.
  apply update_inv with (e := new_entry (interfaceId <$> InterfaceTable.getInterfaceById (fst c) x)) in H5 as [? _];
    [done| |cbn; by rewrite lookup_insert_eq].
  apply new_entry_inv; [done|]. by rewrite Hc4, (Hsame eq_refl).
Qed.

(** ** Histories *)
(** An event that can happen: a message, or a timeout that is scheduled.  Between
    events the rest of the node may change. *)
Inductive arp_step (s s' : ARP.t) : Prop :=
| arp_event ev : (forall a, ev = Timeout a -> is_Some (timers s !! a)) ->
    handleMessage ev s = Ok tt s' -> arp_step s s'
| arp_other n : s' = s <| host := n |> -> arp_step s s'.

Definition arp_start (s : ARP.t) : Prop :=
  arpCache s = ∅ /\ timers s = ∅ /\ pendingQueue s = [] /\ retryCount s < 2147483648.

Lemma arp_step_inv s s' : arp_step s s' -> arp_inv s -> arp_inv s'.
Proof.
  intros [ev Hev Hrun|n ->] Hinv; [|by apply (core_inv s)]. destruct ev as [a|p].
  - eapply timeout_inv; [done|by apply Hev|done].
  - destruct p; unfold handleMessage in Hrun;
      first [eapply outbound_inv; [done|exact Hrun]|eapply arp_packet_inv; [done|exact Hrun]].
Qed.

Lemma arp_start_inv s : arp_start s -> arp_inv s.
Proof.
  intros (Hc & Ht & Hq & Hr). split; rewrite ?Hc, ?Ht, ?Hq; try done; [|constructor].
  intros a. rewrite lookup_empty. by intros [? ?].
Qed.

Lemma arp_history_inv s s' : arp_start s -> rtc arp_step s s' -> arp_inv s'.
Proof. intros Hs. apply arp_start_inv in Hs. induction 1; eauto using arp_step_inv. Qed.

(** C14: no packet is forgotten in ARP. After any history of packets, replies,
    requests and timeouts, every packet in the queue waits in exactly one cache
    entry (the queue is a permutation of the packets of the entries, without
    duplicates), that entry's resolution is pending, its timeout is scheduled, and
    it has been retried less than [retryCount] times; entries that are not pending
    hold no packets and have no timer. *)
Theorem waiting_packets_have_timers s0 s :
  arp_start s0 -> rtc arp_step s0 s ->
  pendingQueue s ≡ₚ waiting (arpCache s) /\ NoDup (msg_id <$> pendingQueue s) /\
  (forall m, m ∈ pendingQueue s -> exists a e, arpCache s !! a = Some e /\ m ∈ pendingPackets e /\
     pending e = true /\ is_Some (timers s !! a) /\ (numRetries e = 0 \/ numRetries e < retryCount s)) /\
  (forall a e, arpCache s !! a = Some e -> pending e = false -> pendingPackets e = [] /\ timers s !! a = None).
Proof.
  intros Hs Hrun. pose proof (arp_history_inv _ _ Hs Hrun) as Hinv. split_and!; [apply Hinv|apply Hinv| |].
  - intros m Hm. rewrite (ai_queue _ Hinv) in Hm. unfold waiting in Hm.
    apply list_elem_of_bind in Hm as ([a e] & Hm & He). apply elem_of_map_to_list in He. cbn in Hm.
    destruct (ai_entry _ Hinv a e He) as [Ht Hi Hr]. exists a, e.
    destruct (pending e) eqn:Hp; [|rewrite (Hi eq_refl) in Hm; by apply elem_of_nil in Hm].
    split_and!; [done|done|done|by apply Ht|by apply Hr].
  - intros a e He Hp. destruct (ai_entry _ Hinv a e He) as [Ht Hi _]. split; [by apply Hi|].
    apply eq_None_not_Some. intros Hs'. apply Ht in Hs'. congruence.
Qed.

(** ** A reply *)
Definition arp_output (e : InterfaceEntry) (mac : MACAddress.t) (p : Packet) : Output :=
  IfOut (nwLayerGateIndex e) (with_control (Some (Ieee802Ctrl mac)) p).

Definition points_at (s : ARP.t) (i : option Z) (e : InterfaceEntry) : Prop :=
  match i with
  | Some i => InterfaceTable.getInterfaceById i (ift (host s)) = Some e
  | None => False
  end.

Lemma interface_ptr_run s i e : points_at s i e -> interface_ptr i s = Ok e s.
Proof. unfold points_at, interface_ptr, bind, gets. destruct i as [i|]; [|done]. by intros ->. Qed.

Lemma toNIC_run s p i e mac :
  points_at s i e -> getControlInfo p = None ->
  sendPacketToNIC p i mac s = Ok tt (s <| sent := sent s ++ [arp_output e mac p] |>).
Proof.
  intros Hi Hc. unfold sendPacketToNIC, setControlInfo. rewrite Hc.
  rewrite (bind_ok (ret _) _ s _ s eq_refl). by rewrite (bind_ok _ _ _ _ _ (interface_ptr_run s i e Hi)).
Qed.

Lemma send_waiting_run l s i e mac :
  points_at s i e -> Forall (fun m => getControlInfo (pkt m) = None) l ->
  exists q, mapE (send_waiting i mac) l s =
    Ok (replicate (length l) tt)
       (s <| pendingQueue := q |> <| sent := sent s ++ ((fun m => arp_output e mac (pkt m)) <$> l) |>).
Proof.
  intros Hi Hl. revert s Hi. induction Hl as [|m l Hm Hl IH]; intros s Hi; cbn [mapE].
  { exists (pendingQueue s). cbn. rewrite app_nil_r. by destruct s. }
  unfold send_waiting at 1. unfold take_from_queue. rewrite bind_ok with (a := tt)
    (s' := s <| pendingQueue := remove_msg m (pendingQueue s) |> <| sent := sent s ++ [arp_output e mac (pkt m)] |>).
  2:{ rewrite (bind_ok (modify _) _ s tt _ eq_refl). by rewrite (toNIC_run _ _ _ e). }
  edestruct (IH (s <| pendingQueue := remove_msg m (pendingQueue s) |>
                   <| sent := sent s ++ [arp_output e mac (pkt m)] |>)) as [q Hq]; [done|].
  rewrite (bind_ok _ _ _ _ _ Hq). exists q. cbn. unfold ret. rewrite <- app_assoc. done.
Qed.

(** The entry after an update. *)
Definition resolved (s : ARP.t) (e : ARPCacheEntry) (mac : MACAddress.t) : ARPCacheEntry :=
  e <| pending := false |> <| numRetries := if pending e then 0 else numRetries e |>
    <| macAddress := mac |> <| lastUpdate := clock (host s) |> <| pendingPackets := [] |>.

Lemma update_run s a e mac ifc :
  arp_inv s -> arpCache s !! a = Some e -> pending e = true -> points_at s (ie e) ifc ->
  exists q, updateARPCache a mac s =
    Ok tt (s <| timers := delete a (timers s) |> <| arpCache := <[a := resolved s e mac]> (arpCache s) |>
             <| pendingQueue := q |>
             <| sent := sent s ++ ((fun m => arp_output ifc mac (pkt m)) <$> pendingPackets e) |>).
Proof.
  intros Hinv He Hp Hi.
  assert (Forall (fun m => getControlInfo (pkt m) = None) (pendingPackets e)) as Hc.
  { pose proof (ai_control _ Hinv) as Hc. rewrite (ai_queue _ Hinv), (waiting_delete _ a e He) in Hc.
    by apply Forall_app in Hc as [? _]. }
  unfold updateARPCache. rewrite (bind_ok _ _ _ _ _ (entry_at_run _ _ _ He)), (bind_ok simTime _ s _ s eq_refl).
  rewrite (bind_ok (when (pending e) _) _ s tt (s <| timers := delete a (timers s) |>)) by (by rewrite Hp).
  unfold put_entry.
  rewrite (bind_ok (modify _) _ _ tt _ eq_refl). fold (resolved s e mac).
  edestruct (send_waiting_run (pendingPackets e)
    (s <| timers := delete a (timers s) |> <| arpCache := <[a := resolved s e mac]> (arpCache s) |>)
    (ie e) ifc mac) as [q Hq]; [done|done|].
  exists q. by rewrite (bind_ok _ _ _ _ _ Hq).
Qed.


(** ** No reply *)
(** Timeouts of one address at the given times. *)
Fixpoint timeouts (a : IPAddress.t) (times : list Z) : Eff ARP.t unit :=
  match times with
  | [] => ret tt
  | c :: rest =>
      modify (fun s => s <| host := (host s) <| clock := c |> |>) ;;;
      requestTimedOut a ;;;
      timeouts a rest
  end.

(** An interface that can ask for an address. *)
Definition asks_from (ifc : InterfaceEntry) (d : IPv4InterfaceData) : Prop :=
  ipv4data ifc = Some d /\ MACAddress.isUnspecified (macAddr ifc) = false /\ inetAddr d <> 0.

Definition request_for (ifc : InterfaceEntry) (d : IPv4InterfaceData) (a : IPAddress.t) : Output :=
  arp_output ifc MACAddress.BROADCAST_ADDRESS
    (ARPPkt {| opcode := ARP_REQUEST; srcMACAddress := macAddr ifc;
               destMACAddress := MACAddress.UNSPECIFIED_ADDRESS;
               srcIPAddress := inetAddr d; destIPAddress := a |} None None).

Lemma request_run s i ifc d a :
  points_at s i ifc -> asks_from ifc d ->
  sendARPRequest i a s = Ok tt (s <| sent := sent s ++ [request_for ifc d a] |>
                                  <| numRequestsSent := numRequestsSent s + 1 |>).
Proof.
  intros Hi (Hd & Hmac & Hip). unfold sendARPRequest. rewrite (bind_ok _ _ _ _ _ (interface_ptr_run s i ifc Hi)).
  rewrite (bind_ok (ipv4Data ifc) _ s d s) by (unfold ipv4Data; by rewrite Hd).
  rewrite Hmac. unfold IPAddress.isUnspecified. rewrite (proj2 (Z.eqb_neq _ _) Hip).
  rewrite (bind_ok (assert_ _ (negb false)) _ s tt s eq_refl), (bind_ok (assert_ _ (negb false)) _ s tt s eq_refl).
  erewrite (bind_ok (sendPacketToNIC _ _ _)) by (by apply toNIC_run). done.
Qed.

Lemma timeout_again s a e ifc d :
  arpCache s !! a = Some e -> points_at s (ie e) ifc -> asks_from ifc d ->
  0 <= numRetries e -> numRetries e + 1 < retryCount s < 2147483648 ->
  exists s', requestTimedOut a s = Ok tt s' /\
    arpCache s' = <[a := e <| numRetries := numRetries e + 1 |>]> (arpCache s) /\
    timers s' = <[a := clock (host s) + retryTimeout s]> (timers s) /\ pendingQueue s' = pendingQueue s /\
    sent s' = sent s ++ [request_for ifc d a] /\ retryCount s' = retryCount s /\ host s' = host s /\
    numFailedResolutions s' = numFailedResolutions s.
Proof.
  intros He Hi Hd H0 Hr. unfold requestTimedOut. rewrite (bind_ok (modify _) _ s tt _ eq_refl).
  set (s0 := s <| timers := _ |>). rewrite (bind_ok _ _ _ _ _ (entry_at_run s0 a e He)). unfold put_entry.
  rewrite (bind_ok (modify _) _ s0 tt _ eq_refl). rewrite i32_small by lia. set (s1 := s0 <| arpCache := _ |>).
  rewrite (bind_ok (gets id) _ s1 s1 s1 eq_refl). unfold id. change (retryCount s1) with (retryCount s).
  rewrite (proj2 (Z.ltb_lt _ _)) by lia.
  rewrite (bind_ok (sendARPRequest _ _) _ s1 tt _ (request_run s1 _ ifc d a Hi Hd)). unfold schedule.
  rewrite (bind_ok simTime _ _ _ _ eq_refl). eexists. split; [done|].
  split_and!; [done| |done..]. cbn. by rewrite insert_delete_eq.
Qed.

Lemma take_loop_run l s :
  exists us s', mapE take_from_queue l s = Ok us s' /\ sent s' = sent s /\
    numFailedResolutions s' = numFailedResolutions s.
Proof.
  revert s. induction l as [|m l IH]; intros s; cbn [mapE]; [by eexists _, _|].
  unfold take_from_queue at 1. rewrite (bind_ok (modify _) _ s tt _ eq_refl).
  edestruct (IH (s <| pendingQueue := remove_msg m (pendingQueue s) |>)) as (us & s' & Hrun & Hs & Hf).
  rewrite (bind_ok _ _ _ _ _ Hrun). by eexists _, _.
Qed.

Lemma timeout_last s a e :
  arp_inv s -> arpCache s !! a = Some e -> pending e = true -> retryCount s <= numRetries e + 1 ->
  exists s', requestTimedOut a s = Ok tt s' /\ arpCache s' = delete a (arpCache s) /\
    timers s' = delete a (timers s) /\ pendingQueue s' ≡ₚ waiting (delete a (arpCache s)) /\
    sent s' = sent s /\ numFailedResolutions s' = numFailedResolutions s + 1.
Proof.
  intros Hinv He Hp Hr. destruct (ai_entry _ Hinv a e He) as [Ht _ Hret]. destruct (Hret Hp) as [H0 H1].
  pose proof (ai_count _ Hinv).
  unfold requestTimedOut. rewrite (bind_ok (modify _) _ s tt _ eq_refl).
  set (s0 := s <| timers := _ |>). rewrite (bind_ok _ _ _ _ _ (entry_at_run s0 a e He)). unfold put_entry.
  rewrite (bind_ok (modify _) _ s0 tt _ eq_refl). rewrite i32_small by lia. set (s1 := s0 <| arpCache := _ |>).
  rewrite (bind_ok (gets id) _ s1 s1 s1 eq_refl). unfold id. change (retryCount s1) with (retryCount s).
  rewrite (proj2 (Z.ltb_ge _ _)) by lia.
  destruct (take_loop_run (pendingPackets e) s1) as (us & s2 & H2 & Hs & Hf).
  rewrite (bind_ok _ _ _ _ _ H2).
  pose proof (ai_queue _ Hinv) as Hq. rewrite (waiting_delete _ a e He) in Hq.
  destruct (take_all take_from_queue _ _ s1 us s2 take_core Hq (ai_nodup _ Hinv) H2) as (Hq2 & Hc & Htt & _).
  eexists. split; [done|]. split_and!; [|done|done|done|cbn; by rewrite Hf].
  cbn. rewrite Hc. cbn. by rewrite delete_insert_eq.
Qed.

(** a resolution without an answer ends. If no reply comes, the request is
    repeated at each timeout until [retryCount] requests have been sent (one is
    sent in any case); the timeout after that removes the entry, its timer and
    exactly the packets that waited for it, and counts one failed resolution. *)
Theorem resolution_gives_up times s a e ifc d :
  arp_inv s -> arpCache s !! a = Some e -> pending e = true -> points_at s (ie e) ifc -> asks_from ifc d ->
  Z.of_nat (length times) = Z.max 1 (retryCount s - numRetries e) ->
  exists s', timeouts a times s = Ok tt s' /\ arpCache s' = delete a (arpCache s) /\
    timers s' = delete a (timers s) /\ pendingQueue s' ≡ₚ waiting (delete a (arpCache s)) /\
    sent s' = sent s ++ replicate (pred (length times)) (request_for ifc d a) /\
    numFailedResolutions s' = numFailedResolutions s + 1.
Proof.
  revert s e. induction times as [|c times IH]; intros s e Hinv He Hp Hi Hd Hlen; [cbn in Hlen; lia|].
  cbn [timeouts]. rewrite (bind_ok (modify _) _ s tt _ eq_refl). set (s1 := s <| host := _ |>).
  assert (arp_inv s1) as Hinv1 by (by apply (core_inv s)).
  pose proof (ai_count _ Hinv) as Hcount. destruct (ai_entry _ Hinv a e He) as [Htm _ Hret].
  destruct (Hret Hp) as [H0 H1]. destruct times as [|c' times].
  - destruct (timeout_last s1 a e Hinv1 He Hp) as (s' & H & Hc & Ht & Hq & Hs & Hf);
      [cbn in Hlen; change (retryCount s1) with (retryCount s); lia|].
    rewrite (bind_ok _ _ _ _ _ H). exists s'. cbn [timeouts pred length replicate]. rewrite app_nil_r. done.
  - cbn [length] in Hlen. destruct (timeout_again s1 a e ifc d He Hi Hd H0) as (s2 & H & Hc & Ht & Hq & Hs & Hr & Hh & Hf);
      [change (retryCount s1) with (retryCount s); lia|].
    rewrite (bind_ok _ _ _ _ _ H).
    destruct (IH s2 (e <| numRetries := numRetries e + 1 |>)) as (s' & H' & Hc' & Ht' & Hq' & Hs' & Hf').
    + eapply timeout_inv; [exact Hinv1| |exact H]. by apply Htm.
    + by rewrite Hc, lookup_insert_eq.
    + done.
    + unfold points_at in *. cbn. destruct (ie e); [|done]. by rewrite Hh.
    + done.
    + cbn [length]. rewrite Hr. change (retryCount s1) with (retryCount s). cbn. lia.
    + exists s'. rewrite Hc in *. rewrite delete_insert_eq in *. split_and!; [done|done| |done| |].
      * rewrite Ht', Ht. by rewrite delete_insert_eq.
      * rewrite Hs', Hs, <- app_assoc. done.
      * rewrite Hf', Hf. done.
Qed.
