(* ===== verification/ARPDemo.v ===== *)
(** * The theorems on ARP at work

    A host on an Ethernet sends a datagram to a neighbour whose address it does not
    know. *)
From Stdlib Require Import String SpecFloat.
From S2P Require Import Prelude IPAddress MACAddress MachineFloat InterfaceTable RoutingTable RoutingSpec IPDatagram IP IPForwardSpec IPDemo ARP ARPSpec.
Import ARP IPAddress.

Definition eth_mac : MACAddress.t := MACAddress.mk 10 170 0 0 0 1.
Definition peer_mac : MACAddress.t := MACAddress.mk 10 170 0 0 0 2.
Definition peer : IPAddress.t := set4 192 168 1 9.
Definition eth1 : InterfaceEntry := eth0 <| macAddr := eth_mac |>.
Definition arp_host : Node :=
  {| ift := {| InterfaceTable.idToInterface := [Some lo0; Some eth1];
               InterfaceTable.tmpNumInterfaces := -1; InterfaceTable.tmpInterfaceList := None |};
     rt := RoutingTable_new false; clock := 0; fired := [] |}.
Definition arp_demo : ARP.t :=
  {| host := arp_host; retryTimeout := 1000; retryCount := 3; cacheTimeout := 120000; doProxyARP := false;
     globalARP := false; numResolutions := 0; numFailedResolutions := 0; numRequestsSent := 0;
     numRepliesSent := 0; arpCache := ∅; globalArpCache := ∅; pendingQueue := []; timers := ∅; nextMsg := 0;
     sent := [] |}.

Definition to_peer : Packet :=
  DatagramPacket ((demo_datagram peer 100 30) <| controlInfo := Some (IPRoutingDecision 101 0) |>).
Definition after_event (ev : Event) (s : ARP.t) : ARP.t :=
  match handleMessage ev s with Ok _ s' => s' | Err _ => s end.
Definition arp_asking : ARP.t := after_event (Arrives to_peer) arp_demo.
Definition asking_entry : ARPCacheEntry :=
  {| ie := Some 101; pending := true; macAddress := MACAddress.UNSPECIFIED_ADDRESS; lastUpdate := 0;
     numRetries := 0; pendingPackets := [mkMsg 0 (with_control None to_peer)] |}.

Lemma arp_demo_start : arp_start arp_demo.
Proof. repeat split. Defined.
Lemma arp_asking_step : arp_step arp_demo arp_asking.
Proof. apply (arp_event _ _ (Arrives to_peer)); [intros a Ha; discriminate Ha|vm_compute; reflexivity]. Defined.
Lemma arp_asking_inv : arp_inv arp_asking.
Proof. apply (arp_history_inv arp_demo); [exact arp_demo_start|apply rtc_once; exact arp_asking_step]. Defined.
Lemma arp_asking_entry : arpCache arp_asking !! peer = Some asking_entry.
Proof. vm_compute. reflexivity. Defined.

Lemma waiting_packets_have_timers_witness :
  exists m, m ∈ pendingQueue arp_asking /\ exists a e, arpCache arp_asking !! a = Some e /\
    m ∈ pendingPackets e /\ is_Some (timers arp_asking !! a).
Proof.
  destruct (waiting_packets_have_timers arp_demo arp_asking) as (_ & _ & Hw & _);
    [exact arp_demo_start|apply rtc_once; exact arp_asking_step|].
  exists (mkMsg 0 (with_control None to_peer)).
  assert (mkMsg 0 (with_control None to_peer) ∈ pendingQueue arp_asking) as Hin by (vm_compute; left).
  split; [exact Hin|]. destruct (Hw _ Hin) as (a & e & He & Hm & _ & Ht & _). exists a, e. repeat split; assumption.
Defined.

Definition peer_reply : ARPPacket :=
  {| opcode := ARP_REPLY; srcMACAddress := peer_mac; destMACAddress := eth_mac; srcIPAddress := peer;
     destIPAddress := set4 192 168 1 1 |}.


Lemma resolution_gives_up_witness :
  exists s', timeouts peer [1000; 2000; 3000] arp_asking = Ok tt s' /\
    arpCache s' = delete peer (arpCache arp_asking) /\ numFailedResolutions s' = 1.
Proof.
  destruct (resolution_gives_up [1000; 2000; 3000] arp_asking peer asking_entry eth1
              {| inetAddr := set4 192 168 1 1; ifNetmask := set4 255 255 255 0; ifMetric := 1; multicastGroups := [] |})
    as (s' & Hrun & Hc & _ & _ & _ & Hf);
    [exact arp_asking_inv|exact arp_asking_entry|reflexivity|vm_compute; reflexivity
    |split; [reflexivity|split; [vm_compute; reflexivity|vm_compute; congruence]]|vm_compute; reflexivity|].
  exists s'. split; [exact Hrun|]. split; [exact Hc|exact Hf].
Defined.
