(* ===== verification/UDP.v ===== *)
(** * UDP

    [transport/udp/UDP.h], [UDP.cc] with [UDPPacket.msg] and
    [transport/contract/UDPControlInfo.msg].  A socket descriptor is an object that
    both maps point to; it is reached by its [sockId], which is unique among the
    bound sockets.  [SockDesc::localPort] and [remotePort] are [short], the ports of
    packets are [int].  Of an ICMP or ICMPv6 error the fields the code reads from it
    and from the packets in it are kept. *)
From Stdlib Require Import String.
From S2P Require Import Prelude TcpTypes IPAddress MACAddress IPDatagram ICMP.

Module UDP.
Definition EPHEMERAL_PORTRANGE_START : Z := 1024.
Definition EPHEMERAL_PORTRANGE_END : Z := 5000.
Definition UDP_HEADER_BYTES : Z := 8.
Definition ICMP_DU_PORT_UNREACHABLE : Z := 3.

Record UDPControlInfo : Type := mkControl {
  uc_sockId : Z;
  uc_userId : Z;
  uc_srcAddr : IPvXAddress;
  uc_destAddr : IPvXAddress;
  uc_srcPort : Z;
  uc_destPort : Z;
  uc_interfaceId : Z;
  uc_TTL : Z
}.

Record Payload : Type := mkPayload { pay_contents : Z; pay_length : Z }.

(** The control info IP or IPv6 attaches. *)
Inductive LowerControl : Type :=
| FromIP (c : IPControlInfo)
| FromIPv6 (src dest : IPvXAddress) (ifId : Z).

Record UDPPacket : Type := mkPacket {
  sourcePort : Z;
  destinationPort : Z;
  udp_length : Z;
  udp_payload : option Payload;
  udp_bitError : bool;
  udp_control : option LowerControl
}.

(** The packet as ICMP puts it back into its datagram. *)
Definition as_packet (u : UDPPacket) : Packet :=
  TransportPacket true (match udp_payload u with Some p => pay_contents p | None => 0 end) (udp_length u) None.

Record SockDesc : Type := mkSock {
  sockId : Z;
  userId : Z;
  appGateIndex : Z;
  onlyLocalPortIsSet : bool;
  sd_localAddr : IPvXAddress;
  sd_remoteAddr : IPvXAddress;
  sd_localPort : Z;
  sd_remotePort : Z;
  sd_interfaceId : Z
}.
#[global] Instance eta_SockDesc : Eta SockDesc := fun d =>
  {| sockId := sockId d; userId := userId d; appGateIndex := appGateIndex d;
     onlyLocalPortIsSet := onlyLocalPortIsSet d; sd_localAddr := sd_localAddr d;
     sd_remoteAddr := sd_remoteAddr d; sd_localPort := sd_localPort d;
     sd_remotePort := sd_remotePort d; sd_interfaceId := sd_interfaceId d |}.

Inductive UOutput : Type :=
| AppOut (gate : Z) (p : Payload) (c : UDPControlInfo)
| AppError (gate : Z) (c : UDPControlInfo)
| IpOut (u : UDPPacket)
| Ipv6Out (u : UDPPacket)
| ByICMP (o : Output).

Record t : Type := mk {
  socketsByIdMap : gmap Z SockDesc;
  socketsByPortMap : gmap Z (list Z);
  lastEphemeralPort : Z;
  numSent : Z;
  numPassedUp : Z;
  numDroppedWrongPort : Z;
  numDroppedBadChecksum : Z;
  outs : list UOutput
}.
#[global] Instance eta : Eta t := fun s =>
  {| socketsByIdMap := socketsByIdMap s; socketsByPortMap := socketsByPortMap s;
     lastEphemeralPort := lastEphemeralPort s; numSent := numSent s; numPassedUp := numPassedUp s;
     numDroppedWrongPort := numDroppedWrongPort s; numDroppedBadChecksum := numDroppedBadChecksum s;
     outs := outs s |}.

Definition initial : t :=
  {| socketsByIdMap := ∅; socketsByPortMap := ∅; lastEphemeralPort := EPHEMERAL_PORTRANGE_START;
     numSent := 0; numPassedUp := 0; numDroppedWrongPort := 0; numDroppedBadChecksum := 0; outs := [] |}.

Definition put (o : UOutput) : Eff t unit := modify (fun s => s <| outs := outs s ++ [o] |>).
#[global] Instance sends : Sends t := fun o s => s <| outs := outs s ++ [ByICMP o] |>.

(** [IPvXAddress::get4()] raises an error for an IPv6 address. *)
Definition get4 (a : IPvXAddress) : Eff t Z :=
  match a with
  | IPv4 d0 => ret d0
  | IPv6 _ _ _ _ => fail (RuntimeError "IPvXAddress: cannot return IPv6 address as IPv4")
  end.

(** ** Sockets *)
Definition next_port (port : Z) : Z :=
  let p := i16 (port + 1) in
  if p =? EPHEMERAL_PORTRANGE_END then EPHEMERAL_PORTRANGE_START else p.

Fixpoint searchPort (fuel : nat) (searchUntil : Z) : Eff t Z :=
  match fuel with
  | O => fail OutOfFuel
  | S fuel =>
      let! s := gets id in
      match socketsByPortMap s !! lastEphemeralPort s with
      | Some _ =>
          if lastEphemeralPort s =? searchUntil
          then fail (RuntimeError "Ephemeral port range exhausted, all ports occupied")
          else
            modify (fun s => s <| lastEphemeralPort := next_port (lastEphemeralPort s) |>) ;;;
            searchPort fuel searchUntil
      | None => ret (lastEphemeralPort s)
      end
  end.

(** The fuel is the size of the port range, 3976, and the final test. *)
Definition getEphemeralPort : Eff t Z :=
  let! searchUntil := gets lastEphemeralPort in
  modify (fun s => s <| lastEphemeralPort := next_port (lastEphemeralPort s) |>) ;;;
  searchPort 3977 searchUntil.

Definition bind_socket (gateIndex : Z) (ctrl : UDPControlInfo) : Eff t unit :=
  if uc_sockId ctrl =? -1 then fail (RuntimeError "sockId in BIND message not filled in")
  else
    let! port := (if i16 (uc_srcPort ctrl) =? 0 then getEphemeralPort else ret (i16 (uc_srcPort ctrl))) in
    let remotePort := i16 (uc_destPort ctrl) in
    let sd := {| sockId := uc_sockId ctrl; userId := uc_userId ctrl; appGateIndex := gateIndex;
                 onlyLocalPortIsSet := isUnspecified (uc_srcAddr ctrl) && isUnspecified (uc_destAddr ctrl) &&
                                       (remotePort =? 0) && (uc_interfaceId ctrl =? -1);
                 sd_localAddr := uc_srcAddr ctrl; sd_remoteAddr := uc_destAddr ctrl; sd_localPort := port;
                 sd_remotePort := remotePort; sd_interfaceId := uc_interfaceId ctrl |} in
    let! s := gets id in
    assert_ "socketsByIdMap.find(sd->sockId)==socketsByIdMap.end()"
      (match socketsByIdMap s !! sockId sd with None => true | Some _ => false end) ;;;
    modify (fun s => s <| socketsByIdMap := <[sockId sd := sd]> (socketsByIdMap s) |>
                       <| socketsByPortMap :=
                            <[port := default [] (socketsByPortMap s !! port) ++ [sockId sd]]> (socketsByPortMap s) |>).

Definition find_socket (i : Z) : Eff t SockDesc :=
  let! s := gets id in
  match socketsByIdMap s !! i with
  | Some sd => ret sd
  | None => fail (RuntimeError "socket id doesn't exist (already closed?)")
  end.

Definition connect (i : Z) (addr : IPvXAddress) (port : Z) : Eff t unit :=
  let! sd := find_socket i in
  if isUnspecified addr then fail (RuntimeError "connect: unspecified remote address")
  else if (port <=? 0) || (65535 <? port) then fail (RuntimeError "connect: invalid remote port number")
  else
    modify (fun s => s <| socketsByIdMap := <[i := sd <| sd_remoteAddr := addr |> <| sd_remotePort := i16 port |>
                                                      <| onlyLocalPortIsSet := false |>]> (socketsByIdMap s) |>).

Definition remove_id (i : Z) : list Z -> list Z :=
  fix go l := match l with
              | [] => []
              | x :: rest => if x =? i then rest else x :: go rest
              end.

(** The list of a port; an empty list is erased. *)
Definition store_list (port : Z) (l : list Z) (m : gmap Z (list Z)) : gmap Z (list Z) :=
  match l with [] => delete port m | _ => <[port := l]> m end.

Definition unbind (i : Z) : Eff t unit :=
  let! sd := find_socket i in
  modify (fun s =>
    let l := remove_id i (default [] (socketsByPortMap s !! sd_localPort sd)) in
    s <| socketsByIdMap := delete i (socketsByIdMap s) |>
      <| socketsByPortMap := store_list (sd_localPort sd) l (socketsByPortMap s) |>).

(** ** Packets from the network *)
(** [sd] behind a pointer of a list. *)
Definition deref_socket (i : Z) : Eff t SockDesc :=
  let! s := gets id in
  match socketsByIdMap s !! i with
  | Some sd => ret sd
  | None => fail (NullPointer "dangling SockDesc")
  end.

(** The three tests on addresses compare only what the socket has set. *)
Definition addr_differs (a : IPvXAddress) (b : IPAddress.t) : Eff t bool :=
  if isUnspecified a then ret false else let! x := get4 a in ret (negb (x =? b)).

Definition matchesSocket (sd : SockDesc) (udp : UDPPacket) (ipCtrl : IPControlInfo) : Eff t bool :=
  if negb (sd_remotePort sd =? 0) && negb (sd_remotePort sd =? sourcePort udp) then ret false
  else
    let! l := addr_differs (sd_localAddr sd) (ci_destAddr ipCtrl) in
    if l then ret false
    else
      let! r := addr_differs (sd_remoteAddr sd) (ci_srcAddr ipCtrl) in
      if r then ret false
      else ret (negb (negb (sd_interfaceId sd =? -1) && negb (sd_interfaceId sd =? ci_interfaceId ipCtrl))).

Definition sendUp (payload : option Payload) (udpHeader : UDPPacket) (ipCtrl : IPControlInfo) (sd : SockDesc) : Eff t unit :=
  match payload with
  | None => fail (NullPointer "payload->dup()")
  | Some p =>
      put (AppOut (appGateIndex sd) p
        {| uc_sockId := sockId sd; uc_userId := userId sd; uc_srcAddr := IPv4 (ci_srcAddr ipCtrl);
           uc_destAddr := IPv4 (ci_destAddr ipCtrl); uc_srcPort := sourcePort udpHeader;
           uc_destPort := destinationPort udpHeader; uc_interfaceId := ci_interfaceId ipCtrl;
           uc_TTL := ci_timeToLive ipCtrl |}) ;;;
      modify (fun s => s <| numPassedUp := i32 (numPassedUp s + 1) |>)
  end.

(** For IPv6 the code asks for the control info of the packet, which has been
    removed, and raises the error. *)
Definition processUndeliverablePacket (udpPacket : UDPPacket) (ctrl : option LowerControl) : Eff t unit :=
  modify (fun s => s <| numDroppedWrongPort := i32 (numDroppedWrongPort s + 1) |>) ;;;
  match ctrl with
  | Some (FromIP ctrl4) =>
      if negb (IPAddress.isMulticast (ci_destAddr ctrl4))
      then ICMP.sendErrorMessage_transport (as_packet udpPacket) ctrl4 ICMP_DESTINATION_UNREACHABLE ICMP_DU_PORT_UNREACHABLE
      else ret tt
  | _ => fail (RuntimeError "arrived from lower layer without control info")
  end.

(** A copy for each matching socket of the list; the number of matches. *)
Fixpoint deliver_loop (l : list Z) (udpPacket : UDPPacket) (ctrl4 : IPControlInfo) (matches : Z) : Eff t Z :=
  match l with
  | [] => ret matches
  | i :: rest =>
      let! sd := deref_socket i in
      let! m := (if onlyLocalPortIsSet sd then ret true else matchesSocket sd udpPacket ctrl4) in
      (if m then sendUp (udp_payload udpPacket) udpPacket ctrl4 sd else ret tt) ;;;
      deliver_loop rest udpPacket ctrl4 (if m then matches + 1 else matches)
  end.

Definition processUDPPacket (udpPacket : UDPPacket) : Eff t unit :=
  if udp_bitError udpPacket then
    modify (fun s => s <| numDroppedBadChecksum := i32 (numDroppedBadChecksum s + 1) |>)
  else
    let ctrl := udp_control udpPacket in
    let! s := gets id in
    match socketsByPortMap s !! destinationPort udpPacket with
    | None => processUndeliverablePacket udpPacket ctrl
    | Some l =>
        match ctrl with
        | Some (FromIP ctrl4) =>
            let! matches := deliver_loop l udpPacket ctrl4 0 in
            if matches =? 0 then processUndeliverablePacket udpPacket ctrl else ret tt
        | _ => fail (RuntimeError "arrived from lower layer without control info")
        end
    end.

(** ** Errors *)
(** The third [matchesSocket]: the port test is the wrong way round. *)
Definition matchesSocket_error (sd : SockDesc) (localAddr remoteAddr : IPvXAddress) (remotePort : Z) : bool :=
  ((sd_remotePort sd =? 0) || negb (sd_remotePort sd =? i16 remotePort)) &&
  (isUnspecified (sd_localAddr sd) || addr_equals (sd_localAddr sd) localAddr) &&
  (isUnspecified (sd_remoteAddr sd) || addr_equals (sd_remoteAddr sd) remoteAddr).

Definition sendUpErrorNotification (sd : SockDesc) (localAddr remoteAddr : IPvXAddress) (remotePort : Z) : Eff t unit :=
  put (AppError (appGateIndex sd)
    {| uc_sockId := sockId sd; uc_userId := userId sd; uc_srcAddr := localAddr; uc_destAddr := remoteAddr;
       uc_srcPort := sd_localPort sd; uc_destPort := i16 remotePort; uc_interfaceId := -1; uc_TTL := 0 |}).

(** The last matching socket of the list. *)
Fixpoint error_loop (l : list Z) (localAddr remoteAddr : IPvXAddress) (remotePort : Z) (src : option SockDesc)
    : Eff t (option SockDesc) :=
  match l with
  | [] => ret src
  | i :: rest =>
      let! sd := deref_socket i in
      error_loop rest localAddr remoteAddr remotePort
        (if onlyLocalPortIsSet sd || matchesSocket_error sd localAddr remoteAddr remotePort then Some sd else src)
  end.

(** What an error message encapsulates: nothing, a packet that is no datagram, or a
    datagram of length [len] with a UDP packet in it (its ports and its length) or
    with something else. *)
Inductive Quoted : Type :=
| QuotedNothing
| QuotedOther
| QuotedDatagram (src dest : IPvXAddress) (len : Z) (udp : option (Z * Z * Z)).
Record ICMPError : Type := mkError { err_v6 : bool; err_length : Z; err_quoted : Quoted }.

(** [decapsulate()] of a packet of length [len] with one of length [inner] in it. *)
Definition check_lengths (len inner : Z) : Eff t unit :=
  if (0 <? len) && (len <? inner)
  then fail (RuntimeError "decapsulate(): packet length is smaller than encapsulated packet")
  else ret tt.

(** The length of an ICMP message is first set to that of the packet in it. *)
Definition extract_quoted (e : ICMPError) : Eff t (IPvXAddress * IPvXAddress * Z * Z) :=
  match err_quoted e with
  | QuotedNothing => fail (if err_v6 e then RuntimeError "check_and_cast" else NullPointer "getEncapsulatedMsg()")
  | QuotedOther => fail (RuntimeError "check_and_cast")
  | QuotedDatagram src dest len udp =>
      check_lengths (if err_v6 e then err_length e else len) len ;;;
      match udp with
      | None => fail (RuntimeError "check_and_cast")
      | Some (localPort, remotePort, udpLen) => check_lengths len udpLen ;;; ret (src, dest, localPort, remotePort)
      end
  end.

Definition processICMPError (e : ICMPError) : Eff t unit :=
  let! q := extract_quoted e in
  let '(localAddr, remoteAddr, localPort, remotePort) := q in
  let! s := gets id in
  match socketsByPortMap s !! localPort with
  | None => ret tt
  | Some l =>
      let! src := error_loop l localAddr remoteAddr remotePort None in
      match src with
      | None => ret tt
      | Some sd => sendUpErrorNotification sd localAddr remoteAddr remotePort
      end
  end.

(** ** From the application *)
Definition processMsgFromApp (p : Payload) (c : UDPControlInfo) : Eff t unit :=
  let u := {| sourcePort := uc_srcPort c; destinationPort := uc_destPort c;
              udp_length := UDP_HEADER_BYTES + pay_length p; udp_payload := Some p; udp_bitError := false;
              udp_control := None |} in
  (if negb (isIPv6 (uc_destAddr c)) then
     let! src := get4 (uc_srcAddr c) in
     let! dest := get4 (uc_destAddr c) in
     put (IpOut {| sourcePort := sourcePort u; destinationPort := destinationPort u; udp_length := udp_length u;
                   udp_payload := udp_payload u; udp_bitError := false;
                   udp_control := Some (FromIP (IPControlInfo_new <| ci_protocol := IP_PROT_UDP |>
                     <| ci_srcAddr := src |> <| ci_destAddr := dest |> <| ci_interfaceId := uc_interfaceId c |>)) |})
   else if isIPv6 (uc_srcAddr c) || isUnspecified (uc_srcAddr c) then
     put (Ipv6Out {| sourcePort := sourcePort u; destinationPort := destinationPort u; udp_length := udp_length u;
                     udp_payload := udp_payload u; udp_bitError := false;
                     udp_control := Some (FromIPv6 (uc_srcAddr c) (uc_destAddr c) (-1)) |})
   else fail (RuntimeError "IPvXAddress: cannot return IPv4 address as IPv6")) ;;;
  modify (fun s => s <| numSent := i32 (numSent s + 1) |>).

Inductive Command : Type := UDP_C_BIND | UDP_C_CONNECT | UDP_C_UNBIND | UDP_C_other.
Definition processCommandFromApp (kind : Command) (gate : Z) (c : UDPControlInfo) : Eff t unit :=
  match kind with
  | UDP_C_BIND => bind_socket gate c
  | UDP_C_CONNECT => connect (uc_sockId c) (uc_destAddr c) (uc_destPort c)
  | UDP_C_UNBIND => unbind (uc_sockId c)
  | UDP_C_other => fail (RuntimeError "unknown command code (message kind) received from app")
  end.

Inductive Message : Type :=
| FromNetwork (u : UDPPacket)
| ErrorFromNetwork (e : ICMPError)
| DataFromApp (p : Payload) (c : UDPControlInfo)
| CommandFromApp (kind : Command) (gate : Z) (c : UDPControlInfo).

Definition handleMessage (msg : Message) : Eff t unit :=
  match msg with
  | FromNetwork u => processUDPPacket u
  | ErrorFromNetwork e => processICMPError e
  | DataFromApp p c => processMsgFromApp p c
  | CommandFromApp k g c => processCommandFromApp k g c
  end.
End UDP.
