(* ===== verification/UDPSpec.v ===== *)
(** * Delivery of UDP packets

    The two socket tables agree in every reachable state; a packet goes to exactly
    the sockets bound to its port whose filters accept it, or its sender is told
    that the port is unreachable.  Packets from IPv6 are never delivered, and
    sockets on high ports never receive anything. *)
From Stdlib Require Import String.
From S2P Require Import Prelude TcpTypes IPAddress MACAddress Frames IPDatagram ICMP UDP.
Import UDP.

(** ** The tables *)
Record udp_inv (s : UDP.t) : Prop := {
  ui_port : forall p l, socketsByPortMap s !! p = Some l -> l <> [] /\ NoDup l /\
    Forall (fun i => exists sd, socketsByIdMap s !! i = Some sd /\ sd_localPort sd = p) l;
  ui_id : forall i sd, socketsByIdMap s !! i = Some sd ->
    sockId sd = i /\ exists l, socketsByPortMap s !! sd_localPort sd = Some l /\ i ∈ l;
  ui_only : forall i sd, socketsByIdMap s !! i = Some sd -> onlyLocalPortIsSet sd = true ->
    isUnspecified (sd_localAddr sd) = true /\ isUnspecified (sd_remoteAddr sd) = true /\
    sd_remotePort sd = 0 /\ sd_interfaceId sd = -1
}.

Definition tables (s : UDP.t) := (socketsByIdMap s, socketsByPortMap s).

Lemma tables_inv s s' : tables s' = tables s -> udp_inv s -> udp_inv s'.
Proof. intros [= Hi Hp] [H1 H2 H3]. split; rewrite ?Hi, ?Hp; done. Qed.

Lemma frames_put o : frames tables (put o).
Proof. unfold put. frames_walk. Qed.
Lemma frames_send o : frames tables (send o).
Proof. by intros s a s' [= <- <-]. Qed.
Lemma frames_get4 a : frames tables (get4 a).
Proof. unfold get4. frames_walk. Qed.
Lemma frames_deref i : frames tables (deref_socket i).
Proof. unfold deref_socket. frames_walk. Qed.
#[export] Hint Resolve frames_put frames_send frames_get4 frames_deref : frames.
Lemma frames_search fuel u : frames tables (searchPort fuel u).
Proof. induction fuel as [|fuel IH]; cbn [searchPort]; frames_walk. Qed.
#[export] Hint Resolve frames_search : frames.
Lemma frames_ephemeral : frames tables getEphemeralPort.
Proof. unfold getEphemeralPort. frames_walk. Qed.
Lemma frames_differs a b : frames tables (addr_differs a b).
Proof. unfold addr_differs. frames_walk. Qed.
#[export] Hint Resolve frames_ephemeral frames_differs : frames.
Lemma frames_matches sd u c : frames tables (matchesSocket sd u c).
Proof. unfold matchesSocket. frames_walk. Qed.
Lemma frames_sendUp p u c sd : frames tables (sendUp p u c sd).
Proof. unfold sendUp. frames_walk. Qed.
Lemma frames_icmp_error p c ty code : frames tables (ICMP.sendErrorMessage_transport p c ty code).
Proof.
  unfold ICMP.sendErrorMessage_transport, removeOrigDatagram, encapsulate_in, ICMP.sendErrorMessage, cast_ICMPMessage,
    ICMP.report_error, ICMP.sendToIP_dest, ICMP.set_icmp_control, ICMP.processICMPMessage, ICMP.errorOut,
    ICMP.processEchoRequest, ICMP.processEchoReply, ICMP.sendToIP, cast_IPControlInfo, setControlInfo.
  frames_walk.
Qed.
#[export] Hint Resolve frames_matches frames_sendUp frames_icmp_error : frames.
Lemma frames_undeliverable u c : frames tables (processUndeliverablePacket u c).
Proof. unfold processUndeliverablePacket. frames_walk. Qed.
Lemma frames_deliver l u c k : frames tables (deliver_loop l u c k).
Proof. revert k. induction l as [|i l IH]; intros k; cbn [deliver_loop]; frames_walk. Qed.
#[export] Hint Resolve frames_undeliverable frames_deliver : frames.
Lemma frames_packet u : frames tables (processUDPPacket u).
Proof. unfold processUDPPacket. frames_walk. Qed.
Lemma frames_error_loop l a b p src : frames tables (error_loop l a b p src).
Proof. revert src. induction l as [|i l IH]; intros src; cbn [error_loop]; frames_walk. Qed.
#[export] Hint Resolve frames_error_loop : frames.
Lemma frames_quoted e : frames tables (extract_quoted e).
Proof. unfold extract_quoted, check_lengths. frames_walk. Qed.
#[export] Hint Resolve frames_quoted : frames.
Lemma frames_error e : frames tables (processICMPError e).
Proof. unfold processICMPError, sendUpErrorNotification. frames_walk. Qed.
Lemma frames_data p c : frames tables (processMsgFromApp p c).
Proof. unfold processMsgFromApp. frames_walk. Qed.

(** ** Commands keep the tables consistent *)
Lemma find_socket_inv i s sd s' : find_socket i s = Ok sd s' -> s' = s /\ socketsByIdMap s !! i = Some sd.
Proof.
  unfold find_socket, bind, gets, id. destruct (socketsByIdMap s !! i) eqn:Hi; [|done]. by intros [= <- <-].
Qed.

Lemma insert_socket_inv s sd :
  udp_inv s -> socketsByIdMap s !! sockId sd = None ->
  (onlyLocalPortIsSet sd = true -> isUnspecified (sd_localAddr sd) = true /\
    isUnspecified (sd_remoteAddr sd) = true /\ sd_remotePort sd = 0 /\ sd_interfaceId sd = -1) ->
  udp_inv (s <| socketsByIdMap := <[sockId sd := sd]> (socketsByIdMap s) |>
             <| socketsByPortMap := <[sd_localPort sd := default [] (socketsByPortMap s !! sd_localPort sd) ++ [sockId sd]]>
                                      (socketsByPortMap s) |>).
Proof.
  intros [H1 H2 H3] Hnew Honly.
  assert (forall i, i <> sockId sd -> <[sockId sd := sd]> (socketsByIdMap s) !! i = socketsByIdMap s !! i) as Hne
    by (intros i Hi; by rewrite lookup_insert_ne).
  assert (forall p l i, socketsByPortMap s !! p = Some l -> i ∈ l -> i <> sockId sd) as Hold.
  { intros p l i Hl Hi ->. destruct (H1 p l Hl) as (_ & _ & Hf). rewrite Forall_forall in Hf.
    destruct (Hf _ Hi) as (sd' & Hsd & _). congruence. }
  split; cbn.
  - intros p l. destruct (decide (p = sd_localPort sd)) as [->|Hp].
    + rewrite lookup_insert_eq. intros [= <-].
      destruct (socketsByPortMap s !! sd_localPort sd) as [l|] eqn:Hl; cbn.
      * destruct (H1 _ l Hl) as (_ & Hnd & Hf). split_and!; [by destruct l| |].
        -- apply NoDup_app. split_and!; [done| |apply NoDup_singleton]. intros x Hx Hx'.
           apply list_elem_of_singleton in Hx' as ->. by apply (Hold _ _ _ Hl) in Hx.
        -- apply Forall_app. split; [|constructor; [exists sd; by rewrite lookup_insert_eq|done]].
           rewrite Forall_forall in *. intros i Hi. rewrite Hne by eauto. by apply Hf.
      * split_and!; [done|apply NoDup_singleton|]. constructor; [exists sd; by rewrite lookup_insert_eq|done].
    + rewrite lookup_insert_ne by done. intros Hl. destruct (H1 p l Hl) as (Hnn & Hnd & Hf). split_and!; [done|done|].
      rewrite Forall_forall in *. intros i Hi. rewrite Hne by eauto. by apply Hf.
  - intros i sd'. destruct (decide (i = sockId sd)) as [->|Hi].
    + rewrite lookup_insert_eq. intros [= <-]. split; [done|]. rewrite lookup_insert_eq. eexists. split; [done|].
      apply elem_of_app. right. by apply list_elem_of_singleton.
    + rewrite Hne by done. intros Hsd. destruct (H2 _ _ Hsd) as (Hid & l & Hl & Hin). split; [done|].
      destruct (decide (sd_localPort sd' = sd_localPort sd)) as [Heq|Hp].
      * rewrite Heq, lookup_insert_eq. rewrite Heq in Hl. rewrite Hl. eexists. split; [done|]. cbn.
        apply elem_of_app. by left.
      * rewrite lookup_insert_ne by done. by exists l.
  - intros i sd'. destruct (decide (i = sockId sd)) as [->|Hi]; [rewrite lookup_insert_eq; by intros [= <-]|].
    rewrite Hne by done. apply H3.
Qed.

Lemma bind_socket_inv g c s u s' : udp_inv s -> bind_socket g c s = Ok u s' -> udp_inv s'.
Proof.
  intros Hinv. unfold bind_socket. destruct (uc_sockId c =? -1); [done|].
  intros (port & s1 & H1 & H2)%bind_inv.
  assert (udp_inv s1) as Hinv1.
  { apply (tables_inv s); [|done]. revert H1. destruct (i16 (uc_srcPort c) =? 0); [apply frames_ephemeral|apply frames_ret]. }
  rewrite (bind_ok (gets id) _ s1 s1 s1 eq_refl) in H2. unfold id in H2.
  apply bind_inv in H2 as ([] & s2 & H2 & H3). cbn [sockId] in H2.
  destruct (socketsByIdMap s1 !! uc_sockId c) eqn:Hnew; [done|]. injection H2 as <-. injection H3 as <- <-.
  apply (insert_socket_inv s1); [done|done|]. cbn.
  rewrite !andb_true_iff, !Z.eqb_eq. tauto.
Qed.

Lemma connect_inv i a p s u s' : udp_inv s -> connect i a p s = Ok u s' -> udp_inv s'.
Proof.
  intros [H1 H2 H3]. unfold connect. intros (sd & s1 & Hf & H)%bind_inv.
  apply find_socket_inv in Hf as [-> Hsd]. destruct (isUnspecified a); [done|]. destruct (_ || _); [done|].
  injection H as <- <-. split; cbn.
  - intros q l Hl. destruct (H1 q l Hl) as (Hn & Hnd & Hall). split_and!; [done|done|].
    eapply Forall_impl; [exact Hall|]. intros j (sd' & Hj & Hq). destruct (decide (j = i)) as [->|Hne].
    + rewrite Hsd in Hj. injection Hj as <-. eexists. by rewrite lookup_insert_eq.
    + exists sd'. by rewrite lookup_insert_ne.
  - intros j sd'. destruct (decide (j = i)) as [->|Hne]; [|rewrite lookup_insert_ne by done; apply H2].
    rewrite lookup_insert_eq. intros [= <-]. exact (H2 i sd Hsd).
  - intros j sd'. destruct (decide (j = i)) as [->|Hne]; [|rewrite lookup_insert_ne by done; apply H3].
    rewrite lookup_insert_eq. by intros [= <-].
Qed.

Lemma remove_id_spec i l : NoDup l -> NoDup (remove_id i l) /\ forall j, j ∈ remove_id i l <-> j ∈ l /\ j <> i.
Proof.
  induction 1 as [|x l Hx Hnd [IHn IHe]]; cbn [remove_id].
  { split; [constructor|]. intros j. rewrite elem_of_nil. tauto. }
  destruct (Z.eqb_spec x i) as [->|Hne].
  - split; [done|]. intros j. rewrite elem_of_cons. split; [|tauto]. intros Hj. split; [by right|]. by intros ->.
  - fold (remove_id i l). split.
    + constructor; [|done]. rewrite IHe. tauto.
    + intros j. rewrite !elem_of_cons, IHe. split; [intros [->|[? ?]]; auto|]. tauto.
Qed.

Lemma unbind_inv i s u s' : udp_inv s -> unbind i s = Ok u s' -> udp_inv s'.
Proof.
  intros [H1 H2 H3]. unfold unbind. intros (sd & s1 & Hf & H)%bind_inv.
  apply find_socket_inv in Hf as [-> Hsd]. injection H as <- <-. set (q := sd_localPort sd).
  destruct (H2 i sd Hsd) as (_ & l & Hl & Hin). fold q in Hl. rewrite Hl. cbn [default].
  destruct (H1 q l Hl) as (_ & Hnd & Hall). destruct (remove_id_spec i l Hnd) as [Hnd' Hmem].
  set (ports := store_list q (remove_id i l) (socketsByPortMap s)).
  assert (forall p, p <> q -> ports !! p = socketsByPortMap s !! p) as Hother.
  { intros p Hp. unfold ports, store_list. destruct (remove_id i l); [by rewrite lookup_delete_ne|by rewrite lookup_insert_ne]. }
  assert (ports !! q = match remove_id i l with [] => None | _ => Some (remove_id i l) end) as Hq.
  { unfold ports, store_list. destruct (remove_id i l); [by rewrite lookup_delete_eq|by rewrite lookup_insert_eq]. }
  assert (forall j p, Forall (fun k => exists sd, socketsByIdMap s !! k = Some sd /\ sd_localPort sd = p) j -> i ∉ j ->
    Forall (fun k => exists sd, delete i (socketsByIdMap s) !! k = Some sd /\ sd_localPort sd = p) j) as Hkeep.
  { intros j p Hj Hi. rewrite Forall_forall in *. intros k Hk. rewrite lookup_delete_ne by (by intros <-). by apply Hj. }
  split; cbn -[store_list]; fold q ports.
  - intros p l'. destruct (decide (p = q)) as [->|Hp].
    + rewrite Hq. destruct (remove_id i l) as [|x r] eqn:Hr; [done|]. intros [= <-]. split_and!; [done|done|].
      apply Hkeep; [|rewrite Hmem; tauto]. rewrite Forall_forall in *. intros k Hk. apply Hall. by apply Hmem.
    + rewrite Hother by done. intros Hl'. destruct (H1 p l' Hl') as (Hn & Hnd1 & Hall1). split_and!; [done|done|].
      apply Hkeep; [done|]. intros Hi. rewrite Forall_forall in Hall1. destruct (Hall1 i Hi) as (sd' & Hsd' & Hp').
      rewrite Hsd in Hsd'. by injection Hsd' as <-.
  - intros j sd' Hj. apply lookup_delete_Some in Hj as [Hne Hj]. destruct (H2 j sd' Hj) as (Hid & l' & Hl' & Hin').
    split; [done|]. destruct (decide (sd_localPort sd' = q)) as [Heq|Hp]; [|rewrite Hother by done; by exists l'].
    rewrite Heq in *. rewrite Hl in Hl'. injection Hl' as <-. rewrite Hq.
    assert (j ∈ remove_id i l) as Hj' by (apply Hmem; auto).
    destruct (remove_id i l); [by apply elem_of_nil in Hj'|]. by eexists.
  - intros j sd' Hj. apply lookup_delete_Some in Hj as [_ Hj]. by eapply H3.
Qed.

Definition udp_step (s s' : UDP.t) : Prop := exists msg, handleMessage msg s = Ok tt s'.

Lemma initial_inv : udp_inv UDP.initial.
Proof. split; cbn; intros *; by rewrite lookup_empty. Qed.

Lemma udp_step_inv s s' : udp_step s s' -> udp_inv s -> udp_inv s'.
Proof.
  intros [msg Hrun] Hinv. destruct msg as [u|e|p c|k g c]; cbn [handleMessage] in Hrun.
  - apply frames_packet in Hrun. by eapply tables_inv.
  - apply frames_error in Hrun. by eapply tables_inv.
  - apply frames_data in Hrun. by eapply tables_inv.
  - destruct k; cbn [processCommandFromApp] in Hrun; [|..|done].
    + by eapply bind_socket_inv.
    + by eapply connect_inv.
    + by eapply unbind_inv.
Qed.

Lemma udp_history_inv s : rtc udp_step UDP.initial s -> udp_inv s.
Proof.
  intros Hrun. remember UDP.initial as s0 eqn:Hs0. assert (udp_inv s0) as Hinv by (subst; apply initial_inv).
  clear Hs0. induction Hrun; eauto using udp_step_inv.
Qed.

(** ** Who gets a packet *)
(** What a socket asks for; an unset field asks for nothing. *)
Definition accepts (sd : SockDesc) (u : UDPPacket) (c : IPControlInfo) : Prop :=
  (sd_remotePort sd = 0 \/ sd_remotePort sd = sourcePort u) /\
  (isUnspecified (sd_localAddr sd) = true \/ sd_localAddr sd = IPv4 (ci_destAddr c)) /\
  (isUnspecified (sd_remoteAddr sd) = true \/ sd_remoteAddr sd = IPv4 (ci_srcAddr c)) /\
  (sd_interfaceId sd = -1 \/ sd_interfaceId sd = ci_interfaceId c).
#[export] Instance accepts_dec sd u c : Decision (accepts sd u c).
Proof. unfold accepts. apply _. Defined.

Definition v4_socket (sd : SockDesc) : Prop :=
  isIPv6 (sd_localAddr sd) = false /\ isIPv6 (sd_remoteAddr sd) = false.

Definition delivery (u : UDPPacket) (c : IPControlInfo) (p : Payload) (sd : SockDesc) : UOutput :=
  AppOut (appGateIndex sd) p
    {| uc_sockId := sockId sd; uc_userId := userId sd; uc_srcAddr := IPv4 (ci_srcAddr c);
       uc_destAddr := IPv4 (ci_destAddr c); uc_srcPort := sourcePort u; uc_destPort := destinationPort u;
       uc_interfaceId := ci_interfaceId c; uc_TTL := ci_timeToLive c |}.

Lemma addr_differs_run a b s :
  isIPv6 a = false ->
  addr_differs a b s = Ok (negb (bool_decide (isUnspecified a = true \/ a = IPv4 b))) s.
Proof.
  destruct a as [x|]; [|done]. intros _. unfold addr_differs, get4. cbn [isUnspecified].
  destruct (Z.eqb_spec x 0) as [->|Hx]; [by rewrite bool_decide_true by auto|].
  unfold bind, ret. f_equal. f_equal. destruct (Z.eqb_spec x b) as [->|Hb].
  - by rewrite bool_decide_true by auto.
  - rewrite bool_decide_false; [done|]. intros [?|[= ?]]; [lia|done].
Qed.

Lemma matchesSocket_run sd u c s :
  v4_socket sd -> matchesSocket sd u c s = Ok (bool_decide (accepts sd u c)) s.
Proof.
  intros [Hl Hr]. unfold matchesSocket, accepts.
  destruct (Z.eqb_spec (sd_remotePort sd) 0) as [Hp|Hp], (Z.eqb_spec (sd_remotePort sd) (sourcePort u)) as [Hq|Hq];
    cbn [negb andb]; try (rewrite bool_decide_false by tauto; done);
    rewrite (bind_ok _ _ _ _ _ (addr_differs_run _ (ci_destAddr c) s Hl));
    (case_bool_decide as Hdl; cbn [negb]; [|rewrite bool_decide_false by tauto; done]);
    rewrite (bind_ok _ _ _ _ _ (addr_differs_run _ (ci_srcAddr c) s Hr));
    (case_bool_decide as Hdr; cbn [negb]; [|rewrite bool_decide_false by tauto; done]);
    unfold ret; f_equal;
    destruct (Z.eqb_spec (sd_interfaceId sd) (-1)), (Z.eqb_spec (sd_interfaceId sd) (ci_interfaceId c)); cbn [negb andb];
    first [rewrite bool_decide_true by tauto; reflexivity | rewrite bool_decide_false by tauto; reflexivity].
Qed.

(** The sockets of a list that take the packet get it, in the order of the list. *)
Lemma deliver_loop_run m l sds u c p :
  Forall2 (fun i sd => m !! i = Some sd /\ v4_socket sd /\ (onlyLocalPortIsSet sd = true -> accepts sd u c)) l sds ->
  udp_payload u = Some p -> forall k s, socketsByIdMap s = m ->
  exists s', deliver_loop l u c k s = Ok (k + Z.of_nat (length (filter (fun sd => accepts sd u c) sds))) s' /\
    outs s' = outs s ++ (delivery u c p <$> filter (fun sd => accepts sd u c) sds).
Proof.
  intros Hl Hp. induction Hl as [|i sd l sds (Hi & Hv & Honly) Hl IH]; intros k s Hs; cbn [deliver_loop].
  { exists s. cbn. by rewrite app_nil_r, Z.add_0_r. }
  rewrite (bind_ok (deref_socket i) _ s sd s) by (unfold deref_socket, bind, gets, id; by rewrite Hs, Hi).
  rewrite (bind_ok (if onlyLocalPortIsSet sd then _ else _) _ s (bool_decide (accepts sd u c)) s).
  2:{ destruct (onlyLocalPortIsSet sd); [rewrite bool_decide_true by auto; done|by apply matchesSocket_run]. }
  rewrite filter_cons. destruct (decide (accepts sd u c)) as [Ha|Ha].
  - rewrite bool_decide_true by done. unfold sendUp at 1. rewrite Hp.
    edestruct (IH (k + 1) (s <| outs := outs s ++ [delivery u c p sd] |>
                            <| numPassedUp := i32 (numPassedUp s + 1) |>)) as (s' & Hrun & Hout); [done|].
    exists s'. split.
    + rewrite (bind_ok _ _ s tt (s <| outs := outs s ++ [delivery u c p sd] |>
                                   <| numPassedUp := i32 (numPassedUp s + 1) |>)) by done.
      rewrite Hrun. f_equal. cbn [length]. lia.
    + rewrite Hout. cbn. by rewrite <- app_assoc.
  - rewrite bool_decide_false by done. rewrite (bind_ok (ret tt) _ s tt s eq_refl). by apply IH.
Qed.

(** The error message for a packet nobody takes. *)
Lemma undeliverable_run u c d s :
  IPAddress.isMulticast (ci_destAddr c) = false -> origDatagram c = Some (DatagramPacket d) ->
  encapsulated d = None -> IPAddress.isMulticast (destAddress d) = false ->
  transportProtocol d <> IP_PROT_ICMP -> srcAddress d <> 0 ->
  exists s' m, processUndeliverablePacket u (Some (FromIP c)) s = Ok tt s' /\
    outs s' = outs s ++ [ByICMP (IcmpSendOut m)] /\ icmp_type m = ICMP_DESTINATION_UNREACHABLE /\
    icmp_code m = ICMP_DU_PORT_UNREACHABLE /\
    exists ctrl, icmp_control m = Some (IPControl ctrl) /\ ci_destAddr ctrl = srcAddress d.
Proof.
  intros Hm Ho Hd Hmd Hp Hsrc. unfold processUndeliverablePacket. rewrite (bind_ok (modify _) _ s tt _ eq_refl), Hm.
  cbn [negb]. unfold ICMP.sendErrorMessage_transport, removeOrigDatagram. rewrite Ho.
  erewrite (bind_ok (ret _)) by done. unfold encapsulate_in. cbn [fst]. rewrite Hd.
  erewrite (bind_ok (ret _)) by done. unfold ICMP.sendErrorMessage, ICMP.report_error, IPAddress.isUnspecified.
  cbn -[Z.eqb IPAddress.isMulticast]. rewrite Hmd, (proj2 (Z.eqb_neq _ _) Hp), (proj2 (Z.eqb_neq _ _) Hsrc).
  eexists _, _. split; [done|]. split_and!; [done|done|done|]. eexists. by split.
Qed.

Lemma Forall_choice {A B} (P : A -> B -> Prop) l : Forall (fun a => exists b, P a b) l -> exists l', Forall2 P l l'.
Proof. induction 1 as [|a l [b Hb] _ [l' IH]]; [by exists []|]. exists (b :: l'). by constructor. Qed.

Lemma NoDup_fmap_filter {A B} (f : A -> B) (P : A -> Prop) `{!forall x, Decision (P x)} l :
  NoDup (f <$> l) -> NoDup (f <$> filter P l).
Proof.
  induction l as [|x l IH]; [done|]. rewrite fmap_cons. intros [Hx Hnd]%NoDup_cons. rewrite filter_cons.
  destruct (decide (P x)); [|by apply IH]. rewrite fmap_cons. apply NoDup_cons. split; [|by apply IH].
  intros (y & Hy & Hin)%list_elem_of_fmap. apply Hx. apply list_elem_of_fmap. exists y. split; [done|].
  by apply list_elem_of_filter in Hin as [_ Hin].
Qed.

(** The sockets bound to a port, in the order of its list. *)
Lemma port_sockets s q :
  udp_inv s ->
  exists sds, Forall2 (fun i sd => socketsByIdMap s !! i = Some sd) (default [] (socketsByPortMap s !! q)) sds /\
    NoDup (sockId <$> sds) /\
    forall sd, sd ∈ sds <-> socketsByIdMap s !! sockId sd = Some sd /\ sd_localPort sd = q.
Proof.
  intros [H1 H2 _]. destruct (socketsByPortMap s !! q) as [l|] eqn:Hl; cbn [default].
  - destruct (H1 q l Hl) as (_ & Hnd & Hall). apply Forall_choice in Hall as [sds Hsds].
    assert (sockId <$> sds = l) as Hids.
    { clear Hnd Hl. induction Hsds as [|i sd l sds [Hi _] _ IH]; [done|]. cbn. rewrite IH. by destruct (H2 i sd Hi) as [-> _]. }
    exists sds. split_and!; [eapply Forall2_impl; [done|]; by intros ? ? [? _]|by rewrite Hids|].
    intros sd. split.
    + intros (i & Hi)%list_elem_of_lookup. destruct (Forall2_lookup_r _ _ _ _ _ Hsds Hi) as (j & _ & Hj & Hq).
      destruct (H2 j sd Hj) as [-> _]. done.
    + intros [Hsd Hq]. destruct (H2 _ _ Hsd) as (_ & l' & Hl' & Hin). rewrite Hq, Hl in Hl'. injection Hl' as <-.
      apply list_elem_of_lookup in Hin as [k Hk]. destruct (Forall2_lookup_l _ _ _ _ _ Hsds Hk) as (sd' & Hk' & Hsd' & _).
      rewrite Hsd in Hsd'. injection Hsd' as <-. by eapply list_elem_of_lookup_2.
  - exists []. split_and!; [constructor|constructor|]. intros sd. rewrite elem_of_nil. split; [done|].
    intros [Hsd Hq]. destruct (H2 _ _ Hsd) as (_ & l' & Hl' & _). congruence.
Qed.

Lemma only_accepts s i sd u c :
  udp_inv s -> socketsByIdMap s !! i = Some sd -> onlyLocalPortIsSet sd = true -> accepts sd u c.
Proof. intros Hinv Hi Ho. destruct (ui_only _ Hinv i sd Hi Ho) as (? & ? & ? & ?). unfold accepts. tauto. Qed.


(** ** High ports *)
Definition short_ports (s : UDP.t) : Prop :=
  forall p, is_Some (socketsByPortMap s !! p) -> -32768 <= p <= 32767.

Lemma next_port_short p : -32768 <= next_port p <= 32767.
Proof. unfold next_port, i16, EPHEMERAL_PORTRANGE_START. destruct (_ =? _); lia. Qed.

Lemma searchPort_short fuel u s p s' :
  -32768 <= lastEphemeralPort s <= 32767 -> searchPort fuel u s = Ok p s' -> -32768 <= p <= 32767.
Proof.
  revert s. induction fuel as [|fuel IH]; intros s Hs; cbn [searchPort]; [done|].
  rewrite (bind_ok (gets id) _ s s s eq_refl). unfold id.
  destruct (socketsByPortMap s !! lastEphemeralPort s); [|by intros [= <- <-]].
  destruct (_ =? _); [done|]. rewrite (bind_ok (modify _) _ s tt _ eq_refl). apply IH. apply next_port_short.
Qed.

Lemma bind_short g c s u s' : short_ports s -> bind_socket g c s = Ok u s' -> short_ports s'.
Proof.
  intros Hs. unfold bind_socket. destruct (uc_sockId c =? -1); [done|]. intros (port & s1 & H1 & H2)%bind_inv.
  assert (socketsByPortMap s1 = socketsByPortMap s /\ -32768 <= port <= 32767) as [Hmap Hport].
  { destruct (i16 (uc_srcPort c) =? 0).
    - split; [apply frames_ephemeral in H1; by injection H1|].
      unfold getEphemeralPort in H1. rewrite (bind_ok (gets _) _ s _ s eq_refl), (bind_ok (modify _) _ s tt _ eq_refl) in H1.
      eapply searchPort_short; [|exact H1]. apply next_port_short.
    - injection H1 as <- <-. split; [done|]. unfold i16. lia. }
  rewrite (bind_ok (gets id) _ s1 s1 s1 eq_refl) in H2. apply bind_inv in H2 as ([] & s2 & H2 & H3).
  assert (s2 = s1) as -> by (unfold assert_ in H2; destruct (match _ with None => _ | _ => _ end); [by injection H2|done]).
  injection H3 as <- <-. intros p. cbn. rewrite lookup_insert_is_Some. intros [<-|[_ Hp]]; [done|].
  rewrite Hmap in Hp. by apply Hs.
Qed.

Lemma udp_history_short s : rtc udp_step UDP.initial s -> short_ports s.
Proof.
  intros Hrun. remember UDP.initial as s0 eqn:Hs0.
  assert (short_ports s0) as Hs by (subst; intros p; cbn; rewrite lookup_empty; by intros [? ?]). clear Hs0.
  induction Hrun as [|s0 s1 s2 [msg Hmsg] _ IH]; [done|]. apply IH.
  assert (tables s1 = tables s0 -> short_ports s1) as Hkeep by (intros [= _ Hp] p; rewrite Hp; apply Hs).
  destruct msg as [u|e|p c|k g c]; cbn [handleMessage] in Hmsg.
  - by apply Hkeep, (frames_packet _ _ _ _ Hmsg).
  - by apply Hkeep, (frames_error _ _ _ _ Hmsg).
  - by apply Hkeep, (frames_data _ _ _ _ _ Hmsg).
  - destruct k; cbn [processCommandFromApp] in Hmsg; [by eapply bind_short| | |done].
    + unfold connect in Hmsg. apply bind_inv in Hmsg as (sd & s3 & Hf & H). apply find_socket_inv in Hf as [-> _].
      destruct (isUnspecified _); [done|]. destruct (_ || _); [done|]. injection H as <-. exact Hs.
    + unfold unbind in Hmsg. apply bind_inv in Hmsg as (sd & s3 & Hf & H). apply find_socket_inv in Hf as [-> Hsd].
      injection H as <-. intros p. cbn -[store_list]. unfold store_list.
      destruct (remove_id _ _) as [|x r] eqn:Hr.
      * rewrite lookup_delete_is_Some. intros [_ Hp]. by apply Hs.
      * rewrite lookup_insert_is_Some. intros [<-|[_ Hp]]; [|by apply Hs]. apply Hs.
        destruct (socketsByPortMap s0 !! sd_localPort sd); [by eexists|done].
Qed.

(** UDP ports above 32767 cannot be received on. A socket can be bound to such
    a port and is then kept, in a [short], under the port minus 65536; in no
    reachable state is there any socket under the port itself, so every packet to
    it counts as dropped and is answered with port-unreachable, whatever sockets
    have been bound. *)
Theorem high_ports_unreachable s u c d :
  rtc udp_step UDP.initial s -> udp_bitError u = false -> udp_control u = Some (FromIP c) ->
  32768 <= destinationPort u <= 65535 ->
  IPAddress.isMulticast (ci_destAddr c) = false -> origDatagram c = Some (DatagramPacket d) ->
  encapsulated d = None -> IPAddress.isMulticast (destAddress d) = false ->
  transportProtocol d <> IP_PROT_ICMP -> srcAddress d <> 0 ->
  (forall g ctrl s1 s2, uc_srcPort ctrl = destinationPort u -> bind_socket g ctrl s1 = Ok tt s2 ->
     exists sd, socketsByIdMap s2 !! uc_sockId ctrl = Some sd /\ sd_localPort sd = destinationPort u - 65536) /\
  exists s' m, processUDPPacket u s = Ok tt s' /\ outs s' = outs s ++ [ByICMP (IcmpSendOut m)] /\
    icmp_type m = ICMP_DESTINATION_UNREACHABLE /\ icmp_code m = ICMP_DU_PORT_UNREACHABLE.
Proof.
  intros Hrun Hbit Hctl Hport Hm Ho Hd Hmd Hp Hsrc. split.
  - intros g ctrl s1 s2 Hsp. unfold bind_socket. destruct (uc_sockId ctrl =? -1); [done|].
    assert (i16 (uc_srcPort ctrl) = destinationPort u - 65536) as Hi by (rewrite Hsp; unfold i16; lia).
    rewrite Hi, (proj2 (Z.eqb_neq _ _)) by lia. erewrite (bind_ok (ret _)) by done.
    rewrite (bind_ok (gets id) _ s1 s1 s1 eq_refl). intros ([] & s3 & H3 & H4)%bind_inv.
    assert (s3 = s1) as -> by (unfold assert_ in H3; destruct (match _ with None => _ | _ => _ end); [by injection H3|done]).
    injection H4 as <-. eexists. cbn. by rewrite lookup_insert_eq.
  - assert (socketsByPortMap s !! destinationPort u = None) as Hnone.
    { apply eq_None_not_Some. intros Hs. apply (udp_history_short s Hrun) in Hs. lia. }
    unfold processUDPPacket. rewrite Hbit, (bind_ok (gets id) _ s s s eq_refl), Hctl. unfold id. rewrite Hnone.
    destruct (undeliverable_run u c d s) as (s' & m & H1 & H2 & H3 & H4 & _); [done..|]. by exists s', m.
Qed.

(** A packet from IPv6 stops the simulation, whether or not a socket is bound to
    its port: the control info is looked for in the packet it was removed from. *)
Lemma ipv6_packets_fail s u src dest ifId :
  udp_bitError u = false -> udp_control u = Some (FromIPv6 src dest ifId) ->
  processUDPPacket u s = Err (RuntimeError "arrived from lower layer without control info").
Proof.
  intros Hbit Hctl. unfold processUDPPacket. rewrite Hbit, Hctl, (bind_ok (gets id) _ s s s eq_refl).
  unfold id. destruct (socketsByPortMap s !! destinationPort u); reflexivity.
Qed.

(** ** Instances *)
Section Demo.
Definition bind_to (i port : Z) : UDPControlInfo :=
  {| uc_sockId := i; uc_userId := 0; uc_srcAddr := IPv4 0; uc_destAddr := IPv4 0; uc_srcPort := port;
     uc_destPort := 0; uc_interfaceId := -1; uc_TTL := 0 |}.
Definition udp_after (msg : Message) (s : UDP.t) : UDP.t :=
  match handleMessage msg s with Ok _ s' => s' | Err _ => s end.
Definition udp_demo : UDP.t :=
  udp_after (CommandFromApp UDP_C_BIND 1 (bind_to 8 40000)) (udp_after (CommandFromApp UDP_C_BIND 0 (bind_to 7 1000)) UDP.initial).

Definition udp_dgram : IPDatagram :=
  IPDatagram_new <| srcAddress := IPAddress.set4 10 0 0 1 |> <| destAddress := IPAddress.set4 10 0 0 2 |>
    <| transportProtocol := IP_PROT_UDP |> <| byteLength := 20 |>.
Definition udp_ctrl : IPControlInfo :=
  IPControlInfo_new <| ci_srcAddr := IPAddress.set4 10 0 0 1 |> <| ci_destAddr := IPAddress.set4 10 0 0 2 |>
    <| ci_protocol := IP_PROT_UDP |> <| origDatagram := Some (DatagramPacket udp_dgram) |>.
Definition packet_to (port : Z) : UDPPacket :=
  {| sourcePort := 5555; destinationPort := port; udp_length := 108; udp_payload := Some (mkPayload 1 100);
     udp_bitError := false; udp_control := Some (FromIP udp_ctrl) |}.

Lemma udp_demo_history : rtc udp_step UDP.initial udp_demo.
Proof.
  apply rtc_l with (udp_after (CommandFromApp UDP_C_BIND 0 (bind_to 7 1000)) UDP.initial);
    [exists (CommandFromApp UDP_C_BIND 0 (bind_to 7 1000)); vm_compute; reflexivity|].
  apply rtc_once. exists (CommandFromApp UDP_C_BIND 1 (bind_to 8 40000)). vm_compute. reflexivity.
Defined.

Definition socket7 : SockDesc :=
  {| sockId := 7; userId := 0; appGateIndex := 0; onlyLocalPortIsSet := true; sd_localAddr := IPv4 0;
     sd_remoteAddr := IPv4 0; sd_localPort := 1000; sd_remotePort := 0; sd_interfaceId := -1 |}.

Lemma udp_demo_sockets i sd :
  socketsByIdMap udp_demo !! i = Some sd -> isIPv6 (sd_localAddr sd) = false /\ isIPv6 (sd_remoteAddr sd) = false.
Proof.
  assert (map_Forall (fun _ sd => isIPv6 (sd_localAddr sd) = false /\ isIPv6 (sd_remoteAddr sd) = false)
    (socketsByIdMap udp_demo)) as Hall by (apply (bool_decide_unpack _); vm_compute; exact I).
  apply Hall.
Defined.


Lemma high_ports_unreachable_witness :
  exists s' m, processUDPPacket (packet_to 40000) udp_demo = Ok tt s' /\
    outs s' = outs udp_demo ++ [ByICMP (IcmpSendOut m)].
Proof.
  destruct (high_ports_unreachable udp_demo (packet_to 40000) udp_ctrl udp_dgram) as (_ & s' & m & Hrun & Hout & _);
    [exact udp_demo_history|reflexivity|reflexivity|vm_compute; split; congruence|vm_compute; reflexivity|reflexivity
    |reflexivity|vm_compute; reflexivity|vm_compute; congruence|vm_compute; congruence|].
  exists s', m. split; [exact Hrun|exact Hout].
Defined.
End Demo.
