(* ===== verification/LoopSpec.v ===== *)
(** * The loops of the network layer end

    The fuel the definitions give to their loops is enough: the search for a free
    UDP port, the removal of routes and the parser of the protocol map never run
    out of it. *)
From Stdlib Require Import String.
From S2P Require Import Prelude TcpTypes TcpSockets TcpSocketsSpec IPAddress MACAddress InterfaceTable RoutingTable RoutingSpec Frames IPDatagram UDP.

(** ** Operations without loops *)
Section No_fuel.
Context {S : Type}.

Definition no_fuel {A} (m : Eff S A) : Prop := forall s, m s <> Err OutOfFuel.

Lemma no_fuel_ret {A} (a : A) : no_fuel (ret a).
Proof. done. Qed.
Lemma no_fuel_gets {A} (f : S -> A) : no_fuel (gets f).
Proof. done. Qed.
Lemma no_fuel_modify f : no_fuel (modify f).
Proof. done. Qed.
Lemma no_fuel_fail {A} e : e <> OutOfFuel -> no_fuel (fail (A := A) e).
Proof. intros He s [= ->]. done. Qed.
Lemma no_fuel_bind {A B} (m : Eff S A) (k : A -> Eff S B) :
  no_fuel m -> (forall a, no_fuel (k a)) -> no_fuel (bind m k).
Proof.
  intros Hm Hk s. unfold bind. specialize (Hm s). destruct (m s) as [a s'|e]; [apply Hk|]. congruence.
Qed.
Lemma no_fuel_mapE {A B} (f : A -> Eff S B) l : (forall a, no_fuel (f a)) -> no_fuel (mapE f l).
Proof.
  intros Hf. induction l as [|a l IH]; cbn [mapE]; [done|].
  apply no_fuel_bind; [done|]. intros b. by apply no_fuel_bind.
Qed.
End No_fuel.

Create HintDb no_fuel discriminated.
#[export] Hint Resolve no_fuel_ret no_fuel_gets no_fuel_modify : no_fuel.
Ltac no_fuel_walk :=
  repeat first
  [ solve [eauto with no_fuel]
  | apply no_fuel_bind; [|intros ?]
  | apply no_fuel_mapE; intros ?
  | by apply no_fuel_fail
  | match goal with
    | |- no_fuel (if ?b then _ else _) => destruct b
    | |- no_fuel (match ?x with _ => _ end) => destruct x
    end ].

(** ** Removal of routes *)
Lemma no_fuel_deref p : no_fuel (deref p).
Proof. unfold deref, get_rt. no_fuel_walk. Qed.
Lemma no_fuel_ipv4Data {S} e : no_fuel (S := S) (ipv4Data e).
Proof. unfold ipv4Data. no_fuel_walk. Qed.
#[export] Hint Resolve no_fuel_deref no_fuel_ipv4Data : no_fuel.
Lemma no_fuel_isLocalAddress a : no_fuel (isLocalAddress a).
Proof. unfold isLocalAddress, get_rt, all_interfaces, set_rt. no_fuel_walk. Qed.
#[export] Hint Resolve no_fuel_isLocalAddress : no_fuel.
Lemma no_fuel_testValidity e : no_fuel (testValidity e).
Proof. unfold testValidity, get_rt. no_fuel_walk. Qed.
Lemma no_fuel_deleteRoute p : no_fuel (deleteRoute p).
Proof. unfold deleteRoute, get_rt, fireChangeNotification, set_rt, invalidateCache. no_fuel_walk. Qed.
#[export] Hint Resolve no_fuel_testValidity no_fuel_deleteRoute : no_fuel.

Definition route_vector (n : Node) : list positive := routes (rt n).

Lemma frames_deref_routes p : frames route_vector (deref p).
Proof. unfold deref, get_rt. frames_walk. Qed.
Lemma frames_ipv4Data_routes e : frames route_vector (ipv4Data e).
Proof. unfold ipv4Data. frames_walk. Qed.
#[export] Hint Resolve frames_deref_routes frames_ipv4Data_routes frames_mapE : frames.
Lemma frames_isLocalAddress_routes a : frames route_vector (isLocalAddress a).
Proof. unfold isLocalAddress, get_rt, all_interfaces, set_rt. frames_walk. Qed.
#[export] Hint Resolve frames_isLocalAddress_routes : frames.
Lemma frames_testValidity_routes e : frames route_vector (testValidity e).
Proof. unfold testValidity, get_rt. frames_walk. Qed.

Lemma remove_first_length p l : p ∈ l -> (length (remove_first p l) < length l)%nat.
Proof.
  induction l as [|q l IH]; simpl; [set_solver|]. destruct (decide (q = p)); simpl; [lia|].
  intros Hp. apply elem_of_cons in Hp as [->|Hp]; [done|]. apply IH in Hp. lia.
Qed.

Lemma deleteRoute_shorter p n b n' :
  deleteRoute p n = Ok b n' -> p ∈ route_vector n -> (length (route_vector n') < length (route_vector n))%nat.
Proof.
  unfold deleteRoute, route_vector. intros Hrun Hp.
  apply bind_inv in Hrun as (r & n1 & [= <- <-] & Hrun). unfold id in Hrun. rewrite bool_decide_true in Hrun by done.
  apply bind_inv in Hrun as (e & n2 & [-> _]%deref_inv & Hrun).
  unfold bind, fireChangeNotification, set_rt, modify, invalidateCache, ret in Hrun. injection Hrun as <- <-.
  cbn. by apply remove_first_length.
Qed.

Lemma dsdv_loop_fuel fuel i n :
  (length (route_vector n) - i < fuel)%nat -> dsdv_loop fuel i n <> Err OutOfFuel.
Proof.
  revert i n. induction fuel as [|fuel IH]; intros i n Hlen; [lia|]. cbn [dsdv_loop].
  rewrite (bind_ok (get_rt routes) _ n (route_vector n) n eq_refl).
  destruct (route_vector n !! i) as [p|] eqn:Hp; [|done].
  pose proof (lookup_lt_Some _ _ _ Hp) as Hi. apply list_elem_of_lookup_2 in Hp.
  unfold bind at 1. pose proof (no_fuel_deref p n) as Hd. destruct (deref p n) as [e n1|] eqn:Hde; [|congruence].
  apply deref_inv in Hde as [-> _].
  unfold bind at 1. pose proof (no_fuel_testValidity e n) as Ht.
  destruct (testValidity e n) as [valid n1|] eqn:Hte; [|congruence]. apply frames_testValidity_routes in Hte.
  destruct valid; [apply IH; rewrite Hte; lia|].
  unfold bind at 1. pose proof (no_fuel_deleteRoute p n1) as Hdel.
  destruct (deleteRoute p n1) as [b n2|] eqn:Hrun; [|congruence].
  apply deleteRoute_shorter in Hrun; [|by rewrite Hte]. apply IH. rewrite Hte in Hrun. lia.
Qed.

Lemma dsdvTestAndDelete_ends n : dsdvTestAndDelete n <> Err OutOfFuel.
Proof.
  unfold dsdvTestAndDelete, get_rt. unfold bind at 1, gets. destruct (timetolive_routing_entry _); [|done].
  unfold bind at 1. apply dsdv_loop_fuel. unfold route_vector. lia.
Qed.

Lemma delete_interface_routes_fuel fuel ifId n :
  (length (route_vector n) < fuel)%nat -> delete_interface_routes fuel ifId n <> Err OutOfFuel.
Proof.
  revert n. induction fuel as [|fuel IH]; intros n Hlen; [lia|]. cbn [delete_interface_routes].
  rewrite (bind_ok (get_rt routes) _ n (route_vector n) n eq_refl).
  unfold bind at 1. pose proof (no_fuel_mapE deref (route_vector n) no_fuel_deref n) as Hd.
  destruct (mapE deref _ n) as [es n1|] eqn:Hde; [|congruence]. apply mapE_deref_inv in Hde as [-> _].
  destruct (List.find _ _) as [[p e]|] eqn:Hf; [|done].
  apply List.find_some in Hf as [Hin _]. apply List.in_combine_l in Hin. apply list_elem_of_In in Hin.
  unfold bind at 1. pose proof (no_fuel_deleteRoute p n) as Hdel.
  destruct (deleteRoute p n) as [b n2|] eqn:Hrun; [|congruence].
  apply deleteRoute_shorter in Hrun; [|done]. apply IH. lia.
Qed.

Lemma deleteInterfaceRoutes_ends ifId n : deleteInterfaceRoutes ifId n <> Err OutOfFuel.
Proof. apply delete_interface_routes_fuel. unfold route_vector. lia. Qed.

(** ** The search for a UDP port *)
Lemma udp_searchPort_spec fuel s last i :
  is_ephemeral last = true -> 0 < i <= range_size -> range_size - i < Z.of_nat fuel ->
  UDP.lastEphemeralPort s = port_at last i ->
  match UDP.searchPort fuel last s with
  | Ok port s' => is_ephemeral port = true /\ UDP.socketsByPortMap s !! port = None
  | Err e => e <> OutOfFuel /\ forall j, i <= j <= range_size -> is_Some (UDP.socketsByPortMap s !! port_at last j)
  end.
Proof.
  intros Hlast. revert s i. induction fuel as [|fuel IH]; intros s i Hi Hf Hs; [lia|].
  cbn [UDP.searchPort]. rewrite (bind_ok (gets id) _ s s s eq_refl). unfold id.
  destruct (UDP.socketsByPortMap s !! _) as [l|] eqn:Hu.
  - destruct (Z.eqb_spec (UDP.lastEphemeralPort s) last) as [He|Hne].
    + cbn. split; [done|]. intros j Hj. rewrite Hs in He, Hu. apply port_at_last in He; [|done|done].
      replace j with i by lia. by rewrite Hu.
    + assert (i <> range_size) as Hi' by (intros He; apply Hne; rewrite Hs; by apply port_at_last).
      unfold bind at 1, modify.
      specialize (IH (s <| UDP.lastEphemeralPort := UDP.next_port (UDP.lastEphemeralPort s) |>) (i + 1)).
      destruct (UDP.searchPort fuel last _) as [port s'|e].
      * apply IH; [lia|lia|]. cbn. rewrite Hs. apply (next_port_at last i).
      * destruct IH as [He Hall]; [lia|lia|cbn; rewrite Hs; apply (next_port_at last i)|]. split; [done|].
        intros j Hj. destruct (Z.eq_dec j i) as [->|]; [rewrite <- Hs, Hu; done|]. apply Hall. lia.
  - cbn. rewrite Hs in *. split; [apply port_at_ephemeral|done].
Qed.

(** The search returns a free port of the range, or an error if there is none. *)
Lemma udp_getEphemeralPort_spec s :
  is_ephemeral (UDP.lastEphemeralPort s) = true ->
  match UDP.getEphemeralPort s with
  | Ok port _ => is_ephemeral port = true /\ UDP.socketsByPortMap s !! port = None
  | Err e => e <> OutOfFuel /\ forall port, is_ephemeral port = true -> is_Some (UDP.socketsByPortMap s !! port)
  end.
Proof.
  intros Hlast. unfold UDP.getEphemeralPort. rewrite (bind_ok (gets _) _ s _ s eq_refl). unfold bind, modify.
  assert (port_at (UDP.lastEphemeralPort s) 0 = UDP.lastEphemeralPort s) as H0.
  { revert Hlast. unfold is_ephemeral, port_at, range_size, EPHEMERAL_PORTRANGE_START, EPHEMERAL_PORTRANGE_END. lia. }
  pose proof (udp_searchPort_spec 3977 (s <| UDP.lastEphemeralPort := UDP.next_port (UDP.lastEphemeralPort s) |>)
                (UDP.lastEphemeralPort s) 1 Hlast) as Hs.
  assert (0 < 1 <= range_size /\ range_size - 1 < Z.of_nat 3977) as [Hr1 Hr2]
    by (unfold range_size, EPHEMERAL_PORTRANGE_START, EPHEMERAL_PORTRANGE_END; lia).
  specialize (Hs Hr1 Hr2).
  assert (UDP.next_port (UDP.lastEphemeralPort s) = port_at (UDP.lastEphemeralPort s) 1) as Hn.
  { rewrite <- H0 at 1. apply (next_port_at (UDP.lastEphemeralPort s) 0). }
  specialize (Hs Hn). destruct (UDP.searchPort 3977 _ _) as [port s'|e]; [done|].
  destruct Hs as [He Hall]. split; [done|]. intros port Hp.
  destruct (port_at_surj _ _ Hlast Hp) as (i & Hi & <-). apply (Hall i). lia.
Qed.

(** ** The protocol map *)
Section Protocol_map.
Import ProtocolMapping.

Lemma skip_spaces_length s : (String.length (skip_spaces s) <= String.length s)%nat.
Proof. induction s as [|c s IH]; simpl; [done|]. destruct (isspace c); simpl; lia. Qed.

Lemma read_number_length n s : (String.length (snd (read_number n s)) <= String.length s)%nat.
Proof. revert n. induction s as [|c s IH]; intros n; simpl; [done|]. destruct (IPAddress.is_digit c); [|done]. etrans; [apply IH|lia]. Qed.

(** An entry consumes at least its colon. *)
Lemma parse_entry_shorter s :
  match parse_entry s with
  | inl (_, rest) => (String.length rest < String.length s)%nat
  | inr e => e <> OutOfFuel
  end.
Proof.
  unfold parse_entry. destruct (negb _); [done|].
  pose proof (read_number_length 0 s) as H1. destruct (read_number 0 s) as [k [|c r]]; [done|]. simpl in H1.
  destruct (negb _); [done|]. destruct (negb _); [done|].
  pose proof (skip_spaces_length r) as H2. pose proof (read_number_length 0 (skip_spaces r)) as H3.
  destruct (read_number 0 (skip_spaces r)) as [g r2]. simpl in H3. pose proof (skip_spaces_length r2). lia.
Qed.

Lemma parse_loop_fuel fuel s es : (String.length s < fuel)%nat -> parse_loop fuel s es <> inr OutOfFuel.
Proof.
  revert s es. induction fuel as [|fuel IH]; intros s es Hlen; [lia|]. cbn [parse_loop].
  destruct s as [|c s]; [done|]. pose proof (parse_entry_shorter (String c s)) as Hp.
  destruct (parse_entry (String c s)) as [[e r]|e]; [|congruence].
  destruct r as [|c2 r]; [done|]. destruct (negb _); [done|]. apply IH.
  pose proof (skip_spaces_length r). simpl in *. lia.
Qed.

Lemma parseProtocolMapping_ends s : parseProtocolMapping s <> inr OutOfFuel.
Proof. apply parse_loop_fuel. pose proof (skip_spaces_length s). lia. Qed.
End Protocol_map.
