(* ===== verification/EtherSwitch.v ===== *)
(** * Ethernet switches

    [linklayer/etherswitch]: the address table and forwarding of
    [MACRelayUnitBase], and its two subclasses that add the buffers and
    processors, [MACRelayUnitNP] (a shared queue, [numCPUs] processors) and
    [MACRelayUnitPP] (a queue and a processor for each port).  The frame classes are
    those of [linklayer/ethernet/EtherFrame.msg]; a frame comes with the index of
    the gate it arrived on.  Times are in ticks. *)
From Stdlib Require Import String Ascii.
From S2P Require Import Prelude IPAddress MACAddress.

Definition ETHER_MAC_FRAME_BYTES : Z := 6 + 6 + 2 + 4.
Definition ETHER_PAUSE_COMMAND_BYTES : Z := 6.
Definition MIN_ETHERNET_FRAME : Z := 64.

(** [fr_pauseTime] is there in an [EtherPauseFrame]; [fr_contents] stands for the
    other fields and the encapsulated packet, which the switch does not look at. *)
Record EtherFrame : Type := mkFrame {
  fr_dest : MACAddress.t;
  fr_src : MACAddress.t;
  fr_length : Z;
  fr_pauseTime : option Z;
  fr_contents : Z
}.
#[export] Instance EtherFrame_eq_dec : EqDecision EtherFrame.
Proof. solve_decision. Defined.

Module MACRelayUnitBase.
Record AddressEntry : Type := mkEntry { portno : Z; insertionTime : Z }.

(** [sent]: the frames sent, with the index of the gate [lowerLayerOut]. *)
Record t : Type := mk {
  numPorts : Z;
  addressTableSize : Z;
  agingTime : Z;
  addresstable : gmap MACAddress.t AddressEntry;
  seqNum : Z;
  ticksPerSecond : Z;
  clock : Z;
  sent : list (Z * EtherFrame)
}.
#[global] Instance eta : Eta t := fun s =>
  {| numPorts := numPorts s; addressTableSize := addressTableSize s; agingTime := agingTime s;
     addresstable := addresstable s; seqNum := seqNum s; ticksPerSecond := ticksPerSecond s;
     clock := clock s; sent := sent s |}.

(** [send(frame, "lowerLayerOut", i)] *)
Definition send (frame : EtherFrame) (i : Z) : Eff t unit :=
  let! n := gets numPorts in
  if (0 <=? i) && (i <? n) then modify (fun s => s <| sent := sent s ++ [(i, frame)] |>)
  else fail (RuntimeError "gate index out of range").

Definition ports (s : t) : list Z := Z.of_nat <$> seq 0 (Z.to_nat (numPorts s)).

Definition broadcastFrame (frame : EtherFrame) (inputport : Z) : Eff t unit :=
  let! ps := gets ports in
  let! _ := mapE (fun i => if negb (i =? inputport) then send frame i else ret tt) ps in
  ret tt.

(** ** The address table *)
Definition aged (s : t) (e : AddressEntry) : bool := insertionTime e + agingTime s <=? clock s.

Definition removeAgedEntriesFromTable : Eff t unit :=
  modify (fun s => s <| addresstable := filter (fun p => aged s (snd p) = false) (addresstable s) |>).

(** The entries in the order of [MAC_compare]. *)
Definition entry_le (a b : MACAddress.t * AddressEntry) : Prop := (MACAddress.compareTo (fst a) (fst b) <= 0)%Z.
#[global] Instance entry_le_dec a b : Decision (entry_le a b).
Proof. unfold entry_le. apply _. Defined.
Definition in_order (m : gmap MACAddress.t AddressEntry) : list (MACAddress.t * AddressEntry) :=
  merge_sort entry_le (map_to_list m).

(** The first entry with the least insertion time below [oldestInsertTime]. *)
Fixpoint oldest_loop (l : list (MACAddress.t * AddressEntry)) (oldest : option MACAddress.t) (oldestInsertTime : Z)
    : option MACAddress.t :=
  match l with
  | [] => oldest
  | (a, e) :: rest =>
      if insertionTime e <? oldestInsertTime then oldest_loop rest (Some a) (insertionTime e)
      else oldest_loop rest oldest oldestInsertTime
  end.

Definition removeOldestTableEntry : Eff t unit :=
  let! s := gets id in
  match oldest_loop (in_order (addresstable s)) None (clock s + ticksPerSecond s) with
  | Some a => modify (fun s => s <| addresstable := delete a (addresstable s) |>)
  | None => ret tt
  end.

Definition full (s : t) : bool := Z.of_nat (size (addresstable s)) =? addressTableSize s.

Definition updateTableWithAddress (address : MACAddress.t) (port : Z) : Eff t unit :=
  let! s := gets id in
  match addresstable s !! address with
  | None =>
      when (negb (addressTableSize s =? 0) && full s)
        (removeAgedEntriesFromTable ;;;
         let! s := gets id in
         when (full s) removeOldestTableEntry) ;;;
      modify (fun s => s <| addresstable := <[address := mkEntry port (clock s)]> (addresstable s) |>)
  | Some _ =>
      modify (fun s => s <| addresstable := <[address := mkEntry port (clock s)]> (addresstable s) |>)
  end.

(** -1 if the address is not known. *)
Definition getPortForAddress (address : MACAddress.t) : Eff t Z :=
  let! s := gets id in
  match addresstable s !! address with
  | None => ret (-1)
  | Some e =>
      if aged s e then modify (fun s => s <| addresstable := delete address (addresstable s) |>) ;;; ret (-1)
      else ret (portno e)
  end.

(** ** Frames *)
Definition handleAndDispatchFrame (frame : EtherFrame) (inputport : Z) : Eff t unit :=
  updateTableWithAddress (fr_src frame) inputport ;;;
  if MACAddress.isBroadcast (fr_dest frame) then broadcastFrame frame inputport
  else
    let! outputport := getPortForAddress (fr_dest frame) in
    if inputport =? outputport then ret tt
    else if 0 <=? outputport then send frame outputport
    else broadcastFrame frame inputport.

Definition pause_frame (pauseUnits : Z) : EtherFrame :=
  let len := ETHER_MAC_FRAME_BYTES + ETHER_PAUSE_COMMAND_BYTES in
  {| fr_dest := MACAddress.UNSPECIFIED_ADDRESS; fr_src := MACAddress.UNSPECIFIED_ADDRESS;
     fr_length := if len <? MIN_ETHERNET_FRAME then MIN_ETHERNET_FRAME else len;
     fr_pauseTime := Some pauseUnits; fr_contents := 0 |}.

Definition sendPauseFrame (port pauseUnits : Z) : Eff t unit :=
  modify (fun s => s <| seqNum := i32 (seqNum s + 1) |>) ;;;
  send (pause_frame pauseUnits) port.

(** ** The address table file

    [fgets] with a buffer of [MAX_LINE] characters: at most 99 characters, up to
    and including a newline. *)
Definition MAX_LINE : nat := 100.
Definition newline : ascii := ascii_of_nat 10.

Fixpoint fgets (n : nat) (file : string) : string * string :=
  match n, file with
  | S n, String c rest =>
      if bool_decide (c = newline) then (String c EmptyString, rest)
      else let '(line, rest) := fgets n rest in (String c line, rest)
  | _, _ => (EmptyString, file)
  end.

Definition is_eol (c : ascii) : bool := bool_decide (c = newline) || bool_decide (c = ascii_of_nat 13).

(** Without the newlines and carriage returns at its end. *)
Fixpoint chop (line : string) : string :=
  match line with
  | EmptyString => EmptyString
  | String c rest =>
      match chop rest with
      | EmptyString => if is_eol c then EmptyString else String c EmptyString
      | rest => String c rest
      end
  end.

(** [None] at the end of the file. *)
Definition fgetline (file : string) : option (string * string) :=
  match file with
  | EmptyString => None
  | _ => let '(line, rest) := fgets (MAX_LINE - 1) file in Some (chop line, rest)
  end.

(** [strtok(line, " \t")]: the first token and the text after the character that
    ends it. *)
Definition is_delim (c : ascii) : bool := bool_decide (c = " "%char) || bool_decide (c = ascii_of_nat 9).
Fixpoint skip_delims (s : string) : string :=
  match s with
  | String c rest => if is_delim c then skip_delims rest else s
  | EmptyString => s
  end.
Fixpoint span_token (s : string) : string * string :=
  match s with
  | String c rest =>
      if is_delim c then (EmptyString, rest)
      else let '(token, rest) := span_token rest in (String c token, rest)
  | EmptyString => (EmptyString, EmptyString)
  end.
Definition strtok (s : string) : option string * string :=
  match skip_delims s with
  | EmptyString => (None, EmptyString)
  | s => let '(token, rest) := span_token s in (Some token, rest)
  end.

(** [atoi]: space, a sign, digits. *)
Definition is_space (c : ascii) : bool :=
  let n := nat_of_ascii c in ((n =? 32) || ((9 <=? n) && (n <=? 13)))%nat.
Fixpoint skip_space (s : string) : string :=
  match s with
  | String c rest => if is_space c then skip_space rest else s
  | EmptyString => s
  end.
Fixpoint digits_value (n : Z) (s : string) : Z :=
  match s with
  | String c rest => if IPAddress.is_digit c then digits_value (10 * n + IPAddress.digit_value c) rest else n
  | EmptyString => n
  end.
Definition atoi (s : string) : Z :=
  match skip_space s with
  | String c rest =>
      if bool_decide (c = "-"%char) then - digits_value 0 rest
      else if bool_decide (c = "+"%char) then digits_value 0 rest
      else digits_value 0 (String c rest)
  | EmptyString => 0
  end.

Definition is_comment (line : string) : bool :=
  match line with String c _ => bool_decide (c = "#"%char) | EmptyString => false end.

(** One line of the file. *)
Definition read_line (line : string) (table : gmap MACAddress.t AddressEntry)
    : gmap MACAddress.t AddressEntry + Error :=
  if is_comment line then inl table
  else
    let '(hexaddress, rest) := strtok line in
    match hexaddress with
    | None => inl table
    | Some hexaddress =>
        match fst (strtok rest) with
        | None => inr (RuntimeError "line invalid in address table file")
        | Some port =>
            match MACAddress.setAddress (Some hexaddress) with
            | inl a => inl (<[a := mkEntry (atoi port) 0]> table)
            | inr e => inr e
            end
        end
    end.

Fixpoint read_lines (fuel : nat) (file : string) (table : gmap MACAddress.t AddressEntry)
    : gmap MACAddress.t AddressEntry + Error :=
  match fuel with
  | O => inr OutOfFuel
  | S fuel =>
      match fgetline file with
      | None => inl table
      | Some (line, rest) =>
          match read_line line table with
          | inl table => read_lines fuel rest table
          | inr e => inr e
          end
      end
  end.
Definition readAddressTable (file : string) (table : gmap MACAddress.t AddressEntry)
    : gmap MACAddress.t AddressEntry + Error :=
  read_lines (S (String.length file)) file table.

(** The parameters as the module reads them; [file] is the contents of the address
    table file, if one is given. *)
Definition initialize (nports tableSize aging ticks now : Z) (file : option string) : t + Error :=
  let table := match file with Some f => readAddressTable f ∅ | None => inl ∅ end in
  match table with
  | inl table =>
      inl {| numPorts := nports; addressTableSize := if 0 <=? tableSize then tableSize else 0;
             agingTime := if 0 <? aging then aging else 10 * ticks; addresstable := table; seqNum := 0;
             ticksPerSecond := ticks; clock := now; sent := [] |}
  | inr e => inr e
  end.
End MACRelayUnitBase.

(** ** A shared queue and several processors *)
Module MACRelayUnitNP.
Import MACRelayUnitBase.

(** A frame in the switch, with its input port. *)
Definition Job : Type := EtherFrame * Z.

(** [endProcEvents[i]]: the frame the context pointer points to, and the time the
    event is scheduled for. *)
Record Cpu : Type := mkCpu { context : option Job; scheduled : option Z }.

Record t : Type := mk {
  base : MACRelayUnitBase.t;
  queue : list Job;
  cpus : list Cpu;
  processingTime : Z;
  bufferSize : Z;
  highWatermark : Z;
  pauseUnits : Z;
  pauseInterval : Z;
  bufferUsed : Z;
  pauseLastSent : Z;
  numProcessedFrames : Z;
  numDroppedFrames : Z
}.
#[global] Instance eta : Eta t := fun s =>
  {| base := base s; queue := queue s; cpus := cpus s; processingTime := processingTime s;
     bufferSize := bufferSize s; highWatermark := highWatermark s; pauseUnits := pauseUnits s;
     pauseInterval := pauseInterval s; bufferUsed := bufferUsed s; pauseLastSent := pauseLastSent s;
     numProcessedFrames := numProcessedFrames s; numDroppedFrames := numDroppedFrames s |}.

Definition on_base {A} (m : Eff MACRelayUnitBase.t A) : Eff t A := fun s =>
  match m (base s) with Ok a b => Ok a (s <| base := b |>) | Err e => Err e end.
Definition simTime : Eff t Z := gets (fun s => clock (base s)).

(** PAUSE frames on all ports, if the buffer is above the watermark and the last
    ones are long enough ago. *)
Definition send_pause : Eff t unit :=
  let! s := gets id in
  let! now := simTime in
  when ((0 <? pauseUnits s) && (0 <? highWatermark s) && (highWatermark s <=? bufferUsed s) &&
        (pauseInterval s <? now - pauseLastSent s))
    (let! _ := mapE (fun i => on_base (sendPauseFrame i (pauseUnits s))) (ports (base s)) in
     modify (fun s => s <| pauseLastSent := now |>)).

(** The first processor whose event is not scheduled. *)
Fixpoint free_cpu (l : list Cpu) : option nat :=
  match l with
  | [] => None
  | c :: rest => match scheduled c with None => Some 0%nat | Some _ => S <$> free_cpu rest end
  end.

Definition set_cpu (i : nat) (c : Cpu) : Eff t unit := modify (fun s => s <| cpus := <[i := c]> (cpus s) |>).

Definition handleIncomingFrame (frame : EtherFrame) (gate : Z) : Eff t unit :=
  let! s := gets id in
  if fr_length frame + bufferUsed s <? bufferSize s then
    modify (fun s => s <| bufferUsed := i32 (bufferUsed s + fr_length frame) |>) ;;;
    send_pause ;;;
    let! now := simTime in
    match free_cpu (cpus s) with
    | None => modify (fun s => s <| queue := queue s ++ [(frame, gate)] |>)
    | Some i =>
        match cpus s !! i with
        | Some {| context := Some _ |} => fail (AssertionFailed "msg->getContextPointer()==NULL")
        | _ => set_cpu i (mkCpu (Some (frame, gate)) (Some (now + processingTime s)))
        end
    end
  else modify (fun s => s <| numDroppedFrames := numDroppedFrames s + 1 |>).

(** The event of processor [cpu] has fired, so it is no longer scheduled. *)
Definition processFrame (cpu : nat) : Eff t unit :=
  let! c := gets (fun s => cpus s !! cpu) in
  match c with
  | Some {| context := Some (frame, inputport) |} =>
      set_cpu cpu (mkCpu None None) ;;;
      on_base (handleAndDispatchFrame frame inputport) ;;;
      modify (fun s => s <| bufferUsed := i32 (bufferUsed s - fr_length frame) |>
                         <| numProcessedFrames := numProcessedFrames s + 1 |>) ;;;
      let! s := gets id in
      match queue s with
      | job :: rest =>
          let! now := simTime in
          modify (fun s => s <| queue := rest |>) ;;;
          set_cpu cpu (mkCpu (Some job) (Some (now + processingTime s)))
      | [] => ret tt
      end
  | _ => fail (AssertionFailed "frame")
  end.

Inductive Event : Type :=
| FrameArrival (frame : EtherFrame) (gate : Z)
| EndProcessing (cpu : nat).

Definition handleMessage (ev : Event) : Eff t unit :=
  match ev with
  | FrameArrival frame gate => handleIncomingFrame frame gate
  | EndProcessing cpu => processFrame cpu
  end.

Definition initialize (b : MACRelayUnitBase.t) (numCPUs : nat) (procTime bufSize watermark units interval : Z) : t :=
  {| base := b; queue := []; cpus := replicate numCPUs (mkCpu None None); processingTime := procTime;
     bufferSize := bufSize; highWatermark := watermark; pauseUnits := units; pauseInterval := interval;
     bufferUsed := 0; pauseLastSent := 0; numProcessedFrames := 0; numDroppedFrames := 0 |}.
End MACRelayUnitNP.

(** ** A queue and a processor for each port *)
Module MACRelayUnitPP.
Import MACRelayUnitBase.

(** [endProcessing] is the time the event of the port is scheduled for. *)
Record PortBuffer : Type := mkBuffer {
  port : Z;
  cpuBusy : bool;
  queue : list EtherFrame;
  endProcessing : option Z
}.
#[global] Instance eta_PortBuffer : Eta PortBuffer := fun b =>
  {| port := port b; cpuBusy := cpuBusy b; queue := queue b; endProcessing := endProcessing b |}.

Record t : Type := mk {
  base : MACRelayUnitBase.t;
  buffer : list PortBuffer;
  processingTime : Z;
  bufferSize : Z;
  highWatermark : Z;
  pauseUnits : Z;
  pauseInterval : Z;
  bufferUsed : Z;
  pauseLastSent : Z;
  numProcessedFrames : Z;
  numDroppedFrames : Z
}.
#[global] Instance eta : Eta t := fun s =>
  {| base := base s; buffer := buffer s; processingTime := processingTime s;
     bufferSize := bufferSize s; highWatermark := highWatermark s; pauseUnits := pauseUnits s;
     pauseInterval := pauseInterval s; bufferUsed := bufferUsed s; pauseLastSent := pauseLastSent s;
     numProcessedFrames := numProcessedFrames s; numDroppedFrames := numDroppedFrames s |}.

Definition on_base {A} (m : Eff MACRelayUnitBase.t A) : Eff t A := fun s =>
  match m (base s) with Ok a b => Ok a (s <| base := b |>) | Err e => Err e end.
Definition simTime : Eff t Z := gets (fun s => clock (base s)).

Definition send_pause : Eff t unit :=
  let! s := gets id in
  let! now := simTime in
  when ((0 <? pauseUnits s) && (0 <? highWatermark s) && (highWatermark s <=? bufferUsed s) &&
        (pauseInterval s <? now - pauseLastSent s))
    (let! _ := mapE (fun i => on_base (sendPauseFrame i (pauseUnits s))) (ports (base s)) in
     modify (fun s => s <| pauseLastSent := now |>)).

(** The buffer of a port; an index out of range is undefined behaviour. *)
Definition buffer_at (i : Z) : Eff t PortBuffer :=
  let! b := gets (fun s => if 0 <=? i then buffer s !! Z.to_nat i else None) in
  match b with
  | Some b => ret b
  | None => fail (NullPointer "buffer[inputport]")
  end.
Definition set_buffer (i : Z) (b : PortBuffer) : Eff t unit :=
  modify (fun s => s <| buffer := <[Z.to_nat i := b]> (buffer s) |>).

Definition handleIncomingFrame (frame : EtherFrame) (inputport : Z) : Eff t unit :=
  let! s := gets id in
  if fr_length frame + bufferUsed s <? bufferSize s then
    let! b := buffer_at inputport in
    let b := b <| queue := queue b ++ [frame] |> <| port := inputport |> in
    set_buffer inputport b ;;;
    modify (fun s => s <| bufferUsed := i32 (bufferUsed s + fr_length frame) |>) ;;;
    send_pause ;;;
    let! now := simTime in
    when (negb (cpuBusy b))
      (set_buffer inputport (b <| cpuBusy := true |> <| endProcessing := Some (now + processingTime s) |>))
  else modify (fun s => s <| numDroppedFrames := numDroppedFrames s + 1 |>).

(** The event of the buffer at position [i] has fired. *)
Definition processFrame (i : Z) : Eff t unit :=
  let! b := buffer_at i in
  match queue b with
  | [] => fail (RuntimeError "cQueue::pop(): queue empty")
  | frame :: rest =>
      set_buffer i (b <| queue := rest |> <| endProcessing := None |>) ;;;
      on_base (handleAndDispatchFrame frame (port b)) ;;;
      modify (fun s => s <| bufferUsed := i32 (bufferUsed s - fr_length frame) |>
                         <| numProcessedFrames := numProcessedFrames s + 1 |>) ;;;
      let! s := gets id in
      let! now := simTime in
      set_buffer i (b <| queue := rest |>
                      <| endProcessing := match rest with [] => None | _ => Some (now + processingTime s) end |>
                      <| cpuBusy := match rest with [] => false | _ => cpuBusy b end |>)
  end.

Inductive Event : Type :=
| FrameArrival (frame : EtherFrame) (gate : Z)
| EndProcessing (i : Z).

Definition handleMessage (ev : Event) : Eff t unit :=
  match ev with
  | FrameArrival frame gate => handleIncomingFrame frame gate
  | EndProcessing i => processFrame i
  end.

Definition initialize (b : MACRelayUnitBase.t) (procTime bufSize watermark units interval : Z) : t :=
  {| base := b; buffer := (fun i => mkBuffer i false [] None) <$> ports b; processingTime := procTime;
     bufferSize := bufSize; highWatermark := watermark; pauseUnits := units; pauseInterval := interval;
     bufferUsed := 0; pauseLastSent := 0; numProcessedFrames := 0; numDroppedFrames := 0 |}.
End MACRelayUnitPP.
