(* ===== verification/EtherSwitchSpec.v ===== *)
(** * What an Ethernet switch does

    The forwarding of [MACRelayUnitBase] refines an abstract switch that remembers
    forever where each address was heard last; the buffers and processors of the
    two subclasses lose no frame and never fail an assertion. *)
From Stdlib Require Import String Ascii.
From S2P Require Import Prelude IPAddress MACAddress EtherSwitch.

(** ** The abstract switch *)
Section Forwarding.
Import MACRelayUnitBase.
Implicit Types (s : t) (h : gmap MACAddress.t AddressEntry) (frame : EtherFrame).

(** All ports but the one the frame came from. *)
Definition flood (n : Z) frame (inport : Z) : list (Z * EtherFrame) :=
  (fun i => (i, frame)) <$> filter (fun i => i <> inport) (Z.of_nat <$> seq 0 (Z.to_nat n)).

(** Where an address was heard less than [aging] ago. *)
Definition whereabouts h (aging now : Z) (a : MACAddress.t) : option Z :=
  match h !! a with
  | Some e => if now <? insertionTime e + aging then Some (portno e) else None
  | None => None
  end.

Definition hear h (now : Z) frame (inport : Z) : gmap MACAddress.t AddressEntry :=
  <[fr_src frame := mkEntry inport now]> h.

Definition forwarded (n aging : Z) h (now : Z) frame (inport : Z) : list (Z * EtherFrame) :=
  if MACAddress.isBroadcast (fr_dest frame) then flood n frame inport
  else match whereabouts h aging now (fr_dest frame) with
       | Some p => if p =? inport then [] else [(p, frame)]
       | None => flood n frame inport
       end.

(** A frame, the time it is processed and its input port. *)
Definition Arrival : Type := Z * EtherFrame * Z.

Fixpoint abstract_switch (n aging : Z) h (evs : list Arrival) : list (list (Z * EtherFrame)) :=
  match evs with
  | [] => []
  | (now, frame, inport) :: rest =>
      let h := hear h now frame inport in
      forwarded n aging h now frame inport :: abstract_switch n aging h rest
  end.

(** ** The relation between the two *)
Record represents h s : Prop := {
  rep_sound : forall a e, addresstable s !! a = Some e -> h !! a = Some e;
  rep_complete : addressTableSize s = 0 -> forall a e, h !! a = Some e ->
    clock s < insertionTime e + agingTime s -> addresstable s !! a = Some e;
  rep_ports : forall a e, h !! a = Some e -> 0 <= portno e < numPorts s;
  rep_past : forall a e, h !! a = Some e -> insertionTime e <= clock s;
  rep_size : 0 <= addressTableSize s /\
    (addressTableSize s <> 0 -> Z.of_nat (size (addresstable s)) <= addressTableSize s);
  rep_ticks : 0 < ticksPerSecond s
}.

Lemma send_run s frame i :
  0 <= i < numPorts s -> send frame i s = Ok tt (s <| sent := sent s ++ [(i, frame)] |>).
Proof.
  intros Hi. unfold send. rewrite (bind_ok (gets _) _ s (numPorts s) s eq_refl).
  by rewrite (proj2 (Z.leb_le _ _)), (proj2 (Z.ltb_lt _ _)) by lia.
Qed.

Lemma broadcast_loop s frame inport l :
  Forall (fun i => 0 <= i < numPorts s) l ->
  mapE (fun i => if negb (i =? inport) then send frame i else ret tt) l s =
  Ok (replicate (length l) tt)
     (s <| sent := sent s ++ ((fun i => (i, frame)) <$> filter (fun i => i <> inport) l) |>).
Proof.
  revert s. induction l as [|i l IH]; intros s Hl; cbn [mapE length replicate].
  - rewrite filter_nil, fmap_nil, app_nil_r. by destruct s.
  - apply Forall_cons in Hl as [Hi Hl]. destruct (Z.eqb_spec i inport) as [->|Hne]; cbn [negb].
    + rewrite (bind_ok (ret tt) _ s tt s eq_refl). erewrite (bind_ok (mapE _ l)) by apply (IH s Hl).
      rewrite filter_cons_False by tauto. done.
    + rewrite (bind_ok _ _ _ _ _ (send_run s frame i Hi)). erewrite (bind_ok (mapE _ l)) by (apply IH; exact Hl).
      rewrite filter_cons_True by done. unfold ret. f_equal. cbn. by rewrite <- app_assoc.
Qed.

Lemma ports_in_range s : Forall (fun i => 0 <= i < numPorts s) (ports s).
Proof. unfold ports. apply Forall_fmap, Forall_seq. cbn. lia. Qed.

Lemma broadcastFrame_run s frame inport :
  broadcastFrame frame inport s = Ok tt (s <| sent := sent s ++ flood (numPorts s) frame inport |>).
Proof.
  unfold broadcastFrame. rewrite (bind_ok (gets ports) _ s (ports s) s eq_refl).
  by rewrite (bind_ok _ _ _ _ _ (broadcast_loop s frame inport _ (ports_in_range s))).
Qed.

(** ** The table *)
Lemma oldest_loop_some l a0 b :
  (exists a, oldest_loop l (Some a0) b = Some a /\ (a = a0 \/ a ∈ l.*1)).
Proof.
  revert a0 b. induction l as [|[a e] l IH]; intros a0 b; cbn; [by exists a0; split; [|left]|].
  destruct (_ <? _).
  - destruct (IH a (insertionTime e)) as (a' & -> & [->|Ha]); exists a' || eexists; split; try done; right; set_solver.
  - destruct (IH a0 b) as (a' & -> & [->|Ha]); eexists; (split; [done|]); [by left|right; set_solver].
Qed.

Lemma oldest_loop_found l b :
  l <> [] -> Forall (fun p => insertionTime (snd p) < b) l -> exists a, oldest_loop l None b = Some a /\ a ∈ l.*1.
Proof.
  destruct l as [|[a e] l]; [done|]. intros _ Hl. apply Forall_cons in Hl as [He _]. cbn in *.
  rewrite (proj2 (Z.ltb_lt _ _) He). destruct (oldest_loop_some l a (insertionTime e)) as (a' & -> & Ha).
  exists a'. split; [done|]. set_solver.
Qed.

Lemma in_order_perm m : in_order m ≡ₚ map_to_list m.
Proof. apply merge_sort_Permutation. Qed.

Lemma removeOldest_run h s :
  represents h s -> addresstable s <> ∅ ->
  exists a, is_Some (addresstable s !! a) /\
    removeOldestTableEntry s = Ok tt (s <| addresstable := delete a (addresstable s) |>).
Proof.
  intros Hr Hne. unfold removeOldestTableEntry. rewrite (bind_ok (gets id) _ s s s eq_refl). unfold id.
  destruct (oldest_loop_found (in_order (addresstable s)) (clock s + ticksPerSecond s)) as (a & -> & Ha).
  - intros Hnil. apply Hne, map_to_list_empty_iff. apply Permutation_nil_r. rewrite <- Hnil. symmetry. apply in_order_perm.
  - rewrite in_order_perm. apply Forall_forall. intros [a e] Hin. apply elem_of_map_to_list in Hin. cbn.
    apply (rep_sound _ _ Hr), (rep_past _ _ Hr) in Hin. pose proof (rep_ticks _ _ Hr). lia.
  - exists a. split; [|done]. rewrite in_order_perm in Ha. apply list_elem_of_fmap in Ha as ([a' e] & -> & Hin).
    apply elem_of_map_to_list in Hin. by eexists.
Qed.

(** The entry is there afterwards; others may have been thrown out. *)
Lemma represents_insert h s tbl a inport :
  represents h s -> tbl ⊆ addresstable s -> 0 <= inport < numPorts s ->
  (addressTableSize s = 0 -> tbl = addresstable s) ->
  (addressTableSize s <> 0 -> is_Some (tbl !! a) \/ Z.of_nat (size tbl) < addressTableSize s) ->
  represents (<[a := mkEntry inport (clock s)]> h) (s <| addresstable := <[a := mkEntry inport (clock s)]> tbl |>).
Proof.
  intros Hr Hsub Hp Hall Hroom. destruct Hr as [H1 H2 H3 H4 [H5 H6] H7]. split; cbn -[size].
  - intros b e. destruct (decide (b = a)) as [->|]; [by rewrite !lookup_insert_eq|].
    rewrite !lookup_insert_ne by done. intros He. apply H1. by eapply lookup_weaken.
  - intros Hz b e. destruct (decide (b = a)) as [->|]; [by rewrite !lookup_insert_eq|].
    rewrite !lookup_insert_ne, (Hall Hz) by done. by apply H2.
  - intros b e. destruct (decide (b = a)) as [->|]; [rewrite lookup_insert_eq; by intros [= <-]|].
    rewrite lookup_insert_ne by done. apply H3.
  - intros b e. destruct (decide (b = a)) as [->|]; [rewrite lookup_insert_eq; by intros [= <-]|].
    rewrite lookup_insert_ne by done. apply H4.
  - split; [done|]. intros Hz. pose proof (map_subseteq_size _ _ Hsub) as Hs. specialize (H6 Hz).
    destruct (Hroom Hz) as [Hin|Hlt]; [rewrite map_size_insert_Some by done; lia|].
    rewrite map_size_insert. destruct (tbl !! a); unfold id; lia.
  - done.
Qed.

Lemma full_spec s : full s = true <-> Z.of_nat (size (addresstable s)) = addressTableSize s.
Proof. unfold full. by rewrite Z.eqb_eq. Qed.

(** Throwing entries out keeps the representation of a limited table. *)
Lemma represents_shrink h s tbl :
  represents h s -> tbl ⊆ addresstable s -> addressTableSize s <> 0 -> represents h (s <| addresstable := tbl |>).
Proof.
  intros [H1 H2 H3 H4 [H5 H6] H7] Hsub Hz. pose proof (map_subseteq_size _ _ Hsub) as Hs.
  split; cbn -[size]; [|done..| |done].
  - intros a e He. apply H1. by eapply lookup_weaken.
  - split; [done|]. intros _. specialize (H6 Hz). lia.
Qed.

Lemma make_room_run h s :
  represents h s -> addressTableSize s <> 0 -> full s = true ->
  exists tbl, tbl ⊆ addresstable s /\ Z.of_nat (size tbl) < addressTableSize s /\
    (removeAgedEntriesFromTable ;;; let! s := gets id in when (full s) removeOldestTableEntry) s =
    Ok tt (s <| addresstable := tbl |>).
Proof.
  intros Hr Hz Hfull. apply full_spec in Hfull. set (tbl := filter (fun p => aged s (snd p) = false) (addresstable s)).
  assert (tbl ⊆ addresstable s) as Hsub by apply map_filter_subseteq.
  pose proof (map_subseteq_size _ _ Hsub) as Hs.
  pose proof (represents_shrink h s tbl Hr Hsub Hz) as Hr1.
  rewrite (bind_ok removeAgedEntriesFromTable _ s tt (s <| addresstable := tbl |>) eq_refl).
  rewrite (bind_ok (gets id) _ _ _ _ eq_refl). unfold id. destruct (full _) eqn:Hf; cbn [when].
  - apply full_spec in Hf. cbn -[size] in Hf. destruct (rep_size _ _ Hr) as [H0 _].
    destruct (removeOldest_run h _ Hr1) as (a & Hin & Hrun).
    { cbn -[tbl]. intros He. rewrite He, map_size_empty in Hf. lia. }
    exists (delete a tbl). split; [etrans; [apply delete_subseteq|done]|]. split; [|by rewrite Hrun].
    rewrite map_size_delete_Some by done. cbn in Hin. assert (size tbl <> 0%nat); [|lia].
    intros Hz0. lia.
  - exists tbl. split_and!; [done| |done]. assert (Z.of_nat (size tbl) <> addressTableSize s); [|lia].
    intros He. assert (full (s <| addresstable := tbl |>) = true); [by apply full_spec|congruence].
Qed.

Lemma updateTable_run h s a inport :
  represents h s -> 0 <= inport < numPorts s ->
  exists tbl, updateTableWithAddress a inport s = Ok tt (s <| addresstable := tbl |>) /\
    represents (<[a := mkEntry inport (clock s)]> h) (s <| addresstable := tbl |>).
Proof.
  intros Hr Hp. unfold updateTableWithAddress. rewrite (bind_ok (gets id) _ s s s eq_refl). unfold id.
  destruct (addresstable s !! a) as [e|] eqn:Ha.
  - exists (<[a := mkEntry inport (clock s)]> (addresstable s)). split; [reflexivity|].
    apply represents_insert; [done..| |]; [done|]. intros _. left. by eexists.
  - destruct (negb (addressTableSize s =? 0) && full s) eqn:Hc; cbn [when].
    + apply andb_true_iff in Hc as [Hz%negb_true_iff%Z.eqb_neq Hfull].
      destruct (make_room_run h s Hr Hz Hfull) as (tbl & Hsub & Hlt & Hrun).
      rewrite (bind_ok _ _ _ _ _ Hrun). exists (<[a := mkEntry inport (clock s)]> tbl). split; [reflexivity|].
      apply represents_insert; [done..| |]; [lia|]. by right.
    + rewrite (bind_ok (ret tt) _ s tt s eq_refl). exists (<[a := mkEntry inport (clock s)]> (addresstable s)).
      split; [reflexivity|]. apply represents_insert; [done..| |]; [done|]. intros Hz. right.
      assert (full s = false) as Hf by (destruct (addressTableSize s =? 0) eqn:E; [lia|by destruct (full s)]).
      destruct (rep_size _ _ Hr) as [_ Hs]. specialize (Hs Hz). assert (Z.of_nat (size (addresstable s)) <> addressTableSize s); [|lia].
      intros He. apply full_spec in He. congruence.
Qed.

Lemma aged_spec s e : aged s e = negb (clock s <? insertionTime e + agingTime s).
Proof. unfold aged. lia. Qed.

(** The lookup finds what the abstract switch knows, or nothing. *)
Lemma getPort_run h s a :
  represents h s ->
  exists tbl p, getPortForAddress a s = Ok p (s <| addresstable := tbl |>) /\
    represents h (s <| addresstable := tbl |>) /\
    (p = -1 \/ whereabouts h (agingTime s) (clock s) a = Some p) /\
    (addressTableSize s = 0 -> p = default (-1) (whereabouts h (agingTime s) (clock s) a)).
Proof.
  intros Hr. unfold getPortForAddress, whereabouts. rewrite (bind_ok (gets id) _ s s s eq_refl). unfold id.
  assert (s = s <| addresstable := addresstable s |>) as Hs by (by destruct s).
  destruct (addresstable s !! a) as [e|] eqn:Ha.
  - pose proof (rep_sound _ _ Hr _ _ Ha) as Hh. rewrite Hh, aged_spec.
    destruct (clock s <? insertionTime e + agingTime s) eqn:Hage; cbn [negb].
    + exists (addresstable s), (portno e). rewrite <- Hs. split_and!; [done..|by right|done].
    + exists (delete a (addresstable s)), (-1). split_and!; [done| |by left|done].
      destruct Hr as [H1 H2 H3 H4 [H5 H6] H7]. split; cbn -[size]; [| |done..| |done].
      * intros b e' [_ Hb]%lookup_delete_Some. by apply H1.
      * intros Hz b e' Hb Hc. rewrite lookup_delete_ne; [by apply H2|]. intros <-. rewrite Hh in Hb. injection Hb as <-. lia.
      * split; [done|]. intros Hz. specialize (H6 Hz). pose proof (map_subseteq_size _ _ (delete_subseteq (addresstable s) a)). lia.
  - exists (addresstable s), (-1). rewrite <- Hs. split_and!; [done..|by left|]. intros Hz.
    destruct (h !! a) as [e|] eqn:Hh; [|done]. destruct (clock s <? _) eqn:Hage; [|done].
    apply (rep_complete _ _ Hr Hz) in Hh; [congruence|lia].
Qed.

(** ** One frame *)
Definition arrive (ev : Arrival) : Eff t unit :=
  let '(now, frame, inport) := ev in
  modify (fun s => s <| clock := now |>) ;;; handleAndDispatchFrame frame inport.

Lemma represents_later h s now : represents h s -> clock s <= now -> represents h (s <| clock := now |>).
Proof.
  intros [H1 H2 H3 H4 H5 H6] Hn. split; cbn; [done| |done| |done..].
  - intros Hz a e Ha Hc. apply H2; [done..|]. lia.
  - intros a e Ha. apply H4 in Ha. lia.
Qed.

Lemma represents_sent h s l : represents h s -> represents h (s <| sent := l |>).
Proof. by intros [H1 H2 H3 H4 H5 H6]. Qed.

(** What a step does not change. *)
Definition same_switch s s' : Prop :=
  numPorts s' = numPorts s /\ addressTableSize s' = addressTableSize s /\ agingTime s' = agingTime s /\
  ticksPerSecond s' = ticksPerSecond s.

Lemma dispatch_run h s frame inport :
  represents h s -> 0 <= inport < numPorts s ->
  exists s' out, handleAndDispatchFrame frame inport s = Ok tt s' /\ sent s' = sent s ++ out /\
    same_switch s s' /\ clock s' = clock s /\ seqNum s' = seqNum s /\
    represents (hear h (clock s) frame inport) s' /\
    (out = flood (numPorts s) frame inport \/
     out = forwarded (numPorts s) (agingTime s) (hear h (clock s) frame inport) (clock s) frame inport) /\
    (addressTableSize s = 0 ->
     out = forwarded (numPorts s) (agingTime s) (hear h (clock s) frame inport) (clock s) frame inport).
Proof.
  intros Hr Hp. unfold handleAndDispatchFrame.
  destruct (updateTable_run h s (fr_src frame) inport Hr Hp) as (tbl & Hup & Hr1).
  rewrite (bind_ok _ _ _ _ _ Hup). fold (hear h (clock s) frame inport) in *. unfold forwarded.
  set (s1 := s <| addresstable := tbl |>) in *. set (h1 := hear h (clock s) frame inport) in *.
  destruct (MACAddress.isBroadcast (fr_dest frame)).
  { rewrite broadcastFrame_run. do 2 eexists. split; [reflexivity|]. split_and!; try done; [by apply represents_sent|by left]. }
  destruct (getPort_run h1 s1 (fr_dest frame) Hr1) as (tbl2 & p & Hget & Hr2 & Hor & Hall).
  rewrite (bind_ok _ _ _ _ _ Hget). set (s2 := s1 <| addresstable := tbl2 |>) in *.
  change (agingTime s1) with (agingTime s) in *. change (clock s1) with (clock s) in *.
  change (addressTableSize s1) with (addressTableSize s) in *.
  destruct (Z.eqb_spec inport p) as [<-|Hne].
  { assert (whereabouts h1 (agingTime s) (clock s) (fr_dest frame) = Some inport) as -> by (destruct Hor; [lia|done]).
    exists s2, []. rewrite Z.eqb_refl, app_nil_r. split_and!; try done. by right. }
  destruct (0 <=? p) eqn:Hp0.
  - assert (whereabouts h1 (agingTime s) (clock s) (fr_dest frame) = Some p) as Hw by (destruct Hor; [lia|done]).
    rewrite Hw, (proj2 (Z.eqb_neq p inport)) by done.
    assert (0 <= p < numPorts s2) as Hr3.
    { unfold whereabouts in Hw. destruct (h1 !! fr_dest frame) as [e|] eqn:He; [|done].
      destruct (_ <? _); [|done]. injection Hw as <-. apply (rep_ports _ _ Hr2) in He. exact He. }
    rewrite (send_run s2 frame p Hr3). do 2 eexists. split; [reflexivity|]. split_and!; try done; [by apply represents_sent|by right].
  - rewrite broadcastFrame_run. do 2 eexists. split; [reflexivity|]. split_and!; try done; [by apply represents_sent|by left|].
    intros Hz. specialize (Hall Hz). destruct Hor as [Hm|Hw].
    + destruct (whereabouts _ _ _ _) as [q|] eqn:Hw; [|done]. cbn in Hall. subst q.
      unfold whereabouts in Hw. destruct (h1 !! fr_dest frame) as [e|] eqn:He; [|done].
      destruct (_ <? _); [|done]. injection Hw as Hq. apply (rep_ports _ _ Hr2) in He. lia.
    + unfold whereabouts in Hw. destruct (h1 !! fr_dest frame) as [e|] eqn:He; [|done].
      destruct (_ <? _); [|done]. injection Hw as Hq. apply (rep_ports _ _ Hr2) in He. lia.
Qed.

(** ** A history of frames *)
Fixpoint in_time (now n : Z) (evs : list Arrival) : Prop :=
  match evs with
  | [] => True
  | (later, _, inport) :: rest => now <= later /\ 0 <= inport < n /\ in_time later n rest
  end.

Definition not_back (ev : Arrival) (out : list (Z * EtherFrame)) : Prop :=
  Forall (fun p => fst p <> snd ev /\ snd p = snd (fst ev)) out.

Lemma flood_not_back n now frame inport : not_back (now, frame, inport) (flood n frame inport).
Proof.
  unfold not_back, flood. apply Forall_fmap, Forall_forall. intros i Hi. cbn.
  by apply list_elem_of_filter in Hi as [Hi _].
Qed.

Lemma forwarded_not_back n aging h now frame inport :
  not_back (now, frame, inport) (forwarded n aging h now frame inport).
Proof.
  unfold forwarded. destruct (MACAddress.isBroadcast _); [apply flood_not_back|].
  destruct (whereabouts _ _ _ _) as [p|]; [|apply flood_not_back].
  destruct (Z.eqb_spec p inport); [constructor|]. by repeat constructor.
Qed.

(** What the switch sends for a frame, against the abstract switch. *)
Definition follows (n : Z) (ev : Arrival * list (Z * EtherFrame)) (out : list (Z * EtherFrame)) : Prop :=
  let '(_, frame, inport) := fst ev in out = snd ev \/ out = flood n frame inport.

Lemma history_run h s evs :
  represents h s -> in_time (clock s) (numPorts s) evs ->
  exists us outs s', mapE arrive evs s = Ok us s' /\ sent s' = sent s ++ concat outs /\ same_switch s s' /\
    Forall2 not_back evs outs /\
    Forall2 (follows (numPorts s)) (zip evs (abstract_switch (numPorts s) (agingTime s) h evs)) outs /\
    (addressTableSize s = 0 -> outs = abstract_switch (numPorts s) (agingTime s) h evs) /\
    exists h', represents h' s'.
Proof.
  revert h s. induction evs as [|[[now frame] inport] evs IH]; intros h s Hr Hin; cbn [mapE].
  { exists [], [], s. rewrite app_nil_r. split_and!; try done; [constructor..|by exists h]. }
  destruct Hin as (Hnow & Hp & Hin).
  pose proof (represents_later h s now Hr Hnow) as Hr1. set (s1 := s <| clock := now |>) in *.
  destruct (dispatch_run h s1 frame inport Hr1 Hp) as (s2 & out & Hrun & Hsent & Hsame & Hclk & _ & Hr2 & Hor & Hall).
  assert (arrive (now, frame, inport) s = Ok tt s2) as Harr by exact Hrun.
  destruct Hsame as (Hn2 & Hz2 & Ha2 & Ht2).
  destruct (IH _ s2 Hr2) as (us & outs & s3 & Hrest & Hs3 & Hsame3 & Hback & Hfol & Hall3 & Hh3).
  { rewrite Hclk, Hn2. exact Hin. }
  exists (tt :: us), (out :: outs), s3. cbn [abstract_switch]. cbv zeta. rewrite Hn2, Ha2 in *.
  change (agingTime s1) with (agingTime s) in *. change (numPorts s1) with (numPorts s) in *. change (clock s1) with now in *.
  rewrite (bind_ok _ _ _ _ _ Harr). erewrite (bind_ok (mapE arrive evs)) by exact Hrest. split_and!.
  - done.
  - rewrite Hs3, Hsent. cbn. by rewrite <- app_assoc.
  - destruct Hsame3 as (E1 & E2 & E3 & E4). unfold same_switch.
    rewrite E1, E2, E3, E4, Hz2, Ht2. by rewrite ?Hn2, ?Ha2.
  - constructor; [|done]. destruct Hor as [->| ->]; [apply flood_not_back|apply forwarded_not_back].
  - constructor; [|done]. cbn. by destruct Hor; [right|left].
  - intros Hz. f_equal; [by apply Hall|]. apply Hall3. rewrite Hz2. exact Hz.
  - done.
Qed.


(** A table that was read from a file and is larger than the limit is never
    brought back to it: the test for a full table is an equality. *)
Lemma oversized_table_grows s a inport :
  addressTableSize s < Z.of_nat (size (addresstable s)) -> addresstable s !! a = None ->
  exists s', updateTableWithAddress a inport s = Ok tt s' /\ size (addresstable s') = S (size (addresstable s)).
Proof.
  intros Hbig Ha. unfold updateTableWithAddress. rewrite (bind_ok (gets id) _ s s s eq_refl). unfold id. rewrite Ha.
  assert (full s = false) as -> by (unfold full; lia). rewrite andb_false_r. cbn [when].
  rewrite (bind_ok (ret tt) _ s tt s eq_refl). eexists. split; [reflexivity|]. cbn -[size]. by rewrite map_size_insert_None.
Qed.
End Forwarding.

(** ** Buffers and processors *)
Definition lengths (l : list EtherFrame) : Z := foldr (fun f n => fr_length f + n) 0 l.

Lemma lengths_app l k : lengths (l ++ k) = lengths l + lengths k.
Proof. unfold lengths. induction l as [|f l IH]; cbn [app foldr]; lia. Qed.
#[export] Instance lengths_perm : Proper ((≡ₚ) ==> (=)) lengths.
Proof. intros l k. unfold lengths. induction 1; cbn [foldr]; lia. Qed.

(** The table's ports exist, so that every frame can be sent on. *)
Definition base_ok (b : MACRelayUnitBase.t) : Prop := exists h, represents h b.

Lemma dispatch_ok b frame inport :
  base_ok b -> 0 <= inport < MACRelayUnitBase.numPorts b ->
  exists b', MACRelayUnitBase.handleAndDispatchFrame frame inport b = Ok tt b' /\ base_ok b' /\
    MACRelayUnitBase.numPorts b' = MACRelayUnitBase.numPorts b /\
    MACRelayUnitBase.clock b' = MACRelayUnitBase.clock b.
Proof.
  intros [h Hr] Hp. destruct (dispatch_run h b frame inport Hr Hp) as (b' & out & H1 & _ & (Hn & _) & Hc & _ & Hr' & _).
  exists b'. split_and!; [done| |done..]. by eexists.
Qed.

Lemma base_ok_later b now : base_ok b -> MACRelayUnitBase.clock b <= now -> base_ok (b <| MACRelayUnitBase.clock := now |>).
Proof. intros [h Hr] Hn. exists h. by apply represents_later. Qed.

Lemma pause_ok b units l :
  base_ok b -> Forall (fun i => 0 <= i < MACRelayUnitBase.numPorts b) l ->
  exists us b', mapE (fun i => MACRelayUnitBase.sendPauseFrame i units) l b = Ok us b' /\ base_ok b' /\
    MACRelayUnitBase.numPorts b' = MACRelayUnitBase.numPorts b /\
    MACRelayUnitBase.clock b' = MACRelayUnitBase.clock b.
Proof.
  revert b. induction l as [|i l IH]; intros b Hb Hl; cbn [mapE]; [by exists [], b|].
  apply Forall_cons in Hl as [Hi Hl]. unfold MACRelayUnitBase.sendPauseFrame at 1.
  set (b1 := b <| MACRelayUnitBase.seqNum := i32 (MACRelayUnitBase.seqNum b + 1) |>).
  set (b2 := b1 <| MACRelayUnitBase.sent := MACRelayUnitBase.sent b1 ++ [(i, MACRelayUnitBase.pause_frame units)] |>).
  assert (base_ok b2) as Hb2 by (destruct Hb as [h [H1 H2 H3 H4 H5 H6]]; by exists h).
  destruct (IH b2 Hb2 Hl) as (us & b' & Hrun & Hb' & Hn & Hc).
  exists (tt :: us), b'. split_and!; [|done..].
  erewrite bind_ok; [|erewrite bind_ok by reflexivity; by apply send_run].
  by erewrite (bind_ok (mapE _ l)) by exact Hrun.
Qed.

Module NPSpec.
Import MACRelayUnitNP.

Definition job_frames (l : list Job) : list EtherFrame := l.*1.
Definition on_cpus (s : t) : list Job := omap context (cpus s).

(** The frames in the switch are those in the queue and those with a processor;
    they fill the buffer.  A processor has a frame exactly when its event is
    scheduled, and frames wait only when all processors are busy. *)
Record inv (s : t) : Prop := {
  inv_base : base_ok (base s);
  inv_used : bufferUsed s = lengths (job_frames (queue s ++ on_cpus s));
  inv_lengths : Forall (fun j => 0 <= fr_length (fst j) /\ 0 <= snd j < MACRelayUnitBase.numPorts (base s))
                  (queue s ++ on_cpus s);
  inv_limit : bufferUsed s < Z.max 1 (bufferSize s) /\ bufferSize s <= 2147483647;
  inv_cpus : Forall (fun c => is_Some (context c) <-> is_Some (scheduled c)) (cpus s);
  inv_busy : queue s <> [] -> Forall (fun c => is_Some (scheduled c)) (cpus s)
}.

Lemma np_free_cpu_none l : free_cpu l = None -> Forall (fun c => is_Some (scheduled c)) l.
Proof.
  induction l as [|c l IH]; cbn; [done|]. destruct (scheduled c) eqn:Hc; [|done].
  destruct (free_cpu l); [done|]. intros _. constructor; [by rewrite Hc|by apply IH].
Qed.

Lemma np_free_cpu_some l i : free_cpu l = Some i -> exists c, l !! i = Some c /\ scheduled c = None.
Proof.
  revert i. induction l as [|c l IH]; cbn; [done|]. intros i. destruct (scheduled c) eqn:Hc; [|intros [= <-]; by exists c].
  destruct (free_cpu l) as [j|]; [|done]. cbn. intros [= <-]. by apply IH.
Qed.

Lemma np_omap_insert_none l i (c c' : Cpu) j :
  l !! i = Some c -> context c = None -> context c' = Some j -> omap context (<[i := c']> l) ≡ₚ j :: omap context l.
Proof.
  revert i. induction l as [|d l IH]; [done|]. intros [|i]; cbn.
  - intros [= ->] H1 H2. by rewrite H1, H2.
  - intros Hi H1 H2. specialize (IH i Hi H1 H2). destruct (context d) as [k|]; rewrite IH; [apply Permutation_swap|done].
Qed.

Lemma np_omap_insert_some l i (c c' : Cpu) j :
  l !! i = Some c -> context c = Some j -> context c' = None -> omap context l ≡ₚ j :: omap context (<[i := c']> l).
Proof.
  revert i. induction l as [|d l IH]; [done|]. intros [|i]; cbn.
  - intros [= ->] H1 H2. by rewrite H1, H2.
  - intros Hi H1 H2. specialize (IH i Hi H1 H2). destruct (context d) as [k|]; rewrite IH; [apply Permutation_swap|done].
Qed.

Lemma np_on_base_run {A} (m : Eff MACRelayUnitBase.t A) s a b :
  m (base s) = Ok a b -> on_base m s = Ok a (s <| base := b |>).
Proof. unfold on_base. by intros ->. Qed.

Lemma np_on_base_mapE {A B} (f : A -> Eff MACRelayUnitBase.t B) l s us b :
  mapE f l (base s) = Ok us b -> mapE (fun i => on_base (f i)) l s = Ok us (s <| base := b |>).
Proof.
  revert s us b. induction l as [|a l IH]; intros s us b; cbn [mapE].
  - intros [= <- <-]. by destruct s.
  - intros (u & b1 & H1 & (us' & b2 & H2 & [= <- <-])%bind_inv)%bind_inv.
    rewrite (bind_ok _ _ _ _ _ (np_on_base_run (f a) s u b1 H1)). set (s1 := s <| base := b1 |>).
    by rewrite (bind_ok _ _ _ _ _ (IH s1 _ _ H2)).
Qed.

Lemma np_send_pause_run s :
  base_ok (base s) ->
  exists b last, send_pause s = Ok tt (s <| base := b |> <| pauseLastSent := last |>) /\ base_ok b /\
    MACRelayUnitBase.numPorts b = MACRelayUnitBase.numPorts (base s) /\
    MACRelayUnitBase.clock b = MACRelayUnitBase.clock (base s).
Proof.
  intros Hb. unfold send_pause, simTime. rewrite (bind_ok (gets id) _ s s s eq_refl).
  rewrite (bind_ok (gets _) _ s _ s eq_refl). unfold id. destruct (_ && _); cbn [when].
  - destruct (pause_ok (base s) (pauseUnits s) _ Hb (ports_in_range (base s))) as (us & b & Hrun & Hb' & Hn & Hc).
    rewrite (bind_ok _ _ _ _ _ (np_on_base_mapE _ _ s us b Hrun)). by eexists b, _.
  - exists (base s), (pauseLastSent s). split_and!; [|done..]. by destruct s.
Qed.

(** ** Events *)
Definition at_time (now : Z) (s : t) : t := s <| base := (base s) <| MACRelayUnitBase.clock := now |> |>.

(** Frames have a length and come in on a port; the event of a processor fires at
    the time it is scheduled for. *)
Definition legal (now : Z) (ev : Event) (s : t) : Prop :=
  MACRelayUnitBase.clock (base s) <= now /\
  match ev with
  | FrameArrival frame gate => 0 <= fr_length frame /\ 0 <= gate < MACRelayUnitBase.numPorts (base s)
  | EndProcessing cpu => exists c, cpus s !! cpu = Some c /\ scheduled c = Some now
  end.

Definition in_switch (s : t) : Z := Z.of_nat (length (queue s ++ on_cpus s)).
Definition accounted (s : t) : Z := numProcessedFrames s + numDroppedFrames s + in_switch s.
Definition arrivals (ev : Event) : Z := match ev with FrameArrival _ _ => 1 | EndProcessing _ => 0 end.

Lemma np_accounted_eq s q cs n1 n2 :
  queue s = q -> cpus s = cs -> numProcessedFrames s = n1 -> numDroppedFrames s = n2 ->
  accounted s = n1 + n2 + Z.of_nat (length (q ++ omap context cs)).
Proof. by intros <- <- <- <-. Qed.

Lemma np_inv_nonneg s : inv s -> 0 <= bufferUsed s.
Proof.
  intros Hi. rewrite (inv_used _ Hi). pose proof (inv_lengths _ Hi) as Hl. revert Hl. generalize (queue s ++ on_cpus s).
  intros l Hl. unfold lengths, job_frames. induction Hl as [|j l [Hj _] _ IH]; cbn [fmap list_fmap foldr]; lia.
Qed.

Lemma np_inv_at_time now s : MACRelayUnitBase.clock (base s) <= now -> inv s -> inv (at_time now s).
Proof. intros Hn [H1 H2 H3 H4 H5 H6]. split; try done. by apply base_ok_later. Qed.

Lemma np_inv_jobs s b q cs used last n1 n2 :
  inv s -> base_ok b -> MACRelayUnitBase.numPorts b = MACRelayUnitBase.numPorts (base s) ->
  used = lengths (job_frames (q ++ omap context cs)) -> used < Z.max 1 (bufferSize s) ->
  Forall (fun j => 0 <= fr_length (fst j) /\ 0 <= snd j < MACRelayUnitBase.numPorts (base s)) (q ++ omap context cs) ->
  Forall (fun c => is_Some (context c) <-> is_Some (scheduled c)) cs ->
  (q <> [] -> Forall (fun c => is_Some (scheduled c)) cs) ->
  inv (s <| base := b |> <| queue := q |> <| cpus := cs |> <| bufferUsed := used |> <| pauseLastSent := last |>
         <| numProcessedFrames := n1 |> <| numDroppedFrames := n2 |>).
Proof.
  intros Hi Hb Hn Hu Hlim Hl Hc Hbusy. split; cbn; try done; [by rewrite Hn|]. split; [done|apply Hi].
Qed.

Lemma np_incoming_step now s frame gate :
  inv s -> legal now (FrameArrival frame gate) s ->
  exists s', handleMessage (FrameArrival frame gate) (at_time now s) = Ok tt s' /\ inv s' /\ accounted s' = accounted s + 1.
Proof.
  intros Hi (Hnow & Hlen & Hgate). pose proof (np_inv_at_time now s Hnow Hi) as Hi1. cbn [handleMessage].
  set (s1 := at_time now s) in *. change (accounted s) with (accounted s1).
  change (MACRelayUnitBase.numPorts (base s)) with (MACRelayUnitBase.numPorts (base s1)) in Hgate. clearbody s1. clear Hi Hnow.
  pose proof (np_inv_nonneg s1 Hi1) as Hpos. destruct (inv_limit _ Hi1) as [Hused Hmax].
  unfold handleIncomingFrame. rewrite (bind_ok (gets id) _ s1 s1 s1 eq_refl). unfold id.
  destruct (fr_length frame + bufferUsed s1 <? bufferSize s1) eqn:Hfit; cycle 1.
  { eexists. split; [reflexivity|]. split; [by destruct Hi1; split|].
    rewrite (np_accounted_eq _ (queue s1) (cpus s1) (numProcessedFrames s1) (numDroppedFrames s1 + 1)) by done.
    unfold accounted, in_switch, on_cpus. lia. }
  rewrite (bind_ok (modify _) _ s1 tt _ eq_refl).
  set (s2 := s1 <| bufferUsed := i32 (bufferUsed s1 + fr_length frame) |>).
  destruct (np_send_pause_run s2 (inv_base _ Hi1)) as (b & last & Hrun & Hb & Hn & _).
  rewrite (bind_ok _ _ _ _ _ Hrun). unfold simTime. rewrite (bind_ok (gets _) _ _ _ _ eq_refl).
  assert (i32 (bufferUsed s1 + fr_length frame) = bufferUsed s1 + fr_length frame) as Hi32 by (unfold i32; lia).
  pose proof (inv_used _ Hi1) as Hsum. pose proof (inv_lengths _ Hi1) as Hl.
  destruct (free_cpu (cpus s1)) as [i|] eqn:Hfree.
  - apply np_free_cpu_some in Hfree as (c & Hc & Hsch).
    pose proof (Forall_lookup_1 _ _ _ _ (inv_cpus _ Hi1) Hc) as Hctx.
    assert (context c = None) as Hnone.
    { destruct (context c) eqn:E; [|done]. destruct Hctx as [Hctx _]. rewrite Hsch in Hctx. by destruct Hctx. }
    rewrite Hc. destruct c as [[j|] sch]; [done|]. cbn in Hsch. subst sch.
    set (c' := mkCpu (Some (frame, gate)) (Some (MACRelayUnitBase.clock b + processingTime s1))).
    assert (queue s1 ++ omap context (<[i := c']> (cpus s1)) ≡ₚ (frame, gate) :: queue s1 ++ on_cpus s1) as Hperm.
    { unfold on_cpus. rewrite (np_omap_insert_none (cpus s1) i _ c' (frame, gate) Hc Hnone eq_refl).
      symmetry. apply Permutation_middle. }
    eexists. split; [reflexivity|]. split.
    + eapply (np_inv_jobs s1 b (queue s1) (<[i := c']> (cpus s1)) (i32 (bufferUsed s1 + fr_length frame)) last
        (numProcessedFrames s1) (numDroppedFrames s1) Hi1 Hb Hn).
      * rewrite Hi32, Hsum. unfold job_frames. rewrite Hperm, fmap_cons. apply Z.add_comm.
      * rewrite Hi32. lia.
      * rewrite Hperm. by constructor.
      * apply Forall_insert; [apply Hi1|done].
      * intros Hq. apply (Forall_lookup_1 _ _ _ _ (inv_busy _ Hi1 Hq)) in Hc. by destruct Hc.
    + rewrite (np_accounted_eq _ (queue s1) (<[i := c']> (cpus s1)) (numProcessedFrames s1) (numDroppedFrames s1)) by done.
      rewrite (Permutation_length Hperm). unfold accounted, in_switch. cbn [length]. lia.
  - eexists. split; [reflexivity|]. split.
    + eapply (np_inv_jobs s1 b (queue s1 ++ [(frame, gate)]) (cpus s1) (i32 (bufferUsed s1 + fr_length frame)) last
        (numProcessedFrames s1) (numDroppedFrames s1) Hi1 Hb Hn).
      * rewrite Hi32, Hsum. unfold job_frames, on_cpus. rewrite !fmap_app, !lengths_app. cbn. lia.
      * rewrite Hi32. lia.
      * unfold on_cpus in Hl. rewrite !Forall_app in *. destruct Hl. split_and!; [done|by apply Forall_singleton|done].
      * apply Hi1.
      * intros _. by apply np_free_cpu_none.
    + rewrite (np_accounted_eq _ (queue s1 ++ [(frame, gate)]) (cpus s1) (numProcessedFrames s1) (numDroppedFrames s1)) by done.
      unfold accounted, in_switch, on_cpus. rewrite !length_app. cbn [length]. lia.
Qed.

Lemma np_process_step now s cpu :
  inv s -> legal now (EndProcessing cpu) s ->
  exists s', handleMessage (EndProcessing cpu) (at_time now s) = Ok tt s' /\ inv s' /\ accounted s' = accounted s.
Proof.
  intros Hi (Hnow & c & Hc & Hsch). pose proof (np_inv_at_time now s Hnow Hi) as Hi1. cbn [handleMessage].
  set (s1 := at_time now s) in *. change (accounted s) with (accounted s1). change (cpus s) with (cpus s1) in Hc.
  clearbody s1. clear Hi Hnow.
  pose proof (Forall_lookup_1 _ _ _ _ (inv_cpus _ Hi1) Hc) as [_ Hctx]. cbn beta in Hctx.
  destruct c as [[[frame inport]|] sch]; cbn in Hsch, Hctx; subst sch; [|by destruct Hctx]. clear Hctx.
  unfold processFrame. rewrite (bind_ok (gets _) _ s1 _ s1 eq_refl), Hc.
  set (c0 := mkCpu None None). rewrite (bind_ok (set_cpu cpu c0) _ s1 tt _ eq_refl). set (s2 := s1 <| cpus := <[cpu := c0]> (cpus s1) |>).
  pose proof (np_omap_insert_some (cpus s1) cpu _ c0 (frame, inport) Hc eq_refl eq_refl) as Hperm.
  assert (queue s1 ++ on_cpus s1 ≡ₚ (frame, inport) :: queue s1 ++ omap context (<[cpu := c0]> (cpus s1))) as Hall.
  { unfold on_cpus. rewrite Hperm. symmetry. apply Permutation_middle. }
  pose proof (inv_lengths _ Hi1) as Hl. rewrite Hall in Hl. apply Forall_cons in Hl as [[Hlen Hport] Hl]. cbn in Hlen, Hport.
  destruct (dispatch_ok (base s2) frame inport (inv_base _ Hi1) Hport) as (b & Hrun & Hb & Hn & _).
  rewrite (bind_ok _ _ _ _ _ (np_on_base_run _ s2 _ _ Hrun)).
  rewrite (bind_ok (modify _) _ _ _ _ eq_refl), (bind_ok (gets id) _ _ _ _ eq_refl). unfold id.
  pose proof (np_inv_nonneg s1 Hi1) as Hpos. destruct (inv_limit _ Hi1) as [Hused Hmax].
  assert (bufferUsed s1 = fr_length frame + lengths (job_frames (queue s1 ++ omap context (<[cpu := c0]> (cpus s1))))) as Hsum.
  { rewrite (inv_used _ Hi1). unfold job_frames. rewrite Hall. done. }
  assert (0 <= lengths (job_frames (queue s1 ++ omap context (<[cpu := c0]> (cpus s1))))) as Hrest.
  { clear -Hl. unfold lengths, job_frames. induction Hl as [|j l [Hj _] _ IH]; cbn [fmap list_fmap foldr]; lia. }
  assert (i32 (bufferUsed s1 - fr_length frame) = bufferUsed s1 - fr_length frame) as Hi32 by (unfold i32; lia).
  assert (Forall (fun c => is_Some (context c) <-> is_Some (scheduled c)) (<[cpu := c0]> (cpus s1))) as Hc0.
  { apply Forall_insert; [apply Hi1|]. split; by intros [? ?]. }
  cbn [queue]. change (queue (field_update _ _)) with (queue s1).
  destruct (queue s1) as [|job rest] eqn:Hq.
  - eexists. split; [reflexivity|]. split.
    + eapply (np_inv_jobs s1 b (queue s1) (<[cpu := c0]> (cpus s1)) (i32 (bufferUsed s1 - fr_length frame)) (pauseLastSent s1)
        (numProcessedFrames s1 + 1) (numDroppedFrames s1) Hi1 Hb Hn); rewrite ?Hq; [|lia|done|done|done].
      rewrite Hi32, Hsum. apply Z.add_simpl_l.
    + rewrite (np_accounted_eq _ (queue s1) (<[cpu := c0]> (cpus s1)) (numProcessedFrames s1 + 1) (numDroppedFrames s1)) by done.
      apply Permutation_length in Hall. unfold accounted, in_switch. rewrite Hq, Hall. cbn [length app]. lia.
  - set (c' := mkCpu (Some job) (Some (MACRelayUnitBase.clock b + processingTime s1))).
    assert (omap context (<[cpu := c']> (<[cpu := c0]> (cpus s1))) ≡ₚ job :: omap context (<[cpu := c0]> (cpus s1))) as Hp2.
    { apply np_omap_insert_none with c0; [|done..]. apply list_lookup_insert_eq. by eapply lookup_lt_Some. }
    assert (rest ++ omap context (<[cpu := c']> (<[cpu := c0]> (cpus s1))) ≡ₚ
            (job :: rest) ++ omap context (<[cpu := c0]> (cpus s1))) as Hsame.
    { rewrite Hp2. symmetry. apply (Permutation_middle rest). }
    eexists. split; [reflexivity|]. split.
    + eapply (np_inv_jobs s1 b rest (<[cpu := c']> (<[cpu := c0]> (cpus s1))) (i32 (bufferUsed s1 - fr_length frame))
        (pauseLastSent s1) (numProcessedFrames s1 + 1) (numDroppedFrames s1) Hi1 Hb Hn).
      * unfold job_frames. rewrite Hi32, Hsum, Hsame. apply Z.add_simpl_l.
      * lia.
      * by rewrite Hsame.
      * by apply Forall_insert.
      * intros _. rewrite (list_insert_insert_eq (cpus s1)). apply Forall_insert; [|done]. apply (inv_busy _ Hi1). by rewrite Hq.
    + rewrite (np_accounted_eq _ rest (<[cpu := c']> (<[cpu := c0]> (cpus s1))) (numProcessedFrames s1 + 1) (numDroppedFrames s1)) by done.
      apply Permutation_length in Hall. unfold accounted, in_switch. rewrite Hq, Hall, (Permutation_length Hsame).
      cbn [length]. lia.
Qed.

Inductive run (s0 : t) : list Event -> t -> Prop :=
| run_start : run s0 [] s0
| run_event evs s now ev s' :
    run s0 evs s -> legal now ev s -> handleMessage ev (at_time now s) = Ok tt s' -> run s0 (evs ++ [ev]) s'.

Definition arrived (evs : list Event) : Z := foldr (fun ev n => arrivals ev + n) 0 evs.

Lemma np_arrived_snoc evs ev : arrived (evs ++ [ev]) = arrived evs + arrivals ev.
Proof. unfold arrived. induction evs as [|e evs IH]; cbn [app foldr]; lia. Qed.

Lemma np_event_step now ev s :
  inv s -> legal now ev s ->
  exists s', handleMessage ev (at_time now s) = Ok tt s' /\ inv s' /\ accounted s' = accounted s + arrivals ev.
Proof.
  destruct ev as [frame gate|cpu]; intros Hi Hl.
  - by apply np_incoming_step.
  - destruct (np_process_step now s cpu Hi Hl) as (s' & ? & ? & ?). exists s'. cbn. split_and!; [done..|lia].
Qed.

Lemma np_run_inv s0 evs s :
  run s0 evs s -> inv s0 -> inv s /\ accounted s = accounted s0 + arrived evs.
Proof.
  induction 1 as [|evs s now ev s' _ IH Hl Hrun]; intros Hi0; [split; [done|cbn; lia]|].
  destruct (IH Hi0) as [Hi Ha]. destruct (np_event_step now ev s Hi Hl) as (s2 & Hrun2 & Hi2 & Ha2).
  rewrite Hrun in Hrun2. injection Hrun2 as <-. rewrite np_arrived_snoc. split; [done|lia].
Qed.

Lemma np_fresh_cpus n : omap context (replicate n (mkCpu None None)) = [].
Proof. induction n; [done|by cbn]. Qed.

Lemma np_fresh_inv b cpus procTime bufSize watermark units interval :
  base_ok b -> bufSize <= 2147483647 -> inv (initialize b cpus procTime bufSize watermark units interval).
Proof.
  intros Hb Hmax.
  pose proof (np_fresh_cpus cpus) as He.
  split.
  - exact Hb.
  - unfold on_cpus. cbn -[omap lengths]. by rewrite He.
  - unfold on_cpus. cbn -[omap]. by rewrite He.
  - cbn. lia.
  - cbn. apply Forall_replicate. split; by intros [? ?].
  - by intros [].
Qed.

End NPSpec.

Module PPSpec.
Import MACRelayUnitPP.

Definition in_buffers (l : list PortBuffer) : list EtherFrame := concat (queue <$> l).

(** The buffer of port [i], which is working exactly when frames wait in it. *)
Record buffer_ok (i : nat) (b : PortBuffer) : Prop := {
  buf_port : port b = Z.of_nat i;
  buf_lengths : Forall (fun f => 0 <= fr_length f) (queue b);
  buf_busy : cpuBusy b = true <-> queue b <> [];
  buf_event : is_Some (endProcessing b) <-> queue b <> []
}.

Record inv (s : t) : Prop := {
  inv_base : base_ok (base s);
  inv_ports : Z.of_nat (length (buffer s)) = MACRelayUnitBase.numPorts (base s);
  inv_buffers : forall i b, buffer s !! i = Some b -> buffer_ok i b;
  inv_used : bufferUsed s = lengths (in_buffers (buffer s));
  inv_limit : bufferUsed s < Z.max 1 (bufferSize s) /\ bufferSize s <= 2147483647
}.

Lemma pp_in_buffers_split l i b :
  l !! i = Some b ->
  exists rest, in_buffers l ≡ₚ queue b ++ rest /\ forall b', in_buffers (<[i := b']> l) ≡ₚ queue b' ++ rest.
Proof.
  intros Hi. pose proof (lookup_lt_Some _ _ _ Hi) as Hlt. exists (in_buffers (take i l) ++ in_buffers (drop (S i) l)). split.
  - rewrite <- (take_drop_middle l i b Hi) at 1. unfold in_buffers. rewrite fmap_app, concat_app. cbn [fmap list_fmap concat].
    apply Permutation_app_swap_app.
  - intros b'. rewrite insert_take_drop by done. unfold in_buffers. rewrite fmap_app, concat_app. cbn [fmap list_fmap concat].
    apply Permutation_app_swap_app.
Qed.

Lemma pp_lengths_nonneg l : Forall (fun f => 0 <= fr_length f) l -> 0 <= lengths l.
Proof. unfold lengths. induction 1; cbn [foldr]; lia. Qed.

Lemma pp_in_buffers_nonneg s : inv s -> Forall (fun f => 0 <= fr_length f) (in_buffers (buffer s)).
Proof.
  intros Hi. unfold in_buffers. apply Forall_concat, Forall_fmap, Forall_lookup. intros i b Hb.
  apply (buf_lengths i b), (inv_buffers _ Hi _ _ Hb).
Qed.

Lemma pp_on_base_run {A} (m : Eff MACRelayUnitBase.t A) s a b :
  m (base s) = Ok a b -> on_base m s = Ok a (s <| base := b |>).
Proof. unfold on_base. by intros ->. Qed.

Lemma pp_on_base_mapE {A B} (f : A -> Eff MACRelayUnitBase.t B) l s us b :
  mapE f l (base s) = Ok us b -> mapE (fun i => on_base (f i)) l s = Ok us (s <| base := b |>).
Proof.
  revert s us b. induction l as [|a l IH]; intros s us b; cbn [mapE].
  - intros [= <- <-]. by destruct s.
  - intros (u & b1 & H1 & (us' & b2 & H2 & [= <- <-])%bind_inv)%bind_inv.
    rewrite (bind_ok _ _ _ _ _ (pp_on_base_run (f a) s u b1 H1)). set (s1 := s <| base := b1 |>).
    by rewrite (bind_ok _ _ _ _ _ (IH s1 _ _ H2)).
Qed.

Lemma pp_send_pause_run s :
  base_ok (base s) ->
  exists b last, send_pause s = Ok tt (s <| base := b |> <| pauseLastSent := last |>) /\ base_ok b /\
    MACRelayUnitBase.numPorts b = MACRelayUnitBase.numPorts (base s) /\
    MACRelayUnitBase.clock b = MACRelayUnitBase.clock (base s).
Proof.
  intros Hb. unfold send_pause, simTime. rewrite (bind_ok (gets id) _ s s s eq_refl).
  rewrite (bind_ok (gets _) _ s _ s eq_refl). unfold id. destruct (_ && _); cbn [when].
  - destruct (pause_ok (base s) (pauseUnits s) _ Hb (ports_in_range (base s))) as (us & b & Hrun & Hb' & Hn & Hc).
    rewrite (bind_ok _ _ _ _ _ (pp_on_base_mapE _ _ s us b Hrun)). by eexists b, _.
  - exists (base s), (pauseLastSent s). split_and!; [|done..]. by destruct s.
Qed.

(** ** Events *)
Definition at_time (now : Z) (s : t) : t := s <| base := (base s) <| MACRelayUnitBase.clock := now |> |>.

Definition legal (now : Z) (ev : Event) (s : t) : Prop :=
  MACRelayUnitBase.clock (base s) <= now /\
  match ev with
  | FrameArrival frame gate => 0 <= fr_length frame /\ 0 <= gate < MACRelayUnitBase.numPorts (base s)
  | EndProcessing i => 0 <= i /\ exists b, buffer s !! Z.to_nat i = Some b /\ endProcessing b = Some now
  end.

Definition accounted (s : t) : Z :=
  numProcessedFrames s + numDroppedFrames s + Z.of_nat (length (in_buffers (buffer s))).
Definition arrivals (ev : Event) : Z := match ev with FrameArrival _ _ => 1 | EndProcessing _ => 0 end.

Lemma pp_inv_at_time now s : MACRelayUnitBase.clock (base s) <= now -> inv s -> inv (at_time now s).
Proof. intros Hn [H1 H2 H3 H4 H5]. split; try done. by apply base_ok_later. Qed.

Lemma pp_buffer_at_run s i b : 0 <= i -> buffer s !! Z.to_nat i = Some b -> buffer_at i s = Ok b s.
Proof.
  intros Hi Hb. unfold buffer_at. rewrite (bind_ok (gets _) _ s _ s eq_refl).
  by rewrite (proj2 (Z.leb_le _ _) Hi), Hb.
Qed.

(** A changed buffer. *)
Lemma pp_inv_buffer s b i buf used last n1 n2 :
  inv s -> base_ok b -> MACRelayUnitBase.numPorts b = MACRelayUnitBase.numPorts (base s) ->
  buffer_ok i buf -> used = lengths (in_buffers (<[i := buf]> (buffer s))) -> used < Z.max 1 (bufferSize s) ->
  inv (s <| base := b |> <| buffer := <[i := buf]> (buffer s) |> <| bufferUsed := used |>
         <| pauseLastSent := last |> <| numProcessedFrames := n1 |> <| numDroppedFrames := n2 |>).
Proof.
  intros Hi Hb Hn Hok Hu Hlim. split; cbn -[lengths in_buffers]; try done.
  - by rewrite length_insert, Hn, (inv_ports _ Hi).
  - intros j c Hj. apply list_lookup_insert_Some in Hj as [(-> & <- & _)|[_ Hj]]; [done|]. by apply (inv_buffers _ Hi).
  - split; [done|apply Hi].
Qed.

Lemma pp_incoming_step now s frame gate :
  inv s -> legal now (FrameArrival frame gate) s ->
  exists s', handleMessage (FrameArrival frame gate) (at_time now s) = Ok tt s' /\ inv s' /\ accounted s' = accounted s + 1.
Proof.
  intros Hi (Hnow & Hlen & Hgate). pose proof (pp_inv_at_time now s Hnow Hi) as Hi1. cbn [handleMessage].
  set (s1 := at_time now s) in *. change (accounted s) with (accounted s1).
  change (MACRelayUnitBase.numPorts (base s)) with (MACRelayUnitBase.numPorts (base s1)) in Hgate. clearbody s1. clear Hi Hnow.
  pose proof (pp_lengths_nonneg _ (pp_in_buffers_nonneg _ Hi1)) as Hpos. rewrite <- (inv_used _ Hi1) in Hpos.
  destruct (inv_limit _ Hi1) as [Hused Hmax].
  unfold handleIncomingFrame. rewrite (bind_ok (gets id) _ s1 s1 s1 eq_refl). unfold id.
  destruct (fr_length frame + bufferUsed s1 <? bufferSize s1) eqn:Hfit; cycle 1.
  { eexists. split; [reflexivity|]. split; [by destruct Hi1; split|]. unfold accounted. cbn -[in_buffers]. lia. }
  rewrite <- (inv_ports _ Hi1) in Hgate.
  destruct (lookup_lt_is_Some_2 (buffer s1) (Z.to_nat gate)) as [buf Hbuf]; [lia|].
  rewrite (bind_ok _ _ _ _ _ (pp_buffer_at_run s1 gate buf ltac:(lia) Hbuf)). cbv zeta.
  set (buf1 := buf <| queue := queue buf ++ [frame] |> <| port := gate |>).
  pose proof (inv_buffers _ Hi1 _ _ Hbuf) as [Hp Hl Hbusy Hev].
  rewrite (bind_ok (set_buffer gate buf1) _ s1 tt _ eq_refl), (bind_ok (modify _) _ _ tt _ eq_refl).
  set (s2 := s1 <| buffer := _ |> <| bufferUsed := _ |>).
  destruct (pp_send_pause_run s2 (inv_base _ Hi1)) as (b & last & Hrun & Hb & Hn & _).
  rewrite (bind_ok _ _ _ _ _ Hrun). unfold simTime. rewrite (bind_ok (gets _) _ _ _ _ eq_refl).
  assert (i32 (bufferUsed s1 + fr_length frame) = bufferUsed s1 + fr_length frame) as Hi32 by (unfold i32; lia).
  destruct (pp_in_buffers_split _ _ _ Hbuf) as (rest & Hold & Hnew).
  assert (forall b', queue b' = queue buf ++ [frame] ->
            in_buffers (<[Z.to_nat gate := b']> (buffer s1)) ≡ₚ frame :: in_buffers (buffer s1)) as Hone.
  { intros b' Hb'. rewrite (Hnew b'), Hb', Hold, <- app_assoc. symmetry. apply Permutation_middle. }
  assert (forall b', queue b' = queue buf ++ [frame] -> port b' = gate -> cpuBusy b' = true -> is_Some (endProcessing b') ->
            inv (s1 <| base := b |> <| buffer := <[Z.to_nat gate := b']> (buffer s1) |>
                    <| bufferUsed := i32 (bufferUsed s1 + fr_length frame) |> <| pauseLastSent := last |>
                    <| numProcessedFrames := numProcessedFrames s1 |> <| numDroppedFrames := numDroppedFrames s1 |>) /\
            numProcessedFrames s1 + numDroppedFrames s1 +
              Z.of_nat (length (in_buffers (<[Z.to_nat gate := b']> (buffer s1)))) = accounted s1 + 1) as Hgo.
  { intros b' Hq Hport Hcpu Hsch. specialize (Hone b' Hq). split.
    - apply pp_inv_buffer; [done..| | |rewrite Hi32; lia].
      + split; rewrite ?Hq; [rewrite Hport; lia|apply Forall_app; split; [done|by apply Forall_singleton]| |].
        * split; [|done]. intros _. by destruct (queue buf).
        * split; [|done]. intros _. by destruct (queue buf).
      + rewrite Hi32, Hone, (inv_used _ Hi1). unfold lengths. cbn [foldr]. lia.
    - rewrite Hone. unfold accounted. cbn [length]. lia. }
  destruct (cpuBusy buf1) eqn:Hcpu; cbn [negb when].
  - destruct (Hgo buf1) as [Hinv Hacc]; [done..| |].
    { apply Hev. apply Hbusy. exact Hcpu. }
    eexists. split; [reflexivity|]. split; [exact Hinv|]. exact Hacc.
  - set (buf2 := buf1 <| cpuBusy := true |> <| endProcessing := Some (MACRelayUnitBase.clock b + processingTime s1) |>).
    destruct (Hgo buf2) as [Hinv Hacc]; [done..|].
    eexists. split; [reflexivity|]. unfold accounted, set_buffer. cbn -[in_buffers lengths insert] in *.
    rewrite !(list_insert_insert_eq (buffer s1)). split; [exact Hinv|exact Hacc].
Qed.

Lemma pp_process_step now s i :
  inv s -> legal now (EndProcessing i) s ->
  exists s', handleMessage (EndProcessing i) (at_time now s) = Ok tt s' /\ inv s' /\ accounted s' = accounted s.
Proof.
  intros Hi (Hnow & Hpos & buf & Hbuf & Hev). pose proof (pp_inv_at_time now s Hnow Hi) as Hi1. cbn [handleMessage].
  set (s1 := at_time now s) in *. change (accounted s) with (accounted s1). change (buffer s) with (buffer s1) in Hbuf.
  clearbody s1. clear Hi Hnow. pose proof (inv_buffers _ Hi1 _ _ Hbuf) as [Hp Hl Hbusy Hsch].
  unfold processFrame. rewrite (bind_ok _ _ _ _ _ (pp_buffer_at_run s1 i buf Hpos Hbuf)).
  destruct (queue buf) as [|frame rest] eqn:Hq; [by destruct (proj1 Hsch ltac:(by rewrite Hev))|].
  set (buf1 := buf <| queue := rest |> <| endProcessing := None |>).
  rewrite (bind_ok (set_buffer i buf1) _ s1 tt _ eq_refl). set (s2 := s1 <| buffer := _ |>).
  assert (0 <= port buf < MACRelayUnitBase.numPorts (base s2)) as Hport.
  { change (base s2) with (base s1). rewrite Hp, <- (inv_ports _ Hi1). apply lookup_lt_Some in Hbuf. lia. }
  destruct (dispatch_ok (base s2) frame (port buf) (inv_base _ Hi1) Hport) as (b & Hrun & Hb & Hn & _).
  rewrite (bind_ok _ _ _ _ _ (pp_on_base_run _ s2 _ _ Hrun)).
  rewrite (bind_ok (modify _) _ _ _ _ eq_refl), (bind_ok (gets id) _ _ _ _ eq_refl). unfold simTime.
  rewrite (bind_ok (gets _) _ _ _ _ eq_refl). unfold id.
  set (buf2 := buf <| queue := rest |> <| endProcessing := _ |> <| cpuBusy := _ |>).
  destruct (pp_in_buffers_split _ _ _ Hbuf) as (others & Hold & Hnew). specialize (Hnew buf2). rewrite Hq in Hold.
  change (queue buf2) with rest in Hnew.
  pose proof (pp_lengths_nonneg _ (pp_in_buffers_nonneg _ Hi1)) as Hall. rewrite <- (inv_used _ Hi1) in Hall.
  destruct (inv_limit _ Hi1) as [Hused Hmax]. apply Forall_cons in Hl as [Hlen Hl].
  assert (bufferUsed s1 = fr_length frame + lengths (in_buffers (<[Z.to_nat i := buf2]> (buffer s1)))) as Hsum.
  { by rewrite (inv_used _ Hi1), Hold, Hnew. }
  assert (0 <= lengths (rest ++ others)) as Hrest.
  { apply pp_lengths_nonneg. pose proof (pp_in_buffers_nonneg _ Hi1) as Hf. rewrite Hold in Hf. by apply Forall_cons in Hf as [_ Hf]. }
  rewrite <- Hnew in Hrest.
  assert (i32 (bufferUsed s1 - fr_length frame) = bufferUsed s1 - fr_length frame) as Hi32 by (unfold i32; lia).
  assert (buffer_ok (Z.to_nat i) buf2) as Hok2.
  { split; cbn; [done..| |].
    - destruct rest; [done|]. split; [done|]. intros _. by apply Hbusy.
    - destruct rest; [split; [by intros [? ?]|done]|]. by split; [|intros _; eexists]. }
  pose proof (pp_inv_buffer s1 b (Z.to_nat i) buf2 (i32 (bufferUsed s1 - fr_length frame)) (pauseLastSent s1)
                (numProcessedFrames s1 + 1) (numDroppedFrames s1) Hi1 Hb Hn Hok2) as Hinv.
  eexists. split; [reflexivity|]. unfold accounted, set_buffer. cbn -[in_buffers lengths insert buf2] in *.
  rewrite !(list_insert_insert_eq (buffer s1)). split; [apply Hinv; lia|].
  rewrite Hnew, Hold. cbn [length app]. lia.
Qed.

Inductive run (s0 : t) : list Event -> t -> Prop :=
| run_start : run s0 [] s0
| run_event evs s now ev s' :
    run s0 evs s -> legal now ev s -> handleMessage ev (at_time now s) = Ok tt s' -> run s0 (evs ++ [ev]) s'.

Definition arrived (evs : list Event) : Z := foldr (fun ev n => arrivals ev + n) 0 evs.

Lemma pp_arrived_snoc evs ev : arrived (evs ++ [ev]) = arrived evs + arrivals ev.
Proof. unfold arrived. induction evs as [|e evs IH]; cbn [app foldr]; lia. Qed.

Lemma pp_event_step now ev s :
  inv s -> legal now ev s ->
  exists s', handleMessage ev (at_time now s) = Ok tt s' /\ inv s' /\ accounted s' = accounted s + arrivals ev.
Proof.
  destruct ev as [frame gate|i]; intros Hi Hl.
  - by apply pp_incoming_step.
  - destruct (pp_process_step now s i Hi Hl) as (s' & ? & ? & ?). exists s'. cbn. split_and!; [done..|lia].
Qed.

Lemma pp_run_inv s0 evs s :
  run s0 evs s -> inv s0 -> inv s /\ accounted s = accounted s0 + arrived evs.
Proof.
  induction 1 as [|evs s now ev s' _ IH Hl Hrun]; intros Hi0; [split; [done|cbn; lia]|].
  destruct (IH Hi0) as [Hi Ha]. destruct (pp_event_step now ev s Hi Hl) as (s2 & Hrun2 & Hi2 & Ha2).
  rewrite Hrun in Hrun2. injection Hrun2 as <-. rewrite pp_arrived_snoc. split; [done|lia].
Qed.

Lemma pp_fresh_queues l : in_buffers ((fun i => mkBuffer i false [] None) <$> l) = [].
Proof. unfold in_buffers. induction l; [done|]. by cbn. Qed.

Lemma pp_fresh_inv b procTime bufSize watermark units interval :
  base_ok b -> 0 <= MACRelayUnitBase.numPorts b -> bufSize <= 2147483647 ->
  inv (initialize b procTime bufSize watermark units interval).
Proof.
  intros Hb Hn Hmax. split.
  - exact Hb.
  - cbn. unfold MACRelayUnitBase.ports. rewrite !length_fmap, length_seq. lia.
  - intros i buf. cbn. unfold MACRelayUnitBase.ports. rewrite !list_lookup_fmap.
    destruct (seq _ _ !! i) as [j|] eqn:Hj; [|done]. apply lookup_seq in Hj as [-> _]. cbn. intros [= <-].
    split; cbn; [done|done|done|]. split; [by intros [? ?]|done].
  - cbn -[in_buffers lengths]. by rewrite pp_fresh_queues.
  - cbn. lia.
Qed.
End PPSpec.


(** A switch with a queue for each port accounts for every frame. Whatever
    frames arrive, no event fails, every frame that arrived was forwarded, was
    dropped because the buffer was full, or waits in the buffer of its port; the
    buffer level is the total length of these and stays below the buffer size; the
    processor of a port is busy, with its event scheduled, exactly while frames wait
    there. *)
Theorem relay_pp_accounts b procTime bufSize watermark units interval evs s :
  base_ok b -> 0 <= MACRelayUnitBase.numPorts b -> bufSize <= 2147483647 ->
  PPSpec.run (MACRelayUnitPP.initialize b procTime bufSize watermark units interval) evs s ->
  PPSpec.accounted s = PPSpec.arrived evs /\ PPSpec.inv s /\
  forall now ev, PPSpec.legal now ev s ->
    exists s', MACRelayUnitPP.handleMessage ev (PPSpec.at_time now s) = Ok tt s'.
Proof.
  intros Hb Hn Hmax Hrun.
  destruct (PPSpec.pp_run_inv _ _ _ Hrun (PPSpec.pp_fresh_inv b procTime bufSize watermark units interval Hb Hn Hmax)) as [Hi Ha].
  split_and!; [|done|].
  - rewrite Ha. unfold PPSpec.accounted. cbn -[PPSpec.in_buffers]. by rewrite PPSpec.pp_fresh_queues.
  - intros now ev Hl. destruct (PPSpec.pp_event_step now ev s Hi Hl) as (s' & ? & _). by exists s'.
Qed.

(** ** Concrete runs *)
Definition host (n : Z) : MACAddress.t := MACAddress.mk 10 170 0 0 0 n.
Definition three_ports : MACRelayUnitBase.t :=
  MACRelayUnitBase.mk 3 1 10000 ∅ 0 1000 5 [].
Definition frame_to (dst src : Z) : EtherFrame := mkFrame (host dst) (host src) 64 None 0.
Definition np_switch : MACRelayUnitNP.t := MACRelayUnitNP.initialize three_ports 1 1 100 80 1 500.
Definition pp_switch : MACRelayUnitPP.t := MACRelayUnitPP.initialize three_ports 1 100 80 1 500.
Definition after {S A} (m : Eff S A) (s : S) : S := match m s with Ok _ s' => s' | Err _ => s end.

Lemma three_ports_ok : base_ok three_ports.
Proof.
  exists ∅. split; cbn; try done; intros a e; by rewrite ?lookup_empty.
Qed.


Definition np_arrival (dst src gate : Z) : MACRelayUnitNP.Event := MACRelayUnitNP.FrameArrival (frame_to dst src) gate.
Definition np_one : MACRelayUnitNP.t :=
  after (MACRelayUnitNP.handleMessage (np_arrival 2 1 0)) (NPSpec.at_time 5 np_switch).
Definition np_two : MACRelayUnitNP.t :=
  after (MACRelayUnitNP.handleMessage (np_arrival 1 2 1)) (NPSpec.at_time 6 np_one).


Definition pp_arrival (dst src gate : Z) : MACRelayUnitPP.Event := MACRelayUnitPP.FrameArrival (frame_to dst src) gate.
Definition pp_one : MACRelayUnitPP.t :=
  after (MACRelayUnitPP.handleMessage (pp_arrival 2 1 0)) (PPSpec.at_time 5 pp_switch).
Definition pp_two : MACRelayUnitPP.t :=
  after (MACRelayUnitPP.handleMessage (MACRelayUnitPP.EndProcessing 0)) (PPSpec.at_time 6 pp_one).

Lemma relay_pp_accounts_witness :
  PPSpec.run pp_switch [pp_arrival 2 1 0; MACRelayUnitPP.EndProcessing 0] pp_two /\
  PPSpec.accounted pp_two = 1 /\ PPSpec.inv pp_two.
Proof.
  assert (PPSpec.run pp_switch [pp_arrival 2 1 0; MACRelayUnitPP.EndProcessing 0] pp_two) as Hrun.
  { apply (PPSpec.run_event pp_switch [pp_arrival 2 1 0] pp_one 6 (MACRelayUnitPP.EndProcessing 0)).
    - apply (PPSpec.run_event pp_switch [] pp_switch 5 (pp_arrival 2 1 0));
        [apply PPSpec.run_start|vm_compute; intuition congruence|vm_compute; reflexivity].
    - split; [vm_compute; congruence|]. split; [lia|]. eexists. split; vm_compute; reflexivity.
    - vm_compute. reflexivity. }
  split; [exact Hrun|].
  destruct (relay_pp_accounts three_ports 1 100 80 1 500 _ _ three_ports_ok ltac:(cbn; lia) ltac:(lia) Hrun) as (Ha & Hi & _).
  split; [exact Ha|exact Hi].
Defined.
