(* ===== verification/Queues.v ===== *)
(** * Output queues and service queues

    [base/PassiveQueueBase] with its disciplines of [networklayer/queue]
    ([DropTailQueue], [DropTailQoSQueue] with [BasicDSCPClassifier], [REDQueue]), and
    [base/AbstractQueue], the single server in front of a module, with [QueueBase]
    and [QueueWithQoS].  A [cQueue] is a list with its front first; times are in
    ticks. *)
From Stdlib Require Import SpecFloat.
From S2P Require Import Prelude MachineFloat IPDatagram.

(** ** [PassiveQueueBase]

    What a discipline implements; [now] is [simTime()]. *)
Class PassiveQueue (M Q : Type) := {
  enqueue (now : Z) (msg : M) : Eff Q bool;
  dequeue (now : Z) : Eff Q (option M)
}.

Module PassiveQueueBase.
Section Base.
Context {M Q : Type} `{PassiveQueue M Q}.

(** [out]: the messages [sendOut] has sent. *)
Record t : Type := mk {
  packetRequested : Z;
  numQueueReceived : Z;
  numQueueDropped : Z;
  discipline : Q;
  out : list M
}.
#[global] Instance eta : Eta t := fun s =>
  {| packetRequested := packetRequested s; numQueueReceived := numQueueReceived s;
     numQueueDropped := numQueueDropped s; discipline := discipline s; out := out s |}.

Definition on_discipline {A} (m : Eff Q A) : Eff t A := fun s =>
  match m (discipline s) with Ok a q => Ok a (s <| discipline := q |>) | Err e => Err e end.

Definition sendOut (msg : M) : Eff t unit := modify (fun s => s <| out := out s ++ [msg] |>).

Definition handleMessage (now : Z) (msg : M) : Eff t unit :=
  modify (fun s => s <| numQueueReceived := i32 (numQueueReceived s + 1) |>) ;;;
  let! requested := gets packetRequested in
  if 0 <? requested then
    modify (fun s => s <| packetRequested := i32 (packetRequested s - 1) |>) ;;;
    sendOut msg
  else
    let! dropped := on_discipline (enqueue now msg) in
    when dropped (modify (fun s => s <| numQueueDropped := i32 (numQueueDropped s + 1) |>)).

Definition requestPacket (now : Z) : Eff t unit :=
  let! msg := on_discipline (dequeue now) in
  match msg with
  | None => modify (fun s => s <| packetRequested := i32 (packetRequested s + 1) |>)
  | Some msg => sendOut msg
  end.

Definition initialize (q : Q) : t :=
  {| packetRequested := 0; numQueueReceived := 0; numQueueDropped := 0; discipline := q; out := [] |}.
End Base.
Arguments t : clear implicits.
End PassiveQueueBase.

(** ** [DropTailQueue] *)
Module DropTailQueue.
Section DropTail.
Context {M : Type}.

Record t : Type := mk { frameCapacity : Z; queue : list M }.
#[global] Instance eta : Eta t := fun s => {| frameCapacity := frameCapacity s; queue := queue s |}.

Definition enqueue (_ : Z) (msg : M) : Eff t bool := fun s =>
  if negb (frameCapacity s =? 0) && (frameCapacity s <=? Z.of_nat (length (queue s))) then Ok true s
  else Ok false (s <| queue := queue s ++ [msg] |>).

Definition dequeue (_ : Z) : Eff t (option M) := fun s =>
  match queue s with
  | [] => Ok None s
  | pk :: rest => Ok (Some pk) (s <| queue := rest |>)
  end.

Definition initialize (capacity : Z) : t := {| frameCapacity := capacity; queue := [] |}.

#[global] Instance passive : PassiveQueue M t := {| Queues.enqueue := enqueue; Queues.dequeue := dequeue |}.
End DropTail.
Arguments t : clear implicits.
End DropTailQueue.

(** ** [DropTailQoSQueue] *)
Class IQoSClassifier (M : Type) := {
  getNumQueues : Z;
  classifyPacket : M -> Z
}.

Module DropTailQoSQueue.
Section QoS.
Context {M : Type} `{IQoSClassifier M}.

Record t : Type := mk { frameCapacity : Z; queues : list (list M) }.
#[global] Instance eta : Eta t := fun s => {| frameCapacity := frameCapacity s; queues := queues s |}.

Definition enqueue (_ : Z) (msg : M) : Eff t bool := fun s =>
  let queueIndex := classifyPacket msg in
  match (if 0 <=? queueIndex then queues s !! Z.to_nat queueIndex else None) with
  | None => Err (NullPointer "queues[queueIndex]")
  | Some queue =>
      if negb (frameCapacity s =? 0) && (frameCapacity s <=? Z.of_nat (length queue)) then Ok true s
      else Ok false (s <| queues := <[Z.to_nat queueIndex := queue ++ [msg]]> (queues s) |>)
  end.

(** The loop over the queues: the first that is not empty gives its first message. *)
Fixpoint pop_first (qs : list (list M)) : option M * list (list M) :=
  match qs with
  | [] => (None, [])
  | [] :: rest => let '(r, rest') := pop_first rest in (r, [] :: rest')
  | (m :: q) :: rest => (Some m, q :: rest)
  end.

Definition dequeue (_ : Z) : Eff t (option M) := fun s =>
  let '(r, qs) := pop_first (queues s) in Ok r (s <| queues := qs |>).

Definition initialize (capacity : Z) : t :=
  {| frameCapacity := capacity; queues := replicate (Z.to_nat getNumQueues) [] |}.

#[global] Instance passive : PassiveQueue M t := {| Queues.enqueue := enqueue; Queues.dequeue := dequeue |}.
End QoS.
Arguments t : clear implicits.
End DropTailQoSQueue.

(** The classes of messages the classifier tells apart. *)
Inductive QueuedMessage : Type :=
| QIPDatagram (d : IPDatagram)
| QIPv6Datagram (trafficClass : Z)
| QOther.

Module BasicDSCPClassifier.
Definition BEST_EFFORT : Z := 1.

Definition classifyByDSCP (dscp : Z) : Z :=
  let dscp := Z.land dscp 0x3f in
  if dscp =? 0 then BEST_EFFORT
  else if negb (Z.land dscp 1 =? 0) then BEST_EFFORT
  else
    let upper3bits := Z.shiftr (Z.land dscp 0x3c) 3 in
    if negb (Z.land upper3bits 0x04 =? 0) then 0 else 1.

Definition classifyPacket (msg : QueuedMessage) : Z :=
  match msg with
  | QIPDatagram d => classifyByDSCP (diffServCodePoint d)
  | QIPv6Datagram trafficClass => classifyByDSCP (i32 trafficClass)
  | QOther => BEST_EFFORT
  end.

#[global] Instance classifier : IQoSClassifier QueuedMessage :=
  {| getNumQueues := 2; Queues.classifyPacket := classifyPacket |}.
End BasicDSCPClassifier.

(** ** [REDQueue]

    [pow] of the C library, the conversion of a time to seconds and the random
    numbers [dblrand()] returns, in the order of the calls, are parameters. *)
Module REDQueue.
Definition one : spec_float := double_of_int 1.

Section RED.
Context {M : Type}.
Variables (pow : spec_float -> spec_float -> spec_float) (SIMTIME_DBL : Z -> spec_float)
  (dblrand : nat -> spec_float).

(** [draws]: how many random numbers were used. *)
Record t : Type := mk {
  wq : spec_float;
  minth : spec_float;
  maxth : spec_float;
  maxp : spec_float;
  pkrate : spec_float;
  queue : list M;
  avg : spec_float;
  q_time : Z;
  count : Z;
  numEarlyDrops : Z;
  draws : nat
}.
#[global] Instance eta : Eta t := fun s =>
  {| wq := wq s; minth := minth s; maxth := maxth s; maxp := maxp s; pkrate := pkrate s;
     queue := queue s; avg := avg s; q_time := q_time s; count := count s;
     numEarlyDrops := numEarlyDrops s; draws := draws s |}.

Definition qlen (s : t) : spec_float := double_of_int (Z.of_nat (length (queue s))).

Definition new_avg (now : Z) (s : t) : spec_float :=
  match queue s with
  | _ :: _ => double_add (double_mul (double_sub one (wq s)) (avg s)) (double_mul (wq s) (qlen s))
  | [] =>
      let m := double_mul (SIMTIME_DBL (now - q_time s)) (pkrate s) in
      double_mul (pow (double_sub one (wq s)) m) (avg s)
  end.

(** The probability of an early drop, from [count] after its increment. *)
Definition drop_probability (s : t) : spec_float :=
  let pb := double_div (double_mul (maxp s) (double_sub (avg s) (minth s))) (double_sub (maxth s) (minth s)) in
  double_div pb (double_sub one (double_mul (double_of_int (count s)) pb)).

(** The decision to mark the packet. *)
Definition mark : Eff t bool := fun s =>
  if SFleb (minth s) (avg s) && SFltb (avg s) (maxth s) then
    let s := s <| count := i32 (count s + 1) |> in
    let r := dblrand (draws s) in
    let s := s <| draws := S (draws s) |> in
    if SFltb r (drop_probability s) then
      Ok true (s <| count := 0 |> <| numEarlyDrops := numEarlyDrops s + 1 |>)
    else Ok false s
  else if SFleb (maxth s) (avg s) then Ok true (s <| count := 0 |>)
  else Ok false (s <| count := -1 |>).

Definition enqueue (now : Z) (msg : M) : Eff t bool :=
  modify (fun s => s <| avg := new_avg now s |>) ;;;
  let! marked := mark in
  let! hard := gets (fun s => SFleb (maxth s) (qlen s)) in
  if marked || hard then ret true
  else modify (fun s => s <| queue := queue s ++ [msg] |>) ;;; ret false.

Definition dequeue (now : Z) : Eff t (option M) := fun s =>
  match queue s with
  | [] => Ok None s
  | pk :: rest =>
      let s := s <| queue := rest |> in
      Ok (Some pk) (if (length rest =? 0)%nat then s <| q_time := now |> else s)
  end.

Definition initialize (wq minth maxth maxp pkrate : spec_float) : t :=
  {| wq := wq; minth := minth; maxth := maxth; maxp := maxp; pkrate := pkrate; queue := [];
     avg := double_of_int 0; q_time := 0; count := -1; numEarlyDrops := 0; draws := 0 |}.

Definition passive : PassiveQueue M t := {| Queues.enqueue := enqueue; Queues.dequeue := dequeue |}.
End RED.
Arguments t : clear implicits.
End REDQueue.

(** ** [AbstractQueue]

    The virtual functions a subclass defines.  [arrival] changes the queue,
    [arrivalWhenIdle] may replace or discard the message, [endService] acts on the
    module and the rest of the world, [W]. *)
Class ServiceHooks (M W : Type) := {
  arrival : M -> list M -> list M;
  arrivalWhenIdle : M -> option M;
  startService : M -> Z;
  endService (now : Z) (msg : M) : Eff W unit
}.

Module AbstractQueue.
Section Server.
Context {M W : Type} `{ServiceHooks M W}.

(** [endServiceMsg]: the time it is scheduled for. *)
Record t : Type := mk {
  msgServiced : option M;
  endServiceMsg : option Z;
  queue : list M;
  world : W
}.
#[global] Instance eta : Eta t := fun s =>
  {| msgServiced := msgServiced s; endServiceMsg := endServiceMsg s; queue := queue s; world := world s |}.

(** [scheduleAt] refuses a message that is scheduled, and a time in the past. *)
Definition scheduleAt (now at_ : Z) : Eff t unit :=
  let! pending := gets endServiceMsg in
  match pending with
  | Some _ => fail (RuntimeError "scheduleAt(): message is already scheduled")
  | None =>
      if at_ <? now then fail (RuntimeError "scheduleAt(): time is in the past")
      else modify (fun s => s <| endServiceMsg := Some at_ |>)
  end.

Definition on_world (m : Eff W unit) : Eff t unit := fun s =>
  match m (world s) with Ok _ w => Ok tt (s <| world := w |>) | Err e => Err e end.

(** [doStartService] and [doEndService] call each other: [endService_] is the call
    of [doEndService] when there is no service time, and [rounds] bounds the messages
    that are served one after the other. *)
Definition startService_ (now : Z) (endService_ : Eff t unit) : Eff t unit :=
  let! serviced := gets msgServiced in
  match serviced with
  | None => fail (NullPointer "msgServiced")
  | Some msg =>
      let serviceTime := startService msg in
      if negb (serviceTime =? 0) then scheduleAt now (now + serviceTime) else endService_
  end.

Fixpoint doEndService (rounds : nat) (now : Z) : Eff t unit :=
  match rounds with
  | O => fail OutOfFuel
  | S rounds =>
      let! serviced := gets msgServiced in
      match serviced with
      | None => fail (NullPointer "msgServiced")
      | Some msg =>
          on_world (endService now msg) ;;;
          let! rest := gets queue in
          match rest with
          | [] => modify (fun s => s <| msgServiced := None |>)
          | next :: rest =>
              modify (fun s => s <| queue := rest |> <| msgServiced := Some next |>) ;;;
              startService_ now (doEndService rounds now)
          end
      end
  end.

Definition doStartService (rounds : nat) (now : Z) : Eff t unit :=
  startService_ now (doEndService rounds now).

Inductive Message : Type :=
| EndService
| Arrives (msg : M).

Definition handleMessage (now : Z) (msg : Message) : Eff t unit :=
  match msg with
  | EndService =>
      modify (fun s => s <| endServiceMsg := None |>) ;;;
      let! n := gets (fun s => length (queue s)) in
      doEndService (S n) now
  | Arrives msg =>
      let! serviced := gets msgServiced in
      match serviced with
      | None =>
          match arrivalWhenIdle msg with
          | None => ret tt
          | Some msg2 =>
              modify (fun s => s <| msgServiced := Some msg2 |>) ;;;
              let! n := gets (fun s => length (queue s)) in
              doStartService (S n) now
          end
      | Some _ => modify (fun s => s <| queue := arrival msg (queue s) |>)
      end
  end.

Definition initialize (w : W) : t := {| msgServiced := None; endServiceMsg := None; queue := []; world := w |}.
End Server.
Arguments t : clear implicits.
Arguments Message : clear implicits.
End AbstractQueue.

(** ** [QueueBase] *)
Module QueueBase.
Definition arrival {M} (msg : M) (queue : list M) : list M := queue ++ [msg].
Definition arrivalWhenIdle {M} (msg : M) : option M := Some msg.
Definition startService {M} (delay : Z) (_ : M) : Z := delay.

Definition hooks {M W} (delay : Z) (endService : Z -> M -> Eff W unit) : ServiceHooks M W :=
  {| Queues.arrival := arrival; Queues.arrivalWhenIdle := arrivalWhenIdle;
     Queues.startService := startService delay; Queues.endService := endService |}.
End QueueBase.

(** ** [QueueWithQoS]: the hook decides what is enqueued. *)
Module QueueWithQoS.
Record EnqueueHook (M : Type) : Type := mkHook {
  enqueue : M -> list M -> list M;
  dropIfNotNeeded : M -> option M
}.
Arguments enqueue {M}. Arguments dropIfNotNeeded {M}.

Definition hooks {M W} (delay : Z) (qosHook : EnqueueHook M) (endService : Z -> M -> Eff W unit)
  : ServiceHooks M W :=
  {| Queues.arrival := enqueue qosHook; Queues.arrivalWhenIdle := dropIfNotNeeded qosHook;
     Queues.startService := fun _ => delay; Queues.endService := endService |}.
End QueueWithQoS.
