(* ===== verification/QueuesSpec.v ===== *)
(** * What the queues promise

    The output queues: against an interface that every discipline implements, the
    messages sent and held are the accepted ones, in their order of arrival within a
    class, and every request is answered.  The service queue: every message
    completes at the time a single server with a constant service time would. *)
From Stdlib Require Import SpecFloat.
From S2P Require Import Prelude MachineFloat IPDatagram Queues.

(** ** Order within a class

    Two sequences of messages that differ only in how messages of different classes
    are interleaved. *)
Section SameOrder.
Context {M : Type} (cls : M -> Z).
Implicit Types (l : list M) (m : M).

Definition in_class (k : Z) l : list M := filter (fun m => cls m = k) l.
Definition same_order l l' : Prop := forall k, in_class k l = in_class k l'.

#[global] Instance same_order_equiv : Equivalence same_order.
Proof. split; [done|intros ?? E k; by rewrite E|intros ??? E F k; by rewrite E, F]. Qed.

Lemma in_class_app k l l' : in_class k (l ++ l') = in_class k l ++ in_class k l'.
Proof. apply filter_app. Qed.

#[global] Instance same_order_app : Proper (same_order ==> same_order ==> same_order) app.
Proof. intros l1 l2 E l3 l4 F k. by rewrite !in_class_app, E, F. Qed.

Lemma in_class_split m l tail : in_class (cls m) l = m :: tail ->
  exists l1 l2, l = l1 ++ m :: l2 /\ Forall (fun x => cls x <> cls m) l1.
Proof.
  induction l as [|x l IH]; [done|]. unfold in_class in *. destruct (decide (cls x = cls m)) as [Hx|Hx].
  - rewrite filter_cons_True by done. intros [= -> _]. by exists [], l.
  - rewrite filter_cons_False by done. intros E. destruct (IH E) as (l1 & l2 & -> & Hl1).
    exists (x :: l1), l2. split; [done|by constructor].
Qed.

Lemma same_order_cons_inv m l l' : same_order (m :: l) l' ->
  exists l1 l2, l' = l1 ++ m :: l2 /\ same_order l (l1 ++ l2).
Proof.
  intros E. assert (in_class (cls m) l' = m :: in_class (cls m) l) as Hm.
  { rewrite <- (E (cls m)). unfold in_class. by rewrite (filter_cons_True _ m). }
  destruct (in_class_split m l' _ Hm) as (l1 & l2 & -> & Hl1). exists l1, l2. split; [done|].
  intros k. specialize (E k). rewrite in_class_app in E |- *. unfold in_class in *. destruct (decide (cls m = k)) as [<-|Hk].
  - rewrite (filter_nothing _ l1) in E |- * by done. rewrite !filter_cons_True in E by done. by injection E as E.
  - by rewrite !filter_cons_False in E by done.
Qed.

Lemma same_order_perm l l' : same_order l l' -> l ≡ₚ l'.
Proof.
  revert l'. induction l as [|m l IH]; intros l' E.
  - destruct l' as [|x l']; [done|]. specialize (E (cls x)). unfold in_class in E.
    by rewrite filter_cons_True in E.
  - apply same_order_cons_inv in E as (l1 & l2 & -> & E). rewrite (IH _ E). by rewrite Permutation_middle.
Qed.

Lemma same_order_length l l' : same_order l l' -> length l = length l'.
Proof. intros E. apply Permutation_length, same_order_perm, E. Qed.

(** With one class only, nothing can be reordered. *)
Lemma same_order_single l l' : (forall m, cls m = 0) -> same_order l l' -> l = l'.
Proof.
  intros Hcls E. specialize (E 0). unfold in_class in E.
  rewrite !filter_all in E by (apply Forall_forall; auto). done.
Qed.
End SameOrder.

(** ** What a discipline promises to [PassiveQueueBase]

    [held] are the messages in the queue; a message that is accepted goes behind
    those of its class, one that is dropped leaves them alone, and the one that is
    taken out is the first of the class of highest priority. *)
Class QueueLaws (M Q : Type) `{PassiveQueue M Q} := {
  cls : M -> Z;
  held : Q -> list M;
  queue_ok : Q -> Prop;
  enqueue_law now m q : queue_ok q ->
    exists dropped q', enqueue now m q = Ok dropped q' /\ queue_ok q' /\
      same_order cls (held q') (held q ++ if dropped then [] else [m]);
  dequeue_law now q : queue_ok q ->
    exists r q', dequeue now q = Ok r q' /\ queue_ok q' /\
      match r with
      | None => held q = [] /\ held q' = []
      | Some m => same_order cls (held q) (m :: held q') /\ Forall (fun x => cls m <= cls x) (held q)
      end
}.

Inductive QueueEvent (M : Type) : Type :=
| MessageArrives (m : M)
| PacketRequested.
Arguments MessageArrives {M}. Arguments PacketRequested {M}.

Section Passive.
Import PassiveQueueBase.
Context {M Q : Type} `{QueueLaws M Q}.
Implicit Types (s : t M Q) (evs : list (Z * QueueEvent M)).

Definition queue_event (ev : Z * QueueEvent M) : Eff (t M Q) unit :=
  match snd ev with
  | MessageArrives m => handleMessage (fst ev) m
  | PacketRequested => requestPacket (fst ev)
  end.

Definition arrivals_of evs : list M :=
  omap (fun ev => match snd ev with MessageArrives m => Some m | PacketRequested => None end) evs.
Definition requests_of evs : Z :=
  Z.of_nat (length (omap (fun ev => match snd ev with MessageArrives _ => None | PacketRequested => Some tt end) evs)).

(** [accepted]: the arrivals that were not dropped. *)
Record serves (evs : list (Z * QueueEvent M)) (accepted : list M) (s : t M Q) : Prop := {
  sv_ok : queue_ok (discipline s);
  sv_accepted : accepted `sublist_of` arrivals_of evs;
  sv_order : same_order cls (out s ++ held (discipline s)) accepted;
  sv_received : numQueueReceived s = Z.of_nat (length (arrivals_of evs));
  sv_dropped : numQueueReceived s = Z.of_nat (length accepted) + numQueueDropped s;
  sv_requests : requests_of evs = Z.of_nat (length (out s)) + packetRequested s;
  sv_pending : 0 <= packetRequested s;
  sv_idle : 0 < packetRequested s -> held (discipline s) = []
}.

Lemma arrivals_arrival evs now m : arrivals_of (evs ++ [(now, MessageArrives m)]) = arrivals_of evs ++ [m].
Proof. unfold arrivals_of. by rewrite omap_app. Qed.
Lemma arrivals_request evs now : arrivals_of (evs ++ [(now, PacketRequested)]) = arrivals_of evs.
Proof. unfold arrivals_of. rewrite omap_app. apply app_nil_r. Qed.
Lemma requests_arrival evs now m : requests_of (evs ++ [(now, MessageArrives m)]) = requests_of evs.
Proof. unfold requests_of. rewrite omap_app, length_app. cbn [omap list_omap snd length]. lia. Qed.
Lemma requests_request evs now : requests_of (evs ++ [(now, PacketRequested)]) = requests_of evs + 1.
Proof. unfold requests_of. rewrite omap_app, length_app. cbn [omap list_omap snd length]. lia. Qed.

Lemma events_bound evs :
  Z.of_nat (length (arrivals_of evs)) + requests_of evs = Z.of_nat (length evs).
Proof.
  unfold requests_of, arrivals_of. induction evs as [|[now [m|]] evs IH]; [done|..]; cbn [omap list_omap snd length] in *; lia.
Qed.

Lemma arrival_step evs accepted s now m :
  serves evs accepted s -> Z.of_nat (length evs) < 2147483647 ->
  exists accepted' s', handleMessage now m s = Ok tt s' /\ serves (evs ++ [(now, MessageArrives m)]) accepted' s'.
Proof.
  intros Hs Hmax. destruct Hs. pose proof (events_bound evs) as Hb. pose proof (sublist_length _ _ sv_accepted0) as Ha.
  unfold handleMessage, bind, modify, gets. cbn -[Z.ltb i32 enqueue].
  destruct (Z.ltb_spec 0 (packetRequested s)) as [Hp|Hp].
  - exists (accepted ++ [m]). eexists. split; [reflexivity|]. specialize (sv_idle0 Hp).
    split; cbn -[Z.of_nat i32]; rewrite ?arrivals_arrival, ?requests_arrival, ?length_app, ?i32_small by lia;
      cbn [length]; try (done || lia).
    + by apply sublist_app.
    + rewrite sv_idle0 in *. rewrite app_nil_r in *. by rewrite sv_order0.
  - destruct (enqueue_law now m (discipline s) sv_ok0) as (dropped & q' & Hq & Hok & Hheld).
    unfold on_discipline. cbn -[i32 enqueue]. rewrite Hq.
    exists (accepted ++ if dropped then [] else [m]). destruct dropped; eexists; (split; [reflexivity|]).
    all: split; cbn -[Z.of_nat i32]; rewrite ?arrivals_arrival, ?requests_arrival, ?length_app, ?i32_small by lia.
    all: rewrite ?app_nil_r in *; cbn [length]; try (done || lia).
    + by apply sublist_inserts_r.
    + by rewrite Hheld.
    + by apply sublist_app.
    + by rewrite Hheld, app_assoc, sv_order0.
Qed.

(** A request takes the first message of the highest class that has one, or waits. *)
Definition takes_first (s s' : t M Q) : Prop :=
  (held (discipline s) = [] /\ out s' = out s /\ packetRequested s' = packetRequested s + 1) \/
  exists m tail, out s' = out s ++ [m] /\ packetRequested s' = packetRequested s /\
    in_class cls (cls m) (held (discipline s)) = m :: tail /\
    Forall (fun x => cls m <= cls x) (held (discipline s)).

Lemma request_step evs accepted s now :
  serves evs accepted s -> Z.of_nat (length evs) < 2147483647 ->
  exists s', requestPacket now s = Ok tt s' /\ serves (evs ++ [(now, PacketRequested)]) accepted s' /\
    takes_first s s'.
Proof.
  intros Hs Hmax. destruct Hs. pose proof (events_bound evs) as Hb.
  destruct (dequeue_law now (discipline s) sv_ok0) as (r & q' & Hq & Hok & Hheld).
  unfold requestPacket, bind, on_discipline. rewrite Hq. destruct r as [m|].
  - destruct Hheld as [Hheld Hmin]. eexists. split; [reflexivity|]. split.
    + split; cbn -[Z.of_nat]; rewrite ?arrivals_request, ?requests_request, ?length_app; cbn [length]; try (done || lia).
      * by rewrite <- app_assoc, <- Hheld.
      * intros Hp. specialize (sv_idle0 Hp). rewrite sv_idle0 in Hheld. by apply same_order_length in Hheld.
    + right. exists m. eexists. split_and!; [done..| |done]. rewrite (Hheld (cls m)). unfold in_class.
      by rewrite filter_cons_True.
  - destruct Hheld as [Hnil Hnil']. eexists. split; [reflexivity|]. split.
    + split; cbn -[Z.of_nat i32]; rewrite ?arrivals_request, ?requests_request, ?i32_small by lia; try (done || lia).
      by rewrite Hnil', <- Hnil.
    + left. cbn -[i32]. rewrite i32_small by lia. done.
Qed.

Lemma events_serve evs pre accepted s :
  serves pre accepted s -> Z.of_nat (length (pre ++ evs)) <= 2147483647 ->
  exists us accepted' s', mapE queue_event evs s = Ok us s' /\ serves (pre ++ evs) accepted' s'.
Proof.
  revert pre accepted s. induction evs as [|ev evs IH]; intros pre accepted s Hs Hmax.
  { exists [], accepted, s. by rewrite app_nil_r. }
  rewrite length_app in Hmax. cbn [length] in Hmax.
  assert (exists accepted' s', queue_event ev s = Ok tt s' /\ serves (pre ++ [ev]) accepted' s') as (a1 & s1 & Hrun & Hs1).
  { destruct ev as [now [m|]]; cbn [queue_event fst snd].
    - apply (arrival_step pre accepted); [done|lia].
    - destruct (request_step pre accepted s now Hs ltac:(lia)) as (s1 & ? & ? & _). by exists accepted, s1. }
  destruct (IH (pre ++ [ev]) a1 s1 Hs1) as (us & a2 & s2 & Hrun2 & Hs2); [rewrite !length_app; cbn [length]; lia|].
  exists (tt :: us), a2, s2. rewrite <- app_assoc in Hs2. split; [|done].
  cbn [mapE]. rewrite (bind_ok _ _ _ _ _ Hrun), (bind_ok _ _ _ _ _ Hrun2). done.
Qed.

(** C15: An output queue serves its requests: whatever arrives and is requested, in
    whatever order and with whatever discipline that keeps the interface's laws, no
    event fails; every arrival is sent, held or counted as dropped; the messages
    sent and held are the accepted ones, in their order of arrival within each
    class; every request is answered by one message or pending, and requests are
    pending only while the queue is empty; and a request takes the first message of
    the highest class that has one. *)
Theorem passive_queue_serves q evs :
  queue_ok q -> held q = [] -> Z.of_nat (length evs) < 2147483647 ->
  exists us accepted s, mapE queue_event evs (initialize q) = Ok us s /\ serves evs accepted s /\
    forall now, exists s', requestPacket now s = Ok tt s' /\ takes_first s s'.
Proof.
  intros Hq Hnil Hmax.
  assert (serves [] [] (initialize q)) as H0' by (split; cbn; rewrite ?Hnil; done).
  destruct (events_serve evs [] [] _ H0' ltac:(cbn; lia)) as (us & accepted & s & Hrun & Hs).
  exists us, accepted, s. split_and!; [done..|]. intros now.
  destruct (request_step evs accepted s now Hs Hmax) as (s' & ? & _ & ?). by exists s'.
Qed.
End Passive.

(** ** The disciplines keep the laws *)
Lemma same_order_refl {M} (cls : M -> Z) (l l' : list M) : l = l' -> same_order cls l l'.
Proof. by intros ->. Qed.

Section DropTailLaws.
Import DropTailQueue.
Context {M : Type}.

(** A capacity of 0 stands for no limit. *)
Definition droptail_ok (q : t M) : Prop :=
  0 < frameCapacity q -> Z.of_nat (length (queue q)) <= frameCapacity q.

#[global] Program Instance droptail_laws : QueueLaws M (t M) :=
  {| cls := fun _ => 0; held := queue; queue_ok := droptail_ok |}.
Next Obligation.
  intros now m q Hok. cbn [Queues.enqueue passive]. unfold enqueue.
  destruct (Z.eqb_spec (frameCapacity q) 0) as [Hc|Hc]; cbn [negb andb].
  { eexists _, _. split; [done|]. split; [intros Hp; cbn in Hp; lia|by apply same_order_refl]. }
  destruct (Z.leb_spec (frameCapacity q) (Z.of_nat (length (queue q)))) as [Hl|Hl].
  - eexists _, _. split; [done|]. split; [done|]. apply same_order_refl. by rewrite app_nil_r.
  - eexists _, _. split; [done|]. split; [|by apply same_order_refl].
    intros Hp. cbn in Hp |- *. rewrite length_app. cbn. lia.
Qed.
Next Obligation.
  intros now q Hok. cbn [Queues.dequeue passive]. unfold dequeue.
  destruct (queue q) as [|pk rest] eqn:Hq; eexists _, _; (split; [done|]); split.
  - done.
  - done.
  - intros Hp. cbn in Hp |- *. specialize (Hok Hp). rewrite Hq in Hok. cbn in Hok. lia.
  - split; [done|]. by apply Forall_forall.
Qed.
End DropTailLaws.

Section QoSLaws.
Import DropTailQoSQueue.
Context {M : Type} `{IQoSClassifier M}.

(** What the interface of a classifier says of it. *)
Class QoSClassifierLaws := {
  classify_range m : 0 <= classifyPacket m < getNumQueues
}.
Context `{!QoSClassifierLaws}.

(** The messages of a class are those of its queue. *)
Definition indexed (n : nat) (qs : list (list M)) : Prop :=
  forall i q, qs !! i = Some q -> Forall (fun m => classifyPacket m = Z.of_nat (n + i)) q.

Record qos_ok (q : t M) : Prop := {
  qos_number : Z.of_nat (length (queues q)) = getNumQueues;
  qos_classes : indexed 0 (queues q);
  qos_capacity : 0 < frameCapacity q ->
    Forall (fun sub => Z.of_nat (length sub) <= frameCapacity q) (queues q)
}.

Lemma indexed_cons n q qs : indexed n (q :: qs) ->
  Forall (fun m => classifyPacket m = Z.of_nat n) q /\ indexed (S n) qs.
Proof.
  intros Hi. split.
  - specialize (Hi O q eq_refl). by rewrite Nat.add_0_r in Hi.
  - intros i q' Hq'. replace (S n + i)%nat with (n + S i)%nat by lia. by apply Hi.
Qed.

Lemma indexed_from n qs : indexed n qs -> Forall (fun m => Z.of_nat n <= classifyPacket m) (concat qs).
Proof.
  revert n. induction qs as [|q qs IH]; intros n Hi; [constructor|]. apply indexed_cons in Hi as [Hq Hi].
  cbn. apply Forall_app. split; [eapply Forall_impl; [exact Hq|cbn; lia]|].
  eapply Forall_impl; [apply (IH _ Hi)|]. cbn. lia.
Qed.

Lemma class_of_concat n qs k : indexed n qs ->
  in_class classifyPacket (Z.of_nat (n + k)) (concat qs) = default [] (qs !! k).
Proof.
  revert n k. induction qs as [|q qs IH]; intros n k Hi; [done|]. apply indexed_cons in Hi as [Hq Hi].
  cbn [concat]. rewrite in_class_app. destruct k as [|k]; cbn [lookup list_lookup default].
  - unfold in_class. rewrite (filter_all _ q), (filter_nothing _ (concat qs)), app_nil_r; [done|..].
    + eapply Forall_impl; [apply (indexed_from _ _ Hi)|]. cbn. lia.
    + eapply Forall_impl; [exact Hq|]. cbn. lia.
  - replace (n + S k)%nat with (S n + k)%nat by lia. rewrite (IH _ _ Hi). unfold in_class.
    rewrite (filter_nothing _ q); [done|]. eapply Forall_impl; [exact Hq|]. cbn. lia.
Qed.

Lemma pop_first_spec n qs : indexed n qs ->
  match pop_first qs with
  | (None, qs') => concat qs = [] /\ qs' = qs
  | (Some m, qs') => concat qs = m :: concat qs' /\ Forall (fun x => classifyPacket m <= classifyPacket x) (concat qs) /\
      length qs' = length qs /\ forall i q', qs' !! i = Some q' -> exists q, qs !! i = Some q /\ q' `suffix_of` q
  end.
Proof.
  revert n. induction qs as [|q qs IH]; intros n Hi; [done|].
  pose proof (indexed_from _ _ Hi) as Hfrom. apply indexed_cons in Hi as [Hq Hi]. destruct q as [|m q]; cbn [pop_first].
  - specialize (IH _ Hi). destruct (pop_first qs) as [[m|] qs']; cbn [concat app].
    + destruct IH as (? & ? & ? & Hs). split_and!; [done..|cbn; lia|]. intros [|i] q' Hq'; cbn in Hq' |- *.
      * injection Hq' as <-. by exists [].
      * by apply Hs.
    + by destruct IH as [? ->].
  - split_and!; [done| |done|].
    + apply Forall_cons in Hq as [-> _]. exact Hfrom.
    + intros [|i] q' Hq'; cbn in Hq' |- *; [injection Hq' as <-; exists (m :: q); split; [done|by exists [m]]|by exists q'].
Qed.

Lemma append_order qs i q m :
  indexed 0 qs -> qs !! i = Some q -> classifyPacket m = Z.of_nat i ->
  indexed 0 (<[i := q ++ [m]]> qs) /\
  same_order classifyPacket (concat (<[i := q ++ [m]]> qs)) (concat qs ++ [m]).
Proof.
  intros Hi Hq Hm.
  assert (indexed 0 (<[i := q ++ [m]]> qs)) as Hi'.
  { intros j q' Hq'. apply list_lookup_insert_Some in Hq' as [(<- & <- & _)|[_ Hq']]; [|by apply Hi].
    apply Forall_app. split; [by apply Hi|]. by constructor. }
  split; [done|]. intros k. rewrite in_class_app.
  destruct (decide (0 <= k)) as [Hk|Hk].
  - replace k with (Z.of_nat (0 + Z.to_nat k)) by lia. rewrite !class_of_concat by done.
    unfold in_class. destruct (decide (i = Z.to_nat k)) as [->|Hne].
    + rewrite list_lookup_insert_eq by (by eapply lookup_lt_Some). rewrite Hq, filter_cons_True by lia. done.
    + rewrite list_lookup_insert_ne by done. rewrite filter_cons_False by lia. by rewrite filter_nil, app_nil_r.
  - unfold in_class. rewrite !filter_nothing; [done|..].
    + constructor; [lia|constructor].
    + eapply Forall_impl; [apply (indexed_from 0 _ Hi)|]. cbn. lia.
    + eapply Forall_impl; [apply (indexed_from 0 _ Hi')|]. cbn. lia.
Qed.

Lemma qos_enqueue_ok now m q : qos_ok q ->
  exists dropped q', enqueue now m q = Ok dropped q' /\ qos_ok q' /\
    same_order classifyPacket (concat (queues q')) (concat (queues q) ++ if dropped then [] else [m]).
Proof.
  intros [Hn Hc Hcap]. pose proof (classify_range m) as Hr. unfold enqueue.
  destruct (Z.leb_spec 0 (classifyPacket m)) as [_|]; [|lia].
  destruct (lookup_lt_is_Some_2 (queues q) (Z.to_nat (classifyPacket m))) as [sub Hsub]; [lia|]. rewrite Hsub.
  destruct (negb _ && _) eqn:Hfull.
  { eexists _, _. split; [done|]. split; [done|]. apply same_order_refl. by rewrite app_nil_r. }
  destruct (append_order (queues q) (Z.to_nat (classifyPacket m)) sub m Hc Hsub ltac:(lia)) as [Hc' Ho].
  eexists _, _. split; [done|]. split; [|exact Ho]. split; cbn.
  - by rewrite length_insert.
  - exact Hc'.
  - intros Hp. apply Forall_insert; [by apply Hcap|]. rewrite length_app. cbn [length].
    apply andb_false_iff in Hfull as [Hf|Hf]; [apply negb_false_iff, Z.eqb_eq in Hf; lia|]. apply Z.leb_gt in Hf. lia.
Qed.

Lemma qos_dequeue_ok now q : qos_ok q ->
  exists r q', dequeue now q = Ok r q' /\ qos_ok q' /\
    match r with
    | None => concat (queues q) = [] /\ concat (queues q') = []
    | Some m => same_order classifyPacket (concat (queues q)) (m :: concat (queues q')) /\
        Forall (fun x => classifyPacket m <= classifyPacket x) (concat (queues q))
    end.
Proof.
  intros Hok. pose proof Hok as [Hn Hc Hcap]. unfold dequeue. pose proof (pop_first_spec 0 _ Hc) as Hpop.
  destruct (pop_first (queues q)) as [[m|] qs'].
  - destruct Hpop as (Hcat & Hmin & Hlen & Hsuf). eexists _, _. split; [done|].
    split; [|split; [by apply same_order_refl|done]]. split; cbn.
    + by rewrite Hlen.
    + intros i q' Hq'. destruct (Hsuf _ _ Hq') as (q0 & Hq0 & [p ->]). apply Hc in Hq0. by apply Forall_app in Hq0 as [_ ?].
    + intros Hp. specialize (Hcap Hp). rewrite Forall_lookup in Hcap |- *. intros i q' Hq'.
      destruct (Hsuf _ _ Hq') as (q0 & Hq0 & [p ->]). apply Hcap in Hq0. rewrite length_app in Hq0. lia.
  - destruct Hpop as [Hnil ->]. eexists _, _. split; [done|]. split; [by destruct q|by cbn].
Qed.

#[global] Instance qos_laws : QueueLaws M (t M) :=
  {| cls := classifyPacket; held := fun q => concat (queues q); queue_ok := qos_ok;
     enqueue_law := qos_enqueue_ok; dequeue_law := qos_dequeue_ok |}.
End QoSLaws.
Arguments QoSClassifierLaws M {_}.

(** [classifyByDSCP] puts a standard code point with its top bit set in the queue of
    high priority, everything else in the other. *)
Lemma classify_all :
  forallb (fun n => BasicDSCPClassifier.classifyByDSCP (Z.of_nat n) =?
    (if Z.testbit (Z.of_nat n) 5 && negb (Z.testbit (Z.of_nat n) 0) then 0 else 1)) (seq 0 64) = true.
Proof. vm_compute. reflexivity. Qed.

Lemma classifyByDSCP_spec d :
  BasicDSCPClassifier.classifyByDSCP d = if Z.testbit d 5 && negb (Z.testbit d 0) then 0 else 1.
Proof.
  assert (Z.land (Z.land d 0x3f) 0x3f = Z.land d 0x3f) as Hidem by (by rewrite <- Z.land_assoc).
  assert (BasicDSCPClassifier.classifyByDSCP d = BasicDSCPClassifier.classifyByDSCP (Z.land d 0x3f)) as ->
    by (unfold BasicDSCPClassifier.classifyByDSCP; by rewrite Hidem).
  assert (Z.testbit d 5 = Z.testbit (Z.land d 0x3f) 5 /\ Z.testbit d 0 = Z.testbit (Z.land d 0x3f) 0) as [-> ->].
  { rewrite !Z.land_spec. cbn [Z.testbit Pos.testbit Pos.pred_N]. by rewrite !andb_true_r. }
  assert (0 <= Z.land d 0x3f < 64) as Hr.
  { change 0x3f with (Z.ones 6). rewrite Z.land_ones by lia. apply Z.mod_pos_bound. lia. }
  pose proof classify_all as Hall. rewrite forallb_forall in Hall.
  specialize (Hall (Z.to_nat (Z.land d 0x3f))). rewrite Z2Nat.id in Hall by lia. apply Z.eqb_eq, Hall, in_seq. lia.
Qed.

#[global] Instance dscp_laws : QoSClassifierLaws QueuedMessage.
Proof.
  split. intros m. cbn [classifyPacket getNumQueues BasicDSCPClassifier.classifier].
  destruct m; cbn; rewrite ?classifyByDSCP_spec; try (destruct (_ && _)); unfold BasicDSCPClassifier.BEST_EFFORT; lia.
Qed.

(** ** RED *)
Section REDLaws.
Import REDQueue.
Context {M : Type}.
Variables (pow : spec_float -> spec_float -> spec_float) (SIMTIME_DBL : Z -> spec_float)
  (dblrand : nat -> spec_float) (limit : spec_float).

(** Every message was put in while the length of the queue was below [maxth]. *)
Definition below_limit (len : nat) : Prop :=
  forall n, (n < len)%nat -> SFleb limit (double_of_int (Z.of_nat n)) = false.
Record red_ok (q : t M) : Prop := {
  red_maxth : maxth q = limit;
  red_bound : below_limit (length (queue q))
}.

Lemma mark_keeps (q : t M) : exists b q', mark dblrand q = Ok b q' /\ queue q' = queue q /\ maxth q' = maxth q.
Proof. unfold mark. destruct (_ && _); [case_match|case_match]; eexists _, _; by split_and!. Qed.

Lemma red_enqueue_ok now m (q : t M) : red_ok q ->
  exists dropped q', enqueue pow SIMTIME_DBL dblrand now m q = Ok dropped q' /\ red_ok q' /\
    same_order (fun _ => 0) (queue q') (queue q ++ if dropped then [] else [m]).
Proof.
  intros Hok. unfold enqueue, bind at 1, modify.
  destruct (mark_keeps (q <| avg := new_avg pow SIMTIME_DBL now q |>)) as (b & q1 & Hm & Hq & Hmax).
  rewrite (bind_ok _ _ _ _ _ Hm). unfold bind, gets. cbn in Hq, Hmax.
  destruct (b || SFleb (maxth q1) (qlen q1)) eqn:Hd.
  - eexists _, _. split; [done|]. split; [|apply same_order_refl; by rewrite Hq, app_nil_r].
    destruct Hok. split; [congruence|]. by rewrite Hq.
  - eexists _, _. split; [done|]. split; [|apply same_order_refl; cbn; by rewrite Hq].
    destruct Hok as [Hlim Hb]. split; cbn -[double_of_int]; [congruence|]. rewrite Hq, length_app. cbn [length].
    intros n Hn. apply orb_false_iff in Hd as [_ Hhard]. unfold qlen in Hhard. rewrite Hq, Hmax, Hlim in Hhard.
    destruct (decide (n = length (queue q))) as [->|Hne]; [done|]. apply Hb. lia.
Qed.

Lemma red_dequeue_ok now (q : t M) : red_ok q ->
  exists r q', dequeue now q = Ok r q' /\ red_ok q' /\
    match r with
    | None => queue q = [] /\ queue q' = []
    | Some m => same_order (fun _ => 0) (queue q) (m :: queue q') /\ Forall (fun _ : M => 0 <= 0) (queue q)
    end.
Proof.
  intros Hok. unfold dequeue. destruct (queue q) as [|pk rest] eqn:Hq.
  { eexists _, _. by split_and!. }
  eexists _, _. split; [done|]. split; [|split; [by case_match|by apply Forall_forall]].
  destruct Hok as [Hlim Hb]. rewrite Hq in Hb. cbn [length] in Hb.
  split; [by case_match|]. intros n Hn. apply Hb. case_match; cbn in Hn; lia.
Qed.

#[local] Instance red_passive : PassiveQueue M (t M) := passive pow SIMTIME_DBL dblrand.
#[local] Instance red_laws : QueueLaws M (t M) :=
  {| cls := fun _ => 0; held := queue; queue_ok := red_ok;
     enqueue_law := red_enqueue_ok; dequeue_law := red_dequeue_ok |}.

(** A RED queue is a bounded FIFO: whatever arrives and is requested, and whatever
    the random numbers are, it sends and holds the accepted messages in their order
    of arrival, accounts for the dropped ones and answers every request, and its
    length never passes [maxth]. *)
Theorem red_queue_serves wq minth maxp pkrate (evs : list (Z * QueueEvent M)) :
  Z.of_nat (length evs) < 2147483647 ->
  exists us accepted s,
    mapE queue_event evs (PassiveQueueBase.initialize (initialize wq minth limit maxp pkrate)) = Ok us s /\
    PassiveQueueBase.out s ++ queue (PassiveQueueBase.discipline s) = accepted /\
    accepted `sublist_of` arrivals_of evs /\
    Z.of_nat (length (arrivals_of evs)) = Z.of_nat (length accepted) + PassiveQueueBase.numQueueDropped s /\
    requests_of evs = Z.of_nat (length (PassiveQueueBase.out s)) + PassiveQueueBase.packetRequested s /\
    below_limit (length (queue (PassiveQueueBase.discipline s))).
Proof.
  intros Hmax.
  destruct (events_serve evs [] [] (PassiveQueueBase.initialize (initialize wq minth limit maxp pkrate)))
    as (us & accepted & s & Hrun & []); [|cbn; lia|].
  { split; cbn -[below_limit]; try done. split; [done|]. cbn. intros n Hn. lia. }
  cbn [app] in *.   exists us, accepted, s. split_and!; [done| |done|by rewrite <- sv_received0|done|apply sv_ok0].
  by apply (same_order_single (fun _ => 0)).
Qed.
End REDLaws.

(** With the default [maxth] of 50 at most 50 messages wait. *)
Lemma red_default_limit len : below_limit (double_of_int 50) len -> (len <= 50)%nat.
Proof.
  intros Hb. destruct (decide (len <= 50)%nat) as [|Hlong]; [done|].
  specialize (Hb 50%nat ltac:(lia)). vm_compute in Hb. done.
Qed.

(** ** The service queue *)
Section ServiceQueue.
Import AbstractQueue.
Context {M W : Type}.
Variables (delay : Z) (finish : Z -> M -> Eff W unit) (w0 : W).
Hypothesis delay_nonneg : 0 <= delay.
#[local] Instance base_hooks : ServiceHooks M W := QueueBase.hooks delay finish.
Implicit Types (s : t M W) (arr deps : list (Z * M)).

(** When a single server that is free at [free] completes what arrives: each
    message starts when it is there and the one before it is done. *)
Fixpoint departures (free : Z) arr : list (Z * M) :=
  match arr with
  | [] => []
  | (at_, m) :: rest =>
      let done_ := Z.max free at_ + delay in
      (done_, m) :: departures done_ rest
  end.

Definition complete deps (w : W) : Prop := exists us, mapE (fun d => finish (fst d) (snd d)) deps w0 = Ok us w.

(** An event fires at its time, and time does not pass the scheduled event. *)
Inductive service_run : list (Z * M) -> Z -> t M W -> Prop :=
| service_start : service_run [] 0 (initialize w0)
| service_arrival arr now s later m s' :
    service_run arr now s -> now <= later ->
    match endServiceMsg s with Some e => later <= e | None => True end ->
    handleMessage later (Arrives m) s = Ok tt s' -> service_run (arr ++ [(later, m)]) later s'
| service_end arr now s e s' :
    service_run arr now s -> endServiceMsg s = Some e ->
    handleMessage e EndService s = Ok tt s' -> service_run arr e s'.

Definition free_after (free : Z) deps : Z := default free (last deps.*1).

Lemma departures_snoc free arr at_ m :
  departures free (arr ++ [(at_, m)]) =
  departures free arr ++ [(Z.max (free_after free (departures free arr)) at_ + delay, m)].
Proof.
  revert free. induction arr as [|[a x] arr IH]; intros free; [done|]. cbn [app departures]. rewrite IH. cbn [app].
  do 3 f_equal. unfold free_after. cbn [fmap list_fmap fst]. by rewrite last_cons; destruct (last _).
Qed.

Lemma departures_from free arr : Forall (fun d => free <= fst d) (departures free arr).
Proof.
  revert free. induction arr as [|[a x] arr IH]; intros free; cbn [departures]; constructor; [cbn; lia|].
  eapply Forall_impl; [apply IH|]. cbn. lia.
Qed.

(** The message after one that completes at [e] completes one service time later,
    if everything was there by then. *)
Lemma departures_next free arr deps e m rest :
  departures free arr = deps ++ (e, m) :: rest -> Forall (fun a => fst a <= e) arr ->
  Forall (fun d => e <= fst d) rest /\
  match rest with [] => True | (d, _) :: _ => d = e + delay end.
Proof.
  revert free deps. induction arr as [|[a x] arr IH]; intros free deps Hd Hall; [by destruct deps|].
  apply Forall_cons in Hall as [Ha Hall]. cbn in Ha. destruct deps as [|d deps]; cbn in Hd.
  - injection Hd as <- <- <-. split.
    + eapply Forall_impl; [apply departures_from|]. cbn. lia.
    + destruct arr as [|[a2 x2] arr]; [done|]. cbn. apply Forall_cons in Hall as [Ha2 _]. cbn in Ha2. lia.
  - injection Hd as _ Hd. by apply (IH _ _ Hd).
Qed.

(** [deps]: what is done; [pending]: what is in service or in the queue. *)
Record service_inv (arr : list (Z * M)) (now : Z) (s : t M W) : Prop := {
  si_past : Forall (fun a => fst a <= now) arr;
  si_split : exists deps pending, departures 0 arr = deps ++ pending /\ complete deps (world s) /\
    Forall (fun d => fst d <= now) deps /\ pending.*2 = option_list (msgServiced s) ++ queue s /\
    endServiceMsg s = fst <$> head pending /\ Forall (fun d => now <= fst d) pending;
  si_idle : msgServiced s = None -> queue s = [];
  si_delay : is_Some (endServiceMsg s) -> 0 < delay
}.

Lemma complete_snoc deps now m w w' :
  complete deps w -> finish now m w = Ok tt w' -> complete (deps ++ [(now, m)]) w'.
Proof.
  intros [us Hus] Hf. exists (us ++ [tt]). revert Hus. generalize w0. clear w0. revert us.
  induction deps as [|d deps IH]; intros us w0; cbn.
  - intros [= <- ->]. unfold bind. cbn. by rewrite Hf.
  - intros Hm. apply bind_inv in Hm as (u & w1 & Hd & Hm). apply bind_inv in Hm as (us' & w2 & Hm & Hr).
    injection Hr as <- <-. rewrite (bind_ok _ _ _ _ _ Hd). rewrite (bind_ok _ _ _ _ _ (IH _ _ Hm)). done.
Qed.

(** What [doEndService] does when no end of service is scheduled: with a service
    time it starts the next message, without one it completes them all. *)
Definition idle_server (w : W) : t M W := mk None None [] w.

Definition finished (now : Z) (m : M) (w : W) (k : W -> t M W) : Outcome (t M W) unit :=
  match finish now m w with Ok _ w' => Ok tt (k w') | Err e => Err e end.

Lemma finished_inv now m w k s' :
  finished now m w k = Ok tt s' -> exists w', finish now m w = Ok tt w' /\ s' = k w'.
Proof. unfold finished. destruct (finish now m w) as [[] w'|]; [|done]. intros [= <-]. by exists w'. Qed.

Lemma end_service_delayed n now m q w :
  0 < delay ->
  doEndService (S n) now (mk (Some m) None q w) = finished now m w (fun w' =>
    match q with [] => idle_server w' | x :: r => mk (Some x) (Some (now + delay)) r w' end).
Proof.
  intros Hd. cbn [doEndService]. unfold finished, bind, gets, on_world, modify. cbn -[Z.ltb Z.eqb].
  destruct (finish now m w) as [[] w'|] eqn:Hf; [|done]. destruct q as [|x r]; [done|].
  unfold startService_, scheduleAt, QueueBase.startService, bind, gets, modify. cbn -[Z.ltb Z.eqb].
  destruct (Z.eqb_spec delay 0); [lia|]. cbn -[Z.ltb]. destruct (Z.ltb_spec (now + delay) now); [lia|]. done.
Qed.

Lemma start_service_run now m w :
  doStartService 1 now (mk (Some m) None [] w) =
  if delay =? 0 then finished now m w idle_server else Ok tt (mk (Some m) (Some (now + delay)) [] w).
Proof.
  unfold doStartService, startService_, scheduleAt, bind at 1, gets. cbn -[Z.eqb Z.ltb].
  unfold QueueBase.startService. destruct (Z.eqb_spec delay 0) as [Hd|Hd]; cbn [negb].
  - unfold finished, bind, gets, on_world, modify. cbn. by destruct (finish now m w) as [[] ?|].
  - unfold bind, gets, modify. cbn -[Z.ltb]. destruct (Z.ltb_spec (now + delay) now); [lia|]. done.
Qed.

Lemma free_after_le deps now : 0 <= now -> Forall (fun d => fst d <= now) deps -> free_after 0 deps <= now.
Proof.
  intros Hnow Hall. unfold free_after. destruct (last deps.*1) as [e|] eqn:He; [|done].
  apply last_Some in He as [l He]. assert (e ∈ deps.*1) as Hin by (rewrite He; set_solver).
  apply list_elem_of_fmap in Hin as (d & -> & Hd). rewrite Forall_forall in Hall. by apply Hall.
Qed.

Lemma service_inv_time arr now s : service_inv arr now s ->
  (msgServiced s = None /\ s = idle_server (world s)) \/
  exists m e, msgServiced s = Some m /\ endServiceMsg s = Some e /\ now <= e.
Proof.
  intros [_ (deps & pending & _ & _ & _ & Hp & He & Hl) Hidle _]. destruct (msgServiced s) as [m|] eqn:Hm.
  - right. destruct pending as [|[e x] pending]; [done|]. exists m, e. cbn in He. by apply Forall_cons in Hl as [? _].
  - left. specialize (Hidle eq_refl). rewrite Hidle in Hp. destruct pending; [|done]. cbn in He.
    split_and!; [done..|]. by destruct s; cbn in *; subst.
Qed.

Lemma earlier_all {A} (l : list (Z * A)) now later :
  now <= later -> Forall (fun a => fst a <= now) l -> Forall (fun a => fst a <= later) l.
Proof. intros Hle Hl. eapply Forall_impl; [exact Hl|cbn; lia]. Qed.

Lemma earlier_snoc {A} (l : list (Z * A)) now later x :
  now <= later -> Forall (fun a => fst a <= now) l -> Forall (fun a => fst a <= later) (l ++ [(later, x)]).
Proof. intros Hle Hl. apply Forall_app. split; [by apply (earlier_all l now)|by repeat constructor]. Qed.

Lemma service_idle_arrival arr now later w m s' :
  service_inv arr now (idle_server w) -> 0 <= now <= later ->
  handleMessage later (Arrives m) (idle_server w) = Ok tt s' -> service_inv (arr ++ [(later, m)]) later s'.
Proof.
  intros [Hpast (deps & pending & Hsplit & Hc & Hdeps & Hp & Hev & Hl) _ _] Hnow Hrun.
  assert (pending = []) as -> by (by destruct pending). rewrite app_nil_r in Hsplit.
  assert (Z.max (free_after 0 (departures 0 arr)) later = later) as Hmax.
  { rewrite Hsplit. pose proof (free_after_le deps now). lia. }
  change (doStartService 1 later (mk (Some m) None [] w) = Ok tt s') in Hrun. rewrite start_service_run in Hrun.
  destruct (Z.eqb_spec delay 0) as [Hd|Hd]; [apply finished_inv in Hrun as (w' & Hf & ->)|injection Hrun as <-]; cycle 1.
  - split; [apply (earlier_snoc arr now); [lia|done]| |done|intros [? ?]; by try lia].
    exists deps, [(later + delay, m)]. rewrite departures_snoc, Hmax, Hsplit. cbn.
    split_and!; [done|done|apply (earlier_all deps now); [lia|done]|done|done|]. repeat constructor. cbn. lia.
  - split; [apply (earlier_snoc arr now); [lia|done]| |done|intros [? ?]; by try lia].
    exists (deps ++ [(later, m)]), []. rewrite departures_snoc, Hmax, Hsplit, Hd, Z.add_0_r, app_nil_r. cbn.
    split_and!; [done|by apply (complete_snoc deps later m w)|apply (earlier_snoc deps now); [lia|done]|done..].
Qed.

Lemma service_busy_arrival arr now later s x e m s' :
  service_inv arr now s -> now <= later <= e -> msgServiced s = Some x -> endServiceMsg s = Some e ->
  handleMessage later (Arrives m) s = Ok tt s' -> service_inv (arr ++ [(later, m)]) later s'.
Proof.
  intros [Hpast (deps & pending & Hsplit & Hc & Hdeps & Hp & Hev & Hl) _ Hpos] Hnow Hm He Hrun.
  unfold handleMessage, bind, gets, modify in Hrun. rewrite Hm in Hrun. injection Hrun as <-.
  destruct pending as [|[e0 x0] pending]; [by rewrite Hm in Hp|]. rewrite He in Hev. injection Hev as ->.
  split; cbn; [apply (earlier_snoc arr now); [lia|done]| |by rewrite Hm|exact Hpos].
  exists deps, (((e0, x0) :: pending) ++ [(Z.max (free_after 0 (departures 0 arr)) later + delay, m)]).
  rewrite departures_snoc, Hsplit, <- app_assoc. split_and!; [done|done| | |done|].
  - apply (earlier_all deps now); [lia|done].
  - rewrite fmap_app, Hp. by rewrite <- app_assoc.
  - destruct (departures_next 0 arr deps e0 x0 pending Hsplit) as [Hlater _].
    { apply (earlier_all arr now); [lia|done]. }
    apply Forall_app. split; [|repeat constructor; cbn; lia].
    constructor; [cbn; lia|]. eapply Forall_impl; [exact Hlater|cbn; lia].
Qed.

Lemma service_end_inv arr now s e s' :
  service_inv arr now s -> endServiceMsg s = Some e ->
  handleMessage e EndService s = Ok tt s' -> service_inv arr e s'.
Proof.
  intros [Hpast (deps & pending & Hsplit & Hc & Hdeps & Hp & Hev & Hl) Hidle Hpos] He Hrun.
  rewrite He in Hev. destruct pending as [|[e0 m] pending]; [done|]. injection Hev as <-.
  destruct (msgServiced s) as [x|] eqn:Hm; [|by rewrite Hidle in Hp]. injection Hp as -> Hp.
  apply Forall_cons in Hl as [Hle _]. cbn in Hle.
  pose proof (earlier_all arr now e Hle Hpast) as Hpast'.
  destruct (departures_next 0 arr deps e x pending Hsplit Hpast') as [Hlater Hnext].
  pose proof (Hpos (mk_is_Some _ _ He)) as Hd.
  assert (s = mk (Some x) (Some e) (queue s) (world s)) as Hs by (destruct s; cbn in *; by subst).
  rewrite Hs in Hrun. change (doEndService (S (length (queue s))) e (mk (Some x) None (queue s) (world s)) = Ok tt s') in Hrun.
  rewrite end_service_delayed in Hrun by done. apply finished_inv in Hrun as (w & Hf & ->).
  split; [done| |by destruct (queue s)|done].
  exists (deps ++ [(e, x)]), pending. rewrite <- app_assoc. split_and!; [done| | | | |done].
  - replace (world (match queue s with [] => idle_server w | y :: r => mk (Some y) (Some (e + delay)) r w end)) with w by (by destruct (queue s)).
    by apply (complete_snoc deps e x (world s)).
  - by apply (earlier_snoc deps now).
  - transitivity (queue s); [exact Hp|by destruct (queue s)].
  - destruct (queue s) as [|y r]; destruct pending as [|[d z] pending]; try done. cbn. by rewrite Hnext.
Qed.

Lemma service_run_inv arr now s : service_run arr now s -> 0 <= now /\ service_inv arr now s.
Proof.
  induction 1 as [|arr now s later m s' _ [Hnow Hi] Hle Hlegal Hrun|arr now s e s' _ [Hnow Hi] He Hrun].
  - split; [done|]. split; [constructor| |done|by intros [? ?]]. exists [], []. split_and!; try done. by exists [].
  - split; [lia|]. destruct (service_inv_time _ _ _ Hi) as [[_ Hs]|(x & e & Hm & He & Hle')].
    + rewrite Hs in Hi, Hrun. by apply (service_idle_arrival arr now later (world s)).
    + rewrite He in Hlegal. by apply (service_busy_arrival arr now later s x e).
  - split; [|by apply (service_end_inv arr now s)]. destruct (service_inv_time _ _ _ Hi) as [[_ Hs]|(x & e' & _ & He' & ?)].
    + rewrite Hs in He. done.
    + rewrite He in He'. injection He' as ->. lia.
Qed.

(** No event fails unless the work the module does for the message fails. *)
Lemma service_never_stuck arr now s :
  (forall at_ m w, exists w', finish at_ m w = Ok tt w') -> service_inv arr now s ->
  (forall later m, exists s', handleMessage later (Arrives m) s = Ok tt s') /\
  (forall e, endServiceMsg s = Some e -> exists s', handleMessage e EndService s = Ok tt s').
Proof.
  intros Hfin Hi.
  assert (forall at_ m w k, exists s', finished at_ m w k = Ok tt s') as Hf.
  { intros at_ m w k. unfold finished. destruct (Hfin at_ m w) as [w' ->]. by eexists. }
  destruct (service_inv_time _ _ _ Hi) as [[Hm Hs]|(x & e & Hm & He & _)]; split.
  - intros later m. rewrite Hs.
    change (exists s', doStartService 1 later (mk (Some m) None [] (world s)) = Ok tt s').
    rewrite start_service_run. destruct (delay =? 0); [apply Hf|by eexists].
  - intros e. by rewrite Hs.
  - intros later m. unfold handleMessage, bind, gets, modify. rewrite Hm. by eexists.
  - intros e' He'. rewrite He in He'. injection He' as <-. assert (s = mk (Some x) (Some e) (queue s) (world s)) as -> by (destruct s; cbn in *; by subst).
    pose proof (si_delay _ _ _ Hi (mk_is_Some _ _ He)) as Hd.
    change (exists s', doEndService (S (length (queue s))) e (mk (Some x) None (queue s) (world s)) = Ok tt s').
    rewrite end_service_delayed by done. apply Hf.
Qed.
End ServiceQueue.

(** C35: The queue in front of a module is a single server. Whatever arrives, the
    messages are handed to the module in their order of arrival, each at the time a
    server would be done with it that takes [delay] for a message and starts when
    the message is there and the one before it is done; the end of service is
    scheduled exactly while a message is served; and no event fails unless what the
    module does with a message fails. *)
Theorem service_queue_is_single_server {M W} (delay : Z) (finish : Z -> M -> Eff W unit) (w0 : W) arr now s :
  0 <= delay -> service_run delay finish w0 arr now s ->
  service_inv delay finish w0 arr now s /\
  ((forall at_ m w, exists w', finish at_ m w = Ok tt w') ->
   (forall later m, exists s', @AbstractQueue.handleMessage M W (QueueBase.hooks delay finish) later (AbstractQueue.Arrives m) s = Ok tt s') /\
   (forall e, AbstractQueue.endServiceMsg s = Some e ->
    exists s', @AbstractQueue.handleMessage M W (QueueBase.hooks delay finish) e AbstractQueue.EndService s = Ok tt s')).
Proof.
  intros Hd Hrun. destruct (service_run_inv delay finish w0 Hd arr now s Hrun) as [_ Hi].
  split; [done|]. intros Hfin. by apply (service_never_stuck delay finish w0 Hd arr now).
Qed.

(** ** Concrete runs *)
Definition qos_events : list (Z * QueueEvent QueuedMessage) :=
  [(1, MessageArrives QOther); (2, MessageArrives QOther); (3, MessageArrives (QIPv6Datagram 46));
   (4, MessageArrives (QIPv6Datagram 48)); (5, PacketRequested)].

Lemma passive_queue_serves_witness :
  exists us accepted s,
    mapE queue_event qos_events (PassiveQueueBase.initialize (DropTailQoSQueue.initialize 1)) = Ok us s /\
    serves qos_events accepted s /\ PassiveQueueBase.out s = [QIPv6Datagram 46].
Proof.
  destruct (passive_queue_serves (DropTailQoSQueue.initialize (M := QueuedMessage) 1) qos_events)
    as (us & accepted & s & Hrun & Hs & _).
  - split; cbn; [done| |].
    + intros [|[|i]] q; cbn; intros Hq; [injection Hq as <-; constructor..|done].
    + intros _. repeat constructor; cbn; lia.
  - reflexivity.
  - reflexivity.
  - exists us, accepted, s. split; [exact Hrun|]. split; [exact Hs|].
    revert Hrun. vm_compute. intros [= _ <-]. reflexivity.
Defined.

Definition red_events : list (Z * QueueEvent Z) :=
  [(1, MessageArrives 1); (2, MessageArrives 2); (3, MessageArrives 3); (4, PacketRequested)].

Lemma red_queue_serves_witness :
  exists us accepted s,
    @mapE _ _ _ (@queue_event _ _ (REDQueue.passive (fun _ _ => double_of_int 1) double_of_int (fun _ => double_of_int 0)))
      red_events (PassiveQueueBase.initialize (REDQueue.initialize (double_of_int 0) (double_of_int 1) (double_of_int 2)
        (double_of_int 1) (double_of_int 1))) = Ok us s /\
    PassiveQueueBase.out s ++ REDQueue.queue (PassiveQueueBase.discipline s) = accepted /\
    PassiveQueueBase.out s = [1] /\ PassiveQueueBase.numQueueDropped s = 1.
Proof.
  destruct (red_queue_serves (M := Z) (fun _ _ => double_of_int 1) double_of_int (fun _ => double_of_int 0)
    (double_of_int 2) (double_of_int 0) (double_of_int 1) (double_of_int 1) (double_of_int 1) red_events)
    as (us & accepted & s & Hrun & Hacc & _); [reflexivity|].
  exists us, accepted, s. split; [exact Hrun|]. split; [exact Hacc|].
  revert Hrun. vm_compute. intros [= _ <-]. split; reflexivity.
Defined.

(** A module that writes down when it was given which message. *)
Definition write_down (now : Z) (m : Z) : Eff (list (Z * Z)) unit := fun log => Ok tt (log ++ [(now, m)]).
Definition busy_server : AbstractQueue.t Z (list (Z * Z)) := AbstractQueue.mk (Some 7) (Some 5) [8] [].
Definition second_server : AbstractQueue.t Z (list (Z * Z)) := AbstractQueue.mk (Some 8) (Some 10) [] [(5, 7)].

Lemma service_queue_is_single_server_witness :
  exists pending, departures 5 0 [(0, 7); (3, 8)] = [(5, 7)] ++ pending /\ pending = [(10, 8)] /\
    service_inv 5 write_down [] [(0, 7); (3, 8)] 5 second_server.
Proof.
  exists [(10, 8)]. split; [reflexivity|]. split; [reflexivity|].
  apply (service_queue_is_single_server 5 write_down [] [(0, 7); (3, 8)] 5 second_server); [lia|].
  apply (service_end 5 write_down [] [(0, 7); (3, 8)] 3 busy_server 5); [|reflexivity|reflexivity].
  apply (service_arrival 5 write_down [] [(0, 7)] 0 (AbstractQueue.mk (Some 7) (Some 5) [] []) 3 8);
    [|lia|cbn; lia|reflexivity].
  apply (service_arrival 5 write_down [] [] 0 (AbstractQueue.initialize []) 0 7); [|lia|exact I|reflexivity].
  apply service_start.
Defined.
