(* ===== verification/Manet.v ===== *)
(** * What the MANET routing protocols share

    [ManetRoutingBase] ([networklayer/manetrouting/base]): the wireless interfaces a
    protocol runs on, its access to the IP routing table, the packets it sends and
    its timer queue.  The protocol is a module of the network layer: the variant in
    the MAC layer of a mesh node ([mac_layer_]) only changes what is said here.
    Addresses are the low 32 bits of a [Uint128]. *)
From Stdlib Require Import String.
From S2P Require Import Prelude IPAddress InterfaceTable RoutingTable.

Module ManetRoutingBase.
(** [interfaceVector]: an interface and its position in the interface table.
    [P] is the type of the protocol's messages. *)
Record InterfaceIdentification : Type := mkIdent { interfacePtr : Z; index : nat }.

(** A packet given to IP: the control info of the UDP packet and the protocol's
    message; [delayed] if it is sent after a random delay. *)
Record IPSend (P : Type) : Type := mkSend {
  snd_srcPort : Z;
  snd_destPort : Z;
  snd_srcAddr : IPAddress.t;
  snd_destAddr : IPAddress.t;
  snd_ttl : Z;
  snd_interfaceId : Z;
  snd_delayed : bool;
  snd_msg : P
}.
Arguments mkSend {P}. Arguments snd_srcPort {P}. Arguments snd_destPort {P}. Arguments snd_srcAddr {P}.
Arguments snd_destAddr {P}. Arguments snd_ttl {P}. Arguments snd_interfaceId {P}. Arguments snd_delayed {P}.
Arguments snd_msg {P}.

Section Base.
Context {P : Type}.

Record t : Type := mk {
  node : Node;
  hostAddress : IPAddress.t;
  routerId : IPAddress.t;
  interfaceVector : list InterfaceIdentification;
  to_ip : list (IPSend P)
}.
#[global] Instance eta : Eta t := fun s =>
  {| node := node s; hostAddress := hostAddress s; routerId := routerId s;
     interfaceVector := interfaceVector s; to_ip := to_ip s |}.

Definition on_node {A} (m : Eff Node A) : Eff t A := fun s =>
  match m (node s) with Ok a n => Ok a (s <| node := n |>) | Err e => Err e end.

(** ** Interfaces *)
Definition maxInterfaces : nat := 10.

(** [strstr(name, "wlan") != NULL] *)
Definition is_wlan (name : string) : bool :=
  match String.index 0 "wlan" name with Some _ => true | None => false end.

Definition wlan_interfaces (l : list InterfaceEntry) : list InterfaceIdentification :=
  (fun p => mkIdent (interfaceId (snd p)) (fst p)) <$>
    filter (fun p => is_wlan (ie_name (snd p)) = true) (zip (seq 0 (length l)) l).

Definition getInterfaceById (ifId : Z) : Eff Node InterfaceEntry :=
  let! e := gets (fun n => InterfaceTable.getInterfaceById ifId (ift n)) in
  match e with Some e => ret e | None => fail (NullPointer "interface") end.

Definition registerRoutingModule : Eff t unit :=
  let! l := on_node all_interfaces in
  modify (fun s => s <| interfaceVector := interfaceVector s ++ wlan_interfaces l |>) ;;;
  let! r := on_node (get_rt RoutingTable.routerId) in
  modify (fun s => s <| routerId := r |>) ;;;
  let! v := gets interfaceVector in
  match v with
  | [] => fail (RuntimeError "Manet routing protocol has found 0 wlan interfaces")
  | first :: _ =>
      if (maxInterfaces <? length v)%nat then fail (RuntimeError "Manet routing protocol has found too many wlan interfaces")
      else
        let! e := on_node (getInterfaceById (interfacePtr first)) in
        let! d := on_node (ipv4Data e) in
        modify (fun s => s <| hostAddress := inetAddr d |>)
  end.

Definition isIpLocalAddress (dest : IPAddress.t) : Eff t bool := on_node (isLocalAddress dest).

Definition getNumWlanInterfaces : Eff t nat := gets (fun s => length (interfaceVector s)).
Definition getWlanInterfaceEntry (i : Z) : Eff t (option Z) :=
  gets (fun s => if 0 <=? i then interfacePtr <$> (interfaceVector s !! Z.to_nat i) else None).
Definition getWlanInterfaceIndex (i : Z) : Eff t Z :=
  gets (fun s => match (if 0 <=? i then interfaceVector s !! Z.to_nat i else None) with
                 | Some x => Z.of_nat (index x) | None => -1 end).

(** The first wireless interface with the address. *)
Fixpoint find_wlan (add : IPAddress.t) (l : list InterfaceIdentification) : Eff Node (option InterfaceIdentification) :=
  match l with
  | [] => ret None
  | x :: rest =>
      let! e := getInterfaceById (interfacePtr x) in
      let! d := ipv4Data e in
      if inetAddr d =? add then ret (Some x) else find_wlan add rest
  end.

Definition first_wlan : Eff t InterfaceIdentification :=
  let! v := gets interfaceVector in
  match v with x :: _ => ret x | [] => fail (NullPointer "interfaceVector[0]") end.

Definition getInterfaceWlanByAddress (add : IPAddress.t) : Eff t (option Z) :=
  if add =? 0 then let! x := first_wlan in ret (Some (interfacePtr x))
  else
    let! v := gets interfaceVector in
    let! r := on_node (find_wlan add v) in
    ret (interfacePtr <$> r).

Definition getWlanInterfaceIndexByAddress (add : IPAddress.t) : Eff t Z :=
  if add =? 0 then let! x := first_wlan in ret (Z.of_nat (index x))
  else
    let! v := gets interfaceVector in
    let! r := on_node (find_wlan add v) in
    ret (match r with Some x => Z.of_nat (index x) | None => -1 end).

(** ** The IP routing table

    The loop over the routes from the last to the first: every route to [dst] is
    deleted, or the one met last is kept. *)
Fixpoint chg_loop (k : nat) (dst : IPAddress.t) (del_entry : bool) (found : option positive)
    : Eff Node (option positive) :=
  match k with
  | O => ret found
  | S k =>
      let! p := getRoute k in
      match p with
      | None => fail (NullPointer "getRoute")
      | Some p =>
          let! e := deref p in
          if host e =? dst then
            if del_entry && bool_decide (found = None) then
              let! ok := deleteRoute p in
              if ok then chg_loop k dst del_entry found
              else fail (RuntimeError "Aodv omnet_chg_rte can't delete route entry")
            else chg_loop k dst del_entry (Some p)
          else chg_loop k dst del_entry found
      end
  end.

Definition manet_route (dst gtwy netm hops : Z) (ifId : option Z) (e : IPRoute) : IPRoute :=
  e <| host := dst |>
    <| netmask := if netm =? 0 then IPAddress.getNetworkMask dst else netm |>
    <| gateway := gtwy |> <| metric := i16 hops |> <| RoutingTable.interfacePtr := ifId |>
    <| type_ := if IPAddress.isUnspecified gtwy then DIRECT else REMOTE |> <| source := MANET |>.

(** An existing route is rewritten in place, without telling anybody. *)
Definition write_route (p : positive) (f : IPRoute -> IPRoute) : Eff Node unit :=
  let! _ := deref p in
  set_rt (fun r => r <| heap := alter f p (heap r) |>).

(** [iface] is the address of an interface or 0. *)
Definition omnet_chg_rte (dst gtwy netm hops : Z) (del_entry : bool) (iface : IPAddress.t) : Eff t unit :=
  let! n := on_node getNumRoutes in
  let! found := on_node (chg_loop n dst del_entry None) in
  if del_entry then ret tt else
  let! ifId := getInterfaceWlanByAddress iface in
  match found with
  | Some p => on_node (write_route p (manet_route dst gtwy netm hops ifId))
  | None => let! _ := on_node (addRoute (manet_route dst gtwy netm hops ifId IPRoute_new)) in ret tt
  end.

Definition deleteIpEntry (dst : Z) : Eff t unit := omnet_chg_rte dst dst dst 0 true 0.
Definition setIpEntry (dst gtwy netm hops : Z) : Eff t unit := omnet_chg_rte dst gtwy netm hops false 0.

(** The gateway to [dst], [ALLONES_ADDRESS] if there is no route. *)
Fixpoint exist_loop (k : nat) (dst : IPAddress.t) : Eff Node IPAddress.t :=
  match k with
  | O => ret IPAddress.ALLONES_ADDRESS
  | S k =>
      let! p := getRoute k in
      match p with
      | None => fail (NullPointer "getRoute")
      | Some p =>
          let! e := deref p in
          if host e =? dst then ret (gateway e) else exist_loop k dst
      end
  end.
Definition omnet_exist_rte (dst : IPAddress.t) : Eff t IPAddress.t :=
  let! n := on_node getNumRoutes in on_node (exist_loop n dst).

(** Deletes the routes over a wireless interface, from the last to the first. *)
Fixpoint clean_loop (k : nat) : Eff Node unit :=
  match k with
  | O => ret tt
  | S k =>
      let! p := getRoute k in
      match p with
      | None => fail (NullPointer "getRoute")
      | Some p =>
          let! e := deref p in
          match RoutingTable.interfacePtr e with
          | None => fail (NullPointer "getInterface()")
          | Some i =>
              let! ie := getInterfaceById i in
              (if is_wlan (ie_name ie) then let! _ := deleteRoute p in ret tt else ret tt) ;;;
              clean_loop k
          end
      end
  end.
Definition omnet_clean_rte : Eff t unit := let! n := on_node getNumRoutes in on_node (clean_loop n).

(** ** Sending

    [sendToIp] with the address of an interface or 0.  A broadcast without an
    interface goes out on every wireless interface. *)
Definition send_one (x : IPSend P) : Eff t unit := modify (fun s => s <| to_ip := to_ip s ++ [x] |>).

Definition wlan_address (x : InterfaceIdentification) : Eff Node IPAddress.t :=
  let! e := getInterfaceById (interfacePtr x) in
  let! d := ipv4Data e in ret (inetAddr d).

Definition sendToIp (msg : P) (srcPort : Z) (destAddr : IPAddress.t) (destPort ttl : Z) (delayed : bool)
    (iface : IPAddress.t) : Eff t unit :=
  if ttl =? 0 then ret tt else
  let! ie := (if negb (iface =? 0) then getInterfaceWlanByAddress iface else ret None) in
  let packet src ifId := mkSend srcPort destPort src destAddr ttl ifId delayed msg in
  match ie with
  | Some ifId =>
      let! e := on_node (getInterfaceById ifId) in
      let! d := on_node (ipv4Data e) in
      send_one (packet (inetAddr d) ifId)
  | None =>
      if destAddr =? IPAddress.ALLONES_ADDRESS then
        let! v := gets interfaceVector in
        match v with
        | [] => fail (NullPointer "interfaceVector[size-1]")
        | _ => let! _ := mapE (fun x =>
                 let! src := on_node (wlan_address x) in send_one (packet src (interfacePtr x))) v in ret tt
        end
      else
        let! src := gets hostAddress in
        send_one (packet src (-1))
  end.
End Base.
Arguments t : clear implicits.
End ManetRoutingBase.

(** ** Timers

    The timer queue of the protocols: a [multimap] from times to timers, here a list
    in its order, and the message that is scheduled for the first of them.  [K]
    are the timers; [expire] is what a timer does. *)
Module ManetTimer.
Section Timers.
Context {K : Type} `{EqDecision K}.

Record t : Type := mk {
  queue : list (Z * K);
  timerMessage : option Z;
  expired : list (Z * K)
}.
#[global] Instance eta : Eta t := fun s =>
  {| queue := queue s; timerMessage := timerMessage s; expired := expired s |}.

(** [insert] puts an element behind those with the same key. *)
Fixpoint insert (time : Z) (timer : K) (l : list (Z * K)) : list (Z * K) :=
  match l with
  | [] => [(time, timer)]
  | (at_, x) :: rest => if time <? at_ then (time, timer) :: l else (at_, x) :: insert time timer rest
  end.

Fixpoint remove (timer : K) (l : list (Z * K)) : list (Z * K) :=
  match l with
  | [] => []
  | (at_, x) :: rest => if decide (x = timer) then rest else (at_, x) :: remove timer rest
  end.

Definition removeQueueTimer (timer : K) : Eff t unit :=
  modify (fun s => s <| queue := remove timer (queue s) |>).

Definition resched (timer : K) (time : Z) : Eff t unit :=
  removeQueueTimer timer ;;;
  modify (fun s => s <| queue := insert time timer (queue s) |>).

Definition first_time : Eff t Z :=
  let! q := gets queue in
  match q with (at_, _) :: _ => ret at_ | [] => fail (NullPointer "timerMultiMapPtr->begin()") end.

Definition scheduleEvent : Eff t unit :=
  let! at_ := first_time in
  let! scheduled := gets timerMessage in
  match scheduled with
  | Some arrival =>
      if at_ <? arrival then modify (fun s => s <| timerMessage := Some at_ |>)
      else if arrival <? at_ then fail (RuntimeError "timer Queue problem")
      else ret tt
  | None => modify (fun s => s <| timerMessage := Some at_ |>)
  end.

(** The loop of [checkTimer]; [expire] may start timers again. *)
Fixpoint check_loop (rounds : nat) (expire : K -> Eff t unit) (now : Z) : Eff t unit :=
  match rounds with
  | O => fail OutOfFuel
  | S rounds =>
      let! at_ := first_time in
      if at_ <=? now then
        let! q := gets queue in
        match q with
        | [] => fail (NullPointer "timerMultiMapPtr->begin()")
        | (at_, timer) :: rest =>
            modify (fun s => s <| queue := rest |> <| expired := expired s ++ [(at_, timer)] |>) ;;;
            expire timer ;;;
            check_loop rounds expire now
        end
      else ret tt
  end.

Definition checkTimer (rounds : nat) (expire : K -> Eff t unit) (now : Z) : Eff t unit :=
  modify (fun s => s <| timerMessage := None |>) ;;;
  check_loop rounds expire now.
End Timers.
Arguments t : clear implicits.
End ManetTimer.
