(* ===== verification/ManetSpec.v ===== *)
(** * The timers of the MANET routing protocols *)
From S2P Require Import Prelude Manet.
Import ManetTimer.

Section Timers.
Context {K : Type} `{EqDecision K}.
Implicit Types (s : t K) (l due later : list (Z * K)).

Definition by_time (x y : Z * K) : Prop := fst x <= fst y.

Lemma insert_elem time timer l x : x ∈ insert time timer l <-> x = (time, timer) \/ x ∈ l.
Proof.
  induction l as [|[at_ k] l IH]; cbn [insert]; [set_solver|]. destruct (_ <? _); [set_solver|].
  rewrite !elem_of_cons, IH. set_solver.
Qed.

Lemma insert_sorted time timer l : StronglySorted by_time l -> StronglySorted by_time (insert time timer l).
Proof.
  induction 1 as [|[at_ k] l Hl IH Hall]; cbn [insert]; [by repeat constructor|].
  destruct (Z.ltb_spec time at_) as [Hlt|Hge].
  - constructor; [by constructor|]. constructor; [unfold by_time; cbn; lia|].
    eapply Forall_impl; [exact Hall|]. unfold by_time. cbn. lia.
  - constructor; [done|]. rewrite Forall_forall in Hall |- *. intros x Hx. apply insert_elem in Hx as [->|Hx]; [done|by apply Hall].
Qed.

Lemma remove_sublist timer l : remove timer l `sublist_of` l.
Proof. induction l as [|[at_ k] l IH]; cbn [remove]; [done|]. destruct (decide _); by constructor. Qed.

(** A timer that is started again moves to its place in the order of times; the
    order of the others is kept. *)
Lemma resched_sorted timer time s s' :
  StronglySorted by_time (queue s) -> resched timer time s = Ok tt s' ->
  StronglySorted by_time (queue s') /\ (time, timer) ∈ queue s'.
Proof.
  intros Hs [= <-]. cbn. split; [|apply insert_elem; by left]. apply insert_sorted.
  assert (forall l l', l `sublist_of` l' -> StronglySorted by_time l' -> StronglySorted by_time l) as Hsub.
  { induction 1 as [|x l l' Hl IH|x l l' Hl IH]; intros Ho; [done| |by apply IH; inversion Ho].
    inversion Ho as [|? ? Ho' Hall]; subst. constructor; [by apply IH|].
    rewrite Forall_forall in Hall |- *. intros y Hy. apply Hall. by eapply sublist_subseteq. }
  eapply Hsub; [apply remove_sublist|done].
Qed.

Variable expire : K -> Eff (t K) unit.
Hypothesis expire_quiet : forall k s, exists s', expire k s = Ok tt s' /\ queue s' = queue s /\ expired s' = expired s.

Lemma first_time_run s :
  first_time s = match queue s with x :: _ => Ok (fst x) s | [] => Err (NullPointer "timerMultiMapPtr->begin()") end.
Proof. unfold first_time, bind, gets. by destruct (queue s) as [|[? ?] ?]. Qed.

Lemma check_loop_run rounds now due later s :
  queue s = due ++ later -> Forall (fun x => fst x <= now) due -> Forall (fun x => now < fst x) later ->
  (length due < rounds)%nat ->
  match later with
  | [] => exists e, check_loop rounds expire now s = Err e
  | _ => exists s', check_loop rounds expire now s = Ok tt s' /\ queue s' = later /\ expired s' = expired s ++ due
  end.
Proof.
  revert due s. induction rounds as [|rounds IH]; intros due s Hq Hdue Hlater Hr; [lia|]. cbn [check_loop].
  pose proof (first_time_run s) as Hfirst. rewrite Hq in Hfirst. destruct due as [|[at_ k] due]; cbn [app] in Hfirst.
  - destruct later as [|[at_ k] later]; [eexists; by apply bind_err|]. apply Forall_cons in Hlater as [Hl _]. cbn in Hl.
    rewrite (bind_ok _ _ _ _ _ Hfirst). cbn [fst]. destruct (Z.leb_spec at_ now); [lia|].
    exists s. split_and!; [done|done|by rewrite app_nil_r].
  - apply Forall_cons in Hdue as [Hd Hdue]. cbn in Hd, Hr. rewrite (bind_ok _ _ _ _ _ Hfirst). cbn [fst].
    destruct (Z.leb_spec at_ now); [|lia]. rewrite (bind_ok (gets queue) _ s (queue s) s eq_refl), Hq. cbn [app].
    set (s1 := s <| queue := due ++ later |> <| expired := expired s ++ [(at_, k)] |>).
    erewrite (bind_ok (modify _) _ s tt s1) by reflexivity.
    destruct (expire_quiet k s1) as (s2 & Hexp & Hq2 & He2). rewrite (bind_ok _ _ _ _ _ Hexp).
    specialize (IH due s2 Hq2 Hdue Hlater ltac:(lia)). destruct later as [|x later]; [done|].
    destruct IH as (s' & Hrun & Hq' & He'). exists s'. split_and!; [done|done|]. rewrite He', He2. cbn. by rewrite <- app_assoc.
Qed.
End Timers.

(** Due timers fire in the order of their times, once each, and the others stay; but
    when all timers of the protocol are due and none is started again, the loop
    reads the first element of the empty queue, which is not defined. *)
Theorem manet_timers_fire {K} `{EqDecision K} (expire : K -> Eff (t K) unit) rounds now due later (s : t K) :
  (forall k s, exists s', expire k s = Ok tt s' /\ queue s' = queue s /\ expired s' = expired s) ->
  queue s = due ++ later -> Forall (fun x => fst x <= now) due -> Forall (fun x => now < fst x) later ->
  (length due < rounds)%nat ->
  match later with
  | [] => exists e, checkTimer rounds expire now s = Err e
  | _ => exists s', checkTimer rounds expire now s = Ok tt s' /\ queue s' = later /\ expired s' = expired s ++ due
  end.
Proof.
  intros Hexp Hq Hdue Hlater Hr.
  pose proof (check_loop_run expire Hexp rounds now due later (mk (queue s) None (expired s)) Hq Hdue Hlater Hr) as Hrun.
  assert (checkTimer rounds expire now s = check_loop rounds expire now (mk (queue s) None (expired s))) as -> by reflexivity.
  destruct later; exact Hrun.
Qed.

Lemma manet_timers_fire_witness :
  (exists s', checkTimer 5 (fun _ => ret tt) 7 (mk [(3, 1%nat); (7, 2%nat); (9, 3%nat)] None []) = Ok tt s' /\
     expired s' = [(3, 1%nat); (7, 2%nat)]) /\
  (exists e, checkTimer 5 (fun _ => ret tt) 7 (mk [(3, 1%nat)] None []) = Err e).
Proof.
  assert (forall (k : nat) (s : t nat), exists s', (fun _ => ret tt) k s = Ok tt s' /\ queue s' = queue s /\ expired s' = expired s) as Hq.
  { intros k s. exists s. split; [reflexivity|]. split; reflexivity. }
  split.
  - destruct (manet_timers_fire (fun _ => ret tt) 5 7 [(3, 1%nat); (7, 2%nat)] [(9, 3%nat)] (mk [(3, 1%nat); (7, 2%nat); (9, 3%nat)] None []))
      as (s' & Hrun & _ & He).
    + exact Hq.
    + reflexivity.
    + repeat constructor; discriminate.
    + repeat constructor.
    + cbn. lia.
    + exists s'. split; [exact Hrun|exact He].
  - apply (manet_timers_fire (fun _ => ret tt) 5 7 [(3, 1%nat)] [] (mk [(3, 1%nat)] None [])).
    + exact Hq.
    + reflexivity.
    + repeat constructor; discriminate.
    + constructor.
    + cbn. lia.
Defined.
