(* ===== verification/Dymo.v ===== *)
(** * DYMO

    The DYMO routing protocol of [networklayer/manetrouting/dymo_fau]: address
    blocks and messages, timers, the token bucket, the queue of data packets that
    wait for a route, the outstanding route requests, the DYMO routing table and
    the handlers of [DYMO.cc].  Routing entries and outstanding requests are objects
    that are held by one vector only; a pointer to one is its position.  Times and
    the timeouts read from the parameters are in ticks; [SIMTIME_DBL] is the time in
    seconds. *)
From Stdlib Require Import String SpecFloat.
From S2P Require Import Prelude MachineFloat IPAddress InterfaceTable IPDatagram RoutingTable Manet.

Definition u8 (z : Z) : Z := z mod 256.
Definition u16 (z : Z) : Z := z mod 65536.

(** ** [DYMO_AddressBlock] *)
Module AddressBlock.
Record t : Type := mk {
  address : option Z;
  seqNum : option Z;
  prefix : option Z;
  dist : option Z
}.
#[global] Instance eta : Eta t := fun b =>
  {| address := address b; seqNum := seqNum b; prefix := prefix b; dist := dist b |}.
#[global] Instance eq_dec : EqDecision t.
Proof. solve_decision. Defined.

Definition new : t := {| address := None; seqNum := None; prefix := None; dist := None |}.

Definition has {A} (x : option A) : bool := match x with Some _ => true | None => false end.
Definition read {S} (what : string) (x : option Z) : Eff S Z :=
  match x with
  | Some v => ret v
  | None => fail (RuntimeError ("Tried to read " ++ what ++ " from AddressBlock, but found none"))
  end.

Definition getAddress {S} (b : t) : Eff S Z := read "Address" (address b).
Definition getSeqNum {S} (b : t) : Eff S Z := read "SeqNum" (seqNum b).
Definition getPrefix {S} (b : t) : Eff S Z := read "Prefix" (prefix b).
Definition getDist {S} (b : t) : Eff S Z := read "Dist" (dist b).

Definition setAddress (a : Z) (b : t) : t := b <| address := Some (u32 a) |>.
Definition setSeqNum (n : Z) (b : t) : t := b <| seqNum := Some (u16 n) |>.
Definition setPrefix (n : Z) (b : t) : t := b <| prefix := Some (u8 n) |>.
Definition setDist (n : Z) (b : t) : t := b <| dist := Some (u8 n) |>.

Definition incrementDistIfAvailable {S} (b : t) : Eff S t :=
  match dist b with
  | None => ret b
  | Some d =>
      if d =? 0xFF then fail (RuntimeError "Tried to increment Dist from AddressBlock, but uint8_t would overflow")
      else ret (setDist (d + 1) b)
  end.
End AddressBlock.

(** ** Messages *)
Inductive RMKind : Type := RREQ | RREP.
#[export] Instance RMKind_eq_dec : EqDecision RMKind.
Proof. solve_decision. Defined.

Record DYMO_RM : Type := mkRM {
  rm_kind : RMKind;
  rm_hopLimit : Z;
  targetNode : AddressBlock.t;
  origNode : AddressBlock.t;
  additionalNodes : list AddressBlock.t
}.
#[export] Instance eta_RM : Eta DYMO_RM := fun m =>
  {| rm_kind := rm_kind m; rm_hopLimit := rm_hopLimit m; targetNode := targetNode m;
     origNode := origNode m; additionalNodes := additionalNodes m |}.

Record DYMO_RERR : Type := mkRERR { rerr_hopLimit : Z; unreachableNodes : list AddressBlock.t }.

Inductive PacketBB : Type :=
| PRM (m : DYMO_RM)
| PRERR (m : DYMO_RERR)
| PUERR.

(** The control info of a packet that comes from IP. *)
Record Received : Type := mkReceived { rcv_srcAddr : IPAddress.t; rcv_interfaceId : Z }.

(** ** [DYMO_Timer] *)
Module Timer.
Record t : Type := mk { interval : Z; expiresAt : Z; active : bool }.
#[global] Instance eta : Eta t := fun x =>
  {| interval := interval x; expiresAt := expiresAt x; active := active x |}.

Definition new : t := {| interval := 0; expiresAt := 0; active := false |}.

Definition isRunning (now : Z) (x : t) : bool := active x && (now <? expiresAt x).

(** Whether the timer is expired; an expired timer is stopped. *)
Definition isExpired (now : Z) (x : t) : bool * t :=
  if active x && (expiresAt x <=? now) then (true, x <| active := false |>) else (false, x).

Definition start {S} (now ival : Z) (x : t) : Eff S t :=
  let x := if negb (ival =? 0) then x <| interval := ival |> else x in
  if interval x =? 0 then fail (RuntimeError "Tried starting DYMO_Timer without or with zero-length interval")
  else if now + interval x <? now then fail (RuntimeError "scheduleAt(): time is in the past")
  else ret (x <| expiresAt := now + interval x |> <| active := true |>).

Definition cancel (x : t) : t := x <| active := false |>.
Definition getInterval (x : t) : Z := interval x.
End Timer.

(** ** [DYMO_TokenBucket] *)
Module TokenBucket.
Record t : Type := mk {
  tokensPerTick : spec_float;
  maxTokens : spec_float;
  availableTokens : spec_float;
  lastUpdate : Z
}.
#[global] Instance eta : Eta t := fun b =>
  {| tokensPerTick := tokensPerTick b; maxTokens := maxTokens b;
     availableTokens := availableTokens b; lastUpdate := lastUpdate b |}.

Definition new (rate max : spec_float) (now : Z) : t :=
  {| tokensPerTick := rate; maxTokens := max; availableTokens := max; lastUpdate := now |}.

(** [std::min(a, b)] *)
Definition dmin (a b : spec_float) : spec_float := if SFltb b a then b else a.

Definition consumeTokens (SIMTIME_DBL : Z -> spec_float) (tokens : spec_float) (now : Z) (b : t) : bool * t :=
  let ticksPassed := SIMTIME_DBL (now - lastUpdate b) in
  let b := b <| lastUpdate := now |> in
  let b := b <| availableTokens := dmin (maxTokens b)
                  (SFadd 53 1024 (availableTokens b) (SFmul 53 1024 ticksPassed (tokensPerTick b))) |> in
  if SFltb (availableTokens b) tokens then (false, b)
  else (true, b <| availableTokens := SFsub 53 1024 (availableTokens b) tokens |>).
End TokenBucket.

(** ** [DYMO_DataQueue] *)
Module DataQueue.
Record t : Type := mk {
  dataQueue : list IPDatagram;
  dataQueueByteSize : Z;
  BUFFER_SIZE_PACKETS : Z;
  BUFFER_SIZE_BYTES : Z;
  reinjected : list IPDatagram
}.
#[global] Instance eta : Eta t := fun q =>
  {| dataQueue := dataQueue q; dataQueueByteSize := dataQueueByteSize q;
     BUFFER_SIZE_PACKETS := BUFFER_SIZE_PACKETS q; BUFFER_SIZE_BYTES := BUFFER_SIZE_BYTES q;
     reinjected := reinjected q |}.

Definition new (packets bytes : Z) : t :=
  {| dataQueue := []; dataQueueByteSize := 0; BUFFER_SIZE_PACKETS := packets; BUFFER_SIZE_BYTES := bytes;
     reinjected := [] |}.

Definition over_limit (q : t) : bool :=
  (negb (BUFFER_SIZE_PACKETS q =? -1) && (BUFFER_SIZE_PACKETS q <? Z.of_nat (length (dataQueue q)))) ||
  (negb (BUFFER_SIZE_BYTES q =? -1) && (BUFFER_SIZE_BYTES q <? dataQueueByteSize q)).

(** The loop that drops the oldest packets; [rounds] is more than there are. *)
Fixpoint drop_loop (rounds : nat) (q : t) : Outcome t unit :=
  if over_limit q then
    match rounds, dataQueue q with
    | O, _ => Err OutOfFuel
    | _, [] => Err (NullPointer "dataQueue.front()")
    | S rounds, qd :: rest =>
        drop_loop rounds (q <| dataQueue := rest |> <| dataQueueByteSize := dataQueueByteSize q - byteLength qd |>)
    end
  else Ok tt q.

Definition queuePacket (d : IPDatagram) : Eff t unit := fun q =>
  let q := q <| dataQueue := dataQueue q ++ [d] |>
             <| dataQueueByteSize := dataQueueByteSize q + byteLength d |> in
  drop_loop (S (length (dataQueue q))) q.

(** The first queued packet to an address of the network, and the others. *)
Fixpoint take_match (destAddr : IPAddress.t) (prefix : Z) (l : list IPDatagram) : option (IPDatagram * list IPDatagram) :=
  match l with
  | [] => None
  | d :: rest =>
      if IPAddress.prefixMatches (destAddress d) destAddr prefix then Some (d, rest)
      else match take_match destAddr prefix rest with
           | Some (x, rest') => Some (x, d :: rest')
           | None => None
           end
  end.

Fixpoint reinject_loop (rounds : nat) (destAddr : IPAddress.t) (prefix : Z) (accept : bool) : Eff t unit := fun q =>
  match rounds with
  | O => Err OutOfFuel
  | S rounds =>
      match take_match destAddr prefix (dataQueue q) with
      | Some (d, rest) =>
          reinject_loop rounds destAddr prefix accept
            (q <| dataQueue := rest |> <| dataQueueByteSize := dataQueueByteSize q - byteLength d |>
               <| reinjected := if accept then reinjected q ++ [d] else reinjected q |>)
      | None => Ok tt q
      end
  end.

Definition reinjectDatagramsTo (destAddr : IPAddress.t) (prefix : Z) (accept : bool) : Eff t unit := fun q =>
  reinject_loop (S (length (dataQueue q))) destAddr prefix accept q.
Definition dequeuePacketsTo (destAddr : IPAddress.t) (prefix : Z) : Eff t unit :=
  reinjectDatagramsTo destAddr prefix true.
Definition dropPacketsTo (destAddr : IPAddress.t) (prefix : Z) : Eff t unit :=
  reinjectDatagramsTo destAddr prefix false.
End DataQueue.

(** ** [DYMO_OutstandingRREQList] *)
Module OutstandingRREQ.
Record t : Type := mk { tries : Z; wait_time : Timer.t; destAddr : Z; creationTime : Z }.
#[global] Instance eta : Eta t := fun o =>
  {| tries := tries o; wait_time := wait_time o; destAddr := destAddr o; creationTime := creationTime o |}.

(** The position of the request. *)
Fixpoint getByDestAddr (dest prefix : Z) (l : list t) : option nat :=
  match l with
  | [] => None
  | o :: rest => if IPAddress.prefixMatches dest (destAddr o) prefix then Some O else S <$> getByDestAddr dest prefix rest
  end.

(** The first request whose time is over, which stops its timer. *)
Fixpoint getExpired (now : Z) (l : list t) : option nat * list t :=
  match l with
  | [] => (None, [])
  | o :: rest =>
      let '(b, w) := Timer.isExpired now (wait_time o) in
      if b then (Some O, o <| wait_time := w |> :: rest)
      else let '(r, rest') := getExpired now rest in (S <$> r, o :: rest')
  end.

Definition add (o : t) (l : list t) : list t := l ++ [o].
Definition del (i : nat) (l : list t) : list t := delete i l.
End OutstandingRREQ.

(** ** [DYMO_RoutingEntry] and [DYMO_RoutingTable] *)
Record RoutingEntry : Type := mkEntry {
  routeAddress : Z;
  routeSeqNum : Z;
  routeNextHopAddress : Z;
  routeNextHopInterface : Z;
  routeBroken : bool;
  routeDist : Z;
  routePrefix : Z;
  routeAgeMin : Timer.t;
  routeAgeMax : Timer.t;
  routeNew : Timer.t;
  routeUsed : Timer.t;
  routeDelete : Timer.t
}.
#[export] Instance eta_RoutingEntry : Eta RoutingEntry := fun e =>
  {| routeAddress := routeAddress e; routeSeqNum := routeSeqNum e; routeNextHopAddress := routeNextHopAddress e;
     routeNextHopInterface := routeNextHopInterface e; routeBroken := routeBroken e; routeDist := routeDist e;
     routePrefix := routePrefix e; routeAgeMin := routeAgeMin e; routeAgeMax := routeAgeMax e;
     routeNew := routeNew e; routeUsed := routeUsed e; routeDelete := routeDelete e |}.

Module RoutingTable_.
Definition getByAddress (addr : IPAddress.t) (l : list RoutingEntry) : option nat :=
  fst <$> list_find (fun e => (routeAddress e =? addr) = true) l.

(** The loop of [getForAddress]: position [i], the longest prefix so far and its
    entry. *)
Fixpoint prefix_loop (addr : IPAddress.t) (i : nat) (longestPrefix : Z) (best : option nat) (l : list RoutingEntry)
    : option nat :=
  match l with
  | [] => best
  | e :: rest =>
      if negb (longestPrefix <? routePrefix e) then prefix_loop addr (S i) longestPrefix best rest
      else if negb (IPAddress.prefixMatches addr (routeAddress e) (routePrefix e))
      then prefix_loop addr (S i) longestPrefix best rest
      else prefix_loop addr (S i) (routePrefix e) (Some i) rest
  end.
Definition getForAddress (addr : IPAddress.t) (l : list RoutingEntry) : option nat := prefix_loop addr 0 0 None l.
End RoutingTable_.

(** ** The module *)
Record Config : Type := mkConfig {
  RESPONSIBLE_ADDRESSES_PREFIX : Z;
  ROUTE_AGE_MIN_TIMEOUT : Z;
  ROUTE_AGE_MAX_TIMEOUT : Z;
  ROUTE_NEW_TIMEOUT : Z;
  ROUTE_USED_TIMEOUT : Z;
  ROUTE_DELETE_TIMEOUT : Z;
  MIN_HOPLIMIT : Z;
  MAX_HOPLIMIT : Z;
  RREQ_RATE_LIMIT : spec_float;
  RREQ_BURST_LIMIT : Z;
  RREQ_WAIT_TIME : Z;
  RREQ_TRIES : Z;
  CFG_BUFFER_SIZE_PACKETS : Z;
  CFG_BUFFER_SIZE_BYTES : Z
}.

Record Stats : Type := mkStats {
  totalPacketsSent : Z;
  totalBytesSent : Z;
  statsRREQSent : Z;
  statsRREPSent : Z;
  statsRERRSent : Z;
  statsRREQRcvd : Z;
  statsRREPRcvd : Z;
  statsRERRRcvd : Z;
  statsRREQFwd : Z;
  statsRREPFwd : Z;
  statsRERRFwd : Z;
  statsDYMORcvd : Z
}.
#[export] Instance eta_Stats : Eta Stats := fun s =>
  {| totalPacketsSent := totalPacketsSent s; totalBytesSent := totalBytesSent s; statsRREQSent := statsRREQSent s;
     statsRREPSent := statsRREPSent s; statsRERRSent := statsRERRSent s; statsRREQRcvd := statsRREQRcvd s;
     statsRREPRcvd := statsRREPRcvd s; statsRERRRcvd := statsRERRRcvd s; statsRREQFwd := statsRREQFwd s;
     statsRREPFwd := statsRREPFwd s; statsRERRFwd := statsRERRFwd s; statsDYMORcvd := statsDYMORcvd s |}.
Definition Stats_new : Stats := mkStats 0 0 0 0 0 0 0 0 0 0 0 0.

Module DYMO.
Definition DYMO_PORT : Z := 653.
Definition DYMO_RM_HEADER_LENGTH : Z := 13.
Definition DYMO_RBLOCK_LENGTH : Z := 10.
Definition DYMO_RERR_HEADER_LENGTH : Z := 4.
Definition DYMO_UBLOCK_LENGTH : Z := 8.
Definition LL_MANET_ROUTERS : IPAddress.t := IPAddress.set4 224 0 0 90.

Record t : Type := mk {
  cfg : Config;
  clock : Z;
  base : ManetRoutingBase.t PacketBB;
  myAddr : Z;
  ownSeqNum : Z;
  ownSeqNumLossTimeout : Timer.t;
  ownSeqNumLossTimeoutMax : Timer.t;
  routeVector : list RoutingEntry;
  outstandingRREQList : list OutstandingRREQ.t;
  queuedDataPackets : DataQueue.t;
  rateLimiterRREQ : TokenBucket.t;
  stats : Stats
}.
#[global] Instance eta : Eta t := fun s =>
  {| cfg := cfg s; clock := clock s; base := base s; myAddr := myAddr s; ownSeqNum := ownSeqNum s;
     ownSeqNumLossTimeout := ownSeqNumLossTimeout s; ownSeqNumLossTimeoutMax := ownSeqNumLossTimeoutMax s;
     routeVector := routeVector s; outstandingRREQList := outstandingRREQList s;
     queuedDataPackets := queuedDataPackets s; rateLimiterRREQ := rateLimiterRREQ s; stats := stats s |}.

Definition on_base {A} (m : Eff (ManetRoutingBase.t PacketBB) A) : Eff t A := fun s =>
  match m (base s) with Ok a b => Ok a (s <| base := b |>) | Err e => Err e end.
Definition on_queue {A} (m : Eff DataQueue.t A) : Eff t A := fun s =>
  match m (queuedDataPackets s) with Ok a q => Ok a (s <| queuedDataPackets := q |>) | Err e => Err e end.
Definition count (f : Stats -> Stats) : Eff t unit := modify (fun s => s <| stats := f (stats s) |>).
Definition set_entry (i : nat) (f : RoutingEntry -> RoutingEntry) : Eff t unit :=
  modify (fun s => s <| routeVector := alter f i (routeVector s) |>).
Definition simTime : Eff t Z := gets clock.

(** [routeVector[i]] *)
Definition entry_at (i : nat) : Eff t RoutingEntry :=
  let! l := gets routeVector in
  match l !! i with Some e => ret e | None => fail (NullPointer "routing entry") end.
Definition lookup_entry (i : option nat) : Eff t (option RoutingEntry) :=
  match i with None => ret None | Some i => let! e := entry_at i in ret (Some e) end.
Definition getForAddress (addr : IPAddress.t) : Eff t (option nat) :=
  gets (fun s => RoutingTable_.getForAddress addr (routeVector s)).

(** *** The routing table of the node *)
Definition maintainAssociatedRoutingEntryFor (e : RoutingEntry) : Eff t unit :=
  if negb (routeBroken e)
  then on_base (ManetRoutingBase.setIpEntry (routeAddress e) (routeNextHopAddress e) IPAddress.ALLONES_ADDRESS (routeDist e))
  else on_base (ManetRoutingBase.deleteIpEntry (routeAddress e)).

Definition maintainAssociatedRoutingTable : Eff t unit :=
  let! l := gets routeVector in
  let! _ := mapE maintainAssociatedRoutingEntryFor l in ret tt.

Definition deleteRoute (i : nat) : Eff t unit :=
  let! e := entry_at i in
  modify (fun s => s <| routeVector := delete i (routeVector s) |>) ;;;
  on_base (ManetRoutingBase.deleteIpEntry (routeAddress e)).

(** *** Sequence numbers *)
Definition incSeqNum : Eff t unit :=
  modify (fun s => s <| ownSeqNum := if ownSeqNum s =? 0xffff then 0x0100 else u32 (ownSeqNum s + 1) |>).

(** The operands are promoted to [int] before the subtraction. *)
Definition seqNumIsFresher (seqNumInQuestion referenceSeqNum : Z) : bool :=
  i16 referenceSeqNum - i16 seqNumInQuestion <? 0.

Definition computeBackoff (backoff_var : Z) : Z := backoff_var * 2.

(** *** Sending *)
Definition byte_length (p : PacketBB) : option Z :=
  match p with
  | PRM m => Some (DYMO_RM_HEADER_LENGTH + (1 + Z.of_nat (length (additionalNodes m))) * DYMO_RBLOCK_LENGTH)
  | PRERR m => Some (DYMO_RERR_HEADER_LENGTH + Z.of_nat (length (unreachableNodes m)) * DYMO_UBLOCK_LENGTH)
  | PUERR => None
  end.

Definition sendDown (p : PacketBB) (destAddr : IPAddress.t) : Eff t unit :=
  match byte_length p with
  | None => fail (RuntimeError "tried to send unsupported message type")
  | Some n =>
      count (fun x => x <| totalPacketsSent := totalPacketsSent x + 1 |> <| totalBytesSent := totalBytesSent x + n |>) ;;;
      if LL_MANET_ROUTERS =? destAddr
      then on_base (ManetRoutingBase.sendToIp p DYMO_PORT IPAddress.ALLONES_ADDRESS DYMO_PORT 1 true 0)
      else on_base (ManetRoutingBase.sendToIp p DYMO_PORT destAddr DYMO_PORT 1 false 0)
  end.

(** Sets the prefix the node is responsible for, if it is for more than itself. *)
Definition setOwnPrefix (b : AddressBlock.t) : Eff t AddressBlock.t :=
  let! p := gets (fun s => RESPONSIBLE_ADDRESSES_PREFIX (cfg s)) in
  ret (if negb (p =? -1) then AddressBlock.setPrefix p b else b).

(** The block of the node itself, with its current sequence number. *)
Definition ownBlock : Eff t AddressBlock.t :=
  let! me := gets myAddr in
  let! b := setOwnPrefix (AddressBlock.setAddress me (AddressBlock.setDist 0 AddressBlock.new)) in
  let! n := gets ownSeqNum in
  ret (AddressBlock.setSeqNum n b).

(** [if (x != 0) block.setX(x)] *)
Definition set_unless_zero (f : Z -> AddressBlock.t -> AddressBlock.t) (x : Z) (b : AddressBlock.t) : AddressBlock.t :=
  if negb (x =? 0) then f x b else b.

Definition lost_seqnum : Eff t bool := gets (fun s => Timer.isRunning (clock s) (ownSeqNumLossTimeout s)).

Section Clock.
Variable SIMTIME_DBL : Z -> spec_float.

Definition consumeToken : Eff t bool := fun s =>
  let '(ok, b) := TokenBucket.consumeTokens SIMTIME_DBL (double_of_int 1) (clock s) (rateLimiterRREQ s) in
  Ok ok (s <| rateLimiterRREQ := b |>).

Definition sendRREQ (destAddr msgHdrHopLimit targetSeqNum targetDist : Z) : Eff t unit :=
  let target := set_unless_zero AddressBlock.setDist targetDist
                  (set_unless_zero AddressBlock.setSeqNum targetSeqNum
                    (AddressBlock.setAddress destAddr AddressBlock.new)) in
  incSeqNum ;;;
  let! orig := ownBlock in
  let! lost := lost_seqnum in
  if lost then ret tt else
  let! ok := consumeToken in
  if negb ok then ret tt else
  sendDown (PRM (mkRM RREQ msgHdrHopLimit target orig [])) LL_MANET_ROUTERS ;;;
  count (fun x => x <| statsRREQSent := statsRREQSent x + 1 |>).

Definition sendReply (destAddr tSeqNum : Z) : Eff t unit :=
  let! i := getForAddress destAddr in
  match i with
  | None => fail (RuntimeError "Tried sending RREP via a route that just vanished")
  | Some i =>
      let! entry := entry_at i in
      let target := AddressBlock.setDist (routeDist entry) (AddressBlock.setSeqNum (routeSeqNum entry)
                      (AddressBlock.setAddress destAddr AddressBlock.new)) in
      let! own := gets ownSeqNum in
      when ((tSeqNum =? 0) || seqNumIsFresher own tSeqNum) incSeqNum ;;;
      let! orig := ownBlock in
      let! limit := gets (fun s => MAX_HOPLIMIT (cfg s)) in
      let! lost := lost_seqnum in
      if lost then ret tt else
      sendDown (PRM (mkRM RREP limit target orig [])) (routeNextHopAddress entry) ;;;
      count (fun x => x <| statsRREPSent := statsRREPSent x + 1 |>)
  end.

Definition sendReplyAsIntermediateRouter (orig target : AddressBlock.t) (routeToTargetNode : RoutingEntry) : Eff t unit :=
  let! origAddr := AddressBlock.getAddress orig in
  let! i := getForAddress origAddr in
  match i with
  | None => fail (RuntimeError "no route to OrigNode found")
  | Some i =>
      let! routeToOrigNode := entry_at i in
      incSeqNum ;;;
      let! limit := gets (fun s => MAX_HOPLIMIT (cfg s)) in
      let! origSeq := AddressBlock.getSeqNum orig in
      let origDist := match AddressBlock.dist orig with
                      | Some d => AddressBlock.setDist (d + 1) | None => fun b => b end in
      let aboutOrig := origDist (AddressBlock.setSeqNum origSeq (AddressBlock.setAddress origAddr AddressBlock.new)) in
      let! me := ownBlock in
      let additionalNode := set_unless_zero AddressBlock.setDist (routeDist routeToTargetNode)
                              (set_unless_zero AddressBlock.setSeqNum (routeSeqNum routeToTargetNode)
                                (AddressBlock.setAddress (routeAddress routeToTargetNode) AddressBlock.new)) in
      let rrepToOrigNode := mkRM RREP limit aboutOrig me [additionalNode] in
      let! targetAddr := AddressBlock.getAddress target in
      let aboutTarget := AddressBlock.setAddress targetAddr AddressBlock.new in
      let aboutTarget := match AddressBlock.seqNum target with
                         | Some n => AddressBlock.setSeqNum n aboutTarget | None => aboutTarget end in
      let aboutTarget := match AddressBlock.dist target with
                         | Some d => AddressBlock.setDist d aboutTarget | None => aboutTarget end in
      let rrepToTargetNode := mkRM RREP limit aboutTarget me [aboutOrig] in
      let! lost := lost_seqnum in
      if lost then ret tt else
      sendDown (PRM rrepToOrigNode) (routeNextHopAddress routeToOrigNode) ;;;
      sendDown (PRM rrepToTargetNode) (routeNextHopAddress routeToTargetNode) ;;;
      count (fun x => x <| statsRREPSent := statsRREPSent x + 1 |>)
  end.

Definition unreachable (addr seq : Z) : AddressBlock.t :=
  set_unless_zero AddressBlock.setSeqNum seq (AddressBlock.setAddress addr AddressBlock.new).

Definition sendRERR (targetAddr targetSeqNum : Z) : Eff t unit :=
  let! limit := gets (fun s => MAX_HOPLIMIT (cfg s)) in
  let! i := getForAddress targetAddr in
  let! brokenEntry := lookup_entry i in
  let! others :=
    match brokenEntry with
    | None => ret []
    | Some brokenEntry =>
        if negb (routeBroken brokenEntry)
        then fail (RuntimeError "sendRERR called for targetAddr that has a perfectly fine routing table entry")
        else
          let! l := gets routeVector in
          ret ((fun e => unreachable (routeAddress e) (routeSeqNum e)) <$>
               filter (fun e => routeNextHopAddress e = routeNextHopAddress brokenEntry /\
                                routeNextHopInterface e = routeNextHopInterface brokenEntry) l)
    end in
  sendDown (PRERR (mkRERR limit (unreachable targetAddr targetSeqNum :: others))) LL_MANET_ROUTERS ;;;
  count (fun x => x <| statsRERRSent := statsRERRSent x + 1 |>).

(** *** Queued packets and lifetimes *)
Definition checkAndSendQueuedPkts (destinationAddress prefix : Z) : Eff t unit :=
  maintainAssociatedRoutingTable ;;;
  on_queue (DataQueue.dequeuePacketsTo destinationAddress prefix) ;;;
  modify (fun s =>
    match OutstandingRREQ.getByDestAddr destinationAddress prefix (outstandingRREQList s) with
    | Some i => s <| outstandingRREQList := OutstandingRREQ.del i (outstandingRREQList s) |>
    | None => s
    end).

Definition updateRouteLifetimes (targetAddr : Z) : Eff t unit :=
  let! i := getForAddress targetAddr in
  match i with
  | None => ret tt
  | Some i =>
      let! entry := entry_at i in
      if routeBroken entry then ret tt else
      let! now := simTime in
      let! timeout := gets (fun s => ROUTE_USED_TIMEOUT (cfg s)) in
      let! used := Timer.start now timeout (routeUsed entry) in
      set_entry i (fun e => e <| routeUsed := used |> <| routeDelete := Timer.cancel (routeDelete e) |>) ;;;
      maintainAssociatedRoutingTable ;;;
      checkAndSendQueuedPkts (routeAddress entry) (routePrefix entry)
  end.

(** *** Learning routes *)
Definition isRBlockBetter (entry : RoutingEntry) (ab : AddressBlock.t) (isRREQ : bool) : Eff t bool :=
  let! n := AddressBlock.getSeqNum ab in
  if seqNumIsFresher (routeSeqNum entry) n then ret false else
  if n =? i32 (routeSeqNum entry) then
    let nodeDist := match AddressBlock.dist ab with Some d => d + 1 | None => 0 end in
    let routeDist := i32 (routeDist entry) in
    if nodeDist =? 0 then ret false else
    if routeDist =? 0 then ret false else
    if routeDist + 1 <? nodeDist then ret false else
    if routeDist <? nodeDist then ret false else
    if (nodeDist =? routeDist) && negb (routeBroken entry) && isRREQ then ret false else
    ret true
  else ret true.

(** An entry as [new] leaves it; the fields without a constructor are written
    before they are read. *)
Definition entry_new : RoutingEntry :=
  mkEntry 0 0 0 0 false 0 0 Timer.new Timer.new Timer.new Timer.new Timer.new.

(** The assignments to the entry. *)
Definition write_entry (ab : AddressBlock.t) (nextHopAddress nextHopInterface : Z) (e : RoutingEntry) : Eff t RoutingEntry :=
  let! a := AddressBlock.getAddress ab in
  let! n := AddressBlock.getSeqNum ab in
  let! now := simTime in
  let! c := gets cfg in
  let! ageMin := Timer.start now (ROUTE_AGE_MIN_TIMEOUT c) (routeAgeMin e) in
  let! ageMax := Timer.start now (ROUTE_AGE_MAX_TIMEOUT c) (routeAgeMax e) in
  let! new_ := Timer.start now (ROUTE_NEW_TIMEOUT c) (routeNew e) in
  ret (mkEntry a n nextHopAddress nextHopInterface false
         (match AddressBlock.dist ab with Some d => d + 1 | None => 0 end)
         (match AddressBlock.prefix ab with Some x => x | None => 32 end)
         ageMin ageMax new_ (Timer.cancel (routeUsed e)) (Timer.cancel (routeDelete e))).

Definition updateRoutesFromAddressBlock (ab : AddressBlock.t) (isRREQ : bool) (nextHopAddress nextHopInterface : Z)
    : Eff t bool :=
  let! addr := AddressBlock.getAddress ab in
  let! found := getForAddress addr in
  let! entry := lookup_entry found in
  let! better := match entry with Some e => isRBlockBetter e ab isRREQ | None => ret true end in
  if negb better then ret false else
  (match found with
   | Some i =>
       let! e := entry_at i in
       let! e := write_entry ab nextHopAddress nextHopInterface e in
       set_entry i (fun _ => e)
   | None =>
       let! e := write_entry ab nextHopAddress nextHopInterface entry_new in
       modify (fun s => s <| routeVector := routeVector s ++ [e] |>)
   end) ;;;
  maintainAssociatedRoutingTable ;;;
  checkAndSendQueuedPkts addr (match AddressBlock.prefix ab with Some x => x | None => 32 end) ;;;
  ret true.

Definition getNextHopAddress (m : DYMO_RM) : Eff t Z :=
  match last (additionalNodes m) with
  | Some b => AddressBlock.getAddress b
  | None => AddressBlock.getAddress (origNode m)
  end.

Definition getNextHopInterface (c : Received) : Eff t Z :=
  if rcv_interfaceId c =? -1
  then fail (RuntimeError "received packet's UDPControlInfo did not have information on interfaceId")
  else
    let! v := gets (fun s => ManetRoutingBase.interfaceVector (base s)) in
    match list_find (fun x => ManetRoutingBase.interfacePtr x = rcv_interfaceId c) v with
    | Some (_, x) => ret (ManetRoutingBase.interfacePtr x)
    | None => fail (RuntimeError "parent module interface table did not contain interface on which packet arrived")
    end.

(** The loop over the additional nodes; [None] if one of them is this node. *)
Fixpoint update_loop (l : list AddressBlock.t) (isRREQ : bool) (hop ifId : Z) (kept : list AddressBlock.t)
    : Eff t (option (list AddressBlock.t)) :=
  match l with
  | [] => ret (Some kept)
  | b :: rest =>
      let! a := AddressBlock.getAddress b in
      let! me := gets myAddr in
      if a =? me then ret None else
      let! better := updateRoutesFromAddressBlock b isRREQ hop ifId in
      update_loop rest isRREQ hop ifId (if better then kept ++ [b] else kept)
  end.

Definition updateRoutes (m : DYMO_RM) (c : Received) : Eff t (option DYMO_RM) :=
  let isRREQ := bool_decide (rm_kind m = RREQ) in
  let! hop := getNextHopAddress m in
  let! ifId := getNextHopInterface c in
  let! a := AddressBlock.getAddress (origNode m) in
  let! me := gets myAddr in
  if a =? me then ret None else
  let! superior := updateRoutesFromAddressBlock (origNode m) isRREQ hop ifId in
  let! kept := update_loop (additionalNodes m) isRREQ hop ifId [] in
  match kept with
  | None => ret None
  | Some kept => if negb superior then ret None else ret (Some (m <| additionalNodes := kept |>))
  end.

(** *** Routing messages *)
Definition handleLowerRMForMe (m : DYMO_RM) : Eff t unit :=
  match rm_kind m with
  | RREQ =>
      let! a := AddressBlock.getAddress (origNode m) in
      sendReply a (match AddressBlock.seqNum (targetNode m) with Some n => n | None => 0 end) ;;;
      count (fun x => x <| statsRREQRcvd := statsRREQRcvd x + 1 |>)
  | RREP =>
      count (fun x => x <| statsRREPRcvd := statsRREPRcvd x + 1 |>) ;;;
      let! a := AddressBlock.getAddress (origNode m) in
      let! _ := getNextHopAddress m in
      checkAndSendQueuedPkts a (match AddressBlock.prefix (origNode m) with Some x => x | None => 32 end)
  end.

Definition dist_overflows (b : AddressBlock.t) : bool :=
  match AddressBlock.dist b with Some d => 0xFF - 1 <=? d | None => false end.

Fixpoint relay_blocks (l : list AddressBlock.t) : Eff t (list AddressBlock.t) :=
  match l with
  | [] => ret []
  | b :: rest =>
      if dist_overflows b then relay_blocks rest
      else
        let! b' := AddressBlock.incrementDistIfAvailable b in
        let! rest' := relay_blocks rest in
        ret (b' :: rest')
  end.

(** The second half of [handleLowerRMForRelay]: [entry] is the valid route to the
    target, if there is one. *)
Definition answerOrRelay (m : DYMO_RM) (entry : option RoutingEntry) : Eff t unit :=
  let answer := match rm_kind m, entry, AddressBlock.seqNum (targetNode m) with
                | RREQ, Some e, Some n => if negb (seqNumIsFresher n (routeSeqNum e)) then Some e else None
                | _, _, _ => None
                end in
  match answer with
  | Some e =>
      sendReplyAsIntermediateRouter (origNode m) (targetNode m) e ;;;
      count (fun x => x <| statsRREQRcvd := statsRREQRcvd x + 1 |>)
  | None =>
      if dist_overflows (origNode m) then ret tt else
      let! orig := AddressBlock.incrementDistIfAvailable (origNode m) in
      let! blocks := relay_blocks (additionalNodes m) in
      incSeqNum ;;;
      let! me := ownBlock in
      let m' := mkRM (rm_kind m) (rm_hopLimit m - 1) (targetNode m) orig (blocks ++ [me]) in
      if rm_hopLimit m' <? 1 then ret tt else
      let! lost := lost_seqnum in
      if lost then ret tt else
      let! limited := (if bool_decide (rm_kind m = RREQ) then let! ok := consumeToken in ret (negb ok) else ret false) in
      if limited then ret tt else
      match rm_kind m, entry with
      | RREP, None => fail (NullPointer "entry->routeNextHopAddress")
      | RREP, Some e =>
          sendDown (PRM m') (routeNextHopAddress e) ;;;
          count (fun x => x <| statsRREPFwd := statsRREPFwd x + 1 |>)
      | RREQ, _ =>
          sendDown (PRM m') LL_MANET_ROUTERS ;;;
          count (fun x => x <| statsRREQFwd := statsRREQFwd x + 1 |>)
      end
  end.

Definition handleLowerRMForRelay (m : DYMO_RM) : Eff t unit :=
  let! targetAddr := AddressBlock.getAddress (targetNode m) in
  let! i := getForAddress targetAddr in
  let! found := lookup_entry i in
  let targetSeqNum := match found with Some e => routeSeqNum e | None => 0 end in
  let entry := match found with Some e => if routeBroken e then None else Some e | None => None end in
  match rm_kind m, entry with
  | RREP, None => sendRERR targetAddr targetSeqNum
  | _, _ => answerOrRelay m entry
  end.

Definition handleLowerRM (m : DYMO_RM) (c : Received) : Eff t unit :=
  count (fun x => x <| statsDYMORcvd := statsDYMORcvd x + 1 |>) ;;;
  let! r := updateRoutes m c in
  match r with
  | None => ret tt
  | Some m =>
      let! targetAddr := AddressBlock.getAddress (targetNode m) in
      let! me := gets myAddr in
      if me =? targetAddr then handleLowerRMForMe m else handleLowerRMForRelay m
  end.

(** *** Route errors *)
(** Whether a RERR about [un] from the neighbour invalidates the entry. *)
Definition rerr_applies (un : AddressBlock.t) (addr sourceAddr sourceInterface : Z) (e : RoutingEntry) : bool :=
  negb (routeBroken e) && IPAddress.prefixMatches (routeAddress e) addr (routePrefix e) &&
  (routeNextHopAddress e =? sourceAddr) && (routeNextHopInterface e =? sourceInterface) &&
  ((routeSeqNum e =? 0) ||
   match AddressBlock.seqNum un with None => true | Some n => negb (seqNumIsFresher (routeSeqNum e) n) end).

(** The inner loop, from position [i] on for [n] entries. *)
Fixpoint rerr_entries (n i : nat) (un : AddressBlock.t) (addr sourceAddr sourceInterface : Z)
    : Eff t (list AddressBlock.t) :=
  match n with
  | O => ret []
  | S n =>
      let! e := entry_at i in
      if rerr_applies un addr sourceAddr sourceInterface e then
        set_entry i (fun e => e <| routeBroken := true |>) ;;;
        maintainAssociatedRoutingTable ;;;
        let! now := simTime in
        let! timeout := gets (fun s => ROUTE_DELETE_TIMEOUT (cfg s)) in
        let! del := Timer.start now timeout (routeDelete e) in
        set_entry i (fun e => e <| routeDelete := del |>) ;;;
        let fwd := AddressBlock.setAddress addr AddressBlock.new in
        let fwd := match AddressBlock.seqNum un with Some n => AddressBlock.setSeqNum n fwd | None => fwd end in
        let fwd := set_unless_zero AddressBlock.setSeqNum (routeSeqNum e) fwd in
        let! rest := rerr_entries n (S i) un addr sourceAddr sourceInterface in
        ret (fwd :: rest)
      else rerr_entries n (S i) un addr sourceAddr sourceInterface
  end.

Fixpoint rerr_nodes (l : list AddressBlock.t) (sourceAddr sourceInterface : Z) : Eff t (list AddressBlock.t) :=
  match l with
  | [] => ret []
  | un :: rest =>
      let! addr := AddressBlock.getAddress un in
      if IPAddress.isMulticast addr then rerr_nodes rest sourceAddr sourceInterface
      else
        let! n := gets (fun s => length (routeVector s)) in
        let! here := rerr_entries n 0 un addr sourceAddr sourceInterface in
        let! there := rerr_nodes rest sourceAddr sourceInterface in
        ret (here ++ there)
  end.

Definition handleLowerRERR (m : DYMO_RERR) (c : Received) : Eff t unit :=
  count (fun x => x <| statsDYMORcvd := statsDYMORcvd x + 1 |>) ;;;
  let! ifId := getNextHopInterface c in
  let! fwd := rerr_nodes (unreachableNodes m) (rcv_srcAddr c) ifId in
  let! lost := lost_seqnum in
  if (length fwd =? 0)%nat || lost || (rerr_hopLimit m <=? 1)
  then count (fun x => x <| statsRERRRcvd := statsRERRRcvd x + 1 |>)
  else
    sendDown (PRERR (mkRERR (rerr_hopLimit m - 1) fwd)) LL_MANET_ROUTERS ;;;
    count (fun x => x <| statsRERRFwd := statsRERRFwd x + 1 |>).

Definition handleLowerUERR : Eff t unit :=
  count (fun x => x <| statsDYMORcvd := statsDYMORcvd x + 1 |>).

Definition handleLowerMsg (p : PacketBB) (c : Received) : Eff t unit :=
  match p with
  | PRM m => handleLowerRM m c
  | PRERR m => handleLowerRERR m c
  | PUERR => handleLowerUERR
  end.

(** *** Route requests *)
Definition outstanding_at (i : nat) : Eff t OutstandingRREQ.t :=
  let! l := gets outstandingRREQList in
  match l !! i with Some o => ret o | None => fail (NullPointer "outstanding RREQ") end.
Definition set_outstanding (i : nat) (o : OutstandingRREQ.t) : Eff t unit :=
  modify (fun s => s <| outstandingRREQList := <[i := o]> (outstandingRREQList s) |>).

(** The hop limit of the expanding ring search, in unsigned arithmetic. *)
Definition ring_limit (c : Config) (tries : Z) : Z :=
  i32 (MIN_HOPLIMIT c + u32 (u32 (MAX_HOPLIMIT c - MIN_HOPLIMIT c) * u32 (tries - 1)) / u32 (RREQ_TRIES c - 1)).

Definition handleRREQTimeout (i : nat) : Eff t unit :=
  let! o := outstanding_at i in
  let! c := gets cfg in
  if OutstandingRREQ.tries o <? RREQ_TRIES c then
    let! k := getForAddress (OutstandingRREQ.destAddr o) in
    let! entry := lookup_entry k in
    match (match entry with Some e => if routeBroken e then None else Some e | None => None end) with
    | Some e => checkAndSendQueuedPkts (routeAddress e) (routePrefix e)
    | None =>
        let tries' := u32 (OutstandingRREQ.tries o + 1) in
        let! now := simTime in
        let! w := Timer.start now (computeBackoff (Timer.getInterval (OutstandingRREQ.wait_time o)))
                    (OutstandingRREQ.wait_time o) in
        set_outstanding i (o <| OutstandingRREQ.tries := tries' |> <| OutstandingRREQ.wait_time := w |>) ;;;
        incSeqNum ;;;
        let targetSeqNum := match entry with
                            | Some e => if tries' <? RREQ_TRIES c then routeSeqNum e else 0
                            | None => 0 end in
        sendRREQ (OutstandingRREQ.destAddr o) (ring_limit c tries') targetSeqNum
          (match entry with Some e => routeDist e | None => 0 end)
    end
  else
    maintainAssociatedRoutingTable ;;;
    on_queue (DataQueue.dropPacketsTo (OutstandingRREQ.destAddr o) 32) ;;;
    modify (fun s => s <| outstandingRREQList := OutstandingRREQ.del i (outstandingRREQList s) |>).

(** *** Timeouts *)
(** [field.isExpired()] of the entry at [i]. *)
Definition expired_at (i : nat) (get : RoutingEntry -> Timer.t) (set : Timer.t -> RoutingEntry -> RoutingEntry) : Eff t bool :=
  let! e := entry_at i in
  let! now := simTime in
  let '(b, w) := Timer.isExpired now (get e) in
  set_entry i (set w) ;;;
  ret b.

Definition start_delete (i : nat) : Eff t unit :=
  let! e := entry_at i in
  let! now := simTime in
  let! timeout := gets (fun s => ROUTE_DELETE_TIMEOUT (cfg s)) in
  let! del := Timer.start now timeout (routeDelete e) in
  set_entry i (fun e => e <| routeDelete := del |>).

(** The loop over the entries; it stops at the first one with an expired timer. *)
Fixpoint timeout_loop (n i : nat) : Eff t unit :=
  match n with
  | O => ret tt
  | S n =>
      let! now := simTime in
      let! b := expired_at i routeAgeMin (fun w e => e <| routeAgeMin := w |>) in
      if b then ret tt else
      let! b := expired_at i routeAgeMax (fun w e => e <| routeAgeMax := w |>) in
      if b then deleteRoute i else
      let! b := expired_at i routeNew (fun w e => e <| routeNew := w |>) in
      if b then
        let! e := entry_at i in
        when (negb (Timer.isRunning now (routeUsed e))) (start_delete i)
      else
      let! b := expired_at i routeUsed (fun w e => e <| routeUsed := w |>) in
      if b then
        let! e := entry_at i in
        when (negb (Timer.isRunning now (routeNew e))) (start_delete i)
      else
      let! b := expired_at i routeDelete (fun w e => e <| routeDelete := w |>) in
      if b then deleteRoute i else
      timeout_loop n (S i)
  end.

(** [a->isExpired() || b->isExpired()]: the second is not asked after the first. *)
Definition seqnum_timeout : Eff t unit := fun s =>
  let '(b1, w1) := Timer.isExpired (clock s) (ownSeqNumLossTimeout s) in
  let s := s <| ownSeqNumLossTimeout := w1 |> in
  let '(b2, w2) := if b1 then (true, ownSeqNumLossTimeoutMax s)
                   else Timer.isExpired (clock s) (ownSeqNumLossTimeoutMax s) in
  let s := s <| ownSeqNumLossTimeoutMax := w2 |> in
  Ok tt (if b2 then s <| ownSeqNumLossTimeout := Timer.cancel (ownSeqNumLossTimeout s) |>
                      <| ownSeqNumLossTimeoutMax := Timer.cancel (ownSeqNumLossTimeoutMax s) |>
                      <| ownSeqNum := 1 |>
         else s).

Definition handleSelfMsg : Eff t unit :=
  seqnum_timeout ;;;
  let! now := simTime in
  let! r := gets (fun s => OutstandingRREQ.getExpired now (outstandingRREQList s)) in
  modify (fun s => s <| outstandingRREQList := snd r |>) ;;;
  match fst r with Some i => handleRREQTimeout i | None => ret tt end ;;;
  let! n := gets (fun s => length (routeVector s)) in
  timeout_loop n 0.

(** *** Data packets *)
Definition processPacket (d : IPDatagram) : Eff t unit :=
  let dest := destAddress d in
  let! i := getForAddress dest in
  let! entry := lookup_entry i in
  match (match entry with Some e => negb (routeBroken e) | None => false end) with
  | true => fail (RuntimeError "Dymo has a valid entry route but ip doesn't have a entry route")
  | false =>
      let targetSeqNum := match entry with Some e => routeSeqNum e | None => 0 end in
      let targetHopCount := match entry with Some e => routeDist e | None => 0 end in
      let! local := (if IPAddress.isUnspecified (srcAddress d) then ret true
                     else on_base (ManetRoutingBase.isIpLocalAddress (srcAddress d))) in
      if negb local then sendRERR dest targetSeqNum
      else
        let! known := gets (fun s => OutstandingRREQ.getByDestAddr dest 32 (outstandingRREQList s)) in
        match known with
        | Some _ => ret tt
        | None =>
            let! c := gets cfg in
            sendRREQ dest (MIN_HOPLIMIT c) targetSeqNum targetHopCount ;;;
            let! now := simTime in
            let! w := Timer.start now (RREQ_WAIT_TIME c) Timer.new in
            modify (fun s => s <| outstandingRREQList :=
              OutstandingRREQ.add (OutstandingRREQ.mk 1 w dest now) (outstandingRREQList s) |>)
        end ;;;
        on_queue (DataQueue.queuePacket d)
  end.

(** A packet the link layer could not deliver. *)
Definition packetFailed (d : IPDatagram) : Eff t unit :=
  if (destAddress d =? IPAddress.ALLONES_ADDRESS) || (destAddress d =? LL_MANET_ROUTERS) then ret tt else
  let! i := gets (fun s => RoutingTable_.getByAddress (destAddress d) (routeVector s)) in
  match i with
  | None => fail (NullPointer "entry->routeNextHopAddress")
  | Some i =>
      let! e := entry_at i in
      modify (fun s => s <| routeVector :=
        (fun x => if routeNextHopAddress x =? routeNextHopAddress e then x <| routeBroken := true |> else x)
          <$> routeVector s |>) ;;;
      maintainAssociatedRoutingTable
  end.

(** *** Messages and notifications

    What arrives: a timer's message, a packet IP has no route for, a report that a
    route was used, a packet from the network ([None] if it is not a DYMO message),
    a broken link. *)
Inductive Event : Type :=
| Timeout
| NoRoute (d : IPDatagram)
| RouteUpdate (src dest : Z)
| FromNetwork (destPort : Z) (p : option PacketBB) (c : Received)
| LinkBreak (d : option IPDatagram).

Definition handle (ev : Event) : Eff t unit :=
  match ev with
  | Timeout => handleSelfMsg
  | NoRoute d => processPacket d
  | RouteUpdate src dest => updateRouteLifetimes src ;;; updateRouteLifetimes dest
  | FromNetwork port p c =>
      if negb (port =? DYMO_PORT) then ret tt
      else match p with Some p => handleLowerMsg p c | None => ret tt end
  | LinkBreak (Some d) => packetFailed d
  | LinkBreak None => ret tt
  end.

Definition setMyAddr (addr : Z) : Eff t unit :=
  modify (fun s =>
    if (negb (statsRREQSent (stats s) =? 0)) || (negb (statsRREPSent (stats s) =? 0)) || (negb (statsRERRSent (stats s) =? 0))
    then s else s <| myAddr := addr |>).

Definition initialize (c : Config) (now : Z) (b : ManetRoutingBase.t PacketBB) : Outcome t unit :=
  match ManetRoutingBase.registerRoutingModule b with
  | Ok _ b =>
      Ok tt {| cfg := c; clock := now; base := b; myAddr := ManetRoutingBase.hostAddress b; ownSeqNum := 1;
               ownSeqNumLossTimeout := Timer.new; ownSeqNumLossTimeoutMax := Timer.new; routeVector := [];
               outstandingRREQList := []; queuedDataPackets := DataQueue.new (CFG_BUFFER_SIZE_PACKETS c) (CFG_BUFFER_SIZE_BYTES c);
               rateLimiterRREQ := TokenBucket.new (RREQ_RATE_LIMIT c) (double_of_int (RREQ_BURST_LIMIT c)) now;
               stats := Stats_new |}
  | Err e => Err e
  end.
End Clock.
End DYMO.
