(* ===== verification/DymoSpec.v ===== *)
(** * What the DYMO handlers do to the routing table

    Every handler only improves the routing table of its node, changes it only by
    what the received message says, and sends only blocks its own table backs;
    this is what the loop freedom of a network of DYMO nodes rests on. *)
From Stdlib Require Import String SpecFloat.
From S2P Require Import Prelude MachineFloat IPAddress InterfaceTable IPDatagram RoutingTable Manet Dymo.

(** ** Effects that leave something alone *)
Section Stable.
Context {S : Type} (R : S -> S -> Prop) `{!PreOrder R}.

Definition stable {A} (m : Eff S A) : Prop := forall s a s', m s = Ok a s' -> R s s'.

Lemma stable_ret {A} (a : A) : stable (ret a).
Proof. intros s b s' [= _ <-]. reflexivity. Qed.
Lemma stable_fail {A} e : stable (fail (A := A) e).
Proof. intros s b s' [=]. Qed.
Lemma stable_gets {A} (f : S -> A) : stable (gets f).
Proof. intros s b s' [= _ <-]. reflexivity. Qed.
Lemma stable_modify f : (forall s, R s (f s)) -> stable (modify f).
Proof. intros Hf s b s' [= _ <-]. apply Hf. Qed.
Lemma stable_bind {A B} (m : Eff S A) (k : A -> Eff S B) : stable m -> (forall a, stable (k a)) -> stable (bind m k).
Proof.
  intros Hm Hk s b s' Hrun. apply bind_inv in Hrun as (a & s1 & H1 & H2).
  transitivity s1; [by apply (Hm _ _ _ H1)|by apply (Hk _ _ _ _ H2)].
Qed.
Lemma stable_mapE {A B} (f : A -> Eff S B) l : (forall a, stable (f a)) -> stable (mapE f l).
Proof.
  intros Hf. induction l as [|a l IH]; cbn [mapE]; [apply stable_ret|].
  apply stable_bind; [apply Hf|]. intros b. apply stable_bind; [apply IH|]. intros bs. apply stable_ret.
Qed.
Lemma stable_when b m : stable m -> stable (when b m).
Proof. intros Hm. destruct b; [apply Hm|apply stable_ret]. Qed.
End Stable.

Create HintDb stable.
#[export] Hint Resolve stable_ret stable_fail stable_gets stable_when : stable.
#[export] Hint Extern 5 (stable _ (bind _ _)) => apply stable_bind; [typeclasses eauto| |intros ?] : stable.
#[export] Hint Extern 5 (stable _ (mapE _ _)) => apply stable_mapE; [typeclasses eauto|intros ?] : stable.
#[export] Hint Extern 6 (stable _ (if ?b then _ else _)) => destruct b : stable.
#[export] Hint Extern 6 (stable _ (match ?x with _ => _ end)) => destruct x : stable.
#[export] Hint Extern 6 (stable _ (let '(_, _) := ?x in _)) => destruct x : stable.
#[export] Hint Extern 0 (PreOrder _) => typeclasses eauto : stable.
Ltac stable := auto 40 with stable nocore.

(** ** The base module: only [sendToIp] sends *)
Section BaseStable.
Import ManetRoutingBase.
Context {P : Type}.

Definition same_sent (s s' : t P) : Prop := to_ip s' = to_ip s /\ interfaceVector s' = interfaceVector s.
#[global] Instance same_sent_preorder : PreOrder same_sent.
Proof. split; [done|intros ??? [? ?] [? ?]; split; congruence]. Qed.

Lemma on_node_stable {A} (m : Eff Node A) : stable same_sent (on_node m).
Proof. intros s a s'. unfold on_node. destruct (m (node s)); [|done]. by intros [= _ <-]. Qed.
#[local] Hint Resolve on_node_stable : stable.

Lemma getInterfaceWlanByAddress_stable a : stable same_sent (getInterfaceWlanByAddress (P := P) a).
Proof. unfold getInterfaceWlanByAddress, first_wlan. stable. Qed.
#[local] Hint Resolve getInterfaceWlanByAddress_stable : stable.

Lemma omnet_chg_rte_stable dst gtwy netm hops del iface : stable same_sent (omnet_chg_rte (P := P) dst gtwy netm hops del iface).
Proof. unfold omnet_chg_rte. stable. Qed.

Lemma setIpEntry_stable dst gtwy netm hops : stable same_sent (setIpEntry (P := P) dst gtwy netm hops).
Proof. apply omnet_chg_rte_stable. Qed.
Lemma deleteIpEntry_stable dst : stable same_sent (deleteIpEntry (P := P) dst).
Proof. apply omnet_chg_rte_stable. Qed.
Lemma isIpLocalAddress_stable a : stable same_sent (isIpLocalAddress (P := P) a).
Proof. apply on_node_stable. Qed.

(** What [sendToIp] sends is copies of the message. *)
Definition sends_only (msg : P) (s s' : t P) : Prop :=
  interfaceVector s' = interfaceVector s /\
  exists new, to_ip s' = to_ip s ++ new /\ Forall (fun x => snd_msg x = msg) new.
#[global] Instance sends_only_preorder msg : PreOrder (sends_only msg).
Proof.
  split.
  - intros s. split; [done|]. exists []. by rewrite app_nil_r.
  - intros s1 s2 s3 [? (n1 & H1 & F1)] [? (n2 & H2 & F2)]. split; [congruence|]. exists (n1 ++ n2).
    rewrite H2, H1, app_assoc. split; [done|]. by apply Forall_app.
Qed.

Lemma same_sends {A} msg (m : Eff (t P) A) : stable same_sent m -> stable (sends_only msg) m.
Proof. intros Hm s a s' Hrun. destruct (Hm _ _ _ Hrun) as [Hs Hv]. split; [done|]. exists []. by rewrite app_nil_r. Qed.

Lemma sendToIp_sends msg sp dest dp ttl delayed iface :
  stable (sends_only msg) (sendToIp msg sp dest dp ttl delayed iface).
Proof.
  assert (forall src ifId, stable (sends_only msg) (send_one (mkSend sp dp src dest ttl ifId delayed msg))) as Hone.
  { intros src ifId. apply stable_modify. intros s. split; [done|]. eexists. split; [done|]. by repeat constructor. }
  pose proof (fun A m => same_sends msg _ (@on_node_stable A m)) as Hnode.
  pose proof (same_sends msg _ (getInterfaceWlanByAddress_stable iface)) as Hw.
  unfold sendToIp. stable.
Qed.
End BaseStable.
#[export] Hint Resolve setIpEntry_stable deleteIpEntry_stable isIpLocalAddress_stable : stable.

(** ** Handlers that only change flags and timers of entries *)
Import DYMO.
Implicit Types (s : t) (e : RoutingEntry) (b : AddressBlock.t).

Definition core e : Z * Z * Z * Z * Z :=
  (routeAddress e, routeSeqNum e, routeNextHopAddress e, routeDist e, routePrefix e).
Definition sent_by s : list (ManetRoutingBase.IPSend PacketBB) := ManetRoutingBase.to_ip (base s).
Definition seq_ok s : Prop := 0 <= ownSeqNum s < 65536.

Record calm s s' : Prop := {
  calm_cfg : cfg s' = cfg s;
  calm_me : myAddr s' = myAddr s;
  calm_sent : sent_by s' = sent_by s;
  calm_table : core <$> routeVector s' = core <$> routeVector s;
  calm_seq : seq_ok s -> seq_ok s'
}.
#[global] Instance calm_preorder : PreOrder calm.
Proof. split; [by intros s|]. intros s1 s2 s3 [] []. split; try congruence. auto. Qed.

Lemma on_base_calm {A} (m : Eff (ManetRoutingBase.t PacketBB) A) : stable same_sent m -> stable calm (on_base m).
Proof.
  intros Hm s a s'. unfold on_base. destruct (m (base s)) as [x b'|] eqn:Hrun; [|done]. intros [= _ <-].
  destruct (Hm _ _ _ Hrun). by split.
Qed.
Lemma on_queue_calm {A} (m : Eff DataQueue.t A) : stable calm (on_queue m).
Proof. intros s a s'. unfold on_queue. destruct (m _); [|done]. intros [= _ <-]. by split. Qed.
Lemma count_calm f : stable calm (count f).
Proof. apply stable_modify. by split. Qed.
Lemma simTime_calm : stable calm simTime.
Proof. apply stable_gets, _. Qed.

Lemma core_alter f i (l : list RoutingEntry) : (forall e, core (f e) = core e) -> core <$> alter f i l = core <$> l.
Proof.
  intros Hf. apply list_eq. intros j. rewrite !list_lookup_fmap, list_lookup_alter.
  destruct (decide _); [|done]. destruct (l !! i) eqn:E; subst; rewrite ?E; cbn; by rewrite ?Hf.
Qed.
Lemma set_entry_calm i f : (forall e, core (f e) = core e) -> stable calm (set_entry i f).
Proof. intros Hf. apply stable_modify. intros s. split; try done. by apply core_alter. Qed.

#[export] Hint Resolve on_queue_calm count_calm simTime_calm : stable.
#[export] Hint Extern 3 (stable calm (on_base _)) => apply on_base_calm : stable.
#[export] Hint Extern 3 (stable calm (set_entry _ _)) => apply set_entry_calm; intros []; reflexivity : stable.
#[export] Hint Extern 3 (stable calm (modify _)) => apply stable_modify; intros ?; split; done : stable.
#[export] Hint Extern 3 (stable _ (Timer.start _ _ _)) => unfold Timer.start : stable.
#[export] Hint Extern 3 (stable _ (entry_at _)) => unfold entry_at : stable.
#[export] Hint Extern 3 (stable _ (AddressBlock.read _ _)) => unfold AddressBlock.read : stable.

Lemma getForAddress_calm a : stable calm (getForAddress a).
Proof. apply stable_gets, _. Qed.
Lemma lookup_entry_calm i : stable calm (lookup_entry i).
Proof. unfold lookup_entry. stable. Qed.
Lemma maintain_calm : stable calm maintainAssociatedRoutingTable.
Proof. unfold maintainAssociatedRoutingTable, maintainAssociatedRoutingEntryFor. stable. Qed.
#[export] Hint Resolve getForAddress_calm lookup_entry_calm maintain_calm : stable.

Lemma checkAndSend_calm a p : stable calm (checkAndSendQueuedPkts a p).
Proof.
  unfold checkAndSendQueuedPkts. repeat (apply stable_bind; [typeclasses eauto|stable|intros []]).
  apply stable_modify. intros s. by case_match.
Qed.
#[export] Hint Resolve checkAndSend_calm : stable.

Lemma updateRouteLifetimes_calm a : stable calm (updateRouteLifetimes a).
Proof. unfold updateRouteLifetimes. stable. Qed.

Lemma incSeqNum_calm : stable calm incSeqNum.
Proof.
  apply stable_modify. intros s. split; try done. unfold seq_ok, u32. cbn. intros Hs.
  destruct (Z.eqb_spec (ownSeqNum s) 65535); lia.
Qed.
Lemma ownBlock_calm : stable calm ownBlock.
Proof. unfold ownBlock, setOwnPrefix. stable. Qed.
Lemma lost_calm : stable calm lost_seqnum.
Proof. apply stable_gets, _. Qed.
Lemma consumeToken_calm f : stable calm (consumeToken f).
Proof. intros s a s'. unfold consumeToken. destruct (TokenBucket.consumeTokens _ _ _ _). intros [= _ <-]. by split. Qed.
#[export] Hint Resolve updateRouteLifetimes_calm incSeqNum_calm ownBlock_calm lost_calm consumeToken_calm : stable.

Lemma rerr_entries_calm n i un a src ifId : stable calm (rerr_entries n i un a src ifId).
Proof. revert i. induction n as [|n IH]; intros i; cbn [rerr_entries]; stable. Qed.
#[export] Hint Resolve rerr_entries_calm : stable.
Lemma rerr_nodes_calm l src ifId : stable calm (rerr_nodes l src ifId).
Proof. induction l as [|un l IH]; cbn [rerr_nodes]; unfold AddressBlock.getAddress; stable. Qed.

Lemma getNextHopInterface_calm c : stable calm (getNextHopInterface c).
Proof. unfold getNextHopInterface. stable. Qed.
#[export] Hint Resolve rerr_nodes_calm getNextHopInterface_calm : stable.

Lemma packetFailed_calm d : stable calm (packetFailed d).
Proof.
  unfold packetFailed. destruct (_ || _); [stable|]. apply stable_bind; [typeclasses eauto|stable|].
  intros [i|]; [|stable]. apply stable_bind; [typeclasses eauto|stable|]. intros e.
  apply stable_bind; [typeclasses eauto| |intros []; stable]. apply stable_modify. intros s. split; try done.
  cbn. rewrite <- list_fmap_compose. apply list_fmap_ext. intros j x _. cbn. by destruct (_ =? _).
Qed.

Lemma expired_at_calm i get set : (forall w e, core (set w e) = core e) -> stable calm (expired_at i get set).
Proof.
  intros Hset. unfold expired_at. repeat (apply stable_bind; [typeclasses eauto|stable|intros ?]).
  destruct (Timer.isExpired _ _) as [b w]. apply stable_bind; [typeclasses eauto|by apply set_entry_calm|stable].
Qed.
Lemma start_delete_calm i : stable calm (start_delete i).
Proof. unfold start_delete. stable. Qed.

Lemma seqnum_timeout_calm : stable calm seqnum_timeout.
Proof.
  intros s a s'. unfold seqnum_timeout. destruct (Timer.isExpired _ _) as [[] w1]; cbn.
  - intros [= _ <-]. by split.
  - destruct (Timer.isExpired _ _) as [[] w2]; cbn; by intros [= _ <-]; split.
Qed.

(** ** Learning and announcing routes *)

(** The freshness of an entry against a sequence number and a distance. *)
Definition at_least e (n d : Z) : Prop :=
  i16 n < i16 (routeSeqNum e) \/ (routeSeqNum e = n /\ routeDist e <= d).

(** The node has a route to [a] that is at least that fresh. *)
Definition backs s (a n d : Z) : Prop :=
  exists e, e ∈ routeVector s /\ routeAddress e = a /\ at_least e n d.

(** A block with all the fields a node announces. *)
Record block_has b (a n d : Z) : Prop := {
  bh_address : AddressBlock.address b = Some a;
  bh_seqNum : AddressBlock.seqNum b = Some n;
  bh_dist : AddressBlock.dist b = Some d;
  bh_prefix : AddressBlock.prefix b = None;
  bh_addr_range : is_u32 a;
  bh_seq_range : 0 <= n < 65536;
  bh_dist_range : 0 <= d < 256
}.
Definition block_ok s b : Prop := exists a n d, block_has b a n d /\ (a = myAddr s \/ backs s a n d).
Definition blocks (m : DYMO_RM) : list AddressBlock.t := origNode m :: additionalNodes m.

(** The block that names the sender of a message is its last. *)
Definition names (m : DYMO_RM) (a : Z) : Prop :=
  AddressBlock.address (default (origNode m) (last (additionalNodes m))) = Some a.

(** Every block of a message that names the node is about the node itself or is
    backed by its table. *)
Definition backed s (p : PacketBB) : Prop :=
  match p with PRM m => names m (myAddr s) -> Forall (block_ok s) (blocks m) | _ => True end.

Record entry_ok (me : Z) e : Prop := {
  eo_prefix : routePrefix e = 32;
  eo_addr : is_u32 (routeAddress e);
  eo_other : routeAddress e <> me;
  eo_seq : 0 <= routeSeqNum e < 65536;
  eo_dist : 1 <= routeDist e <= 256
}.
Record node_inv s : Prop := {
  ni_prefix : RESPONSIBLE_ADDRESSES_PREFIX (cfg s) = -1;
  ni_me : is_u32 (myAddr s);
  ni_seq : seq_ok s;
  ni_unique : NoDup (routeAddress <$> routeVector s);
  ni_entries : Forall (entry_ok (myAddr s)) (routeVector s)
}.

(** *** Looking up entries *)
Lemma prefix_loop_spec a l i best longest :
  Forall (fun e => routePrefix e = 32) l -> (longest = 0 /\ best = None) \/ (longest = 32 /\ best <> None) ->
  match best with
  | Some _ => RoutingTable_.prefix_loop a i longest best l = best
  | None => match RoutingTable_.prefix_loop a i longest best l with
            | Some j => exists k e, j = (i + k)%nat /\ l !! k = Some e /\ routeAddress e = a
            | None => forall e, e ∈ l -> routeAddress e <> a
            end
  end.
Proof.
  revert i best longest. induction l as [|e l IH]; intros i best longest Hall Hb; cbn [RoutingTable_.prefix_loop].
  { destruct best; [done|]. intros e He. by apply elem_of_nil in He. }
  apply Forall_cons in Hall as [He Hall]. rewrite He. destruct Hb as [[-> ->]|[-> Hb]].
  - change (0 <? 32) with true. cbn [negb]. change (IPAddress.prefixMatches a (routeAddress e) 32) with (a =? routeAddress e).
    destruct (Z.eqb_spec a (routeAddress e)) as [Ha|Ha]; cbn [negb].
    + assert (RoutingTable_.prefix_loop a (S i) 32 (Some i) l = Some i) as -> by (apply (IH (S i) (Some i) 32 Hall); by right).
      exists O, e. rewrite Nat.add_0_r. by split_and!.
    + specialize (IH (S i) None 0 Hall (or_introl (conj eq_refl eq_refl))). cbn in IH.
      destruct (RoutingTable_.prefix_loop a (S i) 0 None l) as [j|].
      * destruct IH as (k & e' & -> & Hk & He'). exists (S k), e'. split_and!; [lia|done|done].
      * intros e' He'. apply elem_of_cons in He' as [->|He']; [done|by apply IH].
  - change (32 <? 32) with false. cbn [negb]. destruct best as [j|]; [|done].
    apply (IH (S i) (Some j) 32 Hall). by right.
Qed.

Lemma getForAddress_spec s a : node_inv s ->
  match RoutingTable_.getForAddress a (routeVector s) with
  | Some i => exists e, routeVector s !! i = Some e /\ routeAddress e = a
  | None => forall e, e ∈ routeVector s -> routeAddress e <> a
  end.
Proof.
  intros Hi. assert (Forall (fun e => routePrefix e = 32) (routeVector s)) as Hall.
  { eapply Forall_impl; [apply (ni_entries _ Hi)|]. by intros e []. }
  pose proof (prefix_loop_spec a (routeVector s) 0 None 0 Hall (or_introl (conj eq_refl eq_refl))) as H.
  cbn in H. unfold RoutingTable_.getForAddress. destruct (RoutingTable_.prefix_loop _ _ _ _ _); [|done].
  destruct H as (k & e & -> & Hk & He). by exists e.
Qed.

Lemma dymo_entry_at s i e : routeVector s !! i = Some e -> entry_at i s = Ok e s.
Proof. unfold entry_at, bind, gets. by intros ->. Qed.

Lemma i16_inj x y : 0 <= x < 65536 -> 0 <= y < 65536 -> i16 x = i16 y -> x = y.
Proof. unfold i16. intros. lia. Qed.

Section Evolve.
(** What is said to the node: [known a n d hop], that there is a route to [a] over
    the neighbour [hop], which has it with number [n] and distance [d]. *)
Variable known : Z -> Z -> Z -> Z -> Prop.

Definition learned e : Prop := known (routeAddress e) (routeSeqNum e) (routeDist e - 1) (routeNextHopAddress e).

Record evolve s s' : Prop := {
  ev_cfg : cfg s' = cfg s;
  ev_me : myAddr s' = myAddr s;
  ev_mono a n d : backs s a n d -> backs s' a n d;
  ev_from e' : e' ∈ routeVector s' -> core e' ∈ core <$> routeVector s \/ learned e';
  ev_sent x : x ∈ sent_by s' -> x ∈ sent_by s \/ backed s' (ManetRoutingBase.snd_msg x)
}.

Lemma at_least_core e e' n d : core e = core e' -> at_least e n d -> at_least e' n d.
Proof. intros [= _ Hn _ Hd _]. unfold at_least. by rewrite Hn, Hd. Qed.

Lemma learned_core e e' : core e = core e' -> learned e -> learned e'.
Proof. intros [= H1 H2 H3 H4 _]. unfold learned. by rewrite H1, H2, H3, H4. Qed.

Lemma core_entry e (l : list RoutingEntry) : core e ∈ core <$> l -> exists e', e' ∈ l /\ core e = core e'.
Proof. intros He. by apply list_elem_of_fmap in He as (e' & ? & ?); exists e'. Qed.

Lemma block_ok_mono s s' b :
  myAddr s' = myAddr s -> (forall a n d, backs s a n d -> backs s' a n d) -> block_ok s b -> block_ok s' b.
Proof.
  intros Hme Hmono (a & n & d & Hb & Ha). exists a, n, d. split; [done|]. rewrite Hme. destruct Ha as [Ha|Ha]; [by left|right; by apply Hmono].
Qed.

#[global] Instance evolve_preorder : PreOrder evolve.
Proof.
  split.
  - intros s. split; try done; [|by left]. intros e He. left. by apply list_elem_of_fmap_2.
  - intros s1 s2 s3 [C1 M1 Mo1 F1 S1] [C2 M2 Mo2 F2 S2]. split; [congruence|congruence|by auto|..].
    + intros e He. destruct (F2 e He) as [Hc|]; [|by right]. apply core_entry in Hc as (e2 & He2 & Hc).
      rewrite Hc. destruct (F1 e2 He2) as [|Hl]; [by left|right; by apply (learned_core e2)].
    + intros x Hx. destruct (S2 x Hx) as [Hx2|]; [|by right]. destruct (S1 x Hx2) as [|Hb]; [by left|right].
      destruct (ManetRoutingBase.snd_msg x) as [m| |]; [|done..]. cbn in *. rewrite M2. intros Hn. specialize (Hb Hn).
      eapply Forall_impl; [exact Hb|]. intros b. by apply block_ok_mono.
Qed.

Lemma calm_evolve s s' : calm s s' -> evolve s s'.
Proof.
  intros [Hc Hm Hs Ht _]. split; [done|done|..].
  - intros a n d (e & He & Ha & Hl). assert (core e ∈ core <$> routeVector s') as He'.
    { rewrite Ht. by apply list_elem_of_fmap_2. }
    apply core_entry in He' as (e' & He' & Hcore). exists e'. split; [done|]. split; [by injection Hcore; congruence|].
    by apply (at_least_core e).
  - intros e' He'. left. rewrite <- Ht. by apply list_elem_of_fmap_2.
  - intros x. rewrite Hs. by left.
Qed.

Lemma entry_ok_core me e e' : core e = core e' -> entry_ok me e -> entry_ok me e'.
Proof. intros [= H1 H2 _ H4 H5] []. split; congruence || by rewrite <- ?H1, <- ?H2, <- ?H4. Qed.

Lemma calm_inv s s' : calm s s' -> node_inv s -> node_inv s'.
Proof.
  intros [Hc Hm Hs Ht Hq] []. split; [congruence|congruence|auto|..].
  - assert (routeAddress <$> routeVector s' = routeAddress <$> routeVector s) as ->; [|done].
    assert (forall l : list RoutingEntry, routeAddress <$> l = (fun c : Z * Z * Z * Z * Z => c.1.1.1.1) <$> (core <$> l)) as Hl.
    { intros l. rewrite <- list_fmap_compose. by apply list_fmap_ext. }
    by rewrite !Hl, Ht.
  - rewrite Forall_forall in ni_entries0 |- *. intros e' He'. rewrite Hm.
    assert (core e' ∈ core <$> routeVector s) as Hc' by (rewrite <- Ht; by apply list_elem_of_fmap_2).
    apply core_entry in Hc' as (e & He & Hcore). apply (entry_ok_core _ e); [done|auto].
Qed.

(** [m] keeps the invariant and evolves the state, and its results satisfy [Q]. *)
Definition evolves {A} (m : Eff t A) (Q : A -> t -> Prop) s : Prop :=
  forall a s', m s = Ok a s' -> node_inv s' /\ evolve s s' /\ Q a s'.

Lemma evolves_bind {A B} (m : Eff t A) (k : A -> Eff t B) Q R s :
  evolves m Q s -> (forall a s', node_inv s' -> evolve s s' -> Q a s' -> evolves (k a) R s') -> evolves (bind m k) R s.
Proof.
  intros Hm Hk b s' Hrun. apply bind_inv in Hrun as (a & s1 & H1 & H2). destruct (Hm _ _ H1) as (Hi1 & He1 & HQ).
  destruct (Hk a s1 Hi1 He1 HQ _ _ H2) as (Hi & He & HR). split_and!; [done|by transitivity s1|done].
Qed.

Lemma evolves_calm {A} (m : Eff t A) s : stable calm m -> node_inv s -> evolves m (fun _ _ => True) s.
Proof.
  intros Hm Hi a s' Hrun. pose proof (Hm _ _ _ Hrun) as Hc.
  split_and!; [by apply (calm_inv s)|by apply calm_evolve|done].
Qed.

Lemma evolves_mono {A} (m : Eff t A) (Q R : A -> t -> Prop) s :
  evolves m Q s -> (forall a s', node_inv s' -> evolve s s' -> Q a s' -> R a s') -> evolves m R s.
Proof. intros Hm HQ a s' Hrun. destruct (Hm a s' Hrun) as (? & ? & ?). split_and!; auto. Qed.

Lemma evolves_ret {A} (a : A) (Q : A -> t -> Prop) s : node_inv s -> Q a s -> evolves (ret a) Q s.
Proof. intros Hi HQ b s' [= <- <-]. by split_and!. Qed.
Lemma evolves_fail {A} (err : Error) (Q : A -> t -> Prop) s : evolves (fail err) Q s.
Proof. intros b s' [=]. Qed.
Lemma evolves_gets {A} (f : t -> A) (Q : A -> t -> Prop) s : node_inv s -> Q (f s) s -> evolves (gets f) Q s.
Proof. intros Hi HQ b s' [= <- <-]. by split_and!. Qed.

(** A better block is at least as fresh as the entry it replaces. *)
Lemma isRBlockBetter_spec e b isRREQ a n d s s' me :
  entry_ok me e -> block_has b a n d -> isRBlockBetter e b isRREQ s = Ok true s' ->
  forall n0 d0, at_least e n0 d0 -> i16 n0 < i16 n \/ (n = n0 /\ d + 1 <= d0).
Proof.
  intros He Hb. unfold isRBlockBetter, AddressBlock.getSeqNum. rewrite (bh_seqNum _ _ _ _ Hb). cbn -[i16 i32 Z.ltb Z.eqb].
  unfold bind, ret, seqNumIsFresher. pose proof (eo_seq _ _ He). pose proof (eo_dist _ _ He). pose proof (bh_seq_range _ _ _ _ Hb).
  destruct (Z.ltb_spec (i16 n - i16 (routeSeqNum e)) 0) as [|Hle]; [done|].
  rewrite (bh_dist _ _ _ _ Hb), !i32_small by lia.
  destruct (Z.eqb_spec n (routeSeqNum e)) as [Hn|Hn].
  - destruct (Z.eqb_spec (d + 1) 0); [done|]. destruct (Z.eqb_spec (routeDist e) 0); [done|].
    destruct (Z.ltb_spec (routeDist e + 1) (d + 1)); [done|]. destruct (Z.ltb_spec (routeDist e) (d + 1)); [done|].
    intros _ q k [Hl|[Hl Hl']]; [left; by rewrite Hn|right; lia].
  - intros _ q k Hl. left. assert (i16 n <> i16 (routeSeqNum e)) by (intros E; by apply i16_inj in E).
    destruct Hl as [Hl|[<- _]]; lia.
Qed.

(** *** Updating the table *)
Definition with_table s (l : list RoutingEntry) : t := s <| routeVector := l |>.

Lemma replace_entry s i e e' :
  node_inv s -> routeVector s !! i = Some e -> routeAddress e' = routeAddress e -> entry_ok (myAddr s) e' ->
  (forall n d, at_least e n d -> at_least e' n d) -> learned e' ->
  node_inv (with_table s (<[i := e']> (routeVector s))) /\ evolve s (with_table s (<[i := e']> (routeVector s))).
Proof.
  intros Hi He Ha Hok Hal Hl. pose proof (lookup_lt_Some _ _ _ He) as Hlt. split.
  - destruct Hi. split; [done..| |].
    + cbn. rewrite list_fmap_insert, list_insert_id; [done|]. by rewrite list_lookup_fmap, He, Ha.
    + cbn. by apply Forall_insert.
  - split; [done|done|..].
    + intros a n d (x & Hx & Hxa & Hxl). cbn. apply list_elem_of_lookup in Hx as [j Hj].
      destruct (decide (i = j)) as [<-|Hne].
      * rewrite He in Hj. injection Hj as <-. exists e'. cbn. split_and!; [|congruence|by apply Hal].
        apply list_elem_of_lookup. exists i. by rewrite list_lookup_insert_eq.
      * exists x. cbn. split_and!; [|done..]. apply list_elem_of_lookup. exists j. by rewrite list_lookup_insert_ne.
    + cbn. intros x Hx. apply list_elem_of_lookup in Hx as [j Hj].
      apply list_lookup_insert_Some in Hj as [(_ & -> & _)|[_ Hj]]; [by right|]. left.
      apply list_elem_of_fmap_2, list_elem_of_lookup. by exists j.
    + by left.
Qed.

Lemma append_entry s e' :
  node_inv s -> (forall e, e ∈ routeVector s -> routeAddress e <> routeAddress e') -> entry_ok (myAddr s) e' -> learned e' ->
  node_inv (with_table s (routeVector s ++ [e'])) /\ evolve s (with_table s (routeVector s ++ [e'])).
Proof.
  intros Hi Hnew Hok Hl. split.
  - destruct Hi. split; [done..| |]; cbn.
    + rewrite fmap_app. apply NoDup_app. split_and!; [done| |apply NoDup_singleton].
      intros a Ha Ha'. apply list_elem_of_singleton in Ha' as ->. apply list_elem_of_fmap in Ha as (e & Hae & He).
      by apply (Hnew e).
    + apply Forall_app. split; [done|by constructor].
  - split; [done|done|..]; cbn.
    + intros a n d (x & Hx & Hxa & Hxl). exists x. cbn. split_and!; [|done..]. apply elem_of_app. by left.
    + intros x Hx. apply elem_of_app in Hx as [Hx|Hx]; [left; by apply list_elem_of_fmap_2|].
      apply list_elem_of_singleton in Hx as ->. by right.
    + by left.
Qed.

(** What [write_entry] writes. *)
Lemma write_entry_run b hop ifId e a n d s e' s' :
  block_has b a n d -> write_entry b hop ifId e s = Ok e' s' -> s' = s /\ core e' = (a, n, hop, d + 1, 32).
Proof.
  intros Hb. unfold write_entry, AddressBlock.getAddress, AddressBlock.getSeqNum.
  rewrite (bh_address _ _ _ _ Hb), (bh_seqNum _ _ _ _ Hb), (bh_dist _ _ _ _ Hb), (bh_prefix _ _ _ _ Hb).
  cbn [AddressBlock.read]. unfold simTime. unfold bind at 1 2 3 4, ret at 1 2, gets.
  intros Hrun. apply bind_inv in Hrun as (t1 & s1 & H1 & Hrun). apply bind_inv in Hrun as (t2 & s2 & H2 & Hrun).
  apply bind_inv in Hrun as (t3 & s3 & H3 & Hrun). injection Hrun as <- <-.
  assert (forall now v w (x : Timer.t) (u u' : t), Timer.start now v w u = Ok x u' -> u' = u) as Hstart.
  { intros now v w x u u'. unfold Timer.start. repeat case_match; by intros [= _ <-]. }
  apply Hstart in H1 as ->. apply Hstart in H2 as ->. apply Hstart in H3 as ->. done.
Qed.

Lemma learned_ok b a n d hop me e' :
  block_has b a n d -> a <> me -> core e' = (a, n, hop, d + 1, 32) -> known a n d hop ->
  entry_ok me e' /\ learned e' /\ routeAddress e' = a.
Proof.
  intros [_ _ _ _ Hrange Hn Hd] Hme [= Ha Hs Hh Hdist Hp] Hk. unfold learned. rewrite Ha, Hs, Hh, Hdist.
  replace (d + 1 - 1) with d by lia. split_and!; [|done|done]. split; rewrite ?Ha, ?Hs, ?Hdist; done || lia.
Qed.

Lemma isRBlockBetter_pure e b isRREQ s r s' : isRBlockBetter e b isRREQ s = Ok r s' -> s' = s.
Proof.
  unfold isRBlockBetter, AddressBlock.getSeqNum, AddressBlock.read, bind, ret, fail.
  repeat case_match; intros [= _ <-]; by simplify_eq.
Qed.

(** The step that writes the entry. *)
Lemma write_found_ok b isRREQ hop ifId a n d s better s1 s2 :
  node_inv s -> block_has b a n d -> a <> myAddr s -> known a n d hop ->
  (match RoutingTable_.getForAddress a (routeVector s) with
   | Some i => exists e, routeVector s !! i = Some e /\ isRBlockBetter e b isRREQ s = Ok better s1
   | None => s1 = s /\ better = true
   end) -> better = true ->
  (match RoutingTable_.getForAddress a (routeVector s) with
   | Some i => let! e := entry_at i in let! e := write_entry b hop ifId e in set_entry i (fun _ => e)
   | None => let! e := write_entry b hop ifId entry_new in
             modify (fun s => s <| routeVector := routeVector s ++ [e] |>)
   end) s1 = Ok tt s2 ->
  node_inv s2 /\ evolve s s2 /\ backs s2 a n (d + 1).
Proof.
  intros Hi Hb Ha Hk Hfound -> Hrun. pose proof (getForAddress_spec s a Hi) as Hf.
  destruct (RoutingTable_.getForAddress a (routeVector s)) as [i|].
  - destruct Hfound as (e & He & Hbet). pose proof (isRBlockBetter_pure _ _ _ _ _ _ Hbet) as ->.
    destruct Hf as (e0 & He0 & Hea). rewrite He in He0. injection He0 as <-.
    assert (entry_ok (myAddr s) e) as Hok.
    { pose proof (ni_entries _ Hi) as HF. rewrite Forall_forall in HF. apply HF. apply list_elem_of_lookup. by exists i. }
    pose proof (isRBlockBetter_spec e b isRREQ a n d s s _ Hok Hb Hbet) as Hbetter.
    rewrite (bind_ok _ _ _ _ _ (dymo_entry_at _ _ _ He)) in Hrun. apply bind_inv in Hrun as (e' & s3 & Hw & Hset).
    apply (write_entry_run b hop ifId e a n d) in Hw as [-> Hcore]; [|done].
    destruct (learned_ok b a n d hop (myAddr s) e' Hb Ha Hcore Hk) as (Hok' & Hl & Ha').
    assert (s2 = with_table s (<[i := e']> (routeVector s))) as ->.
    { injection Hset as <-. unfold with_table. f_equal. by rewrite list_insert_alter. }
    injection Hcore as Hca Hcn _ Hcd _.
    destruct (replace_entry s i e e') as [Hi' Hev]; [done|done|congruence|done| |done|].
    { intros q k Hq. destruct (Hbetter q k Hq) as [|[-> ?]]; [left; congruence|right; lia]. }
    split_and!; [done|done|]. exists e'. split_and!; [|done|right; lia].
    apply list_elem_of_lookup. exists i. cbn. apply list_lookup_insert_eq. by apply lookup_lt_Some in He.
  - destruct Hfound as [-> _]. apply bind_inv in Hrun as (e' & s3 & Hw & Hset).
    apply (write_entry_run b hop ifId entry_new a n d) in Hw as [-> Hcore]; [|done]. injection Hset as <-.
    destruct (learned_ok b a n d hop (myAddr s) e' Hb Ha Hcore Hk) as (Hok' & Hl & Ha').
    destruct (append_entry s e') as [Hi' Hev]; [done|by rewrite Ha'|done|done|].
    split_and!; [done|done|]. injection Hcore as _ Hcn _ Hcd _. exists e'. cbn.
    split_and!; [apply elem_of_app; right; by apply list_elem_of_singleton|done|right; lia].
Qed.

Lemma update_ok b isRREQ hop ifId a n d s :
  node_inv s -> block_has b a n d -> a <> myAddr s -> known a n d hop ->
  evolves (updateRoutesFromAddressBlock b isRREQ hop ifId) (fun r s' => r = true -> backs s' a n (d + 1)) s.
Proof.
  intros Hi Hb Ha Hk r s' Hrun. unfold updateRoutesFromAddressBlock, AddressBlock.getAddress in Hrun.
  rewrite (bh_address _ _ _ _ Hb) in Hrun. apply bind_inv in Hrun as (? & ? & H1 & Hrun). injection H1 as <- <-.
  apply bind_inv in Hrun as (? & ? & H1 & Hrun). injection H1 as <- <-.
  apply bind_inv in Hrun as (entry & s1 & H1 & Hrun). apply bind_inv in Hrun as (better & s2 & H2 & Hrun).
  pose proof (getForAddress_spec s a Hi) as Hf.
  assert (match RoutingTable_.getForAddress a (routeVector s) with
    | Some i => exists e, routeVector s !! i = Some e /\ isRBlockBetter e b isRREQ s = Ok better s2
    | None => s2 = s /\ better = true end) as Hfound.
  { destruct (RoutingTable_.getForAddress a (routeVector s)) as [i|].
    - destruct Hf as (e & He & _). unfold lookup_entry in H1. rewrite (bind_ok _ _ _ _ _ (dymo_entry_at _ _ _ He)) in H1.
      injection H1 as <- <-. by exists e.
    - injection H1 as <- <-. by injection H2 as <- <-. }
  destruct better; cbn [negb] in Hrun.
  - apply bind_inv in Hrun as ([] & s3 & H3 & Hrun).
    destruct (write_found_ok b isRREQ hop ifId a n d s true s2 s3 Hi Hb Ha Hk Hfound eq_refl H3) as (Hi3 & He3 & Hb3).
    apply bind_inv in Hrun as ([] & s4 & H4 & Hrun). apply bind_inv in Hrun as ([] & s5 & H5 & Hrun). injection Hrun as <- <-.
    assert (calm s3 s5) as Hc by (transitivity s4; [by apply (maintain_calm _ _ _ H4)|by apply (checkAndSend_calm _ _ _ _ _ H5)]).
    pose proof (calm_evolve _ _ Hc) as He5. split_and!; [by apply (calm_inv s3)|by transitivity s3|].
    intros _. by apply (ev_mono _ _ He5).
  - injection Hrun as <- <-. assert (s2 = s) as ->.
    { destruct (RoutingTable_.getForAddress a (routeVector s)); [|by destruct Hfound].
      destruct Hfound as (e & _ & H3). by apply isRBlockBetter_pure in H3. }
    by split_and!.
Qed.

(** A block that may be passed on with its distance incremented. *)
Definition relayable s b : Prop :=
  exists a n d, block_has b a n d /\ a <> myAddr s /\ backs s a n (d + 1).
Definition heard (hop : Z) b : Prop := exists a n d, block_has b a n d /\ known a n d hop.

Lemma relayable_evolve s s' b : evolve s s' -> relayable s b -> relayable s' b.
Proof.
  intros He (a & n & d & Hb & Ha & Hk). exists a, n, d. rewrite (ev_me _ _ He). split_and!; [done|done|]. by apply (ev_mono _ _ He).
Qed.
Lemma relayable_all s s' l : evolve s s' -> Forall (relayable s) l -> Forall (relayable s') l.
Proof. intros He Hl. eapply Forall_impl; [exact Hl|]. intros b. by apply relayable_evolve. Qed.

Lemma update_heard b isRREQ hop ifId a s :
  node_inv s -> heard hop b -> AddressBlock.address b = Some a -> a <> myAddr s ->
  evolves (updateRoutesFromAddressBlock b isRREQ hop ifId) (fun r s' => r = true -> relayable s' b) s.
Proof.
  intros Hi (a' & n & d & Hb & Hk) Haddr Ha. rewrite (bh_address _ _ _ _ Hb) in Haddr. injection Haddr as ->.
  eapply evolves_mono; [by apply (update_ok b isRREQ hop ifId a n d)|].
  intros r s' Hi' He Hback Hr. exists a, n, d. split_and!; [done| |by apply Hback]. by rewrite (ev_me _ _ He).
Qed.

Lemma update_loop_ok l isRREQ hop ifId kept s :
  node_inv s -> Forall (heard hop) l -> Forall (relayable s) kept ->
  evolves (update_loop l isRREQ hop ifId kept) (fun r s' => forall kept', r = Some kept' -> Forall (relayable s') kept') s.
Proof.
  revert kept s. induction l as [|b l IH]; intros kept s Hi Hl Hk; cbn [update_loop].
  { apply evolves_ret; [done|]. by intros ? [= <-]. }
  apply Forall_cons in Hl as [Hb Hl]. pose proof Hb as (a & n & d & Hbh & _).
  unfold AddressBlock.getAddress. rewrite (bh_address _ _ _ _ Hbh). cbn [AddressBlock.read].
  eapply (evolves_bind _ _ (fun x s' => x = a /\ s' = s)).
  { by apply evolves_ret. }
  intros ? ? _ _ [-> ->]. eapply (evolves_bind _ _ (fun x s' => x = myAddr s /\ s' = s)).
  { by apply evolves_gets. }
  intros ? ? _ _ [-> ->]. destruct (Z.eqb_spec a (myAddr s)) as [|Hne].
  { apply evolves_ret; [done|]. by intros ? [=]. }
  eapply evolves_bind; [apply (update_heard b isRREQ hop ifId a); [done|done|apply Hbh|done]|]. intros better s1 Hi1 He1 Hrel.
  apply IH; [done|done|]. pose proof (relayable_all _ _ _ He1 Hk) as Hk1.
  destruct better; [|done]. apply Forall_app. split; [done|]. constructor; [by apply Hrel|done].
Qed.

Lemma updateRoutes_ok m c hop s :
  node_inv s -> names m hop -> Forall (heard hop) (blocks m) ->
  evolves (updateRoutes m c) (fun r s' => forall m', r = Some m' -> Forall (relayable s') (blocks m')) s.
Proof.
  intros Hi Hn Hall. unfold updateRoutes. eapply (evolves_bind _ _ (fun x s' => x = hop /\ s' = s)).
  { unfold getNextHopAddress, names in *. unfold AddressBlock.getAddress.
    destruct (last (additionalNodes m)); cbn in Hn; rewrite Hn; by apply evolves_ret. }
  intros ? ? _ _ [-> ->]. eapply evolves_bind; [apply evolves_calm; [stable|done]|]. intros ifId s1 Hi1 He1 _.
  unfold blocks in Hall. apply Forall_cons in Hall as [Ho Hall]. pose proof Ho as (a & n & d & Hb & _).
  unfold AddressBlock.getAddress. rewrite (bh_address _ _ _ _ Hb). cbn [AddressBlock.read].
  eapply (evolves_bind _ _ (fun x s' => x = a /\ s' = s1)); [by apply evolves_ret|]. intros ? ? _ _ [-> ->].
  eapply (evolves_bind _ _ (fun x s' => x = myAddr s1 /\ s' = s1)); [by apply evolves_gets|]. intros ? ? _ _ [-> ->].
  destruct (Z.eqb_spec a (myAddr s1)) as [|Hne].
  { apply evolves_ret; [done|]. by intros ? [=]. }
  eapply evolves_bind; [apply (update_heard (origNode m) _ hop ifId a); [done|done|apply Hb|done]|]. intros sup s2 Hi2 He2 Hsup.
  eapply evolves_bind; [by apply (update_loop_ok _ _ hop ifId [])|]. intros kept s3 Hi3 He3 Hkept.
  destruct kept as [kept|]; [|apply evolves_ret; [done|by intros ? [=]]].
  destruct sup; cbn [negb]; [|apply evolves_ret; [done|by intros ? [=]]].
  apply evolves_ret; [done|]. intros m' [= <-]. constructor; cbn; [|by apply Hkept].
  apply (relayable_evolve s2); [done|]. by apply Hsup.
Qed.

(** *** Sending *)
Lemma sendDown_ok p dest s : node_inv s -> backed s p -> evolves (sendDown p dest) (fun _ _ => True) s.
Proof.
  intros Hi Hp. unfold sendDown. destruct (byte_length p) as [len|]; [|apply evolves_fail].
  eapply evolves_bind; [apply evolves_calm; [stable|done]|]. intros _ s1 Hi1 He1 _.
  assert (backed s1 p) as Hp1.
  { destruct p as [m| |]; [|done..]. cbn in *. rewrite (ev_me _ _ He1). intros Hn. eapply Forall_impl; [by apply Hp|].
    intros b. apply block_ok_mono; [apply (ev_me _ _ He1)|apply (ev_mono _ _ He1)]. }
  assert (forall a delayed, evolves (on_base (ManetRoutingBase.sendToIp p DYMO_PORT a DYMO_PORT 1 delayed 0)) (fun _ _ => True) s1) as Hsend.
  { intros a delayed r s'. unfold on_base. destruct (ManetRoutingBase.sendToIp _ _ _ _ _ _ _ (base s1)) as [u b'|] eqn:Hrun; [|done].
    intros [= _ <-]. destruct (sendToIp_sends _ _ _ _ _ _ _ _ _ _ Hrun) as [_ (new & Hnew & Hall)].
    split_and!; [by destruct Hi1; split| |done]. split; cbn; try done.
    - intros e He. left. by apply list_elem_of_fmap_2.
    - unfold sent_by. cbn. rewrite Hnew. intros x Hx. apply elem_of_app in Hx as [Hx|Hx]; [by left|right].
      rewrite Forall_forall in Hall. rewrite (Hall x Hx). by destruct p. }
  destruct (_ =? _); apply Hsend.
Qed.

(** The block of the node itself. *)
Lemma ownBlock_ok s : node_inv s ->
  evolves ownBlock (fun b s' => s' = s /\ block_has b (myAddr s) (ownSeqNum s) 0) s.
Proof.
  intros Hi b s' Hrun. pose proof (ni_prefix _ Hi) as Hp. unfold ownBlock, setOwnPrefix, bind, gets, ret in Hrun.
  rewrite Hp in Hrun. cbn in Hrun. injection Hrun as <- <-. pose proof (ni_me _ Hi). pose proof (ni_seq _ Hi).
  split_and!; [done|done|done|]. unfold seq_ok in *.
  split; cbn; rewrite ?u32_small by done; try done. unfold u16. by rewrite Z.mod_small.
Qed.

Lemma own_alone s b n k limit target :
  block_has b (myAddr s) n 0 -> backed s (PRM (mkRM k limit target b [])).
Proof.
  intros Hb _. cbn. constructor; [|done]. exists (myAddr s), n, 0. split; [done|]. by left.
Qed.

Tactic Notation "ev_calm" "as" simple_intropattern(x) :=
  eapply evolves_bind; [apply evolves_calm; [stable|assumption]|]; intros x ? ? ? _.
Tactic Notation "ev_calm" "as" simple_intropattern(x) "at" ident(s2) :=
  eapply evolves_bind; [apply evolves_calm; [stable|assumption]|]; intros x s2 ? ? _.
Tactic Notation "ev_own" "as" simple_intropattern(b) simple_intropattern(H) :=
  eapply evolves_bind; [apply ownBlock_ok; assumption|]; intros b ? ? _ [-> H].
Ltac ev_me := repeat match goal with E : evolve _ ?s |- _ => rewrite (ev_me _ _ E) in * end.

Lemma count_ok f s : node_inv s -> evolves (count f) (fun _ _ => True) s.
Proof. intros. apply evolves_calm; [stable|done]. Qed.
#[local] Hint Resolve count_ok : core.

Lemma send_and_count p dest f s : node_inv s -> backed s p ->
  evolves (sendDown p dest ;;; count f) (fun _ _ => True) s.
Proof. intros Hi Hp. eapply evolves_bind; [by apply sendDown_ok|]. auto. Qed.

Lemma sendRREQ_ok f dest limit n d s : node_inv s -> evolves (sendRREQ f dest limit n d) (fun _ _ => True) s.
Proof.
  intros Hi. unfold sendRREQ. ev_calm as _. ev_own as me Hme. ev_calm as [].
  { by apply evolves_ret. }
  ev_calm as []; cbn [negb]; [|by apply evolves_ret].
  apply send_and_count; [done|]. eapply own_alone. ev_me. eassumption.
Qed.

Lemma sendReply_ok dest n s : node_inv s -> evolves (sendReply dest n) (fun _ _ => True) s.
Proof.
  intros Hi. unfold sendReply. ev_calm as [i|]; [|apply evolves_fail]. ev_calm as entry. ev_calm as own. ev_calm as _.
  ev_own as me Hme. ev_calm as limit. ev_calm as []; [by apply evolves_ret|].
  apply send_and_count; [done|]. eapply own_alone. ev_me. eassumption.
Qed.

Lemma sendRERR_ok a n s : node_inv s -> evolves (sendRERR a n) (fun _ _ => True) s.
Proof.
  intros Hi. unfold sendRERR. ev_calm as limit. ev_calm as i. ev_calm as broken. ev_calm as others. by apply send_and_count.
Qed.

Lemma relay_blocks_ok l s l' s' :
  relay_blocks l s = Ok l' s' -> Forall (relayable s) l -> s' = s /\ Forall (block_ok s) l'.
Proof.
  revert l'. induction l as [|b l IH]; intros l'; cbn [relay_blocks]; [by intros [= <- <-]|].
  intros Hrun Hl. apply Forall_cons in Hl as [(a & n & d & Hb & Ha & Hk) Hl].
  unfold dist_overflows, AddressBlock.incrementDistIfAvailable in Hrun. rewrite (bh_dist _ _ _ _ Hb) in Hrun.
  destruct (Z.leb_spec (0xFF - 1) d) as [|Hd]; [by apply IH|]. apply bind_inv in Hrun as (b' & s1 & H1 & Hrun).
  destruct (Z.eqb_spec d 0xFF); [done|]. injection H1 as <- <-. apply bind_inv in Hrun as (rest & s2 & H2 & Hrun).
  injection Hrun as <- <-. destruct (IH _ H2 Hl) as [-> Hrest]. split; [done|]. constructor; [|done].
  exists a, n, (d + 1). split; [|by right]. pose proof (bh_dist_range _ _ _ _ Hb). destruct Hb. split; try done; cbn; [|lia].
  unfold u8. by rewrite Z.mod_small by lia.
Qed.

Lemma relayed_orig_ok b s b' s' :
  AddressBlock.incrementDistIfAvailable b s = Ok b' s' -> dist_overflows b = false -> relayable s b -> s' = s /\ block_ok s b'.
Proof.
  intros H1 Hd Hb. destruct (relay_blocks_ok [b] s [b'] s') as [? HF]; [|by constructor|].
  - cbn [relay_blocks]. by rewrite Hd, (bind_ok _ _ _ _ _ H1).
  - by apply Forall_cons in HF as [? _].
Qed.

Lemma intermediate_ok orig target e a s :
  node_inv s -> AddressBlock.address orig = Some a -> is_u32 a -> a <> myAddr s ->
  is_u32 (routeAddress e) -> routeAddress e <> myAddr s ->
  evolves (sendReplyAsIntermediateRouter orig target e) (fun _ _ => True) s.
Proof.
  intros Hi Ho Hau Ha Heu He. unfold sendReplyAsIntermediateRouter, AddressBlock.getAddress. rewrite Ho. cbn [AddressBlock.read].
  eapply (evolves_bind _ _ (fun x s' => x = a /\ s' = s)); [by apply evolves_ret|]. intros ? ? _ _ [-> ->].
  ev_calm as [i|]; [|apply evolves_fail]. ev_calm as r. ev_calm as _. ev_calm as limit.
  eapply evolves_bind; [apply evolves_calm; [unfold AddressBlock.getSeqNum; stable|assumption]|]. intros n s5 ? ? _.
  ev_own as me Hme. ev_calm as ta. ev_calm as []; [by apply evolves_ret|]. ev_me.
  eapply evolves_bind; [apply sendDown_ok; [done|]|].
  { cbn. unfold names, set_unless_zero. ev_me. cbn. intros Hn. exfalso. apply He.
    revert Hn. repeat case_match; cbn; rewrite u32_small by done; by intros [= ->]. }
  intros _ s8 ? ? _. apply send_and_count; [done|]. cbn. unfold names. ev_me. cbn. intros Hn. exfalso. apply Ha.
  revert Hn. repeat case_match; cbn; rewrite u32_small by done; by intros [= ->].
Qed.

Lemma sent_relayed k limit target orig l me s :
  block_ok s orig -> Forall (block_ok s) l -> block_has me (myAddr s) (ownSeqNum s) 0 ->
  backed s (PRM (mkRM k limit target orig (l ++ [me]))).
Proof.
  intros Ho Hl Hme _. constructor; [done|]. apply Forall_app. split; [done|]. constructor; [|done].
  exists (myAddr s), (ownSeqNum s), 0. split; [done|by left].
Qed.

Lemma backed_calm s s' p : evolve s s' -> backed s p -> backed s' p.
Proof.
  intros He. destruct p as [m| |]; [|done..]. cbn. rewrite (ev_me _ _ He). intros Hb Hn.
  eapply Forall_impl; [by apply Hb|]. intros b. apply block_ok_mono; [apply (ev_me _ _ He)|apply (ev_mono _ _ He)].
Qed.

Lemma relay_send_ok f k limit target orig l me entry s :
  node_inv s -> backed s (PRM (mkRM k limit target orig (l ++ [me]))) ->
  evolves (let! lost := lost_seqnum in
    if lost then ret tt else
    let! limited := (if bool_decide (k = RREQ) then let! ok := consumeToken f in ret (negb ok) else ret false) in
    if limited then ret tt else
    match k, entry with
    | RREP, None => fail (NullPointer "entry->routeNextHopAddress")
    | RREP, Some e =>
        sendDown (PRM (mkRM k limit target orig (l ++ [me]))) (routeNextHopAddress e) ;;;
        count (fun x => x <| statsRREPFwd := statsRREPFwd x + 1 |>)
    | RREQ, _ =>
        sendDown (PRM (mkRM k limit target orig (l ++ [me]))) LL_MANET_ROUTERS ;;;
        count (fun x => x <| statsRREQFwd := statsRREQFwd x + 1 |>)
    end) (fun _ _ => True) s.
Proof.
  intros Hi Hb. ev_calm as []; [by apply evolves_ret|]. ev_calm as [] at s2; [by apply evolves_ret|].
  assert (backed s2 (PRM (mkRM k limit target orig (l ++ [me])))) as Hb2.
  { eapply backed_calm; [eassumption|]. eapply backed_calm; [eassumption|done]. }
  destruct k; [by apply send_and_count|]. destruct entry; [by apply send_and_count|apply evolves_fail].
Qed.

Lemma lookup_entry_ok i s : node_inv s ->
  evolves (lookup_entry i) (fun r s' => s' = s /\ forall e, r = Some e -> e ∈ routeVector s) s.
Proof.
  intros Hi r s' Hrun. unfold lookup_entry, entry_at, bind, gets in Hrun. destruct i as [i|]; [|by injection Hrun as <- <-].
  destruct (routeVector s !! i) as [e|] eqn:He; [|done]. injection Hrun as <- <-. split_and!; [done|done|done|].
  intros ? [= <-]. apply list_elem_of_lookup. by exists i.
Qed.

Lemma answerOrRelay_ok f m entry s :
  node_inv s -> Forall (relayable s) (blocks m) -> (forall e, entry = Some e -> e ∈ routeVector s) ->
  evolves (answerOrRelay f m entry) (fun _ _ => True) s.
Proof.
  intros Hi Hall Hentry. unfold blocks in Hall. apply Forall_cons in Hall as [Ho Hl].
  pose proof Ho as (a & n & d & Hb & Ha & Hk). unfold answerOrRelay. set (answer := match rm_kind m with RREQ => _ | RREP => None end).
  assert (forall e, answer = Some e -> e ∈ routeVector s) as Hanswer.
  { subst answer. intros e. destruct (rm_kind m); [|done]. destruct entry as [e'|]; [|done].
    destruct (AddressBlock.seqNum (targetNode m)); [|done]. destruct (negb _); [|done]. intros [= <-]. by apply Hentry. }
  clearbody answer. destruct answer as [e|].
  { pose proof (ni_entries _ Hi) as HF. rewrite Forall_forall in HF. destruct (HF e (Hanswer e eq_refl)).
    eapply evolves_bind; [|intros; by apply count_ok].
    apply (intermediate_ok _ _ e a); [done|apply Hb|apply Hb|done..]. }
  destruct (dist_overflows (origNode m)) eqn:Hd; [by apply evolves_ret|].
  eapply (evolves_bind _ _ (fun orig s' => s' = s /\ block_ok s orig)).
  { intros orig s' Hrun. destruct (relayed_orig_ok _ _ _ _ Hrun Hd Ho) as [-> ?]. by split_and!. }
  intros orig ? _ _ [-> Horig]. eapply (evolves_bind _ _ (fun l s' => s' = s /\ Forall (block_ok s) l)).
  { intros l s' Hrun. destruct (relay_blocks_ok _ _ _ _ Hrun Hl) as [-> ?]. by split_and!. }
  intros l ? _ _ [-> Hlk]. ev_calm as _ at s1. ev_own as me Hme. cbn [rm_hopLimit]. destruct (_ <? 1); [by apply evolves_ret|].
  apply relay_send_ok; [done|]. apply sent_relayed; [..|done].
  - by apply (block_ok_mono s); [apply ev_me|apply ev_mono|].
  - eapply Forall_impl; [exact Hlk|]. intros b. by apply block_ok_mono; [apply ev_me|apply ev_mono].
Qed.

Lemma forRelay_ok f m s :
  node_inv s -> Forall (relayable s) (blocks m) -> evolves (handleLowerRMForRelay f m) (fun _ _ => True) s.
Proof.
  intros Hi Hall. unfold handleLowerRMForRelay.
  eapply evolves_bind; [apply evolves_calm; [unfold AddressBlock.getAddress; stable|done]|]. intros ta s1 Hi1 He1 _.
  pose proof (relayable_all _ _ _ He1 Hall) as Hall1.
  eapply (evolves_bind _ _ (fun _ s' => s' = s1)); [by apply evolves_gets|]. intros i ? _ _ ->.
  eapply evolves_bind; [by apply lookup_entry_ok|]. intros found ? _ _ [-> Hfound].
  set (entry := match found with Some e => if routeBroken e then None else Some e | None => None end).
  assert (evolves (answerOrRelay f m entry) (fun _ _ => True) s1) as Hrelay.
  { apply answerOrRelay_ok; [done|done|]. subst entry. intros e. destruct found as [e'|]; [|done].
    destruct (routeBroken e'); [done|]. intros [= <-]. by apply Hfound. }
  destruct (rm_kind m); [done|]. destruct entry; [done|]. by apply sendRERR_ok.
Qed.

Lemma forMe_ok m s : node_inv s -> evolves (handleLowerRMForMe m) (fun _ _ => True) s.
Proof.
  intros Hi. unfold handleLowerRMForMe, AddressBlock.getAddress. destruct (rm_kind m).
  - ev_calm as a. eapply evolves_bind; [by apply sendReply_ok|]. auto.
  - ev_calm as _. ev_calm as a. eapply evolves_bind; [apply evolves_calm; [|done]|].
    { unfold getNextHopAddress, AddressBlock.getAddress. stable. }
    intros _ s3 ? ? _. apply evolves_calm; [stable|done].
Qed.

Lemma handleLowerRM_ok f m c hop s :
  node_inv s -> names m hop -> Forall (heard hop) (blocks m) -> evolves (handleLowerRM f m c) (fun _ _ => True) s.
Proof.
  intros Hi Hn Hall. unfold handleLowerRM. ev_calm as _. eapply evolves_bind; [by apply (updateRoutes_ok m c hop)|].
  intros [m'|] s2 Hi2 He2 Hrel; [|by apply evolves_ret]. specialize (Hrel m' eq_refl). unfold AddressBlock.getAddress.
  ev_calm as ta at s3. ev_calm as me at s4. destruct (_ =? _); [by apply forMe_ok|]. apply forRelay_ok; [done|].
  apply (relayable_all s3); [done|]. by apply (relayable_all s2).
Qed.

Lemma handleLowerRERR_ok m c s : node_inv s -> evolves (handleLowerRERR m c) (fun _ _ => True) s.
Proof.
  intros Hi. unfold handleLowerRERR. ev_calm as _. ev_calm as ifId. ev_calm as fwd. ev_calm as lost.
  destruct (_ || _); [by apply count_ok|]. by apply send_and_count.
Qed.

(** What may be received: messages that name a sender and whose blocks are
    known to come from it. *)
Definition receivable (p : PacketBB) : Prop :=
  match p with PRM m => exists hop, names m hop /\ Forall (heard hop) (blocks m) | _ => True end.

Lemma handleLowerMsg_ok f p c s : node_inv s -> receivable p -> evolves (handleLowerMsg f p c) (fun _ _ => True) s.
Proof.
  intros Hi Hp. destruct p as [m|m|].
  - destruct Hp as (hop & Hn & Hall). by apply (handleLowerRM_ok f m c hop).
  - by apply handleLowerRERR_ok.
  - by apply count_ok.
Qed.

(** *** Timeouts and data packets *)
Lemma rreqTimeout_ok f i s : node_inv s -> evolves (handleRREQTimeout f i) (fun _ _ => True) s.
Proof.
  intros Hi. unfold handleRREQTimeout, outstanding_at. ev_calm as o. ev_calm as c. destruct (_ <? _).
  - ev_calm as k. ev_calm as entry. destruct (match entry with Some _ => _ | None => _ end) as [e|].
    + apply evolves_calm; [stable|done].
    + ev_calm as now. ev_calm as w. unfold set_outstanding. ev_calm as _. ev_calm as _. by apply sendRREQ_ok.
  - apply evolves_calm; [stable|done].
Qed.

Lemma processPacket_ok f d s : node_inv s -> evolves (processPacket f d) (fun _ _ => True) s.
Proof.
  intros Hi. unfold processPacket. ev_calm as i. ev_calm as entry.
  destruct (match entry with Some e => negb (routeBroken e) | None => false end); [apply evolves_fail|].
  ev_calm as []; cbn [negb]; [|by apply sendRERR_ok]. ev_calm as known_.
  eapply (evolves_bind _ _ (fun _ _ => True)); [|intros; apply evolves_calm; [stable|done]]. destruct known_; [by apply evolves_ret|].
  ev_calm as c. eapply evolves_bind; [by apply sendRREQ_ok|]. intros _ s6 ? ? _. apply evolves_calm; [stable|done].
Qed.

(** A timed out request changes no route. *)
Definition same_table s s' : Prop := core <$> routeVector s' = core <$> routeVector s.
#[local] Instance same_table_preorder : PreOrder same_table.
Proof. split; [done|intros ???]. unfold same_table. congruence. Qed.
Lemma calm_same_table {A} (m : Eff t A) : stable calm m -> stable same_table m.
Proof. intros Hm s a s' Hrun. apply (Hm _ _ _ Hrun). Qed.
Lemma on_base_table {A} (m : Eff (ManetRoutingBase.t PacketBB) A) : stable same_table (on_base m).
Proof. intros s a s'. unfold on_base. destruct (m (base s)); [|done]. by intros [= _ <-]. Qed.

Lemma rreqTimeout_same_table f i : stable same_table (handleRREQTimeout f i).
Proof.
  assert (forall A (m : Eff t A), stable calm m -> stable same_table m) as Hw by (intros; by apply calm_same_table).
  assert (forall p a, stable same_table (sendDown p a)) as Hsend.
  { intros p a. unfold sendDown. destruct (byte_length p); [|apply Hw; stable].
    apply stable_bind; [typeclasses eauto|apply Hw; stable|intros _]. destruct (_ =? _); apply on_base_table. }
  assert (forall d l n k, stable same_table (sendRREQ f d l n k)) as Hreq.
  { intros d l n k. unfold sendRREQ. repeat (apply stable_bind; [typeclasses eauto|apply Hw; stable|intros ?]).
    destruct (_ : bool); [apply Hw; stable|]. apply stable_bind; [typeclasses eauto|apply Hw; stable|intros []]; cbn [negb].
    - apply stable_bind; [typeclasses eauto|apply Hsend|intros _; apply Hw; stable].
    - apply Hw; stable. }
  unfold handleRREQTimeout, outstanding_at, set_outstanding.
  do 2 (apply stable_bind; [typeclasses eauto|apply Hw; stable|intros ?]). destruct (_ <? _); [|apply Hw; stable].
  do 2 (apply stable_bind; [typeclasses eauto|apply Hw; stable|intros ?]).
  match goal with |- stable _ (match ?x with _ => _ end) => destruct x end; [apply Hw; stable|].
  do 4 (apply stable_bind; [typeclasses eauto|apply Hw; stable|intros ?]). apply Hreq.
Qed.

Definition shrinks s s' : Prop := (length (routeVector s') < length (routeVector s))%nat.
Definition calm_or_shrinks s s' : Prop := calm s s' \/ shrinks s s'.

Lemma calm_length s s' : calm s s' -> length (routeVector s') = length (routeVector s).
Proof. intros [_ _ _ Ht _]. apply (f_equal length) in Ht. by rewrite !length_fmap in Ht. Qed.

Lemma calm_then {A B} (m : Eff t A) (k : A -> Eff t B) :
  stable calm m -> (forall a, stable calm_or_shrinks (k a)) -> stable calm_or_shrinks (bind m k).
Proof.
  intros Hm Hk s b s' Hrun. apply bind_inv in Hrun as (a & s1 & H1 & H2). pose proof (Hm _ _ _ H1) as Hc.
  destruct (Hk a _ _ _ H2) as [Hc2|Hs]; [left; by transitivity s1|right]. unfold shrinks in *. by rewrite (calm_length _ _ Hc) in Hs.
Qed.
Lemma calm_weaken {A} (m : Eff t A) : stable calm m -> stable calm_or_shrinks m.
Proof. intros Hm s a s' Hrun. left. by apply (Hm _ _ _ Hrun). Qed.

Lemma deleteRoute_shrinks i : stable calm_or_shrinks (deleteRoute i).
Proof.
  intros s a s' Hrun. unfold deleteRoute in Hrun. apply bind_inv in Hrun as (e & s1 & H1 & Hrun).
  unfold entry_at, bind at 1, gets in H1. destruct (routeVector s !! i) as [e'|] eqn:He; [|done]. injection H1 as <- <-.
  apply bind_inv in Hrun as ([] & s2 & H2 & Hrun). injection H2 as <-.
  assert (calm (with_table s (delete i (routeVector s))) s') as Hc.
  { refine (on_base_calm _ _ _ _ _ Hrun). apply deleteIpEntry_stable. }
  right. unfold shrinks. rewrite (calm_length _ _ Hc). cbn. rewrite length_delete by (by exists e').
  apply lookup_lt_Some in He. lia.
Qed.

Lemma timeout_loop_shrinks n i : stable calm_or_shrinks (timeout_loop n i).
Proof.
  revert i. induction n as [|n IH]; intros i; cbn [timeout_loop]; [apply calm_weaken; stable|].
  assert (forall get set, (forall w e, core (set w e) = core e) -> stable calm (expired_at i get set)) as Hexp by (intros; by apply expired_at_calm).
  pose proof (deleteRoute_shrinks i) as Hdel.
  assert (forall (b : RoutingEntry -> bool), stable calm_or_shrinks (let! e := entry_at i in when (b e) (start_delete i))) as Hwhen.
  { intros b. apply calm_weaken. pose proof (start_delete_calm i). stable. }
  apply calm_then; [stable|intros now].
  do 5 (apply calm_then; [apply Hexp; by intros|intros []; [try apply Hdel; try apply Hwhen; apply calm_weaken; stable|]]).
  apply IH.
Qed.

(** Every event either removes a route that has timed out, or keeps the invariant
    and evolves the node. *)
Definition event_receivable (ev : Event) : Prop :=
  match ev with FromNetwork _ (Some p) _ => receivable p | _ => True end.

Lemma handle_ok f ev s s' :
  node_inv s -> event_receivable ev -> handle f ev s = Ok tt s' ->
  shrinks s s' \/ (node_inv s' /\ evolve s s').
Proof.
  intros Hi Hev Hrun. assert (forall m : Eff t unit, evolves m (fun _ _ => True) s -> m s = Ok tt s' -> shrinks s s' \/ (node_inv s' /\ evolve s s')) as Hgo.
  { intros m Hm Hr. destruct (Hm _ _ Hr) as (? & ? & _). by right. }
  destruct ev as [|d|src dest|port p c|d]; cbn [handle] in Hrun.
  - unfold handleSelfMsg in Hrun. apply bind_inv in Hrun as ([] & s1 & H1 & Hrun). pose proof (seqnum_timeout_calm _ _ _ H1) as Hc1.
    apply bind_inv in Hrun as (now & ? & H2 & Hrun). injection H2 as <- <-.
    apply bind_inv in Hrun as (r & ? & H2 & Hrun). injection H2 as <- <-. apply bind_inv in Hrun as ([] & s2 & H2 & Hrun).
    assert (calm s1 s2) as Hc2 by (injection H2 as <-; by split).
    apply bind_inv in Hrun as ([] & s3 & H3 & Hrun).
    assert (node_inv s2) as Hi2 by (apply (calm_inv s1), (calm_inv s); done).
    assert ((node_inv s3 /\ evolve s2 s3) /\ same_table s2 s3) as [[Hi3 He3] Ht3].
    { destruct (fst _); [|by injection H3 as <-]. destruct (rreqTimeout_ok f _ _ Hi2 _ _ H3) as (? & ? & _).
      split; [done|]. by apply (rreqTimeout_same_table _ _ _ _ _ H3). }
    apply bind_inv in Hrun as (n & ? & H4 & Hrun). injection H4 as _ <-.
    destruct (timeout_loop_shrinks _ _ _ _ _ Hrun) as [Hc4|Hs].
    + right. split; [by apply (calm_inv s3)|]. transitivity s3; [|by apply calm_evolve].
      transitivity s2; [|done]. transitivity s1; by apply calm_evolve.
    + left. unfold shrinks in *. apply (f_equal length) in Ht3. rewrite !length_fmap in Ht3.
      rewrite <- (calm_length _ _ Hc1), <- (calm_length _ _ Hc2). lia.
  - by apply (Hgo _ (processPacket_ok f d s Hi)).
  - apply (Hgo (updateRouteLifetimes src ;;; updateRouteLifetimes dest)); [|done]. apply evolves_calm; [stable|done].
  - destruct (negb (port =? DYMO_PORT)); [by injection Hrun as <-; right|]. destruct p as [p|]; [|by injection Hrun as <-; right].
    by apply (Hgo _ (handleLowerMsg_ok f p c s Hi Hev)).
  - destruct d as [d|]; [|by injection Hrun as <-; right]. apply (Hgo _ (evolves_calm _ _ (packetFailed_calm d) Hi) Hrun).
Qed.
End Evolve.
