(* ===== verification/DymoNetwork.v ===== *)
(** * Networks of DYMO nodes

    Nodes that handle events in any order and receive any message another node has
    sent, any number of times and as late as one likes; messages may be lost.  The
    next hops of the routing tables never form a loop, as long as no route is
    deleted and no intermediate router answers a request. *)
From Stdlib Require Import String SpecFloat.
From S2P Require Import Prelude MachineFloat IPAddress InterfaceTable IPDatagram RoutingTable Manet Dymo DymoSpec.
Import DYMO.

Section Network.
Variable SIMTIME_DBL : Z -> spec_float.
Implicit Types (N : gmap Z t) (s : t) (e : RoutingEntry).

Definition at_time (now : Z) s : t := s <| clock := now |>.

(** What arrives was sent by another node. *)
Definition on_air N (i : Z) (ev : Event) : Prop :=
  match ev with
  | FromNetwork _ (Some p) _ => exists j sj x, N !! j = Some sj /\ j <> i /\ x ∈ sent_by sj /\ ManetRoutingBase.snd_msg x = p
  | _ => True
  end.

(** The routing messages a step adds name their sender last; only the answers of
    intermediate routers do not. *)
Definition names_itself (i : Z) s s' : Prop :=
  forall x m, x ∈ sent_by s' -> ManetRoutingBase.snd_msg x = PRM m -> x ∈ sent_by s \/ names m i.

Inductive net_step N : gmap Z t -> Prop :=
| node_step i s now ev s' :
    N !! i = Some s -> on_air N i ev -> handle SIMTIME_DBL ev (at_time now s) = Ok tt s' ->
    ~ shrinks s s' -> names_itself i s s' -> net_step N (<[i := s']> N).

Definition starts N : Prop := forall i s, N !! i = Some s ->
  node_inv s /\ myAddr s = i /\ routeVector s = [] /\ sent_by s = [].

(** ** The invariant *)
(** The next hop of a route is the destination, or has a fresher route to it. *)
Definition hop_ok N e : Prop :=
  routeNextHopAddress e = routeAddress e \/
  exists s', N !! routeNextHopAddress e = Some s' /\ backs s' (routeAddress e) (routeSeqNum e) (routeDist e - 1).

Record member_ok N (i : Z) s : Prop := {
  mo_inv : node_inv s;
  mo_addr : myAddr s = i;
  mo_hops : Forall (hop_ok N) (routeVector s);
  mo_sent x m : x ∈ sent_by s -> ManetRoutingBase.snd_msg x = PRM m -> names m i /\ Forall (block_ok s) (blocks m)
}.
Definition net_inv N : Prop := forall i s, N !! i = Some s -> member_ok N i s.

Lemma starts_inv N : starts N -> net_inv N.
Proof.
  intros Hst i s Hs. destruct (Hst i s Hs) as (Hi & Ha & Ht & Hm). split; [done|done|by rewrite Ht|].
  intros x m Hx. rewrite Hm in Hx. by apply elem_of_nil in Hx.
Qed.

(** What node [i] is told by a message of [j]. *)
Definition told N (i a n d hop : Z) : Prop :=
  exists sj, N !! hop = Some sj /\ hop <> i /\ (a = hop \/ backs sj a n d).

Lemma on_air_receivable N i ev : net_inv N -> on_air N i ev -> event_receivable (told N i) ev.
Proof.
  intros HN. destruct ev as [| | |port [p|] c|]; try done. intros (j & sj & x & Hj & Hne & Hx & Hp).
  cbn. unfold receivable. destruct p as [m| |]; [|done..]. destruct (mo_sent _ _ _ (HN j sj Hj) x m Hx Hp) as [Hn Hall].
  exists j. split; [done|]. eapply Forall_impl; [exact Hall|]. intros b (a & n & d & Hb & Ha).
  exists a, n, d. split; [done|]. exists sj. rewrite (mo_addr _ _ _ (HN j sj Hj)) in Ha. by split_and!.
Qed.

Lemma hop_ok_core N e e' : core e = core e' -> hop_ok N e -> hop_ok N e'.
Proof. intros [= H1 H2 H3 H4 _]. unfold hop_ok. by rewrite H1, H2, H3, H4. Qed.

Lemma hop_ok_step N i s s' e :
  N !! i = Some s -> (forall a n d, backs s a n d -> backs s' a n d) -> hop_ok N e -> hop_ok (<[i := s']> N) e.
Proof.
  intros Hs Hmono [Hh|(sh & Hh & Hb)]; [by left|right]. destruct (decide (i = routeNextHopAddress e)) as [->|Hne].
  - exists s'. rewrite lookup_insert_eq. split; [done|]. apply Hmono. rewrite Hs in Hh. by injection Hh as ->.
  - exists sh. by rewrite lookup_insert_ne.
Qed.

Lemma net_step_inv N N' : net_step N N' -> net_inv N -> net_inv N'.
Proof.
  intros [i s now ev s' Hs Hair Hrun Hkeep Hnames] HN. pose proof (HN i s Hs) as [Hi Ha Hh Hm].
  assert (node_inv (at_time now s)) as Hi0 by (destruct Hi; by split).
  destruct (handle_ok (told N i) SIMTIME_DBL ev (at_time now s) s' Hi0 (on_air_receivable N i ev HN Hair) Hrun)
    as [Hsh|[Hi' He]]; [done|].
  assert (forall a n d, backs s a n d -> backs s' a n d) as Hmono by (intros a n d; apply (ev_mono _ _ _ He)).
  pose proof (ev_me _ _ _ He) as Hme. cbn in Hme.
  intros k sk Hk. destruct (decide (i = k)) as [<-|Hne].
  - rewrite lookup_insert_eq in Hk. injection Hk as <-. split; [done|congruence|..].
    + apply Forall_forall. intros e' He'. destruct (ev_from _ _ _ He e' He') as [Hc|Hl].
      * apply core_entry in Hc as (e & Hin & Hcore). apply (hop_ok_core _ e); [done|].
        apply (hop_ok_step N i s); [done|done|]. rewrite Forall_forall in Hh. by apply Hh.
      * destruct Hl as (sj & Hj & Hji & Hb). destruct Hb as [Hb|Hb]; [by left|right].
        exists sj. by rewrite lookup_insert_ne.
    + intros x m Hx Hxm. destruct (ev_sent _ _ _ He x Hx) as [Hold|Hb].
      * destruct (Hm x m Hold Hxm) as [Hn Hall]. split; [done|]. eapply Forall_impl; [exact Hall|].
        intros b. by apply block_ok_mono.
      * rewrite Hxm in Hb. cbn in Hb. rewrite Hme, Ha in Hb. destruct (Hnames x m Hx Hxm) as [Hold|Hn].
        -- destruct (Hm x m Hold Hxm) as [Hn _]. split; [done|by apply Hb].
        -- split; [done|by apply Hb].
  - rewrite lookup_insert_ne in Hk by done. destruct (HN k sk Hk) as [Hik Hak Hhk Hmk]. split; [done|done| |done].
    eapply Forall_impl; [exact Hhk|]. intros e. by apply (hop_ok_step N i s).
Qed.

Lemma net_run_inv N N' : rtc net_step N N' -> net_inv N -> net_inv N'.
Proof. induction 1 as [|N N1 N2 Hstep _ IH]; [done|]. intros HN. by apply IH, (net_step_inv N). Qed.

(** ** Loops *)
Definition next_hop N (dest i j : Z) : Prop :=
  exists s e, N !! i = Some s /\ e ∈ routeVector s /\ routeAddress e = dest /\ routeNextHopAddress e = j.

Lemma unique_entry s e e' : node_inv s -> e ∈ routeVector s -> e' ∈ routeVector s -> routeAddress e = routeAddress e' -> e = e'.
Proof.
  intros Hi He He' Ha. apply list_elem_of_lookup in He as [k Hk]. apply list_elem_of_lookup in He' as [k' Hk'].
  pose proof (ni_unique _ Hi) as Hu. assert (k = k') as <-; [|congruence].
  eapply NoDup_lookup; [exact Hu|..]; rewrite list_lookup_fmap; [by rewrite Hk|rewrite Hk'; cbn; by rewrite Ha].
Qed.

Lemma at_least_trans e n d n' d' :
  at_least e n d -> (i16 n' < i16 n \/ (n = n' /\ d <= d')) -> at_least e n' d'.
Proof. unfold at_least. intros [H|[-> H]] [H'|[-> H']]; (left; lia) || (right; lia) || (left; congruence). Qed.

Lemma backs_trans s a n d e : backs s a (routeSeqNum e) (routeDist e - 1) -> at_least e n d -> backs s a n d.
Proof.
  intros (x & Hx & Hxa & Hxl) He. exists x. split_and!; [done|done|].
  eapply at_least_trans; [exact Hxl|]. destruct He as [He|[He1 He2]]; [by left|right; lia].
Qed.

Lemma path_fresher N dest i j : net_inv N -> tc (next_hop N dest) i j ->
  exists s e, N !! i = Some s /\ e ∈ routeVector s /\ routeAddress e = dest /\
    (j = dest \/ exists sj, N !! j = Some sj /\ backs sj dest (routeSeqNum e) (routeDist e - 1)).
Proof.
  intros HN. induction 1 as [i j (s & e & Hs & He & Ha & Hj)|i k j (s & e & Hs & He & Ha & Hk) _ IH].
  - exists s, e. split_and!; [done..|]. pose proof (mo_hops _ _ _ (HN i s Hs)) as Hh. rewrite Forall_forall in Hh.
    destruct (Hh e He) as [Hd|(sj & Hsj & Hb)]; [left; congruence|right]. exists sj. by rewrite <- Ha, <- Hj.
  - destruct IH as (sk & ek & Hsk & Hek & Hak & Hrest). exists s, e. split_and!; [done..|].
    pose proof (HN k sk Hsk) as Hkok. pose proof (mo_hops _ _ _ (HN i s Hs)) as Hh. rewrite Forall_forall in Hh.
    destruct (Hh e He) as [Hd|(sk' & Hsk' & Hb)].
    + exfalso. pose proof (ni_entries _ (mo_inv _ _ _ Hkok)) as HF. rewrite Forall_forall in HF.
      destruct (HF ek Hek). rewrite (mo_addr _ _ _ Hkok) in *. congruence.
    + rewrite Hk, Hsk in Hsk'. injection Hsk' as <-. destruct Hb as (x & Hx & Hxa & Hxl).
      assert (x = ek) as -> by (apply (unique_entry sk); [apply Hkok|done|done|congruence]).
      destruct Hrest as [|(sj & Hsj & Hbj)]; [by left|right]. exists sj. split; [done|]. by apply (backs_trans _ _ _ _ ek).
Qed.

(** C3: DYMO is loop free. In a network of DYMO nodes that start with empty tables and
    handle timeouts, data packets, broken links and any messages the others have
    sent, in any order, late or repeatedly or not at all, following the next hops
    towards a destination never leads back to a node, as long as no node deletes a
    route and no intermediate router answers for a destination. *)
Theorem dymo_loop_free N0 N dest i :
  starts N0 -> rtc net_step N0 N -> ~ tc (next_hop N dest) i i.
Proof.
  intros Hst Hrun Hloop. pose proof (net_run_inv _ _ Hrun (starts_inv _ Hst)) as HN.
  destruct (path_fresher N dest i i HN Hloop) as (s & e & Hs & He & Ha & Hend). pose proof (HN i s Hs) as Hok.
  destruct Hend as [->|(s' & Hs' & (x & Hx & Hxa & Hxl))].
  - pose proof (ni_entries _ (mo_inv _ _ _ Hok)) as HF. rewrite Forall_forall in HF. destruct (HF e He).
    by rewrite (mo_addr _ _ _ Hok) in *.
  - rewrite Hs in Hs'. injection Hs' as <-.
    assert (x = e) as -> by (apply (unique_entry s); [apply Hok|done|done|congruence]). destruct Hxl as [Hxl|[_ Hxl]]; lia.
Qed.
End Network.

(** ** A concrete network *)
Definition seconds (ticks : Z) : spec_float := double_of_int ticks.

Definition names_itselfb (i : Z) (s : t) : bool :=
  forallb (fun x => match ManetRoutingBase.snd_msg x with
                    | PRM m => bool_decide (AddressBlock.address (default (origNode m) (last (additionalNodes m))) = Some i)
                    | _ => true end) (sent_by s).

Definition deliver (N : gmap Z t) (i now : Z) (ev : Event) : gmap Z t :=
  match N !! i with
  | Some s => match handle seconds ev (at_time now s) with Ok _ s' => <[i := s']> N | Err _ => N end
  | None => N
  end.
Definition deliverable (N : gmap Z t) (i now : Z) (ev : Event) : bool :=
  match N !! i with
  | Some s => match handle seconds ev (at_time now s) with
              | Ok _ s' => (length (routeVector s) <=? length (routeVector s'))%nat && names_itselfb i s'
              | Err _ => false end
  | None => false
  end.

Lemma deliver_step N i now ev :
  on_air N i ev -> deliverable N i now ev = true -> net_step seconds N (deliver N i now ev).
Proof.
  intros Hair. unfold deliverable, deliver. destruct (N !! i) as [s|] eqn:Hs; [|done].
  destruct (handle seconds ev (at_time now s)) as [[] s'|] eqn:Hrun; [|done].
  rewrite andb_true_iff. intros [Hlen Hn]. apply Nat.leb_le in Hlen.
  apply (node_step seconds N i s now ev s'); [done|done|done|unfold shrinks; lia|].
  intros x m Hx Hm. right. unfold names_itselfb in Hn. rewrite forallb_forall in Hn.
  specialize (Hn x (proj1 (list_elem_of_In _ _) Hx)). rewrite Hm in Hn. by apply bool_decide_eq_true in Hn.
Qed.

Definition wlan (a : Z) : InterfaceEntry :=
  InterfaceEntry_new <| ie_name := "wlan0" |> <| interfaceId := 100 |>
    <| ipv4data := Some (IPv4InterfaceData_new <| inetAddr := a |>) |>.
Definition demo_config : Config :=
  mkConfig (-1) 5 200 5 5 10 5 10 (double_of_int 10) 10 2 3 50 75000.
Definition demo_node (a : Z) : t :=
  let n := mk_Node (InterfaceTable.mk [Some (wlan a)] (-1) None) (RoutingTable_new true) 0 [] in
  match initialize demo_config 0 (ManetRoutingBase.mk n 0 0 [] []) with
  | Ok _ s => s
  | Err _ => mk demo_config 0 (ManetRoutingBase.mk n 0 0 [] []) 0 1 Timer.new Timer.new [] [] (DataQueue.new 50 75000)
               (TokenBucket.new (double_of_int 10) (double_of_int 10) 0) Stats_new
  end.
Definition demo_net : gmap Z t := <[1 := demo_node 1]> (<[2 := demo_node 2]> (<[3 := demo_node 3]> ∅)).

(** The message a node has sent last. *)
Definition last_sent (N : gmap Z t) (j : Z) : option PacketBB :=
  s ← N !! j; ManetRoutingBase.snd_msg <$> last (sent_by s).
Definition receives (N : gmap Z t) (j : Z) : Event := FromNetwork DYMO_PORT (last_sent N j) (mkReceived j 100).

Definition demo_packet : IPDatagram := IPDatagram_new <| destAddress := 3 |> <| byteLength := 100 |>.
Definition demo_net1 : gmap Z t := deliver demo_net 1 1 (NoRoute demo_packet).
Definition demo_net2 : gmap Z t := deliver demo_net1 2 2 (receives demo_net1 1).
Definition demo_net3 : gmap Z t := deliver demo_net2 3 3 (receives demo_net2 2).
Definition demo_net4 : gmap Z t := deliver demo_net3 2 4 (receives demo_net3 3).
Definition demo_net5 : gmap Z t := deliver demo_net4 1 5 (receives demo_net4 2).

Lemma receives_on_air (N : gmap Z t) i j : j <> i -> is_Some (last_sent N j) -> on_air N i (receives N j).
Proof.
  intros Hne [p Hp]. unfold receives. rewrite Hp. unfold last_sent in Hp.
  destruct (N !! j) as [sj|] eqn:Hj; [|done]. cbn in Hp. destruct (last (sent_by sj)) as [x|] eqn:Hx; [|done].
  injection Hp as <-. exists j, sj, x. split_and!; [done|done| |done]. by apply last_Some_elem_of.
Qed.

Lemma demo_starts : starts demo_net.
Proof.
  assert (forall a, is_u32 a -> node_inv (demo_node a) /\ myAddr (demo_node a) = a /\
    routeVector (demo_node a) = [] /\ sent_by (demo_node a) = []) as Hnode.
  { intros a Ha. split_and!; [|reflexivity..]. split; [reflexivity|exact Ha|split; [discriminate|reflexivity]|apply NoDup_nil_2|constructor]. }
  intros i s Hs. unfold demo_net in Hs.
  apply lookup_insert_Some in Hs as [[<- <-]|[_ Hs]]; [by apply Hnode|].
  apply lookup_insert_Some in Hs as [[<- <-]|[_ Hs]]; [by apply Hnode|].
  apply lookup_insert_Some in Hs as [[<- <-]|[_ Hs]]; [by apply Hnode|]. by rewrite lookup_empty in Hs.
Qed.

Lemma demo_run : rtc (net_step seconds) demo_net demo_net5.
Proof.
  eapply rtc_l; [apply (deliver_step demo_net 1 1 (NoRoute demo_packet)); [exact I|vm_compute; reflexivity]|].
  eapply rtc_l; [apply (deliver_step demo_net1 2 2 (receives demo_net1 1)); [apply receives_on_air; [done|vm_compute; eexists; reflexivity]|vm_compute; reflexivity]|].
  eapply rtc_l; [apply (deliver_step demo_net2 3 3 (receives demo_net2 2)); [apply receives_on_air; [done|vm_compute; eexists; reflexivity]|vm_compute; reflexivity]|].
  eapply rtc_l; [apply (deliver_step demo_net3 2 4 (receives demo_net3 3)); [apply receives_on_air; [done|vm_compute; eexists; reflexivity]|vm_compute; reflexivity]|].
  apply rtc_once. apply (deliver_step demo_net4 1 5 (receives demo_net4 2)); [apply receives_on_air; [done|vm_compute; eexists; reflexivity]|vm_compute; reflexivity].
Qed.

(** The request of node 1 reaches node 3 over node 2, the reply comes back, and the
    packet that waited at node 1 goes on its way. *)
Lemma demo_discovers :
  (fun s => (core <$> routeVector s, DataQueue.reinjected (queuedDataPackets s))) <$> (demo_net5 !! 1) =
  Some ([(3, 2, 2, 2, 32); (2, 3, 2, 1, 32)], [demo_packet]).
Proof. vm_compute. reflexivity. Qed.

Lemma dymo_loop_free_witness :
  next_hop demo_net5 3 1 2 /\ next_hop demo_net5 3 2 3 /\ ~ tc (next_hop demo_net5 3) 1 1.
Proof.
  split; [|split].
  - eexists _, _. split; [vm_compute; reflexivity|]. split; [apply list_elem_of_here|]. split; reflexivity.
  - eexists _, _. split; [vm_compute; reflexivity|]. split; [apply list_elem_of_further, list_elem_of_here|]. split; reflexivity.
  - apply (dymo_loop_free seconds demo_net demo_net5 3 1 demo_starts demo_run).
Defined.
