(* ===== verification/DymoTables.v ===== *)
(** * DYMO's tables and queues

    The queue of packets that wait for a route, the sequence numbers and the way the
    DYMO routing table is written into the routing table of IP. *)
From Stdlib Require Import String SpecFloat.
From S2P Require Import Prelude MachineFloat IPAddress InterfaceTable IPDatagram RoutingTable RoutingSpec RouteHeap Manet Dymo DymoSpec DymoNetwork.

(** ** The queue of data packets *)
Section DataQueue.
Import DataQueue.
Implicit Types (q : t) (d : IPDatagram).

Definition bytes (l : list IPDatagram) : Z := foldr (fun d n => byteLength d + n) 0 l.

Lemma bytes_app l l' : bytes (l ++ l') = bytes l + bytes l'.
Proof. unfold bytes. induction l as [|d l IH]; cbn [app foldr]; [done|]. lia. Qed.
Lemma bytes_nonneg l : Forall (fun d => 0 <= byteLength d) l -> 0 <= bytes l.
Proof. unfold bytes. induction 1; cbn [foldr]; lia. Qed.

(** The byte count is right; a limit of -1 stands for no limit. *)
Record queue_inv q : Prop := {
  qi_bytes : dataQueueByteSize q = bytes (dataQueue q);
  qi_lengths : Forall (fun d => 0 <= byteLength d) (dataQueue q);
  qi_limits : -1 <= BUFFER_SIZE_PACKETS q /\ -1 <= BUFFER_SIZE_BYTES q
}.

Definition fits q (l : list IPDatagram) : Prop :=
  (BUFFER_SIZE_PACKETS q <> -1 -> Z.of_nat (length l) <= BUFFER_SIZE_PACKETS q) /\
  (BUFFER_SIZE_BYTES q <> -1 -> bytes l <= BUFFER_SIZE_BYTES q).

Lemma over_limit_spec q : queue_inv q -> over_limit q = false <-> fits q (dataQueue q).
Proof.
  intros [Hb _ _]. unfold over_limit, fits. rewrite Hb.
  destruct (Z.eqb_spec (BUFFER_SIZE_PACKETS q) (-1)), (Z.eqb_spec (BUFFER_SIZE_BYTES q) (-1));
    cbn [negb andb orb]; rewrite ?orb_false_iff, ?Z.ltb_ge; intuition lia.
Qed.

(** What is kept is the longest part of the newest packets that fits. *)
Lemma drop_loop_run rounds q :
  queue_inv q -> (length (dataQueue q) < rounds)%nat ->
  exists dropped q', drop_loop rounds q = Ok tt q' /\ dataQueue q = dropped ++ dataQueue q' /\ queue_inv q' /\
    fits q (dataQueue q') /\ reinjected q' = reinjected q /\
    forall older d, dropped = older ++ [d] -> ~ fits q (d :: dataQueue q').
Proof.
  revert q. induction rounds as [|rounds IH]; intros q Hi Hr; [lia|]. cbn [drop_loop].
  destruct (over_limit q) eqn:Hover.
  - destruct (dataQueue q) as [|d rest] eqn:Hq.
    + exfalso. destruct Hi as [Hb _ [Hp Hy]]. rewrite Hq in Hb. cbn in Hb. unfold over_limit in Hover. rewrite Hb, Hq in Hover. cbn in Hover.
      destruct (Z.eqb_spec (BUFFER_SIZE_PACKETS q) (-1)), (Z.eqb_spec (BUFFER_SIZE_BYTES q) (-1)); cbn in Hover;
        rewrite ?orb_true_iff, ?Z.ltb_lt in Hover; intuition lia.
    + set (q1 := q <| dataQueue := rest |> <| dataQueueByteSize := dataQueueByteSize q - byteLength d |>).
      assert (queue_inv q1) as Hi1.
      { destruct Hi as [Hb Hl Hlim]. rewrite Hq in Hb, Hl. split; cbn; [cbn in Hb; lia|by apply Forall_cons in Hl as [_ ?]|done]. }
      destruct (IH q1 Hi1) as (dropped & q' & Hrun & Hsplit & Hi' & Hfits & Hre & Hmax); [cbn in *; lia|].
      exists (d :: dropped), q'. cbn in Hsplit. split_and!; [done|by rewrite Hsplit|done|done|done|].
      intros [|o older] x Heq Hx; cbn in Heq.
      * injection Heq as -> ->. assert (over_limit q = false) as Hno; [|congruence].
        apply (over_limit_spec q Hi). rewrite Hq. by rewrite Hsplit.
      * injection Heq as -> ->. by apply (Hmax older x).
  - exists [], q. split_and!; [done|done|done| |done|by intros [|? ?] ? ?]. by apply over_limit_spec.
Qed.

(** The packets that match are taken out in their order, the others stay in theirs. *)
Lemma take_match_spec a prefix l :
  match take_match a prefix l with
  | Some (d, rest) => exists l1 l2, l = l1 ++ d :: l2 /\ rest = l1 ++ l2 /\
      IPAddress.prefixMatches (destAddress d) a prefix = true /\
      Forall (fun x => IPAddress.prefixMatches (destAddress x) a prefix = false) l1
  | None => Forall (fun x => IPAddress.prefixMatches (destAddress x) a prefix = false) l
  end.
Proof.
  induction l as [|d l IH]; cbn [take_match]; [done|]. destruct (IPAddress.prefixMatches (destAddress d) a prefix) eqn:Hm.
  - exists [], l. by split_and!.
  - destruct (take_match a prefix l) as [[x rest]|]; [|by constructor].
    destruct IH as (l1 & l2 & -> & -> & Hx & Hl). exists (d :: l1), l2. split_and!; [done|done|done|by constructor].
Qed.

Definition for_dest (a prefix : Z) d : Prop := IPAddress.prefixMatches (destAddress d) a prefix = true.
#[global] Instance for_dest_dec a prefix d : Decision (for_dest a prefix d).
Proof. unfold for_dest. apply _. Defined.

Lemma reinject_loop_run rounds a prefix accept q :
  queue_inv q -> (length (dataQueue q) < rounds)%nat ->
  exists q', reinject_loop rounds a prefix accept q = Ok tt q' /\ queue_inv q' /\
    dataQueue q' = filter (fun d => ~ for_dest a prefix d) (dataQueue q) /\
    reinjected q' = reinjected q ++ (if accept then filter (for_dest a prefix) (dataQueue q) else []).
Proof.
  revert q. induction rounds as [|rounds IH]; intros q Hi Hr; [lia|]. cbn [reinject_loop].
  pose proof (take_match_spec a prefix (dataQueue q)) as Hm. destruct (take_match a prefix (dataQueue q)) as [[d rest]|].
  - destruct Hm as (l1 & l2 & Hl & -> & Hd & Hl1).
    set (q1 := q <| dataQueue := l1 ++ l2 |> <| dataQueueByteSize := dataQueueByteSize q - byteLength d |>
                 <| reinjected := if accept then reinjected q ++ [d] else reinjected q |>).
    assert (queue_inv q1) as Hi1.
    { destruct Hi as [Hb HF Hlim]. rewrite Hl in Hb, HF. apply Forall_app in HF as [? HF]. apply Forall_cons in HF as [? ?].
      split; [|by apply Forall_app|done]. change (dataQueueByteSize q - byteLength d = bytes (l1 ++ l2)).
      rewrite bytes_app in *. change (bytes (d :: l2)) with (byteLength d + bytes l2) in Hb. lia. }
    destruct (IH q1 Hi1) as (q' & Hrun & Hi' & Hq' & Hre'). { cbn. rewrite Hl, length_app in Hr. rewrite length_app. cbn in Hr. lia. }
    exists q'. assert (filter (for_dest a prefix) l1 = []) as Hnone.
    { apply filter_nothing. eapply Forall_impl; [exact Hl1|]. unfold for_dest. congruence. }
    split_and!; [done|done|..].
    + rewrite Hq', Hl. cbn. rewrite !filter_app, filter_cons_False; [done|]. intros Hn. by apply Hn.
    + rewrite Hre', Hl. cbn. destruct accept; [|done]. by rewrite !filter_app, filter_cons_True, Hnone, <- app_assoc.
  - exists q. split_and!; [done|done|..].
    + symmetry. apply filter_all. eapply Forall_impl; [exact Hm|]. unfold for_dest. congruence.
    + rewrite (filter_nothing (for_dest a prefix)); [by destruct accept; rewrite app_nil_r|].
      eapply Forall_impl; [exact Hm|]. unfold for_dest. congruence.
Qed.

(** Packets wait for a route within the limits. A queued packet is put behind the
    others and the oldest ones are dropped, as few as the limits allow; when a route
    is found, exactly the packets it is for are sent on, in their order, and the
    others keep theirs; no operation fails and the byte count stays right. *)
Theorem dymo_queue_correct q d a prefix accept :
  queue_inv q -> 0 <= byteLength d ->
  (exists dropped q', queuePacket d q = Ok tt q' /\ queue_inv q' /\ dataQueue q ++ [d] = dropped ++ dataQueue q' /\
     fits q (dataQueue q') /\ reinjected q' = reinjected q /\
     (forall older x, dropped = older ++ [x] -> ~ fits q (x :: dataQueue q'))) /\
  (exists q', reinjectDatagramsTo a prefix accept q = Ok tt q' /\ queue_inv q' /\
     dataQueue q' = filter (fun x => ~ for_dest a prefix x) (dataQueue q) /\
     reinjected q' = reinjected q ++ (if accept then filter (for_dest a prefix) (dataQueue q) else [])).
Proof.
  intros Hi Hd. split.
  - unfold queuePacket. set (q1 := q <| dataQueue := _ |> <| dataQueueByteSize := _ |>).
    assert (queue_inv q1) as Hi1.
    { destruct Hi as [Hb Hl Hlim]. split; [|apply Forall_app; split; [done|by constructor]|done].
      change (dataQueueByteSize q + byteLength d = bytes (dataQueue q ++ [d])). rewrite bytes_app, Hb.
      change (bytes [d]) with (byteLength d + 0). lia. }
    destruct (drop_loop_run (S (length (dataQueue q1))) q1 Hi1 ltac:(lia)) as (dropped & q' & Hrun & Hsplit & Hi' & Hf & Hre & Hmax).
    exists dropped, q'. by split_and!.
  - destruct (reinject_loop_run (S (length (dataQueue q))) a prefix accept q Hi ltac:(lia)) as (q' & ? & ? & ? & ?).
    by exists q'.
Qed.
End DataQueue.

Definition waiting (a len : Z) : IPDatagram := IPDatagram_new <| destAddress := a |> <| byteLength := len |>.
Definition small_queue : DataQueue.t := DataQueue.mk [waiting 1 40; waiting 2 50] 90 2 (-1) [].

Lemma dymo_queue_correct_witness :
  (exists q', DataQueue.queuePacket (waiting 1 60) small_queue = Ok tt q' /\ DataQueue.dataQueue q' = [waiting 2 50; waiting 1 60]) /\
  (exists q', DataQueue.reinjectDatagramsTo 2 32 true small_queue = Ok tt q' /\ DataQueue.reinjected q' = [waiting 2 50]).
Proof.
  destruct (dymo_queue_correct small_queue (waiting 1 60) 2 32 true) as [(dropped & q1 & H1 & _) (q2 & H2 & _ & _ & H3)].
  - split; [reflexivity|repeat constructor; discriminate|split; discriminate].
  - discriminate.
  - split; [exists q1|exists q2]; (split; [assumption|]).
    + revert H1. vm_compute. intros [= <-]. reflexivity.
    + revert H3. vm_compute. intros ->. reflexivity.
Defined.

(** ** The routing table of IP *)
Section IPRoutes.
Implicit Types (n : Node) (p : positive) (e : IPRoute) (l : list positive).

(** *** Deleting the routes to a destination *)
Definition above (k : nat) n (dst : Z) : Prop :=
  forall j p e, (k <= j)%nat -> all_routes n !! j = Some p -> heap (rt n) !! p = Some e -> host e <> dst.

Lemma chg_delete_run k dst n : pointers_ok n -> (k <= length (all_routes n))%nat -> above k n dst ->
  exists n', ManetRoutingBase.chg_loop k dst true None n = Ok None n' /\ pointers_ok n' /\
    forall p e, has n' p e <-> has n p e /\ host e <> dst.
Proof.
  revert n. induction k as [|k IH]; intros n Hok Hk Hab; cbn [ManetRoutingBase.chg_loop].
  { exists n. split_and!; [done|done|]. intros p e. split; [|by intros [? _]]. intros Hh. split; [done|].
    destruct Hh as [Hp He]. apply list_elem_of_lookup in Hp as [j Hj]. apply (Hab j p e); [lia|done|done]. }
  rewrite (bind_ok _ _ _ _ _ (getRoute_run n k)).
  destruct (lookup_lt_is_Some_2 (all_routes n) k Hk) as [p Hp]. rewrite Hp.
  assert (p ∈ all_routes n) as Hin by (apply list_elem_of_lookup; by exists k).
  destruct (po_heap _ Hok p Hin) as [e He]. rewrite (bind_ok _ _ _ _ _ (deref_run _ _ _ He)).
  destruct (Z.eqb_spec (host e) dst) as [Hd|Hd].
  - rewrite bool_decide_eq_true_2 by done. cbn [andb].
    destruct (deleteRoute_run n p e Hok (conj Hin He)) as (n1 & Hdel & Hr1 & Hh1 & Hn1). rewrite (bind_ok _ _ _ _ _ Hdel).
    destruct (deleteRoute_frame n n1 p Hok Hr1 Hh1 Hn1) as [Hok1 Hhas1].
    rewrite (remove_first_delete p k) in Hr1; [|apply Hok|done].
    destruct (IH n1 Hok1) as (n' & Hrun & Hok' & Hhas').
    + rewrite Hr1, length_delete by (by exists p). lia.
    + intros j q x Hj Hq Hx. rewrite Hr1, list_lookup_delete_ge in Hq by lia. rewrite Hh1 in Hx.
      assert (heap (rt n) !! q = Some x) as Hx' by (by apply lookup_delete_Some in Hx as [_ ?]).
      apply (Hab (S j) q x); [lia|done|done].
    + exists n'. split_and!; [done|done|]. intros q x. rewrite Hhas', Hhas1. split; [naive_solver|].
      intros [Hq Hx]. split_and!; [done| |done]. intros ->. destruct Hq as [_ Hq]. congruence.
  - apply IH; [done|lia|]. intros j q x Hj Hq Hx. destruct (decide (j = k)) as [->|]; [congruence|]. apply (Hab j q x); [lia|done|done].
Qed.

(** *** Finding a route to a destination *)
Lemma chg_find_run k dst found n : pointers_ok n -> (k <= length (all_routes n))%nat ->
  exists r, ManetRoutingBase.chg_loop k dst false found n = Ok r n /\
    match r with
    | Some p => found = Some p \/ exists e, has n p e /\ host e = dst
    | None => found = None /\ forall j p e, (j < k)%nat -> all_routes n !! j = Some p -> heap (rt n) !! p = Some e -> host e <> dst
    end.
Proof.
  intros Hok. revert found. induction k as [|k IH]; intros found Hk; cbn [ManetRoutingBase.chg_loop].
  { exists found. split; [done|]. destruct found; [by left|]. split; [done|lia]. }
  rewrite (bind_ok _ _ _ _ _ (getRoute_run n k)).
  destruct (lookup_lt_is_Some_2 (all_routes n) k Hk) as [p Hp]. rewrite Hp.
  assert (p ∈ all_routes n) as Hin by (apply list_elem_of_lookup; by exists k).
  destruct (po_heap _ Hok p Hin) as [e He]. rewrite (bind_ok _ _ _ _ _ (deref_run _ _ _ He)).
  destruct (Z.eqb_spec (host e) dst) as [Hd|Hd]; cbn [andb].
  - destruct (IH (Some p) ltac:(lia)) as (r & Hrun & Hr). exists r. split; [done|]. destruct r as [q|]; [|by destruct Hr].
    destruct Hr as [[= <-]|Hr]; right; [by exists e|done].
  - destruct (IH found ltac:(lia)) as (r & Hrun & Hr). exists r. split; [done|]. destruct r as [q|]; [done|].
    destruct Hr as [-> Hr]. split; [done|]. intros j q x Hj Hq Hx.
    destruct (decide (j = k)) as [->|]; [congruence|]. apply (Hr j q x); [lia|done|done].
Qed.

(** *** Writing a route *)
Lemma write_route_frame n p f e : pointers_ok n -> has n p e ->
  exists n', ManetRoutingBase.write_route p f n = Ok tt n' /\ pointers_ok n' /\ has n' p (f e) /\
    forall q x, q <> p -> has n' q x <-> has n q x.
Proof.
  intros Hok [Hp He]. unfold ManetRoutingBase.write_route. rewrite (bind_ok _ _ _ _ _ (deref_run _ _ _ He)).
  eexists. split; [reflexivity|]. destruct Hok as [Hnd Hheap Hfr]. split_and!.
  - split; cbn; [done| |done]. intros q Hq. destruct (decide (q = p)) as [->|Hne].
    + rewrite lookup_alter_eq. by rewrite He.
    + rewrite lookup_alter_ne by done. by apply Hheap.
  - split; [done|]. cbn. by rewrite lookup_alter_eq, He.
  - intros q x Hne. unfold has. cbn. by rewrite lookup_alter_ne.
Qed.
End IPRoutes.

Section BaseRoutes.
Import ManetRoutingBase.
Context {P : Type}.
Implicit Types (s : t P).

Lemma getNumRoutes_run s : on_node getNumRoutes s = Ok (length (all_routes (node s))) s.
Proof. unfold on_node, getNumRoutes, get_rt, gets, all_routes. rewrite length_app. by destruct s. Qed.

Lemma deleteIpEntry_run s dst : pointers_ok (node s) ->
  exists n', deleteIpEntry dst s = Ok tt (s <| node := n' |>) /\ pointers_ok n' /\
    forall p e, has n' p e <-> has (node s) p e /\ host e <> dst.
Proof.
  intros Hok. unfold deleteIpEntry, omnet_chg_rte. rewrite (bind_ok _ _ _ _ _ (getNumRoutes_run s)).
  destruct (chg_delete_run (length (all_routes (node s))) dst (node s) Hok) as (n' & Hrun & Hok' & Hhas).
  { lia. }
  { intros j p e Hj Hp. apply lookup_lt_Some in Hp. lia. }
  exists n'. split_and!; [|done|done]. unfold bind, on_node. by rewrite Hrun.
Qed.

(** The route to [dst] over the first wireless interface. *)
Definition manet_entry (dst gtwy netm hops : Z) (i : option Z) (e : IPRoute) : Prop :=
  exists e0, e = manet_route dst gtwy netm hops i e0.

Lemma setIpEntry_run s dst gtwy netm hops :
  pointers_ok (node s) -> interfaceVector s <> [] -> dst <> 0 -> netm <> 0 ->
  exists n' i p e, setIpEntry dst gtwy netm hops s = Ok tt (s <| node := n' |>) /\ pointers_ok n' /\
    has n' p e /\ manet_entry dst gtwy netm hops i e /\
    forall q x, host x <> dst -> has n' q x <-> has (node s) q x.
Proof.
  intros Hok Hv Hdst Hnetm. unfold setIpEntry, omnet_chg_rte. rewrite (bind_ok _ _ _ _ _ (getNumRoutes_run s)).
  destruct (chg_find_run (length (all_routes (node s))) dst None (node s) Hok) as (r & Hrun & Hr); [lia|].
  destruct (interfaceVector s) as [|v vs] eqn:Hvec; [done|].
  assert (getInterfaceWlanByAddress 0 s = Ok (Some (interfacePtr v)) s) as Hwlan.
  { unfold getInterfaceWlanByAddress, first_wlan, bind, gets. cbn. by rewrite Hvec. }
  assert (on_node (chg_loop (length (all_routes (node s))) dst false None) s = Ok r s) as Hloop.
  { unfold on_node. rewrite Hrun. by destruct s. }
  rewrite (bind_ok _ _ _ _ _ Hloop), (bind_ok _ _ _ _ _ Hwlan). set (i := Some (interfacePtr v)).
  destruct r as [p|].
  - destruct Hr as [[=]|(e & He & Hd)].
    destruct (write_route_frame (node s) p (manet_route dst gtwy netm hops i) e Hok He) as (n' & Hw & Hok' & Hp & Hframe).
    exists n', i, p. eexists. split_and!; [unfold on_node; by rewrite Hw|done|exact Hp|by exists e|].
    intros q x Hx. destruct (decide (q = p)) as [->|Hne]; [|by apply Hframe]. split; intros [Hin Hq].
    + destruct Hp as [_ Hp]. rewrite Hp in Hq. injection Hq as <-. done.
    + destruct He as [_ He]. rewrite He in Hq. injection Hq as <-. done.
  - destruct Hr as [_ Hnone].
    destruct (addRoute_run (node s) (manet_route dst gtwy netm hops i IPRoute_new) (interfacePtr v) Hok) as (p & n' & Ha & Hok' & Hnew & Hhas).
    { done. }
    { cbn. by rewrite (proj2 (Z.eqb_neq netm 0)). }
    { done. }
    exists n', i, p. eexists. split_and!; [unfold bind, on_node; by rewrite Ha|done|apply Hhas; by right|by eexists|].
    intros q x Hx. rewrite Hhas. split; [intros [?|[-> ->]]; [done|by destruct Hx]|by left].
Qed.
End BaseRoutes.

(** ** The DYMO table in the routing table of IP *)
Section Mirror.
Import DYMO.
Implicit Types (s : t) (n : Node) (e : RoutingEntry).

(** IP has the route of a valid entry, and no route for a broken one. *)
Definition mirrored n e : Prop :=
  if routeBroken e then forall p r, has n p r -> host r <> routeAddress e
  else exists p r i, has n p r /\
    manet_entry (routeAddress e) (routeNextHopAddress e) IPAddress.ALLONES_ADDRESS (routeDist e) i r.

Lemma mirrored_frame n n' e :
  (forall p r, host r = routeAddress e -> has n' p r <-> has n p r) -> mirrored n e -> mirrored n' e.
Proof.
  intros Hf. unfold mirrored. destruct (routeBroken e).
  - intros Hm p r Hp Hh. apply (Hm p r); [by apply Hf|done].
  - intros (p & r & i & Hp & Hr). exists p, r, i. split; [|done]. apply Hf; [|done]. by destruct Hr as [r0 ->].
Qed.

Definition with_node s n : t := s <| base := (base s) <| ManetRoutingBase.node := n |> |>.

Lemma maintain_entry_run s e :
  pointers_ok (ManetRoutingBase.node (base s)) -> ManetRoutingBase.interfaceVector (base s) <> [] -> routeAddress e <> 0 ->
  exists n', maintainAssociatedRoutingEntryFor e s = Ok tt (with_node s n') /\ pointers_ok n' /\ mirrored n' e /\
    forall p r, host r <> routeAddress e -> has n' p r <-> has (ManetRoutingBase.node (base s)) p r.
Proof.
  intros Hok Hv Ha. unfold maintainAssociatedRoutingEntryFor, mirrored, on_base. destruct (routeBroken e); cbn [negb].
  - destruct (deleteIpEntry_run (base s) (routeAddress e) Hok) as (n' & Hrun & Hok' & Hhas). rewrite Hrun.
    exists n'. split_and!; [done|done|intros p r Hp; by apply Hhas in Hp as [_ ?]|]. intros p r Hr. rewrite Hhas. naive_solver.
  - destruct (setIpEntry_run (base s) (routeAddress e) (routeNextHopAddress e) IPAddress.ALLONES_ADDRESS (routeDist e))
      as (n' & i & p & r & Hrun & Hok' & Hp & Hr & Hframe); [done|done|done|done|]. rewrite Hrun.
    exists n'. split_and!; [done|done|by exists p, r, i|done].
Qed.

Lemma maintain_list_run l s :
  pointers_ok (ManetRoutingBase.node (base s)) -> ManetRoutingBase.interfaceVector (base s) <> [] ->
  Forall (fun e => routeAddress e <> 0) l -> NoDup (routeAddress <$> l) ->
  exists n' us, mapE maintainAssociatedRoutingEntryFor l s = Ok us (with_node s n') /\ pointers_ok n' /\ Forall (mirrored n') l /\
    forall p r, host r ∉ routeAddress <$> l -> has n' p r <-> has (ManetRoutingBase.node (base s)) p r.
Proof.
  revert s. induction l as [|e l IH]; intros s Hok Hv Hz Hnd.
  { exists (ManetRoutingBase.node (base s)), []. split_and!; [|done|done|done].
    cbn. unfold ret, with_node. f_equal. destruct s as [? ? b]. by destruct b. }
  apply Forall_cons in Hz as [Hz Hzs]. cbn in Hnd. apply NoDup_cons in Hnd as [Hnew Hnd].
  destruct (maintain_entry_run s e Hok Hv Hz) as (n1 & H1 & Hok1 & Hm1 & Hf1).
  destruct (IH (with_node s n1) Hok1 Hv Hzs Hnd) as (n2 & us & H2 & Hok2 & Hm2 & Hf2).
  exists n2, (tt :: us). split_and!.
  - cbn [mapE]. rewrite (bind_ok _ _ _ _ _ H1), (bind_ok _ _ _ _ _ H2). done.
  - done.
  - constructor; [|done]. apply (mirrored_frame n1); [|done]. intros p r Hr. apply Hf2. by rewrite Hr.
  - intros p r Hr. cbn in Hr. apply not_elem_of_cons in Hr as [Hr1 Hr2]. rewrite Hf2 by done. by apply Hf1.
Qed.

(** C32: IP forwards by the DYMO table. Whenever DYMO writes its routing table through to
    the routing table of IP, IP ends with a host route to the next hop of every valid
    entry and with no route to the destination of a broken one, routes to other
    destinations are left alone, and nothing fails. *)
Theorem dymo_table_mirrored s :
  pointers_ok (ManetRoutingBase.node (base s)) -> ManetRoutingBase.interfaceVector (base s) <> [] ->
  Forall (fun e => routeAddress e <> 0) (routeVector s) -> NoDup (routeAddress <$> routeVector s) ->
  exists n', maintainAssociatedRoutingTable s = Ok tt (with_node s n') /\ pointers_ok n' /\
    Forall (mirrored n') (routeVector s) /\
    forall p r, host r ∉ routeAddress <$> routeVector s -> has n' p r <-> has (ManetRoutingBase.node (base s)) p r.
Proof.
  intros Hok Hv Hz Hnd. destruct (maintain_list_run (routeVector s) s Hok Hv Hz Hnd) as (n' & us & Hrun & Hok' & Hm & Hf).
  exists n'. split_and!; [|done|done|done]. unfold maintainAssociatedRoutingTable. unfold bind at 1, gets.
  by rewrite (bind_ok _ _ _ _ _ Hrun).
Qed.

(** ** Sequence numbers *)
(** Sequence numbers do not survive a rollover. The comparison is of signed 16 bit
    numbers, so once a node's own number has passed 0x7fff, everything it announces
    about itself is taken for older than what the others know, and ignored. *)
Theorem seqnum_rollover_ignored s e b isRREQ hop ifId (a n d : Z) :
  node_inv s -> e ∈ routeVector s -> routeAddress e = a -> routeSeqNum e <= 0x7fff ->
  block_has b a n d -> 0x8000 <= n ->
  updateRoutesFromAddressBlock b isRREQ hop ifId s = Ok false s.
Proof.
  intros Hi He Ha Hold Hb Hnew. unfold updateRoutesFromAddressBlock, AddressBlock.getAddress. rewrite (bh_address _ _ _ _ Hb).
  unfold bind at 1, AddressBlock.read, ret at 1. unfold bind at 1, getForAddress, gets.
  pose proof (getForAddress_spec s a Hi) as Hf. destruct (RoutingTable_.getForAddress a (routeVector s)) as [i|]; [|by destruct (Hf e He)].
  destruct Hf as (e' & He' & Ha'). unfold lookup_entry. unfold bind at 1 2. rewrite (dymo_entry_at _ _ _ He'). unfold ret at 1.
  assert (e' = e) as ->.
  { apply list_elem_of_lookup in He as [j Hj]. pose proof (ni_unique _ Hi) as Hu. assert (i = j) as <-; [|congruence].
    eapply NoDup_lookup; [exact Hu|..]; rewrite list_lookup_fmap; [by rewrite He'|rewrite Hj; cbn; by rewrite Ha, Ha']. }
  pose proof (ni_entries _ Hi) as HF. rewrite Forall_forall in HF. destruct (HF e He) as [_ _ _ Hseq _].
  pose proof (bh_seq_range _ _ _ _ Hb). unfold isRBlockBetter, AddressBlock.getSeqNum. rewrite (bh_seqNum _ _ _ _ Hb).
  unfold seqNumIsFresher, AddressBlock.read, bind, ret. assert (i16 n - i16 (routeSeqNum e) < 0) as Hlt by (unfold i16; lia).
  apply Z.ltb_lt in Hlt. by rewrite Hlt.
Qed.
End Mirror.

Definition one_route (broken : bool) : RoutingEntry :=
  mkEntry 3 2 2 100 broken 2 32 Timer.new Timer.new Timer.new Timer.new Timer.new.
Definition routed_node : DYMO.t := (demo_node 1) <| DYMO.routeVector := [one_route false] |>.

Lemma routed_node_inv : node_inv routed_node.
Proof.
  split; [reflexivity|split; [discriminate|reflexivity]|split; [discriminate|reflexivity]|apply NoDup_singleton|].
  repeat constructor; discriminate || reflexivity.
Qed.

Lemma dymo_table_mirrored_witness :
  exists n', DYMO.maintainAssociatedRoutingTable routed_node = Ok tt (with_node routed_node n') /\
    Forall (mirrored n') (DYMO.routeVector routed_node).
Proof.
  destruct (dymo_table_mirrored routed_node) as (n' & Hrun & _ & Hm & _).
  - split; [apply NoDup_nil_2|..]; intros p Hp; by apply elem_of_nil in Hp.
  - discriminate.
  - by repeat constructor.
  - apply NoDup_singleton.
  - exists n'. split; [exact Hrun|exact Hm].
Defined.

Definition rolled_over : AddressBlock.t := AddressBlock.mk (Some 3) (Some 0x8000) None (Some 0).

Lemma seqnum_rollover_ignored_witness :
  DYMO.updateRoutesFromAddressBlock rolled_over true 3 100 routed_node = Ok false routed_node.
Proof.
  apply (seqnum_rollover_ignored routed_node (one_route false) rolled_over true 3 100 3 0x8000 0 routed_node_inv).
  - apply list_elem_of_here.
  - reflexivity.
  - discriminate.
  - split; [reflexivity..|split; [discriminate|reflexivity]|split; [discriminate|reflexivity]|split; [discriminate|reflexivity]].
  - discriminate.
Defined.

(** ** Answers of intermediate routers *)
Section Intermediate.
Import DYMO.
Implicit Types (s : t) (e : RoutingEntry).

Definition adds (p : PacketBB) s s' : Prop :=
  exists new, sent_by s' = sent_by s ++ new /\ Forall (fun x => ManetRoutingBase.snd_msg x = p) new.

Lemma sendDown_adds p dest s s' : sendDown p dest s = Ok tt s' -> adds p s s'.
Proof.
  unfold sendDown. destruct (byte_length p) as [len|]; [|done]. intros Hrun. apply bind_inv in Hrun as ([] & s1 & H1 & Hrun).
  injection H1 as <-. assert (forall a delayed s2, on_base (ManetRoutingBase.sendToIp p DYMO_PORT a DYMO_PORT 1 delayed 0) s2 = Ok tt s' -> adds p s2 s') as Hgo.
  { intros a delayed s2. unfold on_base. destruct (ManetRoutingBase.sendToIp _ _ _ _ _ _ _ (base s2)) as [u b|] eqn:Hr; [|done].
    intros [= _ <-]. destruct (sendToIp_sends _ _ _ _ _ _ _ _ _ _ Hr) as [_ (new & Hnew & Hall)]. by exists new. }
  destruct (_ =? _); by apply Hgo in Hrun.
Qed.

(** The message leads its receivers to take [hop] for the neighbour it came from. *)
Definition leads_to (hop : Z) (x : ManetRoutingBase.IPSend PacketBB) : Prop :=
  exists m, ManetRoutingBase.snd_msg x = PRM m /\ forall receiver, getNextHopAddress m receiver = Ok hop receiver.

Lemma sent_calm {A} (m : Eff t A) s a s' : stable calm m -> m s = Ok a s' -> sent_by s' = sent_by s.
Proof. intros Hm Hrun. apply (Hm _ _ _ Hrun). Qed.

(** C33: An intermediate router is left out of the routes it announces. When a router
    answers a request for the destination of one of its routes, the answers name the
    destination, or the originator, last, so every node that receives one takes that
    node, which need not be a neighbour, for the next hop, and never the router. *)
Theorem intermediate_reply_bypasses_router orig target e a s s' :
  node_inv s -> e ∈ routeVector s -> AddressBlock.address orig = Some a -> is_u32 a -> a <> myAddr s ->
  sendReplyAsIntermediateRouter orig target e s = Ok tt s' ->
  exists new, sent_by s' = sent_by s ++ new /\
    Forall (fun x => leads_to (routeAddress e) x \/ leads_to a x) new /\ routeAddress e <> myAddr s.
Proof.
  intros Hi He Ho Ha Hne Hrun. pose proof (ni_entries _ Hi) as HF. rewrite Forall_forall in HF. destruct (HF e He) as [_ Hu Hother _ _].
  unfold sendReplyAsIntermediateRouter, AddressBlock.getAddress in Hrun. rewrite Ho in Hrun.
  apply bind_inv in Hrun as (? & ? & H1 & Hrun). injection H1 as <- <-.
  apply bind_inv in Hrun as (i & s1 & H1 & Hrun). apply sent_calm in H1; [|stable]. destruct i as [i|]; [|done].
  apply bind_inv in Hrun as (r & s2 & H2 & Hrun). apply sent_calm in H2; [|stable].
  apply bind_inv in Hrun as ([] & s3 & H3 & Hrun). apply sent_calm in H3; [|stable].
  apply bind_inv in Hrun as (limit & s4 & H4 & Hrun). apply sent_calm in H4; [|stable].
  apply bind_inv in Hrun as (n & s5 & H5 & Hrun). apply sent_calm in H5; [|unfold AddressBlock.getSeqNum; stable].
  apply bind_inv in Hrun as (me & s6 & H6 & Hrun). apply sent_calm in H6; [|stable].
  apply bind_inv in Hrun as (ta & s7 & H7 & Hrun). apply sent_calm in H7; [|stable].
  apply bind_inv in Hrun as (lost & s8 & H8 & Hrun). apply sent_calm in H8; [|stable].
  assert (sent_by s8 = sent_by s) as Hsame by congruence. clear H1 H2 H3 H4 H5 H6 H7 H8.
  destruct lost; [injection Hrun as <-; exists []; by rewrite app_nil_r|].
  apply bind_inv in Hrun as ([] & s9 & H9 & Hrun). apply sendDown_adds in H9 as (n1 & E1 & F1).
  apply bind_inv in Hrun as ([] & s10 & H10 & Hrun). apply sendDown_adds in H10 as (n2 & E2 & F2). apply sent_calm in Hrun; [|stable].
  exists (n1 ++ n2). split_and!; [by rewrite Hrun, E2, E1, Hsame, app_assoc| |done].
  apply Forall_app. split.
  - eapply Forall_impl; [exact F1|]. intros x Hx. left. eexists. split; [exact Hx|]. intros receiver.
    unfold getNextHopAddress, AddressBlock.getAddress, set_unless_zero. cbn.
    repeat case_match; cbn; by rewrite u32_small.
  - eapply Forall_impl; [exact F2|]. intros x Hx. right. eexists. split; [exact Hx|]. intros receiver.
    unfold getNextHopAddress, AddressBlock.getAddress. cbn. repeat case_match; cbn; by rewrite u32_small.
Qed.
End Intermediate.

Definition router : DYMO.t := default (demo_node 2) (demo_net5 !! 2).
Definition route_to_3 : RoutingEntry := default (one_route true) (DYMO.routeVector router !! 1%nat).
Definition asking : AddressBlock.t := AddressBlock.mk (Some 1) (Some 4) None (Some 0).
Definition asked : AddressBlock.t := AddressBlock.mk (Some 3) (Some 2) None None.
Definition answered : DYMO.t :=
  match DYMO.sendReplyAsIntermediateRouter asking asked route_to_3 router with Ok _ s => s | Err _ => router end.

Lemma router_inv : node_inv router.
Proof.
  apply (mo_inv demo_net5 2). apply (net_run_inv seconds _ _ demo_run (starts_inv _ demo_starts)). vm_compute. reflexivity.
Qed.

Lemma intermediate_reply_bypasses_router_witness :
  exists new, sent_by answered = sent_by router ++ new /\ length new = 2%nat /\
    Forall (fun x => leads_to 3 x \/ leads_to 1 x) new.
Proof.
  destruct (intermediate_reply_bypasses_router asking asked route_to_3 1 router answered router_inv)
    as (new & Hnew & Hall & _).
  - vm_compute. apply list_elem_of_further, list_elem_of_here.
  - reflexivity.
  - split; [discriminate|reflexivity].
  - vm_compute; discriminate.
  - vm_compute. reflexivity.
  - exists new. split; [exact Hnew|]. split; [|exact Hall].
    apply (f_equal length) in Hnew. rewrite length_app in Hnew.
    assert (length (sent_by answered) = 4%nat) as E1 by (vm_compute; reflexivity).
    assert (length (sent_by router) = 2%nat) as E2 by (vm_compute; reflexivity). lia.
Defined.
