(* ===== verification/MachineFloatSpec.v ===== *)
(** * Whole numbers in [double]

    Sums and comparisons of whole numbers below 2^53 are exact in binary64; adding
    one to [1e16], the distance the code takes for infinite, does not make it
    smaller. *)
From Stdlib Require Import SpecFloat.
From S2P Require Import Prelude MachineFloat.

(** ** Digits and shifts *)
Lemma digits2_pos_log2 p : Z.pos (digits2_pos p) = Z.log2 (Z.pos p) + 1.
Proof.
  induction p as [p IH|p IH|]; cbn [digits2_pos]; [| |done];
    rewrite Pos2Z.inj_succ, IH.
  - rewrite (Pos2Z.inj_xI p), Z.log2_succ_double by lia. lia.
  - rewrite (Pos2Z.inj_xO p), Z.log2_double by lia. lia.
Qed.

Lemma iter_xO m d : Z.pos (Pos.iter xO m d) = Z.pos m * 2 ^ Z.pos d.
Proof.
  induction d as [|d IH] using Pos.peano_ind; [cbn; lia|].
  rewrite Pos.iter_succ, Pos2Z.inj_succ, Z.pow_succ_r by lia. lia.
Qed.

Lemma iter_pos_iter {A} (f : A -> A) n x : SpecFloat.iter_pos f n x = Pos.iter f x n.
Proof.
  revert x. induction n as [n IH|n IH|]; intros x; cbn; [| |done]; rewrite !IH.
  - by rewrite Pos.iter_swap, (Pos.iter_swap n).
  - done.
Qed.

Definition exact (m : Z) : shr_record := {| shr_m := m; shr_r := false; shr_s := false |}.

Lemma shr_1_exact m : 0 < m -> shr_1 (exact (m * 2)) = exact m.
Proof. intros. destruct m as [|p|p]; [lia| |lia]. by rewrite Z.mul_comm. Qed.

Lemma iter_shr_exact m d : 0 < m -> SpecFloat.iter_pos shr_1 d (exact (m * 2 ^ Z.pos d)) = exact m.
Proof.
  intros Hm. rewrite iter_pos_iter. revert m Hm. induction d as [|d IH] using Pos.peano_ind; intros m Hm.
  - apply (shr_1_exact m Hm).
  - rewrite Pos.iter_succ_r, Pos2Z.inj_succ, Z.pow_succ_r by lia.
    replace (m * (2 * 2 ^ Z.pos d)) with (m * 2 ^ Z.pos d * 2) by lia.
    rewrite shr_1_exact by (apply Z.mul_pos_pos; lia). by apply IH.
Qed.

(** ** Rounding of whole numbers

    The number [z], written with [k] more binary digits. *)
Lemma log2_scaled z k : 0 < z -> 0 <= k -> Z.log2 (z * 2 ^ k) = Z.log2 z + k.
Proof. intros. rewrite <- Z.shiftl_mul_pow2 by done. by rewrite Z.log2_shiftl. Qed.

(** What [binary_round_aux] does to an exact mantissa that has to be shifted by
    [n] digits. *)
Lemma shr_fexp_small m e : fexp 53 1024 (Zdigits2 m + e) <= e -> shr_fexp 53 1024 m e loc_Exact = (exact m, e).
Proof. intros H. unfold shr_fexp, shr. destruct (_ - e) eqn:E; [done|lia|done]. Qed.

Lemma fexp_normal e : -1021 <= e -> fexp 53 1024 e = e - 53.
Proof. intros. unfold fexp, emin. lia. Qed.

Lemma Zdigits2_pos m : 0 < m -> Zdigits2 m = Z.log2 m + 1.
Proof. destruct m as [|p|p]; [lia| |lia]. intros _. apply digits2_pos_log2. Qed.

Definition normal (m e : Z) : spec_float := S754_finite false (Z.to_pos m) e.

Lemma round_aux_normal m e :
  0 < m -> Z.log2 m = 52 -> -1000 <= e <= 971 ->
  binary_round_aux 53 1024 false m e loc_Exact = normal m e.
Proof.
  intros Hm Hl He. unfold binary_round_aux.
  assert (shr_fexp 53 1024 m e loc_Exact = (exact m, e)) as Hs.
  { apply shr_fexp_small. rewrite Zdigits2_pos, Hl, fexp_normal by lia. lia. }
  rewrite Hs. cbn [shr_m exact loc_of_shr_record round_nearest_even]. rewrite Hs. cbn [shr_m exact].
  destruct m as [|p|p]; [lia| |lia]. destruct (Z.leb_spec e (1024 - 53)); [done|lia].
Qed.

(** Shifting right by the digits that were added. *)
Lemma round_aux_shift m n e :
  0 < m -> Z.log2 m = 52 -> 0 < n -> -1000 <= e -> e + n <= 971 ->
  binary_round_aux 53 1024 false (m * 2 ^ n) e loc_Exact = normal m (e + n).
Proof.
  intros Hm Hl Hn He Hen. unfold binary_round_aux.
  assert (shr_fexp 53 1024 (m * 2 ^ n) e loc_Exact = (exact m, e + n)) as Hs.
  { unfold shr_fexp, shr. rewrite Zdigits2_pos by (apply Z.mul_pos_pos; lia).
    rewrite log2_scaled, Hl, fexp_normal by lia. replace (52 + n + 1 + e - 53 - e) with n by lia.
    destruct n as [|d|d]; [lia| |lia]. f_equal. by apply iter_shr_exact. }
  rewrite Hs. cbn [shr_m exact loc_of_shr_record round_nearest_even].
  rewrite shr_fexp_small by (rewrite Zdigits2_pos, Hl, fexp_normal by lia; lia). cbn [shr_m exact].
  destruct m as [|p|p]; [lia| |lia]. destruct (Z.leb_spec (e + n) (1024 - 53)); [done|lia].
Qed.

(** The representation of a positive whole number below 2^53. *)
Definition whole (z : Z) : spec_float := normal (z * 2 ^ (52 - Z.log2 z)) (Z.log2 z - 52).

Lemma log2_53 z : 0 < z < 2 ^ 53 -> 0 <= Z.log2 z <= 52.
Proof.
  intros [Hz Hlt]. split; [apply Z.log2_nonneg|]. apply Z.log2_lt_pow2 in Hlt; lia.
Qed.

Lemma binary_round_whole z k p :
  0 < z < 2 ^ 53 -> 0 <= k <= 200 -> Z.pos p = z * 2 ^ k ->
  binary_round 53 1024 false p (- k) = whole z.
Proof.
  intros Hz Hk Hp. pose proof (log2_53 z Hz) as Hl.
  unfold binary_round. rewrite digits2_pos_log2, Hp, log2_scaled by lia.
  rewrite fexp_normal by lia. unfold shl_align, whole.
  replace (Z.log2 z + k + 1 + - k - 53 - - k) with (Z.log2 z - 52 + k) by lia.
  assert (Z.log2 (z * 2 ^ (52 - Z.log2 z)) = 52) as Hl52 by (rewrite log2_scaled by lia; lia).
  assert (0 < z * 2 ^ (52 - Z.log2 z)) by (apply Z.mul_pos_pos; lia).
  destruct (Z.log2 z - 52 + k) as [|d|d] eqn:Ed.
  - rewrite Hp. replace k with (52 - Z.log2 z) by lia. rewrite round_aux_normal by lia. f_equal. lia.
  - rewrite Hp. replace k with (52 - Z.log2 z + Z.pos d) at 1 by lia. rewrite Z.pow_add_r, Z.mul_assoc by lia.
    rewrite round_aux_shift by lia. f_equal. lia.
  - rewrite iter_xO, Hp, <- Z.mul_assoc, <- Z.pow_add_r by lia.
    replace (k + Z.pos d) with (52 - Z.log2 z) by lia. rewrite round_aux_normal by lia. f_equal. lia.
Qed.

Lemma double_of_int_whole z : 0 < z < 2 ^ 53 -> double_of_int z = whole z.
Proof.
  intros Hz. unfold double_of_int, binary_normalize. destruct z as [|p|p]; [lia| |lia].
  apply (binary_round_whole (Z.pos p) 0); lia.
Qed.

(** ** Sums *)
Lemma shl_align_down m e e' : e' <= e -> Z.pos (fst (shl_align m e e')) = Z.pos m * 2 ^ (e - e').
Proof.
  intros He. unfold shl_align. destruct (e' - e) as [|d|d] eqn:Ed; cbn [fst].
  - replace (e - e') with 0 by lia. lia.
  - lia.
  - rewrite iter_xO. do 2 f_equal. lia.
Qed.

Lemma whole_pos z : 0 < z < 2 ^ 53 -> 0 < z * 2 ^ (52 - Z.log2 z).
Proof. intros Hz. pose proof (log2_53 z Hz). apply Z.mul_pos_pos; lia. Qed.

(** The mantissa of [z] aligned to an exponent below its own. *)
Lemma align_whole z e :
  0 < z < 2 ^ 53 -> e <= Z.log2 z - 52 ->
  Z.pos (fst (shl_align (Z.to_pos (z * 2 ^ (52 - Z.log2 z))) (Z.log2 z - 52) e)) = z * 2 ^ (- e).
Proof.
  intros Hz He. pose proof (log2_53 z Hz). rewrite shl_align_down by done.
  rewrite Z2Pos.id by by apply whole_pos. rewrite <- Z.mul_assoc, <- Z.pow_add_r by lia. do 2 f_equal. lia.
Qed.

Lemma add_whole a b :
  0 < a < 2 ^ 53 -> 0 < b < 2 ^ 53 -> a + b < 2 ^ 53 -> double_add (whole a) (whole b) = whole (a + b).
Proof.
  intros Ha Hb Hab. pose proof (log2_53 a Ha). pose proof (log2_53 b Hb).
  unfold double_add, whole at 1 2, normal, SFadd. cbn [cond_Zopp].
  set (e := Z.min (Z.log2 a - 52) (Z.log2 b - 52)).
  rewrite !align_whole by (done || lia).
  replace (a * 2 ^ (- e) + b * 2 ^ (- e)) with ((a + b) * 2 ^ (- e)) by lia.
  assert (0 < (a + b) * 2 ^ (- e)) by (apply Z.mul_pos_pos; lia).
  unfold binary_normalize. destruct ((a + b) * 2 ^ (- e)) as [|p|p] eqn:Ep; [lia| |lia].
  replace e with (- - e) at 1 by lia. apply binary_round_whole; lia.
Qed.

Lemma double_add_whole a b :
  0 <= a -> 0 <= b -> a + b < 2 ^ 53 -> double_add (double_of_int a) (double_of_int b) = double_of_int (a + b).
Proof.
  intros Ha Hb Hab.
  destruct (decide (a = 0)) as [->|Ha0]; [destruct (decide (b = 0)) as [->|Hb0]; [done|]|].
  - rewrite Z.add_0_l. by rewrite (double_of_int_whole b) by lia.
  - destruct (decide (b = 0)) as [->|Hb0].
    + rewrite Z.add_0_r. by rewrite (double_of_int_whole a) by lia.
    + rewrite !double_of_int_whole by lia. apply add_whole; lia.
Qed.

(** ** Comparisons *)
Lemma compare_whole a b : 0 < a < 2 ^ 53 -> 0 < b < 2 ^ 53 -> SFcompare (whole a) (whole b) = Some (a ?= b).
Proof.
  intros Ha Hb. pose proof (log2_53 a Ha). pose proof (log2_53 b Hb). unfold whole, normal, SFcompare. f_equal.
  destruct (Z.compare_spec (Z.log2 a - 52) (Z.log2 b - 52)) as [He|He|He].
  - assert (Z.log2 a = Z.log2 b) as Heq by lia.
    change (Pos.compare_cont Eq ?x ?y) with (x ?= y)%positive.
    rewrite <- Z2Pos.inj_compare by by apply whole_pos. rewrite Heq.
    symmetry. apply Zmult_compare_compat_r. assert (0 < 2 ^ (52 - Z.log2 b)) by lia. lia.
  - symmetry. apply Z.compare_lt_iff. apply Z.log2_lt_cancel. lia.
  - symmetry. apply Z.compare_gt_iff. apply Z.log2_lt_cancel. lia.
Qed.

Lemma double_compare_whole a b :
  0 <= a < 2 ^ 53 -> 0 <= b < 2 ^ 53 -> SFcompare (double_of_int a) (double_of_int b) = Some (a ?= b).
Proof.
  intros Ha Hb.
  destruct (decide (a = 0)) as [->|Ha0], (decide (b = 0)) as [->|Hb0].
  - done.
  - rewrite (double_of_int_whole b) by lia. cbn. by destruct b; [lia| |lia].
  - rewrite (double_of_int_whole a) by lia. cbn. by destruct a; [lia| |lia].
  - rewrite !double_of_int_whole by lia. apply compare_whole; lia.
Qed.

Lemma double_leb_whole a b :
  0 <= a < 2 ^ 53 -> 0 <= b < 2 ^ 53 -> SFleb (double_of_int a) (double_of_int b) = (a <=? b).
Proof. intros. unfold SFleb. rewrite double_compare_whole by done. by unfold Z.leb; destruct (a ?= b). Qed.

(** ** The infinite distance *)
Definition ten_to_16 : Z := 10000000000000000.

Lemma infinity_normal : double_of_int ten_to_16 = normal 5000000000000000 1.
Proof. reflexivity. Qed.

Lemma shr_1_odd m : 0 < m -> shr_1 (exact m) = {| shr_m := m / 2; shr_r := Z.odd m; shr_s := false |}.
Proof.
  intros Hm. rewrite <- Z.div2_div. destruct m as [|[p|p|]|p]; try lia; reflexivity.
Qed.

(** A number of 54 digits loses its last one. *)
Lemma binary_round_54 z k p :
  2 ^ 53 <= z < 2 ^ 54 - 2 -> 0 <= k <= 200 -> Z.pos p = z * 2 ^ k ->
  exists m, z / 2 <= m /\ binary_round 53 1024 false p (- k) = normal m 1.
Proof.
  intros Hz Hk Hp.
  assert (Z.log2 z = 53) as Hl by (apply Z.log2_unique; lia).
  unfold binary_round. rewrite digits2_pos_log2, Hp, log2_scaled, Hl, fexp_normal by lia.
  unfold shl_align. destruct (_ - - k) as [|d|d] eqn:Ed; [lia| |lia].
  rewrite Hp. unfold binary_round_aux.
  assert (shr_fexp 53 1024 (z * 2 ^ k) (- k) loc_Exact = ({| shr_m := z / 2; shr_r := Z.odd z; shr_s := false |}, 1)) as Hs.
  { unfold shr_fexp, shr. rewrite Zdigits2_pos by (apply Z.mul_pos_pos; lia).
    rewrite log2_scaled, Hl, fexp_normal by lia.
    destruct (53 + k + 1 + - k - 53 - - k) as [|d'|d'] eqn:Ed'; [lia| |lia]. f_equal; [|lia].
    change (shr_record_of_loc ?x loc_Exact) with (exact x).
    rewrite iter_pos_iter. destruct (decide (k = 0)) as [->|Hk0].
    - assert (d' = 1%positive) as -> by lia. rewrite Z.mul_1_r. apply shr_1_odd. lia.
    - destruct k as [|kp|kp]; [lia| |lia]. assert (d' = Pos.succ kp) as -> by lia.
      rewrite Pos.iter_succ, <- iter_pos_iter, iter_shr_exact by lia. apply shr_1_odd. lia. }
  rewrite Hs.
  set (m := round_nearest_even _ _).
  assert (z / 2 <= m <= z / 2 + 1) as Hm.
  { subst m. cbn [shr_m loc_of_shr_record]. destruct (Z.odd z); cbn; [destruct (Z.even _)|]; lia. }
  assert (Z.log2 m = 52) as Hlm by (apply Z.log2_unique; lia).
  exists m. split; [lia|].
  rewrite shr_fexp_small by (rewrite Zdigits2_pos, Hlm, fexp_normal by lia; lia). cbn [shr_m exact].
  destruct m as [|q|q]; [lia|done|lia].
Qed.

Lemma infinity_add b :
  0 <= b < 2 ^ 32 ->
  exists m, 5000000000000000 <= m /\ double_add (double_of_int ten_to_16) (double_of_int b) = normal m 1.
Proof.
  intros Hb. rewrite infinity_normal. destruct (decide (b = 0)) as [->|Hb0]; [by eexists|].
  rewrite double_of_int_whole by lia. pose proof (log2_53 b ltac:(lia)).
  unfold double_add, whole, normal at 1 2, SFadd. cbn [cond_Zopp].
  assert (Z.log2 b < 32) by (apply Z.log2_lt_pow2; lia).
  replace (Z.min 1 (Z.log2 b - 52)) with (Z.log2 b - 52) by lia.
  set (k := 52 - Z.log2 b). rewrite align_whole, shl_align_down by lia.
  replace (Z.pos (Z.to_pos 5000000000000000) * 2 ^ (1 - (Z.log2 b - 52)) + b * 2 ^ (- (Z.log2 b - 52)))
    with ((ten_to_16 + b) * 2 ^ k).
  2: { replace (1 - (Z.log2 b - 52)) with (1 + k) by lia. replace (- (Z.log2 b - 52)) with k by lia.
       rewrite Z.pow_add_r by lia. unfold ten_to_16. lia. }
  assert (0 < (ten_to_16 + b) * 2 ^ k) by (unfold ten_to_16; apply Z.mul_pos_pos; lia).
  unfold binary_normalize. destruct ((ten_to_16 + b) * 2 ^ k) as [|p|p] eqn:Ep; [lia| |lia].
  destruct (binary_round_54 (ten_to_16 + b) k p) as (m & Hm & Hr); [unfold ten_to_16; lia|lia|done|].
  exists m. split; [unfold ten_to_16 in Hm; lia|]. by replace (Z.log2 b - 52) with (- k) by lia.
Qed.

Lemma normal_compare m m' : 0 < m -> 0 < m' -> SFcompare (normal m 1) (normal m' 1) = Some (m ?= m').
Proof.
  intros. unfold normal, SFcompare. cbn [Z.compare Pos.compare Pos.compare_cont]. f_equal.
  change (Pos.compare_cont Eq ?x ?y) with (x ?= y)%positive. by rewrite <- Z2Pos.inj_compare.
Qed.

(** Whole numbers below 2^53 are below the infinite distance and what it becomes. *)
Lemma whole_below_infinity a m : 0 <= a < 2 ^ 53 -> SFcompare (double_of_int a) (normal m 1) = Some Lt.
Proof.
  intros Ha. destruct (decide (a = 0)) as [->|Ha0]; [done|].
  rewrite double_of_int_whole by lia. pose proof (log2_53 a ltac:(lia)). unfold whole, normal, SFcompare.
  by destruct (Z.compare_spec (Z.log2 a - 52) 1); [lia| |lia].
Qed.
