(* ===== verification/TED.v ===== *)
(** * The traffic engineering database

    [networklayer/ted/TED.cc]: the links of the network as far as a router knows
    them, the shortest paths over them and the routes derived from the paths.  The
    module works on the routing table and the interface table of its node.  Metrics
    and bandwidths are binary64 numbers.  The index -1 that stands for no parent is
    [None]; a negative index of the code would read outside a vector. *)
From Stdlib Require Import String SpecFloat.
From S2P Require Import Prelude IPAddress MachineFloat InterfaceTable RoutingTable.

(** ** [TELinkStateInfo] of [TED.msg] *)
Record TELinkStateInfo : Type := mk_TELinkStateInfo {
  advrouter : IPAddress.t;
  linkid : IPAddress.t;
  local : IPAddress.t;
  remote : IPAddress.t;
  te_metric : spec_float;
  MaxBandwidth : spec_float;
  UnResvBandwidth : list spec_float;
  timestamp : Z;
  sourceId : Z;
  messageId : Z;
  te_state : bool
}.
#[export] Instance eta_TELinkStateInfo : Eta TELinkStateInfo := fun l =>
  {| advrouter := advrouter l; linkid := linkid l; local := local l; remote := remote l;
     te_metric := te_metric l; MaxBandwidth := MaxBandwidth l; UnResvBandwidth := UnResvBandwidth l;
     timestamp := timestamp l; sourceId := sourceId l; messageId := messageId l; te_state := te_state l |}.

Module TED.
Record vertex_t : Type := mk_vertex { v_node : IPAddress.t; parent : option nat; dist : spec_float }.
#[global] Instance eta_vertex : Eta vertex_t := fun v =>
  {| v_node := v_node v; parent := parent v; dist := dist v |}.

Record edge_t : Type := mk_edge { src : nat; dest : nat; e_metric : spec_float }.

Definition LS_INFINITY : spec_float := double_of_int 10000000000000000.

Record t : Type := mk {
  node : Node;
  ted : list TELinkStateInfo;
  routerId : IPAddress.t;
  interfaceAddrs : list IPAddress.t;
  maxMessageId : Z
}.
#[global] Instance eta : Eta t := fun s =>
  {| node := node s; ted := ted s; routerId := routerId s; interfaceAddrs := interfaceAddrs s;
     maxMessageId := maxMessageId s |}.

Definition on_node {A} (m : Eff Node A) : Eff t A := fun s =>
  match m (node s) with Ok a n => Ok a (s <| node := n |>) | Err e => Err e end.

(** Runs an operation on a local vector that starts as [vs]. *)
Definition with_vector {L A} (vs : L) (m : Eff L A) : Eff t L := fun s =>
  match m vs with Ok _ vs' => Ok vs' s | Err e => Err e end.

(** ** Shortest paths *)
Fixpoint index_of (vertices : list vertex_t) (nodeAddr : IPAddress.t) : option nat :=
  match vertices with
  | [] => None
  | v :: rest => if v_node v =? nodeAddr then Some O else S <$> index_of rest nodeAddr
  end.

Definition assignIndex (vertices : list vertex_t) (nodeAddr : IPAddress.t) : nat * list vertex_t :=
  match index_of vertices nodeAddr with
  | Some i => (i, vertices)
  | None => (length vertices, vertices ++ [mk_vertex nodeAddr None LS_INFINITY])
  end.

(** The links that are up and have the bandwidth, as edges; the vertices are
    numbered on the way. *)
Fixpoint collect (topology : list TELinkStateInfo) (req_bandwidth : spec_float) (priority : nat)
    (vertices : list vertex_t) (edges : list edge_t) : Eff t (list vertex_t * list edge_t) :=
  match topology with
  | [] => ret (vertices, edges)
  | l :: rest =>
      if negb (te_state l) then collect rest req_bandwidth priority vertices edges else
      match UnResvBandwidth l !! priority with
      | None => fail (NullPointer "UnResvBandwidth[priority]")
      | Some b =>
          if SFltb b req_bandwidth then collect rest req_bandwidth priority vertices edges else
          let '(i, vertices) := assignIndex vertices (advrouter l) in
          let '(j, vertices) := assignIndex vertices (linkid l) in
          collect rest req_bandwidth priority vertices (edges ++ [mk_edge i j (te_metric l)])
      end
  end.

(** One step of the inner loop; whether the vector was modified. *)
Definition relax (e : edge_t) : Eff (list vertex_t) bool :=
  let! n := gets length in
  assert_ "src < (int)vertices.size()" (src e <? n)%nat ;;;
  assert_ "dest < (int)vertices.size()" (dest e <? n)%nat ;;;
  assert_ "src != dest" (negb (src e =? dest e)%nat) ;;;
  let! s := gets (fun vs => vs !! src e) in
  let! d := gets (fun vs => vs !! dest e) in
  match s, d with
  | Some s, Some d =>
      let w := double_add (dist s) (e_metric e) in
      if SFleb (dist d) w then ret false
      else modify (<[dest e := d <| dist := w |> <| parent := Some (src e) |>]>) ;;; ret true
  | _, _ => fail (NullPointer "vertices[]")
  end.

Fixpoint rounds (n : nat) (edges : list edge_t) : Eff (list vertex_t) unit :=
  match n with
  | O => ret tt
  | S n =>
      let! mods := mapE relax edges in
      if existsb id mods then rounds n edges else ret tt
  end.

Definition calculateShortestPaths (topology : list TELinkStateInfo) (req_bandwidth : spec_float) (priority : nat)
    : Eff t (list vertex_t) :=
  let! g := collect topology req_bandwidth priority [] [] in
  let! me := gets routerId in
  let '(srcIndex, vertices) := assignIndex (fst g) me in
  let vertices := alter (fun v => v <| dist := double_of_int 0 |>) srcIndex vertices in
  with_vector vertices (rounds (length vertices - 1) (snd g)).

(** The nearest vertex of [dests]: its distance and its index. *)
Fixpoint nearest (V : list vertex_t) (i : nat) (dests : list IPAddress.t) (best : spec_float * option nat) : spec_float * option nat :=
  match V with
  | [] => best
  | v :: rest =>
      if SFleb (fst best) (dist v) then nearest rest (S i) dests best else
      if negb (bool_decide (v_node v ∈ dests)) then nearest rest (S i) dests best else
      nearest rest (S i) dests (dist v, Some i)
  end.

(** The nodes from the root to the vertex at [i]. *)
Fixpoint path_to (fuel : nat) (V : list vertex_t) (i : nat) (result : list IPAddress.t) : Eff t (list IPAddress.t) :=
  match fuel with
  | O => fail OutOfFuel
  | S fuel =>
      match V !! i with
      | None => fail (NullPointer "V[minIndex]")
      | Some v => match parent v with
                  | None => ret (v_node v :: result)
                  | Some p => path_to fuel V p (v_node v :: result)
                  end
      end
  end.

Definition calculateShortestPath (dests : list IPAddress.t) (topology : list TELinkStateInfo)
    (req_bandwidth : spec_float) (priority : nat) : Eff t (list IPAddress.t) :=
  let! V := calculateShortestPaths topology req_bandwidth priority in
  match snd (nearest V 0 dests (LS_INFINITY, None)) with
  | None => ret []
  | Some i => path_to (length V) V i []
  end.

(** ** Peers *)
Definition own_link (s : t) (peer : IPAddress.t) (l : TELinkStateInfo) : bool :=
  (linkid l =? peer) && (advrouter l =? routerId s).

Definition isLocalPeer (inetAddr : IPAddress.t) : Eff t bool :=
  gets (fun s => existsb (own_link s inetAddr) (ted s)).

Definition getInterfaceAddrByPeerAddress (peerIP : IPAddress.t) : Eff t IPAddress.t :=
  let! l := gets (fun s => List.find (own_link s peerIP) (ted s)) in
  match l with Some l => ret (local l) | None => fail (RuntimeError "not a local peer") end.

Definition peerRemoteInterface (peerIP : IPAddress.t) : Eff t IPAddress.t :=
  let! b := isLocalPeer peerIP in
  assert_ "isLocalPeer(peerIP)" b ;;;
  let! l := gets (fun s => List.find (own_link s peerIP) (ted s)) in
  match l with Some l => ret (remote l) | None => fail (RuntimeError "not a local peer") end.

Fixpoint find_index (f : TELinkStateInfo -> bool) (l : list TELinkStateInfo) : option nat :=
  match l with
  | [] => None
  | x :: rest => if f x then Some O else S <$> find_index f rest
  end.

Definition linkIndex (localInf : IPAddress.t) : Eff t nat :=
  let! i := gets (fun s => find_index (fun l => (advrouter l =? routerId s) && (local l =? localInf)) (ted s)) in
  match i with Some i => ret i | None => fail (AssertionFailed "linkIndex") end.

Definition linkIndex_of (adv id : IPAddress.t) : Eff t nat :=
  let! i := gets (fun s => find_index (fun l => (advrouter l =? adv) && (linkid l =? id)) (ted s)) in
  match i with Some i => ret i | None => fail (AssertionFailed "linkIndex") end.

Definition link_at (i : nat) : Eff t TELinkStateInfo :=
  let! l := gets (fun s => ted s !! i) in
  match l with Some l => ret l | None => fail (NullPointer "ted[index]") end.

Definition getPeerByLocalAddress (localInf : IPAddress.t) : Eff t IPAddress.t :=
  let! i := linkIndex localInf in
  let! l := link_at i in
  ret (linkid l).

Definition isLocalAddress (addr : IPAddress.t) : Eff t bool :=
  gets (fun s => existsb (Z.eqb addr) (interfaceAddrs s)).
Definition getLocalAddress : Eff t (list IPAddress.t) := gets interfaceAddrs.

Fixpoint primary_of (localInf : IPAddress.t) (l : list TELinkStateInfo) : option IPAddress.t :=
  match l with
  | [] => None
  | x :: rest => if local x =? localInf then Some (advrouter x)
                 else if remote x =? localInf then Some (linkid x)
                 else primary_of localInf rest
  end.
Definition primaryAddress (localInf : IPAddress.t) : Eff t IPAddress.t :=
  let! a := gets (fun s => primary_of localInf (ted s)) in
  match a with Some a => ret a | None => fail (AssertionFailed "primaryAddress") end.

(** ** The routes

    The loop over the [n] routes; position [j] is that of the next route to look
    at. *)
Fixpoint drop_routes (n j : nat) : Eff Node unit :=
  match n with
  | O => ret tt
  | S n =>
      let! p := getRoute j in
      match p with
      | None => fail (NullPointer "getRoute")
      | Some p =>
          let! e := deref p in
          if IPAddress.isMulticast (host e) then drop_routes n (S j)
          else let! _ := deleteRoute p in drop_routes n j
      end
  end.

(** From the vertex at [nHop] towards the root until a local peer is met. *)
Fixpoint next_hop (fuel : nat) (V : list vertex_t) (nHop : nat) : Eff t vertex_t :=
  match fuel with
  | O => fail OutOfFuel
  | S fuel =>
      match V !! nHop with
      | None => fail (NullPointer "V[nHop]")
      | Some v =>
          let! b := isLocalPeer (v_node v) in
          if b then ret v
          else match parent v with
               | Some p => next_hop fuel V p
               | None => fail (NullPointer "V[-1]")
               end
      end
  end.

Definition host_route (dst gtw : IPAddress.t) (ty : RouteType) (ie : option InterfaceEntry) : IPRoute :=
  IPRoute_new <| host := dst |> <| gateway := gtw |> <| type_ := ty |>
    <| interfacePtr := interfaceId <$> ie |> <| source := OSPF |>
    <| netmask := 4294967295 |> <| metric := 0 |>.

Definition add_remote (V : list vertex_t) (i : nat) (v : vertex_t) : Eff t unit :=
  let! me := gets routerId in
  if v_node v =? me then ret tt else
  match parent v with
  | None => ret tt
  | Some _ =>
      let! b := isLocalPeer (v_node v) in
      if b then ret tt else
      let! h := next_hop (length V) V i in
      let! a := getInterfaceAddrByPeerAddress (v_node h) in
      let! ie := on_node (getInterfaceByAddress a) in
      let! _ := on_node (addRoute (
        if v_node v =? v_node h then host_route (v_node v) 0 DIRECT ie
        else host_route (v_node v) (v_node h) REMOTE ie)) in
      ret tt
  end.

Definition add_peer (a : IPAddress.t) : Eff t unit :=
  let! peer := getPeerByLocalAddress a in
  let! ie := on_node (getInterfaceByAddress a) in
  let! _ := on_node (addRoute (host_route peer 0 DIRECT ie)) in
  ret tt.

Definition rebuildRoutingTable : Eff t unit :=
  let! l := gets ted in
  let! V := calculateShortestPaths l (double_of_int 0) 7 in
  let! n := on_node getNumRoutes in
  on_node (drop_routes n 0) ;;;
  let! _ := mapE (fun '(i, v) => add_remote V i v) (zip (seq 0 (length V)) V) in
  let! addrs := gets interfaceAddrs in
  let! _ := mapE add_peer addrs in
  ret tt.

(** ** Keeping the database

    Whether [link] is news, and the index of the entry it replaces. *)
Fixpoint check_loop (link : TELinkStateInfo) (i : nat) (l : list TELinkStateInfo) : bool * option nat :=
  match l with
  | [] => (true, None)
  | it :: rest =>
      if (sourceId it =? sourceId link) && (messageId it =? messageId link) && (timestamp it =? timestamp link)
      then (false, None)
      else if (advrouter it =? advrouter link) && (linkid it =? linkid link) then
        if (timestamp it <? timestamp link) ||
           ((timestamp it =? timestamp link) && (messageId it <? messageId link))
        then (true, Some i)
        else (false, None)
      else check_loop link (S i) rest
  end.
Definition checkLinkValidity (link : TELinkStateInfo) : Eff t (bool * option nat) :=
  gets (fun s => check_loop link 0 (ted s)).

Definition updateTimestamp (i : nat) : Eff t unit :=
  let! l := link_at i in
  let! me := gets routerId in
  assert_ "link->advrouter == routerId" (advrouter l =? me) ;;;
  modify (fun s => s <| maxMessageId := i32 (maxMessageId s + 1) |>) ;;;
  modify (fun s => s <| ted := alter (fun l => l <| timestamp := clock (node s) |>
                                                 <| messageId := u32 (maxMessageId s) |>) i (ted s) |>).

(** ** Start

    The route over the interface: the first direct one, or the last route looked
    at.  [datarate] is the parameter of the channel behind a gate. *)
Fixpoint route_of (ifId : Z) (l : list IPRoute) (rentry : option IPRoute) : option IPRoute :=
  match l with
  | [] => rentry
  | r :: rest =>
      if bool_decide (interfacePtr r = Some ifId) && match type_ r with DIRECT => true | REMOTE => false end
      then Some r else route_of ifId rest (Some r)
  end.

Section Init.
Variable channel_datarate : Z -> spec_float.

Definition init_link (e : InterfaceEntry) : Eff t unit :=
  if nodeOutputGateId e =? -1 then ret tt else
  let! ps := on_node (get_rt (fun r => routes r ++ multicastRoutes r)) in
  let! es := on_node (mapE deref ps) in
  match route_of (interfaceId e) es None with
  | None => fail (AssertionFailed "rentry")
  | Some r =>
      assert_ "!remote.isUnspecified()" (negb (IPAddress.isUnspecified (gateway r))) ;;;
      let! d := ipv4Data e in
      let! ie := (match interfacePtr r with
                  | Some i => on_node (gets (fun n => InterfaceTable.getInterfaceById i (ift n)))
                  | None => ret None
                  end) in
      match ie with
      | None => fail (NullPointer "rentry->getInterface()")
      | Some ie =>
          let! d' := ipv4Data ie in
          modify (fun s => s <| maxMessageId := i32 (maxMessageId s + 1) |>) ;;;
          let bw := channel_datarate (nodeOutputGateId e) in
          modify (fun s => s <| ted := ted s ++ [
            {| advrouter := routerId s; linkid := host r; local := inetAddr d; remote := gateway r;
               te_metric := double_of_int (ifMetric d'); MaxBandwidth := bw; UnResvBandwidth := repeat bw 8;
               timestamp := clock (node s); sourceId := routerId s; messageId := u32 (maxMessageId s);
               te_state := true |}] |>)
      end
  end.

Definition init_address (e : InterfaceEntry) : Eff t unit :=
  let! d := ipv4Data e in
  let! ie := on_node (getInterfaceByAddress (inetAddr d)) in
  if negb (bool_decide (interfaceId <$> ie = Some (interfaceId e)))
  then fail (RuntimeError "MPLS models assume interfaces to have unique addresses") else
  if negb (loopback e) then modify (fun s => s <| interfaceAddrs := interfaceAddrs s ++ [inetAddr d] |>)
  else ret tt.

Definition initialize (n : Node) : Eff unit t := fun u =>
  let s := {| node := n; ted := []; routerId := RoutingTable.routerId (rt n); interfaceAddrs := []; maxMessageId := 0 |} in
  match (assert_ "!routerId.isUnspecified()" (negb (IPAddress.isUnspecified (routerId s))) ;;;
         let! l := on_node all_interfaces in
         let! _ := mapE init_link l in
         let! _ := mapE init_address l in
         rebuildRoutingTable) s with
  | Ok _ s => Ok s u
  | Err e => Err e
  end.
End Init.
End TED.
