(* ===== verification/TEDSpec.v ===== *)
(** * Shortest paths in the traffic engineering database

    The loop of [TED::calculateShortestPaths] computes shortest paths when the
    metrics are whole numbers, as the [int] metrics of the interfaces they come
    from.  The distances are first followed on whole numbers ([step]), where the
    theory of the algorithm is developed, and then related to the binary64 numbers
    of the code. *)
From Stdlib Require Import SpecFloat.
From S2P Require Import Prelude IPAddress MachineFloat MachineFloatSpec InterfaceTable RoutingTable TED.
Import TED.

Lemma duplicate_split {A} `{EqDecision A} (l : list A) :
  ~ NoDup l -> exists i j x, (i < j)%nat /\ l !! i = Some x /\ l !! j = Some x.
Proof.
  induction l as [|x l IH]; intros Hdup; [by destruct Hdup; constructor|].
  destruct (decide (x ∈ l)) as [Hx|Hx].
  - apply list_elem_of_lookup in Hx as [j Hj]. exists 0%nat, (S j), x. split_and!; [lia|done|done].
  - destruct IH as (i & j & y & Hij & Hi & Hj); [by intros ?; apply Hdup; constructor|].
    exists (S i), (S j), y. split_and!; [lia|done|done].
Qed.

Section Graph.
Context (edges : list edge_t) (w : edge_t -> Z) (M : Z).
Implicit Types (e : edge_t) (l : list edge_t).

Hypothesis w_range : forall e, e ∈ edges -> 0 <= w e <= M.

(** ** Walks *)
Inductive walk : nat -> list edge_t -> nat -> Prop :=
| walk_nil u : walk u [] u
| walk_cons e l v : e ∈ edges -> walk (dest e) l v -> walk (src e) (e :: l) v.

Definition weight l : Z := foldr (fun e acc => w e + acc) 0 l.

Lemma weight_app l l' : weight (l ++ l') = weight l + weight l'.
Proof. induction l as [|e l IH]; cbn; [done|]. fold (weight (l ++ l')) (weight l). lia. Qed.

Lemma walk_app u l v l' x : walk u l v -> walk v l' x -> walk u (l ++ l') x.
Proof. induction 1; cbn; [done|]. intros. constructor; auto. Qed.

Lemma walk_split u l l' x : walk u (l ++ l') x -> exists v, walk u l v /\ walk v l' x.
Proof.
  revert u. induction l as [|e l IH]; cbn; intros u Hw; [by exists u; split; [constructor|]|].
  inversion Hw as [|? ? ? He Hl]; subst. destruct (IH _ Hl) as (v & ? & ?). exists v. by split; [constructor|].
Qed.

Lemma walk_edges u l v : walk u l v -> Forall (fun e => e ∈ edges) l.
Proof. induction 1; by constructor. Qed.

Lemma weight_nonneg l : Forall (fun e => e ∈ edges) l -> 0 <= weight l.
Proof. induction 1 as [|e l He _ IH]; cbn; [done|]. fold (weight l). pose proof (w_range e He). lia. Qed.

Definition trace (u : nat) l : list nat := u :: (dest <$> l).

Lemma walk_trace u l v i x :
  walk u l v -> trace u l !! i = Some x -> walk u (take i l) x /\ walk x (drop i l) v.
Proof.
  intros Hw. revert i x. induction Hw as [u|e l v He Hw IH]; intros [|i] x Hi; cbn in *.
  - injection Hi as <-. by split; constructor.
  - done.
  - injection Hi as <-. split; [constructor|by constructor].
  - destruct (IH i x Hi). by split; [constructor|].
Qed.

Context (n : nat).
Hypothesis edges_below : forall e, e ∈ edges -> (src e < n)%nat /\ (dest e < n)%nat.

Lemma trace_below u l v : (u < n)%nat -> walk u l v -> Forall (fun x => (x < n)%nat) (trace u l).
Proof.
  intros Hu Hw%walk_edges. constructor; [done|]. rewrite Forall_fmap. eapply Forall_impl; [done|].
  intros e He. by apply edges_below.
Qed.

(** A walk that meets a vertex twice can leave out what is between. *)
Lemma walk_shorten u l v :
  (u < n)%nat -> walk u l v -> (n <= length l)%nat ->
  exists l', walk u l' v /\ weight l' <= weight l /\ (length l' < length l)%nat.
Proof.
  intros Hu Hw Hlen.
  assert (~ NoDup (trace u l)) as Hdup.
  { intros Hnd. assert (length (trace u l) <= length (seq 0 n))%nat as Hle.
    { apply submseteq_length, NoDup_submseteq; [done|]. intros x Hx. apply elem_of_seq.
      pose proof (trace_below u l v Hu Hw) as Hb. rewrite Forall_forall in Hb. specialize (Hb x Hx). lia. }
    rewrite length_seq in Hle. unfold trace in Hle. rewrite length_cons, length_fmap in Hle. lia. }
  apply duplicate_split in Hdup as (i & j & x & Hij & Hi & Hj).
  destruct (walk_trace u l v i x Hw Hi) as [Hi1 _]. destruct (walk_trace u l v j x Hw Hj) as [_ Hj2].
  exists (take i l ++ drop j l). split; [by eapply walk_app|].
  assert (j <= length l)%nat.
  { apply lookup_lt_Some in Hj. unfold trace in Hj. rewrite length_cons, length_fmap in Hj. lia. }
  split.
  - rewrite <- (take_drop i l) at 3. rewrite <- (take_drop (j - i) (drop i l)), drop_drop, !weight_app.
    replace (i + (j - i))%nat with j by lia.
    pose proof (weight_nonneg (take (j - i) (drop i l))) as Hn. apply walk_edges in Hw.
    specialize (Hn ltac:(by apply Forall_take, Forall_drop)). lia.
  - rewrite length_app, length_take, length_drop. lia.
Qed.

Lemma walk_short u l v :
  (u < n)%nat -> walk u l v -> exists l', walk u l' v /\ weight l' <= weight l /\ (length l' < n)%nat.
Proof.
  intros Hu. remember (length l) as k eqn:Hk. revert l Hk. induction k as [k IH] using lt_wf_ind; intros l -> Hw.
  destruct (decide (length l < n)%nat) as [|Hge]; [by exists l|].
  destruct (walk_shorten u l v) as (l' & Hl' & Hwt & Hlt); [done..|lia|].
  destruct (IH (length l') Hlt l' eq_refl Hl') as (l'' & ? & ? & ?). exists l''. split_and!; [done|lia|done].
Qed.
End Graph.

(** ** The algorithm on whole numbers

    A label is the distance of a vertex, if one is known, and its parent. *)
Section BellmanFord.
Context (edges : list edge_t) (w : edge_t -> Z) (M : Z) (n r : nat).
Implicit Types (e : edge_t) (A : list (option Z * option nat)).
Hypothesis w_range : forall e, e ∈ edges -> 0 <= w e <= M.
Hypothesis edges_below : forall e, e ∈ edges -> (src e < n)%nat /\ (dest e < n)%nat.
Hypothesis no_self_links : forall e, e ∈ edges -> src e <> dest e.
Hypothesis root_below : (r < n)%nat.

Definition step e A : bool * list (option Z * option nat) :=
  match A !! src e, A !! dest e with
  | Some (Some d, _), Some (x, _) =>
      if match x with Some y => y <=? d + w e | None => false end then (false, A)
      else (true, <[dest e := (Some (d + w e), Some (src e))]> A)
  | _, _ => (false, A)
  end.

Fixpoint pass (l : list edge_t) A : bool * list (option Z * option nat) :=
  match l with
  | [] => (false, A)
  | e :: l => let '(b, A') := step e A in let '(b', A'') := pass l A' in (b || b', A'')
  end.

Fixpoint passes (k : nat) A : list (option Z * option nat) :=
  match k with
  | O => A
  | S k => let '(b, A') := pass edges A in if b then passes k A' else A'
  end.

(** *** The invariant *)
Definition reached (x : option Z * option nat) : bool := match fst x with Some _ => true | None => false end.
Definition num_reached A : Z := Z.of_nat (length (filter (fun x => reached x = true) A)).

(** The parents lead to the root, and the distances do not grow on the way. *)
Inductive rooted A : nat -> Prop :=
| rooted_root : A !! r = Some (Some 0, None) -> rooted A r
| rooted_step i d p d' q :
    A !! i = Some (Some d, Some p) -> A !! p = Some (Some d', q) -> d' <= d -> rooted A p -> rooted A i.

Record labels_ok A : Prop := {
  lab_length : length A = n;
  lab_root : A !! r = Some (Some 0, None);
  lab_walk : forall i d p, A !! i = Some (Some d, p) -> exists l, walk edges r l i /\ weight w l = d;
  lab_unknown : forall i p, A !! i = Some (None, p) -> p = None;
  lab_parent : forall i d p, A !! i = Some (Some d, Some p) ->
    exists e d' q, e ∈ edges /\ src e = p /\ dest e = i /\ A !! p = Some (Some d', q) /\ d' + w e <= d;
  lab_rooted : forall i d p, A !! i = Some (Some d, p) -> rooted A i;
  lab_bound : forall i d p, A !! i = Some (Some d, p) -> d <= (num_reached A - 1) * M
}.

Lemma label_nonneg A i d p : labels_ok A -> A !! i = Some (Some d, p) -> 0 <= d.
Proof.
  intros HA Hi. destruct (lab_walk A HA i d p Hi) as (l & Hl & <-).
  eapply weight_nonneg; [exact w_range|]. by eapply walk_edges.
Qed.

Lemma num_reached_insert A i x x' :
  A !! i = Some x -> reached x' = true ->
  num_reached (<[i := x']> A) = num_reached A + (if reached x then 0 else 1).
Proof.
  intros Hi Hx'. unfold num_reached. revert i Hi. induction A as [|y A IH]; intros [|i] Hi; cbn in Hi; [done|done| |].
  - injection Hi as ->. change (<[0%nat := x']> (x :: A)) with (x' :: A). rewrite !filter_cons. rewrite decide_True by done.
    destruct (reached x); [rewrite decide_True by done|rewrite decide_False by done]; cbn [length]; lia.
  - change (<[S i := x']> (y :: A)) with (y :: <[i := x']> A). rewrite !filter_cons. specialize (IH i Hi).
    destruct (decide (reached y = true)); cbn [length]; lia.
Qed.

Lemma num_reached_le A : num_reached A <= Z.of_nat (length A).
Proof. unfold num_reached. apply Nat2Z.inj_le, length_filter. Qed.

Lemma rooted_label A i : rooted A i -> exists d p, A !! i = Some (Some d, p).
Proof. intros [|]; eauto. Qed.

(** A label that improves is not among the ancestors of a nearer vertex. *)
Lemma rooted_nearer A i d p j x :
  rooted A i -> A !! i = Some (Some d, p) -> (forall d' q, A !! j = Some (Some d', q) -> d < d') ->
  rooted (<[j := x]> A) i.
Proof.
  intros Hr. revert d p. induction Hr as [Hroot|i d0 p0 d' q Hi Hp Hle Hr IH]; intros d p Hd Hj.
  - constructor. rewrite list_lookup_insert_ne; [done|]. intros ->. specialize (Hj _ _ Hd). lia.
  - rewrite Hi in Hd. injection Hd as -> <-. apply (rooted_step _ i d p0 d' q).
    + rewrite list_lookup_insert_ne; [done|]. intros ->. specialize (Hj _ _ Hi). lia.
    + rewrite list_lookup_insert_ne; [done|]. intros ->. specialize (Hj _ _ Hp). lia.
    + done.
    + eapply IH; [done|]. intros d'' q' Hq. specialize (Hj _ _ Hq). lia.
Qed.

(** What an improvement of vertex [j] to distance [x] over vertex [i] keeps. *)
Section Improve.
Context (A : list (option Z * option nat)) (e : edge_t) (d : Z) (p : option nat) (old : option Z * option nat).
Hypothesis HA : labels_ok A.
Hypothesis He : e ∈ edges.
Hypothesis Hsrc : A !! src e = Some (Some d, p).
Hypothesis Hdest : A !! dest e = Some old.
Hypothesis Hbetter : forall y, fst old = Some y -> d + w e < y.
Let A' : list (option Z * option nat) := <[dest e := (Some (d + w e), Some (src e))]> A.

Lemma improved_dest : A' !! dest e = Some (Some (d + w e), Some (src e)).
Proof. apply list_lookup_insert_eq. eapply lookup_lt_Some; exact Hdest. Qed.

Lemma improved_other i : i <> dest e -> A' !! i = A !! i.
Proof. intros. by apply list_lookup_insert_ne. Qed.

Lemma improved_not_root : dest e <> r.
Proof.
  intros Hr. pose proof (label_nonneg A _ _ _ HA Hsrc). pose proof (w_range e He).
  pose proof Hdest as Hd. rewrite Hr, (lab_root A HA) in Hd. injection Hd as Hold. pose proof (Hbetter 0) as Hb.
  rewrite <- Hold in Hb. specialize (Hb eq_refl). lia.
Qed.

(** A vertex that had a distance still has one, not a longer one. *)
Lemma improved_le i x q : A !! i = Some (Some x, q) -> exists x' q', A' !! i = Some (Some x', q') /\ x' <= x.
Proof.
  intros Hi. destruct (decide (i = dest e)) as [->|Hne].
  - exists (d + w e), (Some (src e)). split; [apply improved_dest|]. rewrite Hdest in Hi. injection Hi as Hold.
    pose proof (Hbetter x) as Hb. rewrite Hold in Hb. specialize (Hb eq_refl). lia.
  - exists x, q. split; [by rewrite improved_other|lia].
Qed.

Lemma improved_src_rooted : rooted A' (src e).
Proof.
  eapply rooted_nearer; [by eapply lab_rooted|exact Hsrc|]. intros d' q Hq. rewrite Hdest in Hq. injection Hq as Hold.
  pose proof (Hbetter d') as Hb. rewrite Hold in Hb. specialize (Hb eq_refl). pose proof (w_range e He). lia.
Qed.

Lemma improved_dest_rooted : rooted A' (dest e).
Proof.
  eapply rooted_step; [apply improved_dest| | |apply improved_src_rooted].
  - rewrite improved_other; [exact Hsrc|]. by apply no_self_links.
  - pose proof (w_range e He). lia.
Qed.

Lemma improved_rooted i : rooted A i -> rooted A' i.
Proof.
  pose proof improved_dest_rooted as Hd.
  induction 1 as [Hroot|i d0 p0 d' q Hi Hp Hle Hr IH].
  - constructor. rewrite improved_other; [done|]. intros Hr. by apply improved_not_root.
  - destruct (decide (i = dest e)) as [->|Hne]; [done|].
    destruct (improved_le p0 d' q Hp) as (x' & q' & Hp' & Hle').
    eapply rooted_step; [by rewrite improved_other|exact Hp'|lia|done].
Qed.

Lemma improved_ok : labels_ok A'.
Proof.
  pose proof (w_range e He). pose proof (label_nonneg A _ _ _ HA Hsrc).
  assert (forall i x q, A' !! i = Some (Some x, q) ->
    (i = dest e /\ x = d + w e /\ q = Some (src e)) \/ (i <> dest e /\ A !! i = Some (Some x, q))) as Hcase.
  { intros i x q Hi. destruct (decide (i = dest e)) as [->|Hne].
    - rewrite improved_dest in Hi. injection Hi as <- <-. by left.
    - rewrite improved_other in Hi by done. by right. }
  split.
  - unfold A'. by rewrite length_insert, (lab_length A HA).
  - rewrite improved_other; [apply (lab_root A HA)|]. intros Hr. by apply improved_not_root.
  - intros i x q [(-> & -> & ->)|[_ Hi]]%Hcase; [|by eapply lab_walk].
    destruct (lab_walk A HA _ _ _ Hsrc) as (l & Hl & <-). exists (l ++ [e]). split.
    + eapply walk_app; [exact Hl|]. constructor; [done|constructor].
    + rewrite weight_app. cbn. lia.
  - intros i q Hi. destruct (decide (i = dest e)) as [->|Hne]; [by rewrite improved_dest in Hi|].
    rewrite improved_other in Hi by done. by eapply lab_unknown.
  - intros i x q [(-> & -> & [= ->])|[Hne Hi]]%Hcase.
    + exists e, d, p. split_and!; [done..| |lia]. rewrite improved_other; [exact Hsrc|]. by apply no_self_links.
    + destruct (lab_parent A HA _ _ _ Hi) as (e' & d' & q' & He' & Hs & Ht & Hq & Hle).
      destruct (improved_le q d' q' Hq) as (x' & q'' & Hx' & Hle'). exists e', x', q''. split_and!; [done..|lia].
  - intros i x q [(-> & -> & ->)|[Hne Hi]]%Hcase.
    + apply improved_dest_rooted.
    + apply improved_rooted. by eapply lab_rooted.
  - intros i x q Hi. pose proof (num_reached_insert A _ _ (Some (d + w e), Some (src e)) Hdest eq_refl) as Hn.
    fold A' in Hn. pose proof (lab_bound A HA _ _ _ Hsrc).
    apply Hcase in Hi as [(-> & -> & ->)|[Hne Hi]].
    + unfold reached in Hn. destruct (fst old) as [y|] eqn:Ey; [|nia].
      pose proof Hdest as Hd. rewrite (surjective_pairing old), Ey in Hd. pose proof (lab_bound A HA _ _ _ Hd).
      pose proof (Hbetter y eq_refl). lia.
    + pose proof (lab_bound A HA _ _ _ Hi). destruct (reached old); nia.
Qed.
End Improve.

(** *** Steps and rounds *)
Lemma step_ok e A : e ∈ edges -> labels_ok A -> labels_ok (snd (step e A)).
Proof.
  intros He HA. unfold step. destruct (A !! src e) as [[[d|] p]|] eqn:Hs; [|done..].
  destruct (A !! dest e) as [[x q]|] eqn:Hd; [|done].
  destruct (match x with Some y => y <=? d + w e | None => false end) eqn:E; [done|]. cbn [snd].
  eapply improved_ok; [done|done|exact Hs|exact Hd|]. intros y Hy. cbn in Hy. subst. lia.
Qed.

(** The vertex at [i] is known to be at most [c] away. *)
Definition within A (i : nat) (c : Z) : Prop := exists d p, A !! i = Some (Some d, p) /\ d <= c.

Lemma step_within e A i c : within A i c -> within (snd (step e A)) i c.
Proof.
  intros (d & p & Hi & Hc). unfold step. destruct (A !! src e) as [[[ds|] ps]|] eqn:Hs; [|by exists d, p..].
  destruct (A !! dest e) as [[x q]|] eqn:Hd; [|by exists d, p].
  destruct (match x with Some y => y <=? ds + w e | None => false end) eqn:E; [by exists d, p|]. cbn [snd].
  destruct (decide (i = dest e)) as [->|Hne].
  - exists (ds + w e), (Some (src e)). split; [by apply list_lookup_insert_eq; eapply lookup_lt_Some|].
    rewrite Hd in Hi. injection Hi as -> ->. lia.
  - exists d, p. by rewrite list_lookup_insert_ne.
Qed.

(** After a step the end of the edge is not farther than the step allows. *)
Lemma step_relaxes e A c : e ∈ edges -> labels_ok A -> within A (src e) c -> within (snd (step e A)) (dest e) (c + w e).
Proof.
  intros He HA (d & p & Hs & Hc). unfold step. rewrite Hs.
  destruct (lookup_lt_is_Some_2 A (dest e)) as [[x q] Hd]; [rewrite (lab_length A HA); by apply edges_below|].
  rewrite Hd. destruct (match x with Some y => y <=? d + w e | None => false end) eqn:E; cbn [snd].
  - destruct x as [y|]; [|done]. exists y, q. split; [done|lia].
  - exists (d + w e), (Some (src e)). split; [by apply list_lookup_insert_eq; eapply lookup_lt_Some|lia].
Qed.

Lemma step_idle e A : fst (step e A) = false -> snd (step e A) = A.
Proof.
  unfold step. destruct (A !! src e) as [[[d|] p]|]; [|done..]. destruct (A !! dest e) as [[x q]|]; [|done].
  by destruct (match x with Some y => y <=? d + w e | None => false end).
Qed.

Lemma pass_cons e l A :
  pass (e :: l) A = (fst (step e A) || fst (pass l (snd (step e A))), snd (pass l (snd (step e A)))).
Proof. cbn [pass]. destruct (step e A) as [b A']. cbn [fst snd]. by destruct (pass l A'). Qed.

Lemma pass_ok l A : l ⊆ edges -> labels_ok A -> labels_ok (snd (pass l A)).
Proof.
  revert A. induction l as [|e l IH]; intros A Hl HA; [done|]. rewrite pass_cons. cbn [snd].
  apply IH; [set_solver|]. apply step_ok; [set_solver|done].
Qed.

Lemma pass_within l A i c : within A i c -> within (snd (pass l A)) i c.
Proof.
  revert A. induction l as [|e l IH]; intros A Hi; [done|]. rewrite pass_cons. cbn [snd]. by apply IH, step_within.
Qed.

Lemma pass_relaxes l A e c :
  l ⊆ edges -> labels_ok A -> e ∈ l -> within A (src e) c -> within (snd (pass l A)) (dest e) (c + w e).
Proof.
  revert A. induction l as [|e' l IH]; intros A Hl HA He Hs; [set_solver|]. rewrite pass_cons. cbn [snd].
  apply elem_of_cons in He as [->|He].
  - apply pass_within, step_relaxes; [set_solver|done|done].
  - apply IH; [set_solver|apply step_ok; [set_solver|done]|done|by apply step_within].
Qed.

Lemma pass_idle l A : fst (pass l A) = false -> snd (pass l A) = A.
Proof.
  revert A. induction l as [|e l IH]; intros A; [done|]. rewrite pass_cons. cbn [fst snd].
  intros [Hs Hp]%orb_false_elim. rewrite IH by done. by apply step_idle.
Qed.

Lemma passes_ok k A : labels_ok A -> labels_ok (passes k A).
Proof.
  revert A. induction k as [|k IH]; intros A HA; cbn [passes]; [done|].
  pose proof (pass_ok edges A) as Hp. destruct (pass edges A) as [b A']. cbn in Hp. destruct b; [apply IH|]; by apply Hp.
Qed.

(** When nothing changes, every walk is accounted for. *)
Lemma idle_complete A l i :
  labels_ok A -> snd (pass edges A) = A -> walk edges r l i -> within A i (weight w l).
Proof.
  intros HA Hidle. revert i. induction l as [|e l IH] using rev_ind; intros i Hw.
  - inversion Hw; subst. exists 0, None. split; [apply (lab_root A HA)|done].
  - apply walk_split in Hw as (v & Hl & He). inversion He as [|? ? ? Hin Hnil]; subst. inversion Hnil; subst.
    rewrite weight_app. cbn. rewrite Z.add_0_r. rewrite <- Hidle. apply pass_relaxes; [done|done|done|by apply IH].
Qed.

Lemma passes_complete k j A l i :
  labels_ok A -> (forall l i, walk edges r l i -> (length l <= j)%nat -> within A i (weight w l)) ->
  walk edges r l i -> (length l <= j + k)%nat -> within (passes k A) i (weight w l).
Proof.
  revert j A l i. induction k as [|k IH]; intros j A l i HA Hj Hw Hlen; cbn [passes]; [apply Hj; [done|lia]|].
  pose proof (pass_ok edges A) as Hok. pose proof (pass_idle edges A) as Hidle.
  pose proof (pass_within edges A) as Hin. pose proof (pass_relaxes edges A) as Hrel.
  destruct (pass edges A) as [b A'] eqn:Ep. cbn in *. specialize (Hok ltac:(done) HA). destruct b.
  - apply (IH (S j)); [done| |done|lia]. clear l i Hw Hlen. intros l i Hw Hlen.
    destruct l as [|e l _] using rev_ind; [apply Hin, Hj; [done|cbn; lia]|].
    apply walk_split in Hw as (v & Hl & He). inversion He as [|? ? ? Hie Hnil]; subst. inversion Hnil; subst.
    rewrite weight_app. cbn. rewrite Z.add_0_r. rewrite length_app in Hlen. cbn in Hlen.
    apply Hrel; [done|done|done|]. apply Hj; [done|lia].
  - specialize (Hidle eq_refl). subst A'. apply idle_complete; [done|by rewrite Ep|done].
Qed.

(** *** The result *)
Definition start : list (option Z * option nat) := <[r := (Some 0, None)]> (replicate n (None, None)).

Lemma start_lookup i x : start !! i = Some x -> (i = r /\ x = (Some 0, None)) \/ (i <> r /\ x = (None, None)).
Proof.
  unfold start. destruct (decide (i = r)) as [Hi|Hne].
  - rewrite Hi, list_lookup_insert_eq by by rewrite length_replicate. intros [= <-]. by left.
  - rewrite list_lookup_insert_ne by done. intros [-> _]%lookup_replicate. by right.
Qed.

Lemma start_ok : labels_ok start.
Proof.
  assert (start !! r = Some (Some 0, None)) as Hr by (apply list_lookup_insert_eq; by rewrite length_replicate).
  split.
  - unfold start. by rewrite length_insert, length_replicate.
  - done.
  - intros i d p [(Hi & [= -> ->])|(_ & ?)]%start_lookup; [|done]. rewrite Hi. exists []. by split; [constructor|].
  - intros i p [(_ & ?)|(_ & [= ->])]%start_lookup; done.
  - intros i d p [(_ & ?)|(_ & ?)]%start_lookup; done.
  - intros i d p [(Hi & [= -> ->])|(_ & ?)]%start_lookup; [|done]. rewrite Hi. by constructor.
  - intros i d p [(Hi & [= -> ->])|(_ & ?)]%start_lookup; [|done].
    unfold start. rewrite (num_reached_insert _ r (None, None)); [|by apply lookup_replicate_2|done]. cbn.
    assert (num_reached (replicate n (None, None)) = 0) as ->; [|lia].
    unfold num_reached. by rewrite filter_nothing by (apply Forall_replicate; done).
Qed.

Definition result : list (option Z * option nat) := passes (n - 1) start.

Lemma result_ok : labels_ok result.
Proof. apply passes_ok, start_ok. Qed.

Lemma result_complete l i : walk edges r l i -> within result i (weight w l).
Proof.
  intros Hw. destruct (walk_short edges w M w_range n edges_below r l i root_below Hw) as (l' & Hw' & Hle & Hlen).
  destruct (passes_complete (n - 1) 0 start l' i start_ok) as (d & p & Hi & Hd); [|done|lia|].
  - intros [|] j Hj Hz; [|cbn in Hz; lia]. inversion Hj; subst. exists 0, None. split; [apply start_ok|done].
  - exists d, p. split; [done|lia].
Qed.

(** The distance of a vertex is that of a shortest walk, its parent is the vertex
    before it on one. *)
Lemma result_parent i d p :
  result !! i = Some (Some d, Some p) ->
  exists e d' q, e ∈ edges /\ src e = p /\ dest e = i /\ result !! p = Some (Some d', q) /\ d = d' + w e.
Proof.
  intros Hi. destruct (lab_parent result result_ok i d p Hi) as (e & d' & q & He & Hs & Ht & Hq & Hle).
  exists e, d', q. split_and!; [done..|].
  destruct (lab_walk result result_ok p d' q Hq) as (l & Hl & <-).
  destruct (result_complete (l ++ [e]) i) as (d2 & q2 & Hi2 & Hd2).
  { eapply walk_app; [exact Hl|]. rewrite <- Hs, <- Ht. constructor; [done|constructor]. }
  rewrite Hi in Hi2. injection Hi2 as <- <-. rewrite weight_app in Hd2. cbn in Hd2. lia.
Qed.
End BellmanFord.

(** ** The algorithm of the code *)
Definition is_dist (f : spec_float) (x : option Z) : Prop :=
  match x with Some d => f = double_of_int d | None => f = LS_INFINITY end.
Definition labelled (v : vertex_t) (a : option Z * option nat) : Prop := parent v = snd a /\ is_dist (dist v) (fst a).

Definition max_metric : Z := 2147483647.
Definition max_vertices : Z := 1048576.

(** A comparison with the distance over an unreached vertex. *)
Lemma unreached_leb x m :
  (match x with Some d => 0 <= d < 2 ^ 53 | None => True end) -> 0 <= m < 2 ^ 32 -> forall f, is_dist f x ->
  SFleb f (double_add LS_INFINITY (double_of_int m)) = true.
Proof.
  intros Hx Hm f Hf. destruct (infinity_add m Hm) as (k & Hk & Hadd).
  change LS_INFINITY with (double_of_int ten_to_16). rewrite Hadd. unfold SFleb.
  destruct x as [d|]; unfold is_dist in Hf; rewrite Hf.
  - by rewrite whole_below_infinity.
  - change LS_INFINITY with (double_of_int ten_to_16). rewrite infinity_normal, normal_compare by lia.
    by destruct (Z.compare_spec 5000000000000000 k); [..|lia].
Qed.

Lemma infinity_not_leb d : 0 <= d < 2 ^ 53 -> SFleb LS_INFINITY (double_of_int d) = false.
Proof.
  intros Hd. unfold SFleb. change LS_INFINITY with (double_of_int ten_to_16). rewrite infinity_normal.
  destruct (decide (d = 0)) as [->|Hd0]; [done|]. rewrite double_of_int_whole by lia.
  pose proof (log2_53 d ltac:(lia)). unfold whole, normal, SFcompare.
  by destruct (Z.compare_spec 1 (Z.log2 d - 52)); [lia|lia|].
Qed.

Lemma same_nodes (vs : list vertex_t) i v v' :
  vs !! i = Some v -> v_node v' = v_node v -> v_node <$> <[i := v']> vs = v_node <$> vs.
Proof. intros Hi Hv. rewrite list_fmap_insert, Hv. apply list_insert_id. by rewrite list_lookup_fmap, Hi. Qed.

Section Simulation.
Context (edges : list edge_t) (w : edge_t -> Z) (n r : nat).
Implicit Types (e : edge_t) (A : list (option Z * option nat)) (vs : list vertex_t).
Hypothesis w_range : forall e, e ∈ edges -> 0 <= w e <= max_metric.
Hypothesis w_metric : forall e, e ∈ edges -> e_metric e = double_of_int (w e).
Hypothesis edges_below : forall e, e ∈ edges -> (src e < n)%nat /\ (dest e < n)%nat.
Hypothesis no_self_links : forall e, e ∈ edges -> src e <> dest e.
Hypothesis root_below : (r < n)%nat.
Hypothesis n_small : Z.of_nat n <= max_vertices.
Let ok := labels_ok edges w max_metric n r.

Lemma label_small A i d p : ok A -> A !! i = Some (Some d, p) -> 0 <= d <= 2 ^ 51.
Proof.
  intros HA Hi. split; [by eapply label_nonneg|].
  pose proof (lab_bound _ _ _ _ _ A HA i d p Hi) as Hb. pose proof (num_reached_le A) as Hn.
  rewrite (lab_length _ _ _ _ _ A HA) in Hn. unfold max_metric, max_vertices in *. lia.
Qed.

Lemma relax_run e A vs :
  e ∈ edges -> ok A -> Forall2 labelled vs A ->
  exists vs', relax e vs = Ok (fst (step w e A)) vs' /\ Forall2 labelled vs' (snd (step w e A)) /\
    v_node <$> vs' = v_node <$> vs.
Proof.
  intros He HA Hrep. pose proof (Forall2_length _ _ _ Hrep) as Hlen. pose proof (lab_length _ _ _ _ _ A HA) as Hn.
  destruct (edges_below e He) as [Hs Hd]. rewrite <- Hn, <- Hlen in Hs, Hd.
  destruct (lookup_lt_is_Some_2 vs (src e) Hs) as [s Es]. destruct (lookup_lt_is_Some_2 vs (dest e) Hd) as [d Ed].
  destruct (Forall2_lookup_l _ _ _ _ _ Hrep Es) as ([ds ps] & As & Hps & Hds).
  destruct (Forall2_lookup_l _ _ _ _ _ Hrep Ed) as ([dd pd] & Ad & Hpd & Hdd). cbn [fst snd] in *.
  unfold relax, bind, gets, assert_. rewrite (proj2 (Nat.ltb_lt _ _) Hs), (proj2 (Nat.ltb_lt _ _) Hd).
  rewrite (proj2 (Nat.eqb_neq _ _) (no_self_links e He)). cbn [negb ret]. rewrite Es, Ed, (w_metric e He).
  pose proof (w_range e He) as Hw. unfold max_metric in Hw. unfold step. rewrite As, Ad.
  assert (match dd with Some d => 0 <= d < 2 ^ 53 | None => True end) as Hdr.
  { destruct dd as [x|]; [|done]. pose proof (label_small A _ _ _ HA Ad). lia. }
  destruct ds as [x|]; unfold is_dist in Hds; rewrite Hds.
  - pose proof (label_small A _ _ _ HA As). rewrite double_add_whole by lia.
    destruct dd as [y|]; unfold is_dist in Hdd; rewrite Hdd.
    + rewrite double_leb_whole by lia. destruct (y <=? x + w e); [by eexists|].
      eexists. split; [done|]. split; [by apply Forall2_insert|]. by eapply same_nodes.
    + rewrite infinity_not_leb by lia. eexists. split; [done|]. split; [by apply Forall2_insert|]. by eapply same_nodes.
  - rewrite (unreached_leb dd) by (done || lia). by eexists.
Qed.

Lemma pass_run l A vs :
  l ⊆ edges -> ok A -> Forall2 labelled vs A ->
  exists bs vs', mapE relax l vs = Ok bs vs' /\ existsb id bs = fst (pass w l A) /\
    Forall2 labelled vs' (snd (pass w l A)) /\ v_node <$> vs' = v_node <$> vs.
Proof.
  revert A vs. induction l as [|e l IH]; intros A vs Hl HA Hrep; [by exists [], vs|].
  destruct (relax_run e A vs) as (vs1 & Hrun & Hrep1 & Hnodes1); [set_solver|done|done|].
  assert (ok (snd (step w e A))) as HA1.
  { apply step_ok; [done..|set_solver|done]. }
  destruct (IH (snd (step w e A)) vs1) as (bs & vs2 & Hrun2 & Hb & Hrep2 & Hnodes2); [set_solver|done|done|].
  exists (fst (step w e A) :: bs), vs2. rewrite pass_cons. cbn [fst snd existsb mapE].
  rewrite (bind_ok _ _ _ _ _ Hrun), (bind_ok _ _ _ _ _ Hrun2). split_and!; [done|by rewrite Hb|done|by rewrite Hnodes2].
Qed.

Lemma rounds_run k A vs :
  ok A -> Forall2 labelled vs A ->
  exists vs', rounds k edges vs = Ok tt vs' /\ Forall2 labelled vs' (passes edges w k A) /\ v_node <$> vs' = v_node <$> vs.
Proof.
  revert A vs. induction k as [|k IH]; intros A vs HA Hrep; [by exists vs|]. cbn [rounds passes].
  destruct (pass_run edges A vs) as (bs & vs1 & Hrun & Hb & Hrep1 & Hnodes1); [done..|].
  assert (ok (snd (pass w edges A))) as HA1 by (by apply pass_ok).
  rewrite (bind_ok _ _ _ _ _ Hrun), Hb. destruct (pass w edges A) as [b A']. cbn [fst snd] in *. destruct b.
  - destruct (IH A' vs1 HA1 Hrep1) as (vs2 & ? & ? & Hn). exists vs2. by rewrite Hn.
  - by exists vs1.
Qed.
End Simulation.
