(* ===== verification/TEDPaths.v ===== *)
(** * The paths of the traffic engineering database

    What [calculateShortestPaths] and [calculateShortestPath] return, in terms of
    the links of the database. *)
From Stdlib Require Import SpecFloat.
From S2P Require Import Prelude IPAddress MachineFloat MachineFloatSpec InterfaceTable RoutingTable TED TEDSpec.
Import TED.

(** ** Links and paths *)
Definition usable (req_bandwidth : spec_float) (priority : nat) (l : TELinkStateInfo) : bool :=
  te_state l && match UnResvBandwidth l !! priority with Some b => negb (SFltb b req_bandwidth) | None => false end.

(** The whole number a metric stands for. *)
Definition cost (f : spec_float) : Z := default 0 (ceil f).

Definition metric_ok (l : TELinkStateInfo) : Prop :=
  exists m, te_metric l = double_of_int m /\ 0 <= m <= max_metric.

Inductive path (links : list TELinkStateInfo) (root : IPAddress.t) : Z -> IPAddress.t -> Prop :=
| path_root : path links root 0 root
| path_link c l : path links root c (advrouter l) -> l ∈ links -> path links root (c + cost (te_metric l)) (linkid l).

Lemma cost_int m : 0 <= m < 2 ^ 53 -> cost (double_of_int m) = m.
Proof.
  intros Hm. destruct (decide (m = 0)) as [->|Hm0]; [done|].
  rewrite double_of_int_whole by lia. pose proof (log2_53 m ltac:(lia)). unfold cost, whole, normal, ceil.
  assert (0 < m * 2 ^ (52 - Z.log2 m)) by (apply Z.mul_pos_pos; lia). cbn [default].
  rewrite Z2Pos.id by done. set (k := 52 - Z.log2 m) in *.
  destruct (Z.leb_spec 0 (Z.log2 m - 52)); unfold id.
  - replace (Z.log2 m - 52) with 0 by lia. replace k with 0 by lia. lia.
  - replace (- (Z.log2 m - 52)) with k by lia. rewrite <- Z.mul_opp_l, Z.div_mul by lia. lia.
Qed.

Lemma metric_cost l : metric_ok l -> te_metric l = double_of_int (cost (te_metric l)) /\ 0 <= cost (te_metric l) <= max_metric.
Proof. unfold max_metric. intros (m & Hm & Hr). rewrite Hm, cost_int by (unfold max_metric in Hr; lia). done. Qed.

(** ** The graph of the links *)
Definition fresh_vertices (vs : list vertex_t) : Prop :=
  NoDup (v_node <$> vs) /\ Forall (fun v => parent v = None /\ dist v = LS_INFINITY) vs.

Definition edge_of (nodes : list IPAddress.t) (l : TELinkStateInfo) (e : edge_t) : Prop :=
  nodes !! src e = Some (advrouter l) /\ nodes !! dest e = Some (linkid l) /\ e_metric e = te_metric l.

Lemma index_of_spec vs a :
  match index_of vs a with Some i => (v_node <$> vs) !! i = Some a | None => a ∉ v_node <$> vs end.
Proof.
  induction vs as [|v vs IH]; cbn [index_of fmap list_fmap]; [set_solver|].
  destruct (Z.eqb_spec (v_node v) a) as [<-|Hne]; [done|].
  destruct (index_of vs a); cbn; [done|]. by apply not_elem_of_cons.
Qed.

Lemma assignIndex_spec vs a i vs' :
  assignIndex vs a = (i, vs') -> fresh_vertices vs ->
  fresh_vertices vs' /\ (v_node <$> vs) `prefix_of` (v_node <$> vs') /\ (v_node <$> vs') !! i = Some a /\
  (length vs' <= S (length vs))%nat.
Proof.
  intros Ha [Hnd Hf]. pose proof (index_of_spec vs a) as Hi. unfold assignIndex in Ha.
  destruct (index_of vs a) as [k|]; injection Ha as <- <-; [split_and!; [done|done|done|lia]|].
  rewrite !fmap_app, length_app. cbn. split_and!.
  - split; [|by apply Forall_app; split; [|repeat constructor]].
    rewrite fmap_app. apply NoDup_app. split_and!; [done|set_solver|apply NoDup_singleton].
  - by apply prefix_app_r.
  - rewrite lookup_app_r by by rewrite length_fmap. rewrite length_fmap, Nat.sub_diag. done.
  - lia.
Qed.

Lemma edge_of_prefix nodes nodes' l e : nodes `prefix_of` nodes' -> edge_of nodes l e -> edge_of nodes' l e.
Proof. intros Hp (? & ? & ?). split_and!; [by eapply prefix_lookup_Some..|done]. Qed.

Lemma collect_run topology req prio vs es s :
  Forall (fun l => is_Some (UnResvBandwidth l !! prio)) topology -> fresh_vertices vs ->
  exists vs' es', collect topology req prio vs es s = Ok (vs', es ++ es') s /\ fresh_vertices vs' /\
    (v_node <$> vs) `prefix_of` (v_node <$> vs') /\
    Forall2 (edge_of (v_node <$> vs')) (filter (fun l => usable req prio l = true) topology) es' /\
    (length vs' <= length vs + 2 * length es')%nat.
Proof.
  intros Hbw. revert vs es. induction Hbw as [|l topology [b Hb] _ IH]; intros vs es Hf.
  - exists vs, []. rewrite app_nil_r. split_and!; [done|done|done|constructor|lia].
  - cbn [collect]. rewrite filter_cons, Hb.
    assert (usable req prio l = te_state l && negb (SFltb b req)) as Hu by (unfold usable; by rewrite Hb).
    destruct (te_state l); cbn [negb andb] in *; [|rewrite decide_False by (by rewrite Hu); by apply IH].
    destruct (SFltb b req); cbn [negb] in *; [rewrite decide_False by (by rewrite Hu); by apply IH|].
    rewrite decide_True by done.
    destruct (assignIndex vs (advrouter l)) as [i vs1] eqn:E1. destruct (assignIndex vs1 (linkid l)) as [j vs2] eqn:E2.
    destruct (assignIndex_spec _ _ _ _ E1 Hf) as (Hf1 & Hp1 & Hi & Hl1).
    destruct (assignIndex_spec _ _ _ _ E2 Hf1) as (Hf2 & Hp2 & Hj & Hl2).
    destruct (IH vs2 (es ++ [mk_edge i j (te_metric l)]) Hf2) as (vs' & es' & Hrun & Hf' & Hp' & He' & Hl').
    exists vs', (mk_edge i j (te_metric l) :: es'). rewrite Hrun, <- app_assoc. split_and!; [done|done| | |cbn; lia].
    + etrans; [exact Hp1|]. by etrans.
    + constructor; [|done]. split_and!; [|by eapply prefix_lookup_Some|done].
      eapply prefix_lookup_Some; [|exact Hp']. by eapply prefix_lookup_Some.
Qed.

(** ** Parents

    The indices from a vertex to the root of its tree. *)
Inductive chain (V : list vertex_t) : nat -> list nat -> Prop :=
| chain_root i v : V !! i = Some v -> parent v = None -> chain V i [i]
| chain_step i v p l : V !! i = Some v -> parent v = Some p -> chain V p l -> chain V i (i :: l).

Lemma chain_det V i l l' : chain V i l -> chain V i l' -> l = l'.
Proof.
  intros Hc. revert l'. induction Hc as [i v Hv Hp|i v p l Hv Hp Hc IH]; intros l' Hc';
    inversion Hc' as [? v' Hv' Hp'|? v' p' m Hv' Hp' Hm]; subst; rewrite Hv in Hv'; injection Hv' as <-; [done|congruence|congruence|].
  rewrite Hp in Hp'. injection Hp' as <-. by rewrite (IH m Hm).
Qed.

Lemma chain_suffix V i l l' j : chain V i (l ++ j :: l') -> chain V j (j :: l').
Proof.
  revert i. induction l as [|k l IH]; intros i Hc; cbn in Hc.
  - inversion Hc; subst; done.
  - inversion Hc as [? ? ? ? Hnil|? ? p m ? ? Hm]; subst; [by destruct l|]. by eapply IH.
Qed.

Lemma chain_head V i l : chain V i l -> exists l', l = i :: l'.
Proof. destruct 1; eauto. Qed.

Lemma chain_below V i l : chain V i l -> Forall (fun j => (j < length V)%nat) l.
Proof. induction 1; repeat constructor; try done; by eapply lookup_lt_Some. Qed.

(** No vertex is its own ancestor. *)
Lemma chain_NoDup V i l : chain V i l -> NoDup l.
Proof.
  induction 1 as [i v Hv Hp|i v p l Hv Hp Hc IH]; [apply NoDup_singleton|]. constructor; [|done].
  intros (l1 & l2 & ->)%list_elem_of_split.
  assert (i :: l2 = i :: l1 ++ i :: l2) as Heq.
  { eapply chain_det; [by eapply chain_suffix|by eapply chain_step]. }
  apply (f_equal length) in Heq. rewrite !length_cons, length_app, length_cons in Heq. lia.
Qed.

Lemma chain_length V i l : chain V i l -> (length l <= length V)%nat.
Proof.
  intros Hc. rewrite <- (length_seq (length V) 0). apply submseteq_length, NoDup_submseteq; [by eapply chain_NoDup|].
  intros j Hj. apply elem_of_seq. pose proof (chain_below V i l Hc) as Hb. rewrite Forall_forall in Hb.
  specialize (Hb j Hj). lia.
Qed.

Definition node_at (V : list vertex_t) (i : nat) : IPAddress.t := default 0 (v_node <$> V !! i).

Lemma path_to_run V i l acc fuel s :
  chain V i l -> (length l <= fuel)%nat -> path_to fuel V i acc s = Ok (reverse (node_at V <$> l) ++ acc) s.
Proof.
  intros Hc. revert acc fuel. induction Hc as [i v Hv Hp|i v p l Hv Hp Hc IH]; intros acc [|fuel] Hf; cbn in Hf; try lia.
  - cbn [path_to]. rewrite Hv, Hp. unfold node_at. cbn. by rewrite Hv.
  - cbn [path_to]. rewrite Hv, Hp, IH by lia. rewrite fmap_cons, reverse_cons, <- app_assoc. cbn.
    unfold node_at at 3. by rewrite Hv.
Qed.

(** ** The tree of shortest paths *)
Definition on_shortest_path (links : list TELinkStateInfo) (root : IPAddress.t) (V : list vertex_t) (i : nat) (v : vertex_t) : Prop :=
  exists d, dist v = double_of_int d /\ 0 <= d <= 2 ^ 51 /\ path links root d (v_node v) /\
    (forall c, path links root c (v_node v) -> d <= c) /\ (exists l, chain V i l) /\
    match parent v with
    | None => v_node v = root
    | Some p => exists u l d', V !! p = Some u /\ l ∈ links /\ advrouter l = v_node u /\ linkid l = v_node v /\
                  dist u = double_of_int d' /\ 0 <= d' /\ d = d' + cost (te_metric l)
    end.

Definition unreachable (links : list TELinkStateInfo) (root : IPAddress.t) (v : vertex_t) : Prop :=
  dist v = LS_INFINITY /\ parent v = None /\ v_node v <> root /\ forall c, ~ path links root c (v_node v).

Record shortest_tree (links : list TELinkStateInfo) (root : IPAddress.t) (V : list vertex_t) : Prop := {
  tree_nodes : NoDup (v_node <$> V);
  tree_all : forall c a, path links root c a -> a ∈ v_node <$> V;
  tree_vertices : forall i v, V !! i = Some v -> on_shortest_path links root V i v \/ unreachable links root v
}.

Section Tree.
Context (links : list TELinkStateInfo) (root : IPAddress.t) (nodes : list IPAddress.t) (edges : list edge_t) (r : nat).
Hypothesis nodes_unique : NoDup nodes.
Hypothesis links_edges : Forall2 (edge_of nodes) links edges.
Hypothesis root_node : nodes !! r = Some root.
Hypothesis links_ok : Forall metric_ok links.
Hypothesis links_between : Forall (fun l => advrouter l <> linkid l) links.
Hypothesis nodes_few : Z.of_nat (length nodes) <= max_vertices.
Let w (e : edge_t) : Z := cost (e_metric e).

Lemma edge_link e : e ∈ edges -> exists l, l ∈ links /\ edge_of nodes l e.
Proof.
  intros [i Hi]%list_elem_of_lookup. destruct (Forall2_lookup_r _ _ _ _ _ links_edges Hi) as (l & Hl & He).
  exists l. split; [by eapply list_elem_of_lookup_2|done].
Qed.

Lemma link_edge l : l ∈ links -> exists e, e ∈ edges /\ edge_of nodes l e.
Proof.
  intros [i Hi]%list_elem_of_lookup. destruct (Forall2_lookup_l _ _ _ _ _ links_edges Hi) as (e & He & Hl).
  exists e. split; [by eapply list_elem_of_lookup_2|done].
Qed.

Lemma edges_weights e : e ∈ edges -> e_metric e = double_of_int (w e) /\ 0 <= w e <= max_metric.
Proof.
  intros (l & Hl & _ & _ & Hm)%edge_link. unfold w. rewrite Hm. apply metric_cost.
  rewrite Forall_forall in links_ok. by apply links_ok.
Qed.

Lemma edges_ends e : e ∈ edges -> (src e < length nodes)%nat /\ (dest e < length nodes)%nat.
Proof. intros (l & Hl & Hs & Hd & _)%edge_link. split; by eapply lookup_lt_Some. Qed.

Lemma edges_no_loop e : e ∈ edges -> src e <> dest e.
Proof.
  intros (l & Hl & Hs & Hd & _)%edge_link Heq. rewrite Heq, Hd in Hs. injection Hs as Hs.
  rewrite Forall_forall in links_between. by eapply links_between.
Qed.

Lemma walk_path l i a : walk edges r l i -> nodes !! i = Some a -> path links root (weight w l) a.
Proof.
  revert i a. induction l as [|e l IH] using rev_ind; intros i a Hw Ha.
  - inversion Hw as [? Hi|]; subst. rewrite root_node in Ha. injection Ha as <-. constructor.
  - apply walk_split in Hw as (v & Hl & He). inversion He as [|? ? ? Hin Hnil]; subst. inversion Hnil; subst.
    destruct (edge_link e Hin) as (k & Hk & Hs & Hd & Hm). rewrite Hd in Ha. injection Ha as <-.
    rewrite weight_app. cbn. rewrite Z.add_0_r. unfold w at 2. rewrite Hm. constructor; [|done]. by eapply IH.
Qed.

Lemma path_walk c a : path links root c a -> exists l i, walk edges r l i /\ nodes !! i = Some a /\ weight w l = c.
Proof.
  induction 1 as [|c k Hp (l & i & Hw & Hi & <-) Hk].
  - exists [], r. split_and!; [constructor|done|done].
  - destruct (link_edge k Hk) as (e & He & Hs & Hd & Hm).
    assert (i = src e) as -> by (by eapply NoDup_lookup).
    exists (l ++ [e]), (dest e). split_and!; [|done|].
    + eapply walk_app; [exact Hw|]. constructor; [done|constructor].
    + rewrite weight_app. cbn. unfold w at 2. rewrite Hm. lia.
Qed.

Let labels := result edges w (length nodes) r.

Lemma root_below : (r < length nodes)%nat.
Proof. by eapply lookup_lt_Some. Qed.

Lemma labels_result : labels_ok edges w max_metric (length nodes) r labels.
Proof.
  apply result_ok; [intros e He; by apply edges_weights|exact edges_ends|exact edges_no_loop|exact root_below].
Qed.

Context (V : list vertex_t).
Hypothesis V_labels : Forall2 labelled V labels.
Hypothesis V_nodes : v_node <$> V = nodes.

Lemma V_label i v : V !! i = Some v -> exists a, labels !! i = Some a /\ labelled v a.
Proof. intros Hi. by apply (Forall2_lookup_l _ _ _ _ _ V_labels). Qed.

Lemma V_vertex i a : labels !! i = Some a -> exists v, V !! i = Some v /\ labelled v a.
Proof. intros Hi. by apply (Forall2_lookup_r _ _ _ _ _ V_labels). Qed.

Lemma V_node i v : V !! i = Some v -> nodes !! i = Some (v_node v).
Proof. intros Hi. by rewrite <- V_nodes, list_lookup_fmap, Hi. Qed.

Lemma rooted_chain i : rooted r labels i -> exists l, chain V i l.
Proof.
  induction 1 as [Hr|i d p d' q Hi Hp Hle Hrt [l Hl]].
  - destruct (V_vertex _ _ Hr) as (v & Hv & Hpar & _). exists [r]. by eapply chain_root.
  - destruct (V_vertex _ _ Hi) as (v & Hv & Hpar & _). exists (i :: l). by eapply chain_step.
Qed.

(** A vertex with a path has a distance, and it is the least. *)
Lemma path_label i v c :
  V !! i = Some v -> path links root c (v_node v) -> exists d p, labels !! i = Some (Some d, p) /\ d <= c.
Proof.
  intros Hi (l & j & Hw & Hj & <-)%path_walk.
  assert (j = i) as -> by (eapply NoDup_lookup; [done|exact Hj|by apply V_node]).
  apply (result_complete edges w max_metric (length nodes) r); [|exact edges_ends|exact edges_no_loop|exact root_below|done].
  intros e He. by apply edges_weights.
Qed.

Lemma reached_vertex i v d p :
  V !! i = Some v -> labels !! i = Some (Some d, p) -> labelled v (Some d, p) -> on_shortest_path links root V i v.
Proof.
  intros Hi Hl [Hpar Hd]. cbn in Hpar, Hd. pose proof labels_result as Hok.
  assert (0 <= d <= 2 ^ 51) as Hrange.
  { eapply label_small; [|exact root_below|exact nodes_few|exact Hok|exact Hl]. intros e He. by apply edges_weights. }
  exists d. split; [done|]. split; [done|]. split_and!.
  - destruct (lab_walk _ _ _ _ _ _ Hok _ _ _ Hl) as (l & Hw & <-). eapply walk_path; [exact Hw|by apply V_node].
  - intros c Hc. destruct (path_label i v c Hi Hc) as (d' & p' & Hl' & Hle). rewrite Hl in Hl'.
    injection Hl' as <- <-. done.
  - apply rooted_chain. by eapply (lab_rooted _ _ _ _ _ _ Hok).
  - rewrite Hpar. destruct p as [p|].
    + destruct (result_parent edges w max_metric (length nodes) r) with (i := i) (d := d) (p := p)
        as (e & d' & q & He & Hs & Ht & Hq & ->); [|exact edges_ends|exact edges_no_loop|exact root_below|exact Hl|].
      { intros e He. by apply edges_weights. }
      destruct (V_vertex _ _ Hq) as (u & Hu & _ & Hdu). destruct (edge_link e He) as (k & Hk & Hks & Hkd & Hm).
      exists u, k, d'. split_and!; [done|done| | |done| |unfold w; by rewrite Hm].
      * rewrite Hs, (V_node _ _ Hu) in Hks. by injection Hks.
      * rewrite Ht, (V_node _ _ Hi) in Hkd. by injection Hkd.
      * eapply label_nonneg; [|exact Hok|exact Hq]. intros e' He'. by apply edges_weights.
    + destruct (decide (i = r)) as [->|Hne].
      { pose proof (V_node _ _ Hi) as Hn. rewrite root_node in Hn. by injection Hn. }
      exfalso. pose proof (lab_rooted _ _ _ _ _ _ Hok _ _ _ Hl) as Hrt. inversion Hrt as [Hrr Hir|? ? ? ? ? Hi']; subst; [done|].
      rewrite Hl in Hi'. discriminate.
Qed.

Lemma result_tree : shortest_tree links root V.
Proof.
  pose proof labels_result as Hok. split.
  - by rewrite V_nodes.
  - intros c a (l & i & _ & Hi & _)%path_walk. rewrite V_nodes. by eapply list_elem_of_lookup_2.
  - intros i v Hi. destruct (V_label i v Hi) as ([[d|] p] & Ha & Hlab); [left; by eapply reached_vertex|right].
    destruct Hlab as [Hpar Hd]. cbn in Hpar, Hd. split_and!; [done| | |].
    + rewrite Hpar. by eapply (lab_unknown _ _ _ _ _ _ Hok).
    + intros Hroot. pose proof (V_node _ _ Hi) as Hn. rewrite Hroot in Hn.
      assert (i = r) as -> by (by eapply NoDup_lookup). rewrite (lab_root _ _ _ _ _ _ Hok) in Ha. discriminate.
    + intros c Hc. destruct (path_label i v c Hi Hc) as (d' & p' & Hl' & _). rewrite Ha in Hl'. discriminate.
Qed.
End Tree.

(** ** What the module computes *)
Definition database_ok (priority : nat) (topology : list TELinkStateInfo) : Prop :=
  Forall (fun l => is_Some (UnResvBandwidth l !! priority) /\ metric_ok l /\ advrouter l <> linkid l) topology /\
  Z.of_nat (length topology) <= 500000.

Definition usable_links (req : spec_float) (prio : nat) (topology : list TELinkStateInfo) : list TELinkStateInfo :=
  filter (fun l => usable req prio l = true) topology.

Lemma start_labelled vs i :
  Forall (fun v => parent v = None /\ dist v = LS_INFINITY) vs -> (i < length vs)%nat ->
  Forall2 labelled (alter (fun v => v <| dist := double_of_int 0 |>) i vs) (start (length vs) i).
Proof.
  intros Hf Hi. apply Forall2_same_length_lookup_2.
  { unfold start. by rewrite length_alter, length_insert, length_replicate. }
  intros j v a Hv Ha. destruct (decide (j = i)) as [->|Hne].
  - rewrite list_lookup_alter_eq in Hv. destruct (vs !! i) as [v0|] eqn:E; [|done]. injection Hv as <-.
    unfold start in Ha. rewrite list_lookup_insert_eq in Ha by by rewrite length_replicate. injection Ha as <-.
    rewrite Forall_lookup in Hf. by destruct (Hf i v0 E).
  - rewrite list_lookup_alter_ne in Hv by done.
    unfold start in Ha. rewrite list_lookup_insert_ne in Ha by done. apply lookup_replicate in Ha as [-> _].
    rewrite Forall_lookup in Hf. by destruct (Hf j v Hv).
Qed.

Lemma alter_nodes (vs : list vertex_t) i d : v_node <$> alter (fun v => v <| dist := d |>) i vs = v_node <$> vs.
Proof. revert i. induction vs as [|v vs IH]; intros [|i]; cbn; [done..|]. f_equal. apply IH. Qed.

Lemma shortest_paths_run topology req prio s :
  database_ok prio topology ->
  exists V, calculateShortestPaths topology req prio s = Ok V s /\
    shortest_tree (usable_links req prio topology) (routerId s) V.
Proof.
  intros [Hdb Hlen]. unfold calculateShortestPaths.
  destruct (collect_run topology req prio [] [] s) as (vs & es & Hrun & Hf & _ & He & Hn).
  { eapply Forall_impl; [exact Hdb|]. by intros l (? & _). }
  { split; constructor. }
  rewrite (bind_ok _ _ _ _ _ Hrun). unfold bind at 1, gets at 1. cbn [fst snd app].
  destruct (assignIndex vs (routerId s)) as [r vs'] eqn:Ea.
  destruct (assignIndex_spec _ _ _ _ Ea Hf) as ([Hnd Hfresh] & Hpre & Hr & Hlen').
  set (nodes := v_node <$> vs') in *. set (links := usable_links req prio topology).
  assert (Forall2 (edge_of nodes) links es) as Hedges.
  { eapply Forall2_impl; [exact He|]. intros l e Hle. by eapply edge_of_prefix. }
  assert (length es <= length topology)%nat as Hes.
  { rewrite <- (Forall2_length _ _ _ Hedges). apply length_filter. }
  assert (Z.of_nat (length nodes) <= max_vertices) as Hfew.
  { subst nodes. rewrite length_fmap. unfold max_vertices. cbn in Hn. lia. }
  assert (Forall metric_ok links /\ Forall (fun l => advrouter l <> linkid l) links) as [Hm Hne].
  { split; apply Forall_filter_sub; (eapply Forall_impl; [exact Hdb|]); by intros l (_ & ? & ?). }
  set (vs0 := alter (fun v => v <| dist := double_of_int 0 |>) r vs').
  assert (r < length vs')%nat as Hrl by (apply lookup_lt_Some in Hr; subst nodes; by rewrite length_fmap in Hr).
  destruct (rounds_run es (fun e => cost (e_metric e)) (length nodes) r) with (k := (length vs0 - 1)%nat)
    (A := start (length nodes) r) (vs := vs0) as (V & Hrounds & Hlab & HV).
  - intros e Hin. by eapply edges_weights.
  - intros e Hin. by eapply edges_weights.
  - intros e Hin. by eapply edges_ends.
  - intros e Hin. by eapply edges_no_loop.
  - by eapply lookup_lt_Some.
  - done.
  - apply start_ok. by eapply lookup_lt_Some.
  - subst nodes. rewrite length_fmap. by apply start_labelled.
  - unfold with_vector. rewrite Hrounds. exists V. split; [done|].
    eapply (result_tree links (routerId s) nodes es r); try done.
    + unfold result. subst vs0 nodes. rewrite length_alter in Hlab. by rewrite length_fmap in Hlab |- *.
    + rewrite HV. apply alter_nodes.
Qed.

(** ** The path to the nearest of several nodes *)
Section Nearest.
Context (links : list TELinkStateInfo) (root : IPAddress.t) (V : list vertex_t) (dests : list IPAddress.t).
Hypothesis tree : shortest_tree links root V.

(** The result for the vertices before [i]. *)
Definition nearest_before (i : nat) (best : spec_float * option nat) : Prop :=
  match snd best with
  | None => fst best = LS_INFINITY /\
      forall j v c, (j < i)%nat -> V !! j = Some v -> v_node v ∈ dests -> ~ path links root c (v_node v)
  | Some k => exists v d, V !! k = Some v /\ on_shortest_path links root V k v /\ v_node v ∈ dests /\ fst best = dist v /\
      dist v = double_of_int d /\ 0 <= d < 2 ^ 53 /\
      forall j u c, (j < i)%nat -> V !! j = Some u -> v_node u ∈ dests -> path links root c (v_node u) -> d <= c
  end.

Lemma nearest_keeps i v best :
  V !! i = Some v -> nearest_before i best ->
  (forall d c, fst best = double_of_int d -> 0 <= d < 2 ^ 53 -> v_node v ∈ dests -> path links root c (v_node v) -> d <= c) ->
  (fst best = LS_INFINITY -> v_node v ∈ dests -> forall c, ~ path links root c (v_node v)) ->
  nearest_before (S i) best.
Proof.
  intros Hv Hb Hd Hinf. unfold nearest_before in *. destruct (snd best) as [k|].
  - destruct Hb as (u & d & Hk & Hon & Hu & Hf & Hdu & Hr & Hb). exists u, d. split_and!; [done..|lia|lia|].
    intros j x c Hj Hx Hxd Hp. destruct (decide (j = i)) as [->|Hne].
    + rewrite Hv in Hx. injection Hx as <-. eapply Hd; [by rewrite Hf, Hdu|lia|done|done].
    + eapply Hb; [|done..]. lia.
  - destruct Hb as [Hf Hb]. split; [done|]. intros j u c Hj Hu Hud. destruct (decide (j = i)) as [->|Hne].
    + rewrite Hv in Hu. injection Hu as <-. by apply Hinf.
    + eapply Hb; [|done..]. lia.
Qed.

Lemma double_of_int_inj a b : 0 <= a < 2 ^ 53 -> 0 <= b < 2 ^ 53 -> double_of_int a = double_of_int b -> a = b.
Proof. intros Ha Hb Heq. rewrite <- (cost_int a Ha), <- (cost_int b Hb). by rewrite Heq. Qed.

Lemma double_not_infinity a : 0 <= a < 2 ^ 53 -> double_of_int a <> LS_INFINITY.
Proof. intros Ha Heq. pose proof (infinity_not_leb a Ha) as Hl. rewrite Heq in Hl. vm_compute in Hl. discriminate. Qed.

Lemma nearest_spec l i best :
  drop i V = l -> nearest_before i best -> nearest_before (length V) (nearest l i dests best).
Proof.
  revert i best. induction l as [|v l IH]; intros i best Hl Hb; cbn [nearest].
  - assert (length V <= i)%nat as Hi by (apply (f_equal length) in Hl; rewrite length_drop in Hl; cbn in Hl; lia).
    unfold nearest_before in *. destruct (snd best).
    + destruct Hb as (u & d & ? & ? & ? & ? & ? & ? & Hb). exists u, d. split_and!; [done..|lia|lia|].
      intros j x c Hj. apply Hb. lia.
    + destruct Hb as [? Hb]. split; [done|]. intros j x c Hj. apply Hb. lia.
  - assert (V !! i = Some v) as Hv by (by rewrite <- (Nat.add_0_r i), <- lookup_drop, Hl).
    assert (drop (S i) V = l) as Hl' by (by rewrite <- Nat.add_1_r, <- drop_drop, Hl).
    destruct (tree_vertices _ _ _ tree i v Hv) as [Hon|(Hd & _ & _ & Hno)].
    + pose proof Hon as (d & Hd & Hr & Hp & Hmin & _ & _).
      destruct (SFleb (fst best) (dist v)) eqn:Hle.
      { apply IH; [done|]. eapply nearest_keeps; [done|done| |].
        - intros d' c Hb' Hr' Hv' Hc. rewrite Hb', Hd, double_leb_whole in Hle by lia. specialize (Hmin c Hc). lia.
        - intros Hb'. rewrite Hb', Hd, infinity_not_leb in Hle by lia. discriminate. }
      destruct (bool_decide_reflect (v_node v ∈ dests)) as [Hin|Hout]; cbn [negb].
      2: { apply IH; [done|]. eapply nearest_keeps; [done|done| |]; intros; done. }
      apply IH; [done|]. exists v, d. split_and!; [done|done|done|done|done|lia|lia|].
      intros j u c Hj Hu Hud Hc. destruct (decide (j = i)) as [->|Hne].
      { rewrite Hv in Hu. injection Hu as <-. by apply Hmin. }
      unfold nearest_before in Hb. destruct (snd best) as [k|].
      * destruct Hb as (x & d' & _ & _ & _ & Hf & Hdx & Hr' & Hb).
        rewrite Hf, Hdx, Hd, double_leb_whole in Hle by lia. specialize (Hb j u c ltac:(lia) Hu Hud Hc). lia.
      * destruct Hb as [_ Hb]. exfalso. eapply Hb; [|exact Hu|exact Hud|exact Hc]. lia.
    + destruct (SFleb (fst best) (dist v)) eqn:Hle.
      { apply IH; [done|]. eapply nearest_keeps; [done|done| |]; [intros; exfalso; by eapply Hno|done]. }
      exfalso. unfold nearest_before in Hb. destruct (snd best) as [k|].
      * destruct Hb as (x & d' & _ & _ & _ & Hf & Hdx & Hr' & _). rewrite Hf, Hdx, Hd in Hle. unfold SFleb in Hle.
        change LS_INFINITY with (double_of_int ten_to_16) in Hle. rewrite infinity_normal, whole_below_infinity in Hle by lia.
        discriminate.
      * destruct Hb as [Hf _]. rewrite Hf, Hd in Hle. vm_compute in Hle. discriminate.
Qed.
End Nearest.

(** ** Routes

    A route names the nodes it passes. *)
Inductive route (links : list TELinkStateInfo) (root : IPAddress.t) : list IPAddress.t -> Z -> Prop :=
| route_root : route links root [root] 0
| route_link p a c l : route links root (p ++ [a]) c -> advrouter l = a -> l ∈ links ->
    route links root ((p ++ [a]) ++ [linkid l]) (c + cost (te_metric l)).

Lemma route_path links root p a c : route links root (p ++ [a]) c -> path links root c a.
Proof.
  intros Hr. remember (p ++ [a]) as q eqn:Hq. revert p a Hq. induction Hr as [|p0 a0 c l Hr IH Ha Hl]; intros p a Hq.
  - destruct p as [|? []]; try done. injection Hq as ->. constructor.
  - apply app_inj_tail in Hq as [_ <-]. constructor; [|done]. rewrite Ha. by eapply IH.
Qed.

Section Routes.
Context (links : list TELinkStateInfo) (root : IPAddress.t) (V : list vertex_t).
Hypothesis tree : shortest_tree links root V.
Hypothesis links_ok : Forall metric_ok links.

Lemma parent_on_path i v p :
  V !! i = Some v -> parent v = Some p -> on_shortest_path links root V i v ->
  exists u, V !! p = Some u /\ on_shortest_path links root V p u.
Proof.
  intros Hv Hp (d & Hd & Hr & Hpath & _ & _ & Hpar). rewrite Hp in Hpar.
  destruct Hpar as (u & l & d' & Hu & Hl & _ & _ & Hdu & Hd' & ->).
  rewrite Forall_forall in links_ok. destruct (metric_cost l (links_ok l Hl)) as [_ Hc].
  exists u. split; [done|]. destruct (tree_vertices _ _ _ tree p u Hu) as [|(Hinf & _)]; [done|].
  exfalso. rewrite Hdu in Hinf. eapply double_not_infinity; [|exact Hinf]. lia.
Qed.

Lemma chain_route i l v d :
  chain V i l -> V !! i = Some v -> on_shortest_path links root V i v -> dist v = double_of_int d -> 0 <= d < 2 ^ 53 ->
  exists p, reverse (node_at V <$> l) = p ++ [v_node v] /\ route links root (p ++ [v_node v]) d.
Proof.
  intros Hc. revert v d. induction Hc as [i v0 Hv0 Hp|i v0 p l Hv0 Hp Hc IH]; intros v d Hv Hon Hd Hr;
    rewrite Hv0 in Hv; injection Hv as ->.
  - pose proof Hon as (d' & Hd' & Hr' & _ & Hmin & _ & Hroot). rewrite Hp in Hroot.
    assert (d' = d) as -> by (apply double_of_int_inj; [lia|lia|congruence]).
    exists []. unfold node_at. cbn. rewrite Hv0. cbn. split; [done|]. rewrite Hroot in Hmin |- *.
    specialize (Hmin 0 ltac:(constructor)). assert (d = 0) as -> by lia. constructor.
  - destruct (parent_on_path i v p Hv0 Hp Hon) as (u & Hu & Hon').
    pose proof Hon as (d2 & Hd2 & Hr2 & _ & _ & _ & Hpar). rewrite Hp in Hpar.
    destruct Hpar as (u' & k & d' & Hu' & Hk & Hadv & Hid & Hdu & Hd' & ->). rewrite Hu in Hu'. injection Hu' as <-.
    assert (d' + cost (te_metric k) = d) as <- by (apply double_of_int_inj; [lia|lia|congruence]).
    rewrite Forall_forall in links_ok. destruct (metric_cost k (links_ok k Hk)) as [_ Hcost].
    destruct (IH u d' Hu Hon' Hdu ltac:(lia)) as (q & Hq & Hroute).
    exists (q ++ [v_node u]). rewrite fmap_cons, reverse_cons, Hq. unfold node_at. rewrite Hv0. cbn.
    split; [done|]. rewrite <- Hid. by constructor.
Qed.
End Routes.

Lemma usable_metrics prio req topology : database_ok prio topology -> Forall metric_ok (usable_links req prio topology).
Proof. intros [Hdb _]. apply Forall_filter_sub. eapply Forall_impl; [exact Hdb|]. by intros l (_ & ? & _). Qed.

(** C6: [calculateShortestPath] returns the nodes of a shortest path from the
    router to the nearest of the destinations over the links that are up and have
    the bandwidth, and nothing when no destination can be reached; it always
    returns. *)
Theorem shortest_path_found dests topology req prio s :
  database_ok prio topology ->
  exists p, calculateShortestPath dests topology req prio s = Ok p s /\
    ((p = [] /\ forall b c, b ∈ dests -> ~ path (usable_links req prio topology) (routerId s) c b) \/
     (exists q b d, p = q ++ [b] /\ b ∈ dests /\ route (usable_links req prio topology) (routerId s) p d /\
        forall b' c, b' ∈ dests -> path (usable_links req prio topology) (routerId s) c b' -> d <= c)).
Proof.
  intros Hdb. destruct (shortest_paths_run topology req prio s Hdb) as (V & Hrun & Htree).
  unfold calculateShortestPath. rewrite (bind_ok _ _ _ _ _ Hrun).
  pose proof (nearest_spec _ _ V dests Htree V 0 (LS_INFINITY, None) ltac:(done)) as Hn.
  specialize (Hn ltac:(split; [done|]; intros; lia)). unfold nearest_before in Hn.
  assert (forall b c, path (usable_links req prio topology) (routerId s) c b ->
    exists j v, (j < length V)%nat /\ V !! j = Some v /\ v_node v = b) as Hall.
  { intros b c Hc. apply (tree_all _ _ _ Htree) in Hc. apply list_elem_of_fmap in Hc as (v & -> & Hv).
    apply list_elem_of_lookup in Hv as [j Hj]. exists j, v. split; [by eapply lookup_lt_Some|done]. }
  destruct (snd (nearest V 0 dests (LS_INFINITY, None))) as [k|].
  - destruct Hn as (v & d & Hv & Hon & Hin & _ & Hd & Hr & Hmin).
    pose proof Hon as (_ & _ & _ & _ & _ & (l & Hc) & _).
    destruct (chain_route _ _ V Htree (usable_metrics prio req topology Hdb) k l v d Hc Hv Hon Hd Hr) as (q & Hq & Hroute).
    eexists. split; [by apply path_to_run; [|eapply chain_length]|]. right. rewrite app_nil_r, Hq.
    exists q, (v_node v), d. split_and!; [done|done|done|]. intros b' c Hb' Hc'.
    destruct (Hall b' c Hc') as (j & u & Hj & Hu & <-). by eapply Hmin.
  - destruct Hn as [_ Hno]. exists []. split; [done|]. left. split; [done|]. intros b c Hb Hc.
    destruct (Hall b c Hc) as (j & v & Hj & Hv & <-). by eapply Hno.
Qed.
