(* ===== verification/TEDRoutes.v ===== *)
(** * The routes derived from the database

    [TED::rebuildRoutingTable] replaces the unicast routes of the node by host
    routes along the shortest paths. *)
From Stdlib Require Import String SpecFloat.
From S2P Require Import Prelude IPAddress MachineFloat MachineFloatSpec InterfaceTable RoutingTable RoutingSpec RouteHeap TED TEDSpec TEDPaths.
Import TED.

(** ** Removing the old routes *)
Lemma drop_routes_run k j n :
  pointers_ok n -> length (all_routes n) = (j + k)%nat ->
  (forall i p e, (i < j)%nat -> all_routes n !! i = Some p -> heap (rt n) !! p = Some e -> IPAddress.isMulticast (host e) = true) ->
  exists n', drop_routes k j n = Ok tt n' /\ pointers_ok n' /\ ift n' = ift n /\
    forall p e, has n' p e <-> has n p e /\ IPAddress.isMulticast (host e) = true.
Proof.
  revert j n. induction k as [|k IH]; intros j n Hok Hlen Hbefore; cbn [drop_routes].
  - exists n. split_and!; [done|done|done|]. intros p e. split; [|by intros []]. intros [Hp He]. split; [done|].
    apply list_elem_of_lookup in Hp as [i Hi]. eapply Hbefore; [|exact Hi|done]. apply lookup_lt_Some in Hi. lia.
  - rewrite (bind_ok _ _ _ _ _ (getRoute_run n j)).
    destruct (lookup_lt_is_Some_2 (all_routes n) j ltac:(lia)) as [p Hp]. rewrite Hp.
    assert (p ∈ all_routes n) as Hin by (apply list_elem_of_lookup; by exists j).
    destruct (po_heap _ Hok p Hin) as [e He]. rewrite (bind_ok _ _ _ _ _ (deref_run _ _ _ He)).
    destruct (IPAddress.isMulticast (host e)) eqn:Hm.
    + apply IH; [done|lia|]. intros i q x Hi Hq Hx.
      destruct (decide (i = j)) as [->|]; [congruence|]. eapply Hbefore; [|exact Hq|exact Hx]. lia.
    + destruct (deleteRoute_run n p e Hok (conj Hin He)) as (n1 & Hdel & Hr1 & Hh1 & Hn1). rewrite (bind_ok _ _ _ _ _ Hdel).
      destruct (deleteRoute_frame n n1 p Hok Hr1 Hh1 Hn1) as [Hok1 Hhas1].
      rewrite (remove_first_delete p j) in Hr1; [|apply Hok|done].
      destruct (IH j n1 Hok1) as (n' & Hrun & Hok' & Hift & Hhas').
      * rewrite Hr1, length_delete by (by exists p). lia.
      * intros i q x Hi Hq Hx. rewrite Hr1, list_lookup_delete_lt in Hq by lia. rewrite Hh1 in Hx.
        apply lookup_delete_Some in Hx as [_ Hx]. by eapply Hbefore.
      * exists n'. split_and!; [done|done|by rewrite Hift, (deleteRoute_ift _ _ _ _ Hdel)|].
        intros q x. rewrite Hhas', Hhas1. split; [naive_solver|]. intros [[Hq Hx] Hmx]. split_and!; [done| |done].
        intros ->. congruence.
Qed.

(** ** Interfaces and links *)
Definition iface (n : Node) (a : IPAddress.t) (i : Z) : Prop :=
  exists ie, getInterfaceByAddress a n = Ok (Some ie) n /\ interfaceId ie = i.

Lemma getInterfaceByAddress_ift a n n' r :
  getInterfaceByAddress a n = Ok r n -> ift n' = ift n -> getInterfaceByAddress a n' = Ok r n'.
Proof.
  intros Hrun Hift. unfold getInterfaceByAddress in *. destruct (IPAddress.isUnspecified a).
  { unfold ret in *. by injection Hrun as <-. }
  unfold bind, all_interfaces, gets in *. rewrite Hift.
  assert (forall l (m m' : Node), match mapE ipv4Data l m with Ok ds _ => mapE ipv4Data l m' = Ok ds m' | Err _ => True end) as Hmap.
  { clear. induction l as [|e l IH]; intros m m'; [done|]. cbn [mapE]. unfold bind, ipv4Data at 1 3.
    destruct (ipv4data e); [|done]. cbn. specialize (IH m m'). destruct (mapE ipv4Data l m); [|done]. by rewrite IH. }
  specialize (Hmap (InterfaceTable.interfaces (ift n)) n n').
  destruct (mapE ipv4Data _ n) as [ds m|]; [|done]. rewrite Hmap. cbn in *. by injection Hrun as <- _.
Qed.

Lemma iface_ift a i n n' : iface n a i -> ift n' = ift n -> iface n' a i.
Proof. intros (ie & Hrun & Hi) Hift. exists ie. split; [by eapply getInterfaceByAddress_ift|done]. Qed.

Definition unicast (a : IPAddress.t) : Prop := a <> 0 /\ IPAddress.isMulticast a = false.

(** What the rebuilding relies on: every link of the router is on one of its
    interfaces and every interface has a link, as [initialize] sets them up. *)
Record routable (s : t) : Prop := {
  rb_database : database_ok 7 (ted s);
  rb_unicast : Forall (fun l => unicast (advrouter l) /\ unicast (linkid l)) (ted s);
  rb_iface : forall l, l ∈ ted s -> advrouter l = routerId s -> exists i, iface (node s) (local l) i;
  rb_addrs : forall a, a ∈ interfaceAddrs s -> exists l, l ∈ ted s /\ advrouter l = routerId s /\ local l = a;
  rb_pointers : pointers_ok (node s)
}.

(** The router's own links to a peer; the first one decides. *)
Definition first_link (s : t) (peer : IPAddress.t) (l : TELinkStateInfo) : Prop :=
  List.find (own_link s peer) (ted s) = Some l.

Lemma find_own_link s peer l : first_link s peer l -> l ∈ ted s /\ linkid l = peer /\ advrouter l = routerId s.
Proof.
  intros [Hin Ho]%find_some. unfold own_link in Ho. apply andb_prop in Ho as [H1%Z.eqb_eq H2%Z.eqb_eq].
  split; [by apply list_elem_of_In|done].
Qed.

Lemma isLocalPeer_run s a : isLocalPeer a s = Ok (existsb (own_link s a) (ted s)) s.
Proof. done. Qed.

Lemma local_peer_link s a : existsb (own_link s a) (ted s) = true <-> exists l, first_link s a l.
Proof.
  unfold first_link. induction (ted s) as [|l rest IH]; cbn; [split; [done|by intros []]|].
  destruct (own_link s a l); cbn; [split; [by eexists|done]|done].
Qed.

(** Two states with the same database. *)
Definition same_ted (s s' : t) : Prop :=
  ted s' = ted s /\ routerId s' = routerId s /\ interfaceAddrs s' = interfaceAddrs s /\
  maxMessageId s' = maxMessageId s /\ ift (node s') = ift (node s).

Lemma same_ted_refl s : same_ted s s.
Proof. done. Qed.
Lemma same_ted_trans s1 s2 s3 : same_ted s1 s2 -> same_ted s2 s3 -> same_ted s1 s3.
Proof. intros (?&?&?&?&?) (?&?&?&?&?). split_and!; congruence. Qed.

Lemma own_link_same s s' : same_ted s s' -> own_link s' = own_link s.
Proof. intros (_ & Hr & _). unfold own_link. by rewrite Hr. Qed.

Lemma first_link_same s s' a l : same_ted s s' -> first_link s' a l <-> first_link s a l.
Proof. intros Hs. unfold first_link. rewrite (own_link_same _ _ Hs). by destruct Hs as (-> & _). Qed.

(** Adding a host route. *)
Lemma add_host_route s dst gtw ty ie :
  pointers_ok (node s) -> dst <> 0 ->
  exists p s', on_node (addRoute (host_route dst gtw ty (Some ie))) s = Ok p s' /\ same_ted s s' /\ pointers_ok (node s') /\
    forall q x, has (node s') q x <-> has (node s) q x \/ (q = p /\ x = host_route dst gtw ty (Some ie)).
Proof.
  intros Hok Hd. destruct (addRoute_run (node s) (host_route dst gtw ty (Some ie)) (interfaceId ie)) as (p & n' & Hrun & Hok' & _ & Hhas);
    [done|done|done|done|].
  exists p, (s <| node := n' |>). unfold on_node. rewrite Hrun. split_and!; [done| |done|done].
  split_and!; [done..|]. cbn. by eapply addRoute_ift.
Qed.

(** [s'] is [s] with more routes, all of the kind [P]. *)
Definition adds (P : IPRoute -> Prop) (s s' : t) : Prop :=
  same_ted s s' /\ pointers_ok (node s') /\ (forall q x, has (node s') q x -> has (node s) q x \/ P x) /\
  (forall q x, has (node s) q x -> has (node s') q x).

Lemma adds_refl P s : pointers_ok (node s) -> adds P s s.
Proof. intros. split_and!; [done|done|by left|done]. Qed.

Lemma adds_trans P s1 s2 s3 : adds P s1 s2 -> adds P s2 s3 -> adds P s1 s3.
Proof.
  intros (Hs & _ & Hn & Hk) (Hs' & Hok & Hn' & Hk'). split_and!; [by eapply same_ted_trans|done| |by eauto].
  intros q x [Hx|Hx]%Hn'; [by apply Hn|by right].
Qed.

Lemma adds_weaken (P Q : IPRoute -> Prop) s s' : (forall x, P x -> Q x) -> adds P s s' -> adds Q s s'.
Proof. intros HPQ (? & ? & Hn & ?). split_and!; [done|done| |done]. intros q x [|]%Hn; auto. Qed.

(** Running operations that add routes, each of them at least one that [Q] asks
    for. *)
Lemma mapE_adds {A B} (f : A -> Eff t B) (P : IPRoute -> Prop) (Q : A -> IPRoute -> Prop) (need : A -> Prop) l s0 s :
  (forall a s, a ∈ l -> same_ted s0 s -> pointers_ok (node s) ->
    exists b s', f a s = Ok b s' /\ adds P s s' /\ (need a -> exists q x, has (node s') q x /\ Q a x)) ->
  same_ted s0 s -> pointers_ok (node s) ->
  exists bs s', mapE f l s = Ok bs s' /\ adds P s s' /\
    forall a, a ∈ l -> need a -> exists q x, has (node s') q x /\ Q a x.
Proof.
  revert s. induction l as [|a l IH]; intros s Hf Hs Hok.
  - exists [], s. split_and!; [done|by apply adds_refl|set_solver].
  - destruct (Hf a s) as (b & s1 & Hrun & Hadds & Hneed); [set_solver|done|done|].
    pose proof Hadds as (Hs1 & Hok1 & _ & _).
    destruct (IH s1) as (bs & s2 & Hrun2 & Hadds2 & Hneed2).
    + intros a' s' Ha'. apply Hf. set_solver.
    + by eapply same_ted_trans.
    + done.
    + exists (b :: bs), s2. cbn [mapE]. rewrite (bind_ok _ _ _ _ _ Hrun), (bind_ok _ _ _ _ _ Hrun2).
      split_and!; [done|by eapply adds_trans|]. intros a' [->|Ha']%elem_of_cons Hn; [|by apply Hneed2].
      destruct (Hneed Hn) as (q & x & Hx & HQ). exists q, x. split; [|done]. by apply Hadds2.
Qed.

(** ** The next hop *)
Section Rebuild.
Context (s0 : t).
Hypothesis ready : routable s0.
Let me : IPAddress.t := routerId s0.
Let links : list TELinkStateInfo := usable_links (double_of_int 0) 7 (ted s0).
Context (V : list vertex_t).
Hypothesis tree : shortest_tree links me V.

Lemma links_ted l : l ∈ links -> l ∈ ted s0.
Proof. by intros [_ ?]%list_elem_of_filter. Qed.

(** Every vertex of the tree but the root has a local peer above it. *)
Lemma next_hop_run s i l v fuel :
  same_ted s0 s -> chain V i l -> V !! i = Some v -> parent v <> None -> on_shortest_path links me V i v ->
  (length l <= fuel)%nat ->
  exists h k, next_hop fuel V i s = Ok h s /\ node_at V <$> l = k /\ v_node h ∈ k /\ v_node h <> me /\ exists x, first_link s0 (v_node h) x.
Proof.
  intros Hs Hc. revert v fuel. induction Hc as [i v0 Hv0 Hp|i v0 p l Hv0 Hp Hc IH]; intros v fuel Hv Hpar Hon Hf;
    rewrite Hv0 in Hv; injection Hv as ->; [done|].
  destruct fuel as [|fuel]; [cbn in Hf; lia|]. cbn [next_hop]. rewrite Hv0.
  rewrite (bind_ok _ _ _ _ _ (isLocalPeer_run s (v_node v))).
  assert (existsb (own_link s (v_node v)) (ted s) = existsb (own_link s0 (v_node v)) (ted s0)) as ->.
  { rewrite (own_link_same _ _ Hs). by destruct Hs as (-> & _). }
  destruct (existsb _ (ted s0)) eqn:Hpeer.
  - apply local_peer_link in Hpeer as [x Hx]. exists v, (node_at V <$> (i :: l)). split_and!; [done|done| | |by exists x].
    + rewrite fmap_cons. unfold node_at at 1. rewrite Hv0. cbn. set_solver.
    + intros Hme. destruct (find_own_link _ _ _ Hx) as (Hin & Hid & Hadv).
      pose proof (rb_database _ ready) as [Hdb _]. rewrite Forall_forall in Hdb.
      destruct (Hdb x Hin) as (_ & _ & Hne). apply Hne. by rewrite Hid, Hadv, Hme.
  - rewrite Hp. pose proof Hon as (d & Hd & _ & _ & _ & _ & Hpp). rewrite Hp in Hpp.
    destruct Hpp as (u & x & d' & Hu & Hx & Hadv & Hid & _).
    destruct (parent_on_path _ _ V tree (usable_metrics _ _ _ (rb_database _ ready)) i v p Hv0 Hp Hon) as (u' & Hu' & Honu).
    rewrite Hu in Hu'. injection Hu' as <-.
    destruct (IH u fuel Hu) as (h & k & Hrun & Hk & Hh & Hme & Hl); [|done|cbn in Hf; lia|].
    + intros Hnone. pose proof Honu as (du & _ & _ & _ & _ & _ & Hroot). rewrite Hnone in Hroot.
      assert (existsb (own_link s0 (v_node v)) (ted s0) = true) as Hyes; [|congruence].
      apply existsb_exists. exists x. split; [by apply list_elem_of_In, links_ted|].
      unfold own_link. rewrite Hid, Hadv, Hroot. unfold me. by rewrite !Z.eqb_refl.
    + exists h, (node_at V <$> (i :: l)). split_and!; [done|done| |done|done]. rewrite fmap_cons. set_solver.
Qed.

(** The route to [b]: over a peer [h] that lies on a shortest path to [b], on the
    interface of the first link to [h]. *)
Definition remote_route (b : IPAddress.t) (e : IPRoute) : Prop :=
  exists h l ie d q, e = host_route b h REMOTE (Some ie) /\ first_link s0 h l /\
    getInterfaceByAddress (local l) (node s0) = Ok (Some ie) (node s0) /\
    route links me (q ++ [b]) d /\ h ∈ q /\ h <> me /\ forall c, path links me c b -> d <= c.

(** A node that is reached, is not the router itself and not one of its peers. *)
Definition remote_node (b : IPAddress.t) : Prop :=
  b <> me /\ (exists c, path links me c b) /\ ~ exists l, first_link s0 b l.

Lemma host_route_host dst gtw ty ie : host (host_route dst gtw ty ie) = dst.
Proof. done. Qed.

Lemma add_remote_run i v s :
  V !! i = Some v -> same_ted s0 s -> pointers_ok (node s) ->
  exists b s', add_remote V i v s = Ok b s' /\ adds (fun x => remote_node (host x) /\ remote_route (host x) x) s s' /\
    (remote_node (v_node v) -> exists q x, has (node s') q x /\ remote_route (v_node v) x).
Proof.
  intros Hv Hs Hok. unfold add_remote. unfold bind at 1, gets at 1.
  assert (routerId s = me) as -> by (by destruct Hs as (_ & -> & _)).
  destruct (Z.eqb_spec (v_node v) me) as [Hme|Hme].
  { exists tt, s. split_and!; [done|by apply adds_refl|by intros []]. }
  destruct (parent v) as [p|] eqn:Hp.
  2: { exists tt, s. split_and!; [done|by apply adds_refl|]. intros (_ & (c & Hc) & _). exfalso.
       destruct (tree_vertices _ _ _ tree i v Hv) as [Hon|(_ & _ & _ & Hno)]; [|by eapply Hno].
       destruct Hon as (d & _ & _ & _ & _ & _ & Hroot). rewrite Hp in Hroot. done. }
  rewrite (bind_ok _ _ _ _ _ (isLocalPeer_run s (v_node v))).
  assert (existsb (own_link s (v_node v)) (ted s) = existsb (own_link s0 (v_node v)) (ted s0)) as ->.
  { rewrite (own_link_same _ _ Hs). by destruct Hs as (-> & _). }
  destruct (existsb _ (ted s0)) eqn:Hpeer.
  { exists tt, s. split_and!; [done|by apply adds_refl|]. intros (_ & _ & Hno). exfalso. apply Hno. by apply local_peer_link. }
  destruct (tree_vertices _ _ _ tree i v Hv) as [Hon|(_ & Hnone & _)]; [|congruence].
  pose proof Hon as (d & Hd & Hrange & Hpath & Hmin & (l & Hc) & Hpar).
  destruct (next_hop_run s i l v (length V) Hs Hc Hv ltac:(congruence) Hon (chain_length _ _ _ Hc))
    as (h & k & Hrun & Hk & Hhk & Hhme & (x & Hx)).
  rewrite (bind_ok _ _ _ _ _ Hrun). unfold getInterfaceAddrByPeerAddress. unfold bind at 1, bind at 1, gets at 1.
  pose proof (proj2 (first_link_same s0 s (v_node h) x Hs) Hx) as Hx'. unfold first_link in Hx'. rewrite Hx'. cbn [ret].
  destruct (find_own_link _ _ _ Hx) as (Hin & Hid & Hadv).
  destruct (rb_iface _ ready x Hin Hadv) as (ifId & ie & Hie & _).
  assert (on_node (getInterfaceByAddress (local x)) s = Ok (Some ie) s) as Hies.
  { unfold on_node. rewrite (getInterfaceByAddress_ift _ (node s0) (node s) _ Hie) by apply Hs. by destruct s. }
  rewrite (bind_ok _ _ _ _ _ Hies).
  assert (v_node v <> v_node h) as Hne.
  { intros Heq. rewrite <- Heq in Hx. assert (existsb (own_link s0 (v_node v)) (ted s0) = true); [|congruence].
    apply local_peer_link. by exists x. }
  rewrite (proj2 (Z.eqb_neq _ _) Hne).
  assert (v_node v <> 0) as Hnz.
  { rewrite Hp in Hpar. destruct Hpar as (u & y & d' & _ & Hy & _ & <- & _). apply links_ted in Hy.
    pose proof (rb_unicast _ ready) as Hu. rewrite Forall_forall in Hu. by apply (Hu y Hy). }
  destruct (add_host_route s (v_node v) (v_node h) REMOTE ie Hok Hnz) as (q & s' & Hadd & Hs' & Hok' & Hhas).
  rewrite (bind_ok _ _ _ _ _ Hadd).
  assert (remote_route (v_node v) (host_route (v_node v) (v_node h) REMOTE (Some ie))) as Hroute.
  { destruct (chain_route _ _ V tree (usable_metrics _ _ _ (rb_database _ ready)) i l v d Hc Hv Hon Hd ltac:(lia)) as (q' & Hq' & Hr).
    exists (v_node h), x, ie, d, q'. split_and!; [done|done|done|done| |done|done].
    rewrite <- Hk, <- (reverse_involutive (node_at V <$> l)), Hq', elem_of_reverse in Hhk. set_solver. }
  assert (remote_node (v_node v)) as Hnode.
  { split_and!; [done|by eexists|]. intros Hl%local_peer_link. congruence. }
  exists tt, s'. split_and!; [done| |].
  - split_and!; [done|done| |].
    + intros q' y [Hy|[-> ->]]%Hhas; [by left|right]. by rewrite host_route_host.
    + intros q' y Hy. apply Hhas. by left.
  - intros _. exists q, (host_route (v_node v) (v_node h) REMOTE (Some ie)). split; [apply Hhas; by right|done].
Qed.

End Rebuild.

(** ** The routes to the peers *)
Section Peers.
Context (s0 : t).
Hypothesis ready : routable s0.

Definition peer_route (a : IPAddress.t) (e : IPRoute) : Prop :=
  exists l ie, l ∈ ted s0 /\ advrouter l = routerId s0 /\ local l = a /\ e = host_route (linkid l) 0 DIRECT (Some ie) /\
    getInterfaceByAddress a (node s0) = Ok (Some ie) (node s0).

Lemma find_index_spec f l : match find_index f l with
  | Some i => exists x, l !! i = Some x /\ f x = true
  | None => forall x, x ∈ l -> f x = false end.
Proof.
  induction l as [|x l IH]; cbn [find_index]; [set_solver|]. destruct (f x) eqn:E; [by exists x|].
  destruct (find_index f l) as [i|]; cbn; [done|]. intros y [->|Hy]%elem_of_cons; auto.
Qed.

Lemma add_peer_run a s :
  a ∈ interfaceAddrs s0 -> same_ted s0 s -> pointers_ok (node s) ->
  exists b s', add_peer a s = Ok b s' /\ adds (fun x => exists a, a ∈ interfaceAddrs s0 /\ peer_route a x) s s' /\
    (True -> exists q x, has (node s') q x /\ peer_route a x).
Proof.
  intros Ha Hs Hok. destruct (rb_addrs _ ready a Ha) as (l & Hl & Hadv & Hloc).
  unfold add_peer, getPeerByLocalAddress, linkIndex. unfold bind at 1, bind at 1, bind at 1, gets at 1.
  pose proof Hs as (Hted & Hid & _ & _ & _). rewrite Hid, Hted.
  pose proof (find_index_spec (fun l => (advrouter l =? routerId s0) && (local l =? a)) (ted s0)) as Hi.
  destruct (find_index _ (ted s0)) as [i|].
  2: { exfalso. specialize (Hi l Hl). rewrite Hadv, Hloc, !Z.eqb_refl in Hi. done. }
  destruct Hi as (x & Hx & [Hxa%Z.eqb_eq Hxl%Z.eqb_eq]%andb_prop). cbn [ret].
  unfold link_at. unfold bind at 1, bind at 1, gets at 1. rewrite Hted, Hx. cbn [ret].
  assert (x ∈ ted s0) as Hin by (by eapply list_elem_of_lookup_2).
  destruct (rb_iface _ ready x Hin Hxa) as (ifId & ie & Hie & _). rewrite Hxl in Hie.
  assert (on_node (getInterfaceByAddress a) s = Ok (Some ie) s) as Hies.
  { unfold on_node. rewrite (getInterfaceByAddress_ift _ (node s0) (node s) _ Hie) by apply Hs. by destruct s. }
  rewrite (bind_ok _ _ _ _ _ Hies).
  pose proof (rb_unicast _ ready) as Hu. rewrite Forall_forall in Hu. destruct (Hu x Hin) as [_ [Hnz _]].
  destruct (add_host_route s (linkid x) 0 DIRECT ie Hok Hnz) as (q & s' & Hadd & Hs' & Hok' & Hhas).
  rewrite (bind_ok _ _ _ _ _ Hadd).
  assert (peer_route a (host_route (linkid x) 0 DIRECT (Some ie))) as Hpr by (exists x, ie; by split_and!).
  exists tt, s'. split_and!; [done| |].
  - split_and!; [done|done| |].
    + intros q' y [Hy|[-> ->]]%Hhas; [by left|right]. by exists a.
    + intros q' y Hy. apply Hhas. by left.
  - intros _. exists q, (host_route (linkid x) 0 DIRECT (Some ie)). split; [apply Hhas; by right|done].
Qed.
End Peers.

(** ** The new table *)
Definition rebuilt (s s' : t) : Prop :=
  same_ted s s' /\ pointers_ok (node s') /\
  (forall q x, has (node s') q x ->
     (has (node s) q x /\ IPAddress.isMulticast (host x) = true) \/
     (remote_node s (host x) /\ remote_route s (host x) x) \/
     (exists a, a ∈ interfaceAddrs s /\ peer_route s a x)) /\
  (forall q x, has (node s) q x -> IPAddress.isMulticast (host x) = true -> has (node s') q x) /\
  (forall b, remote_node s b -> exists q x, has (node s') q x /\ remote_route s b x) /\
  (forall a, a ∈ interfaceAddrs s -> exists q x, has (node s') q x /\ peer_route s a x).

Lemma rebuild_run s : routable s -> exists s', rebuildRoutingTable s = Ok tt s' /\ rebuilt s s'.
Proof.
  intros Hready. unfold rebuildRoutingTable. unfold bind at 1, gets at 1.
  destruct (shortest_paths_run (ted s) (double_of_int 0) 7 s (rb_database _ Hready)) as (V & Hrun & Htree).
  rewrite (bind_ok _ _ _ _ _ Hrun). unfold bind at 1, on_node at 1, getNumRoutes, get_rt, gets.
  destruct (drop_routes_run (length (all_routes (node s))) 0 (node s)) as (n1 & Hdrop & Hok1 & Hift1 & Hhas1);
    [apply Hready|done|lia|].
  set (s1 := s <| node := n1 |>).
  assert (same_ted s s1) as Hs1 by (by split_and!).
  destruct (mapE_adds (fun '(i, v) => add_remote V i v)
    (fun x => remote_node s (host x) /\ remote_route s (host x) x) (fun a x => remote_route s (v_node (snd a)) x)
    (fun a => remote_node s (v_node (snd a))) (zip (seq 0 (length V)) V) s s1) as (bs & s2 & Hmap & Hadds & Hall).
  { intros [i v] s' Hin Hs' Hok'. apply (add_remote_run s Hready V Htree); [|done|done].
    apply list_elem_of_lookup in Hin as [k Hk]. apply lookup_zip_with_Some in Hk as (i' & v' & [= -> ->] & Hi & Hv).
    apply lookup_seq in Hi as [-> _]. done. }
  { done. }
  { done. }
  pose proof Hadds as (Hs2 & Hok2 & Hn2 & Hk2).
  assert (same_ted s s2) as Hss2 by (by eapply same_ted_trans).
  destruct (mapE_adds add_peer (fun x => exists a, a ∈ interfaceAddrs s /\ peer_route s a x) (peer_route s) (fun _ => True)
    (interfaceAddrs s) s s2) as (bs' & s3 & Hmap' & Hadds' & Hall').
  { intros a s' Ha Hs' Hok'. by apply (add_peer_run s Hready). }
  { done. }
  { done. }
  pose proof Hadds' as (Hs3 & Hok3 & Hn3 & Hk3).
  exists s3. split.
  - assert (on_node (drop_routes (length (routes (rt (node s))) + length (multicastRoutes (rt (node s)))) 0) s = Ok tt s1) as Hd.
    { unfold on_node. unfold all_routes in Hdrop. rewrite length_app in Hdrop. by rewrite Hdrop. }
    assert (s <| node := node s |> = s) as Heta by (by destruct s). rewrite Heta.
    rewrite (bind_ok _ _ _ _ _ Hd), (bind_ok _ _ _ _ _ Hmap). unfold bind at 1.
    assert (interfaceAddrs s2 = interfaceAddrs s) as -> by apply Hss2. by rewrite (bind_ok _ _ _ _ _ Hmap').
  - split_and!; [by eapply same_ted_trans|done| | | |].
    + intros q x [Hx|Hx]%Hn3; [|by right; right]. apply Hn2 in Hx as [Hx|Hx]; [|by right; left].
      left. by apply Hhas1.
    + intros q x Hx Hm. apply Hk3, Hk2, Hhas1. by split.
    + intros b Hb. pose proof Hb as (_ & (c & Hc) & _). apply (tree_all _ _ _ Htree) in Hc.
      apply list_elem_of_fmap in Hc as (v & -> & Hv). apply list_elem_of_lookup in Hv as [i Hi].
      destruct (Hall (i, v)) as (q & x & Hx & Hr); [|done|exists q, x; split; [by apply Hk3|done]].
      apply list_elem_of_lookup. exists i. apply lookup_zip_with_Some. exists i, v. split_and!; [done| |done].
      apply lookup_seq. split; [done|by eapply lookup_lt_Some].
    + intros a Ha. by apply Hall'.
Qed.

(** C37: [rebuildRoutingTable] always returns when the database and the
    interfaces fit together.  The multicast routes stay; every other route of the
    new table is either the direct route to a peer over one of the interfaces, or
    the host route to a node that can be reached over the links that are up, whose
    gateway is a peer on a shortest path to the node.  Every interface and every
    such node has its route. *)
Theorem routes_follow_shortest_paths s :
  routable s -> exists s', rebuildRoutingTable s = Ok tt s' /\ rebuilt s s' /\ routable s'.
Proof.
  intros Hready. destruct (rebuild_run s Hready) as (s' & Hrun & Hre). exists s'. split_and!; [done|done|].
  destruct Hready as [Hdb Hu Hi Ha _]. destruct Hre as ((Ht & Hr & Hd & _ & Hift) & Hok & _).
  split; rewrite ?Ht, ?Hr, ?Hd; [done|done| |done|done].
  intros l Hl Hadv. destruct (Hi l Hl Hadv) as [i Hif]. exists i. by eapply iface_ift.
Qed.

(** C38: A peer all of whose links are down keeps nothing but direct routes over
    those links, whether or not there is another way to it: [isLocalPeer] does not
    look at the state of a link. *)
Theorem dead_link_keeps_route s s' h :
  routable s -> (exists l, first_link s h l) ->
  (forall l, l ∈ ted s -> advrouter l = routerId s -> linkid l = h -> te_state l = false) ->
  rebuildRoutingTable s = Ok tt s' ->
  forall q x, has (node s') q x -> host x = h -> IPAddress.isMulticast h = false ->
    type_ x = DIRECT /\ gateway x = 0 /\
    exists l i, l ∈ ted s /\ linkid l = h /\ te_state l = false /\ iface (node s) (local l) i /\ interfacePtr x = Some i.
Proof.
  intros Hready Hpeer Hdown Hrun q x Hx Hh Hm.
  destruct (rebuild_run s Hready) as (s'' & Hrun' & Hre). rewrite Hrun in Hrun'. injection Hrun' as <-.
  destruct Hre as (_ & _ & Hcase & _). destruct (Hcase q x Hx) as [[_ Hmx]|[[Hnode _]|(a & Ha & Hpr)]].
  - rewrite Hh in Hmx. congruence.
  - exfalso. rewrite Hh in Hnode. by apply Hnode.
  - destruct Hpr as (l & ie & Hl & Hadv & Hloc & -> & Hie). rewrite host_route_host in Hh.
    pose proof (Hdown l Hl Hadv Hh) as Hst. split_and!; [done|done|]. exists l, (interfaceId ie).
    split_and!; [done|done|done| |done]. exists ie. by rewrite Hloc.
Qed.
