(* ===== verification/LinkState.v ===== *)
(** * Link state routing

    [networklayer/ted/LinkStateRouting.cc]: floods the entries of the traffic
    engineering database of [TED].  What the module gives to IP is collected in
    [toIP]: the destination, the message and its length in bytes. *)
From Stdlib Require Import String SpecFloat.
From S2P Require Import Prelude IPAddress MachineFloat InterfaceTable RoutingTable TED.

Record LinkStateMsg : Type := mk_LinkStateMsg { linkInfo : list TELinkStateInfo; request : bool }.

Module LinkStateRouting.
Record t : Type := mk {
  tedmod : TED.t;
  announceMsg : bool;
  routerId : IPAddress.t;
  peerIfAddrs : list IPAddress.t;
  toIP : list (IPAddress.t * LinkStateMsg * Z)
}.
#[global] Instance eta : Eta t := fun s =>
  {| tedmod := tedmod s; announceMsg := announceMsg s; routerId := routerId s;
     peerIfAddrs := peerIfAddrs s; toIP := toIP s |}.

Definition on_ted {A} (m : Eff TED.t A) : Eff t A := fun s =>
  match m (tedmod s) with Ok a x => Ok a (s <| tedmod := x |>) | Err e => Err e end.

(** ** Sending *)
Definition sendToIP (msg : LinkStateMsg) (destAddr : IPAddress.t) : Eff t unit :=
  modify (fun s => s <| toIP := toIP s ++ [(destAddr, msg, Z.of_nat (length (linkInfo msg)) * 72)] |>).

Definition sendToPeer (peer : IPAddress.t) (list_ : list TELinkStateInfo) (req : bool) : Eff t unit :=
  sendToIP (mk_LinkStateMsg list_ req) peer.

(** Whether a message to all peers but [exceptPeer] is sent over the link. *)
Definition sends_over (s : t) (exceptPeer : IPAddress.t) (l : TELinkStateInfo) : bool :=
  (advrouter l =? routerId s) && negb (linkid l =? exceptPeer) && te_state l &&
  existsb (Z.eqb (local l)) (peerIfAddrs s).

Definition sendToPeers (list_ : list TELinkStateInfo) (req : bool) (exceptPeer : IPAddress.t) : Eff t unit :=
  let! links := gets (fun s => TED.ted (tedmod s)) in
  let! _ := mapE (fun l =>
    let! b := gets (fun s => sends_over s exceptPeer l) in
    when b (sendToPeer (linkid l) list_ req)) links in
  ret tt.

(** ** Receiving *)
(** Copies the information from [link] over the entry that is there. *)
Definition merge (link match_ : TELinkStateInfo) : TELinkStateInfo :=
  match_ <| te_state := te_state link |> <| messageId := messageId link |> <| sourceId := sourceId link |>
    <| timestamp := timestamp link |> <| UnResvBandwidth := UnResvBandwidth link |>
    <| MaxBandwidth := MaxBandwidth link |> <| te_metric := te_metric link |>.

(** One link of a message: whether it is to be forwarded and whether the topology
    changed. *)
Definition process_link (link : TELinkStateInfo) : Eff TED.t (bool * bool) :=
  let! r := TED.checkLinkValidity link in
  if negb (fst r) then ret (false, false) else
  assert_ "link.sourceId == link.advrouter.getInt()" (sourceId link =? advrouter link) ;;;
  match snd r with
  | None => modify (fun s => s <| TED.ted := TED.ted s ++ [link] |>) ;;; ret (true, true)
  | Some i =>
      let! m := TED.link_at i in
      modify (fun s => s <| TED.ted := alter (merge link) i (TED.ted s) |>) ;;;
      ret (true, negb (Bool.eqb (te_state m) (te_state link)))
  end.

Fixpoint process_links (l : list TELinkStateInfo) : Eff TED.t (list TELinkStateInfo * bool) :=
  match l with
  | [] => ret ([], false)
  | link :: rest =>
      let! r := process_link link in
      let! rs := process_links rest in
      ret (if fst r then link :: fst rs else fst rs, snd r || snd rs)
  end.

Definition processLINK_STATE_MESSAGE (msg : LinkStateMsg) (sender : IPAddress.t) : Eff t unit :=
  let! r := on_ted (process_links (linkInfo msg)) in
  when (snd r) (on_ted TED.rebuildRoutingTable) ;;;
  let! all := gets (fun s => TED.ted (tedmod s)) in
  when (request msg) (sendToPeer sender all false) ;;;
  match fst r with
  | [] => ret tt
  | forward => sendToPeers forward false sender
  end.

(** ** Local changes *)
Fixpoint stamp_links (indices : list nat) : Eff TED.t (list TELinkStateInfo) :=
  match indices with
  | [] => ret []
  | i :: rest =>
      TED.updateTimestamp i ;;;
      let! l := TED.link_at i in
      let! ls := stamp_links rest in
      ret (l :: ls)
  end.

Definition receiveChangeNotification (tedLinkIndices : list nat) : Eff t unit :=
  assert_ "k > 0" (0 <? length tedLinkIndices)%nat ;;;
  let! links := on_ted (stamp_links tedLinkIndices) in
  sendToPeers links false 0.

(** ** The module *)
Inductive Message : Type := Announce | FromIP (msg : LinkStateMsg) (sender : IPAddress.t).

Definition handleMessage (m : Message) : Eff t unit :=
  match m with
  | Announce =>
      modify (fun s => s <| announceMsg := false |>) ;;;
      let! all := gets (fun s => TED.ted (tedmod s)) in
      sendToPeers all true 0
  | FromIP msg sender => processLINK_STATE_MESSAGE msg sender
  end.

(** [peers] are the tokens of the module parameter. *)
Definition peer_address (name : string) : Eff TED.t IPAddress.t :=
  let! e := gets (fun s => InterfaceTable.getInterfaceByName name (ift (TED.node s))) in
  match e with
  | None => fail (AssertionFailed "ift->getInterfaceByName(token)")
  | Some e => let! d := ipv4Data e in ret (inetAddr d)
  end.

Definition initialize (peers : list string) (x : TED.t) : Eff unit t := fun u =>
  match mapE peer_address peers x with
  | Ok addrs x => Ok {| tedmod := x; announceMsg := true; routerId := RoutingTable.routerId (rt (TED.node x));
                        peerIfAddrs := addrs; toIP := [] |} u
  | Err e => Err e
  end.
End LinkStateRouting.
