(* ===== verification/LinkStateSpec.v ===== *)
(** * What one router does to the link state

    The entries of the database are ordered by their message ids: a router keeps,
    for every link, the newest entry it has heard of, and forwards what is news to
    it. *)
From Stdlib Require Import String SpecFloat.
From S2P Require Import Prelude Frames IPAddress MachineFloat InterfaceTable RoutingTable TED LinkState.
Import LinkStateRouting.

(** ** Rebuilding the routes leaves the database alone *)
Definition database (s : TED.t) : list TELinkStateInfo * IPAddress.t * Z * Z :=
  (TED.ted s, TED.routerId s, TED.maxMessageId s, clock (TED.node s)).

Section RebuildFrame.
Lemma frames_on_node {A} (m : Eff Node A) : frames clock m -> frames database (TED.on_node m).
Proof.
  intros Hm s a s' Hrun. unfold TED.on_node in Hrun. destruct (m (TED.node s)) as [b n|] eqn:E; [|done].
  injection Hrun as <- <-. unfold database. cbn. by rewrite (Hm _ _ _ E).
Qed.
Lemma frames_clock_deref p : frames clock (deref p).
Proof. unfold deref, get_rt. frames_walk. Qed.
Lemma frames_set_rt f : frames clock (set_rt f).
Proof. unfold set_rt. frames_walk. Qed.
Lemma frames_fire x : frames clock (fireChangeNotification x).
Proof. unfold fireChangeNotification. frames_walk. Qed.
Hint Resolve frames_clock_deref frames_set_rt frames_fire : frames.
Lemma frames_deleteRoute p : frames clock (deleteRoute p).
Proof. unfold deleteRoute, invalidateCache, get_rt. frames_walk. Qed.
Hint Resolve frames_deleteRoute : frames.
Lemma frames_getDefaultRoute : frames clock getDefaultRoute.
Proof. unfold getDefaultRoute, get_rt. frames_walk. apply frames_mapE. intros. apply frames_clock_deref. Qed.
Hint Resolve frames_getDefaultRoute : frames.
Lemma frames_addRoute e : frames clock (addRoute e).
Proof. unfold addRoute, invalidateCache, get_rt. frames_walk. Qed.
Lemma frames_ipv4Data e : frames clock (ipv4Data e).
Proof. unfold ipv4Data. frames_walk. Qed.
Lemma frames_byAddress a : frames clock (getInterfaceByAddress a).
Proof. unfold getInterfaceByAddress, all_interfaces. frames_walk. apply frames_mapE. apply frames_ipv4Data. Qed.
Lemma frames_drop k j : frames clock (TED.drop_routes k j).
Proof. revert j. induction k as [|k IH]; intros j; cbn [TED.drop_routes]; unfold getRoute, get_rt; frames_walk. Qed.
Hint Resolve frames_on_node frames_addRoute frames_byAddress frames_drop : frames.
Lemma frames_collect l req prio vs es : frames database (TED.collect l req prio vs es).
Proof.
  revert vs es. induction l as [|x l IH]; intros vs es; cbn [TED.collect]; [frames_walk|].
  destruct (negb _); [apply IH|]. destruct (_ !! prio); [|frames_walk]. destruct (SFltb _ _); [apply IH|].
  destruct (TED.assignIndex vs _) as [i vs1]. destruct (TED.assignIndex vs1 _). apply IH.
Qed.
Lemma frames_with_vector {L A} (vs : L) (m : Eff L A) : frames database (TED.with_vector vs m).
Proof. intros s a s' Hrun. unfold TED.with_vector in Hrun. destruct (m vs); [|done]. by injection Hrun as _ <-. Qed.
Hint Resolve frames_collect frames_with_vector : frames.
Lemma frames_paths l req prio : frames database (TED.calculateShortestPaths l req prio).
Proof.
  unfold TED.calculateShortestPaths. apply frames_bind; [frames_walk|]. intros g. apply frames_bind; [frames_walk|].
  intros me. destruct (TED.assignIndex _ me). frames_walk.
Qed.
Lemma frames_peer a : frames database (TED.isLocalPeer a).
Proof. unfold TED.isLocalPeer. frames_walk. Qed.
Hint Resolve frames_paths frames_peer : frames.
Lemma frames_next_hop fuel V i : frames database (TED.next_hop fuel V i).
Proof. revert i. induction fuel as [|fuel IH]; intros i; cbn [TED.next_hop]; frames_walk. Qed.
Hint Resolve frames_next_hop : frames.
Lemma frames_add_remote V i v : frames database (TED.add_remote V i v).
Proof. unfold TED.add_remote, TED.getInterfaceAddrByPeerAddress. frames_walk. Qed.
Lemma frames_add_peer a : frames database (TED.add_peer a).
Proof. unfold TED.add_peer, TED.getPeerByLocalAddress, TED.linkIndex, TED.link_at. frames_walk. Qed.

Lemma frames_rebuild : frames database TED.rebuildRoutingTable.
Proof.
  unfold TED.rebuildRoutingTable. frames_walk.
  - apply frames_on_node. unfold getNumRoutes, get_rt. frames_walk.
  - apply frames_mapE. intros [i v]. apply frames_add_remote.
  - apply frames_mapE. apply frames_add_peer.
Qed.
End RebuildFrame.

(** ** Entries *)
Definition key (l : TELinkStateInfo) : IPAddress.t * IPAddress.t := (advrouter l, linkid l).

(** [T] has an entry for the link of [a] that is not older. *)
Definition covers (T : list TELinkStateInfo) (a : TELinkStateInfo) : Prop :=
  exists b, b ∈ T /\ key b = key a /\ messageId a <= messageId b.

(** What holds of the entries that were ever originated: a router numbers its
    entries in the order of time, and what describes the link itself does not
    change; links do not go down. *)
Record history_ok (H : list TELinkStateInfo) : Prop := {
  ho_unique : forall a b, a ∈ H -> b ∈ H -> sourceId a = sourceId b -> messageId a = messageId b -> a = b;
  ho_order : forall a b, a ∈ H -> b ∈ H -> sourceId a = sourceId b -> messageId a < messageId b -> timestamp a <= timestamp b;
  ho_source : forall a, a ∈ H -> sourceId a = advrouter a;
  ho_ends : forall a b, a ∈ H -> b ∈ H -> key a = key b -> local a = local b /\ remote a = remote b;
  ho_up : forall a, a ∈ H -> te_state a = true
}.

Record entries_ok (H T : list TELinkStateInfo) : Prop := {
  eo_history : T ⊆ H;
  eo_keys : NoDup (key <$> T)
}.

Section Process.
Context (H : list TELinkStateInfo).
Hypothesis Hok : history_ok H.
Implicit Types (T L F : list TELinkStateInfo) (a b link : TELinkStateInfo).

Lemma same_key a b : a ∈ H -> b ∈ H -> key a = key b -> messageId a = messageId b -> a = b.
Proof.
  intros Ha Hb Hk Hm. apply (ho_unique H Hok); [done|done| |done].
  rewrite (ho_source H Hok a Ha), (ho_source H Hok b Hb). by injection Hk.
Qed.

Lemma key_source a b : a ∈ H -> b ∈ H -> key a = key b -> sourceId a = sourceId b.
Proof. intros Ha Hb [= Hk _]. by rewrite (ho_source H Hok a Ha), (ho_source H Hok b Hb). Qed.

Lemma keys_inj T a b : entries_ok H T -> a ∈ T -> b ∈ T -> key a = key b -> a = b.
Proof.
  intros [_ Hnd] [i Hi]%list_elem_of_lookup [j Hj]%list_elem_of_lookup Hk.
  assert (i = j) as ->; [|congruence].
  eapply NoDup_lookup; [exact Hnd|by rewrite list_lookup_fmap, Hi|by rewrite list_lookup_fmap, Hj, Hk].
Qed.

Lemma covers_elem T a : a ∈ T -> covers T a.
Proof. intros. by exists a. Qed.

Lemma covers_trans T T' a : covers T a -> (forall b, b ∈ T -> covers T' b) -> covers T' a.
Proof.
  intros (b & Hb & Hk & Hm) Hall. destruct (Hall b Hb) as (c & Hc & Hkc & Hmc). exists c. split_and!; [done|congruence|lia].
Qed.

(** By the order of the ids, the comparison of the code finds the newer entry. *)
Lemma newer_spec it link :
  it ∈ H -> link ∈ H -> key it = key link -> it <> link ->
  ((timestamp it <? timestamp link) || ((timestamp it =? timestamp link) && (messageId it <? messageId link)))
  = (messageId it <? messageId link).
Proof.
  intros Hi Hl Hk Hne. pose proof (key_source it link Hi Hl Hk) as Hs.
  assert (messageId it <> messageId link) as Hm by (intros ?; by apply Hne, same_key).
  destruct (Z.ltb_spec (messageId it) (messageId link)) as [Hlt|Hge].
  - pose proof (ho_order H Hok it link Hi Hl Hs Hlt). lia.
  - pose proof (ho_order H Hok link it Hl Hi (eq_sym Hs) ltac:(lia)). lia.
Qed.

Lemma check_spec link T i :
  link ∈ H -> T ⊆ H ->
  match TED.check_loop link i T with
  | (false, _) => covers T link
  | (true, None) => key link ∉ key <$> T
  | (true, Some k) => exists m, (i <= k)%nat /\ T !! (k - i)%nat = Some m /\ key m = key link /\ messageId m < messageId link
  end.
Proof.
  intros Hl. revert i. induction T as [|it T IH]; intros i HT; cbn [TED.check_loop]; [set_solver|].
  assert (it ∈ H) as Hit by set_solver.
  destruct ((sourceId it =? sourceId link) && (messageId it =? messageId link) && (timestamp it =? timestamp link)) eqn:E1.
  { assert (it = link) as -> by (apply (ho_unique H Hok); [done|done|lia|lia]). apply covers_elem. set_solver. }
  assert (it <> link) as Hne by (intros ->; rewrite !Z.eqb_refl in E1; done).
  destruct ((advrouter it =? advrouter link) && (linkid it =? linkid link)) eqn:E2.
  - assert (key it = key link) as Hk by (unfold key; f_equal; lia). rewrite newer_spec by done.
    destruct (Z.ltb_spec (messageId it) (messageId link)).
    + exists it. rewrite Nat.sub_diag. by split_and!.
    + exists it. split_and!; [by left|done|lia].
  - assert (key it <> key link) as Hk by (intros [= ? ?]; lia). specialize (IH (S i) ltac:(set_solver)).
    destruct (TED.check_loop link (S i) T) as [[] [k|]].
    + destruct IH as (m & Hik & Hm & Hkm & Hlt). exists m. split_and!; [lia| |done|done].
      destruct (k - i)%nat as [|n] eqn:Ek; [lia|]. cbn. by replace n with (k - S i)%nat by lia.
    + rewrite fmap_cons. apply not_elem_of_cons. split; [congruence|done].
    + destruct IH as (b & Hb & ?). exists b. split; [by right|done].
    + destruct IH as (b & Hb & ?). exists b. split; [by right|done].
Qed.

Lemma merge_link link m : link ∈ H -> m ∈ H -> key m = key link -> merge link m = link.
Proof.
  intros Hl Hm Hk. destruct (ho_ends H Hok m link Hm Hl Hk) as [Hloc Hrem]. injection Hk as Ha Hi.
  destruct link, m. cbn in *. by subst.
Qed.

(** What processing the links [L] makes of the entries [T], and what is
    forwarded. *)
Record absorbs T L T' F : Prop := {
  ab_entries : entries_ok H T';
  ab_keeps : forall a, a ∈ T -> covers T' a;
  ab_learns : forall a, a ∈ L -> covers T' a;
  ab_news : forall a, a ∈ T' -> a ∈ T \/ a ∈ F;
  ab_forward : forall a, a ∈ F -> a ∈ L /\ ~ covers T a
}.

Lemma process_link_run link s :
  link ∈ H -> entries_ok H (TED.ted s) ->
  exists T' f c, process_link link s = Ok (f, c) (s <| TED.ted := T' |>) /\
    absorbs (TED.ted s) [link] T' (if f then [link] else []).
Proof.
  intros Hl HT. pose proof (check_spec link (TED.ted s) 0 Hl (eo_history _ _ HT)) as Hc.
  unfold process_link. unfold bind at 1, TED.checkLinkValidity, gets at 1.
  destruct (TED.check_loop link 0 (TED.ted s)) as [b o]. destruct b; cbn [fst snd negb].
  2: { exists (TED.ted s), false, false. split; [by destruct s|]. split; [done| | |by left|set_solver].
       - intros a Ha. by apply covers_elem.
       - by intros a ->%list_elem_of_singleton. }
  unfold bind at 1, assert_. rewrite (ho_source H Hok link Hl), Z.eqb_refl. cbn [ret]. destruct o as [k|].
  - destruct Hc as (m & _ & Hm & Hk & Hlt). rewrite Nat.sub_0_r in Hm.
    assert (m ∈ TED.ted s) as Hmin by (by eapply list_elem_of_lookup_2).
    unfold TED.link_at. unfold bind at 1, bind at 1, gets at 1. rewrite Hm. cbn [ret].
    assert (alter (merge link) k (TED.ted s) = <[k := link]> (TED.ted s)) as Halt.
    { apply list_eq. intros j. destruct (decide (j = k)) as [->|Hne].
      - rewrite list_lookup_alter_eq, list_lookup_insert_eq by (by eapply lookup_lt_Some). rewrite Hm. cbn.
        f_equal. apply merge_link; [done|by apply (eo_history _ _ HT)|done].
      - by rewrite list_lookup_alter_ne, list_lookup_insert_ne. }
    exists (<[k := link]> (TED.ted s)), true, (negb (Bool.eqb (te_state m) (te_state link))). split.
    { unfold bind, modify, ret. by rewrite Halt. }
    assert (forall a, a ∈ TED.ted s -> covers (<[k := link]> (TED.ted s)) a) as Hkeep.
    { intros a Ha. destruct (decide (key a = key link)) as [Hka|Hka].
      - assert (a = m) as -> by (eapply keys_inj; [done|done|done|congruence]). exists link. split_and!; [|done|lia].
        apply list_elem_of_lookup. exists k. by apply list_lookup_insert_eq; eapply lookup_lt_Some.
      - apply list_elem_of_lookup in Ha as [j Hj]. exists a. split_and!; [|done|lia].
        apply list_elem_of_lookup. exists j. rewrite list_lookup_insert_ne; [done|]. intros ->. congruence. }
    split.
    + split.
      * intros a [j Hj]%list_elem_of_lookup. apply list_lookup_insert_Some in Hj as [(_ & -> & _)|[_ Hj]]; [done|].
        apply (eo_history _ _ HT). by eapply list_elem_of_lookup_2.
      * rewrite list_fmap_insert, list_insert_id; [apply HT|]. by rewrite list_lookup_fmap, Hm, <- Hk.
    + done.
    + intros a ->%list_elem_of_singleton. apply covers_elem, list_elem_of_lookup. exists k.
      by apply list_lookup_insert_eq; eapply lookup_lt_Some.
    + intros a [j Hj]%list_elem_of_lookup. apply list_lookup_insert_Some in Hj as [(_ & -> & _)|[_ Hj]]; [set_solver|].
      left. by eapply list_elem_of_lookup_2.
    + intros a ->%list_elem_of_singleton. split; [set_solver|]. intros (b & Hb & Hkb & Hmb).
      assert (b = m) as -> by (eapply keys_inj; [done|done|done|congruence]). lia.
  - exists (TED.ted s ++ [link]), true, true. split; [done|]. split.
    + split; [pose proof (eo_history _ _ HT); set_solver|]. rewrite fmap_app. apply NoDup_app.
      split_and!; [apply HT| |apply NoDup_singleton]. intros x Hx. cbn. intros ->%list_elem_of_singleton. done.
    + intros a Ha. apply covers_elem. set_solver.
    + intros a ->%list_elem_of_singleton. apply covers_elem. set_solver.
    + intros a. set_solver.
    + intros a ->%list_elem_of_singleton. split; [set_solver|]. intros (b & Hb & Hkb & _). apply Hc.
      rewrite <- Hkb. by apply list_elem_of_fmap_2.
Qed.

Lemma absorbs_app T L T' F L2 T2 F2 :
  entries_ok H T -> absorbs T L T' F -> absorbs T' L2 T2 F2 -> absorbs T (L ++ L2) T2 (F ++ F2).
Proof.
  intros HT [E1 K1 L1 N1 F1] [E2 K2 L2' N2 F2'].
  assert (forall a, covers T a -> covers T' a) as Hmono by (intros a Ha; by eapply covers_trans).
  split.
  - done.
  - intros a Ha. eapply covers_trans; [by apply K1|done].
  - intros a [Ha|Ha]%elem_of_app; [eapply covers_trans; [by apply L1|done]|by apply L2'].
  - intros a Ha. rewrite elem_of_app. destruct (N2 a Ha) as [Ha'|Ha']; [|by right; right].
    destruct (N1 a Ha') as [?|?]; [by left|by right; left].
  - intros a [Ha|Ha]%elem_of_app; rewrite elem_of_app.
    + destruct (F1 a Ha). split; [by left|done].
    + destruct (F2' a Ha) as [? Hn]. split; [by right|]. intros Hc. by apply Hn, Hmono.
Qed.

Lemma process_links_run L s :
  L ⊆ H -> entries_ok H (TED.ted s) ->
  exists T' F c, process_links L s = Ok (F, c) (s <| TED.ted := T' |>) /\ absorbs (TED.ted s) L T' F.
Proof.
  revert s. induction L as [|link L IH]; intros s HL HT; cbn [process_links].
  - exists (TED.ted s), [], false. split; [by destruct s|]. split; [done| |by intros a ?%not_elem_of_nil|by left|by intros a ?%not_elem_of_nil].
    intros a Ha. by apply covers_elem.
  - destruct (process_link_run link s) as (T1 & f & c & Hrun & Hab); [apply HL; by left|done|].
    rewrite (bind_ok _ _ _ _ _ Hrun).
    destruct (IH (s <| TED.ted := T1 |>)) as (T2 & F & c2 & Hrun2 & Hab2); [intros a Ha; apply HL; by right|apply Hab|].
    rewrite (bind_ok _ _ _ _ _ Hrun2). exists T2, ((if f then [link] else []) ++ F), (c || c2).
    split; [by destruct f|]. by apply (absorbs_app _ [link] T1 _ L).
Qed.

(** What was known is still there unless it is forwarded anew. *)
Lemma absorbs_same T L T' F a :
  entries_ok H T -> absorbs T L T' F -> a ∈ T -> (forall b, b ∈ H -> key b = key a -> messageId b <= messageId a) -> a ∈ T'.
Proof.
  intros HT Hab Ha Hmax. destruct (ab_keeps _ _ _ _ Hab a Ha) as (b & Hb & Hk & Hm).
  assert (b ∈ H) as HbH by (by apply (eo_history _ _ (ab_entries _ _ _ _ Hab))).
  assert (a ∈ H) as HaH by (by apply (eo_history _ _ HT)).
  assert (b = a) as <-; [|done]. apply same_key; [done|done|done|]. specialize (Hmax b HbH Hk). lia.
Qed.
End Process.

(** ** What is sent *)
Definition posted (s : t) : list (IPAddress.t * LinkStateMsg) := fst <$> toIP s.

Definition peer_links (s : t) (exceptPeer : IPAddress.t) : list TELinkStateInfo :=
  filter (fun l => sends_over s exceptPeer l = true) (TED.ted (tedmod s)).

Lemma sendToPeers_run L req x s :
  exists out, sendToPeers L req x s = Ok tt (s <| toIP := out |>) /\
    fst <$> out = posted s ++ ((fun l => (linkid l, mk_LinkStateMsg L req)) <$> peer_links s x).
Proof.
  unfold sendToPeers. unfold bind at 1, gets at 1. unfold peer_links.
  assert (forall links s1, tedmod s1 = tedmod s -> routerId s1 = routerId s -> peerIfAddrs s1 = peerIfAddrs s ->
    exists us out, mapE (fun l => let! b := gets (fun s => sends_over s x l) in when b (sendToPeer (linkid l) L req)) links s1
      = Ok us (s1 <| toIP := out |>) /\
      fst <$> out = posted s1 ++ ((fun l => (linkid l, mk_LinkStateMsg L req)) <$> filter (fun l => sends_over s x l = true) links)) as Hgo.
  { induction links as [|l links IH]; intros s1 Ht Hr Hp.
    - exists [], (toIP s1). split; [by destruct s1|]. by rewrite app_nil_r.
    - cbn [mapE].
      assert (sends_over s1 x l = sends_over s x l) as Hso by (unfold sends_over; by rewrite Hr, Hp).
      unfold bind at 1, bind at 1, gets at 1. rewrite Hso, filter_cons. destruct (sends_over s x l) eqn:E; cbn [when].
      + rewrite decide_True by done.
        destruct (IH (s1 <| toIP := toIP s1 ++ [(linkid l, mk_LinkStateMsg L req, Z.of_nat (length L) * 72)] |>))
          as (us & out & Hrun & Hout); [done..|].
        exists (tt :: us), out. split; [unfold sendToPeer, sendToIP, modify; by rewrite (bind_ok _ _ _ _ _ Hrun)|].
        rewrite Hout. unfold posted. cbn. rewrite fmap_app. cbn. by rewrite <- app_assoc.
      + rewrite decide_False by done. destruct (IH s1 Ht Hr Hp) as (us & out & Hrun & Hout).
        exists (tt :: us), out. split; [|done]. cbn [ret]. by rewrite (bind_ok _ _ _ _ _ Hrun). }
  destruct (Hgo (TED.ted (tedmod s)) s) as (us & out & Hrun & Hout); [done..|].
  exists out. split; [by rewrite (bind_ok _ _ _ _ _ Hrun)|done].
Qed.

(** ** The handlers *)
Lemma announce_run s :
  exists s', handleMessage Announce s = Ok tt s' /\ tedmod s' = tedmod s /\ announceMsg s' = false /\
    routerId s' = routerId s /\ peerIfAddrs s' = peerIfAddrs s /\
    posted s' = posted s ++ ((fun l => (linkid l, mk_LinkStateMsg (TED.ted (tedmod s)) true)) <$> peer_links s 0).
Proof.
  cbn [handleMessage]. unfold bind at 1, modify. unfold bind at 1, gets at 1.
  destruct (sendToPeers_run (TED.ted (tedmod s)) true 0 (s <| announceMsg := false |>)) as (out & Hrun & Hout).
  eexists. split; [exact Hrun|]. by split_and!.
Qed.

(** A message about entries of the history. *)
Lemma receive_inv H m x s s' :
  history_ok H -> linkInfo m ⊆ H -> entries_ok H (TED.ted (tedmod s)) ->
  handleMessage (FromIP m x) s = Ok tt s' ->
  exists T' F new, absorbs H (TED.ted (tedmod s)) (linkInfo m) T' F /\
    database (tedmod s') = (T', TED.routerId (tedmod s), TED.maxMessageId (tedmod s), clock (TED.node (tedmod s))) /\
    announceMsg s' = announceMsg s /\ routerId s' = routerId s /\ peerIfAddrs s' = peerIfAddrs s /\
    posted s' = posted s ++ new /\
    (forall d msg, (d, msg) ∈ new -> linkInfo msg ⊆ T' \/ linkInfo msg = F) /\
    (forall d msg, (d, msg) ∈ new -> d = x \/ exists l, l ∈ T' /\ d = linkid l /\ sends_over s x l = true) /\
    (forall l a, l ∈ T' -> sends_over s x l = true -> a ∈ F -> exists msg, (linkid l, msg) ∈ new /\ a ∈ linkInfo msg) /\
    (forall d msg, (d, msg) ∈ new -> request msg = false) /\
    (F = [] -> length new = if request m then 1%nat else 0%nat).
Proof.
  intros Hok HL HT Hrun. cbn [handleMessage] in Hrun. unfold processLINK_STATE_MESSAGE in Hrun.
  destruct (process_links_run H Hok (linkInfo m) (tedmod s) HL HT) as (T' & F & c & Hp & Hab).
  assert (on_ted (process_links (linkInfo m)) s = Ok (F, c) (s <| tedmod := (tedmod s) <| TED.ted := T' |> |>)) as Hp'.
  { unfold on_ted. by rewrite Hp. }
  rewrite (bind_ok _ _ _ _ _ Hp') in Hrun. clear Hp Hp'. set (s1 := s <| tedmod := _ |>) in Hrun. cbn [fst snd] in Hrun.
  apply bind_inv in Hrun as ([] & s2 & Hreb & Hrun).
  assert (database (tedmod s2) = database (tedmod s1) /\ announceMsg s2 = announceMsg s /\ routerId s2 = routerId s /\
    peerIfAddrs s2 = peerIfAddrs s /\ toIP s2 = toIP s) as (Hdb & Hann & Hrid & Hpeers & Hto).
  { destruct c; cbn [when] in Hreb; [|by injection Hreb as <-]. unfold on_ted in Hreb.
    destruct (TED.rebuildRoutingTable (tedmod s1)) as [[] y|] eqn:E; [|done]. injection Hreb as <-.
    apply frames_rebuild in E. by split_and!. }
  assert (TED.ted (tedmod s2) = T') as HT2 by (by injection Hdb).
  unfold bind at 1, gets at 1 in Hrun. rewrite HT2 in Hrun.
  apply bind_inv in Hrun as ([] & s3 & Hreq & Hrun).
  assert (tedmod s3 = tedmod s2 /\ announceMsg s3 = announceMsg s2 /\ routerId s3 = routerId s2 /\ peerIfAddrs s3 = peerIfAddrs s2 /\
    exists new, posted s3 = posted s2 ++ new /\
      (forall d msg, (d, msg) ∈ new -> d = x /\ linkInfo msg = T' /\ request msg = false) /\ length new = if request m then 1%nat else 0%nat)
    as (Ht3 & Ha3 & Hr3 & Hp3 & new1 & Hnew1 & Hin1 & Hlen1).
  { unfold when, sendToPeer, sendToIP, modify, ret in Hreq. destruct (request m); injection Hreq as <-; split_and!; try done.
    - eexists. split; [unfold posted; cbn; by rewrite fmap_app|]. split; [|done]. intros d msg Hin. cbn in Hin.
      apply list_elem_of_singleton in Hin. by injection Hin as -> ->.
    - exists []. split; [by rewrite app_nil_r|]. split; [|done]. by intros d msg ?%not_elem_of_nil. }
  assert (exists new2, posted s' = posted s3 ++ new2 /\ tedmod s' = tedmod s3 /\ announceMsg s' = announceMsg s3 /\
    routerId s' = routerId s3 /\ peerIfAddrs s' = peerIfAddrs s3 /\
    (forall d msg, (d, msg) ∈ new2 -> (linkInfo msg = F /\ request msg = false) /\ exists l, l ∈ T' /\ d = linkid l /\ sends_over s x l = true) /\
    (forall l a, l ∈ T' -> sends_over s x l = true -> a ∈ F -> exists msg, (linkid l, msg) ∈ new2 /\ a ∈ linkInfo msg) /\
    (F = [] -> new2 = []))
    as (new2 & Hnew2 & Ht4 & Ha4 & Hr4 & Hp4 & Hin2 & Hall2 & Hnil2).
  { assert (forall l, sends_over s3 x l = sends_over s x l) as Hso by (intros l; unfold sends_over; by rewrite Hr3, Hp3, Hrid, Hpeers).
    destruct F as [|f F].
    - injection Hrun as <-. exists []. rewrite app_nil_r. split_and!; try done;
        [by intros d msg ?%not_elem_of_nil|by intros l a _ _ ?%not_elem_of_nil].
    - destruct (sendToPeers_run (f :: F) false x s3) as (out & Hsend & Hout). rewrite Hsend in Hrun. injection Hrun as <-.
      eexists. split; [exact Hout|]. split_and!; try done.
      + intros d msg (l & [= -> ->] & Hl)%list_elem_of_fmap. split; [done|].
        apply list_elem_of_filter in Hl as [Hs Hl]. rewrite Hso in Hs. rewrite Ht3, HT2 in Hl. by exists l.
      + intros l a Hl Hs Ha. exists (mk_LinkStateMsg (f :: F) false). split; [|done].
        apply list_elem_of_fmap. exists l. split; [done|]. apply list_elem_of_filter. rewrite Hso, Ht3, HT2. done. }
  exists T', F, (new1 ++ new2). split_and!; try congruence.
  - rewrite Ht4, Ht3, Hdb. done.
  - rewrite Hnew2, Hnew1. unfold posted at 1. rewrite Hto. unfold posted. by rewrite <- app_assoc.
  - intros d msg [Hin|Hin]%elem_of_app; [left|right; by apply Hin2 in Hin as [[? _] _]].
    apply Hin1 in Hin as (_ & -> & _). done.
  - intros d msg [Hin|Hin]%elem_of_app; [left; by apply Hin1 in Hin as [-> _]|right; by apply Hin2 in Hin as [_ ?]].
  - intros l a Hl Hs Ha. destruct (Hall2 l a Hl Hs Ha) as (msg & Hmsg & Hin). exists msg.
    split; [apply elem_of_app; by right|done].
  - intros d msg [Hin|Hin]%elem_of_app; [by apply Hin1 in Hin as (_ & _ & ?)|by apply Hin2 in Hin as [[_ ?] _]].
  - intros HF. rewrite (Hnil2 HF), app_nil_r. done.
Qed.

(** A signalling protocol reserves bandwidth on the link at [i] and notifies the
    module. *)
Definition reserve (i : nat) (bw : list spec_float) : Eff t unit :=
  on_ted (modify (fun x => x <| TED.ted := alter (fun l => l <| UnResvBandwidth := bw |>) i (TED.ted x) |>)) ;;;
  receiveChangeNotification [i].

(** The entry that is sent for the reservation. *)
Definition stamped (x : TED.t) (bw : list spec_float) (l : TELinkStateInfo) : TELinkStateInfo :=
  l <| UnResvBandwidth := bw |> <| timestamp := clock (TED.node x) |> <| messageId := TED.maxMessageId x + 1 |>.

Lemma stamp_inv i bw (x : TED.t) ls y :
  0 <= TED.maxMessageId x < 2147483647 ->
  stamp_links [i] (x <| TED.ted := alter (fun l => l <| UnResvBandwidth := bw |>) i (TED.ted x) |>) = Ok ls y ->
  exists l, TED.ted x !! i = Some l /\ advrouter l = TED.routerId x /\ ls = [stamped x bw l] /\
    y = x <| TED.ted := <[i := stamped x bw l]> (TED.ted x) |> <| TED.maxMessageId := TED.maxMessageId x + 1 |>.
Proof.
  intros Hmax E. cbn [stamp_links] in E. apply bind_inv in E as ([] & y1 & Hup & E).
  unfold TED.updateTimestamp in Hup. apply bind_inv in Hup as (l0 & y2 & Hl0 & Hup).
  unfold TED.link_at in Hl0. unfold bind, gets in Hl0. cbn in Hl0. rewrite list_lookup_alter_eq in Hl0.
  destruct (TED.ted x !! i) as [l|] eqn:El; cbn in Hl0; [|done]. injection Hl0 as <- <-.
  unfold bind at 1, gets at 1 in Hup. cbn in Hup. apply bind_inv in Hup as ([] & y3 & Has & Hup).
  unfold assert_ in Has. destruct (Z.eqb_spec (advrouter l) (TED.routerId x)) as [Hadv|]; [|done]. injection Has as <-.
  unfold bind, modify in Hup. injection Hup as <-. cbn in E.
  assert (i32 (TED.maxMessageId x + 1) = TED.maxMessageId x + 1) as Hi32 by (apply i32_small; lia).
  assert (u32 (i32 (TED.maxMessageId x + 1)) = TED.maxMessageId x + 1) as Hu32.
  { rewrite Hi32. apply u32_small. unfold is_u32. lia. }
  assert (alter (fun l : TELinkStateInfo => l <| timestamp := clock (TED.node x) |>
    <| messageId := u32 (i32 (TED.maxMessageId x + 1)) |>) i (alter (fun l => l <| UnResvBandwidth := bw |>) i (TED.ted x))
    = <[i := stamped x bw l]> (TED.ted x)) as Halt.
  { apply list_eq. intros j. destruct (decide (j = i)) as [->|Hne].
    - rewrite !list_lookup_alter_eq, list_lookup_insert_eq by (by eapply lookup_lt_Some). rewrite El. cbn. by rewrite Hu32.
    - by rewrite !list_lookup_alter_ne, list_lookup_insert_ne. }
  unfold TED.link_at in E. unfold bind, gets in E. cbn in E. rewrite Halt in E.
  rewrite list_lookup_insert_eq in E by (by eapply lookup_lt_Some). cbn in E. injection E as <- <-.
  exists l. rewrite Hi32. by split_and!.
Qed.

Lemma reserve_inv i bw s s' :
  0 <= TED.maxMessageId (tedmod s) < 2147483647 ->
  reserve i bw s = Ok tt s' ->
  exists l, let x := tedmod s in let l' := stamped x bw l in
    TED.ted x !! i = Some l /\ advrouter l = TED.routerId x /\
    database (tedmod s') = (<[i := l']> (TED.ted x), TED.routerId x, TED.maxMessageId x + 1, clock (TED.node x)) /\
    announceMsg s' = announceMsg s /\ routerId s' = routerId s /\ peerIfAddrs s' = peerIfAddrs s /\
    posted s' = posted s ++ ((fun l => (linkid l, mk_LinkStateMsg [l'] false)) <$> filter (fun l => sends_over s 0 l = true) (<[i := l']> (TED.ted x))).
Proof.
  intros Hmax Hrun. unfold reserve in Hrun. unfold bind at 1, on_ted at 1, modify at 1 in Hrun.
  unfold receiveChangeNotification in Hrun. unfold bind at 1, assert_ at 1 in Hrun. cbn [length Nat.ltb Nat.leb ret] in Hrun.
  apply bind_inv in Hrun as (links & s1 & Hst & Hrun). unfold on_ted in Hst.
  destruct (stamp_links [i] _) as [ls y|] eqn:E; [|done]. injection Hst as <- <-.
  destruct (stamp_inv i bw (tedmod s) ls y Hmax E) as (l & El & Hadv & -> & ->).
  edestruct (sendToPeers_run [stamped (tedmod s) bw l] false 0) as (out & Hsend & Hout). rewrite Hsend in Hrun.
  injection Hrun as <-. exists l. cbn zeta. by split_and!.
Qed.
