(* ===== verification/LinkStateNetwork.v ===== *)
(** * Flooding the link state

    Routers that exchange the messages of [LinkState].  A message reaches the
    router it was sent to at any later time and in any order, and none is lost; the
    routers' clocks run on their own; at any time a router changes the bandwidth
    that is free on a link of its own.  Links do not go down.

    When nothing is left to deliver, the routers of a connected part of the network
    hold the same database; and without changes the messages do run out. *)
From Stdlib Require Import String SpecFloat.
From S2P Require Import Prelude IPAddress MachineFloat InterfaceTable RoutingTable TED LinkState LinkStateSpec.
Import LinkStateRouting.

Notation entries s := (TED.ted (tedmod s)).
Notation time s := (clock (TED.node (tedmod s))).

(** ** The network *)
Definition envelope : Type := IPAddress.t * IPAddress.t * LinkStateMsg.

Record network : Type := { nodes : gmap IPAddress.t t; flight : list envelope }.

Definition posts (k : IPAddress.t) (s : t) : list envelope := (fun p => (k, p.1, p.2)) <$> posted s.

(** Router [k] is in the state [s] and its messages are on their way. *)
Definition after (N : network) (k : IPAddress.t) (s : t) (rest : list envelope) : network :=
  {| nodes := <[k := s <| toIP := [] |>]> (nodes N); flight := rest ++ posts k s |}.

Inductive flood (N : network) : network -> Prop :=
  | flood_announce k s s' :
      nodes N !! k = Some s -> announceMsg s = true -> handleMessage Announce s = Ok tt s' ->
      flood N (after N k s' (flight N))
  | flood_deliver x k m s s' rest :
      flight N ≡ₚ (x, k, m) :: rest -> nodes N !! k = Some s -> handleMessage (FromIP m x) s = Ok tt s' ->
      flood N (after N k s' rest).

Definition at_time (c : Z) (s : t) : t :=
  s <| tedmod := (tedmod s) <| TED.node := (TED.node (tedmod s)) <| clock := c |> |> |>.

Inductive change (N : network) : network -> Prop :=
  | change_reserve k s i bw s' :
      nodes N !! k = Some s -> TED.maxMessageId (tedmod s) < 2147483647 -> reserve i bw s = Ok tt s' ->
      change N (after N k s' (flight N))
  | change_clock k s c :
      nodes N !! k = Some s -> time s <= c -> change N (after N k (at_time c s) (flight N)).

Definition step (N N' : network) : Prop := flood N N' \/ change N N'.

(** [s] sends its news to [j]. *)
Definition sends_to (s : t) (j : IPAddress.t) : Prop :=
  exists l, l ∈ entries s /\ sends_over s 0 l = true /\ linkid l = j.

Definition peers (N : network) (i j : IPAddress.t) : Prop :=
  exists si sj, nodes N !! i = Some si /\ nodes N !! j = Some sj /\ sends_to si j /\ sends_to sj i.

Definition quiet (N : network) : Prop :=
  flight N = [] /\ forall k s, nodes N !! k = Some s -> announceMsg s = false.

(** A router after [initialize]: it knows its own links, numbered by its counter,
    and no two go to the same peer. *)
Record fresh (k : IPAddress.t) (s : t) : Prop := {
  fr_id : routerId s = k;
  fr_ted : TED.routerId (tedmod s) = k;
  fr_out : toIP s = [];
  fr_announce : announceMsg s = true;
  fr_own : forall a, a ∈ entries s -> advrouter a = k /\ sourceId a = k /\ te_state a = true;
  fr_keys : NoDup (key <$> entries s);
  fr_ids : NoDup (messageId <$> entries s);
  fr_max : forall a, a ∈ entries s -> messageId a <= TED.maxMessageId (tedmod s);
  fr_counter : 0 <= TED.maxMessageId (tedmod s);
  fr_time : forall a, a ∈ entries s -> timestamp a = time s
}.

Definition starting (N : network) : Prop :=
  flight N = [] /\ forall k s, nodes N !! k = Some s -> fresh k s.

(** ** The invariant *)
Record node_ok (H : list TELinkStateInfo) (k : IPAddress.t) (s : t) : Prop := {
  no_id : routerId s = k;
  no_ted : TED.routerId (tedmod s) = k;
  no_out : toIP s = [];
  no_counter : 0 <= TED.maxMessageId (tedmod s);
  no_entries : entries_ok H (entries s);
  no_own : forall a, a ∈ H -> sourceId a = k ->
    covers (entries s) a /\ messageId a <= TED.maxMessageId (tedmod s) /\ timestamp a <= time s
}.

(** What [i] knows, [j] knows or is told by a message on its way. *)
Definition told (N : network) (i j : IPAddress.t) (a : TELinkStateInfo) : Prop :=
  (exists sj, nodes N !! j = Some sj /\ covers (entries sj) a) \/
  (exists m, (i, j, m) ∈ flight N /\ covers (linkInfo m) a).

Record invariant (H : list TELinkStateInfo) (N : network) : Prop := {
  in_history : history_ok H;
  in_nodes : forall k s, nodes N !! k = Some s -> node_ok H k s;
  in_flight : forall x k m, (x, k, m) ∈ flight N -> linkInfo m ⊆ H /\
    exists s, nodes N !! x = Some s /\ forall a, a ∈ linkInfo m -> covers (entries s) a;
  in_told : forall i j s a, nodes N !! i = Some s -> announceMsg s = false -> sends_to s j ->
    is_Some (nodes N !! j) -> a ∈ entries s -> told N i j a
}.

(** What one router may do: its entries get newer, what it sends it knows itself,
    and what is new to it is sent on or already known to the peer. *)
Record moves (H H' : list TELinkStateInfo) (N : network) (k : IPAddress.t) (s s' : t) (taken : list envelope) : Prop := {
  mv_node : node_ok H' k (s' <| toIP := [] |>);
  mv_history : history_ok H';
  mv_grows : H ⊆ H';
  mv_new : forall a, a ∈ H' -> a ∈ H \/ sourceId a = k;
  mv_keeps : forall a, a ∈ entries s -> covers (entries s') a;
  mv_sends : forall j, sends_to s' j -> sends_to s j;
  mv_posted : forall j m, (j, m) ∈ posted s' -> linkInfo m ⊆ H' /\ forall a, a ∈ linkInfo m -> covers (entries s') a;
  mv_taken : forall x j m, (x, j, m) ∈ taken -> j = k /\ forall a, a ∈ linkInfo m -> covers (entries s') a;
  mv_announced : announceMsg s' = false -> announceMsg s = true ->
    forall j a, sends_to s j -> a ∈ entries s' -> exists m, (j, m) ∈ posted s' /\ a ∈ linkInfo m;
  mv_told : forall j a, sends_to s j -> a ∈ entries s' ->
    a ∈ entries s \/ (exists m, (j, m) ∈ posted s' /\ a ∈ linkInfo m) \/
    (exists sj, nodes N !! j = Some sj /\ covers (entries sj) a)
}.

Lemma node_ok_grows H H' k s j :
  node_ok H j s -> H ⊆ H' -> (forall a, a ∈ H' -> a ∈ H \/ sourceId a = k) -> j <> k -> node_ok H' j s.
Proof.
  intros [Hi Ht Ho Hc [He Hk] Hown] Hsub Hnew Hne. split; [done..|split; [set_solver|done]|].
  intros a Ha Hs. destruct (Hnew a Ha) as [?|?]; [by apply Hown|congruence].
Qed.

Section Moves.
Context (H H' : list TELinkStateInfo) (N : network) (k : IPAddress.t) (s s' : t) (taken rest : list envelope).
Hypothesis Hinv : invariant H N.
Hypothesis Hk : nodes N !! k = Some s.
Hypothesis Hfl : flight N ≡ₚ taken ++ rest.
Hypothesis Hmv : moves H H' N k s s' taken.

Lemma after_covers j sj a :
  nodes N !! j = Some sj -> covers (entries sj) a ->
  exists sj', nodes (after N k s' rest) !! j = Some sj' /\ covers (entries sj') a.
Proof using Hk Hmv.
  intros Hj Hc. cbn. destruct (decide (j = k)) as [->|Hne].
  - rewrite lookup_insert_eq. eexists. split; [done|]. cbn. rewrite Hj in Hk. injection Hk as ->.
    eapply covers_trans; [done|]. apply Hmv.
  - rewrite lookup_insert_ne by done. eauto.
Qed.

Lemma after_posted j m a : (j, m) ∈ posted s' -> a ∈ linkInfo m -> told (after N k s' rest) k j a.
Proof using.
  intros Hp Ha. right. exists m. split; [|by apply covers_elem]. cbn. apply elem_of_app. right.
  apply list_elem_of_fmap. by exists (j, m).
Qed.

(** What was told is told still: a message that was taken is known to the router
    that took it. *)
Lemma after_told i j a : told N i j a -> told (after N k s' rest) i j a.
Proof using Hk Hfl Hmv.
  intros [(sj & Hj & Hc)|(m & Hm & Hc)].
  - left. by eapply after_covers.
  - rewrite Hfl, elem_of_app in Hm. destruct Hm as [Hm|Hm].
    + apply (mv_taken _ _ _ _ _ _ _ Hmv) in Hm as [-> Hall]. left. exists (s' <| toIP := [] |>).
      cbn. rewrite lookup_insert_eq. split; [done|]. by eapply covers_trans.
    + right. exists m. split; [cbn; apply elem_of_app; by left|done].
Qed.

Lemma moves_invariant : invariant H' (after N k s' rest).
Proof using All.
  split.
  - apply Hmv.
  - intros j sj. cbn. destruct (decide (j = k)) as [->|Hne].
    + rewrite lookup_insert_eq. intros [= <-]. apply Hmv.
    + rewrite lookup_insert_ne by done. intros Hj. eapply node_ok_grows; [by eapply in_nodes|apply Hmv|apply Hmv|done].
  - intros x j m. cbn [flight after]. intros [Hin|Hin]%elem_of_app.
    + destruct (in_flight H N Hinv x j m) as (Hsub & sx & Hx & Hall); [rewrite Hfl; apply elem_of_app; by right|].
      split; [pose proof (mv_grows _ _ _ _ _ _ _ Hmv); set_solver|].
      destruct (decide (x = k)) as [->|Hne].
      * exists (s' <| toIP := [] |>). cbn. rewrite lookup_insert_eq. split; [done|]. rewrite Hx in Hk. injection Hk as ->.
        intros a Ha. eapply covers_trans; [by apply Hall|apply Hmv].
      * exists sx. cbn. by rewrite lookup_insert_ne.
    + apply list_elem_of_fmap in Hin as ([j' m'] & [= -> -> ->] & Hp).
      destruct (mv_posted _ _ _ _ _ _ _ Hmv _ _ Hp) as [Hsub Hall]. split; [done|].
      exists (s' <| toIP := [] |>). cbn. by rewrite lookup_insert_eq.
  - intros i j si a Hi Hann Hto Hj Ha. assert (is_Some (nodes N !! j)) as Hj0.
    { cbn in Hj. destruct (decide (j = k)) as [->|Hne]; [by rewrite Hk|by rewrite lookup_insert_ne in Hj]. }
    cbn in Hi. destruct (decide (i = k)) as [->|Hne].
    + rewrite lookup_insert_eq in Hi. injection Hi as <-. cbn in Ha, Hann.
      assert (sends_to s j) as Hto' by (by apply (mv_sends _ _ _ _ _ _ _ Hmv)).
      destruct (announceMsg s) eqn:Hwas.
      { destruct (mv_announced _ _ _ _ _ _ _ Hmv Hann Hwas j a Hto' Ha) as (m & Hp & Hm). by eapply after_posted. }
      destruct (mv_told _ _ _ _ _ _ _ Hmv j a Hto' Ha) as [Hin|[(m & Hp & Hm)|(sj & Hsj & Hc)]].
      * apply after_told. by eapply (in_told H N Hinv).
      * by eapply after_posted.
      * left. by eapply after_covers.
    + rewrite lookup_insert_ne in Hi by done. apply after_told. by eapply (in_told H N Hinv).
Qed.
End Moves.

(** ** The steps *)
Lemma sends_over_eq s s' x l : routerId s' = routerId s -> peerIfAddrs s' = peerIfAddrs s -> sends_over s' x l = sends_over s x l.
Proof. intros Hr Hp. unfold sends_over. by rewrite Hr, Hp. Qed.

Lemma sends_over_except s x l : sends_over s 0 l = true -> linkid l <> x -> sends_over s x l = true.
Proof. unfold sends_over. intros Hs Hne%Z.eqb_neq. rewrite Hne. by destruct (advrouter l =? _), (linkid l =? 0). Qed.

Section Steps.
Context (H : list TELinkStateInfo) (N : network) (k : IPAddress.t) (s : t).
Hypothesis Hinv : invariant H N.
Hypothesis Hk : nodes N !! k = Some s.

Lemma Hnode : node_ok H k s.
Proof using All. by eapply in_nodes. Qed.

Lemma announce_moves s' : handleMessage Announce s = Ok tt s' -> moves H H N k s s' [].
Proof using All.
  pose proof Hnode as [Hi Ht Ho Hc He Hown]. intros Hrun.
  destruct (announce_run s) as (s0 & Hrun0 & Hted & Hann & Hr & Hp & Hpost). rewrite Hrun in Hrun0. injection Hrun0 as <-.
  unfold posted at 2 in Hpost. rewrite Ho in Hpost. cbn [fmap list_fmap app] in Hpost.
  assert (forall j m, (j, m) ∈ posted s' -> linkInfo m = entries s) as Hall.
  { intros j m. rewrite Hpost. by intros (l & [= -> ->] & _)%list_elem_of_fmap. }
  split; try done.
  - split; cbn; try congruence; try by rewrite Hted.
  - apply Hinv.
  - by left.
  - intros a Ha. rewrite Hted. by apply covers_elem.
  - intros j (l & Hl & Hs & Hj). exists l. rewrite Hted in Hl. split_and!; [done| |done]. by erewrite <- sends_over_eq.
  - intros j m Hm. rewrite Hted, (Hall j m Hm). split; [apply He|]. intros a Ha. by apply covers_elem.
  - intros x j m ?%not_elem_of_nil. done.
  - intros _ _ j a (l & Hl & Hs & Hj) Ha. rewrite Hted in Ha.
    exists (mk_LinkStateMsg (entries s) true). split; [|exact Ha]. rewrite Hpost.
    apply list_elem_of_fmap. exists l. split; [by rewrite Hj|]. apply list_elem_of_filter. done.
  - intros j a _ Ha. rewrite Hted in Ha. by left.
Qed.

Lemma clock_moves c : time s <= c -> moves H H N k s (at_time c s) [].
Proof using All.
  pose proof Hnode as [Hi Ht Ho Hc He Hown]. intros Hle. split; try done.
  - split; try done. intros a Ha Hs. destruct (Hown a Ha Hs) as (? & ? & ?). split_and!; [done|done|]. cbn. lia.
  - apply Hinv.
  - by left.
  - intros a Ha. by apply covers_elem.
  - intros j m Hm. unfold posted in Hm. cbn in Hm. rewrite Ho in Hm. by apply not_elem_of_nil in Hm.
  - intros x j m ?%not_elem_of_nil. done.
  - cbn. congruence.
  - by left.
Qed.

(** Of its own links a router hears nothing new. *)
Lemma own_not_news L T' F a : absorbs H (entries s) L T' F -> L ⊆ H -> a ∈ F -> advrouter a <> k.
Proof using All.
  intros Hab HL Ha Hadv. destruct (ab_forward _ _ _ _ _ Hab a Ha) as [Hin Hn]. apply Hn.
  eapply no_own; [apply Hnode|by apply HL|]. rewrite (ho_source H); [done|apply Hinv|by apply HL].
Qed.

Lemma deliver_moves x m s' :
  (x, k, m) ∈ flight N -> handleMessage (FromIP m x) s = Ok tt s' -> moves H H N k s s' [(x, k, m)].
Proof using All.
  pose proof Hnode as [Hi Ht Ho Hc He Hown]. intros Hm Hrun.
  destruct (in_flight H N Hinv x k m Hm) as (HL & sx & Hx & Hcov).
  destruct (receive_inv H m x s s') as (T' & F & new & Hab & Hdb & Hann & Hr & Hp & Hpost & Hcont & Hdst & Hfwd & _);
    [apply Hinv|done|done|done|].
  unfold posted at 2 in Hpost. rewrite Ho in Hpost. cbn [fmap list_fmap app] in Hpost.
  unfold database in Hdb. injection Hdb as HT Hrid Hmax Hclk.
  assert (T' ⊆ H) as HT' by apply Hab.
  assert (forall a, a ∈ F -> covers T' a) as HF.
  { intros a Ha. apply (ab_learns _ _ _ _ _ Hab). by apply (ab_forward _ _ _ _ _ Hab) in Ha as [? _]. }
  assert (forall j, sends_to s j -> exists l, l ∈ T' /\ linkid l = j /\ sends_over s 0 l = true) as Hstill.
  { intros j (l & Hl & Hs & Hj). destruct (ab_keeps _ _ _ _ _ Hab l Hl) as (b & Hb & Hkey & _).
    assert (b ∈ H) as HbH by (by apply HT'). assert (l ∈ H) as HlH by (by apply He).
    destruct (ho_ends H (in_history H N Hinv) b l HbH HlH Hkey) as [Hloc _]. injection Hkey as Hadv Hlink.
    exists b. split_and!; [done|congruence|]. revert Hs. unfold sends_over. rewrite Hadv, Hlink, Hloc.
    by rewrite !(ho_up H (in_history H N Hinv)). }
  split; try done; rewrite ?HT.
  - split; cbn; rewrite ?HT, ?Hrid, ?Hmax, ?Hclk; try congruence; try apply Hab.
    intros a Ha Hs. destruct (Hown a Ha Hs) as (Hco & ? & ?). split_and!; [|done|done].
    eapply covers_trans; [exact Hco|apply Hab].
  - apply Hinv.
  - by left.
  - apply Hab.
  - intros j (l & Hl & Hs & Hj). rewrite HT in Hl. rewrite (sends_over_eq s) in Hs by done.
    destruct (ab_news _ _ _ _ _ Hab l Hl) as [Hin|Hin]; [by exists l|].
    exfalso. apply (own_not_news _ _ _ _ Hab HL Hin). unfold sends_over in Hs. rewrite Hi in Hs. lia.
  - intros j msg Hin. rewrite Hpost in Hin. destruct (Hcont j msg Hin) as [Hsub| ->].
    + split; [set_solver|]. intros a Ha. apply covers_elem. by apply Hsub.
    + split; [|done]. intros a Ha. apply HL. by apply (ab_forward _ _ _ _ _ Hab) in Ha as [? _].
  - intros x' j m' Hin. apply list_elem_of_singleton in Hin as [= -> -> ->]. split; [done|apply Hab].
  - congruence.
  - intros j a Hto Ha. destruct (ab_news _ _ _ _ _ Hab a Ha) as [Hin|Hin]; [by left|right].
    destruct (Hstill j Hto) as (l & Hl & Hj & Hs). destruct (decide (j = x)) as [->|Hne].
    + right. exists sx. split; [done|]. apply Hcov. by apply (ab_forward _ _ _ _ _ Hab) in Hin as [? _].
    + left. destruct (Hfwd l a Hl) as (msg & Hmsg & Hin'); [apply sends_over_except; congruence|done|].
      exists msg. rewrite Hpost, <- Hj. done.
Qed.

(** A change at the link [l] of the router adds an entry to the history. *)
Lemma reserve_history bw l :
  l ∈ entries s -> advrouter l = k -> let l' := stamped (tedmod s) bw l in
  history_ok (l' :: H).
Proof using All.
  pose proof Hnode as [Hi Ht Ho Hc He Hown]. intros Hl Hadv l'.
  pose proof (in_history H N Hinv) as [Hu Hord Hsrc Hends Hup].
  assert (l ∈ H) as HlH by (by apply He).
  assert (sourceId l' = k) as Hsl by (cbn; by rewrite Hsrc).
  assert (messageId l' = TED.maxMessageId (tedmod s) + 1) as Hid by done.
  assert (forall a, a ∈ H -> sourceId a = sourceId l' -> messageId a < messageId l' /\ timestamp a <= timestamp l') as Hlast.
  { intros a Ha Hs. destruct (Hown a Ha) as (_ & ? & ?); [congruence|]. split; [lia|done]. }
  split.
  - intros a b [->|Ha]%elem_of_cons [->|Hb]%elem_of_cons Hs Hm; [done| | |by apply Hu].
    + destruct (Hlast b Hb) as [? _]; [done|lia].
    + destruct (Hlast a Ha) as [? _]; [done|lia].
  - intros a b [->|Ha]%elem_of_cons [->|Hb]%elem_of_cons Hs Hm; [done| | |by apply Hord].
    + destruct (Hlast b Hb) as [? _]; [done|lia].
    + by apply Hlast.
  - intros a [->|Ha]%elem_of_cons; [by rewrite Hsl|by apply Hsrc].
  - intros a b [->|Ha]%elem_of_cons [->|Hb]%elem_of_cons Hkey; [done|by apply (Hends l b)|by apply (Hends a l)|by apply Hends].
  - intros a [->|Ha]%elem_of_cons; [by apply (Hup l)|by apply Hup].
Qed.

Lemma reserve_moves i bw s' :
  TED.maxMessageId (tedmod s) < 2147483647 -> reserve i bw s = Ok tt s' ->
  exists l', moves H (l' :: H) N k s s' [].
Proof using All.
  pose proof Hnode as [Hi Ht Ho Hc He Hown]. intros Hlt Hrun.
  destruct (reserve_inv i bw s s') as (l & El & Hadv & Hdb & Hann & Hr & Hp & Hpost); [lia|done|].
  set (l' := stamped (tedmod s) bw l) in *. cbn zeta in *. exists l'.
  unfold posted at 2 in Hpost. rewrite Ho in Hpost. cbn [fmap list_fmap app] in Hpost.
  unfold database in Hdb. injection Hdb as HT Hrid Hmax Hclk.
  assert (l ∈ entries s) as Hl by (by eapply list_elem_of_lookup_2).
  assert (l ∈ H) as HlH by (by apply He).
  assert (key l' = key l) as Hkey by done.
  assert (l' ∈ <[i := l']> (entries s)) as Hin.
  { apply list_elem_of_lookup. exists i. by apply list_lookup_insert_eq; eapply lookup_lt_Some. }
  assert (forall a, a ∈ <[i := l']> (entries s) -> a = l' \/ a ∈ entries s) as Hnews.
  { intros a [j Hj]%list_elem_of_lookup. apply list_lookup_insert_Some in Hj as [(_ & -> & _)|[_ Hj]]; [by left|].
    right. by eapply list_elem_of_lookup_2. }
  assert (messageId l < messageId l') as Hnewer.
  { destruct (Hown l HlH) as (_ & ? & _); [rewrite (ho_source H); [congruence|apply Hinv|done]|]. cbn. lia. }
  assert (forall a, a ∈ entries s -> covers (<[i := l']> (entries s)) a) as Hkeep.
  { intros a [j Hj]%list_elem_of_lookup. destruct (decide (j = i)) as [->|Hne].
    - exists l'. replace a with l by congruence. split_and!; [done|done|lia].
    - apply covers_elem, list_elem_of_lookup. exists j. by rewrite list_lookup_insert_ne. }
  assert (forall j, sends_to s j -> exists b, b ∈ <[i := l']> (entries s) /\ linkid b = j /\ sends_over s 0 b = true) as Hstill.
  { intros j (b & [n Hb]%list_elem_of_lookup & Hs & Hj). destruct (decide (n = i)) as [->|Hne].
    - exists l'. rewrite El in Hb. injection Hb as <-. done.
    - exists b. split_and!; [|done|done]. apply list_elem_of_lookup. exists n. by rewrite list_lookup_insert_ne. }
  assert (forall j m, (j, m) ∈ posted s' -> linkInfo m = [l']) as Hone.
  { intros j m. rewrite Hpost. by intros (b & [= -> ->] & _)%list_elem_of_fmap. }
  split; try done; rewrite ?HT.
  - split; cbn; rewrite ?HT, ?Hrid, ?Hmax, ?Hclk; try congruence; try lia.
    + split; [|rewrite list_fmap_insert, list_insert_id; [apply He|by rewrite list_lookup_fmap, El, Hkey]].
      intros a [-> |Ha]%Hnews; [by left|right; by apply He].
    + intros a [->|Ha]%elem_of_cons Hs; [split_and!; [by apply covers_elem|done|done]|].
      destruct (Hown a Ha Hs) as (Hco & ? & ?). split_and!; [by eapply covers_trans|lia|done].
  - apply reserve_history; [done|congruence].
  - set_solver.
  - intros a [->|Ha]%elem_of_cons; [right|by left]. cbn. rewrite (ho_source H); [congruence|apply Hinv|done].
  - done.
  - intros j (b & Hb & Hs & Hj). rewrite HT in Hb. rewrite (sends_over_eq s) in Hs by done.
    destruct (Hnews b Hb) as [-> |Hb']; [exists l; done|by exists b].
  - intros j m Hm. rewrite (Hone j m Hm). split; [set_solver|]. intros a ->%list_elem_of_singleton. by apply covers_elem.
  - intros x j m ?%not_elem_of_nil. done.
  - congruence.
  - intros j a Hto [-> |Ha]%Hnews; [right; left|by left]. destruct (Hstill j Hto) as (b & Hb & Hj & Hs).
    exists (mk_LinkStateMsg [l'] false). split; [|cbn; by left]. rewrite Hpost. apply list_elem_of_fmap. exists b.
    split; [by rewrite Hj|]. by apply list_elem_of_filter.
Qed.
End Steps.

Lemma flood_invariant H N N' : invariant H N -> flood N N' -> invariant H N'.
Proof.
  intros Hinv [k s s' Hk Ha Hrun|x k m s s' rest Hfl Hk Hrun].
  - eapply (moves_invariant H H N k s s' []); [done|done|done|by apply announce_moves].
  - eapply (moves_invariant H H N k s s' [(x, k, m)]); [done|done|done|].
    apply deliver_moves; [done|done| |done]. rewrite Hfl. by left.
Qed.

Lemma step_invariant H N N' : invariant H N -> step N N' -> exists H', invariant H' N'.
Proof.
  intros Hinv [Hfl|[k s i bw s' Hk Hlt Hrun|k s c Hk Hc]].
  - exists H. by eapply flood_invariant.
  - destruct (reserve_moves H N k s Hinv Hk i bw s' Hlt Hrun) as (l' & Hmv).
    exists (l' :: H). eapply (moves_invariant H (l' :: H) N k s s' []); done.
  - exists H. eapply (moves_invariant H H N k s _ []); [done|done|done|by apply clock_moves].
Qed.

Lemma reachable_invariant N N' : (exists H, invariant H N) -> rtc step N N' -> exists H, invariant H N'.
Proof. intros Hinv Hr. induction Hr as [|N N1 N2 Hst _ IH]; [done|]. destruct Hinv as [H Hinv]. apply IH. by eapply step_invariant. Qed.

(** ** The start *)
Definition all_entries (N : network) : list TELinkStateInfo :=
  concat ((fun p => entries p.2) <$> map_to_list (nodes N)).

Lemma elem_of_all_entries N a : a ∈ all_entries N <-> exists k s, nodes N !! k = Some s /\ a ∈ entries s.
Proof.
  unfold all_entries. rewrite list_elem_of_In, in_concat. split.
  - intros (T & HT%list_elem_of_In & Ha%list_elem_of_In). apply list_elem_of_fmap in HT as ([k s] & -> & Hks).
    apply elem_of_map_to_list in Hks. by exists k, s.
  - intros (k & s & Hk & Ha). exists (entries s). rewrite <- !list_elem_of_In. split; [|done].
    apply list_elem_of_fmap. exists (k, s). split; [done|]. by apply elem_of_map_to_list.
Qed.

Lemma fresh_inj {B} (f : TELinkStateInfo -> B) T a b : NoDup (f <$> T) -> a ∈ T -> b ∈ T -> f a = f b -> a = b.
Proof.
  intros Hnd [i Hi]%list_elem_of_lookup [j Hj]%list_elem_of_lookup Hf. assert (i = j) as ->; [|congruence].
  eapply NoDup_lookup; [exact Hnd|by rewrite list_lookup_fmap, Hi|by rewrite list_lookup_fmap, Hj, Hf].
Qed.

Lemma starting_invariant N : starting N -> invariant (all_entries N) N.
Proof.
  intros [Hfl Hfr].
  assert (forall a, a ∈ all_entries N -> exists s, nodes N !! (sourceId a : IPAddress.t) = Some s /\ a ∈ entries s) as Hof.
  { intros a (k & s & Hk & Ha)%elem_of_all_entries. destruct (fr_own _ _ (Hfr k s Hk) a Ha) as (_ & -> & _). by exists s. }
  assert (forall a b s, nodes N !! (sourceId a : IPAddress.t) = Some s -> b ∈ all_entries N -> sourceId b = sourceId a -> b ∈ entries s) as Hsame.
  { intros a b s Hs (sb & Hb & Hin)%Hof Heq. rewrite Heq, Hs in Hb. by injection Hb as <-. }
  split.
  - split.
    + intros a b (s & Hs & Ha)%Hof Hb Heq Hm. eapply (fresh_inj messageId); [eapply fr_ids, Hfr, Hs|done|by eapply Hsame|done].
    + intros a b (s & Hs & Ha)%Hof Hb Heq Hm. pose proof (Hfr _ _ Hs) as Hf.
      rewrite (fr_time _ _ Hf a Ha), (fr_time _ _ Hf b); [done|by eapply Hsame].
    + intros a (s & Hs & Ha)%Hof. by destruct (fr_own _ _ (Hfr _ _ Hs) a Ha) as (-> & _).
    + intros a b (s & Hs & Ha)%Hof Hb Hkey. pose proof (Hfr _ _ Hs) as Hf. assert (b = a) as ->; [|done].
      assert (sourceId b = sourceId a) as Heq.
      { destruct (Hof b Hb) as (sb & Hsb & Hinb). destruct (fr_own _ _ (Hfr _ _ Hsb) b Hinb) as (? & ? & _).
        destruct (fr_own _ _ Hf a Ha) as (? & ? & _). injection Hkey. congruence. }
      eapply (fresh_inj key); [eapply fr_keys, Hf|by eapply Hsame|done|done].
    + intros a (s & Hs & Ha)%Hof. by destruct (fr_own _ _ (Hfr _ _ Hs) a Ha) as (_ & _ & ->).
  - intros k s Hk. pose proof (Hfr k s Hk) as Hf. split; try apply Hf.
    + split; [|apply Hf]. intros a Ha. apply elem_of_all_entries. by exists k, s.
    + intros a Hain Heq. destruct (Hof a Hain) as (sa & Hsa & Ha). rewrite Heq, Hk in Hsa. injection Hsa as <-.
      split_and!; [by apply covers_elem|by apply Hf|]. by rewrite (fr_time _ _ Hf a Ha).
  - intros x k m Hm. rewrite Hfl in Hm. by apply not_elem_of_nil in Hm.
  - intros i j s a Hi Ha. by rewrite (fr_announce _ _ (Hfr i s Hi)) in Ha.
Qed.

(** ** Convergence *)
Lemma quiet_peers H N i j si sj a :
  invariant H N -> quiet N -> peers N i j -> nodes N !! i = Some si -> nodes N !! j = Some sj ->
  a ∈ entries si -> a ∈ entries sj.
Proof.
  intros Hinv [Hfl Hann] (si' & sj' & Hi' & Hj' & Hij & Hji) Hi Hj Ha.
  rewrite Hi in Hi'. injection Hi' as <-. rewrite Hj in Hj'. injection Hj' as <-.
  assert (forall x y sx sy b, nodes N !! x = Some sx -> nodes N !! y = Some sy -> sends_to sx y -> b ∈ entries sx -> covers (entries sy) b) as Hcov.
  { intros x y sx sy b Hx Hy Hto Hb. destruct (in_told H N Hinv x y sx b) as [(sy' & Hy' & Hc)|(m & Hm & _)];
      [done|by eapply Hann|done|by rewrite Hy|done| |rewrite Hfl in Hm; by apply not_elem_of_nil in Hm].
    congruence. }
  destruct (Hcov i j si sj a Hi Hj Hij Ha) as (b & Hb & Hkb & Hmb).
  destruct (Hcov j i sj si b Hj Hi Hji Hb) as (c & Hc & Hkc & Hmc).
  pose proof (no_entries _ _ _ (in_nodes H N Hinv i si Hi)) as Hei.
  pose proof (no_entries _ _ _ (in_nodes H N Hinv j sj Hj)) as Hej.
  assert (c = a) as -> by (eapply keys_inj; [exact Hei|done|done|congruence]).
  assert (b = a) as <-; [|done]. eapply same_key; [apply Hinv|by apply Hej|by apply Hei|done|lia].
Qed.

Lemma peers_sym N i j : peers N i j -> peers N j i.
Proof. intros (si & sj & Hi & Hj & Hij & Hji). by exists sj, si. Qed.

Lemma quiet_connected H N i j si sj a :
  invariant H N -> quiet N -> rtc (peers N) i j -> nodes N !! i = Some si -> nodes N !! j = Some sj ->
  a ∈ entries si -> a ∈ entries sj.
Proof.
  intros Hinv Hq Hr. revert si. induction Hr as [i|i x j Hp Hr IH]; intros si Hi Hj Ha; [congruence|].
  pose proof Hp as (_ & sx & _ & Hx & _). apply (IH sx); [done|done|]. by eapply (quiet_peers H N i x).
Qed.

(** C4: From routers that each know their own links only and have their first
    announcement before them, whatever the order in which messages are delivered
    and reservations change the entries: once no message is on its way and no
    announcement is pending, two routers that are connected over peers hold
    the same entries of the traffic engineering database; so each holds the current
    entries of the other. *)
Theorem flooding_converges N0 N i j si sj a :
  starting N0 -> rtc step N0 N -> quiet N -> rtc (peers N) i j ->
  nodes N !! i = Some si -> nodes N !! j = Some sj ->
  a ∈ entries si <-> a ∈ entries sj.
Proof.
  intros H0 Hr Hq Hp Hi Hj. destruct (reachable_invariant N0 N) as [H Hinv]; [|done|].
  { eexists. by apply starting_invariant. }
  assert (rtc (peers N) j i) as Hp'.
  { clear - Hp. induction Hp as [|x y z Hxy _ IH]; [done|]. eapply rtc_r; [exact IH|by apply peers_sym]. }
  split; [by apply (quiet_connected H N i j)|by apply (quiet_connected H N j i)].
Qed.

(** ** Termination *)
#[export] Instance covers_dec T a : Decision (covers T a).
Proof.
  refine (cast_if (decide (Exists (fun b => key b = key a /\ messageId a <= messageId b) T)));
    rewrite Exists_exists in *; unfold covers; naive_solver.
Defined.

Definition total (f : t -> nat) (N : network) : nat := map_fold (fun _ s n => (f s + n)%nat) 0%nat (nodes N).

Lemma total_delete f (M : gmap IPAddress.t t) k s :
  M !! k = Some s ->
  map_fold (fun _ s n => (f s + n)%nat) 0%nat M = (f s + map_fold (fun _ s n => (f s + n)%nat) 0%nat (delete k M))%nat.
Proof. intros Hk. apply (map_fold_delete_L (fun _ s n => (f s + n)%nat) 0%nat k s M); [intros; lia|done]. Qed.

Lemma total_after f N k s s' rest :
  nodes N !! k = Some s -> (total f (after N k s' rest) + f s = total f N + f (s' <| toIP := [] |>))%nat.
Proof.
  intros Hk. unfold total. cbn [nodes after]. rewrite (total_delete f (nodes N) k s Hk).
  rewrite (total_delete f _ k (s' <| toIP := [] |>)) by apply lookup_insert_eq. rewrite delete_insert_eq. lia.
Qed.

(** The announcements to come, the entries that routers have not heard of, the
    requests and the messages on their way. *)
Definition pending (s : t) : nat := if announceMsg s then 1%nat else 0%nat.
Definition unknown (H : list TELinkStateInfo) (s : t) : nat := length (filter (fun a => ~ covers (entries s) a) H).
Definition requests (l : list envelope) : nat := length (filter (fun e => request e.2 = true) l).

Lemma requests_app l1 l2 : requests (l1 ++ l2) = (requests l1 + requests l2)%nat.
Proof. unfold requests. by rewrite filter_app, length_app. Qed.

Lemma filter_length_le {A} (P Q : A -> Prop) `{!forall x, Decision (P x), !forall x, Decision (Q x)} l :
  (forall x, P x -> Q x) -> (length (filter P l) <= length (filter Q l))%nat.
Proof.
  intros HPQ. induction l as [|x l IH]; [done|]. rewrite !filter_cons.
  destruct (decide (P x)), (decide (Q x)); cbn; [lia| |lia|lia]. exfalso; auto.
Qed.

Lemma filter_length_lt {A} (P Q : A -> Prop) `{!forall x, Decision (P x), !forall x, Decision (Q x)} l x :
  (forall x, P x -> Q x) -> x ∈ l -> Q x -> ~ P x -> (length (filter P l) < length (filter Q l))%nat.
Proof.
  intros HPQ (l1 & l2 & ->)%list_elem_of_split HQ HnP. rewrite !filter_app, !filter_cons, !length_app.
  rewrite decide_False, decide_True by done. cbn. pose proof (filter_length_le P Q l1 HPQ). pose proof (filter_length_le P Q l2 HPQ). lia.
Qed.

(** A delivery either teaches the router something, or answers a request, or uses
    a message up. *)
Lemma deliver_measures H N x k m s s' rest :
  invariant H N -> nodes N !! k = Some s -> flight N ≡ₚ (x, k, m) :: rest -> handleMessage (FromIP m x) s = Ok tt s' ->
  let N' := after N k s' rest in
  total pending N' = total pending N /\
  ((total (unknown H) N' < total (unknown H) N)%nat \/
   (total (unknown H) N' = total (unknown H) N /\
    ((requests (flight N') < requests (flight N))%nat \/
     (requests (flight N') = requests (flight N) /\ (length (flight N') < length (flight N))%nat)))).
Proof.
  intros Hinv Hk Hfl Hrun N'. pose proof (in_nodes H N Hinv k s Hk) as Hn.
  destruct (in_flight H N Hinv x k m) as (HL & _); [rewrite Hfl; by left|].
  destruct (receive_inv H m x s s') as (T' & F & new & Hab & Hdb & Hann & _ & _ & Hpost & _ & _ & _ & Hreq & Hlen);
    [apply Hinv|done|apply Hn|done|].
  unfold posted at 2 in Hpost. rewrite (no_out _ _ _ Hn) in Hpost. cbn [fmap list_fmap app] in Hpost.
  unfold database in Hdb. injection Hdb as HT _ _ _.
  pose proof (total_after pending N k s s' rest Hk) as Hp. pose proof (total_after (unknown H) N k s s' rest Hk) as Hu.
  fold N' in Hp, Hu.
  split; [unfold pending at 2 4 in Hp; cbn in Hp; rewrite Hann in Hp; lia|].
  assert (forall a, ~ covers (entries (s' <| toIP := [] |>)) a -> ~ covers (entries s) a) as Hmono.
  { intros a Hna Hc. apply Hna. cbn. rewrite HT. eapply covers_trans; [exact Hc|apply Hab]. }
  destruct F as [|f F].
  2: { left. assert (f ∈ linkInfo m /\ ~ covers (entries s) f) as [Hf Hnf] by (apply (ab_forward _ _ _ _ _ Hab); by left).
       enough (unknown H (s' <| toIP := [] |>) < unknown H s)%nat by lia. eapply (filter_length_lt _ _ H f Hmono); [by apply HL|done|].
       intros Hn'. apply Hn'. cbn. rewrite HT. by apply (ab_learns _ _ _ _ _ Hab). }
  pose proof (filter_length_le _ _ H Hmono) as Hle. change (unknown H (s' <| toIP := [] |>) <= unknown H s)%nat in Hle.
  destruct (decide (total (unknown H) N' < total (unknown H) N)%nat) as [|Hge]; [by left|right]. split; [lia|].
  assert (requests (posts k s') = 0%nat) as Hr0.
  { unfold requests, posts. rewrite Hpost. clear - Hreq. induction new as [|[d msg] new IH]; [done|].
    rewrite fmap_cons, filter_cons, decide_False; [apply IH; intros; apply (Hreq d0); by right|].
    cbn. rewrite (Hreq d); [done|by left]. }
  assert (requests (flight N') = requests rest) as Hr1.
  { change (flight N') with (rest ++ posts k s'). rewrite requests_app, Hr0. lia. }
  assert (requests (flight N) = ((if request m then 1 else 0) + requests rest)%nat) as Hr2.
  { unfold requests. rewrite Hfl, filter_cons. cbn. by destruct (request m). }
  assert (length (flight N) = S (length rest)) as Hl2 by (by rewrite Hfl).
  assert (length (flight N') = length rest + if request m then 1 else 0)%nat as Hl1.
  { cbn. rewrite length_app. unfold posts. rewrite length_fmap, Hpost, (Hlen eq_refl). done. }
  destruct (request m); lia.
Qed.

Lemma announce_measure N k s s' :
  nodes N !! k = Some s -> announceMsg s = true -> handleMessage Announce s = Ok tt s' ->
  (total pending (after N k s' (flight N)) < total pending N)%nat.
Proof.
  intros Hk Ha Hrun. destruct (announce_run s) as (s0 & Hrun0 & _ & Hann & _). rewrite Hrun in Hrun0. injection Hrun0 as <-.
  pose proof (total_after pending N k s s' (flight N) Hk) as Hp. unfold pending at 2 4 in Hp. cbn in Hp. rewrite Ha, Hann in Hp. lia.
Qed.

Lemma flood_terminates H : forall p u r n N, invariant H N ->
  total pending N = p -> total (unknown H) N = u -> requests (flight N) = r -> length (flight N) = n -> sn flood N.
Proof.
  induction p as [p IHp] using lt_wf_ind. induction u as [u IHu] using lt_wf_ind.
  induction r as [r IHr] using lt_wf_ind. induction n as [n IHn] using lt_wf_ind.
  intros N Hinv Hp Hu Hr Hn. constructor. intros N' Hst. pose proof (flood_invariant H N N' Hinv Hst) as Hinv'.
  destruct Hst as [k s s' Hk Ha Hrun|x k m s s' rest Hfl Hk Hrun].
  - pose proof (announce_measure N k s s' Hk Ha Hrun). eapply IHp; [|exact Hinv'|done|done|done|done]. lia.
  - destruct (deliver_measures H N x k m s s' rest Hinv Hk Hfl Hrun) as (Hp' & [Hu'|(Hu' & [Hr'|(Hr' & Hn')])]).
    + eapply IHu; [|exact Hinv'|congruence|done|done|done]. lia.
    + eapply IHr; [|exact Hinv'|congruence|congruence|done|done]. lia.
    + eapply IHn; [|exact Hinv'|congruence|congruence|congruence|done]. lia.
Qed.

(** C36: In every network that can be reached, the announcements and deliveries that
    follow come to an end when no entry changes any more: there is no infinite
    sequence of them. *)
Theorem flooding_terminates N0 N : starting N0 -> rtc step N0 N -> sn flood N.
Proof.
  intros H0 Hr. destruct (reachable_invariant N0 N) as [H Hinv]; [|done|].
  { eexists. by apply starting_invariant. }
  by eapply flood_terminates.
Qed.
