(* ===== verification/TEDDemo.v ===== *)
(** * Three routers in a row

    Routers 1, 2 and 3 with links 1-2 and 2-3, started from their routing tables,
    flood their links; then the routers know all four directions, and the routes
    follow. *)
From Stdlib Require Import String SpecFloat.
From S2P Require Import Prelude Frames RouteHeap IPAddress MachineFloat InterfaceTable RoutingTable TED TEDPaths TEDRoutes LinkState LinkStateSpec LinkStateNetwork.
Import LinkStateRouting.

(** A link: the name of the interface, its id, its address and metric, the peer
    and the peer's address. *)
Definition wire : Type := string * Z * IPAddress.t * Z * IPAddress.t * IPAddress.t.

Definition te_iface (w : wire) : InterfaceEntry :=
  let '(n, i, a, c, _, _) := w in
  InterfaceEntry_new <| ie_name := n |> <| interfaceId := i |> <| nodeOutputGateId := i |>
    <| ipv4data := Some (IPv4InterfaceData_new <| inetAddr := a |> <| ifMetric := c |>) |>.

Definition te_wire_route (w : wire) : IPRoute :=
  let '(_, i, _, _, p, pa) := w in
  IPRoute_new <| host := p |> <| netmask := 4294967295 |> <| gateway := pa |> <| interfacePtr := Some i |>.

Definition te_node (me : IPAddress.t) (ws : list wire) : Node :=
  let n := mk_Node (InterfaceTable.mk (Some <$> (te_iface <$> ws)) (-1) None)
             ((RoutingTable_new true) <| RoutingTable.routerId := me |>) 5 [] in
  match mapE addRoute (te_wire_route <$> ws) n with Ok _ n => n | Err _ => n end.

Definition te_router (me : IPAddress.t) (ws : list wire) : option t :=
  match TED.initialize (fun _ => double_of_int 100) (te_node me ws) tt with
  | Ok x _ => match initialize ((fun w => w.1.1.1.1.1) <$> ws) x tt with Ok s _ => Some s | Err _ => None end
  | Err _ => None
  end.

Definition te_wires (k : IPAddress.t) : list wire :=
  if k =? 1 then [("ppp0"%string, 100, 101, 3, 2, 201)]
  else if k =? 2 then [("ppp0"%string, 100, 201, 3, 1, 101); ("ppp1"%string, 101, 202, 4, 3, 301)]
  else [("ppp0"%string, 100, 301, 4, 2, 202)].

Definition te_net : network :=
  {| nodes := omap (fun k => te_router k (te_wires k)) (<[1 := 1]> (<[2 := 2]> (<[3 := 3]> ∅))); flight := [] |}.

(** ** A schedule *)
Definition announce_at (k : IPAddress.t) (N : network) : network :=
  match nodes N !! k with
  | Some s => if announceMsg s then
                match handleMessage Announce s with Ok _ s' => after N k s' (flight N) | Err _ => N end
              else N
  | None => N
  end.

Definition deliver_first (N : network) : network :=
  match flight N with
  | (x, k, m) :: rest =>
      match nodes N !! k with
      | Some s => match handleMessage (FromIP m x) s with Ok _ s' => after N k s' rest | Err _ => N end
      | None => N
      end
  | [] => N
  end.

Lemma announce_at_step k N : rtc step N (announce_at k N).
Proof.
  unfold announce_at. destruct (nodes N !! k) as [s|] eqn:Hk; [|done]. destruct (announceMsg s) eqn:Ha; [|done].
  destruct (handleMessage Announce s) as [[] s'|] eqn:Hrun; [|done]. apply rtc_once. left. by eapply flood_announce.
Qed.

Lemma deliver_first_step N : rtc step N (deliver_first N).
Proof.
  unfold deliver_first. destruct (flight N) as [|[[x k] m] rest] eqn:Hfl; [done|].
  destruct (nodes N !! k) as [s|] eqn:Hk; [|done].
  destruct (handleMessage (FromIP m x) s) as [[] s'|] eqn:Hrun; [|done].
  apply rtc_once. left. eapply flood_deliver; [by rewrite Hfl|done|done].
Qed.

Definition te_net_end : network :=
  Nat.iter 20 deliver_first (announce_at 3 (announce_at 2 (announce_at 1 te_net))).

Lemma te_net_reaches : rtc step te_net te_net_end.
Proof.
  unfold te_net_end. apply (Nat.iter_invariant 20 _ deliver_first (rtc step te_net)).
  - intros N Hr. etrans; [exact Hr|apply deliver_first_step].
  - etrans; [apply (announce_at_step 1)|]. etrans; [apply (announce_at_step 2)|]. apply announce_at_step.
Qed.

(** ** The start *)
#[local] Instance spec_float_eq_dec : EqDecision spec_float.
Proof. solve_decision. Defined.
#[local] Instance TELinkStateInfo_eq_dec : EqDecision TELinkStateInfo.
Proof. solve_decision. Defined.

Definition fresh_conditions (k : IPAddress.t) (s : t) : Prop :=
  (routerId s = k /\ TED.routerId (tedmod s) = k /\ length (toIP s) = 0%nat /\ announceMsg s = true) /\
  Forall (fun a => (advrouter a = k /\ sourceId a = k /\ te_state a = true) /\
                   messageId a <= TED.maxMessageId (tedmod s) /\ timestamp a = time s) (entries s) /\
  NoDup (key <$> entries s) /\ NoDup (messageId <$> entries s) /\ 0 <= TED.maxMessageId (tedmod s).

#[local] Instance fresh_conditions_dec k s : Decision (fresh_conditions k s).
Proof. unfold fresh_conditions. apply _. Defined.

Lemma fresh_conditions_ok k s : fresh_conditions k s -> fresh k s.
Proof.
  intros ((Hr & Ht & Ho%nil_length_inv & Ha) & Hf & Hk & Hi & Hm). rewrite Forall_forall in Hf. split; try done.
  - intros a Hin. apply (Hf a Hin).
  - intros a Hin. apply (Hf a Hin).
  - intros a Hin. apply (Hf a Hin).
Qed.

Lemma te_net_starting : starting te_net.
Proof.
  split; [done|]. intros k s Hs. apply fresh_conditions_ok. revert k s Hs.
  change (map_Forall fresh_conditions (nodes te_net)). refine (bool_decide_unpack _ _). vm_compute. exact I.
Qed.

(** ** The end *)
Definition sends_to_b (s : t) (j : IPAddress.t) : bool := existsb (fun l => sends_over s 0 l && (linkid l =? j)) (entries s).

Lemma sends_to_b_ok s j : sends_to_b s j = true -> sends_to s j.
Proof.
  unfold sends_to_b. rewrite existsb_exists. intros (l & Hl%list_elem_of_In & [Hs Hj%Z.eqb_eq]%andb_prop). by exists l.
Qed.

Definition peers_b (N : network) (i j : IPAddress.t) : bool :=
  match nodes N !! i, nodes N !! j with Some si, Some sj => sends_to_b si j && sends_to_b sj i | _, _ => false end.

Lemma peers_b_ok N i j : peers_b N i j = true -> peers N i j.
Proof.
  unfold peers_b. destruct (nodes N !! i) as [si|] eqn:Hi; [|done]. destruct (nodes N !! j) as [sj|] eqn:Hj; [|done].
  intros [H1%sends_to_b_ok H2%sends_to_b_ok]%andb_prop. by exists si, sj.
Qed.

Lemma te_net_quiet : quiet te_net_end.
Proof.
  split; [vm_compute; reflexivity|]. change (map_Forall (fun _ s => announceMsg s = false) (nodes te_net_end)).
  refine (bool_decide_unpack _ _). vm_compute. exact I.
Qed.

(** The links, with message ids in the order of the interfaces. *)
Definition te_link (adv lid loc rem m n : Z) : TELinkStateInfo :=
  mk_TELinkStateInfo adv lid loc rem (double_of_int m) (double_of_int 100) (repeat (double_of_int 100) 8) 5 adv n true.

Definition te_links : list TELinkStateInfo :=
  [te_link 1 2 101 201 3 1; te_link 2 1 201 101 3 1; te_link 2 3 202 301 4 2; te_link 3 2 301 202 4 1].

Definition te_end (k : IPAddress.t) : t :=
  default (mk (TED.mk (te_node k []) [] k [] 0) false k [] []) (nodes te_net_end !! k).

Lemma te_end_1 : nodes te_net_end !! (1 : IPAddress.t) = Some (te_end 1) /\ entries (te_end 1) = te_links.
Proof. split; vm_compute; reflexivity. Qed.
Lemma te_end_3 : nodes te_net_end !! (3 : IPAddress.t) = Some (te_end 3).
Proof. vm_compute. reflexivity. Qed.

(** The end of the row knows the links of the other end. *)
Lemma flooding_converges_witness :
  quiet te_net_end /\ te_link 1 2 101 201 3 1 ∈ entries (te_end 3).
Proof.
  split; [exact te_net_quiet|].
  apply (flooding_converges te_net te_net_end 1 3 (te_end 1) (te_end 3)); [exact te_net_starting|exact te_net_reaches|exact te_net_quiet| |apply te_end_1|apply te_end_3|].
  - apply (rtc_l _ _ 2); [apply peers_b_ok; vm_compute; reflexivity|]. apply rtc_once, peers_b_ok. vm_compute. reflexivity.
  - rewrite (proj2 te_end_1). apply list_elem_of_here.
Defined.

Lemma flooding_terminates_witness : sn flood te_net.
Proof. apply (flooding_terminates te_net te_net); [exact te_net_starting|reflexivity]. Defined.

(** ** Paths and routes *)
Lemma te_links_ok : database_ok 7 te_links.
Proof.
  split; [|by vm_compute]. repeat constructor; cbn; try done; try (by eexists);
    eexists; (split; [reflexivity|unfold max_metric; lia]).
Qed.

Lemma shortest_path_found_witness :
  TED.calculateShortestPath [3] te_links (double_of_int 0) 7 (tedmod (te_end 1)) = Ok [1; 2; 3] (tedmod (te_end 1)) /\
  exists p, TED.calculateShortestPath [3] te_links (double_of_int 0) 7 (tedmod (te_end 1)) = Ok p (tedmod (te_end 1)) /\
    ((p = [] /\ forall b c, b ∈ [3] -> ~ path (usable_links (double_of_int 0) 7 te_links) (TED.routerId (tedmod (te_end 1))) c b) \/
     (exists q b d, p = q ++ [b] /\ b ∈ [3] /\ route (usable_links (double_of_int 0) 7 te_links) (TED.routerId (tedmod (te_end 1))) p d /\
        forall b' c, b' ∈ [3] -> path (usable_links (double_of_int 0) 7 te_links) (TED.routerId (tedmod (te_end 1))) c b' -> d <= c)).
Proof. split; [vm_compute; reflexivity|]. apply shortest_path_found. exact te_links_ok. Defined.

(** What [routable] asks for, to be computed. *)
Definition iface_b (n : Node) (a : IPAddress.t) : bool :=
  match getInterfaceByAddress a n with Ok (Some _) _ => true | _ => false end.

Lemma getInterfaceByAddress_same a n r n' : getInterfaceByAddress a n = Ok r n' -> n' = n.
Proof.
  intros Hrun. assert (frames id (getInterfaceByAddress a)) as Hf; [|by apply Hf in Hrun].
  unfold getInterfaceByAddress, all_interfaces, ipv4Data. frames_walk. apply frames_mapE. intros e. frames_walk.
Qed.

Lemma iface_b_ok n a : iface_b n a = true -> exists i, iface n a i.
Proof.
  unfold iface_b. destruct (getInterfaceByAddress a n) as [[ie|] n'|] eqn:E; [|done|done]. intros _.
  exists (interfaceId ie), ie. pose proof (getInterfaceByAddress_same _ _ _ _ E) as ->. done.
Qed.

Definition te_ready (x : TED.t) : Prop :=
  Forall (fun l => (advrouter l <> 0 /\ IPAddress.isMulticast (advrouter l) = false) /\
                   (linkid l <> 0 /\ IPAddress.isMulticast (linkid l) = false) /\
                   (advrouter l = TED.routerId x -> iface_b (TED.node x) (local l) = true)) (TED.ted x) /\
  Forall (fun a => Exists (fun l => advrouter l = TED.routerId x /\ local l = a) (TED.ted x)) (TED.interfaceAddrs x) /\
  NoDup (all_routes (TED.node x)) /\
  Forall (fun p => is_Some (heap (rt (TED.node x)) !! p) /\ (p < nextRoute (rt (TED.node x)))%positive) (all_routes (TED.node x)).
#[local] Instance te_ready_dec x : Decision (te_ready x).
Proof. unfold te_ready. apply _. Defined.

Lemma te_ready_ok x : database_ok 7 (TED.ted x) -> te_ready x -> routable x.
Proof.
  intros Hdb (Hl & Ha & Hnd & Hp). split.
  - done.
  - eapply Forall_impl; [exact Hl|]. by intros l (? & ? & _).
  - rewrite Forall_forall in Hl. intros l Hin Hadv. apply iface_b_ok. by apply (Hl l Hin).
  - rewrite Forall_forall in Ha. intros a Hin. destruct (proj1 (Exists_exists _ _) (Ha a Hin)) as (l & ? & ? & ?). by exists l.
  - rewrite Forall_forall in Hp. split; [done| |]; intros p Hin; by apply (Hp p Hin).
Qed.

Lemma te_end_routable : routable (tedmod (te_end 1)).
Proof.
  apply te_ready_ok; [rewrite (proj2 te_end_1); exact te_links_ok|]. refine (bool_decide_unpack _ _). vm_compute. exact I.
Qed.

Lemma routes_follow_shortest_paths_witness :
  exists s', TED.rebuildRoutingTable (tedmod (te_end 1)) = Ok tt s' /\ rebuilt (tedmod (te_end 1)) s' /\ routable s'.
Proof. apply routes_follow_shortest_paths. exact te_end_routable. Defined.

(** Router 2 sees its link to 3 go down. *)
Definition te_cut : TED.t :=
  (tedmod (te_end 2)) <| TED.ted := (fun l => if (advrouter l =? 2) && (linkid l =? 3) then l <| te_state := false |> else l) <$> te_links |>.

Lemma te_cut_routable : routable te_cut.
Proof.
  apply te_ready_ok.
  - split; [|by vm_compute]. repeat constructor; cbn; try done; try (by eexists);
      eexists; (split; [reflexivity|unfold max_metric; lia]).
  - refine (bool_decide_unpack _ _). vm_compute. exact I.
Qed.

Definition te_cut_after : TED.t := match TED.rebuildRoutingTable te_cut with Ok _ s => s | Err _ => te_cut end.

Definition te_dead_route : IPRoute :=
  IPRoute_new <| host := 3 |> <| netmask := 4294967295 |> <| interfacePtr := Some 101 |> <| source := OSPF |>.

Lemma te_cut_has : has (TED.node te_cut_after) 10%positive te_dead_route.
Proof. split; [refine (bool_decide_unpack _ _); vm_compute; exact I|vm_compute; reflexivity]. Qed.

Lemma te_cut_peer : exists l, first_link te_cut 3 l.
Proof. eexists. vm_compute. reflexivity. Qed.

Lemma te_cut_down l : l ∈ TED.ted te_cut -> advrouter l = TED.routerId te_cut -> linkid l = 3 -> te_state l = false.
Proof.
  assert (Forall (fun l => advrouter l = TED.routerId te_cut -> linkid l = 3 -> te_state l = false) (TED.ted te_cut)) as Hall.
  { refine (bool_decide_unpack _ _). vm_compute. exact I. }
  rewrite Forall_forall in Hall. apply Hall.
Qed.

Lemma te_cut_rebuilds : TED.rebuildRoutingTable te_cut = Ok tt te_cut_after.
Proof. vm_compute. reflexivity. Qed.

Lemma dead_link_keeps_route_witness :
  has (TED.node te_cut_after) 10%positive te_dead_route /\
  type_ te_dead_route = DIRECT /\ gateway te_dead_route = 0 /\
  exists l i, l ∈ TED.ted te_cut /\ linkid l = 3 /\ te_state l = false /\ iface (TED.node te_cut) (local l) i /\
    interfacePtr te_dead_route = Some i.
Proof.
  split; [exact te_cut_has|].
  apply (dead_link_keeps_route te_cut te_cut_after 3 te_cut_routable te_cut_peer te_cut_down te_cut_rebuilds 10%positive te_dead_route te_cut_has);
    reflexivity.
Defined.
