(* ===== verification/NotificationBoard.v ===== *)
(** * The notification board

    [base/NotificationBoard.cc]: who is subscribed to which category.  Clients are
    named by numbers; what they are told is collected in [delivered], in the order
    of the calls of [receiveChangeNotification]. *)
From S2P Require Import Prelude.

Module NotificationBoard.
(** [NotifierConsts.h] *)
Definition NF_SUBSCRIBERLIST_CHANGED : Z := 0.
Definition NF_PP_TX_BEGIN : Z := 6.
Definition NF_PP_TX_END : Z := 7.
Definition NF_PP_RX_END : Z := 8.

Section Board.
Context {D : Type}.

Record t : Type := mk { clientMap : gmap Z (list Z); delivered : list (Z * Z * option D) }.
#[global] Instance eta : Eta t := fun b => {| clientMap := clientMap b; delivered := delivered b |}.

Definition new : t := {| clientMap := ∅; delivered := [] |}.

Definition clients (category : Z) (b : t) : list Z := default [] (clientMap b !! category).

Definition fireChangeNotification (category : Z) (details : option D) : Eff t unit :=
  let! l := gets (clients category) in
  let! _ := mapE (fun c => modify (fun b => b <| delivered := delivered b ++ [(c, category, details)] |>)) l in
  ret tt.

Definition subscribe (client category : Z) : Eff t unit :=
  let! l := gets (clients category) in
  modify (fun b => b <| clientMap := <[category := if bool_decide (client ∈ l) then l else l ++ [client]]> (clientMap b) |>) ;;;
  fireChangeNotification NF_SUBSCRIBERLIST_CHANGED None.

(** [erase] of the iterator [find] returns. *)
Fixpoint erase_first (client : Z) (l : list Z) : list Z :=
  match l with
  | [] => []
  | c :: rest => if c =? client then rest else c :: erase_first client rest
  end.

Definition unsubscribe (client category : Z) : Eff t unit :=
  let! l := gets (clients category) in
  modify (fun b => b <| clientMap := <[category := erase_first client l]> (clientMap b) |>) ;;;
  fireChangeNotification NF_SUBSCRIBERLIST_CHANGED None.

Definition hasSubscribers (category : Z) (b : t) : bool :=
  match clientMap b !! category with Some (_ :: _) => true | _ => false end.
End Board.
Arguments t : clear implicits.
End NotificationBoard.
