(* ===== verification/Ppp.v ===== *)
(** * Point-to-point links

    [linklayer/ppp/PPP.cc].  The packets are of any type with a length; the output
    queue the module may take its packets from is the [PassiveQueueBase] of
    [Queues], which [PPP] calls directly.  Frames sent are collected in [physOut],
    packets passed up in [netwOut].  [duration] is the time the channel needs for a
    number of bits, so that [getTransmissionFinishTime] is the time of the
    transmission plus [duration]. *)
From Stdlib Require Import String Ascii SpecFloat.
From S2P Require Import Prelude InterfaceTable Queues NotificationBoard.

Definition PPP_OVERHEAD_BYTES : Z := 7.

Record PPPFrame (M : Type) : Type := mk_PPPFrame { pf_byteLength : Z; pf_payload : M; pf_bitError : bool }.
Arguments mk_PPPFrame {M}. Arguments pf_byteLength {M}. Arguments pf_payload {M}. Arguments pf_bitError {M}.

Module PPP.
Section PPP.
Context {M Q : Type} `{PassiveQueue M Q} (byteLength : M -> Z) (duration : Z -> Z).

(** [me] names the module to the notification board; [datarateChannel] is [None]
    when the interface is not connected, [endTransmissionEvent] is the time the
    event is scheduled for. *)
Record t : Type := mk {
  me : Z;
  txQueueLimit : Z;
  datarateChannel : option spec_float;
  txQueue : list M;
  endTransmissionEvent : option Z;
  queueModule : option (PassiveQueueBase.t M Q);
  nb : NotificationBoard.t (option (PPPFrame M));
  hasSubscribers : bool;
  numSent : Z;
  numRcvdOK : Z;
  numBitErr : Z;
  numDroppedIfaceDown : Z;
  clock : Z;
  physOut : list (PPPFrame M);
  netwOut : list M
}.
#[global] Instance eta : Eta t := fun s =>
  {| me := me s; txQueueLimit := txQueueLimit s; datarateChannel := datarateChannel s; txQueue := txQueue s;
     endTransmissionEvent := endTransmissionEvent s; queueModule := queueModule s; nb := nb s;
     hasSubscribers := hasSubscribers s; numSent := numSent s; numRcvdOK := numRcvdOK s; numBitErr := numBitErr s;
     numDroppedIfaceDown := numDroppedIfaceDown s; clock := clock s; physOut := physOut s; netwOut := netwOut s |}.

(** ** The board and the queue *)
Definition on_nb {A} (m : Eff (NotificationBoard.t (option (PPPFrame M))) A) : Eff t A := fun s =>
  match m (nb s) with Ok a b => Ok a (s <| nb := b |>) | Err e => Err e end.

Definition updateHasSubcribers : Eff t unit :=
  modify (fun s => s <| hasSubscribers :=
    NotificationBoard.hasSubscribers NotificationBoard.NF_PP_TX_BEGIN (nb s) ||
    NotificationBoard.hasSubscribers NotificationBoard.NF_PP_TX_END (nb s) ||
    NotificationBoard.hasSubscribers NotificationBoard.NF_PP_RX_END (nb s) |>).

Definition receiveChangeNotification (category : Z) : Eff t unit :=
  when (category =? NotificationBoard.NF_SUBSCRIBERLIST_CHANGED) updateHasSubcribers.

(** Fires with [notifDetails] holding the frame, or [NULL]. *)
Definition fire (category : Z) (packet : option (PPPFrame M)) : Eff t unit :=
  let! b := gets hasSubscribers in
  when b (on_nb (NotificationBoard.fireChangeNotification category (Some packet))).

Definition requestPacket : Eff t unit := fun s =>
  match queueModule s with
  | None => Ok tt s
  | Some q => match PassiveQueueBase.requestPacket (clock s) q with
              | Ok _ q => Ok tt (s <| queueModule := Some q |>)
              | Err e => Err e
              end
  end.

(** ** Frames *)
Definition encapsulate (msg : M) : PPPFrame M :=
  {| pf_byteLength := PPP_OVERHEAD_BYTES + byteLength msg; pf_payload := msg; pf_bitError := false |}.
Definition decapsulate (pppFrame : PPPFrame M) : M := pf_payload pppFrame.

Definition scheduleAt (time : Z) : Eff t unit :=
  let! e := gets endTransmissionEvent in
  match e with
  | Some _ => fail (RuntimeError "scheduleAt(): message is already scheduled")
  | None => modify (fun s => s <| endTransmissionEvent := Some time |>)
  end.

Definition startTransmitting (msg : M) : Eff t unit :=
  let pppFrame := encapsulate msg in
  fire NotificationBoard.NF_PP_TX_BEGIN (Some pppFrame) ;;;
  modify (fun s => s <| physOut := physOut s ++ [pppFrame] |>) ;;;
  let! now := gets clock in
  scheduleAt (now + duration (8 * pf_byteLength pppFrame)).

(** ** Messages *)
Inductive Message : Type :=
  | EndTransmission
  | FromPhys (frame : PPPFrame M)
  | FromNetw (msg : M).

Definition handleMessage (msg : Message) : Eff t unit :=
  let! channel := gets datarateChannel in
  match channel with
  | None => modify (fun s => s <| numDroppedIfaceDown := numDroppedIfaceDown s + 1 |>)
  | Some _ =>
      match msg with
      | EndTransmission =>
          modify (fun s => s <| endTransmissionEvent := None |>) ;;;
          fire NotificationBoard.NF_PP_TX_END None ;;;
          let! q := gets txQueue in
          match q with
          | pk :: rest =>
              modify (fun s => s <| txQueue := rest |>) ;;;
              startTransmitting pk ;;;
              modify (fun s => s <| numSent := numSent s + 1 |>)
          | [] => requestPacket
          end
      | FromPhys frame =>
          fire NotificationBoard.NF_PP_RX_END (Some frame) ;;;
          if pf_bitError frame then modify (fun s => s <| numBitErr := numBitErr s + 1 |>)
          else
            modify (fun s => s <| numRcvdOK := numRcvdOK s + 1 |>) ;;;
            modify (fun s => s <| netwOut := netwOut s ++ [decapsulate frame] |>)
      | FromNetw pk =>
          let! e := gets endTransmissionEvent in
          match e with
          | Some _ =>
              let! q := gets txQueue in
              let! limit := gets txQueueLimit in
              if negb (limit =? 0) && (limit <? Z.of_nat (length q))
              then fail (RuntimeError "txQueue length exceeds limit")
              else modify (fun s => s <| txQueue := txQueue s ++ [pk] |>)
          | None =>
              startTransmitting pk ;;;
              modify (fun s => s <| numSent := numSent s + 1 |>)
          end
      end
  end.

(** ** Start *)
(** The name of the parent module without special characters. *)
Definition isalnum (c : ascii) : bool :=
  let n := Z.of_nat (nat_of_ascii c) in
  ((48 <=? n) && (n <=? 57)) || ((65 <=? n) && (n <=? 90)) || ((97 <=? n) && (n <=? 122)).
Fixpoint interface_name (s : string) : string :=
  match s with
  | EmptyString => EmptyString
  | String c rest => if isalnum c then String c (interface_name rest) else interface_name rest
  end.

(** [gates] are the gates found by the interface table, [mtu_par] is a parameter of
    the module. *)
Definition registerInterface (fullName : string) (rate : spec_float) (mtu_par : Z) (gates : Z * Z * Z) : Eff InterfaceTable.t Z :=
  InterfaceTable.addInterface
    (InterfaceEntry_new <| ie_name := interface_name fullName |> <| datarate := rate |> <| mtu := mtu_par |>
       <| multicast := true |> <| pointToPoint := true |>) (Some gates).

Definition initial (id limit : Z) (channel : option spec_float) (q : option (PassiveQueueBase.t M Q))
    (board : NotificationBoard.t (option (PPPFrame M))) (now : Z) : t :=
  {| me := id; txQueueLimit := limit; datarateChannel := channel; txQueue := []; endTransmissionEvent := None;
     queueModule := q; nb := board; hasSubscribers := false; numSent := 0; numRcvdOK := 0; numBitErr := 0;
     numDroppedIfaceDown := 0; clock := now; physOut := []; netwOut := [] |}.

(** [initialize], stage 0, after the interface has been registered. *)
Definition initialize : Eff t unit :=
  let! i := gets me in
  on_nb (NotificationBoard.subscribe i NotificationBoard.NF_SUBSCRIBERLIST_CHANGED) ;;;
  updateHasSubcribers ;;;
  requestPacket.
End PPP.
Arguments t : clear implicits.
Arguments Message : clear implicits.
End PPP.
