(* ===== verification/PppSpec.v ===== *)
(** * A point-to-point link fed by an output queue

    A transmitter takes its packets from an output queue of any discipline that
    keeps the laws of [QueuesSpec], and another station receives its frames, in
    order, some with bit errors. *)
From Stdlib Require Import SpecFloat.
From S2P Require Import Prelude Queues QueuesSpec NotificationBoard Ppp.
Import PPP.

Section Board.
Context {D : Type}.
Implicit Type b : NotificationBoard.t D.

Lemma fire_run c d b : exists b', NotificationBoard.fireChangeNotification c d b = Ok tt b' /\
  NotificationBoard.clientMap b' = NotificationBoard.clientMap b /\
  NotificationBoard.delivered b' = NotificationBoard.delivered b ++ ((fun x => (x, c, d)) <$> NotificationBoard.clients c b).
Proof.
  unfold NotificationBoard.fireChangeNotification. unfold bind at 1, gets at 1.
  set (l := NotificationBoard.clients c b). clearbody l.
  assert (exists us b', mapE (fun x => modify (fun b => b <| NotificationBoard.delivered := NotificationBoard.delivered b ++ [(x, c, d)] |>)) l b = Ok us b' /\
    NotificationBoard.clientMap b' = NotificationBoard.clientMap b /\
    NotificationBoard.delivered b' = NotificationBoard.delivered b ++ ((fun x => (x, c, d)) <$> l)) as (us & b' & Hrun & Hc & Hd).
  { revert b. induction l as [|x l IH]; intros b.
    - exists [], b. by rewrite app_nil_r.
    - cbn [mapE]. unfold bind at 1, modify at 1. edestruct IH as (us & b' & Hrun & Hc & Hd).
      rewrite (bind_ok _ _ _ _ _ Hrun). exists (tt :: us), b'. split_and!; [done|by rewrite Hc|].
      rewrite Hd. cbn. by rewrite <- app_assoc. }
  rewrite (bind_ok _ _ _ _ _ Hrun). by exists b'.
Qed.
End Board.

Section Link.
Context {M Q : Type} `{QueueLaws M Q} (byteLength : M -> Z) (duration : Z -> Z).
Implicit Types (s : PPP.t M Q).

(** What the handlers leave alone, or not. *)
Lemma fire_frame c p s : exists b, fire c p s = Ok tt (s <| nb := b |>).
Proof.
  unfold fire. unfold bind, gets. destruct (hasSubscribers s); cbn [when]; [|exists (nb s); by destruct s].
  unfold on_nb. destruct (fire_run c (Some p) (nb s)) as (b & -> & _). by exists b.
Qed.

Lemma startTransmitting_run m s : endTransmissionEvent s = None ->
  exists b, startTransmitting byteLength duration m s =
    Ok tt (s <| nb := b |> <| physOut := physOut s ++ [encapsulate byteLength m] |>
             <| endTransmissionEvent := Some (clock s + duration (8 * (PPP_OVERHEAD_BYTES + byteLength m))) |>).
Proof.
  intros He. unfold startTransmitting. destruct (fire_frame NotificationBoard.NF_PP_TX_BEGIN (Some (encapsulate byteLength m)) s) as [b Hb].
  rewrite (bind_ok _ _ _ _ _ Hb). exists b. unfold bind, modify, gets, scheduleAt. cbn. rewrite He. done.
Qed.

(** ** The link *)
Record link : Type := mk_link {
  station : PPP.t M Q;
  taken : nat;
  receiver : PPP.t M Q;
  arrived : nat
}.
#[local] Instance eta_link : Eta link := fun x =>
  {| station := station x; taken := taken x; receiver := receiver x; arrived := arrived x |}.

(** A packet for the queue; the queue's next packet reaches the transmitter; its
    timer; the receiver gets the next frame; time passes. *)
Inductive LinkEvent : Type :=
  | Enqueue (m : M)
  | FromQueue
  | TimerFires
  | Receive (bitError : bool)
  | TimePasses (d : Z).

Definition on_queue (m : Eff (PassiveQueueBase.t M Q) unit) : Eff link unit := fun x =>
  match queueModule (station x) with
  | None => Err (NullPointer "queueModule")
  | Some q => match m q with
              | Ok _ q => Ok tt (x <| station := (station x) <| queueModule := Some q |> |>)
              | Err e => Err e
              end
  end.

Definition on_station (m : Eff (PPP.t M Q) unit) : Eff link unit := fun x =>
  match m (station x) with Ok _ s => Ok tt (x <| station := s |>) | Err e => Err e end.

Definition queue_out (x : link) : list M :=
  match queueModule (station x) with Some q => PassiveQueueBase.out q | None => [] end.

Definition link_event (ev : LinkEvent) : Eff link unit :=
  let! x := gets id in
  match ev with
  | Enqueue m => on_queue (PassiveQueueBase.handleMessage (clock (station x)) m)
  | FromQueue =>
      match queue_out x !! taken x with
      | None => ret tt
      | Some m =>
          modify (fun x => x <| taken := S (taken x) |>) ;;;
          on_station (handleMessage byteLength duration (FromNetw m))
      end
  | TimerFires =>
      match endTransmissionEvent (station x) with
      | None => ret tt
      | Some time => on_station (modify (fun s => s <| clock := time |>) ;;; handleMessage byteLength duration EndTransmission)
      end
  | Receive err =>
      match physOut (station x) !! arrived x with
      | None => ret tt
      | Some f =>
          modify (fun x => x <| arrived := S (arrived x) |>) ;;;
          fun x => match handleMessage byteLength duration
                           (FromPhys {| pf_byteLength := pf_byteLength f; pf_payload := pf_payload f; pf_bitError := err |}) (receiver x) with
                   | Ok _ r => Ok tt (x <| receiver := r |>)
                   | Err e => Err e
                   end
      end
  | TimePasses d => on_station (modify (fun s => s <| clock := clock s + d |>))
  end.

Definition enqueued (evs : list LinkEvent) : list M :=
  omap (fun ev => match ev with Enqueue m => Some m | _ => None end) evs.

Definition busy (s : PPP.t M Q) : nat := match endTransmissionEvent s with Some _ => 1 | None => 0 end.

(** The packets on the wire or past it, on their way from the queue to the
    transmitter, and in the queue, are those that were not dropped; the transmitter
    is busy, or about to be, or waits for a packet with the queue empty. *)
Record link_ok (evs : list LinkEvent) (x : link) : Prop := {
  lk_queue : exists q qevs accepted, queueModule (station x) = Some q /\
    serves qevs accepted q /\ arrivals_of qevs = enqueued evs /\ Z.of_nat (length qevs) <= Z.of_nat (length evs) + 1 /\
    (taken x <= length (PassiveQueueBase.out q))%nat /\
    pf_payload <$> physOut (station x) = take (taken x) (PassiveQueueBase.out q) /\
    (Z.of_nat (busy (station x)) + (Z.of_nat (length (PassiveQueueBase.out q)) - Z.of_nat (taken x)) + PassiveQueueBase.packetRequested q = 1);
  lk_txQueue : txQueue (station x) = [];
  lk_connected : is_Some (datarateChannel (station x)) /\ is_Some (datarateChannel (receiver x));
  lk_counts : numSent (station x) = Z.of_nat (length (physOut (station x)));
  lk_received : (arrived x <= length (physOut (station x)))%nat /\
    netwOut (receiver x) `sublist_of` take (arrived x) (pf_payload <$> physOut (station x)) /\
    numRcvdOK (receiver x) = Z.of_nat (length (netwOut (receiver x))) /\
    numRcvdOK (receiver x) + numBitErr (receiver x) = Z.of_nat (arrived x)
}.

Lemma enqueued_snoc evs ev : enqueued (evs ++ [ev]) = enqueued evs ++ match ev with Enqueue m => [m] | _ => [] end.
Proof. unfold enqueued. rewrite omap_app. by destruct ev. Qed.

Lemma link_ok_quiet evs ev x :
  link_ok evs x -> (forall m, ev <> Enqueue m) -> link_ok (evs ++ [ev]) x.
Proof.
  intros [Hq ????] Hev. split; try done. destruct Hq as (q & qevs & acc & ? & ? & Harr & Hlen & ?).
  exists q, qevs, acc. split_and!; try done; [|rewrite length_app; cbn; lia| naive_solver..].
  rewrite enqueued_snoc, Harr. destruct ev; [by destruct (Hev m)|..]; by rewrite app_nil_r.
Qed.

Ltac link_parts Hx :=
  let q := fresh "q" in let qevs := fresh "qevs" in let acc := fresh "acc" in
  destruct Hx as [(q & qevs & acc & Hq & Hsv & Harr & Hlen & Htk & Hphys & Hone) Htx [Hch Hchr] Hcnt (Harrd & Hsub & Hrcv & Htot)].

Lemma enqueue_step evs x m :
  link_ok evs x -> Z.of_nat (length evs) < 2147483645 ->
  exists x', link_event (Enqueue m) x = Ok tt x' /\ link_ok (evs ++ [Enqueue m]) x'.
Proof.
  intros Hx Hmax. link_parts Hx.
  destruct (arrival_step qevs acc q (clock (station x)) m Hsv ltac:(lia)) as (acc' & q' & Hrun & Hsv').
  unfold link_event. unfold bind, gets. cbn [id]. unfold on_queue. rewrite Hq, Hrun. eexists. split; [done|].
  assert (exists d, PassiveQueueBase.out q' = PassiveQueueBase.out q ++ d /\
    Z.of_nat (length d) + PassiveQueueBase.packetRequested q' = PassiveQueueBase.packetRequested q) as (d & Hout & Hreq).
  { unfold PassiveQueueBase.handleMessage, bind, modify, gets in Hrun. cbn -[i32 enqueue] in Hrun.
    destruct (Z.ltb_spec 0 (PassiveQueueBase.packetRequested q)) as [Hp|Hp].
    - injection Hrun as <-. exists [m]. split; [done|]. cbn -[i32]. pose proof (sv_requests _ _ _ Hsv). pose proof (events_bound qevs).
      rewrite i32_small by lia. lia.
    - exists []. rewrite app_nil_r. unfold PassiveQueueBase.on_discipline in Hrun. cbn -[i32 enqueue] in Hrun.
      destruct (enqueue _ _ _) as [dr y|]; [|done]. destruct dr; by injection Hrun as <-. }
  split; cbn; try done.
  exists q', (qevs ++ [(clock (station x), MessageArrives m)]), acc'. split_and!; try done.
  - by rewrite arrivals_arrival, enqueued_snoc, Harr.
  - rewrite !length_app. cbn. lia.
  - rewrite Hout, length_app. lia.
  - rewrite Hphys, Hout. by rewrite take_app_le.
  - rewrite Hout, length_app. unfold busy in *. cbn. lia.
Qed.

Lemma from_queue_step evs x :
  link_ok evs x -> exists x', link_event FromQueue x = Ok tt x' /\ link_ok (evs ++ [FromQueue]) x'.
Proof.
  intros Hx. pose proof Hx as Hx0. link_parts Hx. unfold link_event. unfold bind at 1, gets. cbn [id]. unfold queue_out. rewrite Hq.
  destruct (PassiveQueueBase.out q !! taken x) as [m|] eqn:Em; [|exists x; split; [done|by apply link_ok_quiet]].
  pose proof (lookup_lt_Some _ _ _ Em) as Hlt. pose proof (sv_pending _ _ _ Hsv) as Hp.
  assert (endTransmissionEvent (station x) = None) as Hidle.
  { unfold busy in Hone. destruct (endTransmissionEvent (station x)); [cbn in Hone; lia|done]. }
  unfold bind at 1, modify at 1. unfold on_station. cbn [station].
  unfold handleMessage. unfold bind at 1, gets at 1. destruct Hch as [r Hr]. cbn. rewrite Hr. unfold bind at 1, gets at 1. cbn. rewrite Hidle.
  destruct (startTransmitting_run m (station x) Hidle) as [b Hb]. rewrite (bind_ok _ _ _ _ _ Hb).
  eexists. split; [done|]. split; cbn.
  - exists q, qevs, acc. split_and!; try done.
    + by rewrite enqueued_snoc, Harr, app_nil_r.
    + rewrite length_app. cbn. lia.
    + rewrite fmap_app, Hphys. cbn. by rewrite (take_S_r _ _ _ Em).
    + unfold busy in *. cbn. rewrite Hidle in Hone. lia.
  - done.
  - by rewrite Hr.
  - rewrite length_app, Hcnt. cbn. lia.
  - split_and!; try done; [rewrite length_app; cbn; lia|]. rewrite fmap_app, take_app_le by (rewrite length_fmap; lia). done.
Qed.

Lemma timer_step evs x :
  link_ok evs x -> Z.of_nat (length evs) < 2147483645 ->
  exists x', link_event TimerFires x = Ok tt x' /\ link_ok (evs ++ [TimerFires]) x'.
Proof.
  intros Hx Hmax. pose proof Hx as Hx0. link_parts Hx. unfold link_event. unfold bind at 1, gets. cbn [id].
  destruct (endTransmissionEvent (station x)) as [time|] eqn:He; [|exists x; split; [done|by apply link_ok_quiet]].
  pose proof (sv_pending _ _ _ Hsv) as Hp. unfold busy in Hone. rewrite He in Hone.
  unfold on_station. unfold bind at 1, modify at 1. unfold handleMessage. unfold bind at 1, gets at 1.
  destruct Hch as [r Hr]. cbn [datarateChannel]. cbn. rewrite Hr. unfold bind at 1, modify at 1.
  edestruct (fire_frame NotificationBoard.NF_PP_TX_END None) as [b Hb]. rewrite (bind_ok _ _ _ _ _ Hb).
  unfold bind at 1, gets at 1. cbn. rewrite Htx. unfold requestPacket. cbn. rewrite Hq.
  destruct (request_step qevs acc q time Hsv ltac:(lia)) as (q' & Hrun & Hsv' & Hfirst). rewrite Hrun.
  assert (exists d, PassiveQueueBase.out q' = PassiveQueueBase.out q ++ d /\
    Z.of_nat (length d) + PassiveQueueBase.packetRequested q' = PassiveQueueBase.packetRequested q + 1) as (d & Hout & Hreq).
  { destruct Hfirst as [(_ & -> & ->)|(m & tl & -> & -> & _)]; [exists []; by rewrite app_nil_r|exists [m]; split; [done|cbn; lia]]. }
  eexists. split; [done|]. split; cbn; try done.
  exists q', (qevs ++ [(time, PacketRequested)]), acc. split_and!; try done.
  - by rewrite arrivals_request, enqueued_snoc, Harr, app_nil_r.
  - rewrite !length_app. cbn. lia.
  - rewrite Hout, length_app. lia.
  - rewrite Hphys, Hout. by rewrite take_app_le.
  - rewrite Hout, length_app. unfold busy. cbn. lia.
Qed.

Lemma phys_run f s : is_Some (datarateChannel s) ->
  exists s', handleMessage byteLength duration (FromPhys f) s = Ok tt s' /\ datarateChannel s' = datarateChannel s /\
    netwOut s' = netwOut s ++ (if pf_bitError f then [] else [pf_payload f]) /\
    numRcvdOK s' = numRcvdOK s + (if pf_bitError f then 0 else 1) /\
    numBitErr s' = numBitErr s + (if pf_bitError f then 1 else 0).
Proof.
  intros [r Hr]. unfold handleMessage. unfold bind at 1, gets at 1. rewrite Hr.
  destruct (fire_frame NotificationBoard.NF_PP_RX_END (Some f) s) as [b Hb]. rewrite (bind_ok _ _ _ _ _ Hb).
  destruct (pf_bitError f); (eexists; split; [done|]); cbn; split_and!; try done; [by rewrite app_nil_r|lia..].
Qed.

Lemma receive_step evs x err :
  link_ok evs x -> exists x', link_event (Receive err) x = Ok tt x' /\ link_ok (evs ++ [Receive err]) x'.
Proof.
  intros Hx. pose proof (link_ok_quiet evs (Receive err) x Hx ltac:(done)) as Hx0. unfold link_event. unfold bind at 1, gets at 1. cbn [id].
  destruct (physOut (station x) !! arrived x) as [f|] eqn:Ef; [|by exists x].
  destruct Hx0 as [Hq Htx [Hch Hchr] Hcnt (Harrd & Hsub & Hrcv & Htot)].
  destruct (phys_run {| pf_byteLength := pf_byteLength f; pf_payload := pf_payload f; pf_bitError := err |} (receiver x) Hchr)
    as (r' & Hrun & Hchr' & Hnet & Hok & Hbad).
  unfold bind at 1, modify at 1. cbn [receiver]. unfold field_update at 1. cbn [receiver]. rewrite Hrun. eexists. split; [done|].
  pose proof (lookup_lt_Some _ _ _ Ef) as Hlt.
  assert ((pf_payload <$> physOut (station x)) !! arrived x = Some (pf_payload f)) as Ef' by (by rewrite list_lookup_fmap, Ef).
  split; cbn; try done; [by rewrite Hchr'|]. cbn in Hnet, Hok, Hbad. rewrite Hnet, Hok, Hbad, (take_S_r _ _ _ Ef'), length_app.
  split_and!; [lia|by destruct err; [apply sublist_app; [|apply sublist_nil_l]|apply sublist_app]|destruct err; cbn; lia|destruct err; lia].
Qed.

Lemma link_step evs x ev :
  link_ok evs x -> Z.of_nat (length evs) < 2147483645 ->
  exists x', link_event ev x = Ok tt x' /\ link_ok (evs ++ [ev]) x'.
Proof.
  intros Hx Hmax. destruct ev as [m| | |err|d].
  - by apply enqueue_step.
  - by apply from_queue_step.
  - by apply timer_step.
  - by apply receive_step.
  - pose proof (link_ok_quiet evs (TimePasses d) x Hx ltac:(done)) as [????]. eexists. split; [done|by split].
Qed.

Lemma link_run evs pre x :
  link_ok pre x -> Z.of_nat (length (pre ++ evs)) < 2147483646 ->
  exists us x', mapE link_event evs x = Ok us x' /\ link_ok (pre ++ evs) x'.
Proof.
  revert pre x. induction evs as [|ev evs IH]; intros pre x Hx Hmax; [exists [], x; by rewrite app_nil_r|].
  rewrite length_app in Hmax. cbn [length] in Hmax.
  destruct (link_step pre x ev Hx ltac:(lia)) as (x1 & Hrun & Hx1).
  destruct (IH (pre ++ [ev]) x1 Hx1) as (us & x2 & Hrun2 & Hx2); [rewrite !length_app; cbn [length]; lia|].
  exists (tt :: us), x2. rewrite <- app_assoc in Hx2. split; [|done].
  cbn [mapE]. by rewrite (bind_ok _ _ _ _ _ Hrun), (bind_ok _ _ _ _ _ Hrun2).
Qed.

(** ** From the start *)
Lemma subscribe_run {D} c k (b : NotificationBoard.t D) : exists b', NotificationBoard.subscribe c k b = Ok tt b'.
Proof.
  unfold NotificationBoard.subscribe. unfold bind at 1, gets at 1. unfold bind at 1, modify at 1.
  edestruct (fire_run (D := D) NotificationBoard.NF_SUBSCRIBERLIST_CHANGED None) as (b' & Hrun & _). eexists. exact Hrun.
Qed.

Lemma ppp_initialize_run q id limit rate board now :
  queue_ok q -> held q = [] ->
  exists s q', initialize (initial id limit (Some rate) (Some (PassiveQueueBase.initialize q)) board now) = Ok tt s /\
    queueModule s = Some q' /\ serves [(now, PacketRequested)] [] q' /\ PassiveQueueBase.out q' = [] /\
    PassiveQueueBase.packetRequested q' = 1 /\ datarateChannel s = Some rate /\
    (txQueue s, endTransmissionEvent s, physOut s, numSent s) = ([], None, [], 0).
Proof.
  intros Hq Hnil.
  assert (serves [] [] (PassiveQueueBase.initialize q)) as Hs0 by (split; cbn; rewrite ?Hnil; done).
  destruct (request_step [] [] _ now Hs0 ltac:(done)) as (q' & Hrun & Hsv & Hfirst).
  assert (PassiveQueueBase.out q' = [] /\ PassiveQueueBase.packetRequested q' = 1) as [Hout Hreq].
  { destruct Hfirst as [(_ & -> & ->)|(m & tl & _ & _ & Hin & _)]; [done|]. cbn in Hin. by rewrite Hnil in Hin. }
  unfold initialize. unfold bind at 1, gets at 1.
  destruct (subscribe_run (me (initial id limit (Some rate) (Some (PassiveQueueBase.initialize q)) board now))
    NotificationBoard.NF_SUBSCRIBERLIST_CHANGED board) as [b Hb].
  unfold bind at 1, on_nb. cbn in Hb |- *. rewrite Hb. unfold bind, updateHasSubcribers, modify, requestPacket. cbn. rewrite Hrun.
  eexists _, q'. split; [done|]. by split_and!.
Qed.

End Link.

