(* ===== verification/EtherMac.v ===== *)
(** * Ethernet MACs

    [linklayer/ethernet]: the base class [EtherMACBase], the half and full duplex
    MAC with collision detection [EtherMAC] and the full duplex MAC [EtherMAC2].
    The frames are those of [EtherSwitch]; what
    arrives from the network comes with its time of sending, and a frame with its bit
    error flag.  A timer is the time its message is scheduled for.  Times are in
    ticks; [simtime_of] is the conversion of a [double] to [simtime_t]. *)
From Stdlib Require Import String SpecFloat.
From S2P Require Import Prelude MachineFloat MACAddress EtherSwitch NotificationBoard.

(** ** [Ethernet.h] *)
Definition GIGABIT_MAX_BURST_BYTES : Z := 8192.
Definition MAX_ETHERNET_DATA : Z := 1500.
Definition MAX_ETHERNET_FRAME : Z := 1518.
Definition GIGABIT_MIN_FRAME_WITH_EXT : Z := 512.
Definition INTERFRAME_GAP_BITS : Z := 96.
Definition ETHERNET_TXRATE : spec_float := double_of_int 10000000.
Definition FAST_ETHERNET_TXRATE : spec_float := double_of_int 100000000.
Definition GIGABIT_ETHERNET_TXRATE : spec_float := double_of_int 1000000000.
Definition FAST_GIGABIT_ETHERNET_TXRATE : spec_float := double_of_int 10000000000.
Definition SLOT_TIME : spec_float := double_div (double_of_int 512) ETHERNET_TXRATE.
Definition GIGABIT_SLOT_TIME : spec_float := double_div (double_of_int 4096) GIGABIT_ETHERNET_TXRATE.
Definition MAX_ATTEMPTS : Z := 16.
Definition BACKOFF_RANGE_LIMIT : Z := 10.
Definition JAM_SIGNAL_BYTES : Z := 4.
Definition PREAMBLE_BYTES : Z := 7.
Definition SFD_BYTES : Z := 1.
Definition PAUSE_BITTIME : Z := 512.

(** What goes over the wire. *)
Inductive Signal : Type :=
  | SigFrame (frame : EtherFrame) (bitError : bool)
  | SigJam (byteLength : Z)
  | SigAutoconfig (txrate : spec_float) (halfDuplex : bool).

Definition signal_bits (x : Signal) : Z :=
  match x with SigFrame f _ => 8 * fr_length f | SigJam n => 8 * n | SigAutoconfig _ _ => 0 end.

#[export] Instance eta_EtherFrame : Eta EtherFrame := fun f =>
  {| fr_dest := fr_dest f; fr_src := fr_src f; fr_length := fr_length f; fr_pauseTime := fr_pauseTime f; fr_contents := fr_contents f |}.

Inductive TransmitState : Type :=
  | TX_IDLE_STATE | WAIT_IFG_STATE | TRANSMITTING_STATE | JAMMING_STATE | BACKOFF_STATE | PAUSE_STATE.
Inductive ReceiveState : Type := RX_IDLE_STATE | RECEIVING_STATE | RX_COLLISION_STATE.
#[export] Instance TransmitState_eq_dec : EqDecision TransmitState.
Proof. solve_decision. Defined.
#[export] Instance ReceiveState_eq_dec : EqDecision ReceiveState.
Proof. solve_decision. Defined.

(** ** [EtherMACBase] *)
Module EtherMACBase.
(** The counters are [unsigned long]; [requests] counts the calls of
    [queueModule->requestPacket()], [phys] and [upper] are what was sent. *)
Record t : Type := mk {
  connected : bool;
  disabled : bool;
  promiscuous : bool;
  address : MACAddress.t;
  txQueueLimit : Z;
  duplexMode : bool;
  carrierExtension : bool;
  frameBursting : bool;
  txrate : spec_float;
  bitTime : Z;
  slotTime : Z;
  interFrameGap : Z;
  jamDuration : Z;
  shortestFrameDuration : Z;
  transmitState : TransmitState;
  receiveState : ReceiveState;
  pauseUnitsRequested : Z;
  txQueue : list EtherFrame;
  queueModule : bool;
  hasSubscribers : bool;
  endTxMsg : option Z;
  endIFGMsg : option Z;
  endPauseMsg : option Z;
  framesSentInBurst : Z;
  bytesSentInBurst : Z;
  numFramesSent : Z;
  numFramesReceivedOK : Z;
  numBytesSent : Z;
  numBytesReceivedOK : Z;
  numFramesFromHL : Z;
  numDroppedIfaceDown : Z;
  numDroppedBitError : Z;
  numDroppedNotForUs : Z;
  numFramesPassedToHL : Z;
  numPauseFramesRcvd : Z;
  numPauseFramesSent : Z;
  clock : Z;
  requests : Z;
  fired : list (Z * option EtherFrame);
  phys : list Signal;
  upper : list EtherFrame
}.
#[global] Instance eta : Eta t := fun s =>
  {| connected := connected s; disabled := disabled s; promiscuous := promiscuous s; address := address s;
     txQueueLimit := txQueueLimit s; duplexMode := duplexMode s; carrierExtension := carrierExtension s;
     frameBursting := frameBursting s; txrate := txrate s; bitTime := bitTime s; slotTime := slotTime s;
     interFrameGap := interFrameGap s; jamDuration := jamDuration s; shortestFrameDuration := shortestFrameDuration s;
     transmitState := transmitState s; receiveState := receiveState s; pauseUnitsRequested := pauseUnitsRequested s;
     txQueue := txQueue s; queueModule := queueModule s; hasSubscribers := hasSubscribers s; endTxMsg := endTxMsg s;
     endIFGMsg := endIFGMsg s; endPauseMsg := endPauseMsg s; framesSentInBurst := framesSentInBurst s;
     bytesSentInBurst := bytesSentInBurst s; numFramesSent := numFramesSent s; numFramesReceivedOK := numFramesReceivedOK s;
     numBytesSent := numBytesSent s; numBytesReceivedOK := numBytesReceivedOK s; numFramesFromHL := numFramesFromHL s;
     numDroppedIfaceDown := numDroppedIfaceDown s; numDroppedBitError := numDroppedBitError s;
     numDroppedNotForUs := numDroppedNotForUs s; numFramesPassedToHL := numFramesPassedToHL s;
     numPauseFramesRcvd := numPauseFramesRcvd s; numPauseFramesSent := numPauseFramesSent s; clock := clock s;
     requests := requests s; fired := fired s; phys := phys s; upper := upper s |}.

Definition send_phys (x : Signal) : Eff t unit := modify (fun s => s <| phys := phys s ++ [x] |>).

(** ** Timers *)
Definition already_scheduled {S A} : Eff S A := fail (RuntimeError "scheduleAt(): message is already scheduled").

Definition scheduleEndIFGPeriod : Eff t unit :=
  let! e := gets endIFGMsg in
  match e with
  | Some _ => already_scheduled
  | None => modify (fun s => s <| endIFGMsg := Some (clock s + interFrameGap s) |> <| transmitState := WAIT_IFG_STATE |>)
  end.

Definition scheduleEndTxPeriod (frame : EtherFrame) : Eff t unit :=
  let! e := gets endTxMsg in
  match e with
  | Some _ => already_scheduled
  | None => modify (fun s => s <| endTxMsg := Some (clock s + 8 * fr_length frame * bitTime s) |>
                               <| transmitState := TRANSMITTING_STATE |>)
  end.

Definition scheduleEndPausePeriod (pauseUnits : Z) : Eff t unit :=
  let! e := gets endPauseMsg in
  match e with
  | Some _ => already_scheduled
  | None => modify (fun s => s <| endPauseMsg := Some (clock s + i32 (pauseUnits * PAUSE_BITTIME) * bitTime s) |>
                               <| transmitState := PAUSE_STATE |>)
  end.

Definition checkAndScheduleEndPausePeriod : Eff t bool :=
  let! n := gets pauseUnitsRequested in
  if 0 <? n then
    scheduleEndPausePeriod n ;;;
    modify (fun s => s <| pauseUnitsRequested := 0 |>) ;;;
    ret true
  else ret false.

Definition requestPacket : Eff t unit := modify (fun s => s <| requests := requests s + 1 |>).

Definition beginSendFrames : Eff t unit :=
  let! q := gets txQueue in
  match q with
  | _ :: _ => scheduleEndIFGPeriod
  | [] =>
      modify (fun s => s <| transmitState := TX_IDLE_STATE |>) ;;;
      let! b := gets queueModule in
      when b requestPacket
  end.

(** ** Frames from above *)
Definition processFrameFromUpperLayer (frame : EtherFrame) : Eff t unit :=
  let! a := gets address in
  if MACAddress.equals (fr_dest frame) a then fail (RuntimeError "logic error: frame has local MAC address as dest") else
  if MAX_ETHERNET_FRAME <? fr_length frame then fail (RuntimeError "packet exceeds maximum Ethernet frame size") else
  match fr_pauseTime frame with
  | None =>
      modify (fun s => s <| numFramesFromHL := numFramesFromHL s + 1 |>) ;;;
      let! limit := gets txQueueLimit in
      let! q := gets txQueue in
      if negb (limit =? 0) && (limit <? Z.of_nat (length q)) then fail (RuntimeError "txQueue length exceeds limit") else
      let frame := if MACAddress.isUnspecified (fr_src frame) then frame <| fr_src := a |> else frame in
      modify (fun s => s <| txQueue := txQueue s ++ [frame] |>)
  | Some _ => modify (fun s => s <| txQueue := frame :: txQueue s |>)
  end.

(** ** Reception *)
Definition checkDestinationAddress (frame : EtherFrame) : Eff t bool :=
  let! s := gets id in
  if negb (promiscuous s) && negb (MACAddress.isBroadcast (fr_dest frame)) && negb (MACAddress.equals (fr_dest frame) (address s))
  then modify (fun s => s <| numDroppedNotForUs := numDroppedNotForUs s + 1 |>) ;;; ret false
  else ret true.

Definition processMsgFromNetwork (msg : Signal) (sendingTime : Z) : Eff t unit :=
  match msg with
  | SigAutoconfig _ _ => fail (RuntimeError "message with unexpected message class arrived from network")
  | _ =>
      let! s := gets id in
      if negb (duplexMode s) && (shortestFrameDuration s <=? clock s - sendingTime)
      then fail (RuntimeError "very long frame propagation time detected")
      else ret tt
  end.

Definition processReceivedDataFrame (frame : EtherFrame) (bitError : bool) : Eff t unit :=
  if bitError then modify (fun s => s <| numDroppedBitError := numDroppedBitError s + 1 |>) else
  let frame := frame <| fr_length := fr_length frame - PREAMBLE_BYTES - SFD_BYTES |> in
  modify (fun s => s <| numFramesReceivedOK := numFramesReceivedOK s + 1 |>
                     <| numBytesReceivedOK := numBytesReceivedOK s + fr_length frame |>) ;;;
  let! b := checkDestinationAddress frame in
  if negb b then ret tt else
  modify (fun s => s <| numFramesPassedToHL := numFramesPassedToHL s + 1 |>) ;;;
  modify (fun s => s <| upper := upper s ++ [frame] |>).

Definition processPauseCommand (pauseUnits : Z) : Eff t unit :=
  let! st := gets transmitState in
  match st with
  | TX_IDLE_STATE => when (0 <? pauseUnits) (scheduleEndPausePeriod pauseUnits)
  | PAUSE_STATE =>
      modify (fun s => s <| endPauseMsg := None |>) ;;;
      when (0 <? pauseUnits) (scheduleEndPausePeriod pauseUnits)
  | _ => modify (fun s => s <| pauseUnitsRequested := pauseUnits |>)
  end.

Definition frameReceptionComplete (frame : EtherFrame) (bitError : bool) : Eff t unit :=
  match fr_pauseTime frame with
  | Some pauseUnits =>
      modify (fun s => s <| numPauseFramesRcvd := numPauseFramesRcvd s + 1 |>) ;;;
      processPauseCommand pauseUnits
  | None => processReceivedDataFrame frame bitError
  end.

(** ** Transmission *)
(** The frame at the front of the queue is extended in place. *)
Definition extend_front : Eff t unit :=
  modify (fun s => s <| txQueue :=
    match txQueue s with
    | f :: rest => (if carrierExtension s && (fr_length f <? GIGABIT_MIN_FRAME_WITH_EXT)
                    then f <| fr_length := GIGABIT_MIN_FRAME_WITH_EXT |> else f) :: rest
    | [] => []
    end |>).

Definition handleEndIFGPeriod : Eff t unit :=
  let! s := gets id in
  if negb (bool_decide (transmitState s = WAIT_IFG_STATE)) then fail (RuntimeError "Not in WAIT_IFG_STATE at the end of IFG period") else
  match txQueue s with
  | [] => fail (RuntimeError "End of IFG and no frame to transmit")
  | _ :: _ =>
      extend_front ;;;
      when (frameBursting s) (modify (fun s => s <| framesSentInBurst := 0 |> <| bytesSentInBurst := 0 |>))
  end.

Definition handleEndTxPeriod : Eff t unit :=
  let! s := gets id in
  if negb (bool_decide (transmitState s = TRANSMITTING_STATE)) ||
     (negb (duplexMode s) && negb (bool_decide (receiveState s = RX_IDLE_STATE)))
  then fail (RuntimeError "End of transmission, and incorrect state detected") else
  match txQueue s with
  | [] => fail (RuntimeError "Frame under transmission cannot be found")
  | frame :: rest =>
      modify (fun s => s <| txQueue := rest |> <| numFramesSent := numFramesSent s + 1 |>
                         <| numBytesSent := numBytesSent s + fr_length frame |>) ;;;
      match fr_pauseTime frame with
      | Some _ => modify (fun s => s <| numPauseFramesSent := numPauseFramesSent s + 1 |>)
      | None => ret tt
      end
  end.

Definition handleEndPausePeriod : Eff t unit :=
  let! st := gets transmitState in
  if negb (bool_decide (st = PAUSE_STATE)) then fail (RuntimeError "At end of PAUSE not in PAUSE_STATE!")
  else beginSendFrames.

Definition processMessageWhenNotConnected : Eff t unit :=
  modify (fun s => s <| numDroppedIfaceDown := numDroppedIfaceDown s + 1 |>).

(** ** Parameters *)
Definition standard_rate (r : spec_float) : bool :=
  SFeqb r ETHERNET_TXRATE || SFeqb r FAST_ETHERNET_TXRATE || SFeqb r GIGABIT_ETHERNET_TXRATE || SFeqb r FAST_GIGABIT_ETHERNET_TXRATE.

Definition calculateParameters (simtime_of : spec_float -> Z) : Eff t unit :=
  let! s := gets id in
  if disabled s || negb (connected s) then
    modify (fun s => s <| bitTime := 0 |> <| slotTime := 0 |> <| interFrameGap := 0 |> <| jamDuration := 0 |>
      <| shortestFrameDuration := 0 |> <| carrierExtension := false |> <| frameBursting := false |>)
  else if negb (standard_rate (txrate s)) then fail (RuntimeError "nonstandard transmission rate") else
  let bit := simtime_of (double_div (double_of_int 1) (txrate s)) in
  let slot := simtime_of (if SFeqb (txrate s) ETHERNET_TXRATE || SFeqb (txrate s) FAST_ETHERNET_TXRATE
                          then SLOT_TIME else GIGABIT_SLOT_TIME) in
  let ext := (slot =? simtime_of GIGABIT_SLOT_TIME) && negb (duplexMode s) in
  modify (fun s => s <| bitTime := bit |> <| slotTime := slot |>
    <| frameBursting := SFeqb (txrate s) GIGABIT_ETHERNET_TXRATE || SFeqb (txrate s) FAST_GIGABIT_ETHERNET_TXRATE |>
    <| carrierExtension := ext |>
    <| interFrameGap := simtime_of (double_div (double_of_int INTERFRAME_GAP_BITS) (txrate s)) |>
    <| jamDuration := 8 * JAM_SIGNAL_BYTES * bit |>
    <| shortestFrameDuration := simtime_of (double_of_int (if ext then GIGABIT_MIN_FRAME_WITH_EXT else MIN_ETHERNET_FRAME)) |>).

(** [initialize]: the address is the parsed or generated one.
    [initializeNotificationBoard] runs before the interface entry is created and does
    nothing but clear [hasSubscribers]. *)
Definition initialize (isConnected prom hasQueue : bool) (addr : MACAddress.t) (rate : spec_float) (limit now : Z) : t :=
  {| connected := isConnected; disabled := false; promiscuous := prom; address := addr; txQueueLimit := limit;
     duplexMode := false; carrierExtension := false; frameBursting := false; txrate := rate; bitTime := 0; slotTime := 0;
     interFrameGap := 0; jamDuration := 0; shortestFrameDuration := 0; transmitState := TX_IDLE_STATE;
     receiveState := RX_IDLE_STATE; pauseUnitsRequested := 0; txQueue := []; queueModule := hasQueue;
     hasSubscribers := false; endTxMsg := None; endIFGMsg := None; endPauseMsg := None; framesSentInBurst := 0;
     bytesSentInBurst := 0; numFramesSent := 0; numFramesReceivedOK := 0; numBytesSent := 0; numBytesReceivedOK := 0;
     numFramesFromHL := 0; numDroppedIfaceDown := 0; numDroppedBitError := 0; numDroppedNotForUs := 0;
     numFramesPassedToHL := 0; numPauseFramesRcvd := 0; numPauseFramesSent := 0; clock := now;
     requests := if hasQueue then 1 else 0; fired := []; phys := []; upper := [] |}.
End EtherMACBase.

(** ** [EtherMAC] *)
Module EtherMAC.
Import EtherMACBase.

Record t : Type := mk {
  base : EtherMACBase.t;
  par_txrate : spec_float;
  par_duplexEnabled : bool;
  autoconfigInProgress : bool;
  lowestTxrateSuggested : spec_float;
  duplexVetoed : bool;
  endAutoconfigMsg : option Z;
  backoffs : Z;
  numConcurrentTransmissions : Z;
  frameBeingReceived : option (EtherFrame * bool);
  endRxMsg : option Z;
  endBackoffMsg : option Z;
  endJammingMsg : option Z;
  totalCollisionTime : Z;
  totalSuccessfulRxTxTime : Z;
  channelBusySince : Z;
  numCollisions : Z;
  numBackoffs : Z
}.
#[global] Instance eta : Eta t := fun s =>
  {| base := base s; par_txrate := par_txrate s; par_duplexEnabled := par_duplexEnabled s;
     autoconfigInProgress := autoconfigInProgress s; lowestTxrateSuggested := lowestTxrateSuggested s;
     duplexVetoed := duplexVetoed s; endAutoconfigMsg := endAutoconfigMsg s; backoffs := backoffs s;
     numConcurrentTransmissions := numConcurrentTransmissions s; frameBeingReceived := frameBeingReceived s;
     endRxMsg := endRxMsg s; endBackoffMsg := endBackoffMsg s; endJammingMsg := endJammingMsg s;
     totalCollisionTime := totalCollisionTime s; totalSuccessfulRxTxTime := totalSuccessfulRxTxTime s;
     channelBusySince := channelBusySince s; numCollisions := numCollisions s; numBackoffs := numBackoffs s |}.

Definition on_base {A} (m : Eff EtherMACBase.t A) : Eff t A := fun s =>
  match m (base s) with Ok a b => Ok a (s <| base := b |>) | Err e => Err e end.
Definition set_base (f : EtherMACBase.t -> EtherMACBase.t) : Eff t unit := modify (fun s => s <| base := f (base s) |>).
Definition base_of {A} (f : EtherMACBase.t -> A) : Eff t A := gets (fun s => f (base s)).

(** ** Timers *)
Definition scheduleEndRx (time : Z) : Eff t unit :=
  let! e := gets endRxMsg in
  match e with Some _ => already_scheduled | None => modify (fun s => s <| endRxMsg := Some time |>) end.

Definition scheduleEndRxPeriod (bits : Z) : Eff t unit :=
  let! b := gets base in
  scheduleEndRx (clock b + bits * bitTime b) ;;;
  set_base (fun b => b <| receiveState := RECEIVING_STATE |>).

Definition sendJamSignal : Eff t unit :=
  on_base (send_phys (SigJam JAM_SIGNAL_BYTES)) ;;;
  let! e := gets endJammingMsg in
  match e with
  | Some _ => already_scheduled
  | None => modify (fun s => s <| endJammingMsg := Some (clock (base s) + jamDuration (base s)) |>)
  end ;;;
  set_base (fun b => b <| transmitState := JAMMING_STATE |>).

(** ** Collisions

    [intuniform n] is the random number from 0 to [n]. *)
Definition handleRetransmission (intuniform : Z -> Z) : Eff t unit :=
  modify (fun s => s <| backoffs := i32 (backoffs s + 1) |>) ;;;
  let! n := gets backoffs in
  if MAX_ATTEMPTS <? n then
    let! q := base_of txQueue in
    match q with
    | [] => fail (RuntimeError "cQueue::pop(): queue empty")
    | _ :: rest =>
        set_base (fun b => b <| txQueue := rest |> <| transmitState := TX_IDLE_STATE |>) ;;;
        modify (fun s => s <| backoffs := 0 |>)
    end
  else
    let backoffrange := if BACKOFF_RANGE_LIMIT <=? n then 1024 else Z.shiftl 1 n in
    let slotNumber := intuniform (backoffrange - 1) in
    let! e := gets endBackoffMsg in
    match e with
    | Some _ => already_scheduled
    | None => modify (fun s => s <| endBackoffMsg := Some (clock (base s) + slotNumber * slotTime (base s)) |>)
    end ;;;
    set_base (fun b => b <| transmitState := BACKOFF_STATE |>) ;;;
    modify (fun s => s <| numBackoffs := numBackoffs s + 1 |>).

(** The frame being received is given up. *)
Definition drop_reception : Eff t unit :=
  let! st := base_of receiveState in
  when (bool_decide (st = RECEIVING_STATE))
    (modify (fun s => s <| frameBeingReceived := None |> <| numCollisions := numCollisions s + 1 |>)).

Definition startFrameTransmission : Eff t unit :=
  let! q := base_of txQueue in
  match q with
  | [] => fail (NullPointer "txQueue.front()")
  | origFrame :: _ =>
      let frame := origFrame <| fr_length := fr_length origFrame + PREAMBLE_BYTES + SFD_BYTES |> in
      on_base (send_phys (SigFrame frame false)) ;;;
      let! burst := base_of frameBursting in
      when burst (set_base (fun b => b <| bytesSentInBurst := fr_length frame |>
                                       <| framesSentInBurst := framesSentInBurst b + 1 |>)) ;;;
      let! b := gets base in
      if negb (duplexMode b) && negb (bool_decide (receiveState b = RX_IDLE_STATE)) then
        sendJamSignal ;;;
        drop_reception ;;;
        set_base (fun b => b <| receiveState := RX_COLLISION_STATE |>)
      else
        on_base (scheduleEndTxPeriod frame) ;;;
        when (negb (duplexMode b)) (modify (fun s => s <| channelBusySince := clock (base s) |>))
  end.

(** ** Frames from above and from the network *)
Definition processFrameFromUpperLayer (frame : EtherFrame) : Eff t unit :=
  on_base (EtherMACBase.processFrameFromUpperLayer frame) ;;;
  let! s := gets id in
  when (negb (autoconfigInProgress s) && (duplexMode (base s) || bool_decide (receiveState (base s) = RX_IDLE_STATE)) &&
        bool_decide (transmitState (base s) = TX_IDLE_STATE))
    (on_base scheduleEndIFGPeriod).

Definition is_jam (msg : Signal) : bool := match msg with SigJam _ => true | _ => false end.

(** [frameBeingReceived = (EtherFrame * )msg] *)
Definition as_frame (msg : Signal) : option (EtherFrame * bool) :=
  match msg with SigFrame f e => Some (f, e) | _ => None end.

(** [frameReceptionComplete] of the frame that was being received. *)
Definition complete_reception : Eff t unit :=
  let! f := gets frameBeingReceived in
  modify (fun s => s <| frameBeingReceived := None |>) ;;;
  match f with
  | Some (frame, err) => on_base (frameReceptionComplete frame err)
  | None => fail (NullPointer "frameBeingReceived")
  end.

Definition processMsgFromNetwork (msg : Signal) (sendingTime : Z) : Eff t unit :=
  on_base (EtherMACBase.processMsgFromNetwork msg sendingTime) ;;;
  let! s := gets id in
  let b := base s in
  let endRxTime := clock b + signal_bits msg * bitTime b in
  if negb (duplexMode b) && bool_decide (transmitState b = TRANSMITTING_STATE) then
    if is_jam msg then fail (RuntimeError "Stray jam signal arrived while transmitting") else
    set_base (fun b => b <| endTxMsg := None |>) ;;;
    sendJamSignal ;;;
    set_base (fun b => b <| receiveState := RX_COLLISION_STATE |>) ;;;
    modify (fun s => s <| numConcurrentTransmissions := numConcurrentTransmissions s + 1 |>) ;;;
    let endJamTime := clock b + jamDuration b in
    scheduleEndRx (if endRxTime <? endJamTime then endJamTime else endRxTime) ;;;
    modify (fun s => s <| numCollisions := numCollisions s + 1 |>)
  else if bool_decide (receiveState b = RX_IDLE_STATE) then
    if is_jam msg then fail (RuntimeError "Stray jam signal arrived") else
    modify (fun s => s <| numConcurrentTransmissions := numConcurrentTransmissions s + 1 |>) ;;;
    match frameBeingReceived s with
    | Some _ => fail (RuntimeError "frameBeingReceived!=0 in RX_IDLE_STATE")
    | None =>
        modify (fun s => s <| frameBeingReceived := as_frame msg |>) ;;;
        scheduleEndRxPeriod (signal_bits msg) ;;;
        modify (fun s => s <| channelBusySince := clock (base s) |>)
    end
  else if bool_decide (receiveState b = RECEIVING_STATE) && negb (is_jam msg) &&
          match endRxMsg s with Some time => time - clock b <? bitTime b | None => false end then
    modify (fun s => s <| endRxMsg := None |>) ;;;
    complete_reception ;;;
    modify (fun s => s <| frameBeingReceived := as_frame msg |>) ;;;
    scheduleEndRxPeriod (signal_bits msg)
  else
    (if is_jam msg then
       if numConcurrentTransmissions s <=? 0 then fail (RuntimeError "numConcurrentTransmissions on jam arrival (stray jam?)") else
       modify (fun s => s <| numConcurrentTransmissions := numConcurrentTransmissions s - 1 |>) ;;;
       when (numConcurrentTransmissions s - 1 =? 0)
         (modify (fun s => s <| endRxMsg := None |>) ;;; scheduleEndRx endRxTime)
     else
       modify (fun s => s <| numConcurrentTransmissions := numConcurrentTransmissions s + 1 |>) ;;;
       match endRxMsg s with
       | Some time => when (time <? endRxTime)
                        (modify (fun s => s <| endRxMsg := None |>) ;;; scheduleEndRx endRxTime)
       | None => ret tt
       end) ;;;
    drop_reception ;;;
    set_base (fun b => b <| receiveState := RX_COLLISION_STATE |>).

(** ** Ends of periods *)
Definition handleEndIFGPeriod : Eff t unit :=
  on_base EtherMACBase.handleEndIFGPeriod ;;;
  on_base extend_front ;;;
  startFrameTransmission.

Definition handleEndTxPeriod : Eff t unit :=
  on_base EtherMACBase.handleEndTxPeriod ;;;
  let! duplex := base_of duplexMode in
  when (negb duplex) (modify (fun s => s <| totalSuccessfulRxTxTime :=
    totalSuccessfulRxTxTime s + (clock (base s) - channelBusySince s) |>)) ;;;
  modify (fun s => s <| backoffs := 0 |>) ;;;
  let! paused := on_base checkAndScheduleEndPausePeriod in
  if paused then ret tt else
  let! b := gets base in
  if frameBursting b && negb (bool_decide (txQueue b = [])) && (bytesSentInBurst b <? GIGABIT_MAX_BURST_BYTES)
  then startFrameTransmission
  else on_base beginSendFrames.

Definition handleEndRxPeriod : Eff t unit :=
  let! s := gets id in
  let dt := clock (base s) - channelBusySince s in
  (if bool_decide (receiveState (base s) = RECEIVING_STATE) then
     complete_reception ;;;
     modify (fun s => s <| totalSuccessfulRxTxTime := totalSuccessfulRxTxTime s + dt |>)
   else modify (fun s => s <| totalCollisionTime := totalCollisionTime s + dt |>)) ;;;
  set_base (fun b => b <| receiveState := RX_IDLE_STATE |>) ;;;
  modify (fun s => s <| numConcurrentTransmissions := 0 |>) ;;;
  let! b := gets base in
  when (bool_decide (transmitState b = TX_IDLE_STATE) && negb (bool_decide (txQueue b = []))) (on_base scheduleEndIFGPeriod).

Definition handleEndBackoffPeriod : Eff t unit :=
  let! b := gets base in
  if negb (bool_decide (transmitState b = BACKOFF_STATE)) then fail (RuntimeError "At end of BACKOFF not in BACKOFF_STATE!") else
  if bool_decide (txQueue b = []) then fail (RuntimeError "At end of BACKOFF and buffer empty!") else
  if bool_decide (receiveState b = RX_IDLE_STATE) then on_base scheduleEndIFGPeriod
  else set_base (fun b => b <| transmitState := TX_IDLE_STATE |>).

Definition handleEndJammingPeriod (intuniform : Z -> Z) : Eff t unit :=
  let! st := base_of transmitState in
  if negb (bool_decide (st = JAMMING_STATE)) then fail (RuntimeError "At end of JAMMING not in JAMMING_STATE!")
  else handleRetransmission intuniform.

(** ** Autoconfiguration *)
Definition AUTOCONFIG_PERIOD : spec_float := double_div (double_of_int 1) (double_of_int 1000).

Definition positive_rate (r : spec_float) : bool := SFltb (double_of_int 0) r.
Definition zero_rate (r : spec_float) : bool := SFeqb r (double_of_int 0).

Definition startAutoconfig (simtime_of : spec_float -> Z) : Eff t unit :=
  modify (fun s => s <| autoconfigInProgress := true |> <| lowestTxrateSuggested := double_of_int 0 |> <| duplexVetoed := false |>) ;;;
  let! s := gets id in
  set_base (fun b => b <| txrate := double_of_int 0 |> <| duplexMode := par_duplexEnabled s |>) ;;;
  when (negb (par_duplexEnabled s) || positive_rate (par_txrate s))
    (on_base (send_phys (SigAutoconfig (if positive_rate (par_txrate s) then par_txrate s else double_of_int 0)
                                       (negb (par_duplexEnabled s))))) ;;;
  modify (fun s => s <| endAutoconfigMsg := Some (clock (base s) + simtime_of AUTOCONFIG_PERIOD) |>).

(** The rate chosen at the end of the period. *)
Definition chosen_rate (initialTxrate lowest : spec_float) : spec_float :=
  if zero_rate initialTxrate && zero_rate lowest then double_of_int 100000000 else
  if zero_rate initialTxrate then lowest else
  if zero_rate lowest then initialTxrate else
  if SFltb lowest initialTxrate then lowest else initialTxrate.

Inductive Kind : Type := ENDIFG | ENDRECEPTION | ENDBACKOFF | ENDTRANSMISSION | ENDJAMMING | ENDPAUSE | ENDAUTOCONFIG.
Inductive Message : Type :=
  | FromUpperLayer (frame : EtherFrame)
  | FromPhys (msg : Signal) (sendingTime : Z)
  | SelfMessage (kind : Kind).

Definition handleAutoconfigMessage (simtime_of : spec_float -> Z) (msg : Message) : Eff t unit :=
  match msg with
  | FromUpperLayer frame => processFrameFromUpperLayer frame
  | FromPhys (SigAutoconfig acTxrate halfDuplex) _ =>
      modify (fun s => s <| lowestTxrateSuggested :=
        if positive_rate acTxrate && (SFltb acTxrate (lowestTxrateSuggested s) || zero_rate (lowestTxrateSuggested s))
        then acTxrate else lowestTxrateSuggested s |>) ;;;
      modify (fun s => s <| duplexVetoed := duplexVetoed s || halfDuplex |>)
  | FromPhys _ _ => fail (RuntimeError "check_and_cast: cannot cast to EtherAutoconfig")
  | SelfMessage _ =>
      modify (fun s => s <| autoconfigInProgress := false |>) ;;;
      let! s := gets id in
      set_base (fun b => b <| txrate := chosen_rate (par_txrate s) (lowestTxrateSuggested s) |>
                           <| duplexMode := par_duplexEnabled s && negb (duplexVetoed s) |>) ;;;
      on_base (calculateParameters simtime_of) ;;;
      let! q := base_of txQueue in
      when (negb (bool_decide (q = []))) (on_base scheduleEndIFGPeriod)
  end.

(** ** The module *)
(** A message that arrives is no longer scheduled. *)
Definition unschedule (k : Kind) : Eff t unit :=
  match k with
  | ENDIFG => set_base (fun b => b <| endIFGMsg := None |>)
  | ENDTRANSMISSION => set_base (fun b => b <| endTxMsg := None |>)
  | ENDPAUSE => set_base (fun b => b <| endPauseMsg := None |>)
  | ENDRECEPTION => modify (fun s => s <| endRxMsg := None |>)
  | ENDBACKOFF => modify (fun s => s <| endBackoffMsg := None |>)
  | ENDJAMMING => modify (fun s => s <| endJammingMsg := None |>)
  | ENDAUTOCONFIG => modify (fun s => s <| endAutoconfigMsg := None |>)
  end.

Definition handleMessage (simtime_of : spec_float -> Z) (intuniform : Z -> Z) (msg : Message) : Eff t unit :=
  match msg with SelfMessage k => unschedule k | _ => ret tt end ;;;
  let! s := gets id in
  if disabled (base s) then ret tt else
  if autoconfigInProgress s then handleAutoconfigMessage simtime_of msg else
  if negb (duplexMode (base s)) && bool_decide (transmitState (base s) = TRANSMITTING_STATE) &&
     negb (bool_decide (receiveState (base s) = RX_IDLE_STATE))
  then fail (RuntimeError "Inconsistent state -- transmitting and receiving at the same time") else
  match msg with
  | FromUpperLayer frame => processFrameFromUpperLayer frame
  | FromPhys m sendingTime => processMsgFromNetwork m sendingTime
  | SelfMessage ENDIFG => handleEndIFGPeriod
  | SelfMessage ENDTRANSMISSION => handleEndTxPeriod
  | SelfMessage ENDRECEPTION => handleEndRxPeriod
  | SelfMessage ENDBACKOFF => handleEndBackoffPeriod
  | SelfMessage ENDJAMMING => handleEndJammingPeriod intuniform
  | SelfMessage ENDPAUSE => on_base handleEndPausePeriod
  | SelfMessage ENDAUTOCONFIG => fail (RuntimeError "self-message with unexpected message kind")
  end.

(** [initialize], once the check that no channel has a data rate has passed. *)
Definition initialize (simtime_of : spec_float -> Z) (b : EtherMACBase.t) (duplexEnabled : bool) : Eff unit t := fun u =>
  let s := {| base := b; par_txrate := txrate b; par_duplexEnabled := duplexEnabled; autoconfigInProgress := false;
              lowestTxrateSuggested := double_of_int 0; duplexVetoed := false; endAutoconfigMsg := None; backoffs := 0;
              numConcurrentTransmissions := 0; frameBeingReceived := None; endRxMsg := None; endBackoffMsg := None;
              endJammingMsg := None; totalCollisionTime := 0; totalSuccessfulRxTxTime := 0; channelBusySince := 0;
              numCollisions := 0; numBackoffs := 0 |} in
  match (if negb (disabled b) && connected b then startAutoconfig simtime_of
         else set_base (fun b => b <| duplexMode := duplexEnabled |>) ;;; on_base (calculateParameters simtime_of)) s with
  | Ok _ s => Ok s u
  | Err e => Err e
  end.
End EtherMAC.

(** ** [EtherMAC2] *)
Module EtherMAC2.
Import EtherMACBase.

Definition fire (category : Z) (frame : option EtherFrame) : Eff t unit :=
  let! b := gets hasSubscribers in
  when b (modify (fun s => s <| fired := fired s ++ [(category, frame)] |>)).

Definition startFrameTransmission : Eff t unit :=
  let! q := gets txQueue in
  match q with
  | [] => fail (NullPointer "txQueue.front()")
  | origFrame :: _ =>
      let frame := origFrame <| fr_length := fr_length origFrame + PREAMBLE_BYTES + SFD_BYTES |> in
      fire NotificationBoard.NF_PP_TX_BEGIN (Some frame) ;;;
      let! a := gets address in
      let frame := if MACAddress.isUnspecified (fr_src frame) then frame <| fr_src := a |> else frame in
      send_phys (SigFrame frame false) ;;;
      scheduleEndTxPeriod frame ;;;
      let! burst := gets frameBursting in
      when burst (modify (fun s => s <| bytesSentInBurst := fr_length frame |> <| framesSentInBurst := framesSentInBurst s + 1 |>))
  end.

Definition processFrameFromUpperLayer (frame : EtherFrame) : Eff t unit :=
  EtherMACBase.processFrameFromUpperLayer frame ;;;
  let! st := gets transmitState in
  when (bool_decide (st = TX_IDLE_STATE)) startFrameTransmission.

Definition processMsgFromNetwork (frame : EtherFrame) (bitError : bool) (sendingTime : Z) : Eff t unit :=
  EtherMACBase.processMsgFromNetwork (SigFrame frame bitError) sendingTime ;;;
  fire NotificationBoard.NF_PP_RX_END (Some frame) ;;;
  let! b := checkDestinationAddress frame in
  when b (frameReceptionComplete frame bitError).

Definition handleEndIFGPeriod : Eff t unit :=
  EtherMACBase.handleEndIFGPeriod ;;;
  startFrameTransmission.

Definition handleEndTxPeriod : Eff t unit :=
  let! q := gets txQueue in
  fire NotificationBoard.NF_PP_TX_END (head q) ;;;
  let! paused := checkAndScheduleEndPausePeriod in
  if paused then ret tt else
  EtherMACBase.handleEndTxPeriod ;;;
  beginSendFrames.

Inductive Message : Type :=
  | EndTx | EndIFG | EndPause
  | FromUpperLayer (frame : EtherFrame)
  | FromPhys (frame : EtherFrame) (bitError : bool) (sendingTime : Z).

Definition unschedule (msg : Message) : Eff t unit :=
  match msg with
  | EndTx => modify (fun s => s <| endTxMsg := None |>)
  | EndIFG => modify (fun s => s <| endIFGMsg := None |>)
  | EndPause => modify (fun s => s <| endPauseMsg := None |>)
  | _ => ret tt
  end.

Definition handleMessage (msg : Message) : Eff t unit :=
  unschedule msg ;;;
  let! s := gets id in
  if negb (connected s) then processMessageWhenNotConnected else
  if disabled s then ret tt else
  match msg with
  | EndTx => handleEndTxPeriod
  | EndIFG => handleEndIFGPeriod
  | EndPause => handleEndPausePeriod
  | FromUpperLayer frame => processFrameFromUpperLayer frame
  | FromPhys frame bitError sendingTime => processMsgFromNetwork frame bitError sendingTime
  end.

(** [initialize]; [datarate] is that of the channel of a connected MAC. *)
Definition initialize (simtime_of : spec_float -> Z) (isConnected prom hasQueue : bool) (addr : MACAddress.t)
    (datarate : spec_float) (limit now : Z) : Eff unit t := fun u =>
  let rate := if isConnected then datarate else double_of_int 0 in
  let s := EtherMACBase.initialize isConnected prom hasQueue addr rate limit now in
  match (modify (fun s => s <| duplexMode := true |>) ;;; calculateParameters simtime_of ;;; beginSendFrames) s with
  | Ok _ s => Ok s u
  | Err e => Err e
  end.
End EtherMAC2.
