(* ===== verification/EtherMacSpec.v ===== *)
(** * The states of the Ethernet MAC

    The states of the transmitter and of the receiver, the timers and the queue of
    [EtherMAC] stay consistent: none of the checks of the code for a wrong state can
    fail. *)
From Stdlib Require Import String SpecFloat.
From S2P Require Import Prelude MachineFloat MACAddress EtherSwitch EtherMac.
Import EtherMACBase EtherMAC.

(** ** Errors that are not the fault of the MAC *)
Definition misuse (e : Error) : Prop :=
  e ∈ [RuntimeError "logic error: frame has local MAC address as dest";
       RuntimeError "packet exceeds maximum Ethernet frame size";
       RuntimeError "txQueue length exceeds limit";
       RuntimeError "message with unexpected message class arrived from network";
       RuntimeError "very long frame propagation time detected";
       RuntimeError "nonstandard transmission rate";
       RuntimeError "Stray jam signal arrived while transmitting";
       RuntimeError "Stray jam signal arrived";
       RuntimeError "numConcurrentTransmissions on jam arrival (stray jam?)";
       RuntimeError "check_and_cast: cannot cast to EtherAutoconfig"].

(** Runs to a state with [Q], or stops with such an error. *)
Definition safe {S A} (m : Eff S A) (Q : A -> S -> Prop) (s : S) : Prop :=
  match m s with Ok a s' => Q a s' | Err e => misuse e end.

Section Safe.
Context {S : Type}.
Lemma safe_ret {A} (a : A) (Q : A -> S -> Prop) s : Q a s -> safe (ret a) Q s.
Proof. done. Qed.
Lemma safe_seq {A B} (m : Eff S A) (k : A -> Eff S B) Q s :
  safe m (fun a s' => safe (k a) Q s') s -> safe (bind m k) Q s.
Proof. unfold safe, bind. by destruct (m s). Qed.
Lemma safe_gets {A} (f : S -> A) (Q : A -> S -> Prop) s : Q (f s) s -> safe (gets f) Q s.
Proof. done. Qed.
Lemma safe_modify f (Q : unit -> S -> Prop) s : Q tt (f s) -> safe (modify f) Q s.
Proof. done. Qed.
Lemma safe_when (b : bool) (m : Eff S unit) Q s : (b = true -> safe m Q s) -> (b = false -> Q tt s) -> safe (when b m) Q s.
Proof. destruct b; cbn [when]; [auto|]. intros _ HQ. by apply HQ. Qed.
Lemma safe_fail {A} e (Q : A -> S -> Prop) s : misuse e -> safe (fail e) Q s.
Proof. done. Qed.
Lemma safe_mono {A} (m : Eff S A) (P Q : A -> S -> Prop) s :
  safe m P s -> (forall a s', P a s' -> Q a s') -> safe m Q s.
Proof. unfold safe. destruct (m s); auto. Qed.
End Safe.

Lemma safe_on_base {A} (m : Eff EtherMACBase.t A) Q s :
  safe m (fun a b => Q a (s <| base := b |>)) (base s) -> safe (on_base m) Q s.
Proof. unfold safe, on_base. by destruct (m (base s)). Qed.

Lemma safe_on_base_inv {A} (m : Eff EtherMACBase.t A) Q s :
  safe (on_base m) Q s -> safe m (fun a b => Q a (s <| base := b |>)) (base s).
Proof. unfold safe, on_base. by destruct (m (base s)). Qed.

(** ** The invariant *)
Definition scheduled (timer : option Z) : bool := match timer with Some _ => true | None => false end.

Record mac_ok (s : t) : Prop := {
  ok_ifg : scheduled (endIFGMsg (base s)) = bool_decide (transmitState (base s) = WAIT_IFG_STATE);
  ok_tx : scheduled (endTxMsg (base s)) = bool_decide (transmitState (base s) = TRANSMITTING_STATE);
  ok_jam : scheduled (endJammingMsg s) = bool_decide (transmitState (base s) = JAMMING_STATE);
  ok_backoff : scheduled (endBackoffMsg s) = bool_decide (transmitState (base s) = BACKOFF_STATE);
  ok_pause : scheduled (endPauseMsg (base s)) = true -> transmitState (base s) = PAUSE_STATE;
  ok_rx : scheduled (endRxMsg s) = negb (bool_decide (receiveState (base s) = RX_IDLE_STATE));
  ok_receiving : match frameBeingReceived s with Some _ => true | None => false end = bool_decide (receiveState (base s) = RECEIVING_STATE);
  ok_queue : transmitState (base s) <> TX_IDLE_STATE -> transmitState (base s) <> PAUSE_STATE -> txQueue (base s) <> [];
  ok_half : duplexMode (base s) = false -> transmitState (base s) = TRANSMITTING_STATE -> receiveState (base s) = RX_IDLE_STATE;
  ok_backoffs : 0 <= backoffs s <= MAX_ATTEMPTS;
  ok_autoconfig : scheduled (endAutoconfigMsg s) = autoconfigInProgress s;
  ok_quiet : autoconfigInProgress s = true -> transmitState (base s) = TX_IDLE_STATE /\ receiveState (base s) = RX_IDLE_STATE;
  ok_enabled : disabled (base s) = false
}.

(** Whether the message of a timer can arrive. *)
Definition pending (s : t) (k : Kind) : bool :=
  match k with
  | ENDIFG => scheduled (endIFGMsg (base s))
  | ENDTRANSMISSION => scheduled (endTxMsg (base s))
  | ENDPAUSE => scheduled (endPauseMsg (base s))
  | ENDRECEPTION => scheduled (endRxMsg s)
  | ENDBACKOFF => scheduled (endBackoffMsg s)
  | ENDJAMMING => scheduled (endJammingMsg s)
  | ENDAUTOCONFIG => scheduled (endAutoconfigMsg s)
  end.

Ltac safe_step :=
  lazymatch goal with
  | |- safe (bind _ _) _ _ => apply safe_seq
  | |- safe (on_base _) _ _ => apply safe_on_base
  | |- safe (base_of _) _ _ => unfold base_of
  | |- safe (set_base _) _ _ => unfold set_base
  | |- safe (gets _) _ _ => apply safe_gets
  | |- safe (modify _) _ _ => apply safe_modify
  | |- safe (ret _) _ _ => apply safe_ret
  | |- safe (fail _) _ _ => apply safe_fail; unfold misuse; set_solver
  end; cbn beta.
Ltac safe_walk := repeat safe_step.

Lemma not_scheduled (o : option Z) : scheduled o = false -> o = None.
Proof. by destruct o. Qed.

(** The invariant looks at these fields and whether there is something to send. *)
Definition control (s : t) :=
  let b := base s in
  (endIFGMsg b, endTxMsg b, endPauseMsg b, transmitState b, receiveState b, duplexMode b, disabled b,
   (endJammingMsg s, endBackoffMsg s, endRxMsg s, frameBeingReceived s, backoffs s, endAutoconfigMsg s, autoconfigInProgress s)).

Lemma mac_ok_control s s' :
  mac_ok s -> control s' = control s -> (txQueue (base s) <> [] -> txQueue (base s') <> []) -> mac_ok s'.
Proof.
  intros Hok Hc Hq. unfold control in Hc. cbn zeta in Hc. injection Hc as H1 H2 H3 H4 H5 H6 H7 H8 H9 H10 H11 H12 H13 H14.
  destruct Hok as [Hifg Htx Hjam Hback Hpause Hrx Hrec Hqueue Hhalf Hbo Hauto Hquiet Hen].
  split; rewrite ?H1, ?H2, ?H3, ?H4, ?H5, ?H6, ?H7, ?H8, ?H9, ?H10, ?H11, ?H12, ?H13, ?H14; auto.
Qed.

(** ** Between two states of the transmitter

    The transmitter has no timer running; the rest is in order. *)
Definition tx_free (s : t) : Prop :=
  endIFGMsg (base s) = None /\ endTxMsg (base s) = None /\ endPauseMsg (base s) = None /\
  endJammingMsg s = None /\ endBackoffMsg s = None.

Record rest_ok (s : t) : Prop := {
  ro_rx : scheduled (endRxMsg s) = negb (bool_decide (receiveState (base s) = RX_IDLE_STATE));
  ro_receiving : match frameBeingReceived s with Some _ => true | None => false end = bool_decide (receiveState (base s) = RECEIVING_STATE);
  ro_backoffs : 0 <= backoffs s <= MAX_ATTEMPTS;
  ro_autoconfig : endAutoconfigMsg s = None /\ autoconfigInProgress s = false;
  ro_enabled : disabled (base s) = false
}.

Lemma mac_rest s : mac_ok s -> autoconfigInProgress s = false -> rest_ok s.
Proof.
  intros Hok Ha. split; try apply Hok. split; [|done]. apply not_scheduled. by rewrite (ok_autoconfig _ Hok).
Qed.

Lemma timer_free (o : option Z) (P : Prop) `{Decision P} : scheduled o = bool_decide P -> ~ P -> o = None.
Proof. intros Ho HP. apply not_scheduled. rewrite Ho. by apply bool_decide_eq_false_2. Qed.

(** The timers other than that of the state are free. *)
Lemma mac_timers s : mac_ok s ->
  (transmitState (base s) <> WAIT_IFG_STATE -> endIFGMsg (base s) = None) /\
  (transmitState (base s) <> TRANSMITTING_STATE -> endTxMsg (base s) = None) /\
  (transmitState (base s) <> PAUSE_STATE -> endPauseMsg (base s) = None) /\
  (transmitState (base s) <> JAMMING_STATE -> endJammingMsg s = None) /\
  (transmitState (base s) <> BACKOFF_STATE -> endBackoffMsg s = None).
Proof.
  intros Hok. split_and!; intros Hst.
  - eapply timer_free; [apply Hok|done].
  - eapply timer_free; [apply Hok|done].
  - destruct (endPauseMsg (base s)) as [z|] eqn:E; [|done]. destruct Hst. apply Hok. by rewrite E.
  - eapply timer_free; [apply Hok|done].
  - eapply timer_free; [apply Hok|done].
Qed.

Lemma idle_free s : mac_ok s -> transmitState (base s) = TX_IDLE_STATE -> tx_free s.
Proof. intros Hok Hst. destruct (mac_timers s Hok) as (H1 & H2 & H3 & H4 & H5). rewrite Hst in *. split_and!; auto. Qed.

(** The transmitter enters a state with its timer. *)
Ltac enter Hfree Hrest :=
  destruct Hfree as (Hf1 & Hf2 & Hf3 & Hf4 & Hf5); destruct Hrest as [Hr1 Hr2 Hr3 [Hr4 Hr5] Hr6];
  split; cbn; rewrite ?Hf1, ?Hf2, ?Hf3, ?Hf4, ?Hf5, ?Hr4, ?Hr5; done.

Lemma free_ifg s : tx_free s -> rest_ok s -> txQueue (base s) <> [] ->
  safe (on_base scheduleEndIFGPeriod) (fun _ => mac_ok) s.
Proof.
  intros Hfree Hrest Hq. unfold scheduleEndIFGPeriod. safe_walk. rewrite (proj1 Hfree). safe_walk. enter Hfree Hrest.
Qed.

Lemma free_idle s : tx_free s -> rest_ok s -> mac_ok (s <| base := (base s) <| transmitState := TX_IDLE_STATE |> |>).
Proof. intros Hfree Hrest. enter Hfree Hrest. Qed.

Lemma free_begin s : tx_free s -> rest_ok s -> safe (on_base beginSendFrames) (fun _ => mac_ok) s.
Proof.
  intros Hfree Hrest. unfold beginSendFrames. destruct (txQueue (base s)) as [|f q] eqn:Hq.
  - safe_walk. rewrite Hq. safe_walk. cbn. pose proof (free_idle s Hfree Hrest) as Hok.
    destruct (queueModule (base s)); cbn [when]; [unfold requestPacket|]; safe_walk; [|exact Hok].
    by apply (mac_ok_control _ _ Hok).
  - pose proof (free_ifg s Hfree Hrest) as Hs. rewrite Hq in Hs. specialize (Hs ltac:(done)).
    safe_walk. rewrite Hq. by apply safe_on_base_inv in Hs.
Qed.

Lemma free_pause n s : tx_free s -> rest_ok s -> safe (on_base (scheduleEndPausePeriod n)) (fun _ => mac_ok) s.
Proof.
  intros Hfree Hrest. unfold scheduleEndPausePeriod. safe_walk. rewrite (proj1 (proj2 (proj2 Hfree))). safe_walk. enter Hfree Hrest.
Qed.

Lemma jam_safe Q s : endJammingMsg s = None ->
  Q tt (s <| base := (base s) <| phys := phys (base s) ++ [SigJam JAM_SIGNAL_BYTES] |> <| transmitState := JAMMING_STATE |> |>
          <| endJammingMsg := Some (clock (base s) + jamDuration (base s)) |>) ->
  safe sendJamSignal Q s.
Proof.
  intros Hj HQ. unfold sendJamSignal, send_phys. safe_walk. cbn. rewrite Hj. safe_walk. exact HQ.
Qed.

Lemma free_start s : tx_free s -> rest_ok s -> txQueue (base s) <> [] -> safe startFrameTransmission (fun _ => mac_ok) s.
Proof.
  intros Hfree Hrest Hq. unfold startFrameTransmission, send_phys. safe_walk. destruct (txQueue (base s)) as [|f q] eqn:E; [done|].
  safe_walk. cbn.
  match goal with |- safe (when ?b ?m) ?Q ?x => enough (forall y, control y = control x -> txQueue (base y) = txQueue (base x) -> Q tt y) as Hgo end.
  { destruct (frameBursting (base s)); cbn [when]; safe_walk; by apply Hgo. }
  intros y Hc Hqy. safe_walk. unfold control in Hc. cbn in Hc, Hqy. injection Hc as H1 H2 H3 H4 H5 H6 H7 H8 H9 H10 H11 H12 H13 H14.
  destruct Hfree as (Hf1 & Hf2 & Hf3 & Hf4 & Hf5); destruct Hrest as [Hr1 Hr2 Hr3 [Hr4 Hr5] Hr6].
  destruct (negb (duplexMode (base y)) && negb (bool_decide (receiveState (base y) = RX_IDLE_STATE))) eqn:Hcol.
  - apply safe_seq, jam_safe; [congruence|]. apply andb_true_iff in Hcol as [Hd%negb_true_iff Hnr%negb_true_iff].
    unfold drop_reception. safe_walk. cbn.
    assert (scheduled (endRxMsg s) = true) as Hrxs by (rewrite Hr1, <- H5; by apply negb_true_iff, Hnr).
    destruct (bool_decide (receiveState (base y) = RECEIVING_STATE)) eqn:Hrec; cbn [when]; safe_walk;
      (split; cbn; rewrite ?H1, ?H2, ?H3, ?H8, ?H9, ?H10, ?H11, ?H12, ?H13, ?H14, ?Hqy, ?E, ?Hf1, ?Hf2, ?Hf3, ?Hf5, ?Hr4, ?Hr5, ?H7; try done; try congruence).
    by rewrite Hr2, <- H5, Hrec.
  - unfold scheduleEndTxPeriod. safe_walk. rewrite H2, Hf2. safe_walk.
    assert (duplexMode (base y) = false -> receiveState (base y) = RX_IDLE_STATE) as Hh.
    { intros Hd. rewrite Hd in Hcol. cbn in Hcol. apply negb_false_iff, bool_decide_eq_true_1 in Hcol. done. }
    destruct (negb (duplexMode (base y))); cbn [when]; safe_walk;
      (split; cbn; rewrite ?H1, ?H3, ?H5, ?H8, ?H9, ?H10, ?H11, ?H12, ?H13, ?H14, ?Hqy, ?E, ?Hf1, ?Hf3, ?Hf4, ?Hf5, ?Hr4, ?Hr5, ?H7; try done; try congruence);
      intros; rewrite <- H5; by apply Hh.
Qed.

Lemma free_retransmission r s : tx_free s -> rest_ok s -> txQueue (base s) <> [] ->
  safe (handleRetransmission r) (fun _ => mac_ok) s.
Proof.
  intros Hfree Hrest Hq. unfold handleRetransmission. pose proof (ro_backoffs _ Hrest) as Hb. unfold MAX_ATTEMPTS in *.
  safe_walk. cbn -[i32 Z.ltb Z.leb]. rewrite i32_small by lia. destruct (Z.ltb_spec 16 (backoffs s + 1)) as [Hmax|Hmax].
  - safe_walk. cbn. destruct (txQueue (base s)) as [|f q]; [done|]. safe_walk.
    enter Hfree Hrest.
  - safe_walk. cbn. rewrite (proj2 (proj2 (proj2 (proj2 Hfree)))). safe_walk.
    destruct Hfree as (Hf1 & Hf2 & Hf3 & Hf4 & Hf5); destruct Hrest as [Hr1 Hr2 Hr3 [Hr4 Hr5] Hr6].
    split; cbn -[i32]; rewrite ?Hf1, ?Hf2, ?Hf3, ?Hf4, ?Hr4, ?Hr5; try done. unfold MAX_ATTEMPTS. lia.
Qed.

(** The invariant after the message of timer [k] has arrived. *)
Definition unscheduled (k : Kind) (s : t) : t :=
  match unschedule k s with Ok _ s' => s' | Err _ => s end.

Lemma fired_free k s : mac_ok s -> pending s k = true -> autoconfigInProgress s = false ->
  match k with ENDRECEPTION | ENDAUTOCONFIG => True | _ => tx_free (unscheduled k s) /\ rest_ok (unscheduled k s) end /\
  match k with
  | ENDIFG => transmitState (base s) = WAIT_IFG_STATE | ENDTRANSMISSION => transmitState (base s) = TRANSMITTING_STATE
  | ENDPAUSE => transmitState (base s) = PAUSE_STATE | ENDBACKOFF => transmitState (base s) = BACKOFF_STATE
  | ENDJAMMING => transmitState (base s) = JAMMING_STATE | ENDRECEPTION => receiveState (base s) <> RX_IDLE_STATE
  | ENDAUTOCONFIG => False
  end.
Proof.
  intros Hok Hp Ha. pose proof (mac_rest s Hok Ha) as Hr. destruct (mac_timers s Hok) as (H1 & H2 & H3 & H4 & H5).
  assert (rest_ok (unscheduled k s) \/ k = ENDRECEPTION \/ k = ENDAUTOCONFIG) as Hr'.
  { destruct Hr as [Hr1 Hr2 Hr3 [Hr4 Hr5] Hr6]. destruct k; try (right; by left); try (right; by right); left; by split. }
  destruct k; cbn [pending] in Hp.
  - rewrite (ok_ifg _ Hok) in Hp. apply bool_decide_eq_true_1 in Hp. split; [|done]. rewrite Hp in *. split; [split_and!; cbn; auto|naive_solver].
  - rewrite (ok_rx _ Hok) in Hp. split; [done|]. intros Hi. by rewrite Hi in Hp.
  - rewrite (ok_backoff _ Hok) in Hp. apply bool_decide_eq_true_1 in Hp. split; [|done]. rewrite Hp in *. split; [split_and!; cbn; auto|naive_solver].
  - rewrite (ok_tx _ Hok) in Hp. apply bool_decide_eq_true_1 in Hp. split; [|done]. rewrite Hp in *. split; [split_and!; cbn; auto|naive_solver].
  - rewrite (ok_jam _ Hok) in Hp. apply bool_decide_eq_true_1 in Hp. split; [|done]. rewrite Hp in *. split; [split_and!; cbn; auto|naive_solver].
  - apply (ok_pause _ Hok) in Hp. split; [|done]. rewrite Hp in *. split; [split_and!; cbn; auto|naive_solver].
  - rewrite (ok_autoconfig _ Hok) in Hp. congruence.
Qed.

Lemma tx_free_control s s' : control s' = control s -> tx_free s -> tx_free s'.
Proof. unfold control, tx_free. cbn zeta. intros [= -> -> -> _ _ _ _ -> -> _ _ _ _ _]. done. Qed.
Lemma rest_control s s' : control s' = control s -> rest_ok s -> rest_ok s'.
Proof.
  unfold control. cbn zeta. intros [= _ _ _ _ H5 _ H7 _ _ H10 H11 H12 H13 H14] [Hr1 Hr2 Hr3 Hr4 Hr6].
  split; rewrite ?H5, ?H7, ?H10, ?H11, ?H12, ?H13, ?H14; done.
Qed.

Lemma end_ifg_safe s : mac_ok s -> pending s ENDIFG = true -> autoconfigInProgress s = false ->
  safe handleEndIFGPeriod (fun _ => mac_ok) (unscheduled ENDIFG s).
Proof.
  intros Hok Hp Ha. destruct (fired_free ENDIFG s Hok Hp Ha) as [[Hf Hr] Hst].
  assert (txQueue (base s) <> []) as Hq by (apply (ok_queue _ Hok); congruence).
  unfold handleEndIFGPeriod, EtherMACBase.handleEndIFGPeriod, extend_front. safe_walk. cbn.
  rewrite Hst. cbn. destruct (txQueue (base s)) as [|f q] eqn:E; [done|]. safe_walk.
  set (s1 := unscheduled ENDIFG s) in *.
  assert (forall y, control y = control s1 -> txQueue (base y) <> [] -> safe startFrameTransmission (fun _ => mac_ok) y) as Hgo.
  { intros y Hc Hy. apply free_start; [by eapply tx_free_control|by eapply rest_control|done]. }
  destruct (frameBursting (base s)); cbn [when]; safe_walk; (apply Hgo; [done|]); cbn; rewrite ?E; done.
Qed.

Lemma end_tx_safe s : mac_ok s -> pending s ENDTRANSMISSION = true -> autoconfigInProgress s = false ->
  safe handleEndTxPeriod (fun _ => mac_ok) (unscheduled ENDTRANSMISSION s).
Proof.
  intros Hok Hp Ha. destruct (fired_free ENDTRANSMISSION s Hok Hp Ha) as [[Hf Hr] Hst].
  assert (txQueue (base s) <> []) as Hq by (apply (ok_queue _ Hok); congruence).
  unfold handleEndTxPeriod, EtherMACBase.handleEndTxPeriod. safe_walk. cbn. rewrite Hst. cbn.
  assert (negb (duplexMode (base s)) && negb (bool_decide (receiveState (base s) = RX_IDLE_STATE)) = false) as ->.
  { destruct (duplexMode (base s)) eqn:Hd; [done|]. by rewrite (ok_half _ Hok Hd Hst). }
  rewrite bool_decide_eq_true_2 by done. cbn [negb orb]. destruct (txQueue (base s)) as [|f q] eqn:E; [done|]. safe_walk.
  set (s1 := unscheduled ENDTRANSMISSION s) in *.
  match goal with |- safe (match fr_pauseTime f with _ => _ end) ?Q ?x =>
    enough (forall y, control (s1 <| base := y |>) = control s1 -> Q tt y) as Hgo end.
  { destruct (fr_pauseTime f); [apply safe_modify|apply safe_ret]; by apply Hgo. }
  intros y Hc. cbn beta. safe_walk. cbn.
  match goal with |- safe (when ?b ?m) ?Q ?x => enough (forall z, control z = control s1 -> Q tt z) as Hgo' end.
  { destruct (negb (duplexMode y)); cbn [when]; [apply safe_modify|apply safe_ret]; by apply Hgo'. }
  clear y Hc. intros z Hc. cbn beta. safe_walk.
  set (z' := z <| backoffs := 0 |>).
  assert (tx_free z') as Hf' by (apply (tx_free_control _ _ Hc) in Hf; exact Hf).
  assert (rest_ok z') as Hr'. { apply (rest_control _ _ Hc) in Hr as [Hr1 Hr2 Hr3 Hr4 Hr6]. by split. }
  unfold checkAndScheduleEndPausePeriod. safe_walk. destruct (0 <? pauseUnitsRequested (base z')).
  - pose proof (free_pause (pauseUnitsRequested (base z')) z' Hf' Hr') as Hs. safe_walk.
    unfold safe, on_base in Hs. unfold safe at 1. destruct (scheduleEndPausePeriod _ _) as [[] y|]; [|done].
    safe_walk. by apply (mac_ok_control _ _ Hs).
  - safe_walk. replace (z' <| base := base z' |>) with z' by by destruct z'.
    destruct (frameBursting (base z') && negb (bool_decide (txQueue (base z') = [])) && (bytesSentInBurst (base z') <? GIGABIT_MAX_BURST_BYTES)) eqn:Hb.
    + apply free_start; [done..|]. apply andb_true_iff in Hb as [[_ Hb%negb_true_iff]%andb_true_iff _].
      by apply bool_decide_eq_false_1 in Hb.
    + by apply free_begin.
Qed.

(** ** The receiver *)
(** What a received frame does to the transmitter: nothing, or it starts, restarts
    or stops a pause. *)
Inductive pause_effect (b b' : EtherMACBase.t) : Prop :=
  | pe_none : transmitState b' = transmitState b -> endPauseMsg b' = endPauseMsg b -> pause_effect b b'
  | pe_start time : transmitState b = TX_IDLE_STATE \/ transmitState b = PAUSE_STATE -> transmitState b' = PAUSE_STATE ->
      endPauseMsg b' = Some time -> pause_effect b b'
  | pe_stop : transmitState b = PAUSE_STATE -> transmitState b' = PAUSE_STATE -> endPauseMsg b' = None -> pause_effect b b'.

Definition other_fields (b : EtherMACBase.t) :=
  (endIFGMsg b, endTxMsg b, receiveState b, duplexMode b, disabled b, txQueue b, phys b).

Lemma pause_command n b (Q : unit -> EtherMACBase.t -> Prop) :
  (transmitState b = TX_IDLE_STATE -> endPauseMsg b = None) ->
  (forall b', other_fields b' = other_fields b -> pause_effect b b' -> Q tt b') -> safe (processPauseCommand n) Q b.
Proof.
  intros Hn HQ. unfold processPauseCommand, scheduleEndPausePeriod. safe_walk.
  destruct (transmitState b) eqn:Hst; safe_walk; try (apply HQ; [done|]; apply pe_none; done).
  - destruct (0 <? n); cbn [when]; safe_walk; [rewrite (Hn eq_refl); safe_walk|].
    + apply HQ; [done|]. eapply pe_start; [by left|done|done].
    + apply HQ; [done|]. by apply pe_none.
  - destruct (0 <? n); cbn [when]; safe_walk.
    + cbn. safe_walk. apply HQ; [done|]. eapply pe_start; [by right|done|done].
    + apply HQ; [done|]. by apply pe_stop.
Qed.

Lemma reception_safe f e b (Q : unit -> EtherMACBase.t -> Prop) :
  (transmitState b = TX_IDLE_STATE -> endPauseMsg b = None) ->
  (forall b', other_fields b' = other_fields b -> pause_effect b b' -> Q tt b') -> safe (frameReceptionComplete f e) Q b.
Proof.
  intros Hn HQ. unfold frameReceptionComplete. destruct (fr_pauseTime f) as [n|]; safe_walk.
  - apply pause_command; [done|]. intros b' Hb' Hp. apply HQ; [done|].
    destruct Hp; [by apply pe_none|by eapply pe_start|by apply pe_stop].
  - unfold processReceivedDataFrame, checkDestinationAddress. destruct e; safe_walk.
    { apply HQ; [done|by apply pe_none]. }
    match goal with |- safe (if ?c then _ else _) _ _ => destruct c end; safe_walk; cbn [negb]; safe_walk; apply HQ; try done; by apply pe_none.
Qed.

(** The invariant of the transmitter survives a pause. *)
Lemma pause_effect_ok s s' b' :
  mac_ok s -> autoconfigInProgress s = false ->
  control s' = control (s <| base := b' |> <| frameBeingReceived := frameBeingReceived s' |> <| endRxMsg := endRxMsg s' |>) ->
  txQueue (base s') = txQueue b' ->
  scheduled (endRxMsg s') = negb (bool_decide (receiveState (base s') = RX_IDLE_STATE)) ->
  match frameBeingReceived s' with Some _ => true | None => false end = bool_decide (receiveState (base s') = RECEIVING_STATE) ->
  endIFGMsg b' = endIFGMsg (base s) -> endTxMsg b' = endTxMsg (base s) -> duplexMode b' = duplexMode (base s) ->
  disabled b' = disabled (base s) -> txQueue b' = txQueue (base s) ->
  (duplexMode (base s) = false -> transmitState b' = TRANSMITTING_STATE -> receiveState b' = RX_IDLE_STATE) ->
  pause_effect (base s) b' -> mac_ok s'.
Proof.
  intros Hok Ha Hc Hq Hrx Hrec Hifg Htx Hd Hdis Hq' Hhalf Hp. unfold control in Hc. cbn in Hc.
  injection Hc as H1 H2 H3 H4 H5 H6 H7 H8 H9 H12 H13 H14.
  destruct (mac_timers s Hok) as (T1 & T2 & T3 & T4 & T5).
  assert (scheduled (endIFGMsg b') = bool_decide (transmitState b' = WAIT_IFG_STATE) /\
          scheduled (endTxMsg b') = bool_decide (transmitState b' = TRANSMITTING_STATE) /\
          scheduled (endJammingMsg s) = bool_decide (transmitState b' = JAMMING_STATE) /\
          scheduled (endBackoffMsg s) = bool_decide (transmitState b' = BACKOFF_STATE) /\
          (scheduled (endPauseMsg b') = true -> transmitState b' = PAUSE_STATE) /\
          (transmitState b' <> TX_IDLE_STATE -> transmitState b' <> PAUSE_STATE -> txQueue b' <> [])) as (B1 & B2 & B3 & B4 & B5 & B6).
  { rewrite Hifg, Htx, Hq'. destruct Hp as [Hst Hpm|time Hst Hst' Hpm|Hst Hst' Hpm].
    - rewrite Hst, Hpm. split_and!; apply Hok.
    - rewrite Hst', Hpm. rewrite T1, T2, T4, T5 by (destruct Hst; congruence). done.
    - rewrite Hst', Hpm. rewrite T1, T2, T4, T5 by congruence. done. }
  split; rewrite ?H1, ?H2, ?H3, ?H4, ?H6, ?H7, ?H8, ?H9, ?H12, ?H13, ?H14, ?Hq; try done; try apply Hok.
  - rewrite H5, Hd. apply Hhalf.
  - by rewrite Ha.
  - rewrite Hdis. apply Hok.
Qed.

Lemma pause_effect_state b b' b'' : transmitState b'' = transmitState b' -> endPauseMsg b'' = endPauseMsg b' ->
  pause_effect b b' -> pause_effect b b''.
Proof.
  intros H1 H2 Hp. destruct Hp; [apply pe_none; congruence|eapply pe_start; [done|congruence|rewrite H2; eassumption]|apply pe_stop; congruence].
Qed.

Lemma idle_no_pause s : mac_ok s -> transmitState (base s) = TX_IDLE_STATE -> endPauseMsg (base s) = None.
Proof. intros Hok Hst. destruct (mac_timers s Hok) as (_ & _ & H & _). apply H. congruence. Qed.

Lemma end_rx_safe s : mac_ok s -> pending s ENDRECEPTION = true -> autoconfigInProgress s = false ->
  safe handleEndRxPeriod (fun _ => mac_ok) (unscheduled ENDRECEPTION s).
Proof.
  intros Hok Hp Ha. destruct (fired_free ENDRECEPTION s Hok Hp Ha) as [_ Hst].
  assert (forall y b', frameBeingReceived y = None -> endRxMsg y = None -> base y = b' ->
    (endJammingMsg y, endBackoffMsg y, backoffs y, endAutoconfigMsg y, autoconfigInProgress y) =
    (endJammingMsg s, endBackoffMsg s, backoffs s, endAutoconfigMsg s, autoconfigInProgress s) ->
    other_fields b' = other_fields (base s) -> pause_effect (base s) b' ->
    safe (set_base (fun b => b <| receiveState := RX_IDLE_STATE |>) ;;;
      modify (fun s => s <| numConcurrentTransmissions := 0 |>) ;;;
      let! b := gets base in
      when (bool_decide (transmitState b = TX_IDLE_STATE) && negb (bool_decide (txQueue b = []))) (on_base scheduleEndIFGPeriod))
      (fun _ => mac_ok) y) as Hgo.
  { intros y b' Hf He Hb [= J1 J2 J3 J4 J5] Ho Hpe. safe_walk. cbn.
    set (z := y <| base := (base y) <| receiveState := RX_IDLE_STATE |> |> <| numConcurrentTransmissions := 0 |>).
    unfold other_fields in Ho. injection Ho as O1 O2 O3 O4 O5 O6 O7.
    assert (mac_ok z) as Hz.
    { eapply (pause_effect_ok s z (b' <| receiveState := RX_IDLE_STATE |>)); try done; cbn.
      - unfold control. cbn. rewrite Hb, J1, J2, J3, J4, J5. done.
      - by rewrite Hb.
      - by rewrite He.
      - by rewrite Hf.
      - by eapply pause_effect_state; [| |exact Hpe]. }
    destruct (bool_decide (transmitState (base y) = TX_IDLE_STATE) && negb (bool_decide (txQueue (base y) = []))) eqn:Hc; cbn [when]; [|exact Hz].
    apply andb_true_iff in Hc as [Hi%bool_decide_eq_true_1 Hq%negb_true_iff%bool_decide_eq_false_1].
    apply (free_ifg z); [by apply idle_free|apply mac_rest; [done|cbn; congruence]|done]. }
  unfold handleEndRxPeriod. safe_walk. cbn.
  destruct (bool_decide (receiveState (base s) = RECEIVING_STATE)) eqn:Hrec.
  - pose proof (ok_receiving _ Hok) as Hfb. rewrite Hrec in Hfb. unfold complete_reception. safe_walk. cbn.
    destruct (frameBeingReceived s) as [[f e]|]; [|done]. safe_walk.
    apply reception_safe; [cbn; by apply idle_no_pause|]. cbn. intros b' Ho Hpe. by eapply Hgo.
  - apply safe_modify. eapply Hgo; try done; [|by apply pe_none]. cbn. pose proof (ok_receiving _ Hok) as Hfb. rewrite Hrec in Hfb.
    by destruct (frameBeingReceived s).
Qed.

Lemma end_backoff_safe s : mac_ok s -> pending s ENDBACKOFF = true -> autoconfigInProgress s = false ->
  safe handleEndBackoffPeriod (fun _ => mac_ok) (unscheduled ENDBACKOFF s).
Proof.
  intros Hok Hp Ha. destruct (fired_free ENDBACKOFF s Hok Hp Ha) as [[Hf Hr] Hst].
  assert (txQueue (base s) <> []) as Hq by (apply (ok_queue _ Hok); congruence).
  unfold handleEndBackoffPeriod. safe_walk. cbn. rewrite Hst, bool_decide_eq_true_2, bool_decide_eq_false_2 by done. cbn [negb].
  case_bool_decide.
  - by apply free_ifg.
  - safe_walk. by apply free_idle.
Qed.

Lemma end_jam_safe r s : mac_ok s -> pending s ENDJAMMING = true -> autoconfigInProgress s = false ->
  safe (handleEndJammingPeriod r) (fun _ => mac_ok) (unscheduled ENDJAMMING s).
Proof.
  intros Hok Hp Ha. destruct (fired_free ENDJAMMING s Hok Hp Ha) as [[Hf Hr] Hst].
  unfold handleEndJammingPeriod. safe_walk. cbn. rewrite Hst, bool_decide_eq_true_2 by done. cbn [negb].
  apply free_retransmission; [done..|]. apply (ok_queue _ Hok); congruence.
Qed.

Lemma end_pause_safe s : mac_ok s -> pending s ENDPAUSE = true -> autoconfigInProgress s = false ->
  safe (on_base handleEndPausePeriod) (fun _ => mac_ok) (unscheduled ENDPAUSE s).
Proof.
  intros Hok Hp Ha. destruct (fired_free ENDPAUSE s Hok Hp Ha) as [[Hf Hr] Hst].
  pose proof (free_begin _ Hf Hr) as Hs. unfold handleEndPausePeriod. safe_walk. cbn. rewrite Hst, bool_decide_eq_true_2 by done. cbn [negb].
  by apply safe_on_base_inv in Hs.
Qed.

Lemma upper_safe f s : mac_ok s -> safe (processFrameFromUpperLayer f) (fun _ => mac_ok) s.
Proof.
  intros Hok. unfold processFrameFromUpperLayer, EtherMACBase.processFrameFromUpperLayer. safe_walk.
  destruct (MACAddress.equals (fr_dest f) (address (base s))); [safe_walk|]. destruct (MAX_ETHERNET_FRAME <? fr_length f); [safe_walk|].
  match goal with |- safe _ ?Q _ =>
    enough (forall b', control (s <| base := b' |>) = control s -> txQueue b' <> [] -> Q tt b') as Hgo end.
  { destruct (fr_pauseTime f); [apply safe_modify, Hgo; [done|cbn; done]|]. safe_walk. cbn.
    destruct (negb (txQueueLimit (base s) =? 0) && (txQueueLimit (base s) <? Z.of_nat (length (txQueue (base s))))); [safe_walk|].
    apply safe_modify, Hgo; [done|]. cbn. by destruct (txQueue (base s)). }
  intros b' Hc Hq. cbn beta. safe_walk. cbn.
  assert (mac_ok (s <| base := b' |>)) as Hok' by (by apply (mac_ok_control s)).
  match goal with |- safe (when ?c _) _ _ => destruct c eqn:E end; cbn [when]; [|exact Hok'].
  apply andb_true_iff in E as [[Hau%negb_true_iff _]%andb_true_iff Hi%bool_decide_eq_true_1].
  apply (free_ifg (s <| base := b' |>)); [by apply idle_free|by apply mac_rest|done].
Qed.

(** Equality of tuples, field by field. *)
Ltac by_fields tac := repeat match goal with |- (_, _) = (_, _) => f_equal end; tac.

(** The receiver's side changes, the transmitter's does not. *)
Lemma receiver_ok s s' :
  mac_ok s -> autoconfigInProgress s = false ->
  control s' = control (s <| base := (base s) <| receiveState := receiveState (base s') |> |>
                          <| frameBeingReceived := frameBeingReceived s' |> <| endRxMsg := endRxMsg s' |>) ->
  txQueue (base s') = txQueue (base s) ->
  scheduled (endRxMsg s') = negb (bool_decide (receiveState (base s') = RX_IDLE_STATE)) ->
  match frameBeingReceived s' with Some _ => true | None => false end = bool_decide (receiveState (base s') = RECEIVING_STATE) ->
  (duplexMode (base s) = false -> transmitState (base s) <> TRANSMITTING_STATE) -> mac_ok s'.
Proof.
  intros Hok Ha Hc Hq Hrx Hrec Hh.
  eapply (pause_effect_ok s s' ((base s) <| receiveState := receiveState (base s') |>)); try done.
  - cbn. intros Hd Hst. by destruct (Hh Hd).
  - by apply pe_none.
Qed.

Lemma collision_start s time : mac_ok s -> autoconfigInProgress s = false ->
  duplexMode (base s) = false -> transmitState (base s) = TRANSMITTING_STATE ->
  safe (set_base (fun b => b <| endTxMsg := None |>) ;;;
    sendJamSignal ;;;
    set_base (fun b => b <| receiveState := RX_COLLISION_STATE |>) ;;;
    modify (fun s => s <| numConcurrentTransmissions := numConcurrentTransmissions s + 1 |>) ;;;
    scheduleEndRx time ;;;
    modify (fun s => s <| numCollisions := numCollisions s + 1 |>)) (fun _ => mac_ok) s.
Proof.
  intros Hok Ha Hd Hst. destruct (mac_timers s Hok) as (T1 & T2 & T3 & T4 & T5). rewrite Hst in *.
  pose proof (ok_half _ Hok Hd Hst) as Hri. pose proof (ok_rx _ Hok) as Hrx. pose proof (ok_receiving _ Hok) as Hrec.
  rewrite Hri in Hrx, Hrec. rewrite bool_decide_eq_true_2 in Hrx by done. rewrite bool_decide_eq_false_2 in Hrec by done.
  apply not_scheduled in Hrx.
  apply safe_seq. unfold set_base at 1. apply safe_modify. apply safe_seq, jam_safe; [cbn; by apply T4|].
  safe_walk. cbn. unfold scheduleEndRx. safe_walk. cbn. rewrite Hrx. safe_walk.
  split; cbn; rewrite ?T1, ?T3, ?T5 by done; try done; try apply Hok.
  - intros _ _. apply (ok_queue _ Hok); congruence.
  - by rewrite Ha.
Qed.

Lemma network_safe msg st s : mac_ok s -> autoconfigInProgress s = false ->
  safe (processMsgFromNetwork msg st) (fun _ => mac_ok) s.
Proof.
  intros Hok Ha. unfold processMsgFromNetwork, EtherMACBase.processMsgFromNetwork. safe_walk.
  assert (match msg with SigAutoconfig _ _ => False | _ => True end \/ match msg with SigAutoconfig _ _ => True | _ => False end) as Hm by (destruct msg; auto).
  destruct Hm as [Hm|Hm]; [|destruct msg; [done|done|safe_walk]].
  match goal with |- safe _ ?Q _ => enough (Q tt (base s)) as Hgo end.
  { destruct msg; [| |done]; safe_walk; (match goal with |- safe (if ?c then _ else _) _ _ => destruct c end; [safe_walk|apply safe_ret, Hgo]). }
  cbn beta. replace (s <| base := base s |>) with s by by destruct s. apply safe_seq, safe_gets. cbn beta zeta. cbn [id].
  destruct (negb (duplexMode (base s)) && bool_decide (transmitState (base s) = TRANSMITTING_STATE)) eqn:Hcase.
  { destruct (is_jam msg); [safe_walk|]. apply andb_true_iff in Hcase as [Hd%negb_true_iff Hst%bool_decide_eq_true_1].
    by apply (collision_start s). }
  assert (duplexMode (base s) = false -> transmitState (base s) <> TRANSMITTING_STATE) as Hh.
  { intros Hd Hst. rewrite Hd, Hst, bool_decide_eq_true_2 in Hcase by done. done. }
  pose proof (ok_rx _ Hok) as Hrx. pose proof (ok_receiving _ Hok) as Hrec.
  destruct (bool_decide (receiveState (base s) = RX_IDLE_STATE)) eqn:Hidle.
  { destruct (is_jam msg) eqn:Hj; [safe_walk|]. safe_walk. cbn in Hrx. apply bool_decide_eq_true_1 in Hidle. rewrite Hidle in Hrec.
    rewrite bool_decide_eq_false_2 in Hrec by done. destruct (frameBeingReceived s); [done|]. unfold scheduleEndRxPeriod, scheduleEndRx.
    safe_walk. cbn. rewrite (not_scheduled _ Hrx). safe_walk. apply (receiver_ok s); try done; cbn. by destruct msg. }
  destruct (bool_decide (receiveState (base s) = RECEIVING_STATE) && negb (is_jam msg) &&
    match endRxMsg s with Some time => time - clock (base s) <? bitTime (base s) | None => false end) eqn:Hb2b.
  { apply andb_true_iff in Hb2b as [[Hrs Hnj%negb_true_iff]%andb_true_iff _]. rewrite Hrs in Hrec. apply bool_decide_eq_true_1 in Hrs.
    safe_walk. unfold complete_reception. safe_walk. cbn. destruct (frameBeingReceived s) as [[f e]|]; [|done]. safe_walk.
    apply reception_safe; [cbn; by apply idle_no_pause|]. cbn. intros b' Ho Hpe. unfold scheduleEndRxPeriod, scheduleEndRx. safe_walk. cbn. safe_walk.
    unfold other_fields in Ho. injection Ho as O1 O2 O3 O4 O5 O6 O7.
    eapply (pause_effect_ok s _ (b' <| receiveState := RECEIVING_STATE |>)); try done; cbn.
    - by destruct msg.
    - intros Hd Hst. exfalso. destruct Hpe as [He _|? ? He _|? He _]; [by apply (Hh Hd); rewrite <- He|congruence|congruence].
    - by eapply pause_effect_state; [| |exact Hpe]. }
  cbn [negb] in Hrx.
  assert (forall y, control y = control s \/ (exists time, control y = control (s <| endRxMsg := Some time |>)) -> txQueue (base y) = txQueue (base s) ->
    safe (drop_reception ;;; set_base (fun b => b <| receiveState := RX_COLLISION_STATE |>)) (fun _ => mac_ok) y) as Hgo.
  { intros y Hc Hqy. unfold drop_reception. safe_walk.
    assert (receiveState (base y) = receiveState (base s)) as Hry by (destruct Hc as [Hc|[? Hc]]; by injection Hc).
    assert (scheduled (endRxMsg y) = true) as Hey.
    { destruct Hc as [Hc|[time Hc]]; injection Hc; cbn; intros; [congruence|]. by replace (endRxMsg y) with (Some time). }
    assert (forall z, control z = control (y <| frameBeingReceived := None |>) -> txQueue (base z) = txQueue (base y) ->
      mac_ok (z <| base := (base z) <| receiveState := RX_COLLISION_STATE |> |>)) as Hz.
    { intros z Hcz Hqz. assert (endRxMsg z = endRxMsg y) as Hez by (by injection Hcz).
      apply (receiver_ok s); try done; cbn; [|congruence| |].
      - unfold control in *. cbn in *. destruct Hc as [Hc|[time Hc]]; injection Hc; injection Hcz; intros; by_fields congruence.
      - by rewrite Hez.
      - assert (frameBeingReceived z = None) as -> by (by injection Hcz). done. }
    rewrite Hry. destruct (bool_decide (receiveState (base s) = RECEIVING_STATE)) eqn:Hr; cbn [when]; safe_walk; apply Hz; try done.
    destruct Hc as [Hc|[? Hc]]; unfold control in *; cbn in *; injection Hc; intros; by_fields ltac:(destruct (frameBeingReceived s); congruence). }
  apply safe_seq. destruct (is_jam msg).
  - destruct (numConcurrentTransmissions s <=? 0); [safe_walk|]. apply safe_seq, safe_modify.
    destruct (numConcurrentTransmissions s - 1 =? 0); cbn [when]; [|apply safe_ret, Hgo; [by left|done]].
    unfold scheduleEndRx. apply safe_seq, safe_modify, safe_seq, safe_gets. cbn. apply Hgo; [right; by eexists|done].
  - apply safe_seq, safe_modify. destruct (endRxMsg s) as [time|] eqn:He; [|apply safe_ret, Hgo; [by left|done]].
    match goal with |- safe (when ?c _) _ _ => destruct c end; cbn [when]; [|apply safe_ret, Hgo; [by left|done]].
    unfold scheduleEndRx. apply safe_seq, safe_modify, safe_seq, safe_gets. cbn. apply Hgo; [right; by eexists|done].
Qed.

(** ** The module *)
Definition possible (s : t) (msg : Message) : Prop :=
  match msg with SelfMessage k => pending s k = true | _ => True end.

Lemma autoconfig_safe simtime_of msg s : mac_ok s -> autoconfigInProgress s = true -> possible s msg ->
  safe (handleAutoconfigMessage simtime_of msg) (fun _ => mac_ok) (match msg with SelfMessage k => unscheduled k s | _ => s end).
Proof.
  intros Hok Ha Hp. destruct (ok_quiet _ Hok Ha) as [Htx Hrx]. destruct (idle_free s Hok Htx) as (Hf1 & Hf2 & Hf3 & Hf4 & Hf5).
  pose proof (ok_rx _ Hok) as Hrs. rewrite Hrx, bool_decide_eq_true_2 in Hrs by done. apply not_scheduled in Hrs.
  destruct msg as [f|[f e|n|r h] st|k]; cbn [handleAutoconfigMessage].
  - by apply upper_safe.
  - safe_walk.
  - safe_walk.
  - safe_walk. by apply (mac_ok_control s).
  - assert (k = ENDAUTOCONFIG) as ->.
    { cbn in Hp. destruct k; cbn in Hp; rewrite ?Hf1, ?Hf2, ?Hf3, ?Hf4, ?Hf5, ?Hrs in Hp; done. }
    safe_walk. unfold calculateParameters. safe_walk. cbn.
    assert (forall b', (endIFGMsg b', endTxMsg b', endPauseMsg b', transmitState b', receiveState b', disabled b', txQueue b') =
      (endIFGMsg (base s), endTxMsg (base s), endPauseMsg (base s), transmitState (base s), receiveState (base s), disabled (base s), txQueue (base s)) ->
      safe (let! q := base_of txQueue in when (negb (bool_decide (q = []))) (on_base scheduleEndIFGPeriod)) (fun _ => mac_ok)
        (s <| endAutoconfigMsg := None |> <| autoconfigInProgress := false |> <| base := b' |>)) as Hgo.
    { intros b' [= H1 H2 H3 H4 H5 H6 H7].
      set (y := s <| endAutoconfigMsg := None |> <| autoconfigInProgress := false |> <| base := b' |>).
      assert (tx_free y) as Hf by (split_and!; cbn; congruence).
      assert (rest_ok y) as Hr.
      { split; cbn; rewrite ?H5, ?H6; try apply Hok. done. }
      safe_walk. destruct (bool_decide (txQueue (base y) = [])) eqn:Hq; cbn [negb when].
      - replace y with (y <| base := (base y) <| transmitState := TX_IDLE_STATE |> |>); [by apply free_idle|].
        cbn. rewrite <- Htx, <- H4. unfold y. by destruct b'.
      - apply free_ifg; [done..|]. by apply bool_decide_eq_false_1 in Hq. }
    rewrite (ok_enabled _ Hok). cbn [orb].
    destruct (negb (connected (base s))); [apply safe_modify, Hgo; done|].
    match goal with |- safe (if ?c then _ else _) _ _ => destruct c end; [safe_walk|]. apply safe_modify, Hgo. done.
Qed.

Lemma message_safe simtime_of r msg s : mac_ok s -> possible s msg ->
  safe (handleMessage simtime_of r msg) (fun _ => mac_ok) s.
Proof.
  intros Hok Hp. unfold handleMessage. apply safe_seq.
  set (s1 := match msg with SelfMessage k => unscheduled k s | _ => s end).
  match goal with |- safe _ ?Q _ => enough (Q tt s1) as Hgo end.
  { destruct msg as [f|m st|k]; [apply safe_ret, Hgo|apply safe_ret, Hgo|]. destruct k; apply safe_modify, Hgo. }
  cbn beta. apply safe_seq, safe_gets. cbn [id].
  assert (disabled (base s1) = false /\ autoconfigInProgress s1 = autoconfigInProgress s /\ duplexMode (base s1) = duplexMode (base s) /\
    transmitState (base s1) = transmitState (base s) /\ receiveState (base s1) = receiveState (base s)) as (-> & -> & -> & -> & ->).
  { pose proof (ok_enabled _ Hok). destruct msg as [f|m st|k]; [done|done|]. by destruct k. }
  destruct (autoconfigInProgress s) eqn:Ha; [by apply autoconfig_safe|].
  assert (negb (duplexMode (base s)) && bool_decide (transmitState (base s) = TRANSMITTING_STATE) &&
    negb (bool_decide (receiveState (base s) = RX_IDLE_STATE)) = false) as ->.
  { destruct (duplexMode (base s)) eqn:Hd; [done|]. case_bool_decide as Hst; [|done]. by rewrite (ok_half _ Hok Hd Hst), bool_decide_eq_true_2. }
  destruct msg as [f|m st|[]]; cbn [possible] in Hp.
  - by apply upper_safe.
  - by apply network_safe.
  - by apply end_ifg_safe.
  - by apply end_rx_safe.
  - by apply end_backoff_safe.
  - by apply end_tx_safe.
  - by apply end_jam_safe.
  - by apply end_pause_safe.
  - cbn in Hp. rewrite (ok_autoconfig _ Hok), Ha in Hp. done.
Qed.

(** ** From the start *)
Definition at_time (c : Z) (s : t) : t := s <| base := (base s) <| clock := c |> |>.

Inductive mac_step (simtime_of : spec_float -> Z) (s : t) : t -> Prop :=
  | mac_event c r msg s' : possible s msg -> handleMessage simtime_of r msg (at_time c s) = Ok tt s' -> mac_step simtime_of s s'.

Lemma possible_at c s msg : possible (at_time c s) msg <-> possible s msg.
Proof. destruct msg as [f|m st|k]; [done|done|]. by destruct k. Qed.

Lemma initialize_ok simtime_of conn prom hasQueue addr rate limit now duplexEnabled s :
  initialize simtime_of (EtherMACBase.initialize conn prom hasQueue addr rate limit now) duplexEnabled tt = Ok s tt -> mac_ok s.
Proof.
  unfold initialize. intros Hrun.
  set (b := EtherMACBase.initialize conn prom hasQueue addr rate limit now) in *.
  set (m := if negb (disabled b) && connected b then _ else _) in Hrun.
  match type of Hrun with match m ?x with _ => _ end = _ => assert (safe m (fun _ => mac_ok) x) as Hs end.
  { unfold m. subst b. cbn [negb andb disabled EtherMACBase.initialize]. destruct conn; cbn.
    - unfold startAutoconfig. safe_walk. cbn. match goal with |- safe (when ?c _) _ _ => destruct c end; cbn [when]; unfold send_phys; safe_walk; by split.
    - safe_walk. unfold calculateParameters. safe_walk. cbn. safe_walk. by split. }
  unfold safe in Hs. destruct (m _) as [[] s'|]; [|done]. by injection Hrun as <-.
Qed.

Lemma mac_step_ok simtime_of c r msg s s' : mac_ok s -> possible s msg ->
  handleMessage simtime_of r msg (at_time c s) = Ok tt s' -> mac_ok s'.
Proof.
  intros Hok Hp Hrun. assert (mac_ok (at_time c s)) as Hc by (by apply (mac_ok_control s)).
  pose proof (message_safe simtime_of r msg (at_time c s) Hc (proj2 (possible_at c s msg) Hp)) as Hs.
  unfold safe in Hs. by rewrite Hrun in Hs.
Qed.

Lemma reachable_ok simtime_of conn prom hasQueue addr rate limit now duplexEnabled s0 s :
  initialize simtime_of (EtherMACBase.initialize conn prom hasQueue addr rate limit now) duplexEnabled tt = Ok s0 tt ->
  rtc (mac_step simtime_of) s0 s -> mac_ok s.
Proof.
  intros H0%initialize_ok Hr. induction Hr as [|x y z Hst _ IH]; [done|]. apply IH.
  destruct Hst as [c r msg s' Hp Hrun]. by eapply mac_step_ok.
Qed.

(** C19: In every reachable state of an Ethernet MAC, half or full duplex, the state
    of the transmitter tells which of its timers runs and that there is a frame to
    send; the receiver's timer runs exactly while the channel is busy, and there is a
    frame being received exactly in the receiving state; a half duplex MAC does not
    transmit and receive at once; and no attempt counter exceeds 16.  Whatever
    message comes next, no check of the code for a wrong state fails, no timer is
    scheduled twice and no missing frame is used: what stops the simulation is a
    frame or a signal that should not have been sent to the MAC. *)
Theorem mac_states_consistent simtime_of conn prom hasQueue addr rate limit now duplexEnabled s0 s :
  initialize simtime_of (EtherMACBase.initialize conn prom hasQueue addr rate limit now) duplexEnabled tt = Ok s0 tt ->
  rtc (mac_step simtime_of) s0 s ->
  mac_ok s /\ forall c r msg e, possible s msg -> handleMessage simtime_of r msg (at_time c s) = Err e -> misuse e.
Proof.
  intros H0 Hr. pose proof (reachable_ok _ _ _ _ _ _ _ _ _ _ _ H0 Hr) as Hok.
  split; [done|]. intros c r msg e Hp Hrun. assert (mac_ok (at_time c s)) as Hc by (by apply (mac_ok_control s)).
  pose proof (message_safe simtime_of r msg (at_time c s) Hc (proj2 (possible_at c s msg) Hp)) as Hs.
  unfold safe in Hs. by rewrite Hrun in Hs.
Qed.

(** ** Executions *)
Definition possibleb (s : t) (msg : Message) : bool :=
  match msg with SelfMessage k => pending s k | _ => true end.

Lemma possibleb_spec s msg : possibleb s msg = true -> possible s msg.
Proof. by destruct msg. Qed.

Fixpoint mac_run (simtime_of : spec_float -> Z) (r : Z -> Z) (evs : list (Z * Message)) (s : t) : option t :=
  match evs with
  | [] => Some s
  | (c, msg) :: rest =>
      if possibleb s msg then
        match handleMessage simtime_of r msg (at_time c s) with Ok _ s' => mac_run simtime_of r rest s' | Err _ => None end
      else None
  end.

Lemma mac_run_reaches simtime_of r evs s s' : mac_run simtime_of r evs s = Some s' -> rtc (mac_step simtime_of) s s'.
Proof.
  revert s. induction evs as [|[c msg] rest IH]; cbn; intros s Hr; [by simplify_eq|].
  destruct (possibleb s msg) eqn:Hp; [|done]. apply possibleb_spec in Hp.
  destruct (handleMessage simtime_of r msg (at_time c s)) as [[] s1|] eqn:Hm; [|done].
  eapply rtc_l; [by econstructor|]. by apply IH.
Qed.

(** A MAC at 10 Mb/s in half duplex: times in units of 100 ns. *)
Definition demo_simtime (x : spec_float) : Z :=
  if SFeqb x (double_div (double_of_int 1) ETHERNET_TXRATE) then 1 else 96.
Definition demo_mac : t :=
  match initialize demo_simtime (EtherMACBase.initialize true false false (MACAddress.mk 10 170 0 0 0 1) ETHERNET_TXRATE 0 0) false tt with
  | Ok s _ => s
  | Err _ => EtherMAC.mk (EtherMACBase.initialize true false false (MACAddress.mk 10 170 0 0 0 1) ETHERNET_TXRATE 0 0) ETHERNET_TXRATE false false
      (double_of_int 0) false None 0 0 None None None None 0 0 0 0 0
  end.
Definition demo_data (n : Z) : EtherFrame := mkFrame (MACAddress.mk 10 170 0 0 0 2) (MACAddress.mk 10 170 0 0 0 1) 64 None n.
(** A frame is sent, collides with one that arrives, and waits for its second attempt. *)
Definition demo_events : list (Z * Message) :=
  [(96, SelfMessage ENDAUTOCONFIG); (100, FromUpperLayer (demo_data 1)); (196, SelfMessage ENDIFG);
   (200, FromPhys (SigFrame (demo_data 2) false) 190); (232, SelfMessage ENDJAMMING)].
Definition demo_backoff : t := default demo_mac (mac_run demo_simtime (fun n => n) demo_events demo_mac).

Lemma demo_reaches : rtc (mac_step demo_simtime) demo_mac demo_backoff.
Proof. apply (mac_run_reaches demo_simtime (fun n => n) demo_events). vm_compute. reflexivity. Qed.
Lemma demo_in_backoff : transmitState (base demo_backoff) = BACKOFF_STATE /\ endBackoffMsg demo_backoff = Some 328.
Proof. vm_compute. done. Qed.

(** The invariant of a MAC that waits in a backoff after a collision. *)
Lemma mac_states_consistent_witness :
  (mac_ok demo_backoff /\ forall c r msg e, possible demo_backoff msg ->
    handleMessage demo_simtime r msg (at_time c demo_backoff) = Err e -> misuse e) /\
  transmitState (base demo_backoff) = BACKOFF_STATE /\ endBackoffMsg demo_backoff = Some 328.
Proof.
  split; [|exact demo_in_backoff].
  apply (mac_states_consistent demo_simtime true false false (MACAddress.mk 10 170 0 0 0 1) ETHERNET_TXRATE 0 0 false demo_mac);
    [vm_compute; reflexivity|exact demo_reaches].
Defined.
