(* ===== verification/EtherMacPause.v ===== *)
(** * A PAUSE of no length

    A PAUSE frame with a length of 0 tells a station to go on sending.  To
    [EtherMACBase::processPauseCommand] in the PAUSE state it takes the timer away
    that would have ended the pause. *)
From Stdlib Require Import String SpecFloat.
From S2P Require Import Prelude MachineFloat MACAddress EtherSwitch EtherMac EtherMacSpec.
Import EtherMACBase EtherMAC.

(** A frame that sets the timer of a pause. *)
Definition prolongs (f : EtherFrame) : bool :=
  match fr_pauseTime f with Some n => 0 <? n | None => false end.
Definition no_prolonging (o : option (EtherFrame * bool)) : Prop :=
  match o with Some (f, _) => prolongs f = false | None => True end.

(** Paused, with nothing that would end the pause. *)
Record frozen (sent : list Signal) (s : t) : Prop := {
  fz_state : transmitState (base s) = PAUSE_STATE;
  fz_timer : endPauseMsg (base s) = None;
  fz_sent : phys (base s) = sent;
  fz_config : autoconfigInProgress s = false;
  fz_frame : no_prolonging (frameBeingReceived s)
}.

(** A step of the MAC on a message that does not prolong the pause. *)
Inductive quiet_step (simtime_of : spec_float -> Z) (s : t) : t -> Prop :=
  | quiet_event c r msg s' : possible s msg ->
      match msg with FromPhys (SigFrame f _) _ => prolongs f = false | _ => True end ->
      handleMessage simtime_of r msg (at_time c s) = Ok tt s' -> quiet_step simtime_of s s'.

Lemma wlp_on_base {A} (m : Eff EtherMACBase.t A) Q s :
  wlp m (fun a b => Q a (s <| base := b |>)) (base s) -> wlp (on_base m) Q s.
Proof. unfold wlp, on_base. by destruct (m (base s)). Qed.

Lemma wlp_scheduleEndRx time Q s : Q tt (s <| endRxMsg := Some time |>) -> wlp (scheduleEndRx time) Q s.
Proof. unfold scheduleEndRx, wlp, bind, gets. by destruct (endRxMsg s). Qed.

Section Frozen.
Context (sent : list Signal).

Lemma frozen_control s s' : frozen sent s ->
  transmitState (base s') = transmitState (base s) -> endPauseMsg (base s') = endPauseMsg (base s) ->
  phys (base s') = phys (base s) -> autoconfigInProgress s' = autoconfigInProgress s ->
  frameBeingReceived s' = frameBeingReceived s \/ frameBeingReceived s' = None -> frozen sent s'.
Proof.
  intros [H1 H2 H3 H4 H5] E1 E2 E3 E4 [E5|E5]; split; rewrite ?E1, ?E2, ?E3, ?E4, ?E5; done.
Qed.

Lemma reception_frozen f e s : frozen sent s -> prolongs f = false ->
  wlp (on_base (frameReceptionComplete f e)) (fun _ => frozen sent) s.
Proof.
  intros Hf Hp. apply wlp_on_base. unfold frameReceptionComplete. unfold prolongs in Hp. destruct (fr_pauseTime f) as [n|].
  - unfold wlp, processPauseCommand, bind, modify, gets. cbn. rewrite (fz_state _ _ Hf), Hp. cbn.
    destruct Hf as [H1 H2 H3 H4 H5]. by split.
  - unfold wlp, processReceivedDataFrame, checkDestinationAddress, bind, modify, gets, ret. destruct e; [by apply (frozen_control s); auto|].
    cbn. destruct (negb (promiscuous (base s)) && _ && _); by apply (frozen_control s); auto.
Qed.

Lemma complete_frozen s : frozen sent s -> wlp complete_reception (fun _ => frozen sent) s.
Proof.
  intros Hf. unfold complete_reception. apply wlp_bind. cbn. pose proof (fz_frame _ _ Hf) as Hn.
  destruct (frameBeingReceived s) as [[f e]|]; [|done]. apply wlp_bind. cbn.
  apply reception_frozen; [|done]. by apply (frozen_control s); auto.
Qed.

Lemma upper_frozen f s : frozen sent s -> wlp (processFrameFromUpperLayer f) (fun _ => frozen sent) s.
Proof.
  intros Hf. unfold processFrameFromUpperLayer. apply wlp_bind, wlp_on_base.
  assert (forall q n, wlp (let! s := gets id in when (negb (autoconfigInProgress s) && (duplexMode (base s) || bool_decide (receiveState (base s) = RX_IDLE_STATE)) &&
        bool_decide (transmitState (base s) = TX_IDLE_STATE)) (on_base scheduleEndIFGPeriod)) (fun _ => frozen sent)
        (s <| base := (base s) <| numFramesFromHL := n |> <| txQueue := q |> |>)) as Hgo.
  { intros q n. apply wlp_bind. cbn. rewrite (fz_state _ _ Hf), (bool_decide_eq_false_2 (PAUSE_STATE = TX_IDLE_STATE)), andb_false_r by done. cbn.
    by apply (frozen_control s); auto. }
  unfold EtherMACBase.processFrameFromUpperLayer, wlp, bind, gets, modify.
  repeat match goal with |- context [if ?c then _ else _] => destruct c; [done|] end.
  destruct (fr_pauseTime f) as [p|].
  - specialize (Hgo (f :: txQueue (base s)) (numFramesFromHL (base s))).
    replace ((base s) <| numFramesFromHL := numFramesFromHL (base s) |>) with (base s) in Hgo by by destruct (base s).
    exact Hgo.
  - cbn. destruct (negb (txQueueLimit (base s) =? 0) && _); [done|]. destruct (MACAddress.isUnspecified (fr_src f)); apply Hgo.
Qed.

Lemma network_frozen msg st s : frozen sent s -> no_prolonging (as_frame msg) ->
  wlp (processMsgFromNetwork msg st) (fun _ => frozen sent) s.
Proof.
  intros Hf Hn. unfold processMsgFromNetwork. apply wlp_bind, wlp_on_base.
  unfold EtherMACBase.processMsgFromNetwork. unfold wlp at 1.
  match goal with |- match ?m (base s) with _ => _ end =>
    enough (m (base s) = Ok tt (base s) \/ exists e, m (base s) = Err e) as [->|[e ->]]; [|done|] end.
  2:{ destruct msg; [|..|right; by eexists]; unfold bind, gets; destruct (negb (duplexMode (id (base s))) && _); eauto. }
  replace (s <| base := base s |>) with s by by destruct s.
  apply wlp_bind. cbn. rewrite (fz_state _ _ Hf), (bool_decide_eq_false_2 (PAUSE_STATE = TRANSMITTING_STATE)), andb_false_r by done.
  case_bool_decide as Hi.
  { destruct (is_jam msg); [done|]. apply wlp_bind. cbn. destruct (frameBeingReceived s); [done|]. apply wlp_bind. cbn. apply wlp_bind.
    unfold scheduleEndRxPeriod. apply wlp_bind. cbn. apply wlp_bind, wlp_scheduleEndRx. cbn.
    destruct Hf as [H1 H2 H3 H4 H5]. by split. }
  match goal with |- wlp (if ?c then _ else _) _ _ => destruct c end.
  { apply wlp_bind. cbn. apply wlp_bind. eapply wlp_mono; [apply complete_frozen; by apply (frozen_control s); auto|].
    intros [] y Hy. apply wlp_bind. cbn. unfold scheduleEndRxPeriod. apply wlp_bind. cbn. apply wlp_bind, wlp_scheduleEndRx. cbn.
    destruct Hy as [H1 H2 H3 H4 H5]. by split. }
  apply wlp_bind.
  match goal with |- wlp ?m ?Q _ => enough (forall y, frozen sent y -> Q tt y) as Hgo end.
  { assert (forall k, frozen sent (s <| numConcurrentTransmissions := k |>)) as Hk by (intros k; by apply (frozen_control s); auto).
    destruct (is_jam msg).
    - destruct (numConcurrentTransmissions s <=? 0); [done|]. apply wlp_bind. cbn.
      destruct (_ =? 0); cbn [when]; [|apply Hgo, Hk]. apply wlp_bind. cbn. apply Hgo. by apply (frozen_control s); auto.
    - apply wlp_bind. cbn. destruct (endRxMsg s) as [time|]; [|apply Hgo, Hk].
      destruct (time <? _); cbn [when]; [|apply Hgo, Hk]. apply wlp_bind. cbn. apply Hgo. by apply (frozen_control s); auto. }
  intros y Hy. cbn beta. unfold drop_reception. apply wlp_bind. apply wlp_bind. cbn.
  destruct (bool_decide (receiveState (base y) = RECEIVING_STATE)); cbn; by apply (frozen_control y); auto.
Qed.

Lemma end_rx_frozen s : frozen sent s -> wlp handleEndRxPeriod (fun _ => frozen sent) s.
Proof.
  intros Hf. unfold handleEndRxPeriod. apply wlp_bind. cbn. apply wlp_bind.
  match goal with |- wlp ?m ?Q _ => enough (forall y, frozen sent y -> Q tt y) as Hgo end.
  { destruct (bool_decide (receiveState (base s) = RECEIVING_STATE)).
    - apply wlp_bind. eapply wlp_mono; [by apply complete_frozen|]. intros [] y Hy. cbn. apply Hgo. by apply (frozen_control y); auto.
    - cbn. apply Hgo. by apply (frozen_control s); auto. }
  intros y Hy. apply wlp_bind. cbn. apply wlp_bind. cbn. apply wlp_bind. cbn.
  rewrite (fz_state _ _ Hy). rewrite bool_decide_eq_false_2 by done. cbn. by apply (frozen_control y); auto.
Qed.

Lemma message_frozen simtime_of c r msg s s' : mac_ok s -> frozen sent s -> possible s msg ->
  match msg with FromPhys (SigFrame f _) _ => prolongs f = false | _ => True end ->
  handleMessage simtime_of r msg (at_time c s) = Ok tt s' -> frozen sent s'.
Proof.
  intros Hok Hf Hp Hn. enough (wlp (handleMessage simtime_of r msg) (fun _ => frozen sent) (at_time c s)) as Hw.
  { intros Hrun. unfold wlp in Hw. by rewrite Hrun in Hw. }
  assert (frozen sent (at_time c s)) as Hc by (by apply (frozen_control s); auto).
  destruct (mac_timers s Hok) as (H1 & H2 & _ & H4 & H5). rewrite (fz_state _ _ Hf) in *.
  unfold handleMessage. apply wlp_bind.
  match goal with |- wlp _ ?Q _ => enough (forall y, frozen sent y -> disabled (base y) = disabled (base s) -> Q tt y) as Hgo end.
  { destruct msg as [f|m st|k]; [by apply Hgo|by apply Hgo|]. destruct k; apply Hgo; try done; destruct Hf as [F1 F2 F3 F4 F5]; by split. }
  intros y Hy Hd. apply wlp_bind. cbn. rewrite Hd, (ok_enabled _ Hok), (fz_config _ _ Hy), (fz_state _ _ Hy).
  rewrite (bool_decide_eq_false_2 (PAUSE_STATE = TRANSMITTING_STATE)), andb_false_r by done. cbn [andb].
  destruct msg as [f|m st|k]; [by apply upper_frozen|by apply network_frozen; [|destruct m]|].
  cbn in Hp. destruct k; cbn in Hp; rewrite ?H1, ?H2, ?H4, ?H5, ?(fz_timer _ _ Hf) in Hp by done; try done.
  by apply end_rx_frozen.
Qed.
End Frozen.

Lemma zero_pause_frozen simtime_of c r f e s s1 : mac_ok s ->
  transmitState (base s) = PAUSE_STATE -> frameBeingReceived s = Some (f, e) -> fr_pauseTime f = Some 0 ->
  handleMessage simtime_of r (SelfMessage ENDRECEPTION) (at_time c s) = Ok tt s1 ->
  mac_ok s1 /\ frozen (phys (base s)) s1.
Proof.
  intros Hok Hst Hfr Hz Hrun.
  assert (receiveState (base s) = RECEIVING_STATE) as Hrs.
  { pose proof (ok_receiving _ Hok) as Hb. rewrite Hfr in Hb. symmetry in Hb. by apply bool_decide_eq_true_1 in Hb. }
  assert (autoconfigInProgress s = false) as Ha.
  { destruct (autoconfigInProgress s) eqn:Ha; [|done]. destruct (ok_quiet _ Hok Ha). congruence. }
  assert (possible s (SelfMessage ENDRECEPTION)) as Hp by (cbn; by rewrite (ok_rx _ Hok), Hrs).
  split; [by eapply mac_step_ok; eauto|].
  enough (wlp (handleMessage simtime_of r (SelfMessage ENDRECEPTION)) (fun _ => frozen (phys (base s))) (at_time c s)) as Hw.
  { unfold wlp in Hw. by rewrite Hrun in Hw. }
  unfold handleMessage. apply wlp_bind. cbn. apply wlp_bind. cbn. rewrite (ok_enabled _ Hok), Ha, Hst.
  rewrite (bool_decide_eq_false_2 (PAUSE_STATE = TRANSMITTING_STATE)), andb_false_r by done. cbn [andb].
  unfold handleEndRxPeriod. apply wlp_bind. cbn. rewrite Hrs. rewrite bool_decide_eq_true_2 by done.
  unfold complete_reception, frameReceptionComplete, processPauseCommand. unfold wlp, bind, gets, modify, on_base, set_base.
  cbn. rewrite Hfr, Hz. cbn. rewrite Hst. cbn.
  rewrite Hst, (bool_decide_eq_false_2 (PAUSE_STATE = TX_IDLE_STATE)) by done. cbn. by split.
Qed.

(** C39: A MAC that is paused and is told, with a PAUSE frame of length 0, to go on
    never sends anything again: the frame takes the timer away that would have ended
    the pause and leaves the MAC in the PAUSE state, where it stays, with the wire
    silent, whatever it is asked to send and whatever it receives, until another
    PAUSE frame of a length above 0 comes. *)
Theorem zero_pause_freezes simtime_of conn prom hasQueue addr rate limit now duplexEnabled s0 s c r f e s1 s2 :
  initialize simtime_of (EtherMACBase.initialize conn prom hasQueue addr rate limit now) duplexEnabled tt = Ok s0 tt ->
  rtc (mac_step simtime_of) s0 s ->
  transmitState (base s) = PAUSE_STATE -> frameBeingReceived s = Some (f, e) -> fr_pauseTime f = Some 0 ->
  handleMessage simtime_of r (SelfMessage ENDRECEPTION) (at_time c s) = Ok tt s1 ->
  rtc (quiet_step simtime_of) s1 s2 ->
  transmitState (base s2) = PAUSE_STATE /\ endPauseMsg (base s2) = None /\ phys (base s2) = phys (base s).
Proof.
  intros H0 Hr Hst Hfr Hz Hrun Hq. pose proof (reachable_ok _ _ _ _ _ _ _ _ _ _ _ H0 Hr) as Hok.
  destruct (zero_pause_frozen simtime_of c r f e s s1 Hok Hst Hfr Hz Hrun) as [Hok1 Hf1].
  enough (mac_ok s2 /\ frozen (phys (base s)) s2) as [_ [H1 H2 H3 _ _]] by done.
  revert Hok1 Hf1. clear -Hq. induction Hq as [|x y z Hst _ IH]; [done|]. intros Hx Hfx.
  destruct Hst as [c r msg y Hp Hn Hrun]. apply IH; [by eapply mac_step_ok; eauto|].
  by eapply message_frozen; eauto.
Qed.

(** A MAC is paused for ten units, is told to go on, and is given a frame to send. *)
Definition pause_frame (n : Z) : EtherFrame := mkFrame (MACAddress.mk 10 170 0 0 0 1) (MACAddress.mk 10 170 0 0 0 2) 72 (Some n) 0.
Definition demo_paused : t := default demo_mac (mac_run demo_simtime (fun n => n)
  [(96, SelfMessage ENDAUTOCONFIG); (100, FromPhys (SigFrame (pause_frame 10) false) 90); (676, SelfMessage ENDRECEPTION);
   (800, FromPhys (SigFrame (pause_frame 0) false) 790)] demo_mac).
Definition demo_resumed : t := default demo_mac (mac_run demo_simtime (fun n => n) [(1376, SelfMessage ENDRECEPTION)] demo_paused).
Definition demo_asked : t := default demo_mac (mac_run demo_simtime (fun n => n) [(1400, FromUpperLayer (demo_data 1))] demo_resumed).

Lemma demo_paused_reaches : rtc (mac_step demo_simtime) demo_mac demo_paused.
Proof.
  apply (mac_run_reaches demo_simtime (fun n => n)
    [(96, SelfMessage ENDAUTOCONFIG); (100, FromPhys (SigFrame (pause_frame 10) false) 90); (676, SelfMessage ENDRECEPTION);
     (800, FromPhys (SigFrame (pause_frame 0) false) 790)]). vm_compute. reflexivity.
Qed.
Lemma demo_asked_reaches : rtc (quiet_step demo_simtime) demo_resumed demo_asked.
Proof.
  apply rtc_once, (quiet_event _ _ 1400 (fun n => n) (FromUpperLayer (demo_data 1))); [done..|]. vm_compute. reflexivity.
Qed.

Lemma zero_pause_freezes_witness :
  (transmitState (base demo_asked) = PAUSE_STATE /\ endPauseMsg (base demo_asked) = None /\ phys (base demo_asked) = phys (base demo_paused)) /\
  txQueue (base demo_asked) = [demo_data 1].
Proof.
  split; [|vm_compute; reflexivity].
  apply (zero_pause_freezes demo_simtime true false false (MACAddress.mk 10 170 0 0 0 1) ETHERNET_TXRATE 0 0 false demo_mac demo_paused 1376 (fun n => n)
    (pause_frame 0) false demo_resumed demo_asked);
    [vm_compute; reflexivity|exact demo_paused_reaches|vm_compute; reflexivity|vm_compute; reflexivity|reflexivity|vm_compute; reflexivity|exact demo_asked_reaches].
Defined.
