(* ===== verification/Mpls.v ===== *)
(** * Label switching

    [networklayer/mpls]: packets with a label stack ([MPLSPacket.h]), the label
    information base ([LIBTable.cc]) and the forwarding module ([MPLS.cc]).  The
    module asks other modules of the same router for the label of a datagram and for
    the entry of a label; what it needs of them is the class [LabelSwitchRouter].
    Of a datagram the model has what the code reads, and an identifier of its
    contents. *)
From Stdlib Require Import String.
From S2P Require Import Prelude IPAddress IPDatagram InterfaceTable EtherSwitch.

Definition IP_PROT_OSPF : Z := 89.
Definition LDP_PORT : Z := 646.
Definition LDP_TRAFFIC : Z := 4.
Definition ICMP_TRAFFIC : Z := 6.

(** ** Label operations *)
Inductive LabelOp : Type := PUSH_OPER (label : Z) | SWAP_OPER (label : Z) | POP_OPER.
#[export] Instance LabelOp_eq_dec : EqDecision LabelOp.
Proof. solve_decision. Defined.
Definition LabelOpVector : Type := list LabelOp.

Module LIBTable.
Record LIBEntry : Type := mk_LIBEntry {
  inLabel : Z;
  inInterface : string;
  outLabel : LabelOpVector;
  outInterface : string;
  color : Z
}.
#[global] Instance eta_LIBEntry : Eta LIBEntry := fun e =>
  {| inLabel := inLabel e; inInterface := inInterface e; outLabel := outLabel e; outInterface := outInterface e; color := color e |}.

Record t : Type := mk { maxLabel : Z; lib : list LIBEntry }.
#[global] Instance eta : Eta t := fun s => {| maxLabel := maxLabel s; lib := lib s |}.

Definition new : t := {| maxLabel := 0; lib := [] |}.

Definition pushLabel (label : Z) : LabelOpVector := [PUSH_OPER label].
Definition swapLabel (label : Z) : LabelOpVector := [SWAP_OPER label].
Definition popLabel : LabelOpVector := [POP_OPER].

(** An empty interface name stands for any interface. *)
Definition resolves (inIf : string) (label : Z) (e : LIBEntry) : bool :=
  (bool_decide (inIf = EmptyString) || bool_decide (inInterface e = inIf)) && (inLabel e =? label).
Definition resolveLabel (inIf : string) (label : Z) (s : t) : option (LabelOpVector * string * Z) :=
  match List.find (resolves inIf label) (lib s) with
  | Some e => Some (outLabel e, outInterface e, color e)
  | None => None
  end.

(** The first entry with the label is overwritten. *)
Fixpoint overwrite (label : Z) (inIf : string) (out : LabelOpVector) (outIf : string) (c : Z) (l : list LIBEntry) : option (list LIBEntry) :=
  match l with
  | [] => None
  | e :: rest =>
      if inLabel e =? label
      then Some ((e <| inInterface := inIf |> <| outLabel := out |> <| outInterface := outIf |> <| color := c |>) :: rest)
      else cons e <$> overwrite label inIf out outIf c rest
  end.

Definition installLibEntry (label : Z) (inIf : string) (out : LabelOpVector) (outIf : string) (c : Z) : Eff t Z :=
  if label =? -1 then
    modify (fun s => s <| maxLabel := i32 (maxLabel s + 1) |>) ;;;
    let! l := gets maxLabel in
    modify (fun s => s <| lib := lib s ++ [mk_LIBEntry l inIf out outIf c] |>) ;;;
    ret l
  else
    let! l := gets lib in
    match overwrite label inIf out outIf c l with
    | Some l' => modify (fun s => s <| lib := l' |>) ;;; ret label
    | None => fail (AssertionFailed "installLibEntry")
    end.

Fixpoint erase_label (label : Z) (l : list LIBEntry) : option (list LIBEntry) :=
  match l with
  | [] => None
  | e :: rest => if inLabel e =? label then Some rest else cons e <$> erase_label label rest
  end.
Definition removeLibEntry (label : Z) : Eff t unit :=
  let! l := gets lib in
  match erase_label label l with
  | Some l' => modify (fun s => s <| lib := l' |>)
  | None => fail (AssertionFailed "removeLibEntry")
  end.

(** [readTableFromXML], on the values of a [libentry] element; an operation is its
    [code] and [value] attributes. *)
Record XMLEntry : Type := mk_XMLEntry {
  x_inLabel : Z; x_inInterface : string; x_outInterface : string; x_color : Z; x_ops : list (string * option string)
}.
Definition read_op {S} (op : string * option string) : Eff S LabelOp :=
  let '(code, val) := op in
  if bool_decide (code = "push"%string) then
    match val with
    | Some v => assert_ "l.label > 0" (0 <? MACRelayUnitBase.atoi v) ;;; ret (PUSH_OPER (MACRelayUnitBase.atoi v))
    | None => fail (AssertionFailed "val")
    end
  else if bool_decide (code = "pop"%string) then
    match val with Some _ => fail (AssertionFailed "!val") | None => ret POP_OPER end
  else if bool_decide (code = "swap"%string) then
    match val with
    | Some v => assert_ "l.label > 0" (0 <? MACRelayUnitBase.atoi v) ;;; ret (SWAP_OPER (MACRelayUnitBase.atoi v))
    | None => fail (AssertionFailed "val")
    end
  else fail (AssertionFailed "code").

Definition read_entry (x : XMLEntry) : Eff t unit :=
  let! ops := mapE read_op (x_ops x) in
  modify (fun s => s <| lib := lib s ++ [mk_LIBEntry (x_inLabel x) (x_inInterface x) ops (x_outInterface x) (x_color x)] |>) ;;;
  assert_ "newItem.inLabel > 0" (0 <? x_inLabel x) ;;;
  modify (fun s => s <| maxLabel := if maxLabel s <? x_inLabel x then x_inLabel x else maxLabel s |>).
Definition readTableFromXML (entries : list XMLEntry) : Eff t unit :=
  let! _ := mapE read_entry entries in ret tt.
End LIBTable.

(** ** Packets *)
Inductive Encapsulated : Type := EncTCP (srcPort destPort : Z) | EncUDP (srcPort destPort : Z) | EncOther.

Record Datagram : Type := mk_Datagram {
  dg_dest : IPAddress.t;
  dg_protocol : Z;
  dg_encapsulated : Encapsulated;
  dg_bitLength : Z;
  dg_color : option Z;
  dg_contents : Z
}.
#[export] Instance eta_Datagram : Eta Datagram := fun d =>
  {| dg_dest := dg_dest d; dg_protocol := dg_protocol d; dg_encapsulated := dg_encapsulated d; dg_bitLength := dg_bitLength d;
     dg_color := dg_color d; dg_contents := dg_contents d |}.

Record MPLSPacket : Type := mk_MPLSPacket {
  labels : list Z;
  mp_bitLength : Z;
  mp_color : option Z;
  mp_payload : Datagram
}.
#[export] Instance eta_MPLSPacket : Eta MPLSPacket := fun p =>
  {| labels := labels p; mp_bitLength := mp_bitLength p; mp_color := mp_color p; mp_payload := mp_payload p |}.

Definition hasLabel (p : MPLSPacket) : bool := match labels p with [] => false | _ :: _ => true end.

Inductive NetPacket : Type := NativeIP (d : Datagram) | Labelled (p : MPLSPacket).

(** What leaves the module: through gate [ifOut] or [netwOut]. *)
Inductive Output : Type := IfOut (gateIndex : Z) (p : NetPacket) | NetwOut (gateIndex : Z) (d : Datagram).

(** ** What the module needs of its router *)
Class LabelSwitchRouter (S : Type) : Type := {
  lsr_lookupLabel : Datagram -> Eff S (option (LabelOpVector * string * Z));
  lsr_lt : S -> LIBTable.t;
  lsr_ift : S -> InterfaceTable.t
}.

Module MPLS.
Section Module_.
Context {S : Type} `{LabelSwitchRouter S}.

Definition do_op (p : MPLSPacket) (op : LabelOp) : Eff S MPLSPacket :=
  match op with
  | PUSH_OPER l => ret (p <| labels := l :: labels p |> <| mp_bitLength := mp_bitLength p + 32 |>)
  | SWAP_OPER l =>
      assert_ "mplsPacket->hasLabel()" (hasLabel p) ;;;
      ret (p <| labels := l :: tail (labels p) |>)
  | POP_OPER =>
      assert_ "mplsPacket->hasLabel()" (hasLabel p) ;;;
      ret (p <| labels := tail (labels p) |> <| mp_bitLength := mp_bitLength p - 32 |>)
  end.
Fixpoint doStackOps (p : MPLSPacket) (ops : LabelOpVector) : Eff S MPLSPacket :=
  match ops with
  | [] => ret p
  | op :: rest => let! p := do_op p op in doStackOps p rest
  end.

Definition encapsulate (d : Datagram) : MPLSPacket :=
  {| labels := []; mp_bitLength := dg_bitLength d; mp_color := None; mp_payload := d |}.

(** [ift->getInterfaceByName(name)->getNetworkLayerGateIndex()] *)
Definition port_of (name : string) : Eff S Z :=
  let! t := gets lsr_ift in
  match InterfaceTable.getInterfaceByName name t with
  | Some ie => ret (nwLayerGateIndex ie)
  | None => fail (NullPointer "getInterfaceByName()")
  end.

Definition tryLabelAndForwardIPDatagram (d : Datagram) : Eff S (option Output) :=
  let! found := lsr_lookupLabel d in
  match found with
  | None => ret None
  | Some (outLabel, outInterface, color) =>
      assert_ "outLabel.size() > 0" (match outLabel with [] => false | _ => true end) ;;;
      let! outgoingPort := port_of outInterface in
      let! p := doStackOps (encapsulate d) outLabel in
      let p := p <| mp_color := Some color |> in
      ret (Some (IfOut outgoingPort (if hasLabel p then Labelled p else NativeIP (mp_payload p))))
  end.

Definition labelAndForwardIPDatagram (d : Datagram) (gateIndex : Z) : Eff S (option Output) :=
  let! o := tryLabelAndForwardIPDatagram d in
  match o with
  | Some o => ret (Some o)
  | None => ret (Some (IfOut gateIndex (NativeIP d)))
  end.

Definition processPacketFromL3 (d : Datagram) (gateIndex : Z) : Eff S (option Output) :=
  let! d :=
    (if dg_protocol d =? IP_PROT_TCP then
       match dg_encapsulated d with
       | EncTCP src dest =>
           if (dest =? LDP_PORT) || (src =? LDP_PORT) then
             assert_ "!ipdatagram->hasPar(color)" (match dg_color d with None => true | Some _ => false end) ;;;
             ret (d <| dg_color := Some LDP_TRAFFIC |>)
           else ret d
       | _ => fail (RuntimeError "check_and_cast: cannot cast to TCPSegment")
       end
     else if dg_protocol d =? IP_PROT_ICMP then
       match dg_color d with
       | None => ret (d <| dg_color := Some ICMP_TRAFFIC |>)
       | Some _ => ret d
       end
     else ret d) in
  labelAndForwardIPDatagram d gateIndex.

Definition processMPLSPacketFromL2 (p : MPLSPacket) (gateIndex : Z) : Eff S (option Output) :=
  let! t := gets lsr_ift in
  match InterfaceTable.getInterfaceByNetworkLayerGateIndex gateIndex t with
  | None => fail (NullPointer "getInterfaceByNetworkLayerGateIndex()")
  | Some ie =>
      match labels p with
      | [] => fail (AssertionFailed "mplsPacket->hasLabel()")
      | oldLabel :: _ =>
          if oldLabel =? -1 then ret (Some (NetwOut gateIndex (mp_payload p))) else
          let! lt := gets lsr_lt in
          match LIBTable.resolveLabel (ie_name ie) oldLabel lt with
          | None => ret None
          | Some (outLabel, outInterface, color) =>
              let! outgoingPort := port_of outInterface in
              let! p := doStackOps p outLabel in
              if hasLabel p then ret (Some (IfOut outgoingPort (Labelled (p <| mp_color := Some color |>))))
              else if negb (outgoingPort =? -1) then ret (Some (IfOut outgoingPort (NativeIP (mp_payload p))))
              else ret (Some (NetwOut gateIndex (mp_payload p)))
          end
      end
  end.

Definition processPacketFromL2 (m : NetPacket) (gateIndex : Z) : Eff S (option Output) :=
  match m with
  | Labelled p => processMPLSPacketFromL2 p gateIndex
  | NativeIP d =>
      let! o := tryLabelAndForwardIPDatagram d in
      match o with
      | Some o => ret (Some o)
      | None => ret (Some (NetwOut gateIndex d))
      end
  end.

Inductive Message : Type := FromL2 (m : NetPacket) (gateIndex : Z) | FromL3 (d : Datagram) (gateIndex : Z).
Definition handleMessage (msg : Message) : Eff S (option Output) :=
  match msg with
  | FromL2 m g => processPacketFromL2 m g
  | FromL3 d g => processPacketFromL3 d g
  end.
End Module_.
End MPLS.
