(* ===== verification/Ldp.v ===== *)
(** * Label distribution

    [networklayer/ldp/LDP.cc] with what it uses of [transport/contract/TCPSocket.cc]
    and [TCPSocketMap.cc].  The module runs on a router with a traffic engineering
    database ([TED], which holds the [Node]) and a label information base.  Sockets
    are objects named by their connection id; [sent] collects what leaves through
    the gates to UDP and TCP.  A change of the routing table is announced to the
    module while the table is changed, so a rebuilt table calls back into it.
    [sort_fecs] is [std::sort] with [fecPrefixCompare], which leaves the order of
    equal elements open; [second] is one second in ticks. *)
From Stdlib Require Import String.
From S2P Require Import Prelude IPAddress InterfaceTable RoutingTable MachineFloat TED Mpls.

Definition LDP_USER_TRAFFIC : Z := 100.
Definition NO_ROUTE : Z := 13.
Definition ALL_ROUTERS_MCAST : IPAddress.t := 3758096386.

(** ** Messages *)
Record FEC_TLV : Type := mk_FEC { fec_addr : IPAddress.t; fec_length : Z }.
#[export] Instance FEC_TLV_eq_dec : EqDecision FEC_TLV.
Proof. solve_decision. Defined.

Inductive MappingType : Type := LABEL_MAPPING | LABEL_WITHDRAW | LABEL_RELEASE.
Inductive LDPPacket : Type :=
  | LDPLabelMapping (type : MappingType) (sender receiver : IPAddress.t) (fec : FEC_TLV) (label : Z)
  | LDPLabelRequest (sender receiver : IPAddress.t) (fec : FEC_TLV)
  | LDPNotify (sender receiver : IPAddress.t) (status : Z) (fec : FEC_TLV)
  | LDPUnsupported (type : Z).

(** ** Sockets *)
Inductive SockState : Type :=
  | NOT_BOUND | BOUND | LISTENING | CONNECTING | CONNECTED | PEER_CLOSED | LOCALLY_CLOSED | CLOSED | SOCKERROR.
#[export] Instance SockState_eq_dec : EqDecision SockState.
Proof. solve_decision. Defined.
Record TCPSocket : Type := mk_TCPSocket { sockstate : SockState; yourPtr : nat }.

Inductive TcpKind : Type :=
  | TCP_I_DATA (p : LDPPacket) | TCP_I_ESTABLISHED (remote : IPAddress.t) | TCP_I_PEER_CLOSED | TCP_I_CLOSED | TCP_I_FAILURE.

Inductive Sent : Type :=
  | UdpHello (dest : IPAddress.t)
  | TcpListen (port : Z)
  | TcpOpen (connId : Z) (local remote : IPAddress.t) (port : Z)
  | TcpSend (connId : Z) (p : LDPPacket)
  | TcpClose (connId : Z)
  | TcpAbort (connId : Z).

Module LDP.
Record fec_t : Type := mk_fec { fecid : Z; addr : IPAddress.t; flength : Z; nextHop : IPAddress.t }.
#[global] Instance eta_fec : Eta fec_t := fun f => {| fecid := fecid f; addr := addr f; flength := flength f; nextHop := nextHop f |}.
Record fec_bind_t : Type := mk_bind { b_fecid : Z; b_peer : IPAddress.t; b_label : Z }.
Record pending_req_t : Type := mk_pending { p_fecid : Z; p_peer : IPAddress.t }.
Record peer_info : Type := mk_peer {
  peerIP : IPAddress.t; activeRole : bool; socket : option Z; linkInterface : string; timeout : Z; timeoutAt : option Z
}.
#[global] Instance eta_peer : Eta peer_info := fun p =>
  {| peerIP := peerIP p; activeRole := activeRole p; socket := socket p; linkInterface := linkInterface p;
     timeout := timeout p; timeoutAt := timeoutAt p |}.

Record t : Type := mk {
  tedmod : TED.t;
  lt : LIBTable.t;
  holdTime : Z;
  helloInterval : Z;
  fecList : list fec_t;
  fecUp : list fec_bind_t;
  fecDown : list fec_bind_t;
  pending : list pending_req_t;
  myPeers : list peer_info;
  sockets : gmap Z TCPSocket;
  socketMap : gset Z;
  sendHelloAt : option Z;
  retries : list (Z * LDPPacket);
  maxFecid : Z;
  uniqueNumber : Z;
  announced : list nat;
  sent : list Sent
}.
#[global] Instance eta : Eta t := fun s =>
  {| tedmod := tedmod s; lt := lt s; holdTime := holdTime s; helloInterval := helloInterval s; fecList := fecList s;
     fecUp := fecUp s; fecDown := fecDown s; pending := pending s; myPeers := myPeers s; sockets := sockets s;
     socketMap := socketMap s; sendHelloAt := sendHelloAt s; retries := retries s; maxFecid := maxFecid s;
     uniqueNumber := uniqueNumber s; announced := announced s; sent := sent s |}.

Definition on_ted {A} (m : Eff TED.t A) : Eff t A := fun s =>
  match m (tedmod s) with Ok a x => Ok a (s <| tedmod := x |>) | Err e => Err e end.
Definition on_node {A} (m : Eff Node A) : Eff t A := on_ted (TED.on_node m).
Definition on_lt {A} (m : Eff LIBTable.t A) : Eff t A := fun s =>
  match m (lt s) with Ok a x => Ok a (s <| lt := x |>) | Err e => Err e end.
Definition node_of (s : t) : Node := TED.node (tedmod s).
Definition getRouterId (s : t) : IPAddress.t := routerId (rt (node_of s)).
Definition emit (x : Sent) : Eff t unit := modify (fun s => s <| sent := sent s ++ [x] |>).
Definition getUniqueNumber : Eff t Z :=
  let! n := gets uniqueNumber in modify (fun s => s <| uniqueNumber := n + 1 |>) ;;; ret n.
Definition simTime (s : t) : Z := clock (node_of s).

(** ** Peers *)
Fixpoint find_peer (a : IPAddress.t) (i : nat) (l : list peer_info) : option nat :=
  match l with
  | [] => None
  | p :: rest => if peerIP p =? a then Some i else find_peer a (S i) rest
  end.
Definition findPeer (a : IPAddress.t) (s : t) : option nat := find_peer a 0 (myPeers s).

(** The pointer of a deleted socket dangles. *)
Definition deref_socket (c : Z) : Eff t TCPSocket :=
  let! k := gets (fun s => sockets s !! c) in
  match k with Some k => ret k | None => fail (NullPointer "deleted TCPSocket") end.

Definition findPeerSocket (peerAddr : IPAddress.t) : Eff t (option Z) :=
  let! i := gets (findPeer peerAddr) in
  match i with
  | None => ret None
  | Some i =>
      let! p := gets (fun s => myPeers s !! i) in
      match p ≫= socket with
      | None => ret None
      | Some c =>
          let! k := deref_socket c in
          ret (if bool_decide (sockstate k = CONNECTED) then Some c else None)
      end
  end.
Definition getPeerSocket (peerAddr : IPAddress.t) : Eff t Z :=
  let! c := findPeerSocket peerAddr in
  match c with Some c => ret c | None => fail (AssertionFailed "sock") end.

Definition sendToPeer (dest : IPAddress.t) (msg : LDPPacket) : Eff t unit :=
  let! c := getPeerSocket dest in
  emit (TcpSend c msg).

Definition sendMappingRequest (dest a : IPAddress.t) (len : Z) : Eff t unit :=
  let! me := gets getRouterId in
  sendToPeer dest (LDPLabelRequest me dest (mk_FEC a len)).
Definition sendMapping (type : MappingType) (dest : IPAddress.t) (label : Z) (a : IPAddress.t) (len : Z) : Eff t unit :=
  let! me := gets getRouterId in
  sendToPeer dest (LDPLabelMapping type me dest (mk_FEC a len) label).
Definition sendNotify (status : Z) (dest a : IPAddress.t) (len : Z) : Eff t unit :=
  let! me := gets getRouterId in
  sendToPeer dest (LDPNotify me dest NO_ROUTE (mk_FEC a len)).
Definition sendHelloTo (dest : IPAddress.t) : Eff t unit := emit (UdpHello dest).

(** ** Lookups *)
Definition findFecBind (fecs : list fec_bind_t) (id : Z) (peer : IPAddress.t) : option fec_bind_t :=
  List.find (fun b => (b_fecid b =? id) && (b_peer b =? peer)) fecs.
Definition findFecEntry (fecs : list fec_t) (a : IPAddress.t) (len : Z) : option fec_t :=
  List.find (fun f => (flength f =? len) && (addr f =? a)) fecs.
(** [erase] of the iterator [findFecEntry] returns. *)
Fixpoint erase_fec (a : IPAddress.t) (len : Z) (fecs : list fec_t) : list fec_t :=
  match fecs with
  | [] => []
  | f :: rest => if (flength f =? len) && (addr f =? a) then rest else f :: erase_fec a len rest
  end.
Fixpoint erase_bind (id : Z) (peer : IPAddress.t) (fecs : list fec_bind_t) : list fec_bind_t :=
  match fecs with
  | [] => []
  | b :: rest => if (b_fecid b =? id) && (b_peer b =? peer) then rest else b :: erase_bind id peer rest
  end.

Definition interface_name (i : Z) : Eff t string :=
  let! ie := gets (fun s => InterfaceTable.getInterfaceById i (ift (node_of s))) in
  match ie with Some ie => ret (ie_name ie) | None => fail (NullPointer "interface") end.

Definition findInterfaceFromPeerAddr (peer : IPAddress.t) : Eff t string :=
  let! isLocal := on_node (isLocalAddress peer) in
  if isLocal then ret "lo0"%string else
  let! ie := on_node (getInterfaceForDestAddr peer) in
  match ie with
  | None => fail (RuntimeError "findInterfaceFromPeerAddr(): not routable")
  | Some i => interface_name i
  end.

(** ** Labels *)
(** One entry of [fecUp] for the class [oldItem]: what becomes of it. *)
Definition update_bind (oldItem : fec_t) (ER : bool) (dit : option fec_bind_t) (u : fec_bind_t) : Eff t (option fec_bind_t) :=
  if negb (b_fecid u =? fecid oldItem) then ret (Some u) else
  let! inInterface := findInterfaceFromPeerAddr (b_peer u) in
  let! outInterface := findInterfaceFromPeerAddr (nextHop oldItem) in
  if ER then
    let! l := on_lt (LIBTable.installLibEntry (b_label u) inInterface LIBTable.popLabel outInterface LDP_USER_TRAFFIC) in
    ret (Some (mk_bind (b_fecid u) (b_peer u) l))
  else match dit with
  | Some d =>
      let! l := on_lt (LIBTable.installLibEntry (b_label u) inInterface (LIBTable.swapLabel (b_label d)) outInterface LDP_USER_TRAFFIC) in
      ret (Some (mk_bind (b_fecid u) (b_peer u) l))
  | None =>
      sendMapping LABEL_WITHDRAW (b_peer u) (b_label u) (addr oldItem) (flength oldItem) ;;;
      ret None
  end.

Definition is_some {A} (o : option A) : bool := match o with Some _ => true | None => false end.

Definition updateFecListEntry (oldItem : fec_t) : Eff t unit :=
  let! dit := gets (fun s => findFecBind (fecDown s) (fecid oldItem) (nextHop oldItem)) in
  let! sock := findPeerSocket (nextHop oldItem) in
  let ER := negb (is_some sock) in
  assert_ "!(ER && dit != fecDown.end())" (negb (ER && is_some dit)) ;;;
  let! us := gets fecUp in
  let! us := mapE (update_bind oldItem ER dit) us in
  modify (fun s => s <| fecUp := omap id us |>) ;;;
  when (negb ER && negb (is_some dit)) (sendMappingRequest (nextHop oldItem) (addr oldItem) (flength oldItem)).

Definition updateFecList (hop : IPAddress.t) : Eff t unit :=
  let! l := gets fecList in
  let! _ := mapE (fun f => if negb (nextHop f =? hop) then ret tt else updateFecListEntry f) l in
  ret tt.

(** ** The classes

    The state of the loops is the list of the old classes not met yet. *)
Definition new_fecid : Eff t Z :=
  modify (fun s => s <| maxFecid := i32 (maxFecid s + 1) |>) ;;; gets maxFecid.
Definition push_fec (f : fec_t) : Eff t unit := modify (fun s => s <| fecList := fecList s ++ [f] |>).

Definition fec_of_route (oldList : list fec_t) (re : IPRoute) : Eff t (list fec_t) :=
  if IPAddress.isMulticast (host re) then ret oldList else
  let hop := match type_ re with DIRECT => host re | REMOTE => gateway re end in
  assert_ "!nextHop.isUnspecified()" (negb (IPAddress.isUnspecified hop)) ;;;
  let len := IPAddress.getNetmaskLength (netmask re) in
  match findFecEntry oldList (host re) len with
  | None =>
      let! id := new_fecid in
      let newItem := mk_fec id (host re) len hop in
      updateFecListEntry newItem ;;;
      push_fec newItem ;;;
      ret oldList
  | Some it =>
      (if negb (nextHop it =? hop) then
         updateFecListEntry (it <| nextHop := hop |>) ;;;
         push_fec (it <| nextHop := hop |>)
       else push_fec it) ;;;
      ret (erase_fec (host re) len oldList)
  end.

Definition fec_of_interface (oldList : list fec_t) (ie : InterfaceEntry) : Eff t (list fec_t) :=
  if nwLayerGateIndex ie <? 0 then ret oldList else
  let! d := ipv4Data ie in
  match findFecEntry oldList (inetAddr d) 32 with
  | None =>
      let! id := new_fecid in
      push_fec (mk_fec id (inetAddr d) 32 (inetAddr d)) ;;;
      ret oldList
  | Some it => push_fec it ;;; ret (erase_fec (inetAddr d) 32 oldList)
  end.

Definition remove_fec (f : fec_t) : Eff t unit :=
  let! ds := gets fecDown in
  let! _ := mapE (fun d => when (b_fecid d =? fecid f) (sendMapping LABEL_RELEASE (b_peer d) (b_label d) (addr f) (flength f))) ds in
  let! us := gets fecUp in
  let! _ := mapE (fun u => when (b_fecid u =? fecid f)
                   (sendMapping LABEL_WITHDRAW (b_peer u) (b_label u) (addr f) (flength f) ;;;
                    on_lt (LIBTable.removeLibEntry (b_label u)))) us in
  ret tt.

Fixpoint foldE {S A B} (f : B -> A -> Eff S B) (l : list A) (b : B) : Eff S B :=
  match l with [] => ret b | a :: rest => let! b := f b a in foldE f rest b end.

Section Module_.
Variable sort_fecs : list fec_t -> list fec_t.
Variable second : Z.

Definition rebuildFecList : Eff t unit :=
  let! oldList := gets fecList in
  modify (fun s => s <| fecList := [] |>) ;;;
  let! ps := on_node (get_rt (fun r => routes r ++ multicastRoutes r)) in
  let! res := on_node (mapE deref ps) in
  let! oldList := foldE fec_of_route res oldList in
  let! ies := on_node all_interfaces in
  let! oldList := foldE fec_of_interface ies oldList in
  let! _ := mapE remove_fec oldList in
  modify (fun s => s <| fecList := sort_fecs (fecList s) |>).

Definition receiveChangeNotification : Eff t unit := rebuildFecList.

(** [tedmod->rebuildRoutingTable()] with the calls of
    [receiveChangeNotification]: a deletion is announced before it happens, an
    addition after. *)
Definition notified (m : Eff TED.t unit) : Eff t unit :=
  let! n := gets (fun s => length (fired (node_of s))) in
  on_ted m ;;;
  let! n' := gets (fun s => length (fired (node_of s))) in
  when (n <? n')%nat receiveChangeNotification.
Fixpoint drop_routes (n j : nat) : Eff t unit :=
  match n with
  | O => ret tt
  | S n =>
      let! p := on_node (getRoute j) in
      match p with
      | None => fail (NullPointer "getRoute")
      | Some p =>
          let! e := on_node (deref p) in
          if IPAddress.isMulticast (host e) then drop_routes n (S j)
          else receiveChangeNotification ;;; let! _ := on_node (deleteRoute p) in drop_routes n j
      end
  end.
Definition ted_rebuildRoutingTable : Eff t unit :=
  let! l := gets (fun s => TED.ted (tedmod s)) in
  let! V := on_ted (TED.calculateShortestPaths l (double_of_int 0) 7) in
  let! n := on_node getNumRoutes in
  drop_routes n 0 ;;;
  let! _ := mapE (fun '(i, v) => notified (TED.add_remote V i v)) (zip (seq 0 (length V)) V) in
  let! addrs := gets (fun s => TED.interfaceAddrs (tedmod s)) in
  let! _ := mapE (fun a => notified (TED.add_peer a)) addrs in
  ret tt.

Definition announceLinkChange (tedlinkindex : nat) : Eff t unit :=
  modify (fun s => s <| announced := announced s ++ [tedlinkindex] |>).
Definition set_link_state (index : nat) (up : bool) : Eff t unit :=
  on_ted (modify (fun x => x <| TED.ted := alter (fun l => l <| te_state := up |>) index (TED.ted x) |>)).

(** ** Hellos

    The timer of a peer is an object of its own; its name is a number that is not used
    yet. *)
Fixpoint find_timeout (msg : Z) (i : nat) (l : list peer_info) : option nat :=
  match l with
  | [] => None
  | p :: rest => if timeout p =? msg then Some i else find_timeout msg (S i) rest
  end.

Definition abort_socket (c : Z) : Eff t unit :=
  let! k := deref_socket c in
  when (negb (bool_decide (sockstate k ∈ [NOT_BOUND; BOUND; CLOSED; SOCKERROR]))) (emit (TcpAbort c)).

Definition processHelloTimeout (msg : Z) : Eff t unit :=
  let! i := gets (fun s => find_timeout msg 0 (myPeers s)) in
  match i with
  | None => fail (AssertionFailed "i < myPeers.size()")
  | Some i =>
      let! p := gets (fun s => myPeers s !! i) in
      match p with
      | None => fail (NullPointer "myPeers[i]")
      | Some p =>
          match socket p with
          | None => fail (AssertionFailed "myPeers[i].socket")
          | Some c =>
              abort_socket c ;;;
              modify (fun s => s <| sockets := delete c (sockets s) |> <| myPeers := delete i (myPeers s) |>) ;;;
              modify (fun s => s <| fecDown := filter (fun b => b_peer b <> peerIP p) (fecDown s) |>
                                 <| fecUp := filter (fun b => b_peer b <> peerIP p) (fecUp s) |>) ;;;
              updateFecList (peerIP p) ;;;
              let! me := gets getRouterId in
              let! index := on_ted (TED.linkIndex_of me (peerIP p)) in
              set_link_state index false ;;;
              announceLinkChange index ;;;
              ted_rebuildRoutingTable
          end
      end
  end.

Definition openTCPConnectionToPeer (peerIndex : nat) : Eff t unit :=
  let! c := getUniqueNumber in
  let! p := gets (fun s => myPeers s !! peerIndex) in
  match p with
  | None => fail (NullPointer "myPeers[peerIndex]")
  | Some p =>
      let! m := gets socketMap in
      assert_ "socketMap.find(connId)==socketMap.end()" (negb (bool_decide (c ∈ m))) ;;;
      modify (fun s => s <| sockets := <[c := mk_TCPSocket CONNECTING peerIndex]> (sockets s) |>
                         <| socketMap := {[c]} ∪ socketMap s |>
                         <| myPeers := alter (fun p => p <| socket := Some c |>) peerIndex (myPeers s) |>) ;;;
      let! me := gets getRouterId in
      emit (TcpOpen c me (peerIP p) LDP_PORT)
  end.

Definition processLDPHello (peerAddr : IPAddress.t) (ifId : Z) : Eff t unit :=
  let! me := gets getRouterId in
  if IPAddress.isUnspecified peerAddr || (peerAddr =? me) then ret tt else
  let! index := on_ted (TED.linkIndex_of me peerAddr) in
  let! l := on_ted (TED.link_at index) in
  when (negb (te_state l))
    (set_link_state index true ;;; ted_rebuildRoutingTable ;;; announceLinkChange index) ;;;
  let! i := gets (findPeer peerAddr) in
  match i with
  | Some i => modify (fun s => s <| myPeers := alter (fun p => p <| timeoutAt := Some (simTime s + holdTime s) |>) i (myPeers s) |>)
  | None =>
      let! name := interface_name ifId in
      let active := u32 me <? u32 peerAddr in
      let! tm := getUniqueNumber in
      modify (fun s => s <| myPeers := myPeers s ++ [mk_peer peerAddr active None name tm (Some (simTime s + holdTime s))] |>) ;;;
      let! n := gets (fun s => length (myPeers s)) in
      sendHelloTo peerAddr ;;;
      when active (openTCPConnectionToPeer (n - 1))
  end.

(** ** Label messages *)
Definition processNOTIFICATION (isSelfMessage : bool) (srcAddr receiver : IPAddress.t) (status : Z) (fec : FEC_TLV) : Eff t unit :=
  if negb (status =? NO_ROUTE) then fail (AssertionFailed "status") else
  let! l := gets fecList in
  match findFecEntry l (fec_addr fec) (fec_length fec) with
  | None => ret tt
  | Some it =>
      if nextHop it =? srcAddr then
        if negb isSelfMessage then
          modify (fun s => s <| retries := retries s ++ [(simTime s + second, LDPNotify srcAddr receiver status fec)] |>)
        else sendMappingRequest srcAddr (fec_addr fec) (fec_length fec)
      else ret tt
  end.

Definition processLABEL_REQUEST (srcAddr : IPAddress.t) (fec : FEC_TLV) : Eff t unit :=
  let! l := gets fecList in
  match findFecEntry l (fec_addr fec) (fec_length fec) with
  | None => sendNotify NO_ROUTE srcAddr (fec_addr fec) (fec_length fec)
  | Some it =>
      let! uit := gets (fun s => findFecBind (fecUp s) (fecid it) srcAddr) in
      assert_ "uit == fecUp.end()" (negb (is_some uit)) ;;;
      let! dit := gets (fun s => findFecBind (fecDown s) (fecid it) (nextHop it)) in
      let! sock := findPeerSocket (nextHop it) in
      let ER := negb (is_some sock) in
      assert_ "!(ER && dit != fecDown.end())" (negb (ER && is_some dit)) ;;;
      let! inInterface := findInterfaceFromPeerAddr srcAddr in
      let! outInterface := findInterfaceFromPeerAddr (nextHop it) in
      if ER then
        let! label := on_lt (LIBTable.installLibEntry (-1) inInterface LIBTable.popLabel outInterface 0) in
        modify (fun s => s <| fecUp := fecUp s ++ [mk_bind (fecid it) srcAddr label] |>) ;;;
        sendMapping LABEL_MAPPING srcAddr label (fec_addr fec) (fec_length fec)
      else match dit with
      | Some d =>
          let! label := on_lt (LIBTable.installLibEntry (-1) inInterface (LIBTable.swapLabel (b_label d)) outInterface LDP_USER_TRAFFIC) in
          modify (fun s => s <| fecUp := fecUp s ++ [mk_bind (fecid it) srcAddr label] |>) ;;;
          sendMapping LABEL_MAPPING srcAddr label (fec_addr fec) (fec_length fec)
      | None => modify (fun s => s <| pending := pending s ++ [mk_pending (fecid it) srcAddr] |>)
      end
  end.

Definition processLABEL_RELEASE (fromIP : IPAddress.t) (fec : FEC_TLV) (label : Z) : Eff t unit :=
  assert_ "label > 0" (0 <? label) ;;;
  let! l := gets fecList in
  match findFecEntry l (fec_addr fec) (fec_length fec) with
  | None => ret tt
  | Some it =>
      let! uit := gets (fun s => findFecBind (fecUp s) (fecid it) fromIP) in
      match uit with
      | None => ret tt
      | Some u =>
          if negb (label =? b_label u) then ret tt else
          on_lt (LIBTable.removeLibEntry (b_label u)) ;;;
          modify (fun s => s <| fecUp := erase_bind (fecid it) fromIP (fecUp s) |>)
      end
  end.

(** The message goes back as it came, with another type. *)
Definition processLABEL_WITHDRAW (fromIP receiver : IPAddress.t) (fec : FEC_TLV) (label : Z) : Eff t unit :=
  assert_ "label > 0" (0 <? label) ;;;
  let! l := gets fecList in
  match findFecEntry l (fec_addr fec) (fec_length fec) with
  | None => ret tt
  | Some it =>
      let! dit := gets (fun s => findFecBind (fecDown s) (fecid it) fromIP) in
      match dit with
      | None => ret tt
      | Some d =>
          if negb (label =? b_label d) then ret tt else
          modify (fun s => s <| fecDown := erase_bind (fecid it) fromIP (fecDown s) |>) ;;;
          sendToPeer fromIP (LDPLabelMapping LABEL_RELEASE fromIP receiver fec label) ;;;
          updateFecListEntry it
      end
  end.

Definition answer_pending (it : fec_t) (fromIP : IPAddress.t) (label : Z) (p : pending_req_t) : Eff t (option pending_req_t) :=
  if negb (p_fecid p =? fecid it) then ret (Some p) else
  let! inInterface := findInterfaceFromPeerAddr (p_peer p) in
  let! outInterface := findInterfaceFromPeerAddr fromIP in
  let! l := on_lt (LIBTable.installLibEntry (-1) inInterface (LIBTable.swapLabel label) outInterface LDP_USER_TRAFFIC) in
  modify (fun s => s <| fecUp := fecUp s ++ [mk_bind (fecid it) (p_peer p) l] |>) ;;;
  sendMapping LABEL_MAPPING (p_peer p) l (addr it) (flength it) ;;;
  ret None.

Definition processLABEL_MAPPING (fromIP : IPAddress.t) (fec : FEC_TLV) (label : Z) : Eff t unit :=
  assert_ "label > 0" (0 <? label) ;;;
  let! l := gets fecList in
  match findFecEntry l (fec_addr fec) (fec_length fec) with
  | None => fail (AssertionFailed "it != fecList.end()")
  | Some it =>
      let! dit := gets (fun s => findFecBind (fecDown s) (fecid it) fromIP) in
      assert_ "dit == fecDown.end()" (negb (is_some dit)) ;;;
      modify (fun s => s <| fecDown := fecDown s ++ [mk_bind (fecid it) fromIP label] |>) ;;;
      let! ps := gets pending in
      let! ps := mapE (answer_pending it fromIP label) ps in
      modify (fun s => s <| pending := omap id ps |>)
  end.

Definition processLDPPacketFromTCP (p : LDPPacket) : Eff t unit :=
  match p with
  | LDPLabelMapping LABEL_MAPPING from _ fec label => processLABEL_MAPPING from fec label
  | LDPLabelMapping LABEL_WITHDRAW from to fec label => processLABEL_WITHDRAW from to fec label
  | LDPLabelMapping LABEL_RELEASE from _ fec label => processLABEL_RELEASE from fec label
  | LDPLabelRequest from _ fec => processLABEL_REQUEST from fec
  | LDPNotify from to status fec => processNOTIFICATION false from to status fec
  | LDPUnsupported _ => fail (RuntimeError "LDP message unsupported in this version")
  end.

(** ** TCP *)
Definition peer_at (i : nat) : Eff t peer_info :=
  let! p := gets (fun s => myPeers s !! i) in
  match p with Some p => ret p | None => fail (NullPointer "myPeers[yourPtr]") end.

Definition socketEstablished (ptr : nat) : Eff t unit :=
  let! p := peer_at ptr in updateFecList (peerIP p).
Definition socketDataArrived (ptr : nat) (msg : LDPPacket) : Eff t unit :=
  let! _ := peer_at ptr in processLDPPacketFromTCP msg.
Definition socketPeerClosed (ptr : nat) : Eff t unit :=
  let! _ := peer_at ptr in fail (AssertionFailed "socketPeerClosed").
Definition socketClosed (ptr : nat) : Eff t unit :=
  let! _ := peer_at ptr in fail (AssertionFailed "socketClosed").
Definition socketFailure (ptr : nat) : Eff t unit :=
  let! _ := peer_at ptr in fail (AssertionFailed "socketFailure").

Definition set_sockstate (c : Z) (st : SockState) : Eff t unit :=
  modify (fun s => s <| sockets := alter (fun k => mk_TCPSocket st (yourPtr k)) c (sockets s) |>).

(** [TCPSocket::processMessage] *)
Definition processMessage (c : Z) (kind : TcpKind) : Eff t unit :=
  let! k := deref_socket c in
  match kind with
  | TCP_I_DATA p => socketDataArrived (yourPtr k) p
  | TCP_I_ESTABLISHED _ => set_sockstate c CONNECTED ;;; socketEstablished (yourPtr k)
  | TCP_I_PEER_CLOSED =>
      set_sockstate c (if bool_decide (sockstate k = CONNECTED) then PEER_CLOSED else CLOSED) ;;; socketPeerClosed (yourPtr k)
  | TCP_I_CLOSED => set_sockstate c CLOSED ;;; socketClosed (yourPtr k)
  | TCP_I_FAILURE => set_sockstate c SOCKERROR ;;; socketFailure (yourPtr k)
  end.

Definition processMessageFromTCP (c : Z) (kind : TcpKind) : Eff t unit :=
  let! m := gets socketMap in
  if bool_decide (c ∈ m) then processMessage c kind else
  let peerAddr := match kind with TCP_I_ESTABLISHED a => a | _ => 0 end in
  let! i := gets (findPeer peerAddr) in
  match i with
  | None => emit (TcpClose c)
  | Some i =>
      let! p := peer_at i in
      if is_some (socket p) then emit (TcpClose c) else
      modify (fun s => s <| myPeers := alter (fun p => p <| socket := Some c |>) i (myPeers s) |>
                         <| sockets := <[c := mk_TCPSocket CONNECTED i]> (sockets s) |>
                         <| socketMap := {[c]} ∪ socketMap s |>) ;;;
      processMessage c kind
  end.

(** ** The module *)
Inductive Message : Type :=
  | SendHello
  | HelloTimeout (msg : Z)
  | NotifyRetry (sender receiver : IPAddress.t) (status : Z) (fec : FEC_TLV)
  | FromUDP (sender : IPAddress.t) (ifId : Z)
  | FromTCP (connId : Z) (kind : TcpKind).

Definition handleMessage (msg : Message) : Eff t unit :=
  match msg with
  | SendHello =>
      sendHelloTo ALL_ROUTERS_MCAST ;;;
      modify (fun s => s <| sendHelloAt := Some (simTime s + helloInterval s) |>)
  | HelloTimeout m => processHelloTimeout m
  | NotifyRetry from to status fec => processNOTIFICATION true from to status fec
  | FromUDP from ifId => processLDPHello from ifId
  | FromTCP c kind => processMessageFromTCP c kind
  end.

Definition initialize (x : TED.t) (table : LIBTable.t) (hold hello firstHello unique : Z) : Eff unit t := fun u =>
  let s := {| tedmod := x; lt := table; holdTime := hold; helloInterval := hello; fecList := []; fecUp := []; fecDown := [];
              pending := []; myPeers := []; sockets := ∅; socketMap := ∅; sendHelloAt := None; retries := []; maxFecid := 0;
              uniqueNumber := unique; announced := []; sent := [] |} in
  match (modify (fun s => s <| sendHelloAt := Some (simTime s + firstHello) |>) ;;;
         emit (TcpListen LDP_PORT) ;;; rebuildFecList) s with
  | Ok _ s => Ok s u
  | Err e => Err e
  end.
End Module_.

(** ** The label of a datagram *)
Definition never_labelled (d : Datagram) : Eff t bool :=
  if dg_protocol d =? IP_PROT_OSPF then ret true else
  if dg_protocol d =? IPDatagram.IP_PROT_UDP then
    match dg_encapsulated d with
    | EncUDP _ dest => ret (dest =? LDP_PORT)
    | _ => fail (RuntimeError "check_and_cast: cannot cast to UDPPacket")
    end
  else if dg_protocol d =? IPDatagram.IP_PROT_TCP then
    match dg_encapsulated d with
    | EncTCP src dest => ret ((dest =? LDP_PORT) || (src =? LDP_PORT))
    | _ => fail (RuntimeError "check_and_cast: cannot cast to TCPSegment")
    end
  else ret false.

Definition lookupLabel (d : Datagram) : Eff t (option (LabelOpVector * string * Z)) :=
  let! b := never_labelled d in
  if b then ret None else
  let! l := gets fecList in
  match List.find (fun f => IPAddress.prefixMatches (dg_dest d) (addr f) (flength f)) l with
  | None => ret None
  | Some it =>
      let! dit := gets (fun s => findFecBind (fecDown s) (fecid it) (nextHop it)) in
      match dit with
      | None => ret None
      | Some b =>
          let! outInterface := findInterfaceFromPeerAddr (nextHop it) in
          ret (Some (LIBTable.pushLabel (b_label b), outInterface, LDP_USER_TRAFFIC))
      end
  end.

#[export] Instance ldp_router : LabelSwitchRouter t := {|
  lsr_lookupLabel := lookupLabel;
  lsr_lt := lt;
  lsr_ift := fun s => ift (node_of s)
|}.
End LDP.
