(* ===== verification/LdpSpec.v ===== *)
(** * One router of a label distribution network

    While the routing table does not change, the answers of
    [findInterfaceFromPeerAddr] do not change either, whatever the caches hold; and
    the handlers of [LDP] keep the bindings of a router in agreement with its label
    information base and with what it has told its peers. *)
From Stdlib Require Import String.
From S2P Require Import Prelude IPAddress InterfaceTable RoutingTable RoutingSpec TED Mpls Ldp.
Import LDP.

(** ** Names of interfaces *)
(** Everything but the caches and the time. *)
Definition fixed (n : Node) :=
  (ift n, heap (rt n), nextRoute (rt n), routes (rt n), multicastRoutes (rt n), timetolive_routing_entry (rt n),
   RoutingTable.routerId (rt n)).

Definition local_addresses (n : Node) : option (gset Z) :=
  match mapE ipv4Data (InterfaceTable.interfaces (ift n)) n with
  | Ok ds _ => Some (list_to_set (inetAddr <$> ds))
  | Err _ => None
  end.
Definition best_route (n : Node) (dest : Z) : option positive :=
  match search_route dest n with Ok p _ => p | Err _ => None end.

Record node_ok (n0 n : Node) : Prop := {
  no_fixed : fixed n = fixed n0;
  no_table : table_inv (rt n);
  no_cache : forall dest p, routingCache (rt n) !! dest = Some (Some p) -> best_route n0 dest = Some p;
  no_local : localAddresses (rt n) <> ∅ -> local_addresses n0 = Some (localAddresses (rt n))
}.

(** The interface that leads to [a]. *)
Definition name_of (n : Node) (a : IPAddress.t) : option string :=
  match local_addresses n with
  | None => None
  | Some l =>
      if bool_decide (a ∈ l) then Some "lo0"%string else
      match best_route n a with
      | None => None
      | Some p => match heap (rt n) !! p with
                  | None => None
                  | Some e => match interfacePtr e with
                              | None => None
                              | Some i => ie_name <$> InterfaceTable.getInterfaceById i (ift n)
                              end
                  end
      end
  end.

Lemma mapE_ipv4Data_any {S S'} (l : list InterfaceEntry) (s : S) (s' : S') :
  match mapE ipv4Data l s, mapE ipv4Data l s' with
  | Ok ds s1, Ok ds' s1' => ds = ds' /\ s1 = s /\ s1' = s'
  | Err _, Err _ => True
  | _, _ => False
  end.
Proof.
  assert (forall T (x : T) e, ipv4Data e x = match ipv4data e with Some d => Ok d x | None => Err (NullPointer "ipv4Data()") end) as Hd.
  { intros T x e. unfold ipv4Data. by destruct (ipv4data e). }
  induction l as [|e l IH]; cbn; [done|]. unfold bind. rewrite !Hd. destruct (ipv4data e) as [d|]; [|done].
  destruct (mapE ipv4Data l s), (mapE ipv4Data l s'); try done. by destruct IH as (-> & -> & ->).
Qed.

Section Fixed.
Implicit Types n : Node.

Lemma local_addresses_fixed n n' : fixed n' = fixed n -> local_addresses n' = local_addresses n.
Proof.
  intros [= Hi _ _ _ _ _ _]. unfold local_addresses. rewrite Hi.
  pose proof (mapE_ipv4Data_any (InterfaceTable.interfaces (ift n)) n' n) as Hm.
  destruct (mapE ipv4Data _ n'), (mapE ipv4Data _ n); try done. by destruct Hm as (-> & _ & _).
Qed.

Lemma best_loop_fixed dest l b longest n n' : heap (rt n') = heap (rt n) ->
  timetolive_routing_entry (rt n) = None -> timetolive_routing_entry (rt n') = None ->
  match best_loop dest l b longest n, best_loop dest l b longest n' with
  | Ok r n1, Ok r' n1' => r = r' /\ n1 = n /\ n1' = n'
  | Err _, Err _ => True
  | _, _ => False
  end.
Proof.
  intros Hh Ht Ht'. revert b longest. induction l as [|p l IH]; intros b longest; cbn; [done|].
  assert (forall q x, heap (rt x) = heap (rt n) -> deref q x = match heap (rt n) !! q with Some e => Ok e x | None => Err (NullPointer "dangling route pointer") end) as Hd.
  { intros q x Hx. unfold deref, bind, get_rt, gets. rewrite Hx. by destruct (heap (rt n) !! q). }
  unfold bind. rewrite (Hd p n eq_refl), (Hd p n' Hh). destruct (heap (rt n) !! p) as [e|]; [|done].
  rewrite (testValidity_run n e Ht), (testValidity_run n' e Ht'). cbn [andb].
  destruct b as [b|]; [|unfold ret; destruct (better dest e None longest); apply IH].
  rewrite (Hd b n eq_refl), (Hd b n' Hh). destruct (heap (rt n) !! b) as [be|]; [|done].
  unfold ret. destruct (better dest e (Some be) longest); apply IH.
Qed.

Lemma table_inv_fixed n n' : fixed n' = fixed n -> table_inv (rt n) -> table_inv (rt n').
Proof. intros [= _ Hh Hn Hr Hm Ht _]. apply table_inv_same. by split_and!. Qed.

Lemma search_is_best_loop n dest : table_inv (rt n) -> search_route dest n = best_loop dest (routes (rt n)) None 0 n.
Proof.
  intros Hi. destruct (best_loop_spec n dest [] (routes (rt n)) None 0) as (res & Hres & Hf).
  - apply Hi.
  - intros p Hp. apply (ti_heap _ Hi). set_solver.
  - intros q e' Hq. set_solver.
  - done.
  - rewrite Hres. unfold search_route. rewrite (bind_ok (get_rt routes) _ n _ n) by done.
    rewrite (bind_ok _ _ _ _ _ Hres). destruct res as [p|]; [|done].
    destruct Hf as (e & Hp & He & _). rewrite (bind_ok _ _ _ _ _ (deref_run _ _ _ He)).
    by rewrite bool_decide_false by (by apply (ti_manet _ Hi p)).
Qed.

Lemma best_route_fixed n n' dest : table_inv (rt n) -> fixed n' = fixed n ->
  best_route n' dest = best_route n dest /\ search_route dest n' = Ok (best_route n dest) n'.
Proof.
  intros Hi Hf. pose proof (table_inv_fixed _ _ Hf Hi) as Hi'. injection Hf as _ Hh _ Hr _ Ht _.
  unfold best_route. rewrite !search_is_best_loop by done. rewrite Hr.
  destruct (search_route_spec n' dest Hi') as (res' & Hres' & _). rewrite search_is_best_loop, Hr in Hres' by done.
  pose proof (best_loop_fixed dest (routes (rt n)) None 0 n n' Hh (ti_ttl _ Hi) (ti_ttl _ Hi')) as Hb. rewrite Hres' in *.
  destruct (best_loop dest (routes (rt n)) None 0 n) as [r n1|]; [|done]. by destruct Hb as (-> & _ & _).
Qed.

Lemma best_route_deref n dest p : table_inv (rt n) -> best_route n dest = Some p -> is_Some (heap (rt n) !! p).
Proof.
  intros Hi Hb. destruct (search_route_spec n dest Hi) as (res & Hres & Hs). unfold best_route in Hb. rewrite Hres in Hb.
  subst res. destruct Hs as (e & _ & He & _). by exists e.
Qed.

(** A change of the caches that keeps them right. *)
Lemma node_ok_caches n0 n n' : node_ok n0 n -> fixed n' = fixed n ->
  (forall dest p, routingCache (rt n') !! dest = Some (Some p) -> best_route n0 dest = Some p) ->
  (localAddresses (rt n') <> ∅ -> local_addresses n0 = Some (localAddresses (rt n'))) -> node_ok n0 n'.
Proof. intros [H1 H2 H3 H4] Hf Hc Hl. split; [congruence|by eapply table_inv_fixed|done|done]. Qed.

Lemma isLocalAddress_fixed n0 n a : node_ok n0 n ->
  wlp (isLocalAddress a) (fun b n' => node_ok n0 n' /\ exists l, local_addresses n0 = Some l /\ b = bool_decide (a ∈ l)) n.
Proof.
  intros Hok. unfold isLocalAddress. apply wlp_bind. unfold wlp at 1, get_rt, gets. case_bool_decide as He.
  - apply wlp_bind, wlp_bind. unfold wlp at 1, all_interfaces, gets. apply wlp_bind. unfold wlp at 1.
    pose proof (local_addresses_fixed _ _ (no_fixed _ _ Hok)) as Hl. unfold local_addresses in Hl.
    pose proof (mapE_ipv4Data_any (InterfaceTable.interfaces (ift n)) n n) as Hm.
    destruct (mapE ipv4Data (InterfaceTable.interfaces (ift n)) n) as [ds n1|]; [|done]. destruct Hm as (_ & -> & _).
    unfold wlp, set_rt, modify, bind, get_rt, gets, ret. cbn. split.
    + apply (node_ok_caches n0 n); [done|done|apply Hok|]. intros _. unfold local_addresses. by rewrite <- Hl.
    + eexists. split; [unfold local_addresses; by rewrite <- Hl|done].
  - apply wlp_bind. cbn. split; [done|]. exists (localAddresses (rt n)). split; [by apply Hok|done].
Qed.

Lemma findBest_fixed n0 n dest : node_ok n0 n -> table_inv (rt n0) ->
  wlp (findBestMatchingRoute dest) (fun r n' => node_ok n0 n' /\ r = best_route n0 dest) n.
Proof.
  intros Hok Hi0. unfold findBestMatchingRoute, cached_route. apply wlp_bind, wlp_bind. unfold wlp at 1, get_rt, gets.
  assert (forall n', node_ok n0 n' -> wlp (let! bestRoute := search_route dest in
      set_rt (fun r => r <| routingCache := <[dest := bestRoute]> (routingCache r) |>) ;;; ret bestRoute)
      (fun r n' => node_ok n0 n' /\ r = best_route n0 dest) n') as Hgo.
  { intros n' Hn'. destruct (best_route_fixed n0 n' dest Hi0 (no_fixed _ _ Hn')) as [_ Hs].
    unfold wlp, bind. rewrite Hs. cbn. split; [|done]. apply (node_ok_caches n0 n'); [done|done| |apply Hn'].
    intros d p. cbn. destruct (decide (d = dest)) as [->|Hne].
    - rewrite lookup_insert, decide_True by done. by intros [= ->].
    - rewrite lookup_insert_ne by done. apply Hn'. }
  destruct (routingCache (rt n) !! dest) as [[p|]|] eqn:Hc.
  - pose proof (no_cache _ _ Hok dest p Hc) as Hb. pose proof (best_route_deref _ _ _ Hi0 Hb) as [e He].
    pose proof (no_fixed _ _ Hok) as Hf. injection Hf as _ Hh _ Hr _ _ _.
    rewrite <- Hh in He. unfold wlp at 1. rewrite (bind_ok _ _ _ _ _ (deref_run n p e He)).
    rewrite (bind_ok _ _ _ _ _ (testValidity_run n e (ti_ttl _ (no_table _ _ Hok)))). cbn [andb].
    unfold ret. destruct (negb _ || _); [by split|by apply Hgo].
  - unfold wlp at 1, bind, invalidateCache, set_rt, modify, ret. apply Hgo.
    apply (node_ok_caches n0 n); [done|done| |]; cbn; [intros d p; by rewrite lookup_empty|done].
  - unfold ret, wlp at 1. by apply Hgo.
Qed.

(** [findInterfaceFromPeerAddr] gives that name and touches the caches only. *)
Definition same_but_node (s s' : t) : Prop := s' = s <| tedmod := (tedmod s) <| TED.node := node_of s' |> |>.

Lemma findInterface_fixed n0 a s : table_inv (rt n0) -> node_ok n0 (node_of s) ->
  wlp (findInterfaceFromPeerAddr a) (fun name s' => name_of n0 a = Some name /\ node_ok n0 (node_of s') /\ same_but_node s s') s.
Proof.
  intros Hi0 Hok. unfold findInterfaceFromPeerAddr. apply wlp_bind.
  assert (forall {A} (m : Eff Node A) (Q : A -> t -> Prop) x, wlp m (fun a n => Q a (x <| tedmod := (tedmod x) <| TED.node := n |> |>)) (node_of x) ->
    wlp (on_node m) Q x) as Hon.
  { intros A m Q x. unfold wlp, on_node, on_ted, TED.on_node, node_of. by destruct (m (TED.node (tedmod x))). }
  apply Hon. eapply wlp_mono; [by apply isLocalAddress_fixed|]. intros b n1 (Hok1 & l & Hl & ->).
  unfold name_of. rewrite Hl. case_bool_decide; [unfold wlp, ret; by split_and!|].
  apply wlp_bind, Hon. unfold getInterfaceForDestAddr. apply wlp_bind. eapply wlp_mono; [by apply findBest_fixed|].
  intros r n2 [Hok2 ->]. destruct (best_route n0 a) as [p|]; [|done].
  apply wlp_bind. unfold wlp at 1, deref, bind, get_rt, gets. pose proof (no_fixed _ _ Hok2) as Hf. injection Hf as Hift Hh _ _ _ _ _.
  rewrite Hh. destruct (heap (rt n0) !! p) as [e|]; cbn; [|done].
  destruct (interfacePtr e) as [i|]; [|done]. unfold interface_name, wlp, bind, gets. cbn. unfold node_of. cbn. rewrite Hift.
  destruct (InterfaceTable.getInterfaceById i (ift n0)) as [ie|]; [|done]. cbn. split_and!; [done|done|]. unfold same_but_node. by destruct s as [[]].
Qed.
End Fixed.

(** ** The state of a router *)
Definition key (f : fec_t) : FEC_TLV := mk_FEC (addr f) (flength f).
Definition find_key (fecs : list fec_t) (k : FEC_TLV) : option fec_t := findFecEntry fecs (fec_addr k) (fec_length k).

(** The router at the other end of a connection, and what was sent to whom. *)
Definition dest_of (s : t) (c : Z) : option IPAddress.t :=
  peerIP <$> List.find (fun p => bool_decide (socket p = Some c)) (myPeers s).
Definition msgs (s : t) : list (IPAddress.t * LDPPacket) :=
  omap (fun x => match x with TcpSend c p => (fun d => (d, p)) <$> dest_of s c | _ => None end) (sent s).

Definition entries (s : t) : list LIBTable.LIBEntry := LIBTable.lib (lt s).
Definition count (s : t) : Z := Z.of_nat (length (entries s)).

(** Labels are numbered by an [int]. *)
Definition bounded (s : t) : Prop := count s <= 2147483647.
Definition later (s s' : t) : Prop := count s <= count s' /\ (exists new, sent s' = sent s ++ new) /\ myPeers s' = myPeers s.

Lemma later_refl s : later s s.
Proof. split_and!; [lia| |done]. exists []. by rewrite app_nil_r. Qed.
Lemma later_trans s1 s2 s3 : later s1 s2 -> later s2 s3 -> later s1 s3.
Proof.
  intros (H1 & [n1 Hn1] & H2) (H3 & [n2 Hn2] & H4). split_and!; [lia| |congruence]. exists (n1 ++ n2). by rewrite Hn2, Hn1, app_assoc.
Qed.
Lemma later_bounded s s' : later s s' -> bounded s' -> bounded s.
Proof. intros [H _] H'. unfold bounded in *. lia. Qed.
(** The label table, the peers and what was sent are as before. *)
Lemma later_same s s' : lt s' = lt s -> sent s' = sent s -> myPeers s' = myPeers s -> later s s'.
Proof. intros H1 H2 H3. split_and!; [unfold count, entries; by rewrite H1| |done]. exists []. by rewrite H2, app_nil_r. Qed.

Section Router.
(** The classes and the node of every router; this router; the labels [E d l k] that
    router [d] has told this router for the class [k]. *)
Context (F : IPAddress.t -> list fec_t) (N : IPAddress.t -> Node) (me : IPAddress.t) (E : IPAddress.t -> Z -> FEC_TLV -> Prop).

Definition wants (k : FEC_TLV) (n : IPAddress.t) : Prop := exists g, g ∈ F me /\ key g = k /\ nextHop g = n.
Definition serves (k : FEC_TLV) (u : IPAddress.t) : Prop := exists g, g ∈ F u /\ key g = k /\ nextHop g = me.
Definition class_of (id : Z) (k : FEC_TLV) : Prop := exists f, find_key (F me) k = Some f /\ fecid f = id.
Definition mapped (s : t) (l : Z) (k : FEC_TLV) (u : IPAddress.t) : Prop :=
  (u, LDPLabelMapping LABEL_MAPPING me u k l) ∈ msgs s.

(** Pops the label, or swaps it for one that the next hop has told for the class. *)
Definition entry_ok (k : FEC_TLV) (e : LIBTable.LIBEntry) : Prop :=
  exists n, wants k n /\ name_of (N me) n = Some (LIBTable.outInterface e) /\
    (LIBTable.outLabel e = LIBTable.popLabel \/ exists l, LIBTable.outLabel e = LIBTable.swapLabel l /\ E n l k).

Definition out_ok (d : IPAddress.t) (p : LDPPacket) : Prop :=
  match p with
  | LDPLabelMapping LABEL_MAPPING from to _ _ => from = me /\ to = d
  | LDPLabelMapping LABEL_WITHDRAW from _ _ _ => from = me
  | LDPLabelMapping LABEL_RELEASE from _ _ _ => from = d
  | LDPLabelRequest from _ k => from = me /\ wants k d
  | _ => True
  end.

Record lsr_ok (s : t) : Prop := {
  lo_fecs : fecList s = F me;
  lo_ids : NoDup (fecid <$> F me);
  lo_node : node_ok (N me) (node_of s);
  lo_me : getRouterId s = me;
  lo_peers : forall p, p ∈ myPeers s -> peerIP p <> me;
  lo_sockets : forall p c, p ∈ myPeers s -> socket p = Some c -> c ∈ socketMap s;
  lo_inj : forall p q c, p ∈ myPeers s -> q ∈ myPeers s -> socket p = Some c -> socket q = Some c -> peerIP p = peerIP q;
  lo_down : forall b, b ∈ fecDown s -> exists k, class_of (b_fecid b) k /\ wants k (b_peer b) /\ E (b_peer b) (b_label b) k;
  lo_up : forall b, b ∈ fecUp s -> b_peer b <> me /\ exists k, class_of (b_fecid b) k /\ mapped s (b_label b) k (b_peer b);
  lo_pending : forall p, p ∈ pending s -> p_peer p <> me /\ exists k, class_of (p_fecid p) k /\ serves k (p_peer p);
  lo_labels : LIBTable.inLabel <$> entries s = seqZ 1 (count s);
  lo_max : LIBTable.maxLabel (lt s) = count s;
  lo_mapped : forall l k u, mapped s l k u -> 1 <= l /\ serves k u /\
    exists e, entries s !! Z.to_nat (l - 1) = Some e /\ name_of (N me) u = Some (LIBTable.inInterface e) /\ entry_ok k e;
  lo_unique : forall l k u k' u', mapped s l k u -> mapped s l k' u' -> k' = k /\ u' = u;
  lo_msgs : forall d p, (d, p) ∈ msgs s -> d <> me /\ out_ok d p;
  lo_sent : forall c p, TcpSend c p ∈ sent s -> c ∈ socketMap s
}.

(** The invariant looks at these fields and at the node. *)
Definition core (s : t) := (fecList s, fecUp s, fecDown s, pending s, myPeers s, socketMap s, sent s, lt s).

Lemma lsr_ok_core s s' : lsr_ok s -> core s' = core s -> node_ok (N me) (node_of s') -> lsr_ok s'.
Proof.
  intros Hok [= H1 H2 H3 H4 H5 H6 H7 H8] Hn.
  assert (msgs s' = msgs s) as Hm by (unfold msgs, dest_of; by rewrite H5, H7).
  assert (entries s' = entries s) as He by (unfold entries; by rewrite H8).
  assert (count s' = count s) as Hc by (unfold count; by rewrite He).
  destruct Hok as [O1 O2 O3 O4 O5 O6 O7 O8 O9 O10 O11 O12 O13 O14 O15 O16].
  assert (getRouterId s' = me) as Hme.
  { pose proof (no_fixed _ _ Hn) as Hf. pose proof (no_fixed _ _ O3) as Hf'. unfold getRouterId in *.
    injection Hf as _ _ _ _ _ _ ->. by injection Hf' as _ _ _ _ _ _ <-. }
  split; unfold mapped in *; rewrite ?H1, ?H2, ?H3, ?H4, ?H5, ?H6, ?H7, ?H8, ?Hm, ?He, ?Hc; done.
Qed.

(** ** What a handler keeps

    The invariant is kept as long as the table of labels has not grown too long. *)
Definition keeps {A} (P : Prop) (m : Eff t A) (Q : A -> Prop) : Prop := forall s,
  wlp m (fun a s' => later s s' /\ (bounded s' -> lsr_ok s -> P -> lsr_ok s' /\ Q a)) s.

Lemma keeps_ret {A} (P : Prop) (a : A) (Q : A -> Prop) : (P -> Q a) -> keeps P (ret a) Q.
Proof. intros HQ s. unfold wlp, ret. split; [apply later_refl|]. intros _ Hok HP. auto. Qed.

Lemma keeps_fail {A} P e (Q : A -> Prop) : keeps P (fail e) Q.
Proof. done. Qed.

Lemma keeps_bind {A B} P (m : Eff t A) (k : A -> Eff t B) Q X :
  keeps P m Q -> (forall a, keeps (P /\ Q a) (k a) X) -> keeps P (bind m k) X.
Proof.
  intros Hm Hk s. apply wlp_bind. eapply wlp_mono; [apply Hm|]. intros a s1 [Hle H1]. cbn.
  eapply wlp_mono; [apply Hk|]. intros b s2 [Hle' H2]. split; [by eapply later_trans|]. intros Hb Hok HP. cbn in *.
  destruct H1 as [Hok1 HQ]; [by eapply later_bounded|done|done|]. by apply H2.
Qed.

Lemma keeps_gets {A} (P : Prop) (f : t -> A) (Q : A -> Prop) : (forall s, lsr_ok s -> P -> Q (f s)) -> keeps P (gets f) Q.
Proof. intros HQ s. unfold wlp, gets. split; [apply later_refl|]. auto. Qed.

Lemma keeps_assert (P : Prop) w b (Q : unit -> Prop) : (b = true -> P -> Q tt) -> keeps P (assert_ w b) Q.
Proof. intros HQ s. unfold wlp, assert_. destruct b; [|done]. split; [apply later_refl|]. auto. Qed.

Lemma keeps_modify (P : Prop) (f : t -> t) (Q : unit -> Prop) :
  (forall s, lt (f s) = lt s /\ sent (f s) = sent s /\ myPeers (f s) = myPeers s) -> (forall s, lsr_ok s -> P -> lsr_ok (f s) /\ Q tt) -> keeps P (modify f) Q.
Proof. intros Hf HQ s. unfold wlp, modify. split; [destruct (Hf s) as (? & ? & ?); by apply later_same|]. auto. Qed.

Lemma keeps_when P b (m : Eff t unit) Q : (b = true -> keeps P m Q) -> (b = false -> P -> Q tt) -> keeps P (when b m) Q.
Proof. intros H1 H2. destruct b; cbn [when]; [auto|]. apply keeps_ret. auto. Qed.

Lemma keeps_mono {A} (P P' : Prop) (m : Eff t A) (Q Q' : A -> Prop) :
  keeps P m Q -> (P' -> P) -> (forall a, P' -> Q a -> Q' a) -> keeps P' m Q'.
Proof.
  intros Hm HP HQ s. eapply wlp_mono; [apply Hm|]. intros a s' [Hle H]. split; [done|]. intros Hb Hok HP'.
  destruct (H Hb Hok (HP HP')); auto.
Qed.

Lemma keeps_mapE {A B} P (f : A -> Eff t B) (l : list A) (R : A -> B -> Prop) :
  (forall a, a ∈ l -> keeps P (f a) (R a)) -> keeps P (mapE f l) (Forall2 R l).
Proof.
  induction l as [|a l IH]; cbn; intros Hf; [apply keeps_ret; auto|].
  eapply keeps_bind; [apply Hf; set_solver|]. intros b. eapply keeps_bind.
  - eapply keeps_mono; [apply IH; set_solver|by intros []|by intros ? ? H; apply H].
  - intros bs. apply keeps_ret. intros [[_ Hb] Hbs]. by constructor.
Qed.

Lemma keeps_ext {A} P (m m' : Eff t A) Q : (forall s, m s = m' s) -> keeps P m' Q -> keeps P m Q.
Proof. intros He Hm s. unfold wlp. rewrite He. apply Hm. Qed.

(** Names of interfaces. *)
Context (HN : table_inv (rt (N me))).
Lemma keeps_interface (P : Prop) a : keeps P (findInterfaceFromPeerAddr a) (fun name => name_of (N me) a = Some name).
Proof.
  intros s. unfold wlp. destruct (findInterfaceFromPeerAddr a s) as [name s'|] eqn:Hr; [|done].
  assert (exists n, s' = s <| tedmod := (tedmod s) <| TED.node := n |> |>) as [n Hs'].
  { revert Hr. unfold findInterfaceFromPeerAddr, bind, on_node, on_ted, TED.on_node, interface_name, gets, ret, fail, bind. 
    destruct (isLocalAddress a (TED.node (tedmod s))) as [[] n1|]; [intros [= _ <-]; by eexists| |done].
    cbn. destruct (getInterfaceForDestAddr a n1) as [[i|] n2|]; [|done|done]. cbn.
    destruct (InterfaceTable.getInterfaceById i _); [|done]. intros [= _ <-]. exists n2. by destruct s as [[]]. }
  split; [subst s'; by apply later_same|]. intros _ Hok _.
  pose proof (findInterface_fixed (N me) a s HN (lo_node _ Hok)) as Hw. unfold wlp in Hw. rewrite Hr in Hw.
  destruct Hw as (Hname & Hn & _). split; [|done]. apply (lsr_ok_core s); [done|by subst s'|done].
Qed.
End Router.
