(* ===== verification/LdpHandlers.v ===== *)
(** * The handlers of label distribution

    Every handler that does not change the routing table keeps the invariant of
    [LdpSpec]. *)
From Stdlib Require Import String.
From S2P Require Import Prelude IPAddress InterfaceTable RoutingTable RoutingSpec TED Mpls Ldp LdpSpec.
Import LDP.

(** ** Sockets and messages *)
Lemma find_peer_spec a i l j : find_peer a i l = Some j -> exists p, l !! (j - i)%nat = Some p /\ peerIP p = a /\ (i <= j)%nat.
Proof.
  revert i. induction l as [|p l IH]; intros i; cbn; [done|]. destruct (Z.eqb_spec (peerIP p) a) as [Hp|Hp].
  - intros [= <-]. exists p. rewrite Nat.sub_diag. split_and!; [done|done|lia].
  - intros Hf. apply IH in Hf as (q & Hq & Hqa & Hle). exists q. split_and!; [|done|lia].
    replace (j - i)%nat with (S (j - S i)) by lia. done.
Qed.

Lemma findPeerSocket_run a s : wlp (findPeerSocket a) (fun r s' => s' = s /\
  forall c, r = Some c -> exists p, p ∈ myPeers s /\ peerIP p = a /\ socket p = Some c) s.
Proof.
  unfold findPeerSocket, findPeer, wlp, bind, gets. destruct (find_peer a 0 (myPeers s)) as [i|] eqn:Hi; [|done].
  apply find_peer_spec in Hi as (p & Hp & Ha & _). rewrite Nat.sub_0_r in Hp. rewrite Hp. cbn.
  destruct (socket p) as [c|] eqn:Hc; [|done]. unfold deref_socket, bind, gets. destruct (sockets s !! c) as [k|]; [|done]. cbn.
  split; [done|]. intros c'. case_bool_decide; [|done]. intros [= <-]. exists p. split_and!; [|done|done]. by eapply list_elem_of_lookup_2.
Qed.

Lemma getPeerSocket_run a s : wlp (getPeerSocket a) (fun c s' => s' = s /\
  exists p, p ∈ myPeers s /\ peerIP p = a /\ socket p = Some c) s.
Proof.
  unfold getPeerSocket. apply wlp_bind. eapply wlp_mono; [apply findPeerSocket_run|]. intros [c|] s' [-> Hc]; [|done].
  unfold wlp, ret. split; [done|]. by apply Hc.
Qed.

Lemma later_emit s x : later s (s <| sent := sent s ++ [x] |>).
Proof. split_and!; [unfold count, entries; cbn; lia|by exists [x]|done]. Qed.

Lemma msgs_emit s c p : msgs (s <| sent := sent s ++ [TcpSend c p] |>) =
  msgs s ++ match dest_of s c with Some d => [(d, p)] | None => [] end.
Proof. unfold msgs, dest_of. cbn. rewrite omap_app. cbn. by destruct (List.find _ (myPeers s)). Qed.

(** ** The label table *)
Lemma seqZ_lookup_inv (l : list LIBTable.LIBEntry) i e :
  LIBTable.inLabel <$> l = seqZ 1 (Z.of_nat (length l)) -> l !! i = Some e -> LIBTable.inLabel e = Z.of_nat i + 1.
Proof.
  intros Hl Hi. assert ((LIBTable.inLabel <$> l) !! i = Some (LIBTable.inLabel e)) as Hx by (by rewrite list_lookup_fmap, Hi).
  rewrite Hl in Hx. apply lookup_seqZ in Hx as [-> _]. lia.
Qed.

Lemma overwrite_app label inIf out outIf c (l1 : list LIBTable.LIBEntry) e l2 :
  (forall x, x ∈ l1 -> LIBTable.inLabel x <> label) -> LIBTable.inLabel e = label ->
  LIBTable.overwrite label inIf out outIf c (l1 ++ e :: l2) = Some (l1 ++ LIBTable.mk_LIBEntry label inIf out outIf c :: l2).
Proof.
  intros Hl He. induction l1 as [|x l1 IH]; cbn.
  - rewrite He, Z.eqb_refl. by destruct e; cbn in *; subst.
  - rewrite (proj2 (Z.eqb_neq _ _)) by (apply Hl; set_solver). rewrite IH by set_solver. done.
Qed.

Lemma overwrite_spec label inIf out outIf c (l : list LIBTable.LIBEntry) :
  LIBTable.inLabel <$> l = seqZ 1 (Z.of_nat (length l)) -> 1 <= label -> is_Some (l !! Z.to_nat (label - 1)) ->
  LIBTable.overwrite label inIf out outIf c l =
    Some (<[Z.to_nat (label - 1) := LIBTable.mk_LIBEntry label inIf out outIf c]> l).
Proof.
  intros Hl H1 [e He]. pose proof (seqZ_lookup_inv l _ e Hl He) as Hle.
  pose proof (take_drop_middle _ _ _ He) as Hs. rewrite <- Hs at 1.
  rewrite overwrite_app; [|intros x Hx|lia].
  - f_equal. rewrite <- Hs at 3. rewrite insert_app_r_alt by (rewrite length_take; lia).
    rewrite length_take, Nat.min_l by (apply lookup_lt_Some in He; lia). by rewrite Nat.sub_diag.
  - apply list_elem_of_lookup in Hx as [i Hi]. apply lookup_take_Some in Hi as [Hi Hlt].
    pose proof (seqZ_lookup_inv l _ x Hl Hi). lia.
Qed.

Section Handlers.
Context (F : IPAddress.t -> list fec_t) (N : IPAddress.t -> Node) (me : IPAddress.t) (E : IPAddress.t -> Z -> FEC_TLV -> Prop).
Context (HN : table_inv (rt (N me))).
Notation lsr_ok := (lsr_ok F N me E).
Notation keeps := (keeps F N me E).
Notation wants := (wants F me).
Notation serves := (serves F me).
Notation class_of := (class_of F me).
Notation mapped := (mapped me).
Notation entry_ok := (entry_ok F N me E).
Notation out_ok := (out_ok F me).

Lemma dest_of_peer s p c : lsr_ok s -> p ∈ myPeers s -> socket p = Some c -> dest_of s c = Some (peerIP p).
Proof.
  intros Hok Hp Hc. unfold dest_of. destruct (List.find _ (myPeers s)) as [q|] eqn:Hf.
  - apply List.find_some in Hf as [Hq Hqc]. apply bool_decide_eq_true_1 in Hqc. cbn. f_equal.
    eapply lo_inj; [exact Hok| |exact Hp|exact Hqc|exact Hc]. by apply list_elem_of_In.
  - exfalso. apply list_elem_of_In in Hp. pose proof (List.find_none _ _ Hf p Hp) as Hn. cbn in Hn.
    by rewrite bool_decide_eq_true_2 in Hn.
Qed.

Lemma dest_of_socket s c d : lsr_ok s -> dest_of s c = Some d -> c ∈ socketMap s.
Proof.
  unfold dest_of. intros Hok Hd. destruct (List.find _ (myPeers s)) as [q|] eqn:Hf; [|done].
  apply List.find_some in Hf as [Hq Hqc]. apply bool_decide_eq_true_1 in Hqc.
  eapply lo_sockets; [exact Hok| |exact Hqc]. by apply list_elem_of_In.
Qed.

(** A message other than a mapping is sent. *)
Definition plain (p : LDPPacket) : Prop := match p with LDPLabelMapping LABEL_MAPPING _ _ _ _ => False | _ => True end.

Lemma lsr_ok_send s c d p : lsr_ok s -> dest_of s c = Some d -> d <> me -> out_ok d p -> plain p ->
  lsr_ok (s <| sent := sent s ++ [TcpSend c p] |>).
Proof.
  intros Hok Hd Hne Ho Hp. pose proof (msgs_emit s c p) as Hm. rewrite Hd in Hm.
  set (s' := s <| sent := sent s ++ [TcpSend c p] |>) in *. pose proof (dest_of_socket s c d Hok Hd) as Hcm.
  assert (forall l k u, mapped s' l k u <-> mapped s l k u) as Hmap.
  { intros l k u. unfold LdpSpec.mapped. rewrite Hm, elem_of_app, list_elem_of_singleton. split; [|by left].
    intros [H|[= _ <-]]; [done|]. by destruct Hp. }
  destruct Hok as [O1 O2 O3 O4 O5 O6 O7 O8 O9 O10 O11 O12 O13 O14 O15 O16]. split; try done.
  - intros b Hb. destruct (O9 b Hb) as (Hn & k & Hk & Hbm). split; [done|]. exists k. split; [done|]. by apply Hmap.
  - intros l k u Hx%Hmap. by apply O13.
  - intros l k u k' u' Hx%Hmap Hy%Hmap. by eapply O14.
  - intros d' p'. rewrite Hm, elem_of_app, list_elem_of_singleton. intros [H|[= -> ->]]; [by apply O15|done].
  - intros c' p'. cbn. rewrite elem_of_app, list_elem_of_singleton. intros [H|[= -> ->]]; [by eapply O16|done].
Qed.

Lemma keeps_sendToPeer (P : Prop) d p : (P -> out_ok d p /\ plain p) -> keeps P (sendToPeer d p) (fun _ => True).
Proof.
  intros HP s. unfold sendToPeer. apply wlp_bind. eapply wlp_mono; [apply getPeerSocket_run|].
  intros c s' (-> & q & Hq & Hqd & Hqc). unfold wlp, emit, modify. split; [by apply later_emit|].
  intros _ Hok HP'. destruct (HP HP') as [Ho Hpl]. split; [|done].
  eapply lsr_ok_send; [done|by eapply dest_of_peer| |by subst d|done].
  subst d. by apply (lo_peers _ _ _ _ _ Hok).
Qed.

Lemma keeps_findPeerSocket (P : Prop) a : keeps P (findPeerSocket a) (fun _ => True).
Proof.
  intros s. eapply wlp_mono; [apply findPeerSocket_run|]. intros r s' [-> _]. split; [apply later_refl|]. auto.
Qed.

Lemma keeps_mappingRequest (P : Prop) d a len : (P -> wants (mk_FEC a len) d) -> keeps P (sendMappingRequest d a len) (fun _ => True).
Proof.
  intros HP. unfold sendMappingRequest. eapply keeps_bind; [apply (keeps_gets _ _ _ _ _ _ (fun m => m = me)); by intros s []|].
  intros m. apply keeps_sendToPeer. intros [H ->]. cbn. auto.
Qed.

Lemma keeps_withdraw (P : Prop) d l a len : keeps P (sendMapping LABEL_WITHDRAW d l a len) (fun _ => True).
Proof.
  unfold sendMapping. eapply keeps_bind; [apply (keeps_gets _ _ _ _ _ _ (fun m => m = me)); by intros s []|].
  intros m. apply keeps_sendToPeer. intros [H ->]. done.
Qed.

Lemma keeps_notify (P : Prop) st d a len : keeps P (sendNotify st d a len) (fun _ => True).
Proof.
  unfold sendNotify. eapply keeps_bind; [apply (keeps_gets _ _ _ _ _ _ (fun m => m = me)); by intros s []|].
  intros m. by apply keeps_sendToPeer.
Qed.

(** ** A new label *)
Definition grant (id u : Z) (k : FEC_TLV) (inIf : string) (out : LabelOpVector) (outIf : string) (c : Z) : Eff t unit :=
  let! l := on_lt (LIBTable.installLibEntry (-1) inIf out outIf c) in
  modify (fun s => s <| fecUp := fecUp s ++ [mk_bind id u l] |>) ;;;
  sendMapping LABEL_MAPPING u l (fec_addr k) (fec_length k).

Lemma lsr_ok_grant s id u k inIf out outIf c sk : lsr_ok s -> count s + 1 <= 2147483647 ->
  dest_of s sk = Some u -> u <> me -> class_of id k -> serves k u -> name_of (N me) u = Some inIf ->
  entry_ok k (LIBTable.mk_LIBEntry 0 inIf out outIf c) ->
  let l := count s + 1 in
  lsr_ok (s <| lt := LIBTable.mk l (entries s ++ [LIBTable.mk_LIBEntry l inIf out outIf c]) |>
            <| fecUp := fecUp s ++ [mk_bind id u l] |>
            <| sent := sent s ++ [TcpSend sk (LDPLabelMapping LABEL_MAPPING me u k l)] |>).
Proof.
  intros Hok Hb Hd Hne Hc Hs Hn He l. set (s2 := s <| lt := _ |> <| fecUp := _ |>).
  assert (dest_of s2 sk = Some u) as Hd2 by done. pose proof (dest_of_socket s sk u Hok Hd) as Hcm.
  pose proof (msgs_emit s2 sk (LDPLabelMapping LABEL_MAPPING me u k l)) as Hm. rewrite Hd2 in Hm.
  change (msgs s2) with (msgs s) in Hm.
  change (s <| lt := _ |> <| fecUp := _ |> <| sent := _ |>) with (s2 <| sent := sent s2 ++ [TcpSend sk (LDPLabelMapping LABEL_MAPPING me u k l)] |>).
  set (s3 := s2 <| sent := _ |>) in *.
  assert (forall l' k' u', mapped s3 l' k' u' <-> mapped s l' k' u' \/ (l' = l /\ k' = k /\ u' = u)) as Hmap.
  { intros l' k' u'. unfold LdpSpec.mapped. rewrite Hm, elem_of_app, list_elem_of_singleton. naive_solver. }
  assert (entries s3 = entries s ++ [LIBTable.mk_LIBEntry l inIf out outIf c]) as Hent by done.
  assert (count s3 = l) as Hcnt by (unfold count; rewrite Hent, length_app; cbn; unfold l, count; lia).
  assert (forall l' k' u', mapped s l' k' u' -> l' <> l) as Hold.
  { intros l' k' u' Hx. destruct (lo_mapped _ _ _ _ _ Hok _ _ _ Hx) as (H1 & _ & e & Hl & _).
    apply lookup_lt_Some in Hl. unfold l, count. lia. }
  destruct Hok as [O1 O2 O3 O4 O5 O6 O7 O8 O9 O10 O11 O12 O13 O14 O15 O16]. split; try done.
  - intros b Hbs. change (fecUp s3) with (fecUp s ++ [mk_bind id u l]) in Hbs. apply elem_of_app in Hbs as [Hbs|Hbs].
    + destruct (O9 b Hbs) as (Hn' & k' & Hk' & Hbm). split; [done|]. exists k'. split; [done|]. apply Hmap. by left.
    + apply list_elem_of_singleton in Hbs as ->. split; [done|]. exists k. split; [done|]. apply Hmap. by right.
  - rewrite Hcnt, Hent, fmap_app, O11. cbn [fmap list_fmap]. unfold l. rewrite seqZ_app by (unfold count; lia). f_equal.
    rewrite seqZ_cons by lia. cbn. f_equal. lia.
  - intros l' k' u' [Hx|(-> & -> & ->)]%Hmap.
    + destruct (O13 _ _ _ Hx) as (H1 & Hs' & e & Hl & Hrest). split_and!; [done|done|]. exists e. split; [|done].
      rewrite Hent. by apply lookup_app_l_Some.
    + split_and!; [unfold l, count; lia|done|]. exists (LIBTable.mk_LIBEntry l inIf out outIf c). split; [|split; [exact Hn|exact He]].
      rewrite Hent. apply lookup_app_Some. right. split; [unfold l, count; lia|].
      replace (Z.to_nat (l - 1) - length (entries s))%nat with 0%nat by (unfold l, count; lia). done.
  - intros l' k1 u1 k2 u2 [Hx|(-> & -> & ->)]%Hmap [Hy|(Hl & -> & ->)]%Hmap.
    + by eapply O14.
    + subst l'. by destruct (Hold _ _ _ Hx).
    + by destruct (Hold _ _ _ Hy).
    + done.
  - intros d p. rewrite Hm, elem_of_app, list_elem_of_singleton. intros [H|[= -> ->]]; [by apply O15|]. split; [done|]. by cbn.
  - intros c' p'. cbn. rewrite elem_of_app, list_elem_of_singleton. intros [H|[= -> ->]]; [by eapply O16|done].
Qed.

Lemma keeps_grant (P : Prop) id u k inIf out outIf c :
  (P -> u <> me /\ class_of id k /\ serves k u /\ name_of (N me) u = Some inIf /\ entry_ok k (LIBTable.mk_LIBEntry 0 inIf out outIf c)) ->
  keeps P (grant id u k inIf out outIf c) (fun _ => True).
Proof.
  intros HP s. unfold grant. apply wlp_bind. set (l := i32 (LIBTable.maxLabel (lt s) + 1)).
  assert (on_lt (LIBTable.installLibEntry (-1) inIf out outIf c) s =
    Ok l (s <| lt := LIBTable.mk l (entries s ++ [LIBTable.mk_LIBEntry l inIf out outIf c]) |>)) as Hr by reflexivity.
  unfold wlp at 1. rewrite Hr. apply wlp_bind. unfold wlp at 1, modify. unfold sendMapping. apply wlp_bind. unfold wlp at 1, gets.
  unfold sendToPeer. apply wlp_bind.
  eapply wlp_mono; [apply getPeerSocket_run|]. intros sk s' (-> & q & Hq & Hqu & Hqc). unfold wlp, emit, modify.
  change (myPeers _) with (myPeers s) in Hq.
  split; [split_and!; [unfold count, entries; cbn; rewrite length_app; cbn; lia|by eexists|done]|].
  intros Hb Hok HP'. split; [|done]. destruct (HP HP') as (Hne & Hc & Hs & Hn & He).
  assert (count s + 1 <= 2147483647) as Hb'.
  { unfold bounded, count, entries in *. cbn in Hb. rewrite length_app in Hb. cbn in Hb. lia. }
  assert (l = count s + 1) as Hl.
  { unfold l. rewrite (lo_max _ _ _ _ _ Hok). apply i32_small. unfold count in *. lia. }
  clearbody l. subst l. pose proof (dest_of_peer s q sk Hok Hq Hqc) as Hd. rewrite Hqu in Hd.
  pose proof (lsr_ok_grant s id u k inIf out outIf c sk Hok Hb' Hd Hne Hc Hs Hn He) as Hg. cbn zeta in Hg.
  change (getRouterId _) with (getRouterId s). rewrite (lo_me _ _ _ _ _ Hok). destruct k. exact Hg.
Qed.

(** ** A label that is told already *)
Lemma lsr_ok_overwrite s l k u inIf out outIf c : lsr_ok s -> mapped s l k u -> name_of (N me) u = Some inIf ->
  entry_ok k (LIBTable.mk_LIBEntry l inIf out outIf c) ->
  lsr_ok (s <| lt := (lt s) <| LIBTable.lib := <[Z.to_nat (l - 1) := LIBTable.mk_LIBEntry l inIf out outIf c]> (entries s) |> |>).
Proof.
  intros Hok Hm Hn He. set (e' := LIBTable.mk_LIBEntry l inIf out outIf c) in *. set (s' := s <| lt := _ |>).
  assert (entries s' = <[Z.to_nat (l - 1) := e']> (entries s)) as Hent by done.
  assert (count s' = count s) as Hcnt by (unfold count; by rewrite Hent, length_insert).
  destruct (lo_mapped _ _ _ _ _ Hok _ _ _ Hm) as (H1 & _ & e & Hl & _).
  assert (LIBTable.inLabel e = l) as Hel.
  { pose proof (seqZ_lookup_inv _ _ _ (lo_labels _ _ _ _ _ Hok) Hl). lia. }
  destruct Hok as [O1 O2 O3 O4 O5 O6 O7 O8 O9 O10 O11 O12 O13 O14 O15 O16]. split; try done.
  - rewrite Hcnt, Hent, list_fmap_insert, list_insert_id; [done|]. rewrite list_lookup_fmap, Hl. cbn. by rewrite Hel.
  - cbn. by rewrite Hcnt.
  - intros l' k' u' Hx. destruct (O13 _ _ _ Hx) as (H1' & Hs & x & Hlx & Hnx & Hex). split_and!; [done|done|].
    rewrite Hent. destruct (decide (l' = l)) as [->|Hne].
    + destruct (O14 _ _ _ _ _ Hm Hx) as [-> ->]. exists e'. split; [|done]. apply list_lookup_insert_eq. by eapply lookup_lt_Some.
    + exists x. split; [|done]. rewrite list_lookup_insert_ne by lia. done.
Qed.

(** Steps that leave the bindings told upstream alone. *)
Definition keeps_up {A} (U : list fec_bind_t) (P : Prop) (m : Eff t A) (Q : A -> Prop) : Prop := forall s, fecUp s = U ->
  wlp m (fun a s' => fecUp s' = U /\ later s s' /\ (bounded s' -> lsr_ok s -> P -> lsr_ok s' /\ Q a)) s.

Lemma keeps_up_intro {A} U P (m : Eff t A) Q :
  keeps P m Q -> (forall s, wlp m (fun _ s' => fecUp s' = fecUp s) s) -> keeps_up U P m Q.
Proof.
  intros Hk Hf s <-. specialize (Hk s). specialize (Hf s). unfold wlp in *. destruct (m s); [|done]. by split.
Qed.

Lemma keeps_up_bind {A B} U P (m : Eff t A) (k : A -> Eff t B) Q X :
  keeps_up U P m Q -> (forall a, keeps_up U (P /\ Q a) (k a) X) -> keeps_up U P (bind m k) X.
Proof.
  intros Hm Hk s Hs. apply wlp_bind. eapply wlp_mono; [by apply Hm|]. intros a s1 (Hs1 & Hle & H1). cbn.
  eapply wlp_mono; [by apply Hk|]. intros b s2 (Hs2 & Hle' & H2). split_and!; [done|by eapply later_trans|]. intros Hb Hok HP. cbn in *.
  destruct H1 as [Hok1 HQ]; [by eapply later_bounded|done|done|]. by apply H2.
Qed.

Lemma keeps_up_mapE {A B} U P (f : A -> Eff t B) (l : list A) (R : A -> B -> Prop) :
  (forall a, a ∈ l -> keeps_up U P (f a) (R a)) -> keeps_up U P (mapE f l) (Forall2 R l).
Proof.
  induction l as [|a l IH]; cbn; intros Hf.
  { intros s Hs. unfold wlp, ret. split_and!; [done|apply later_refl|]. auto. }
  eapply keeps_up_bind; [apply Hf; set_solver|]. intros b. eapply keeps_up_bind.
  - assert (keeps_up U P (mapE f l) (Forall2 R l)) as IH' by (apply IH; set_solver).
    intros s Hs. eapply wlp_mono; [by apply IH'|]. intros bs s' (H1 & H2 & H3). split_and!; [done|done|]. intros Hb Hok [HP _]. by apply H3.
  - intros bs s Hs. unfold wlp, ret. split_and!; [done|apply later_refl|]. intros _ Hok [[_ Hb] Hbs]. split; [done|]. by constructor.
Qed.

Lemma interface_frame a s : wlp (findInterfaceFromPeerAddr a) (fun _ s' => fecUp s' = fecUp s) s.
Proof.
  unfold wlp, findInterfaceFromPeerAddr, bind, on_node, on_ted, TED.on_node, interface_name, gets, ret, fail, bind.
  destruct (isLocalAddress a (TED.node (tedmod s))) as [[] n1|]; [done| |done].
  cbn. destruct (getInterfaceForDestAddr a n1) as [[i|] n2|]; [|done|done]. cbn. by destruct (InterfaceTable.getInterfaceById i _).
Qed.

Lemma mapping_frame ty d l a len s : wlp (sendMapping ty d l a len) (fun _ s' => fecUp s' = fecUp s) s.
Proof.
  unfold sendMapping, sendToPeer. apply wlp_bind. unfold wlp at 1, gets. apply wlp_bind.
  eapply wlp_mono; [apply getPeerSocket_run|]. by intros c s' [-> _].
Qed.

Lemma keeps_up_install U (P : Prop) b k inIf out outIf c : b ∈ U -> 
  (P -> name_of (N me) (b_peer b) = Some inIf /\ (forall k', class_of (b_fecid b) k' -> k' = k) /\
        entry_ok k (LIBTable.mk_LIBEntry 0 inIf out outIf c)) ->
  keeps_up U P (on_lt (LIBTable.installLibEntry (b_label b) inIf out outIf c)) (fun l => l = b_label b).
Proof.
  intros Hb HP s <-. unfold wlp. destruct (on_lt (LIBTable.installLibEntry (b_label b) inIf out outIf c) s) as [l s'|] eqn:Hr; [|done].
  unfold on_lt, LIBTable.installLibEntry in Hr. destruct (Z.eqb_spec (b_label b) (-1)) as [Hl|Hl].
  - cbn -[i32] in Hr. injection Hr as <- <-. split_and!; [done|split_and!; [unfold count, entries; cbn; rewrite length_app; cbn; lia|by exists []; rewrite app_nil_r|done]|].
    intros _ Hok _. exfalso. destruct (lo_up _ _ _ _ _ Hok b Hb) as (_ & k' & _ & Hm).
    destruct (lo_mapped _ _ _ _ _ Hok _ _ _ Hm) as (H1 & _). lia.
  - unfold bind, gets in Hr. destruct (LIBTable.overwrite (b_label b) inIf out outIf c (LIBTable.lib (lt s))) as [l'|] eqn:Ho; [|done].
    unfold modify, ret in Hr. injection Hr as <- <-. split; [done|].
    assert (length l' = length (LIBTable.lib (lt s))) as Hlen.
    { revert l' Ho. induction (LIBTable.lib (lt s)) as [|e es IH]; intros l'; cbn; [done|].
      destruct (LIBTable.inLabel e =? b_label b); [by intros [= <-]|].
      destruct (LIBTable.overwrite (b_label b) inIf out outIf c es) as [x|]; [|done]. intros [= <-]. cbn. f_equal. by apply IH. }
    split; [split_and!; [unfold count, entries; cbn; lia|by exists []; rewrite app_nil_r|done]|]. intros _ Hok HP'. split; [|done].
    destruct (HP HP') as (Hn & Hu & He). destruct (lo_up _ _ _ _ _ Hok b Hb) as (_ & k' & Hk' & Hm). apply Hu in Hk' as ->.
    destruct (lo_mapped _ _ _ _ _ Hok _ _ _ Hm) as (H1 & _ & e & Hle & _).
    rewrite overwrite_spec in Ho; [|apply (lo_labels _ _ _ _ _ Hok)|done|by exists e]. injection Ho as <-.
    by apply (lsr_ok_overwrite s (b_label b) k (b_peer b)).
Qed.

(** ** Updates *)
Lemma find_key_inv fecs k f : find_key fecs k = Some f -> f ∈ fecs /\ key f = k.
Proof.
  intros Hf%List.find_some. destruct Hf as [Hin Hk]. apply andb_true_iff in Hk as [H1%Z.eqb_eq H2%Z.eqb_eq].
  split; [by apply list_elem_of_In|]. unfold key. destruct k. cbn in *. congruence.
Qed.

Lemma class_key f k : NoDup (fecid <$> F me) -> f ∈ F me -> class_of (fecid f) k -> k = key f.
Proof.
  intros Hnd Hf (g & Hg & Hid). apply find_key_inv in Hg as [Hg <-]. f_equal.
  apply list_elem_of_lookup in Hf as [i Hi], Hg as [j Hj].
  assert (i = j) as ->.
  { eapply NoDup_lookup; [exact Hnd| |]; rewrite list_lookup_fmap; [by rewrite Hi|rewrite Hj; cbn; by rewrite Hid]. }
  congruence.
Qed.

Lemma findFecBind_inv bs id p b : findFecBind bs id p = Some b -> b ∈ bs /\ b_fecid b = id /\ b_peer b = p.
Proof.
  intros Hf%List.find_some. destruct Hf as [Hin Hk]. apply andb_true_iff in Hk as [H1%Z.eqb_eq H2%Z.eqb_eq].
  split_and!; [by apply list_elem_of_In|done|done].
Qed.

(** What is known of [oldItem] and of the binding from downstream. *)
Definition update_facts (f : fec_t) (dit : option fec_bind_t) : Prop :=
  f ∈ F me /\ NoDup (fecid <$> F me) /\ forall d, dit = Some d -> E (nextHop f) (b_label d) (key f).

Lemma keeps_update_bind U (P : Prop) f ER dit u : u ∈ U -> (P -> update_facts f dit) -> 
  keeps_up U P (update_bind f ER dit u) (fun r => r = None \/ r = Some u).
Proof.
  intros Hu HP. unfold update_bind. destruct (Z.eqb_spec (b_fecid u) (fecid f)) as [Hid|Hid]; cbn [negb].
  2:{ intros s Hs. unfold wlp, ret. split_and!; [done|apply later_refl|]. auto. }
  eapply keeps_up_bind; [apply keeps_up_intro; [by apply keeps_interface|apply interface_frame]|]. intros inIf.
  eapply keeps_up_bind; [apply keeps_up_intro; [by apply keeps_interface|apply interface_frame]|]. intros outIf.
  assert (forall l, keeps_up U (((P /\ name_of (N me) (b_peer u) = Some inIf) /\ name_of (N me) (nextHop f) = Some outIf) /\ l = b_label u)
    (ret (Some (mk_bind (b_fecid u) (b_peer u) l))) (fun r => r = None \/ r = Some u)) as Hret.
  { intros l s Hs. unfold wlp, ret. split_and!; [done|apply later_refl|]. intros _ Hok [_ ->]. split; [done|]. right. by destruct u. }
  assert (forall out c, (P -> out = LIBTable.popLabel \/ exists d, dit = Some d /\ out = LIBTable.swapLabel (b_label d)) ->
    keeps_up U ((P /\ name_of (N me) (b_peer u) = Some inIf) /\ name_of (N me) (nextHop f) = Some outIf)
      (on_lt (LIBTable.installLibEntry (b_label u) inIf out outIf c)) (fun l => l = b_label u)) as Hinst.
  { intros out c Hout. apply (keeps_up_install U _ u (key f)); [done|]. intros [[HP' Hn1] Hn2]. destruct (HP HP') as (Hf & Hnd & Hd).
    split_and!; [done|intros k; rewrite Hid; by apply class_key|].
    exists (nextHop f). split_and!; [by exists f|done|]. destruct (Hout HP') as [->|(d & Hdit & ->)]; [by left|]. right. eauto. }
  destruct ER; [eapply keeps_up_bind; [apply Hinst; by left|exact Hret]|].
  destruct dit as [d|]; [eapply keeps_up_bind; [apply Hinst; intros _; right; by exists d|exact Hret]|].
  eapply keeps_up_bind; [apply keeps_up_intro; [by apply keeps_withdraw|apply mapping_frame]|].
  intros [] s Hs. unfold wlp, ret. split_and!; [done|apply later_refl|]. auto.
Qed.

Lemma lsr_ok_up_sub s us : lsr_ok s -> us ⊆ fecUp s -> lsr_ok (s <| fecUp := us |>).
Proof.
  intros [O1 O2 O3 O4 O5 O6 O7 O8 O9 O10 O11 O12 O13 O14 O15 O16] Hus. split; try done. intros b Hb. by apply O9, Hus.
Qed.

Lemma keeps_update_loop (P : Prop) f ER dit : (P -> update_facts f dit) ->
  keeps P (let! us := gets fecUp in let! us := mapE (update_bind f ER dit) us in modify (fun s => s <| fecUp := omap id us |>)) (fun _ => True).
Proof.
  intros HP s. apply wlp_bind. unfold wlp at 1, gets. apply wlp_bind.
  eapply wlp_mono; [apply (keeps_up_mapE (fecUp s) P); [intros u Hu; by apply keeps_update_bind|done]|].
  intros rs s' (Hs' & Hle & H). unfold wlp, modify. split; [exact Hle|]. intros Hb Hok HP'. destruct (H Hb Hok HP') as [Hok' Hrs].
  split; [|done]. apply lsr_ok_up_sub; [done|]. rewrite Hs'. clear -Hrs. induction Hrs as [|u r us rs Hr _ IH]; [done|].
  cbn. destruct Hr as [-> | ->]; cbn; set_solver.
Qed.

Lemma keeps_updateFecListEntry (P : Prop) f : (P -> f ∈ F me) -> keeps P (updateFecListEntry f) (fun _ => True).
Proof.
  intros HP. unfold updateFecListEntry.
  eapply keeps_bind; [apply (keeps_gets _ _ _ _ _ _ (fun dit => update_facts f dit))|].
  { intros s Hok HP'. split_and!; [auto|apply Hok|]. intros d Hd. apply findFecBind_inv in Hd as (Hin & Hid & Hpeer).
    destruct (lo_down _ _ _ _ _ Hok d Hin) as (k & Hk & _ & HE). rewrite Hid in Hk. rewrite Hpeer in HE.
    apply class_key in Hk as ->; [done|apply Hok|auto]. }
  intros dit. eapply keeps_bind; [apply keeps_findPeerSocket|]. intros sock.
  eapply keeps_bind; [by apply keeps_assert with (Q := fun _ => True)|]. intros [].
  set (ER := negb (is_some sock)).
  eapply (keeps_ext _ _ _ _ _ _ (let! _ := (let! us := gets fecUp in let! us := mapE (update_bind f ER dit) us in
    modify (fun s => s <| fecUp := omap id us |>)) in when (negb ER && negb (is_some dit)) (sendMappingRequest (nextHop f) (addr f) (flength f)))).
  { intros s. unfold bind, gets. destruct (mapE (update_bind f ER dit) (fecUp s) s); done. }
  eapply keeps_bind; [apply keeps_update_loop; tauto|]. intros [].
  apply keeps_when; [|done]. intros _. apply keeps_mappingRequest. intros H. exists f. split_and!; [|done|done]. apply HP. tauto.
Qed.

Lemma keeps_updateFecList (P : Prop) hop : keeps P (updateFecList hop) (fun _ => True).
Proof.
  unfold updateFecList. eapply keeps_bind; [apply (keeps_gets _ _ _ _ _ _ (fun l => l = F me)); by intros s []|].
  intros l. eapply keeps_bind; [apply keeps_mapE with (R := fun _ _ => True)|intros bs; by apply keeps_ret].
  intros f Hf.
  destruct (negb (nextHop f =? hop)); [by apply keeps_ret|]. apply keeps_updateFecListEntry. by intros [_ <-].
Qed.

(** ** Messages *)
(** What is known of a message that arrives. *)
Definition in_ok (p : LDPPacket) : Prop :=
  match p with
  | LDPLabelMapping LABEL_MAPPING from _ k l => E from l k /\ wants k from
  | LDPLabelMapping LABEL_RELEASE from _ _ _ => from = me
  | LDPLabelRequest from _ k => from <> me /\ serves k from
  | _ => True
  end.

Lemma class_find k f : find_key (F me) k = Some f -> class_of (fecid f) k /\ wants k (nextHop f).
Proof. intros Hf. split; [by exists f|]. apply find_key_inv in Hf as [Hin Hk]. by exists f. Qed.

Lemma keeps_fecs (P : Prop) : keeps P (gets fecList) (fun l => l = F me).
Proof. apply keeps_gets. by intros s []. Qed.

Lemma keeps_notification second self from to st k : keeps True (processNOTIFICATION second self from to st k) (fun _ => True).
Proof.
  unfold processNOTIFICATION. destruct (negb (st =? NO_ROUTE)); [apply keeps_fail|].
  eapply keeps_bind; [apply keeps_fecs|]. intros l. destruct (findFecEntry l _ _) as [it|] eqn:Hf; [|by apply keeps_ret].
  destruct (Z.eqb_spec (nextHop it) from) as [Hn|Hn]; [|by apply keeps_ret]. destruct self; cbn [negb].
  - apply keeps_mappingRequest. intros [_ ->]. apply (class_find k) in Hf as [_ Hw]. rewrite Hn in Hw. by destruct k.
  - apply keeps_modify; [done|]. intros s Hok _. split; [|done]. by apply (lsr_ok_core _ _ _ _ s); [|done|apply Hok].
Qed.

Lemma keeps_down (P : Prop) f : (P -> f ∈ F me) ->
  keeps P (gets (fun s => findFecBind (fecDown s) (fecid f) (nextHop f)))
    (fun dit => forall d, dit = Some d -> E (nextHop f) (b_label d) (key f)).
Proof.
  intros HP. apply keeps_gets. intros s Hok HP' d Hd. apply findFecBind_inv in Hd as (Hin & Hid & Hpeer).
  destruct (lo_down _ _ _ _ _ Hok d Hin) as (k & Hk & _ & HE). rewrite Hid in Hk. rewrite Hpeer in HE.
  apply class_key in Hk as ->; [done|apply Hok|auto].
Qed.

Lemma keeps_labelRequest from k : keeps (from <> me /\ serves k from) (processLABEL_REQUEST from k) (fun _ => True).
Proof.
  unfold processLABEL_REQUEST. eapply keeps_bind; [apply keeps_fecs|]. intros l.
  destruct (findFecEntry l _ _) as [it|] eqn:Hf; [|apply keeps_notify].
  assert (l = F me -> class_of (fecid it) k /\ wants k (nextHop it) /\ it ∈ F me /\ key it = k) as Hit.
  { intros ->. pose proof (find_key_inv _ k _ Hf) as []. apply (class_find k) in Hf as []. done. }
  eapply keeps_bind; [by apply keeps_gets with (Q := fun _ => True)|]. intros uit.
  eapply keeps_bind; [by apply keeps_assert with (Q := fun _ => True)|]. intros [].
  eapply keeps_bind; [apply keeps_down; intros H; apply Hit; tauto|]. intros dit.
  eapply keeps_bind; [apply keeps_findPeerSocket|]. intros sock.
  eapply keeps_bind; [by apply keeps_assert with (Q := fun _ => True)|]. intros [].
  eapply keeps_bind; [by apply keeps_interface|]. intros inIf. eapply keeps_bind; [by apply keeps_interface|]. intros outIf. cbn beta.
  destruct (is_some sock); cbn [negb].
  2:{ apply (keeps_grant _ (fecid it) from k). intros H. destruct (Hit ltac:(tauto)) as (H1 & H2 & H3 & H4).
      split_and!; [tauto..|]. exists (nextHop it). split_and!; [done|tauto|by left]. }
  destruct dit as [d|].
  - apply (keeps_grant _ (fecid it) from k). intros H. destruct (Hit ltac:(tauto)) as (H1 & H2 & H3 & H4).
    assert (E (nextHop it) (b_label d) (key it)) as HE by (decompose [and] H; auto).
    split_and!; [tauto..|]. exists (nextHop it). split_and!; [done|tauto|right]. exists (b_label d). split; [done|]. by rewrite <- H4.
  - apply keeps_modify; [done|]. intros s Hok H. split; [|done]. destruct (Hit ltac:(tauto)) as (H1 & _).
    destruct Hok as [O1 O2 O3 O4 O5 O6 O7 O8 O9 O10 O11 O12 O13 O14 O15 O16]. split; try done.
    intros p Hp. cbn in Hp. apply elem_of_app in Hp as [Hp|Hp]; [by apply O10|]. apply list_elem_of_singleton in Hp as ->.
    split; [tauto|]. exists k. tauto.
Qed.

Lemma keeps_labelWithdraw from to k l : keeps True (processLABEL_WITHDRAW from to k l) (fun _ => True).
Proof.
  unfold processLABEL_WITHDRAW. eapply keeps_bind; [by apply keeps_assert with (Q := fun _ => True)|]. intros [].
  eapply keeps_bind; [apply keeps_fecs|]. intros fl. destruct (findFecEntry fl _ _) as [it|] eqn:Hf; [|by apply keeps_ret].
  eapply keeps_bind; [by apply keeps_gets with (Q := fun _ => True)|]. intros [d|]; [|by apply keeps_ret].
  destruct (negb (l =? b_label d)); [by apply keeps_ret|].
  eapply keeps_bind; [apply keeps_modify with (Q := fun _ => True); [done|]|intros []].
  { intros s Hok _. split; [|done]. destruct Hok as [O1 O2 O3 O4 O5 O6 O7 O8 O9 O10 O11 O12 O13 O14 O15 O16]. split; try done.
    intros b Hb. apply O8. cbn in Hb. revert Hb. clear. induction (fecDown s) as [|x xs IH]; cbn; [done|].
    destruct ((b_fecid x =? fecid it) && (b_peer x =? from)); set_solver. }
  eapply keeps_bind; [by apply keeps_sendToPeer|]. intros [].
  apply keeps_updateFecListEntry. intros H. assert (fl = F me) as -> by tauto. by apply (find_key_inv _ k) in Hf as [].
Qed.

Lemma keeps_answer_pending (P : Prop) it from l p : (P -> it ∈ F me /\ NoDup (fecid <$> F me) /\ class_of (fecid it) (key it) /\ E from l (key it) /\
    wants (key it) from /\ p_peer p <> me /\ exists k, class_of (p_fecid p) k /\ serves k (p_peer p)) ->
  keeps P (answer_pending it from l p) (fun r => r = None \/ r = Some p).
Proof.
  intros HP. unfold answer_pending. destruct (Z.eqb_spec (p_fecid p) (fecid it)) as [Hid|Hid]; cbn [negb]; [|apply keeps_ret; by right].
  eapply keeps_bind; [by apply keeps_interface|]. intros inIf. eapply keeps_bind; [by apply keeps_interface|]. intros outIf.
  eapply (keeps_ext _ _ _ _ _ _ (grant (fecid it) (p_peer p) (key it) inIf (LIBTable.swapLabel l) outIf LDP_USER_TRAFFIC ;;; ret None)).
  { intros s. unfold grant, bind. destruct (on_lt _ s); [|done]. destruct (modify _ _); [|done]. by destruct (sendMapping _ _ _ _ _ _). }
  eapply keeps_bind; [apply keeps_grant|intros []; apply keeps_ret; by left].
  intros [[HP' Hn1] Hn2]. destruct (HP HP') as (Hin & Hnd & Hc & HE & Hw & Hne & k & Hk & Hs). rewrite Hid in Hk.
  apply class_key in Hk as ->; [|done|done]. split_and!; [done..|]. exists from. split_and!; [done|done|right]. eauto.
Qed.

Lemma lsr_ok_pending_sub s ps : lsr_ok s -> (forall p, p ∈ ps -> p_peer p <> me /\ exists k, class_of (p_fecid p) k /\ serves k (p_peer p)) ->
  lsr_ok (s <| pending := ps |>).
Proof. intros [O1 O2 O3 O4 O5 O6 O7 O8 O9 O10 O11 O12 O13 O14 O15 O16] Hps. split; try done. Qed.

Lemma keeps_labelMapping from k l : keeps (E from l k /\ wants k from) (processLABEL_MAPPING from k l) (fun _ => True).
Proof.
  unfold processLABEL_MAPPING. eapply keeps_bind; [by apply keeps_assert with (Q := fun _ => True)|]. intros [].
  eapply keeps_bind; [apply keeps_fecs|]. intros fl. destruct (findFecEntry fl _ _) as [it|] eqn:Hf; [|apply keeps_fail].
  assert (fl = F me -> class_of (fecid it) k /\ it ∈ F me /\ key it = k) as Hit.
  { intros ->. pose proof (find_key_inv _ k _ Hf) as []. apply (class_find k) in Hf as []. done. }
  eapply keeps_bind; [by apply keeps_gets with (Q := fun _ => True)|]. intros dit.
  eapply keeps_bind; [by apply keeps_assert with (Q := fun _ => True)|]. intros [].
  eapply keeps_bind; [apply keeps_modify with (Q := fun _ => True); [done|]|intros []].
  { intros s Hok H. split; [|done]. assert (fl = F me) as Hfl by tauto. destruct (Hit Hfl) as (H1 & _).
    destruct Hok as [O1 O2 O3 O4 O5 O6 O7 O8 O9 O10 O11 O12 O13 O14 O15 O16]. split; try done.
    intros b Hb. cbn in Hb. apply elem_of_app in Hb as [Hb|Hb]; [by apply O8|]. apply list_elem_of_singleton in Hb as ->. exists k. tauto. }
  eapply keeps_bind.
  { apply (keeps_gets _ _ _ _ _ _ (fun ps => NoDup (fecid <$> F me) /\ forall p, p ∈ ps -> p_peer p <> me /\ exists k, class_of (p_fecid p) k /\ serves k (p_peer p))).
    intros s Hok _. split; [apply Hok|]. apply (lo_pending _ _ _ _ _ Hok). }
  intros ps. eapply keeps_bind; [apply keeps_mapE with (R := fun p r => r = None \/ r = Some p)|].
  { intros p Hp. apply keeps_answer_pending. intros H. assert (fl = F me) as Hfl by tauto. destruct (Hit Hfl) as (H1 & H2 & <-).
    destruct H as [H [Hnd Hps]]. split_and!; try tauto; by apply Hps. }
  intros rs. apply keeps_modify; [done|]. intros s Hok [[_ [_ Hps]] Hrs]. split; [|done]. apply lsr_ok_pending_sub; [done|].
  assert (omap id rs ⊆ ps) as Hsub.
  { clear -Hrs. induction Hrs as [|u r us rs Hr _ IH]; [done|]. cbn. destruct Hr as [-> | ->]; cbn; set_solver. }
  intros p Hp. by apply Hps, Hsub.
Qed.
End Handlers.
