(* ===== verification/LdpRouter.v ===== *)
(** * A router handles a message

    Every message but the expiry of a peer keeps the invariant of [LdpSpec], and what
    a router has told its peers stays told.  A hello is taken from a neighbour whose
    link is up: a link that comes up rebuilds the routing table, and with it the
    classes. *)
From Stdlib Require Import String.
From S2P Require Import Prelude IPAddress InterfaceTable RoutingTable RoutingSpec TED Mpls Ldp LdpSpec LdpHandlers.
Import LDP.

(** Nothing for a peer over TCP. *)
Definition quiet (x : Sent) : Prop := match x with TcpSend _ _ => False | _ => True end.

Definition link_up (s : t) (from : IPAddress.t) : Prop :=
  match (let! i := TED.linkIndex_of (getRouterId s) from in TED.link_at i) (tedmod s) with
  | Ok l _ => te_state l = true
  | Err _ => True
  end.

Section Handle.
Context (F : IPAddress.t -> list fec_t) (N : IPAddress.t -> Node) (me : IPAddress.t) (E : IPAddress.t -> Z -> FEC_TLV -> Prop).
Context (HN : table_inv (rt (N me))).
Notation lsr_ok := (lsr_ok F N me E).
Notation keeps := (keeps F N me E).

(** What a message may be. *)
Definition allowed (s : t) (msg : Message) : Prop :=
  match msg with
  | HelloTimeout _ => False
  | FromUDP from _ => IPAddress.isUnspecified from || (from =? getRouterId s) = true \/ link_up s from
  | FromTCP _ (TCP_I_DATA p) => in_ok F me E p
  | _ => True
  end.

(** The invariant holds after it, and every message sent before is still there. *)
Definition safe {A} (m : Eff t A) (s : t) : Prop :=
  wlp m (fun _ s' => bounded s' -> lsr_ok s' /\ msgs s ⊆ msgs s') s.

Lemma later_msgs s s' : later s s' -> msgs s ⊆ msgs s'.
Proof.
  intros (_ & [new Hn] & Hp) x Hx. unfold msgs, dest_of in *. rewrite Hn, Hp, omap_app. apply elem_of_app. by left.
Qed.

Lemma safe_keeps {A} (P : Prop) (m : Eff t A) Q s : keeps P m Q -> lsr_ok s -> P -> safe m s.
Proof.
  intros Hk Hok HP. unfold safe. eapply wlp_mono; [apply Hk|]. intros a s' [Hle H] Hb.
  split; [by apply H|by apply later_msgs].
Qed.

Lemma safe_step {A B} (m : Eff t A) (k : A -> Eff t B) s s1 a :
  m s = Ok a s1 -> msgs s ⊆ msgs s1 -> safe (k a) s1 -> safe (bind m k) s.
Proof.
  intros Hm Hs Hk. unfold safe. apply wlp_bind. unfold wlp at 1. rewrite Hm. eapply wlp_mono; [exact Hk|].
  intros b s2 H Hb. destruct (H Hb) as [H1 H2]. split; [done|]. set_solver.
Qed.

Lemma safe_eq {A} (m m' : Eff t A) s s1 : m s = m' s1 -> msgs s ⊆ msgs s1 -> safe m' s1 -> safe m s.
Proof.
  intros Hm Hs Hk. unfold safe, wlp in *. rewrite Hm. destruct (m' s1); [|done]. intros Hb. destruct (Hk Hb). split; [done|]. set_solver.
Qed.

Lemma safe_ok (m : Eff t unit) s s1 : m s = Ok tt s1 -> lsr_ok s1 -> msgs s ⊆ msgs s1 -> safe m s.
Proof. intros Hm Hok Hs. unfold safe, wlp. rewrite Hm. by intros _. Qed.

(** ** Changes of the peers *)
Record repeers (s s' : t) : Prop := {
  rp_fields : (fecList s', fecUp s', fecDown s', pending s', lt s') = (fecList s, fecUp s, fecDown s, pending s, lt s);
  rp_node : node_of s' = node_of s;
  rp_sent : exists new, sent s' = sent s ++ new /\ Forall quiet new;
  rp_map : socketMap s ⊆ socketMap s';
  rp_ip : forall p, p ∈ myPeers s' -> peerIP p <> me;
  rp_sock : forall p c, p ∈ myPeers s' -> socket p = Some c -> c ∈ socketMap s';
  rp_inj : forall p q c, p ∈ myPeers s' -> q ∈ myPeers s' -> socket p = Some c -> socket q = Some c -> peerIP p = peerIP q;
  rp_dest : forall c, c ∈ socketMap s -> dest_of s' c = dest_of s c
}.

Lemma omap_quiet (f : Sent -> option (IPAddress.t * LDPPacket)) l :
  (forall x, quiet x -> f x = None) -> Forall quiet l -> omap f l = [].
Proof. intros Hf Hl. induction Hl as [|x l Hx _ IH]; [done|]. cbn. rewrite Hf by done. exact IH. Qed.

Lemma msgs_repeers s s' : lsr_ok s -> repeers s s' -> msgs s' = msgs s.
Proof.
  intros Hok [_ _ (new & Hn & Hq) _ _ _ _ Hd]. unfold msgs. rewrite Hn, omap_app, (omap_quiet _ new), app_nil_r; [|by intros []|done].
  pose proof (lo_sent _ _ _ _ _ Hok) as Hs. clear Hn. induction (sent s) as [|x l IH]; [done|]. cbn.
  rewrite IH by (intros c p Hx; eapply Hs; by right). destruct x; try done. rewrite Hd by (eapply Hs; by left). done.
Qed.

Lemma lsr_ok_repeers s s' : lsr_ok s -> repeers s s' -> lsr_ok s'.
Proof.
  intros Hok Hr. pose proof (msgs_repeers s s' Hok Hr) as Hm. destruct Hr as [Hf Hn (new & Hnew & Hq) Hmap H5 H6 H7 _].
  injection Hf as H1 H2 H3 H4 H8. assert (entries s' = entries s) as He by (unfold entries; by rewrite H8).
  assert (count s' = count s) as Hc by (unfold count; by rewrite He).
  destruct Hok as [O1 O2 O3 O4 O5 O6 O7 O8 O9 O10 O11 O12 O13 O14 O15 O16].
  split; unfold mapped, getRouterId in *; rewrite ?H1, ?H2, ?H3, ?H4, ?H8, ?Hm, ?He, ?Hc, ?Hn; try done.
  intros c p. rewrite Hnew, elem_of_app. intros [Hx|Hx]; [by eapply Hmap, O16|].
  rewrite Forall_forall in Hq. by destruct (Hq _ Hx).
Qed.

Lemma repeers_safe s s1 : lsr_ok s -> repeers s s1 -> lsr_ok s1 /\ msgs s ⊆ msgs s1.
Proof. intros Hok Hr. split; [by eapply lsr_ok_repeers|by rewrite (msgs_repeers s s1)]. Qed.

Lemma safe_repeers (m : Eff t unit) s s1 : m s = Ok tt s1 -> lsr_ok s -> repeers s s1 -> safe m s.
Proof. intros Hm Hok Hr. destruct (repeers_safe s s1 Hok Hr). by eapply safe_ok. Qed.

(** The addresses and connections of the peers are the same. *)
Definition ends (p : peer_info) := (peerIP p, socket p).
Lemma dest_of_ends s s' c : ends <$> myPeers s' = ends <$> myPeers s -> dest_of s' c = dest_of s c.
Proof.
  unfold dest_of. generalize (myPeers s) as l, (myPeers s') as l'. induction l as [|p l IH]; intros [|q l']; cbn; try done.
  intros [= H1 H2 H3]. rewrite H2. case_bool_decide; cbn; [by rewrite H1|by apply IH].
Qed.

Lemma repeers_ends s s' new : lsr_ok s -> ends <$> myPeers s' = ends <$> myPeers s ->
  (fecList s', fecUp s', fecDown s', pending s', lt s') = (fecList s, fecUp s, fecDown s, pending s, lt s) ->
  node_of s' = node_of s -> sent s' = sent s ++ new -> Forall quiet new -> socketMap s' = socketMap s -> repeers s s'.
Proof.
  intros Hok He Hf Hn Hs Hq Hm.
  assert (forall p, p ∈ myPeers s' -> exists q, q ∈ myPeers s /\ ends q = ends p) as Hin.
  { intros p Hp. assert (ends p ∈ ends <$> myPeers s) as Hx by (rewrite <- He; by apply list_elem_of_fmap_2).
    apply list_elem_of_fmap in Hx as (q & Hq' & Hx). eauto. }
  split; [done|done|by eexists|by rewrite Hm| | | |intros c _; by apply dest_of_ends].
  - intros p Hp. destruct (Hin p Hp) as (q & Hq' & [= <- _]). by apply (lo_peers _ _ _ _ _ Hok).
  - intros p c Hp Hc. destruct (Hin p Hp) as (q & Hq' & [= _ Hx]). rewrite Hm. eapply lo_sockets; [exact Hok|exact Hq'|congruence].
  - intros p q c Hp Hq' Hc Hc'. destruct (Hin p Hp) as (p' & Hp' & [= <- Hx]), (Hin q Hq') as (q' & Hq'' & [= <- Hy]).
    eapply lo_inj; [exact Hok|exact Hp'|exact Hq''|by rewrite Hx|by rewrite Hy].
Qed.

(** A peer without a connection gets one with a new number. *)
Definition plug (c : Z) (i : nat) (k : TCPSocket) (s : t) : t :=
  s <| myPeers := alter (fun p => p <| socket := Some c |>) i (myPeers s) |> <| sockets := <[c := k]> (sockets s) |>
    <| socketMap := {[c]} ∪ socketMap s |>.

Lemma alter_elem {A} (f : A -> A) (i : nat) (l : list A) (p x : A) : l !! i = Some p -> x ∈ alter f i l -> x = f p \/ x ∈ l.
Proof.
  intros Hp Hx. apply list_elem_of_lookup in Hx as [j Hj]. destruct (decide (i = j)) as [->|Hne].
  - left. rewrite list_lookup_alter_eq, Hp in Hj. by injection Hj.
  - right. rewrite list_lookup_alter_ne in Hj by done. by eapply list_elem_of_lookup_2.
Qed.

Lemma find_alter c c' i (l : list peer_info) p : l !! i = Some p -> socket p = None -> c' <> c ->
  peerIP <$> List.find (fun p => bool_decide (socket p = Some c')) (alter (fun p => p <| socket := Some c |>) i l) =
  peerIP <$> List.find (fun p => bool_decide (socket p = Some c')) l.
Proof.
  intros Hp Hs Hne. revert i Hp. induction l as [|q l IH]; intros i Hp; [done|]. destruct i as [|i]; cbn.
  - injection Hp as ->. rewrite Hs. cbn. rewrite !bool_decide_false by congruence. done.
  - case_bool_decide; [done|]. by apply IH.
Qed.

Lemma repeers_plug s c i k p : lsr_ok s -> myPeers s !! i = Some p -> socket p = None -> c ∉ socketMap s -> repeers s (plug c i k s).
Proof.
  intros Hok Hp Hs Hc.
  assert (forall q, q ∈ myPeers (plug c i k s) -> q = p <| socket := Some c |> \/ q ∈ myPeers s) as Hin.
  { intros q. by apply alter_elem. }
  pose proof (list_elem_of_lookup_2 _ _ _ Hp) as Hpin.
  assert (forall q, q ∈ myPeers s -> socket q <> Some c) as Hfree.
  { intros q Hq Hqc. by apply Hc, (lo_sockets _ _ _ _ _ Hok q). }
  split; [done|done|by exists []; rewrite app_nil_r|cbn; set_solver| | | |].
  - intros q [->|Hq]%Hin; [|by apply (lo_peers _ _ _ _ _ Hok)]. by apply (lo_peers _ _ _ _ _ Hok p).
  - intros q c' [->|Hq]%Hin; cbn; [intros [= <-]; set_solver|]. intros Hq'. apply elem_of_union_r. by eapply lo_sockets.
  - intros q q' c' [->|Hq]%Hin [->|Hq']%Hin Hx Hy; cbn in *; simplify_eq.
    + done.
    + by destruct (Hfree q').
    + by destruct (Hfree q).
    + by eapply lo_inj.
  - intros c' Hc'. apply (find_alter c c' i _ p Hp Hs). by intros ->.
Qed.

(** A new peer, without a connection. *)
Lemma repeers_new s s' p : lsr_ok s -> peerIP p <> me -> socket p = None -> myPeers s' = myPeers s ++ [p] ->
  (fecList s', fecUp s', fecDown s', pending s', lt s') = (fecList s, fecUp s, fecDown s, pending s, lt s) ->
  node_of s' = node_of s -> sent s' = sent s ++ [UdpHello (peerIP p)] -> socketMap s' = socketMap s -> repeers s s'.
Proof.
  intros Hok Hp Hs Hps Hf Hn Hse Hm.
  assert (forall q, q ∈ myPeers s' -> q = p \/ q ∈ myPeers s) as Hin.
  { intros q. rewrite Hps, elem_of_app, list_elem_of_singleton. tauto. }
  split; [done|done|exists [UdpHello (peerIP p)]; split; [done|by repeat constructor]|by rewrite Hm| | | |].
  - intros q [->|Hq]%Hin; [done|]. by apply (lo_peers _ _ _ _ _ Hok).
  - intros q c [->|Hq]%Hin Hc; [congruence|]. rewrite Hm. by eapply lo_sockets.
  - intros q q' c [->|Hq]%Hin [->|Hq']%Hin Hx Hy; [done|congruence|congruence|]. by eapply lo_inj.
  - intros c _. unfold dest_of. rewrite Hps. generalize (myPeers s) as l. induction l as [|q l IH]; cbn.
    + by rewrite Hs.
    + case_bool_decide; [done|apply IH].
Qed.

(** ** The handlers *)
Lemma safe_open s i p : lsr_ok s -> myPeers s !! i = Some p -> socket p = None -> safe (openTCPConnectionToPeer i) s.
Proof.
  intros Hok Hp Hs. unfold safe, wlp, openTCPConnectionToPeer, getUniqueNumber, bind, gets, modify, ret, assert_, emit. cbn.
  rewrite Hp. cbn. case_bool_decide as Hc; [done|]. cbn. intros _.
  apply repeers_safe; [done|].
  destruct (repeers_plug s (uniqueNumber s) i (mk_TCPSocket CONNECTING i) p Hok Hp Hs Hc) as [H1 H2 H3 H4 H5 H6 H7 H8].
  split; try done. eexists. split; [done|]. by repeat constructor.
Qed.

Lemma link_up_run s from : link_up s from ->
  (exists e, on_ted (TED.linkIndex_of (getRouterId s) from) s = Err e) \/
  exists i, on_ted (TED.linkIndex_of (getRouterId s) from) s = Ok i s /\
    ((exists e, on_ted (TED.link_at i) s = Err e) \/ exists l, on_ted (TED.link_at i) s = Ok l s /\ te_state l = true).
Proof.
  unfold link_up, on_ted, TED.linkIndex_of, TED.link_at, bind, gets. destruct (TED.find_index _ (TED.ted (tedmod s))) as [i|].
  2:{ intros _. left. by eexists. }
  unfold ret. intros Hl. right. exists i. split; [by destruct s|]. destruct (TED.ted (tedmod s) !! i) as [l|]; [|left; by eexists].
  right. exists l. split; [by destruct s|done].
Qed.

Lemma safe_hello_new from ifId active s : lsr_ok s -> from <> me ->
  safe (let! name := interface_name ifId in
        let! tm := getUniqueNumber in
        modify (fun s => s <| myPeers := myPeers s ++ [mk_peer from active None name tm (Some (simTime s + holdTime s))] |>) ;;;
        let! n := gets (fun s => length (myPeers s)) in
        sendHelloTo from ;;; when active (openTCPConnectionToPeer (n - 1))) s.
Proof.
  intros Hok Hne. unfold interface_name. destruct (InterfaceTable.getInterfaceById ifId (ift (node_of s))) as [ie|] eqn:Hie.
  2:{ unfold safe, wlp, bind, gets. by rewrite Hie. }
  eapply safe_step; [unfold bind, gets; by rewrite Hie|done|].
  set (p := mk_peer from active None (ie_name ie) (uniqueNumber s) (Some (simTime s + holdTime s))).
  set (s1 := s <| uniqueNumber := uniqueNumber s + 1 |> <| myPeers := myPeers s ++ [p] |> <| sent := sent s ++ [UdpHello from] |>).
  assert (repeers s s1) as Hr by (by apply (repeers_new s s1 p)).
  destruct (repeers_safe s s1 Hok Hr) as [Hok1 Hm1].
  eapply (safe_eq _ (when active (openTCPConnectionToPeer (length (myPeers s1) - 1))) s s1); [done|exact Hm1|].
  destruct active; [|by eapply safe_ok]. apply (safe_open s1 _ p); [done| |done].
  cbn. rewrite length_app. cbn. rewrite Nat.add_sub. by apply list_lookup_middle.
Qed.

Lemma safe_hello sort from ifId s : lsr_ok s -> allowed s (FromUDP from ifId) -> safe (processLDPHello sort from ifId) s.
Proof.
  intros Hok Hal. unfold processLDPHello. eapply safe_step; [done|done|]. cbn in Hal.
  destruct (IPAddress.isUnspecified from || (from =? getRouterId s)) eqn:Hsk; [by eapply safe_ok|].
  destruct Hal as [Hal|Hal]; [done|]. apply orb_false_iff in Hsk as [_ Hne%Z.eqb_neq].
  destruct (link_up_run s from Hal) as [[e He]|(i & Hi & Hl)]; [unfold safe, wlp, bind; by rewrite He|].
  eapply safe_step; [exact Hi|done|]. destruct Hl as [[e He]|(l & Hl & Hup)]; [unfold safe, wlp, bind; by rewrite He|].
  eapply safe_step; [exact Hl|done|]. rewrite Hup. eapply safe_step; [done|done|]. eapply safe_step; [done|done|].
  destruct (findPeer from s) as [j|] eqn:Hj.
  - eapply safe_repeers; [done|done|]. eapply (repeers_ends _ _ []); try done; [|by rewrite app_nil_r].
    cbn. rewrite (list_fmap_alter _ _ id) by by apply Forall_true. by rewrite list_alter_id.
  - apply (safe_hello_new from ifId); [done|]. by rewrite (lo_me _ _ _ _ _ Hok) in Hne.
Qed.

(** A released label comes back with the address of this router as its sender, for
    which there is no binding. *)
Lemma release_run k l s : lsr_ok s -> 0 < l -> processLABEL_RELEASE me k l s = Ok tt s.
Proof.
  intros Hok Hl. unfold processLABEL_RELEASE, bind, assert_, gets, ret. rewrite (proj2 (Z.ltb_lt _ _) Hl).
  destruct (findFecEntry (fecList s) (fec_addr k) (fec_length k)) as [it|]; [|done].
  destruct (findFecBind (fecUp s) (fecid it) me) as [u|] eqn:Hu; [|done].
  apply findFecBind_inv in Hu as (Hin & _ & Hp). by destruct (lo_up _ _ _ _ _ Hok u Hin) as [Hne _].
Qed.

Lemma safe_release k l s : lsr_ok s -> safe (processLABEL_RELEASE me k l) s.
Proof.
  intros Hok. destruct (Z.ltb_spec 0 l) as [Hl|Hl].
  - by eapply safe_ok; [apply release_run| |].
  - unfold safe, wlp, processLABEL_RELEASE, bind, assert_. by rewrite (proj2 (Z.ltb_ge 0 l) Hl).
Qed.

Lemma safe_packet second p s : lsr_ok s -> in_ok F me E p -> safe (processLDPPacketFromTCP second p) s.
Proof.
  intros Hok Hin. destruct p as [[] from to k l|from to k|from to st k|ty]; cbn in *.
  - eapply safe_keeps; [by apply keeps_labelMapping|done|done].
  - eapply safe_keeps; [by apply keeps_labelWithdraw|done|done].
  - subst from. by apply safe_release.
  - eapply safe_keeps; [by apply keeps_labelRequest|done|done].
  - eapply safe_keeps; [by apply keeps_notification|done|done].
  - done.
Qed.

Lemma safe_peer_at {A} i (k : peer_info -> Eff t A) s : (forall p, safe (k p) s) -> safe (bind (peer_at i) k) s.
Proof.
  intros Hk. unfold safe, wlp, bind, peer_at, bind, gets. destruct (myPeers s !! i) as [p|]; [|done]. apply Hk.
Qed.

Lemma safe_processMessage second c kind s : lsr_ok s -> allowed s (FromTCP c kind) -> safe (processMessage second c kind) s.
Proof.
  intros Hok Hal. unfold processMessage. destruct (deref_socket c s) as [k s1|] eqn:Hd; [|unfold safe, wlp, bind; by rewrite Hd].
  assert (s1 = s) as -> by (unfold deref_socket, bind, gets in Hd; destruct (sockets s !! c); [by injection Hd|done]).
  eapply safe_step; [exact Hd|done|].
  assert (forall st (m : Eff t unit), (forall s', lsr_ok s' -> safe m s') -> safe (set_sockstate c st ;;; m) s) as Hset.
  { intros st m Hm. eapply safe_step; [done|done|]. apply Hm.
    apply (lsr_ok_core _ _ _ _ s); [done|done|apply Hok]. }
  destruct kind as [p|a| | |]; try (apply Hset; intros s' Hok'; apply safe_peer_at; intros p; done).
  - apply safe_peer_at. intros _. by apply safe_packet.
  - apply Hset. intros s' Hok'. apply safe_peer_at. intros p. eapply safe_keeps; [by apply keeps_updateFecList|done|exact I].
Qed.

Lemma safe_close c s : lsr_ok s -> safe (emit (TcpClose c)) s.
Proof.
  intros Hok. eapply safe_repeers; [done|done|]. eapply (repeers_ends _ _ [TcpClose c]); try done. by repeat constructor.
Qed.

Lemma safe_tcp second c kind s : lsr_ok s -> allowed s (FromTCP c kind) -> safe (processMessageFromTCP second c kind) s.
Proof.
  intros Hok Hal. unfold processMessageFromTCP. eapply safe_step; [done|done|]. case_bool_decide as Hc; [by apply safe_processMessage|].
  cbv zeta. eapply safe_step; [done|done|]. destruct (findPeer _ s) as [i|] eqn:Hi; [|by apply safe_close].
  apply find_peer_spec in Hi as (p & Hp & _ & _). rewrite Nat.sub_0_r in Hp.
  eapply safe_step; [unfold peer_at, bind, gets; by rewrite Hp|done|]. destruct (socket p) eqn:Hs; cbn [is_some]; [by apply safe_close|].
  destruct (repeers_safe s (plug c i (mk_TCPSocket CONNECTED i) s)) as [Hok1 Hm1]; [done|by eapply repeers_plug|].
  eapply (safe_step _ _ _ (plug c i (mk_TCPSocket CONNECTED i) s)); [done|exact Hm1|]. by apply safe_processMessage.
Qed.

Lemma handle_safe sort second msg s : lsr_ok s -> allowed s msg -> safe (handleMessage sort second msg) s.
Proof.
  intros Hok Hal. destruct msg as [|m|from to st k|from ifId|c kind]; [|done| | |].
  - eapply safe_repeers; [done|done|]. eapply (repeers_ends _ _ [UdpHello ALL_ROUTERS_MCAST]); try done. by repeat constructor.
  - eapply safe_keeps; [by apply keeps_notification|done|exact I].
  - by apply safe_hello.
  - by apply safe_tcp.
Qed.
End Handle.
