(* ===== verification/LdpStart.v ===== *)
(** * A router of label distribution starts

    [initialize] numbers one class for every route and for every interface, and
    tells nothing to anyone. *)
From Stdlib Require Import String.
From S2P Require Import Prelude IPAddress InterfaceTable RoutingTable RoutingSpec TED Mpls Ldp LdpSpec.
Import LDP.

(** A routing table whose caches are empty. *)
Record fresh_node (n : Node) : Prop := {
  fn_table : table_inv (rt n);
  fn_cache : routingCache (rt n) = ∅;
  fn_local : localAddresses (rt n) = ∅;
  fn_size : Z.of_nat (length (routes (rt n) ++ multicastRoutes (rt n)) + length (InterfaceTable.interfaces (ift n))) <= 2147483647
}.

(** The state while the first list of classes is built. *)
Record booting (n : Node) (s : t) : Prop := {
  bo_node : node_of s = n;
  bo_empty : (fecUp s, fecDown s, pending s, myPeers s, socketMap s, lt s, sent s) = ([], [], [], [], ∅, LIBTable.new, [TcpListen LDP_PORT]);
  bo_ids : fecid <$> fecList s = seqZ 1 (Z.of_nat (length (fecList s)));
  bo_max : maxFecid s = Z.of_nat (length (fecList s))
}.

Lemma updateFecListEntry_booting n s f : booting n s -> updateFecListEntry f s = Ok tt s.
Proof.
  intros [_ He _ _]. injection He as H1 H2 H3 H4 H5 H6 H7. destruct s. cbn in *. subst. reflexivity.
Qed.

Lemma push_booting n s (f : Z -> fec_t) : booting n s -> Z.of_nat (length (fecList s)) < 2147483647 -> (forall i, fecid (f i) = i) ->
  exists s', (let! id := new_fecid in push_fec (f id)) s = Ok tt s' /\ booting n s' /\ length (fecList s') = S (length (fecList s)).
Proof.
  intros [Hn He Hi Hm] Hb Hf. unfold new_fecid, push_fec, bind, modify, gets. cbn -[i32]. eexists. split; [reflexivity|].
  rewrite Hm. rewrite i32_small by lia. split; [|cbn; rewrite length_app; cbn; lia].
  split; [exact Hn|exact He| |]; cbn; rewrite length_app; cbn; [|lia].
  rewrite fmap_app, Hi. cbn. rewrite Hf. rewrite Nat2Z.inj_add, seqZ_app by lia. f_equal. rewrite seqZ_cons by lia. cbn. f_equal. lia.
Qed.

(** One more class at most. *)
Definition boots (n : Node) {A} (m : list fec_t -> A -> Eff t (list fec_t)) : Prop := forall a s, booting n s ->
  Z.of_nat (length (fecList s)) < 2147483647 ->
  wlp (m [] a) (fun old s' => old = [] /\ booting n s' /\ (length (fecList s') <= S (length (fecList s)))%nat) s.

Lemma route_boots n : boots n fec_of_route.
Proof.
  intros re s Hs Hb. unfold fec_of_route. destruct (IPAddress.isMulticast (host re)); [unfold wlp, ret; split_and!; [done|done|lia]|].
  apply wlp_bind. unfold wlp at 1, assert_. destruct (negb _); [|done]. unfold ret at 1. cbn [findFecEntry List.find].
  set (hop := match type_ re with DIRECT => host re | REMOTE => gateway re end).
  set (len := IPAddress.getNetmaskLength (netmask re)).
  destruct (push_booting n s (fun id => mk_fec id (host re) len hop) Hs Hb) as (s' & Hp & Hs' & Hl'); [done|].
  unfold bind, new_fecid, push_fec, modify, gets, bind in Hp.
  unfold wlp, bind, new_fecid, push_fec, modify, gets, bind. cbn -[i32 updateFecListEntry] in *.
  match goal with |- context [updateFecListEntry ?f ?x] => assert (updateFecListEntry f x = Ok tt x) as -> end.
  { destruct Hs as [_ He _ _]. injection He as H1 H2 H3 H4 H5 H6 H7. destruct s. cbn in *. subst. reflexivity. }
  unfold ret. injection Hp as <-. split_and!; [done|exact Hs'|]. cbn in *. lia.
Qed.

Lemma interface_boots n : boots n fec_of_interface.
Proof.
  intros ie s Hs Hb. unfold fec_of_interface. destruct (nwLayerGateIndex ie <? 0); [unfold wlp, ret; split_and!; [done|done|lia]|].
  apply wlp_bind. unfold wlp at 1, ipv4Data. destruct (ipv4data ie) as [d|]; [|done]. unfold ret at 1. cbn [findFecEntry List.find].
  destruct (push_booting n s (fun id => mk_fec id (inetAddr d) 32 (inetAddr d)) Hs Hb) as (s' & Hp & Hs' & Hl'); [done|].
  unfold bind in Hp. unfold wlp, bind. destruct (new_fecid s) as [id s1|]; [|done]. rewrite Hp. unfold ret. split_and!; [done|done|lia].
Qed.

Lemma fold_boots n {A} (m : list fec_t -> A -> Eff t (list fec_t)) l s : boots n m -> booting n s ->
  Z.of_nat (length (fecList s) + length l) <= 2147483647 ->
  wlp (foldE m l []) (fun old s' => old = [] /\ booting n s' /\ (length (fecList s') <= length (fecList s) + length l)%nat) s.
Proof.
  intros Hm. revert s. induction l as [|a l IH]; intros s Hs Hb; cbn [foldE length] in *.
  { unfold wlp, ret. split_and!; [done|done|lia]. }
  apply wlp_bind. eapply wlp_mono; [apply Hm; [done|lia]|]. intros old s1 (-> & Hs1 & Hl1). cbn.
  eapply wlp_mono; [apply IH; [done|lia]|]. intros old s2 (-> & Hs2 & Hl2). split_and!; [done|done|lia].
Qed.

Section Start.
Context (sort : list fec_t -> list fec_t) (Hsort : forall l, sort l ≡ₚ l).

Lemma rebuild_boots n s : fresh_node n -> booting n s -> fecList s = [] ->
  wlp (rebuildFecList sort) (fun _ s' => exists s1, booting n s1 /\ s' = s1 <| fecList := sort (fecList s1) |>) s.
Proof.
  intros Hn Hs Hl. unfold rebuildFecList. apply wlp_bind. unfold wlp at 1, gets. rewrite Hl. apply wlp_bind. unfold wlp at 1, modify.
  assert (s <| fecList := [] |> = s) as -> by (destruct s; cbn in *; by subst).
  assert (forall {A} (m : Eff Node A) (Q : A -> t -> Prop) x, booting n x -> (forall a n', m n = Ok a n' -> n' = n /\ Q a x) -> wlp (on_node m) Q x) as Hon.
  { intros A m Q x Hx Hq. unfold wlp, on_node, on_ted, TED.on_node. pose proof (bo_node _ _ Hx) as Hx'. unfold node_of in Hx'. rewrite Hx'.
    destruct (m n) as [a n'|] eqn:Hm; [|done]. destruct (Hq a n' eq_refl) as [-> Hqa]. rewrite <- Hx'. by destruct x as [[]]. }
  apply wlp_bind, Hon; [done|]. intros ps n' [= <- <-]. split; [done|]. apply wlp_bind, Hon; [done|]. intros res n' Hres.
  assert (n' = n /\ length res = length (routes (rt n) ++ multicastRoutes (rt n))) as [-> Hlen].
  { revert Hres. generalize (routes (rt n) ++ multicastRoutes (rt n)). intros ps. revert res n'.
    induction ps as [|p ps IH]; intros res n'; cbn; [by intros [= <- <-]|]. unfold bind at 1, deref at 1, bind at 1, get_rt, gets.
    destruct (heap (rt n) !! p); [|done]. cbn. unfold bind. destruct (mapE deref ps n) as [rs n1|]; [|done].
    intros [= <- <-]. destruct (IH _ _ eq_refl) as [-> H]. cbn. by rewrite H. }
  split; [done|]. pose proof (fn_size _ Hn) as Hsz.
  apply wlp_bind. eapply wlp_mono; [apply (fold_boots n); [apply route_boots|done|rewrite Hl, Hlen; cbn; lia]|].
  intros old s1 (-> & Hs1 & Hl1). rewrite Hl, Hlen in Hl1. cbn [length] in Hl1.
  apply wlp_bind, Hon; [done|]. intros ies n' [= <- <-]. split; [done|].
  apply wlp_bind. eapply wlp_mono; [apply (fold_boots n); [apply interface_boots|done|lia]|].
  intros old s2 (-> & Hs2 & Hl2). exists s2. split; done.
Qed.

(** The module of router [me] after [initialize]. *)
Definition started (me : IPAddress.t) (s : t) : Prop := exists x hold hello firstHello unique,
  fresh_node (TED.node x) /\ RoutingTable.routerId (rt (TED.node x)) = me /\
  initialize sort x LIBTable.new hold hello firstHello unique tt = Ok s tt.

Lemma started_ok F N me E s : started me s -> F me = fecList s -> N me = node_of s ->
  lsr_ok F N me E s /\ msgs s = [] /\ table_inv (rt (node_of s)).
Proof.
  intros (x & hold & hello & fh & un & Hn & Hme & Hi) HF HNs. unfold initialize in Hi. cbn zeta in Hi.
  match type of Hi with match ?m ?s0 with _ => _ end = _ => set (run := m) in *; set (st := s0) in * end.
  destruct (run st) as [[] s1|] eqn:Hr; [|done]. injection Hi as ->.
  unfold run, bind, modify, emit in Hr. cbn -[rebuildFecList] in Hr.
  match type of Hr with rebuildFecList _ ?y = _ => assert (booting (TED.node x) y) as Hb by done;
    pose proof (rebuild_boots (TED.node x) y Hn Hb eq_refl) as Hw end.
  unfold wlp in Hw. rewrite Hr in Hw. destruct Hw as (s1 & [B1 B2 B3 B4] & ->).
  assert (node_of (s1 <| fecList := sort (fecList s1) |>) = TED.node x) as Hnd by done. rewrite Hnd in HNs.
  injection B2 as C1 C2 C3 C4 C5 C6 C7.
  assert (msgs (s1 <| fecList := sort (fecList s1) |>) = []) as Hmsgs by (unfold msgs; cbn; by rewrite C7).
  split_and!; [|done|rewrite Hnd; apply Hn].
  split; unfold mapped, entries, count, entries; rewrite ?Hmsgs; cbn; rewrite ?C1, ?C2, ?C3, ?C4, ?C5, ?C6, ?C7; try (intros; set_solver).
  - rewrite HF. cbn. rewrite Hsort, B3. apply NoDup_seqZ.
  - rewrite HNs, Hnd. split; [done|apply Hn| |]; rewrite ?(fn_cache _ Hn), ?(fn_local _ Hn); [set_solver|done].
  - unfold getRouterId. by rewrite Hnd.
Qed.
End Start.
