(* ===== verification/LdpNetwork.v ===== *)
(** * A network of label switching routers

    Routers that run [LDP] and [MPLS] are joined by cables.  Any router may handle
    any message at any time: what a router has sent to a peer may arrive later, out
    of order and more than once; hellos, established connections and retries happen
    at will.  Peers do not expire and links do not come up, so the routing tables
    stay as they are.  Packets travel while labels are still being distributed. *)
From Stdlib Require Import String.
From S2P Require Import Prelude IPAddress InterfaceTable RoutingTable RoutingSpec TED Mpls Ldp LdpSpec LdpHandlers LdpRouter LdpStart.
Import LDP.

(** ** The network *)
(** A packet on its way: where it arrives, the datagram it was when it got its label
    and the label switched hops since. *)
Record Flight : Type := mk_Flight { at_ : IPAddress.t; gate : Z; packet : NetPacket; origin : Datagram; hops : nat }.
Record System : Type := mk_System { routers : gmap IPAddress.t t; flights : list Flight }.

(** A message that may reach router [r]. *)
Definition arrives (sys : System) (r : IPAddress.t) (s : t) (msg : Message) : Prop :=
  match msg with
  | HelloTimeout _ => False
  | FromUDP from _ => IPAddress.isUnspecified from || (from =? getRouterId s) = true \/ link_up s from
  | FromTCP _ (TCP_I_DATA p) => exists d sd, routers sys !! d = Some sd /\ (r, p) ∈ msgs sd
  | _ => True
  end.

Definition uncoloured (d : Datagram) : Datagram := d <| dg_color := None |>.

Section Network.
Context (sort : list fec_t -> list fec_t) (second : Z) (cable : IPAddress.t -> Z -> option (IPAddress.t * Z)).

(** What leaves through an interface arrives at the other end of its cable. *)
Definition carry (r : IPAddress.t) (d : Datagram) (h : nat) (out : option Output) : list Flight :=
  match out with
  | Some (IfOut g p) => match cable r g with Some (r', g') => [mk_Flight r' g' p d h] | None => [] end
  | _ => []
  end.

Inductive step : System -> System -> Prop :=
  | step_ldp r s msg s' nt fl : nt !! r = Some s -> arrives (mk_System nt fl) r s msg ->
      LDP.handleMessage sort second msg s = Ok tt s' -> bounded s' ->
      step (mk_System nt fl) (mk_System (<[r := s']> nt) fl)
  | step_send r s d g out s' nt fl : nt !! r = Some s ->
      MPLS.handleMessage (MPLS.FromL3 d g) s = Ok out s' -> bounded s' ->
      step (mk_System nt fl) (mk_System (<[r := s']> nt) (fl ++ carry r d 0 out))
  | step_label r s g d d0 h out s' nt fl1 fl2 : nt !! r = Some s ->
      MPLS.handleMessage (MPLS.FromL2 (NativeIP d) g) s = Ok out s' -> bounded s' ->
      step (mk_System nt (fl1 ++ mk_Flight r g (NativeIP d) d0 h :: fl2)) (mk_System (<[r := s']> nt) (fl1 ++ fl2 ++ carry r d 0 out))
  | step_switch r s g p d0 h out s' nt fl1 fl2 : nt !! r = Some s ->
      MPLS.handleMessage (MPLS.FromL2 (Labelled p) g) s = Ok out s' -> bounded s' ->
      step (mk_System nt (fl1 ++ mk_Flight r g (Labelled p) d0 h :: fl2)) (mk_System (<[r := s']> nt) (fl1 ++ fl2 ++ carry r d0 (S h) out)).

Definition reachable : System -> System -> Prop := rtc step.
End Network.

(** ** Label switching *)
Lemma stackOps_state {S} ops p (s : S) p' s' : MPLS.doStackOps p ops s = Ok p' s' -> s' = s.
Proof.
  revert p s. induction ops as [|op ops IH]; intros p s; cbn; [by intros [= _ <-]|]. unfold bind, assert_.
  destruct op; cbn; try (destruct (hasLabel p)); try done; apply IH.
Qed.

Section Switch.
Context (F : IPAddress.t -> list fec_t) (N : IPAddress.t -> Node) (me : IPAddress.t) (E : IPAddress.t -> Z -> FEC_TLV -> Prop).
Context (HN : table_inv (rt (N me))).
Notation lsr_ok := (lsr_ok F N me E).
Notation keeps := (keeps F N me E).

Lemma keeps_never_labelled (P : Prop) d : keeps P (never_labelled d) (fun _ => True).
Proof.
  unfold never_labelled. destruct (dg_protocol d =? IP_PROT_OSPF); [by apply keeps_ret|].
  destruct (dg_protocol d =? IPDatagram.IP_PROT_UDP); [destruct (dg_encapsulated d); by (apply keeps_ret || apply keeps_fail)|].
  destruct (dg_protocol d =? IPDatagram.IP_PROT_TCP); [destruct (dg_encapsulated d); by (apply keeps_ret || apply keeps_fail)|].
  by apply keeps_ret.
Qed.

(** The class of a datagram and the label its next hop has told for it. *)
Definition class_label (d : Datagram) (it : fec_t) (l : Z) (outIf : string) : Prop :=
  it ∈ F me /\ IPAddress.prefixMatches (dg_dest d) (addr it) (flength it) = true /\
  name_of (N me) (nextHop it) = Some outIf /\ E (nextHop it) l (key it).

Lemma keeps_lookupLabel d : keeps True (lookupLabel d) (fun o => forall ops outIf c, o = Some (ops, outIf, c) ->
  exists it l, ops = LIBTable.pushLabel l /\ class_label d it l outIf).
Proof.
  unfold lookupLabel. eapply keeps_bind; [by apply keeps_never_labelled|]. intros [|]; [by apply keeps_ret|].
  eapply keeps_bind; [by apply keeps_fecs|]. intros fl. destruct (List.find _ fl) as [it|] eqn:Hf; [|by apply keeps_ret].
  apply List.find_some in Hf as [Hin%list_elem_of_In Hm].
  eapply keeps_bind; [apply keeps_down; by intros [_ ->]|]. intros [b|]; [|by apply keeps_ret].
  eapply keeps_bind; [by apply keeps_interface|]. intros name. apply keeps_ret. intros [[[_ ->] HE] Hn] ops outIf c [= <- <- <-].
  exists it, (b_label b). split; [done|]. split_and!; [done|done|done|]. by apply HE.
Qed.

(** A datagram that gets a label leaves with it through the interface to its next hop. *)
Definition labelled_as (d : Datagram) (out : Output) : Prop := exists it l outIf ie q,
  class_label d it l outIf /\ InterfaceTable.getInterfaceByName outIf (ift (N me)) = Some ie /\
  out = IfOut (nwLayerGateIndex ie) (Labelled q) /\ labels q = [l] /\ mp_payload q = d.

Lemma try_label s d : lsr_ok s -> wlp (MPLS.tryLabelAndForwardIPDatagram d)
  (fun o s' => bounded s' -> lsr_ok s' /\ msgs s ⊆ msgs s' /\ forall out, o = Some out -> labelled_as d out) s.
Proof.
  intros Hok. unfold MPLS.tryLabelAndForwardIPDatagram. apply wlp_bind. eapply wlp_mono; [apply keeps_lookupLabel|].
  intros o s' [Hle H]. cbn. pose proof (later_msgs _ _ Hle) as Hms. destruct o as [[[ops outIf] c]|].
  2:{ unfold wlp, ret. intros Hb. destruct (H Hb Hok I) as [Hok' _]. by split_and!. }
  unfold wlp. destruct ((assert_ _ _ ;;; _) s') as [o s2|] eqn:Hr; [|done].
  assert (s2 = s') as ->.
  { revert Hr. unfold bind at 1, assert_. destruct ops as [|op ops]; [done|]. unfold ret at 1, bind at 1, MPLS.port_of, bind at 1, gets.
    destruct (InterfaceTable.getInterfaceByName _ _); [|done]. unfold ret at 1, bind at 1.
    destruct (MPLS.doStackOps _ _ s') as [p s3|] eqn:Hd; [|done]. intros [= _ <-].
    by eapply stackOps_state. }
  intros Hb. destruct (H Hb Hok I) as [Hok' Hc]. split_and!; [done|done|]. intros out ->.
  destruct (Hc _ _ _ eq_refl) as (it & l & -> & Hcl). pose proof (no_fixed _ _ (lo_node _ _ _ _ _ Hok')) as Hfx.
  injection Hfx as Hift _ _ _ _ _ _.
  revert Hr. unfold bind, assert_, MPLS.port_of, gets, ret, bind, gets. cbn. rewrite Hift.
  destruct (InterfaceTable.getInterfaceByName outIf (ift (N me))) as [ie|] eqn:Hie; [|done]. intros [= <-].
  eexists it, l, outIf, ie, _. by split_and!.
Qed.

(** ** A label that was told *)
Lemma resolve_told s l k u name : lsr_ok s -> mapped me s l k u -> name_of (N me) u = Some name ->
  exists e, LIBTable.resolveLabel name l (lt s) = Some (LIBTable.outLabel e, LIBTable.outInterface e, LIBTable.color e) /\
    entry_ok F N me E k e.
Proof.
  intros Hok Hm Hname. destruct (lo_mapped _ _ _ _ _ Hok _ _ _ Hm) as (H1 & _ & e & Hl & Hn & He). exists e. split; [|done].
  assert (List.find (LIBTable.resolves name l) (entries s) = Some e) as Hfind; [|unfold LIBTable.resolveLabel; fold (entries s); by rewrite Hfind].
  pose proof (lo_labels _ _ _ _ _ Hok) as Hlab. pose proof (seqZ_lookup_inv _ _ _ Hlab Hl) as Hle.
  destruct (List.find (LIBTable.resolves name l) (entries s)) as [e'|] eqn:Hf.
  - apply List.find_some in Hf as [Hin%list_elem_of_In Hr]. apply list_elem_of_lookup in Hin as [j Hj].
    pose proof (seqZ_lookup_inv _ _ _ Hlab Hj) as Hj'. unfold LIBTable.resolves in Hr.
    apply andb_true_iff in Hr as [_ Hx%Z.eqb_eq]. assert (j = Z.to_nat (l - 1)) as -> by lia. congruence.
  - exfalso. pose proof (List.find_none _ _ Hf e (proj1 (list_elem_of_In _ _) (list_elem_of_lookup_2 _ _ _ Hl))) as Hx.
    unfold LIBTable.resolves in Hx. rewrite (bool_decide_eq_true_2 (LIBTable.inInterface e = name)), orb_true_r in Hx by congruence.
    cbn in Hx. apply Z.eqb_neq in Hx. lia.
Qed.
End Switch.

(** More labels may have been told. *)
Lemma entry_ok_more F N me (E E' : IPAddress.t -> Z -> FEC_TLV -> Prop) k e :
  (forall d l k, E d l k -> E' d l k) -> entry_ok F N me E k e -> entry_ok F N me E' k e.
Proof. intros HE (n & Hw & Hn & Ho). exists n. split_and!; [done|done|]. destruct Ho as [Ho|(l & Ho & Hl)]; [by left|right; eauto]. Qed.

Lemma lsr_ok_more F N me (E E' : IPAddress.t -> Z -> FEC_TLV -> Prop) s :
  (forall d l k, E d l k -> E' d l k) -> lsr_ok F N me E s -> lsr_ok F N me E' s.
Proof.
  intros HE [O1 O2 O3 O4 O5 O6 O7 O8 O9 O10 O11 O12 O13 O14 O15 O16]. split; try done.
  - intros b Hb. destruct (O8 b Hb) as (k & H1 & H2 & H3). eauto.
  - intros l k u Hm. destruct (O13 _ _ _ Hm) as (H1 & H2 & e & H3 & H4 & H5). split_and!; [done|done|].
    exists e. split_and!; [done|done|]. by eapply entry_ok_more.
Qed.

(** ** The network as a whole *)
Section Whole.
Context (sort : list fec_t -> list fec_t) (second : Z) (cable : IPAddress.t -> Z -> option (IPAddress.t * Z)).
Context (F : IPAddress.t -> list fec_t) (N : IPAddress.t -> Node) (R : gset IPAddress.t).

(** The name of an interface of router [r] is in its table; the interface by which
    [r] reaches a router that is a next hop is joined to the one by which that router
    reaches [r]. *)
Definition wired : Prop := forall r k n x, r ∈ R -> wants F r k n -> name_of (N r) n = Some x ->
  exists ie, InterfaceTable.getInterfaceByName x (ift (N r)) = Some ie /\
    (n ∈ R -> n <> r -> exists g ie', cable r (nwLayerGateIndex ie) = Some (n, g) /\
      InterfaceTable.getInterfaceByNetworkLayerGateIndex g (ift (N n)) = Some ie' /\ name_of (N n) r = Some (ie_name ie')).

(** The next hops of a class lead to it: each is nearer than the one before. *)
Definition loop_free (rank : FEC_TLV -> IPAddress.t -> nat) (limit : nat) : Prop := forall k r, r ∈ R ->
  (rank k r <= limit)%nat /\ forall n, n ∈ R -> n <> r -> wants F r k n -> (rank k n < rank k r)%nat.

Context (rank : FEC_TLV -> IPAddress.t -> nat) (limit : nat).

(** The labels router [d] has told router [r]. *)
Definition told (nt : gmap IPAddress.t t) (r d : IPAddress.t) (l : Z) (k : FEC_TLV) : Prop :=
  exists sd, nt !! d = Some sd /\ mapped d sd l k r.

Definition flight_ok (nt : gmap IPAddress.t t) (f : Flight) : Prop :=
  match packet f with
  | NativeIP _ => True
  | Labelled p => exists l k u ie, labels p = [l] /\ told nt u (at_ f) l k /\
      InterfaceTable.getInterfaceByNetworkLayerGateIndex (gate f) (ift (N (at_ f))) = Some ie /\
      name_of (N (at_ f)) u = Some (ie_name ie) /\ uncoloured (mp_payload p) = uncoloured (origin f) /\
      IPAddress.prefixMatches (dg_dest (origin f)) (fec_addr k) (fec_length k) = true /\
      (rank k (at_ f) + hops f < limit)%nat
  end.

Record net_ok (nt : gmap IPAddress.t t) : Prop := {
  nk_dom : dom nt = R;
  nk_router : forall r s, nt !! r = Some s -> lsr_ok F N r (told nt r) s
}.
Record sys_ok (sys : System) : Prop := {
  sk_net : net_ok (routers sys);
  sk_flights : forall f, f ∈ flights sys -> flight_ok (routers sys) f
}.

Lemma told_insert nt r s s' : nt !! r = Some s -> msgs s ⊆ msgs s' ->
  forall u d l k, told nt u d l k -> told (<[r := s']> nt) u d l k.
Proof.
  intros Hs Hm u d l k (sd & Hd & Hl). destruct (decide (d = r)) as [->|Hne].
  - assert (sd = s) as -> by congruence. exists s'. split; [by rewrite lookup_insert, decide_True|]. by apply Hm.
  - exists sd. by rewrite lookup_insert_ne.
Qed.

Lemma net_ok_insert nt r s s' : net_ok nt -> nt !! r = Some s -> lsr_ok F N r (told nt r) s' -> msgs s ⊆ msgs s' -> net_ok (<[r := s']> nt).
Proof.
  intros [Hd Hn] Hs Hs' Hm. pose proof (told_insert nt r s s' Hs Hm) as Ht. split.
  - rewrite dom_insert_L, Hd. apply elem_of_dom_2 in Hs. rewrite Hd in Hs. set_solver.
  - intros r' s1. destruct (decide (r' = r)) as [->|Hne].
    + rewrite lookup_insert, decide_True by done. intros [= <-]. by eapply lsr_ok_more; [apply Ht|].
    + rewrite lookup_insert_ne by done. intros Hs1. eapply lsr_ok_more; [apply Ht|]. by apply Hn.
Qed.

Lemma flight_ok_more nt nt' f : (forall u d l k, told nt u d l k -> told nt' u d l k) -> flight_ok nt f -> flight_ok nt' f.
Proof. intros Ht. unfold flight_ok. destruct (packet f); [done|]. intros (l & k & u & ie & H1 & H2 & H3). exists l, k, u, ie. auto. Qed.

(** A message that a router has sent fits the one it was sent to. *)
Lemma arrives_allowed sys r s msg : net_ok (routers sys) -> arrives sys r s msg -> allowed F r (told (routers sys) r) s msg.
Proof.
  intros Hn. destruct msg as [| | | |c [p| | | |]]; try done. cbn. intros (d & sd & Hd & Hp).
  pose proof (nk_router _ Hn d sd Hd) as Hok. destruct (lo_msgs _ _ _ _ _ Hok _ _ Hp) as [Hne Ho].
  destruct p as [[] from to k l|from to k| |]; cbn in *; try done.
  - destruct Ho as [-> ->]. destruct (lo_mapped _ _ _ _ _ Hok l k r Hp) as (_ & Hs & _). split; [by exists sd|done].
  - destruct Ho as [-> Hw]. by split.
Qed.

Context (HN : forall r, r ∈ R -> table_inv (rt (N r))) (Hw : wired) (Hl : loop_free rank limit).

Lemma told_router nt u d l k : net_ok nt -> told nt u d l k -> d ∈ R /\ d <> u.
Proof.
  intros Hn (sd & Hd & Hm). split; [rewrite <- (nk_dom _ Hn); by eapply elem_of_dom_2|].
  destruct (lo_msgs _ _ _ _ _ (nk_router _ Hn d sd Hd) _ _ Hm) as [Hne _]. congruence.
Qed.

(** A labelled packet goes to the router that told the label. *)
Lemma hop_ok nt r k n x ie q l d h : net_ok nt -> r ∈ R -> wants F r k n -> told nt r n l k -> name_of (N r) n = Some x ->
  InterfaceTable.getInterfaceByName x (ift (N r)) = Some ie -> labels q = [l] -> uncoloured (mp_payload q) = uncoloured d ->
  IPAddress.prefixMatches (dg_dest d) (fec_addr k) (fec_length k) = true -> (rank k r + h <= limit)%nat ->
  exists g, cable r (nwLayerGateIndex ie) = Some (n, g) /\ flight_ok nt (mk_Flight n g (Labelled q) d h).
Proof.
  intros Hn Hr Hwa Ht Hx Hie Hq Hp Hd Hh. destruct (told_router _ _ _ _ _ Hn Ht) as [HnR Hne].
  destruct (Hw r k n x Hr Hwa Hx) as (ie' & Hie' & Hc). assert (ie' = ie) as -> by congruence.
  destruct (Hc HnR Hne) as (g & i2 & Hg & Hi2 & Hname). exists g. split; [done|]. exists l, k, r, i2.
  destruct (Hl k r Hr) as [_ Hrank]. specialize (Hrank n HnR Hne Hwa). cbn. split_and!; [done|done|done|done|done|done|lia].
Qed.

(** What becomes of a labelled packet at a router: it leaves for the next hop [n]
    through the interface [ie]. *)
Definition switched (r : IPAddress.t) (n : IPAddress.t) (ie : InterfaceEntry) (d : Datagram) (out : Output) : Prop :=
  match out with
  | IfOut port (Labelled q) => port = nwLayerGateIndex ie /\ uncoloured (mp_payload q) = uncoloured d /\ exists g, cable r port = Some (n, g)
  | IfOut port (NativeIP d') => port = nwLayerGateIndex ie /\ port <> -1 /\ uncoloured d' = uncoloured d
  | NetwOut _ d' => nwLayerGateIndex ie = -1 /\ uncoloured d' = uncoloured d
  end.

Lemma switch_run nt f p s : net_ok nt -> flight_ok nt f -> packet f = Labelled p -> nt !! at_ f = Some s ->
  exists c x ie out, c ∈ F (at_ f) /\ IPAddress.prefixMatches (dg_dest (origin f)) (addr c) (flength c) = true /\
    name_of (N (at_ f)) (nextHop c) = Some x /\ InterfaceTable.getInterfaceByName x (ift (N (at_ f))) = Some ie /\
    MPLS.handleMessage (MPLS.FromL2 (Labelled p) (gate f)) s = Ok (Some out) s /\ switched (at_ f) (nextHop c) ie (origin f) out /\
    forall f', f' ∈ carry cable (at_ f) (origin f) (S (hops f)) (Some out) -> flight_ok nt f'.
Proof.
  intros Hn Hf Hp Hs. unfold flight_ok in Hf. rewrite Hp in Hf. destruct Hf as (l & k & u & i & Hlab & Ht & Hi & Hu & Hpay & Hpre & Hrk).
  pose proof (elem_of_dom_2 _ _ _ Hs) as HR. rewrite (nk_dom _ Hn) in HR.
  pose proof (nk_router _ Hn _ _ Hs) as Hok. destruct Ht as (s1 & Hs1 & Hm). assert (s1 = s) as -> by congruence.
  destruct (resolve_told _ _ _ _ _ _ _ _ _ Hok Hm Hu) as (e & Hres & n & Hwa & Hx & Hout).
  destruct (Hw _ _ _ _ HR Hwa Hx) as (ie & Hie & _). destruct (lo_mapped _ _ _ _ _ Hok _ _ _ Hm) as (H1 & _).
  pose proof (no_fixed _ _ (lo_node _ _ _ _ _ Hok)) as Hfx. injection Hfx as Hift _ _ _ _ _ _.
  pose proof Hwa as (c & Hc & Hck & <-). exists c, (LIBTable.outInterface e), ie.
  set (m := MPLS.handleMessage (MPLS.FromL2 (Labelled p) (gate f)) s).
  assert (m = (let! q := MPLS.doStackOps p (LIBTable.outLabel e) in
      if hasLabel q then ret (Some (IfOut (nwLayerGateIndex ie) (Labelled (q <| mp_color := Some (LIBTable.color e) |>))))
      else if negb (nwLayerGateIndex ie =? -1) then ret (Some (IfOut (nwLayerGateIndex ie) (NativeIP (mp_payload q))))
      else ret (Some (NetwOut (gate f) (mp_payload q)))) s) as Hrun.
  { unfold m, MPLS.handleMessage, MPLS.processPacketFromL2, MPLS.processMPLSPacketFromL2, bind at 1, gets at 1. cbn [lsr_ift ldp_router].
    rewrite Hift, Hi, Hlab. rewrite (proj2 (Z.eqb_neq l (-1))) by lia. unfold bind at 1, gets at 1. cbn [lsr_lt ldp_router]. rewrite Hres.
    unfold bind at 1, MPLS.port_of, bind at 1, gets. cbn [lsr_ift ldp_router]. by rewrite Hift, Hie. }
  clearbody m.
  assert (IPAddress.prefixMatches (dg_dest (origin f)) (addr c) (flength c) = true) as Hpc by (by subst k).
  destruct Hout as [Ho|(l' & Ho & Ht')]; rewrite Ho in Hrun; cbn in Hrun; unfold bind, assert_, hasLabel, ret in Hrun; rewrite Hlab in Hrun; cbn in Hrun.
  - destruct (Z.eqb_spec (nwLayerGateIndex ie) (-1)) as [Hm1|Hm1]; cbn in Hrun; eexists; split_and!; try exact Hrun; try done.
    + cbn. intros f' Hf'. by apply elem_of_nil in Hf'.
    + cbn. destruct (cable _ _) as [[r' g']|]; [|intros f' Hf'; by apply elem_of_nil in Hf']. intros f'. by rewrite list_elem_of_singleton; intros ->.
  - eexists. set (q := p <| labels := [l'] |> <| mp_color := Some (LIBTable.color e) |>) in *.
    destruct (hop_ok nt (at_ f) k (nextHop c) (LIBTable.outInterface e) ie q l' (origin f) (S (hops f)) Hn HR Hwa Ht' Hx Hie eq_refl Hpay Hpre)
      as (g & Hg & Hfo); [lia|].
    split_and!; try exact Hrun; try done.
    + split_and!; [done|done|by exists g].
    + cbn. rewrite Hg. intros f'. by rewrite list_elem_of_singleton; intros ->.
Qed.

Lemma label_flights nt r d d' out : net_ok nt -> r ∈ R -> uncoloured d' = uncoloured d -> labelled_as F N r (told nt r) d' out ->
  forall f, f ∈ carry cable r d 0 (Some out) -> flight_ok nt f.
Proof.
  intros Hn Hr Hd (it & l & x & ie & q & (Hin & Hm & Hx & Ht) & Hie & -> & Hq & Hp) f.
  destruct (hop_ok nt r (key it) (nextHop it) x ie q l d 0 Hn Hr) as (g & Hg & Hfo); [by exists it|done|done|done|done|by rewrite Hp| | |].
  - destruct d, d'. cbn in *. by simplify_eq.
  - destruct (Hl (key it) r Hr) as [Hle _]. lia.
  - cbn. rewrite Hg, list_elem_of_singleton. by intros ->.
Qed.

(** The datagram that is labelled is the one that came down, but for its colour. *)
Lemma fromL3 s d g r E : lsr_ok F N r E s -> table_inv (rt (N r)) -> wlp (MPLS.processPacketFromL3 d g)
  (fun o s' => bounded s' -> lsr_ok F N r E s' /\ msgs s ⊆ msgs s' /\
    exists d', uncoloured d' = uncoloured d /\ (o = Some (IfOut g (NativeIP d')) \/ exists out, o = Some out /\ labelled_as F N r E d' out)) s.
Proof.
  intros Hok Ht. unfold MPLS.processPacketFromL3. apply wlp_bind.
  assert (forall d', uncoloured d' = uncoloured d -> wlp (MPLS.labelAndForwardIPDatagram d' g)
    (fun o s' => bounded s' -> lsr_ok F N r E s' /\ msgs s ⊆ msgs s' /\
      exists d', uncoloured d' = uncoloured d /\ (o = Some (IfOut g (NativeIP d')) \/ exists out, o = Some out /\ labelled_as F N r E d' out)) s) as Hgo.
  { intros d' Hd'. unfold MPLS.labelAndForwardIPDatagram. apply wlp_bind. eapply wlp_mono; [by apply try_label|].
    intros o s' H. destruct o as [out|]; unfold wlp, ret; intros Hb; destruct (H Hb) as (H1 & H2 & H3); split_and!; try done; exists d'; (split; [done|]);
      [right; exists out; split; [done|by apply H3]|by left]. }
  destruct (dg_protocol d =? IPDatagram.IP_PROT_TCP).
  - destruct (dg_encapsulated d) as [src dest| |]; [|done|done]. destruct ((dest =? LDP_PORT) || (src =? LDP_PORT)); [|by apply Hgo].
    apply wlp_bind. unfold wlp at 1, assert_. destruct (dg_color d); [done|]. by apply Hgo.
  - destruct (dg_protocol d =? IPDatagram.IP_PROT_ICMP); [destruct (dg_color d)|]; by apply Hgo.
Qed.

Lemma step_net_ok sys sys' : sys_ok sys -> step sort second cable sys sys' -> sys_ok sys'.
Proof.
  intros [Hn Hfl] Hst. destruct Hst as [r s msg s' nt fl Hs Ha Hh Hb|r s d g out s' nt fl Hs Hh Hb|r s g d d0 h out s' nt fl1 fl2 Hs Hh Hb|
    r s g p d0 h out s' nt fl1 fl2 Hs Hh Hb]; cbn in Hn, Hfl;
    assert (r ∈ R) as Hr by (rewrite <- (nk_dom _ Hn); by eapply elem_of_dom_2); pose proof (nk_router _ Hn _ _ Hs) as Hok.
  - pose proof (handle_safe F N r _ (HN r Hr) sort second msg s Hok (arrives_allowed (mk_System nt fl) r s msg Hn Ha)) as Hsafe.
    unfold safe, wlp in Hsafe. rewrite Hh in Hsafe. destruct (Hsafe Hb) as [Hok' Hm].
    split; cbn; [by eapply net_ok_insert|]. intros f Hf. eapply flight_ok_more; [by eapply told_insert|auto].
  - pose proof (fromL3 s d g r _ Hok (HN r Hr)) as H. unfold wlp in H. cbn in Hh. rewrite Hh in H. destruct (H Hb) as (Hok' & Hm & d' & Hd' & Ho).
    split; cbn; [by eapply net_ok_insert|]. intros f Hf. eapply flight_ok_more; [by eapply told_insert|].
    apply elem_of_app in Hf as [Hf|Hf]; [auto|]. destruct Ho as [->|(o & -> & Ho)]; [|by eapply label_flights].
    cbn in Hf. destruct (cable r g) as [[r' g']|]; [|by apply elem_of_nil in Hf]. by apply list_elem_of_singleton in Hf as ->.
  - pose proof (try_label F N r _ (HN r Hr) s d Hok) as H. unfold wlp in H. cbn in Hh. unfold bind in Hh.
    destruct (MPLS.tryLabelAndForwardIPDatagram d s) as [o s1|]; [|done].
    assert (s1 = s') as -> by (destruct o; by injection Hh). destruct (H Hb) as (Hok' & Hm & Ho).
    split; cbn; [by eapply net_ok_insert|]. intros f Hf. eapply flight_ok_more; [by eapply told_insert|].
    rewrite app_assoc in Hf. apply elem_of_app in Hf as [Hf|Hf]; [apply Hfl; set_solver|].
    destruct o as [o|]; injection Hh as <-; [by eapply label_flights; [..|apply Ho|exact Hf]|by apply elem_of_nil in Hf].
  - destruct (switch_run nt (mk_Flight r g (Labelled p) d0 h) p s Hn) as (c & x & ie & o & _ & _ & _ & _ & Hrun & _ & Hnew); [apply Hfl; set_solver|done|done|].
    cbn [at_ gate origin hops] in *. rewrite Hrun in Hh. injection Hh as <- <-.
    split; cbn; [by eapply net_ok_insert|]. intros f Hf. eapply flight_ok_more; [by eapply told_insert|].
    rewrite app_assoc in Hf. apply elem_of_app in Hf as [Hf|Hf]; [apply Hfl; set_solver|by apply Hnew].
Qed.
End Whole.

(** A network of routers that have just started keeps [sys_ok] for ever. *)
Section Reachable.
Context (sort : list fec_t -> list fec_t) (second : Z) (cable : IPAddress.t -> Z -> option (IPAddress.t * Z)).
Context (F : IPAddress.t -> list fec_t) (N : IPAddress.t -> Node) (nt0 : gmap IPAddress.t t).
Context (rank : FEC_TLV -> IPAddress.t -> nat) (limit : nat).

(** The classes and the tables of every router are those it has started with. *)
Definition starts : Prop := forall r s, nt0 !! r = Some s -> started sort r s /\ F r = fecList s /\ N r = node_of s.

Context (Hsort : forall l, sort l ≡ₚ l) (Hst : starts).

Lemma starts_ok : sys_ok F N (dom nt0) rank limit (mk_System nt0 []).
Proof.
  split; cbn; [split; [done|]|intros f Hf; by apply elem_of_nil in Hf].
  intros r s Hs. destruct (Hst r s Hs) as (H1 & H2 & H3). by eapply started_ok.
Qed.

Lemma starts_tables r : r ∈ dom nt0 -> table_inv (rt (N r)).
Proof.
  intros [s Hs]%elem_of_dom. destruct (Hst r s Hs) as (H1 & H2 & H3). rewrite H3.
  by destruct (started_ok sort Hsort F N r (fun _ _ _ => True) s H1 H2 H3) as (_ & _ & H).
Qed.

Lemma reachable_sys_ok sys : wired cable F N (dom nt0) -> loop_free F (dom nt0) rank limit ->
  reachable sort second cable (mk_System nt0 []) sys -> sys_ok F N (dom nt0) rank limit sys.
Proof.
  intros Hw Hl Hr. pose proof starts_ok as Hok. induction Hr as [|x y z Hxy _ IH]; [done|].
  apply IH. eapply step_net_ok; [exact starts_tables|exact Hw|exact Hl|exact Hok|exact Hxy].
Qed.
End Reachable.

(** C5: Label switching follows the routing tables.  From routers that have just
    started, in any order of label distribution and of packets, with messages of the
    routers delivered in any order and repeatedly: a labelled packet in flight has
    made fewer hops than the longest chain of next hops, it is at a router of the
    network, and that router neither fails on it nor drops it.  The router forwards the
    datagram that was labelled, unchanged but for its colour, through the interface that
    leads to the next hop of a class of this router that contains its destination: with
    a label to that next hop, or without one where the labels end. *)
Theorem label_switching_follows_routes sort second cable F N nt0 rank limit sys f p :
  (forall l, sort l ≡ₚ l) -> starts sort F N nt0 -> wired cable F N (dom nt0) -> loop_free F (dom nt0) rank limit ->
  reachable sort second cable (mk_System nt0 []) sys -> f ∈ flights sys -> packet f = Labelled p ->
  (hops f < limit)%nat /\
  exists s c x ie out, routers sys !! at_ f = Some s /\
    c ∈ F (at_ f) /\ IPAddress.prefixMatches (dg_dest (origin f)) (addr c) (flength c) = true /\
    name_of (N (at_ f)) (nextHop c) = Some x /\ InterfaceTable.getInterfaceByName x (ift (N (at_ f))) = Some ie /\
    MPLS.handleMessage (MPLS.FromL2 (Labelled p) (gate f)) s = Ok (Some out) s /\ switched cable (at_ f) (nextHop c) ie (origin f) out.
Proof.
  intros Hsort Hst Hw Hl Hr Hf Hp. pose proof (reachable_sys_ok _ second _ _ _ _ _ _ Hsort Hst sys Hw Hl Hr) as [Hn Hfl].
  pose proof (Hfl f Hf) as Hfo. pose proof Hfo as Hfo'. unfold flight_ok in Hfo'. rewrite Hp in Hfo'.
  destruct Hfo' as (l & k & u & i & _ & (s & Hs & _) & _ & _ & _ & _ & Hlim). split; [lia|].
  destruct (switch_run cable F N (dom nt0) rank limit Hw Hl _ _ _ _ Hn Hfo Hp Hs) as (c & x & ie & out & H1 & H2 & H3 & H4 & H5 & H6 & _).
  by exists s, c, x, ie, out.
Qed.

