(* ===== verification/LdpDemo.v ===== *)
(** * Three label switching routers in a row

    Routers 1, 2 and 3, and a network behind router 3.  Router 1 asks router 2 for a
    label before router 2 has a connection to router 3; so router 2 first grants a
    label that ends there, withdraws it when router 3 appears, and grants another. *)
From Stdlib Require Import String.
From S2P Require Import Prelude IPAddress MachineFloat InterfaceTable RoutingTable RoutingSpec TED Mpls Ldp LdpSpec LdpRouter LdpStart LdpNetwork.
Import LDP.

Definition mpls_iface (name : string) (id gate a : Z) : InterfaceEntry :=
  InterfaceEntry_new <| ie_name := name |> <| interfaceId := id |> <| nwLayerGateIndex := gate |>
    <| ipv4data := Some (IPv4InterfaceData_new <| inetAddr := a |>) |>.
Definition mpls_direct (h m i : Z) : IPRoute := IPRoute_new <| host := h |> <| netmask := m |> <| interfacePtr := Some i |>.
Definition mpls_remote (h m i gw : Z) : IPRoute := (mpls_direct h m i) <| type_ := REMOTE |> <| gateway := gw |>.

Definition mask24 : Z := 4294967040.
Definition mask32 : Z := 4294967295.

Definition mpls_ifaces (me : IPAddress.t) : list InterfaceEntry :=
  mpls_iface "lo0" 100 (-1) me ::
  (if me =? 1 then [mpls_iface "ppp0" 101 0 101]
   else if me =? 2 then [mpls_iface "ppp0" 101 0 201; mpls_iface "ppp1" 102 1 202]
   else [mpls_iface "ppp0" 101 0 301; mpls_iface "eth0" 102 1 302]).
Definition mpls_routes (me : IPAddress.t) : list IPRoute :=
  if me =? 1 then [mpls_direct 2 mask32 101; mpls_remote 1024 mask24 101 2]
  else if me =? 2 then [mpls_direct 1 mask32 101; mpls_direct 3 mask32 102; mpls_remote 1024 mask24 102 3]
  else [mpls_direct 2 mask32 101; mpls_direct 1024 mask24 102].

Definition mpls_start (me : IPAddress.t) : Node :=
  mk_Node (InterfaceTable.mk (Some <$> mpls_ifaces me) (-1) None) (RoutingTable_new true) 0 [].
Definition mpls_tabled (me : IPAddress.t) : Node :=
  match mapE addRoute (mpls_routes me) (mpls_start me) with Ok _ n => n | Err _ => mpls_start me end.
Definition mpls_node (me : IPAddress.t) : Node := (mpls_tabled me) <| rt := (rt (mpls_tabled me)) <| routerId := me |> |>.

Definition mpls_link (adv lid : Z) : TELinkStateInfo :=
  mk_TELinkStateInfo adv lid 0 0 (double_of_int 1) (double_of_int 100) [] 0 adv 1 true.
Definition mpls_ted (me : IPAddress.t) : TED.t :=
  TED.mk (mpls_node me) [mpls_link 1 2; mpls_link 2 1; mpls_link 2 3; mpls_link 3 2] me [] 0.

(** The order of the classes is left as it is: a permutation, as any other. *)
Definition mpls_sort (l : list fec_t) : list fec_t := l.

Definition mpls_router (me : IPAddress.t) : option t :=
  match initialize mpls_sort (mpls_ted me) LIBTable.new 15 5 1 (1000 * me) tt with Ok s _ => Some s | Err _ => None end.
Definition mpls_net : gmap IPAddress.t t := omap mpls_router (<[1 := 1]> (<[2 := 2]> (<[3 := 3]> ∅))).

Definition mpls_cable (r g : Z) : option (IPAddress.t * Z) :=
  if (r =? 1) && (g =? 0) then Some (2, 0) else if (r =? 2) && (g =? 0) then Some (1, 0)
  else if (r =? 2) && (g =? 1) then Some (3, 0) else if (r =? 3) && (g =? 0) then Some (2, 1) else None.

Definition mpls_F (r : IPAddress.t) : list fec_t := match mpls_net !! r with Some s => fecList s | None => [] end.
Definition mpls_N (r : IPAddress.t) : Node := match mpls_net !! r with Some s => node_of s | None => mpls_node 0 end.
Definition mpls_rank (k : FEC_TLV) (r : IPAddress.t) : nat :=
  if fec_length k =? 24 then Z.to_nat (Z.max 0 (Z.min 2 (3 - r))) else if fec_addr k =? r then 0 else 1.

(** ** The start *)
Lemma routes_inv l n n' ps : Forall (fun e => source e <> MANET) l -> rt_inv n -> mapE addRoute l n = Ok ps n' -> rt_inv n'.
Proof.
  revert n ps. induction l as [|e l IH]; intros n ps Hl Hn; cbn; [by intros [= _ <-]|]. unfold bind. inversion Hl as [|? ? He Hl']; subst.
  destruct (addRoute e n) as [p n1|] eqn:Ha; [|done]. destruct (mapE addRoute l n1) as [qs n2|] eqn:Hr; [|done]. intros [= _ <-].
  eapply IH; [done| |exact Hr]. eapply table_step_inv; [by eapply step_add|exact Hn].
Qed.

Lemma mpls_table me : table_inv (rt (mpls_node me)).
Proof.
  apply (table_inv_same (rt (mpls_tabled me))); [done|]. unfold mpls_tabled.
  assert (rt_inv (mpls_start me)) as Hs by (apply fresh_table_inv; by exists true).
  destruct (mapE addRoute (mpls_routes me) (mpls_start me)) as [ps n|] eqn:Hr; [|apply Hs].
  eapply routes_inv; [|exact Hs|exact Hr]. unfold mpls_routes. destruct (me =? 1), (me =? 2); by repeat constructor.
Qed.

Definition mpls_fresh (me : IPAddress.t) : Prop :=
  routingCache (rt (mpls_node me)) = ∅ /\ localAddresses (rt (mpls_node me)) = ∅ /\ RoutingTable.routerId (rt (mpls_node me)) = me /\
  Z.of_nat (length (routes (rt (mpls_node me)) ++ multicastRoutes (rt (mpls_node me))) + length (InterfaceTable.interfaces (ift (mpls_node me)))) <= 2147483647.

Lemma mpls_net_cases r s : mpls_net !! r = Some s -> (r = 1 \/ r = 2 \/ r = 3) /\ mpls_router r = Some s.
Proof.
  unfold mpls_net. rewrite lookup_omap. intros (x & Hx & Hs)%bind_Some. rewrite !lookup_insert_Some, lookup_empty in Hx.
  destruct Hx as [[<- <-]|[_ [[<- <-]|[_ [[<- <-]|[_ [=]]]]]]]; (split; [tauto|exact Hs]).
Qed.

Lemma mpls_starts : starts mpls_sort mpls_F mpls_N mpls_net.
Proof.
  intros r s Hs. unfold mpls_F, mpls_N. rewrite Hs. split_and!; [|done|done]. apply mpls_net_cases in Hs as [Hr Hs].
  unfold mpls_router in Hs. destruct (initialize mpls_sort (mpls_ted r) LIBTable.new 15 5 1 (1000 * r) tt) as [s' []|] eqn:Hi; [|done].
  injection Hs as ->. exists (mpls_ted r), 15, 5, 1, (1000 * r).
  assert (mpls_fresh r) as (F1 & F2 & F3 & F4).
  { unfold mpls_fresh. destruct Hr as [->|[->| ->]]; (split; [vm_compute; reflexivity|split; [vm_compute; reflexivity|split; [vm_compute; reflexivity|]]]);
      apply Z.leb_le; vm_compute; reflexivity. }
  split_and!; [|done|done]. split; [apply mpls_table|done|done|done].
Qed.

(** ** The topology, computed *)
Definition wired_class (r : IPAddress.t) (f : fec_t) : bool :=
  match name_of (mpls_N r) (nextHop f) with
  | None => true
  | Some x =>
      match InterfaceTable.getInterfaceByName x (ift (mpls_N r)) with
      | None => false
      | Some ie =>
          negb (existsb (Z.eqb (nextHop f)) [1; 2; 3]) || (nextHop f =? r) ||
          match mpls_cable r (nwLayerGateIndex ie) with
          | Some (n, g) => (n =? nextHop f) &&
              match InterfaceTable.getInterfaceByNetworkLayerGateIndex g (ift (mpls_N n)) with
              | Some ie' => bool_decide (name_of (mpls_N n) r = Some (ie_name ie'))
              | None => false
              end
          | None => false
          end
      end
  end.
Definition nearer_class (r : IPAddress.t) (f : fec_t) : bool :=
  negb (existsb (Z.eqb (nextHop f)) [1; 2; 3]) || (nextHop f =? r) || (mpls_rank (key f) (nextHop f) <? mpls_rank (key f) r)%nat.

Lemma mpls_checked : forallb (fun r => forallb (fun f => wired_class r f && nearer_class r f) (mpls_F r)) [1; 2; 3] = true.
Proof. vm_compute. reflexivity. Qed.

Lemma mpls_dom r : r ∈ dom mpls_net <-> r ∈ [1; 2; 3].
Proof.
  rewrite elem_of_dom. split.
  - intros [s Hs]. apply mpls_net_cases in Hs as [[->|[->| ->]] _]; set_solver.
  - intros Hr. assert (Forall (fun r => is_Some (mpls_net !! r)) [1; 2; 3]) as Hall.
    { refine (bool_decide_unpack _ _). vm_compute. exact I. }
    rewrite Forall_forall in Hall. auto.
Qed.

Lemma mpls_check r f : r ∈ dom mpls_net -> f ∈ mpls_F r -> wired_class r f = true /\ nearer_class r f = true.
Proof.
  intros Hr%mpls_dom Hf. pose proof mpls_checked as Hc. rewrite forallb_forall in Hc. specialize (Hc r (proj1 (list_elem_of_In _ _) Hr)).
  rewrite forallb_forall in Hc. by apply andb_true_iff, Hc, list_elem_of_In.
Qed.

Lemma router_b n : n ∈ dom mpls_net -> existsb (Z.eqb n) [1; 2; 3] = true.
Proof. intros Hn%mpls_dom. apply existsb_exists. exists n. split; [by apply list_elem_of_In|apply Z.eqb_refl]. Qed.

Lemma mpls_wired : wired mpls_cable mpls_F mpls_N (dom mpls_net).
Proof.
  intros r k n x Hr (f & Hf & _ & <-) Hx. destruct (mpls_check r f Hr Hf) as [Hc _]. unfold wired_class in Hc. rewrite Hx in Hc.
  destruct (InterfaceTable.getInterfaceByName x (ift (mpls_N r))) as [ie|]; [|done]. exists ie. split; [done|]. intros Hn Hne.
  rewrite (router_b _ Hn), (proj2 (Z.eqb_neq _ _) Hne) in Hc. cbn [negb orb] in Hc.
  destruct (mpls_cable r (nwLayerGateIndex ie)) as [[n' g]|]; [|done]. apply andb_true_iff in Hc as [->%Z.eqb_eq Hc].
  destruct (InterfaceTable.getInterfaceByNetworkLayerGateIndex g (ift (mpls_N (nextHop f)))) as [ie'|] eqn:Hi; [|done].
  apply bool_decide_eq_true_1 in Hc. by exists g, ie'.
Qed.

Lemma mpls_loop_free : loop_free mpls_F (dom mpls_net) mpls_rank 2.
Proof.
  intros k r Hr. split.
  - unfold mpls_rank. destruct (fec_length k =? 24); [lia|]. destruct (fec_addr k =? r); lia.
  - intros n Hn Hne (f & Hf & <- & <-). destruct (mpls_check r f Hr Hf) as [_ Hc]. unfold nearer_class in Hc.
    rewrite (router_b _ Hn), (proj2 (Z.eqb_neq _ _) Hne) in Hc. by apply Nat.ltb_lt.
Qed.

(** ** Runs *)
(** [EvData r c d i]: the [i]th message that router [d] has sent arrives at [r] on
    connection [c]. *)
Inductive Event : Type :=
  | EvHello (r from : IPAddress.t) (ifId : Z)
  | EvEstablished (r : IPAddress.t) (c : Z) (from : IPAddress.t)
  | EvData (r : IPAddress.t) (c : Z) (d : IPAddress.t) (i : nat)
  | EvSend (r : IPAddress.t) (d : Datagram)
  | EvSwitch.

Definition link_up_b (s : t) (from : IPAddress.t) : bool :=
  match (let! i := TED.linkIndex_of (getRouterId s) from in TED.link_at i) (tedmod s) with Ok l _ => te_state l | Err _ => true end.

Definition deliver (r : IPAddress.t) (msg : Message) (sys : System) : option System :=
  match routers sys !! r with
  | None => None
  | Some s =>
      match LDP.handleMessage mpls_sort 1 msg s with
      | Ok _ s' => if count s' <=? 2147483647 then Some (mk_System (<[r := s']> (routers sys)) (flights sys)) else None
      | Err _ => None
      end
  end.

Definition exec (ev : Event) (sys : System) : option System :=
  match ev with
  | EvHello r from ifId =>
      match routers sys !! r with
      | Some s => if link_up_b s from then deliver r (FromUDP from ifId) sys else None
      | None => None
      end
  | EvEstablished r c from => deliver r (FromTCP c (TCP_I_ESTABLISHED from)) sys
  | EvData r c d i =>
      match routers sys !! d with
      | Some sd => match msgs sd !! i with
                   | Some (r', p) => if r' =? r then deliver r (FromTCP c (TCP_I_DATA p)) sys else None
                   | None => None
                   end
      | None => None
      end
  | EvSend r d =>
      match routers sys !! r with
      | Some s => match MPLS.handleMessage (MPLS.FromL3 d 0) s with
                  | Ok out s' => if count s' <=? 2147483647
                                 then Some (mk_System (<[r := s']> (routers sys)) (flights sys ++ carry mpls_cable r d 0 out)) else None
                  | Err _ => None
                  end
      | None => None
      end
  | EvSwitch =>
      match flights sys with
      | mk_Flight r g (Labelled p) d0 h :: fl =>
          match routers sys !! r with
          | Some s => match MPLS.handleMessage (MPLS.FromL2 (Labelled p) g) s with
                      | Ok out s' => if count s' <=? 2147483647
                                     then Some (mk_System (<[r := s']> (routers sys)) (fl ++ carry mpls_cable r d0 (S h) out)) else None
                      | Err _ => None
                      end
          | None => None
          end
      | _ => None
      end
  end.
Fixpoint run (evs : list Event) (sys : System) : option System :=
  match evs with [] => Some sys | ev :: rest => exec ev sys ≫= run rest end.

Lemma mpls_deliver_step r msg sys sys' : (forall s, routers sys !! r = Some s -> arrives sys r s msg) ->
  deliver r msg sys = Some sys' -> step mpls_sort 1 mpls_cable sys sys'.
Proof.
  intros Ha. unfold deliver. destruct (routers sys !! r) as [s|] eqn:Hs; [|done].
  destruct (LDP.handleMessage mpls_sort 1 msg s) as [[] s'|] eqn:Hh; [|done]. destruct (Z.leb_spec (count s') 2147483647) as [Hb|]; [|done].
  intros [= <-]. destruct sys as [nt fl]. cbn. eapply step_ldp; [exact Hs|by apply Ha|exact Hh|exact Hb].
Qed.

Lemma exec_step ev sys sys' : exec ev sys = Some sys' -> step mpls_sort 1 mpls_cable sys sys'.
Proof.
  destruct ev as [r from ifId|r c from|r c d i|r d|]; unfold exec.
  - destruct (routers sys !! r) as [s|] eqn:Hs; [|done]. destruct (link_up_b s from) eqn:Hl; [|done]. apply mpls_deliver_step.
    intros s1 Hs1. assert (s1 = s) as -> by congruence. cbn. right. unfold link_up, link_up_b in *.
    by destruct ((let! i := TED.linkIndex_of (getRouterId s) from in TED.link_at i) (tedmod s)).
  - by apply mpls_deliver_step.
  - destruct (routers sys !! d) as [sd|] eqn:Hd; [|done]. destruct (msgs sd !! i) as [[r' p]|] eqn:Hi; [|done].
    destruct (Z.eqb_spec r' r) as [->|]; [|done]. apply mpls_deliver_step. intros s Hs. cbn. exists d, sd. split; [done|].
    by eapply list_elem_of_lookup_2.
  - destruct (routers sys !! r) as [s|] eqn:Hs; [|done]. destruct (MPLS.handleMessage (MPLS.FromL3 d 0) s) as [out s'|] eqn:Hh; [|done].
    destruct (Z.leb_spec (count s') 2147483647) as [Hb|]; [|done]. intros [= <-]. destruct sys as [nt fl].
    by eapply step_send.
  - destruct (flights sys) as [|[r g [d|p] d0 h] fl] eqn:Hf; [done|done|]. destruct (routers sys !! r) as [s|] eqn:Hs; [|done].
    destruct (MPLS.handleMessage (MPLS.FromL2 (Labelled p) g) s) as [out s'|] eqn:Hh; [|done].
    destruct (Z.leb_spec (count s') 2147483647) as [Hb|]; [|done]. intros [= <-]. destruct sys as [nt fl']. cbn in Hf, Hs. subst fl'.
    by apply (step_switch mpls_sort 1 mpls_cable r s g p d0 h out s' nt [] fl).
Qed.

Lemma run_reachable evs sys sys' : run evs sys = Some sys' -> reachable mpls_sort 1 mpls_cable sys sys'.
Proof.
  revert sys. induction evs as [|ev evs IH]; intros sys; cbn; [by intros [= ->]; apply rtc_refl|].
  destruct (exec ev sys) as [sys1|] eqn:He; [|done]. intros Hr. eapply rtc_l; [by eapply exec_step|by apply IH].
Qed.

Definition mpls_datagram : Datagram := mk_Datagram 1030 17 (EncUDP 1000 2000) 800 None 7.
Definition mpls_events : list Event :=
  [EvHello 1 2 101; EvHello 2 1 101; EvEstablished 2 5001 1; EvEstablished 1 1001 2;
   EvData 2 5001 1 0; EvData 2 5001 1 1; EvData 1 1001 2 2;
   EvHello 2 3 102; EvHello 3 2 101; EvEstablished 3 6001 2; EvEstablished 2 2002 3;
   EvData 1 1001 2 4; EvData 3 6001 2 5; EvData 2 2002 3 1; EvData 2 5001 1 3; EvData 1 1001 2 6;
   EvSend 1 mpls_datagram].
Definition mpls_end : System := default (mk_System ∅ []) (run mpls_events (mk_System mpls_net [])).

Lemma mpls_reaches : reachable mpls_sort 1 mpls_cable (mk_System mpls_net []) mpls_end.
Proof.
  apply (run_reachable mpls_events). unfold mpls_end. destruct (run mpls_events (mk_System mpls_net [])) eqn:Hr; [done|].
  exfalso. assert (is_some (run mpls_events (mk_System mpls_net [])) = true) as Hs by (vm_compute; reflexivity). by rewrite Hr in Hs.
Qed.

(** The datagram has crossed the first cable with the second label of router 2. *)
Definition mpls_packet : MPLSPacket := mk_MPLSPacket [2] 832 (Some LDP_USER_TRAFFIC) mpls_datagram.
Definition mpls_flight : Flight := mk_Flight 2 0 (Labelled mpls_packet) mpls_datagram 0.
Lemma mpls_flights : flights mpls_end = [mpls_flight].
Proof. vm_compute. reflexivity. Qed.

Lemma mpls_sort_perm l : mpls_sort l ≡ₚ l.
Proof. done. Qed.

Lemma label_switching_follows_routes_witness :
  flights mpls_end = [mpls_flight] /\
  (hops mpls_flight < 2)%nat /\
  exists s c x ie out, routers mpls_end !! at_ mpls_flight = Some s /\
    c ∈ mpls_F 2 /\ IPAddress.prefixMatches 1030 (addr c) (flength c) = true /\
    name_of (mpls_N 2) (nextHop c) = Some x /\ InterfaceTable.getInterfaceByName x (ift (mpls_N 2)) = Some ie /\
    MPLS.handleMessage (MPLS.FromL2 (Labelled mpls_packet) 0) s = Ok (Some out) s /\
    switched mpls_cable 2 (nextHop c) ie mpls_datagram out.
Proof.
  split; [exact mpls_flights|].
  apply (label_switching_follows_routes mpls_sort 1 mpls_cable mpls_F mpls_N mpls_net mpls_rank 2 mpls_end mpls_flight mpls_packet).
  - exact mpls_sort_perm.
  - exact mpls_starts.
  - exact mpls_wired.
  - exact mpls_loop_free.
  - exact mpls_reaches.
  - rewrite mpls_flights. apply list_elem_of_here.
  - reflexivity.
Defined.

Definition mpls_at (r : IPAddress.t) : t := default (mk (mpls_ted r) LIBTable.new 0 0 [] [] [] [] [] ∅ ∅ None [] 0 0 [] []) (routers mpls_end !! r).
Lemma mpls_at_1 : routers mpls_end !! (1 : IPAddress.t) = Some (mpls_at 1).
Proof. vm_compute. reflexivity. Qed.
Lemma mpls_at_2 : routers mpls_end !! (2 : IPAddress.t) = Some (mpls_at 2).
Proof. vm_compute. reflexivity. Qed.
Lemma mpls_release : msgs (mpls_at 1) !! 2%nat = Some (2, LDPLabelMapping LABEL_RELEASE 2 1 (mk_FEC 1024 24) 1).
Proof. vm_compute. reflexivity. Qed.

